(* ===== verification/_CoqProject ===== *)
-Q . S2P
Prelude.v
Effects.v
NetIP.v
Ethernet.v
IPv4.v
Icmp.v
Udp.v
Tcp.v
Arp.v
TcpConn.v
Stack.v
StackTcp.v
Provenance.v
StackProps.v
Frames.v
Dhcp.v
GoStr.v
Dns.v
DialRetry.v
Resets.v
Http.v
Tls.v
HttpStream.v
HttpTransport.v
OciTransport.v
OciRef.v
OciFetch.v
OciStream.v
LittleEndian.v
Base64.v
Cosign.v
BootMenu.v
ArMember.v
PackStub.v
BlkRing.v
MemMap.v
Memory.v
Utf8.v
BootServices.v
FwCfg.v
BootEntry.v
KernelBoot.v
EventLog.v
MeasuredBoot.v
Rng.v
BlockIO.v
Gpt.v
EspImage.v
WindowsImage.v
DevicePath.v
LoadSfs.v
VirtioPci.v
NetUp.v
SfsPath.v
UfsImage.v
Sfs.v
SfsProps.v
SfsRead.v
StubBoot.v
BlkProbe.v
DiskBoot.v
CosignProbe.v
ExtractKernel.v
Probes.v
