(* ===== verification/Prelude.v ===== *)
(** * tamago-uefi: a verification development

    The program is a bare-metal UEFI application in Go (tamago): it brings up a
    small IPv4 stack on a virtio-net card, takes a DHCP lease, fetches a boot
    menu and boot payloads from an OCI registry, checks digests and signatures,
    and hands firmware what it fetched, as a loaded image, a block device or a
    file system.  File names below are relative to the repository's root.

    ** Conventions

    Bytes are [Byte.byte]; a []byte or a string is a [list byte]; an int is a
    [Z]; an unsigned integer of width [w] is a [Z] that the wrap functions
    [u8] to [u64] keep in range, and [s64] is the conversion to int64.  An
    operation of the language that can panic (index, slice, conversion of a
    short slice) has the outcome [Panic]; a returned error is the outcome
    [Err] with the error values of the source as the constructors of [error].
    Stateful code is written in the state-and-outcome monad of Effects.v, whose
    [leads] is total: it excludes panics and holds on both ends of an
    operation.  A Go map is a [gmap], a slice a list, a package-level registry
    a list of fixed length, and memory that firmware shares a [gmap] of bytes
    (Memory.v), so that aliasing is what the addresses say.

    ** Parts

    - Prelude.v, Effects.v, GoStr.v, LittleEndian.v, Base64.v, Utf8.v,
      Memory.v: the language, the part of the standard library that the code
      uses, and raw memory, with the lemmas, hints and tactics the rest shares.
    - The stack, uefiboard/ministack/: NetIP.v (net.IP), Ethernet.v
      (ethernet.go), IPv4.v (ipv4.go), Icmp.v (icmp4.go), Udp.v (udp4.go, the
      codec), Tcp.v (tcp4.go, segments and sequence numbers), Arp.v (arp.go),
      TcpConn.v (tcp4.go, reassembly and the state machine of a connection),
      Stack.v and StackTcp.v (stack.go and the operations of udp4.go and
      tcp4.go that pump the link), with StackProps.v for their properties.  A
      network card is an instance of the class [Link]; a theorem that
      quantifies over [Link] is about every sequence of frames.  Provenance.v
      wraps a link in a recorder of what it delivers, to say which frame a
      datagram came from, and Frames.v in a recorder of what it is handed;
      Resets.v ties a connection that is closed under its user to a reset that
      was heard.
    - Clients of the stack: Dhcp.v (dhcp4.go), Dns.v (dns.go), DialRetry.v
      (dial_retry.go), Tls.v (tls.go, ca_bundle.go), Http.v, HttpStream.v and
      HttpTransport.v (http.go, https.go: the buffered client, the streaming
      client over any connection, and its two transports), OciTransport.v
      (orasoci/transport.go: the adapter that serves net/http requests), NetUp.v
      (what every network program does first: card, stack, lease, route).
    - The registry client, uefiboard/ministack/oci/: OciRef.v (ref.go,
      digest.go and the string half of registry.go), OciFetch.v (manifest.go,
      registry.go, FetchArtifact of fetch.go), OciStream.v (FetchBlobStream),
      Cosign.v (cosign.go).  The registry is an instance of the class
      [Transport]: any answers, in any order.
    - Firmware services, uefiboard/: BootServices.v (images, pages, pools,
      protocols, configuration tables, load options), MemMap.v (memorymap.go,
      memorymap_tamago.go), VirtioPci.v (pci_io_protocol_tamago.go, pci_mem_io.go,
      virtio_uefi_transport.go and the searches for virtio devices), DevicePath.v
      and LoadSfs.v (device_path.go, sfs_filter*.go, loadimage_sfs_tamago.go,
      block_io_publish_tamago.go), BlkRing.v (blkprintk.go,
      blkprintk_tamago.go and cmd/blkprintk-recover), BlockIO.v
      (block_io_publish*.go), SfsPath.v and Sfs.v (sfs_publish*.go), with
      SfsProps.v and SfsRead.v for the properties, EventLog.v
      (tcg2_protocol_tamago.go), Rng.v (rng_protocol*.go), FwCfg.v
      (dtb_fetch*.go).  The firmware is an instance of the class [Firmware]:
      a call is given its arguments and the memory and answers with a status, an
      out-parameter and a memory; what the UEFI specification promises of it is
      the class [FirmwareOk], used only by the theorems that name it.
    - Programs: BootMenu.v (uefiboard/bootmenu/ and menuLoop of
      phase2_dhcp_oci_menu.go), BootEntry.v (bootEntry of the same file),
      KernelBoot.v (phase2_oci_kernel_boot.go, kernelboot_<arch>.go,
      dtb_probe.go), DiskBoot.v with Gpt.v (phase2_oci_freebsd_boot.go,
      phase3_oci_netbsd_boot.go, phase3_oci_openbsd_boot.go,
      phase3_ufs_partition.go), CosignProbe.v (phase2_oci_cosign_verify.go),
      PackStub.v and StubBoot.v (cmd/efipackstub), MeasuredBoot.v
      (phase2_tpm_measure.go and its two companions; KernelBoot.v is the build
      without the tag phase2_tpm_measure, in which this hook is the no-op of
      phase2_tpm_measure_stub.go), BlkProbe.v
      (phase2_blkprintk.go, block_io_protocol_tamago.go, printk of board.go), Probes.v
      (phase2_efi_handover.go, phase2_efi_tiny_handover.go, phase2_oci_fetch.go,
      phase2_oci_stream_fetch.go and the ARP request of phase2_virtionet_tx.go).
    - Host tools: ArMember.v and ExtractKernel.v (cmd/cloudboot-oci-extract),
      EspImage.v and UfsImage.v (internal/livefreebsdboot/buildespimg, the disk
      and the UFS partition in it), WindowsImage.v
      (internal/livewindowsboot/buildwindowsimg).

    The programs call the services through their wrappers and nothing else: a
    program's state is the registry it talks to next to the machine (firmware,
    memory and the log of calls), so a theorem about a program speaks of the
    calls in that log.

    ** What is shown

    - The stack: no API call and no frame makes reachable code panic
      ([stack_never_panics]); every frame it sends is well formed
      ([stack_sends_typed_frames]); what Read returns is a prefix of the peer's
      stream whatever the network does to segments ([tcp_stream_prefix]), and
      all of it once the gaps are filled ([tcp_reassembly_complete]); ports are
      released on every exit, but for one: a connection that the peer resets
      keeps its port, which the theorems on HTTP and TLS say and a lemma shows
      ([reset_leaks_port]); leases and lookups come from frames received during
      the call that answer the query; the programs run only on the address such
      a lease gave ([network_up_from_lease]).
    - HTTP and TLS: responses are parsed back to what was framed, and a chunked
      body does not depend on how the transport cuts it; bodies are bounded; a
      TLS connection is returned only after a handshake that had the name asked
      for and the embedded roots ([tls_dial_secured]).
    - Fetching: every returned blob and picked manifest matches its digest,
      the token stays with the registry, a signature is accepted only from the
      pinned key: over this repository and manifest in two of its forms, over a
      statement whose first subject is this manifest in the third, and a valid
      signature is accepted whatever else is published beside it.
    - Booting: the menu boots what was selected; every program starts at most
      one image, which is the embedded one or comes out of layers that match the
      manifest, once it is served as it was verified ([kernel_boot_starts],
      [disk_boot_serves_verified_image], [menu_boots_verified_kernel]); the
      packed stub starts what it unpacks from its own file and leaves no handle
      open ([packed_stub_starts]); a measured boot of a kernel ends with the
      registers that an attestation expects ([measured_boot_attested]).
    - Firmware: what is published is what firmware reads back, nothing outside
      the caller's buffers is written, stale handles answer NOT_FOUND, the memory map
      is returned as the firmware lays it out ([memory_map_returned]), and the
      invariant of the file system's registries holds over every sequence of
      callbacks; devices are found where the bus has them.
    - Tools and logs: ring and recovery, archive walk, the kernel that the
      extraction tool packages is the one the boot programs accept, a push ends
      with the manifest, and the disk images that the builders write are read
      back by the code that boots them, a UFS image is filled with directories
      before what they hold ([ufs_image_populated]), and the log is written to
      a marked scratch disk and to no other ([scratch_disk_only]); the
      smoke tests start what they embed and fetch what they count.

    A theorem is stated in terms that are independent of the code it is about:
    the number that bytes spell ([littleEndian], [bigEndian]), the text of a
    device path ([isPath], [nodeText]), a PE image of a machine ([peImage]), the
    payload of a file ([payloadAt]), a manifest served for a reference
    ([answersManifest]), a run of a file-system writer ([ran]), the events of a
    log with the widths of their digests ([wfDigest]).

    ** Bounds and fuel

    The pumps of the stack run at most [maxPumpIters] (1,000,000) iterations,
    the cap of the code itself.  Parsers whose loops consume input take the
    length of the input as fuel, and [walkAnswers] and the label loop their
    own caps of the code, as do the walks over a device path ([maxNodes]).  Body
    copiers whose length depends on the peer take fuel as an argument, and the
    theorems say how much is enough.  [pathFuel] is 16386, beyond the 64 KiB that
    devicePathBytes reads.  The retry loops (dial attempts, redirects, memory-map
    sizes) have the bounds of the code.  arFindMember, which can loop, has fuel
    and a theorem for archives it ends on and one for an archive it does not.

    ** Parameters

    Code outside the repository is an argument: SHA-256, ECDSA, PEM and X.509,
    the JSON and HCL decoders and encoders, gzip, xz, tar, LZ4, LZFSE and flate,
    crypto/rand, net.ParseIP, the TLS handshake, net/http on the host, the UFS
    reader and writer, the TPM driver with the replay and policy check of the
    attestation library, the Filesystem interface that SFS publishes, the virtio
    drivers, and every answer of the firmware (statuses, addresses, memory
    contents).  Where Go puts an allocation that firmware is handed is an argument
    too.  Laws about them are hypotheses of the theorems that need them, and the
    witnesses instantiate them.

    ** Not modelled

    - Assembly: entry points, trampolines and firmware-call thunks, and the CPU
      and board hooks around them, which have no meaning in terms of Go values.
    - The structure layouts and one-call wrappers whose whole meaning is an
      answer of the firmware, where no program modelled here uses them.
    - The virtio drivers and the oras-go client, which are other modules, with
      the glue that constructs them, and the copy of the UFS reader under
      internal/livefreebsdboot/extractufs/verify, which is another module's.
    - Printing: the markers of the probes, log lines and panics' texts; and the
      probes that only call modelled parts in sequence and print.
    - Wall-clock deadlines: under tamago the checker counts iterations. *)

From stdpp Require Export base gmap list strings.
From Stdlib Require Export ZArith Lia Strings.Byte.

#[global] Open Scope Z_scope.

Abbreviation byte := Init.Byte.byte.

(** ** Bytes *)

Definition b2z (b : byte) : Z := Z.of_N (Byte.to_N b).

Definition z2b (z : Z) : byte :=
  match Byte.of_N (Z.to_N (z mod 256)) with Some b => b | None => x00 end.

#[global] Instance byte_eq_dec : EqDecision byte.
Proof.
  intros a b. destruct (Byte.eqb a b) eqn:E.
  - left. by apply Byte.byte_dec_bl.
  - right. intros ->. rewrite Byte.byte_dec_lb in E; done.
Defined.

#[global] Program Instance byte_countable : Countable byte :=
  inj_countable Byte.to_N Byte.of_N _.
Next Obligation. intros b. apply Byte.of_to_N. Qed.

Lemma b2z_range b : 0 <= b2z b < 256.
Proof. unfold b2z. pose proof (Byte.to_N_bounded b). lia. Qed.

Lemma b2z_z2b z : b2z (z2b z) = z mod 256.
Proof.
  unfold z2b, b2z. pose proof (Z.mod_pos_bound z 256 ltac:(lia)) as Hb.
  destruct (Byte.of_N (Z.to_N (z mod 256))) as [b|] eqn:E.
  - apply Byte.to_of_N in E. rewrite E. lia.
  - apply Byte.of_N_None_iff in E. lia.
Qed.

Lemma b2z_inj a b : b2z a = b2z b -> a = b.
Proof.
  unfold b2z. intros H%N2Z.inj.
  pose proof (Byte.of_to_N a) as Ha. pose proof (Byte.of_to_N b) as Hb. congruence.
Qed.

Lemma z2b_b2z b : z2b (b2z b) = b.
Proof. apply b2z_inj. rewrite b2z_z2b. apply Z.mod_small, b2z_range. Qed.

(** Byte-string literals: [str "GET "]. *)
Definition str (s : String.string) : list byte := String.list_byte_of_string s.
Arguments str s%_string_scope.

(** ** Outcomes *)

(** The sentinel errors of the packages that are modelled.  An error of code
    that is not modelled (a transport, the firmware) is an [ErrOther]. *)
Inductive error :=
| ErrFrameTooShort | ErrFrameTooLong | ErrInvalidMAC
| ErrARPTimeout | ErrARPInvalidPacket
| ErrIPv4HeaderTooShort | ErrIPv4NotV4 | ErrIPv4BadChecksum
| ErrIPv4PacketTooLong | ErrIPv4InvalidIP | ErrNoRoute
| ErrICMPTooShort | ErrICMPBadChecksum
| ErrUDP4HeaderTooShort | ErrUDP4BadLength | ErrUDP4BadChecksum
| ErrUDP4PayloadTooLong | ErrUDP4PortInUse | ErrUDP4ConnClosed
| ErrUDP4ReadTimeout | ErrUDP4InvalidAddr
| ErrTCP4HeaderTooShort | ErrTCP4BadChecksum | ErrTCP4PortInUse
| ErrTCP4ConnClosed | ErrTCP4Timeout | ErrTCP4ConnRefused
| ErrTCP4InvalidAddr | ErrTCP4NotConnected | ErrTCP4NoLocalAddr
| ErrTCP4PeerClosed
| ErrStackClosed | ErrPingTimeout | ErrNoLocalIPv4
| ErrDHCP4Timeout | ErrDHCP4MissingOption | ErrDHCP4UnexpectedMsg
| ErrDHCP4Nak | ErrDHCP4BadFormat
| ErrDNSTimeout | ErrDNSBadFormat | ErrDNSEmptyAnswer | ErrDNSRcode
| ErrDNSNameTooLong | ErrDNSLabelTooLong | ErrDNSCompressLoop
| ErrDNSInvalidServer
| ErrHTTPBadURL | ErrHTTPBadStatusLine | ErrHTTPBadHeader | ErrHTTPBadChunk
| ErrHTTPSchemeNotHTTP | ErrHTTPSchemeNotHTTPS | ErrHTTPResponseTooBig | ErrHTTPLineTooLong
| ErrUnexpectedEOF | ErrEOF | ErrShortWrite
| ErrTLSNoServerName | ErrCertificate
| ErrDialAttemptsExhausted (attempts : Z) (last : error)
| ErrRefNoRepo | ErrDigestUnsupported | ErrDigestBadShape | ErrDigestMismatch
| ErrIndexNoMatch | ErrManifestEmpty | ErrBadJSON
| ErrChallengeMissing | ErrChallengeUnsupported | ErrChallengeMissingRealm
| ErrTokenEmpty | ErrRegistryStatus (url : list byte) (status : Z)
| ErrTransportNotStreaming | ErrBlobBufferTooSmall | ErrBlobBufferOverflow
| ErrBlobSizeMismatch | ErrTooManyRedirects | ErrArchRequired
| ErrCosignPEMBad | ErrCosignKeyNotECDSA | ErrCosignCurveNotP256 | ErrCosignSigManifestEmpty
| ErrCosignNoMatchingSignature | ErrCosignBadManifestDigest | ErrCosignBundleMalformed | ErrCosignBundleAlgo
| ErrCorruptInput
| ErrEmptyInput | ErrHCL | ErrNoEntries | ErrDuplicateLabel | ErrDefaultNotFound | ErrNoSink
| ErrNoKey | ErrNoConIn
| ErrDevicePath | ErrTruncated | ErrNotFound | ErrVmlinuzNotFound | ErrVmlinuzEmpty | ErrVmlinuzShortRead
| ErrNoBlockIOSink | ErrBufferSizeMismatch
| ErrBlkFrameShortHeader | ErrBlkFramePayloadTooBig | ErrBlkFrameShortPayload
| ErrProbeNotRun
| ErrNoBootServices | ErrEFI (status : Z)
| ErrEmptyBlockImage | ErrBlockIOImageNotAligned | ErrBlockIORegistryFull | ErrBlockIONotPublished
| ErrSFSNilFilesystem | ErrSFSRegistryFull | ErrSFSHandleRegistryFull | ErrSFSNotPublished
| ErrNoMatchingSFS | ErrMapTooSmall | ErrEmptyCmdline | ErrNilHandle
| ErrLoadImageNoSource | ErrDTBEmpty | ErrNotPE | ErrNoLayers | ErrLayerTooBig | ErrGzip
| ErrFwCfgUnsupportedArch | ErrFwCfgEmptyFileDir | ErrFwCfgDTBNotFound | ErrFwCfgDTBTooLarge
| ErrRNGRegistryFull | ErrRNGNotPublished
| ErrGPT | ErrNoUFSPartition | ErrNotDiskImage | ErrNoTargetRef | ErrNoSFSHandles | ErrUFS | ErrZeroHandle | ErrAllocReturnedZero | ErrNoVirtioNet | ErrCABundleParse
| ErrEmptyEmbed | ErrUnknownVariant | ErrTamperedAccepted | ErrNoPartitions | ErrUnknownArch | ErrNoLocation | ErrNotImplemented
| ErrNilURL | ErrUnsupportedScheme | ErrBadPort | ErrOnlyIPv4 | ErrNoDNSServer | ErrBadContentLength | ErrContext (code : Z)
| ErrOther (code : Z).

#[global] Instance error_eq_dec : EqDecision error.
Proof. solve_decision. Defined.

Inductive out (A : Type) :=
| Ok (a : A)
| Err (e : error)
| Panic.
Arguments Ok {A} a.
Arguments Err {A} e.
Arguments Panic {A}.

#[global] Instance out_eq_dec {A} `{EqDecision A} : EqDecision (out A).
Proof. solve_decision. Defined.

Definition out_bind {A B} (m : out A) (f : A -> out B) : out B :=
  match m with Ok a => f a | Err e => Err e | Panic => Panic end.

Declare Scope go_scope.
Delimit Scope go_scope with go.
Open Scope go_scope.

Notation "'let*' x := m 'in' k" := (out_bind m (fun x => k))
  (at level 200, x pattern, m at level 100, k at level 200, right associativity,
   format "'[v' 'let*'  x  :=  m  'in' '/' k ']'") : go_scope.

(** [if guard { return err }] *)
Notation "'ret_if' b 'with' e ;; k" := (if b then Err e else k)
  (at level 200, b at level 100, e at level 50, k at level 200, right associativity,
   format "'[v' 'ret_if'  b  'with'  e ;; '/' k ']'") : go_scope.

Definition is_ok {A} (m : out A) : bool := match m with Ok _ => true | _ => false end.

(** An operation that does not panic. *)
Definition safe {A} (m : out A) : Prop := m <> Panic.

Lemma Ok_inj {A} (a b : A) : Ok a = Ok b -> a = b.
Proof. by intros [=]. Qed.

Lemma safe_ok {A} (a : A) : safe (Ok a).
Proof. done. Qed.
Lemma safe_err {A} e : safe (@Err A e).
Proof. done. Qed.
Lemma safe_bind {A B} (m : out A) (f : A -> out B) :
  safe m -> (forall a, m = Ok a -> safe (f a)) -> safe (out_bind m f).
Proof. destruct m; cbn; intros Hm Hf; [by apply Hf|done|done]. Qed.
Lemma safe_if {A} (b : bool) (m n : out A) :
  (b = true -> safe m) -> (b = false -> safe n) -> safe (if b then m else n).
Proof. destruct b; auto. Qed.

(** ** Fixed-width integers *)

Definition u8 (z : Z) : Z := z mod 2 ^ 8.
Definition u16 (z : Z) : Z := z mod 2 ^ 16.
Definition u32 (z : Z) : Z := z mod 2 ^ 32.
Definition u64 (z : Z) : Z := z mod 2 ^ 64.

(** Reading a 32- or 64-bit pattern as two's complement. *)
Definition s32 (z : Z) : Z := (z + 2 ^ 31) mod 2 ^ 32 - 2 ^ 31.
Definition s64 (z : Z) : Z := (z + 2 ^ 63) mod 2 ^ 64 - 2 ^ 63.

Definition isU16 (z : Z) : Prop := 0 <= z < 2 ^ 16.
Definition isU32 (z : Z) : Prop := 0 <= z < 2 ^ 32.

(** ** Slices *)

Definition len {A} (l : list A) : Z := Z.of_nat (length l).

Definition idx (l : list byte) (i : Z) : out Z :=
  if (0 <=? i) && (i <? len l) then Ok (b2z (nth (Z.to_nat i) l x00)) else Panic.

(** [l[lo:hi]].  Go bounds [hi] by the capacity; the model bounds it by the
    length, which panics at least as often. *)
Definition slice {A} (l : list A) (lo hi : Z) : out (list A) :=
  if (0 <=? lo) && (lo <=? hi) && (hi <=? len l)
  then Ok (take (Z.to_nat (hi - lo)) (drop (Z.to_nat lo) l)) else Panic.

Definition sliceFrom {A} (l : list A) (lo : Z) : out (list A) := slice l lo (len l).
Definition sliceTo {A} (l : list A) (hi : Z) : out (list A) := slice l 0 hi.

(** [make([]byte, n)] *)
Definition make (n : Z) : list byte := repeat x00 (Z.to_nat n).

(** [copy(dst, src)]: the new contents of [dst]. *)
Definition copy (dst src : list byte) : list byte :=
  let n := Nat.min (length dst) (length src) in take n src ++ drop n dst.

(** [copy(buf[lo:hi], src)] *)
Definition copyAt (buf : list byte) (lo hi : Z) (src : list byte) : out (list byte) :=
  let* d := slice buf lo hi in
  Ok (take (Z.to_nat lo) buf ++ copy d src ++ drop (Z.to_nat hi) buf).

(** [buf[i] = v] *)
Definition setAt (buf : list byte) (i v : Z) : out (list byte) :=
  if (0 <=? i) && (i <? len buf)
  then Ok (take (Z.to_nat i) buf ++ z2b v :: drop (Z.to_nat i + 1) buf) else Panic.

(** encoding/binary's BigEndian accessors. *)
Definition be16 (a b : byte) : Z := Z.lor (Z.shiftl (b2z a) 8) (b2z b).
Definition be32 (a b c d : byte) : Z :=
  Z.lor (Z.lor (Z.shiftl (b2z a) 24) (Z.shiftl (b2z b) 16))
        (Z.lor (Z.shiftl (b2z c) 8) (b2z d)).

Definition Uint16 (b : list byte) : out Z :=
  match b with b0 :: b1 :: _ => Ok (be16 b0 b1) | _ => Panic end.
Definition Uint32 (b : list byte) : out Z :=
  match b with b0 :: b1 :: b2 :: b3 :: _ => Ok (be32 b0 b1 b2 b3) | _ => Panic end.

(** [binary.BigEndian.Uint16(buf[lo:hi])] *)
Definition getU16 (buf : list byte) (lo hi : Z) : out Z :=
  let* s := slice buf lo hi in Uint16 s.
Definition getU32 (buf : list byte) (lo hi : Z) : out Z :=
  let* s := slice buf lo hi in Uint32 s.

Definition enc16 (v : Z) : list byte := [z2b (Z.shiftr v 8); z2b v].
Definition enc32 (v : Z) : list byte :=
  [z2b (Z.shiftr v 24); z2b (Z.shiftr v 16); z2b (Z.shiftr v 8); z2b v].

(** [binary.BigEndian.PutUint16(buf[lo:hi], v)]: panics when the slice is
    shorter than the integer. *)
Definition putU16 (buf : list byte) (lo hi v : Z) : out (list byte) :=
  let* d := slice buf lo hi in
  if len d <? 2 then Panic else copyAt buf lo hi (enc16 v).
Definition putU32 (buf : list byte) (lo hi v : Z) : out (list byte) :=
  let* d := slice buf lo hi in
  if len d <? 4 then Panic else copyAt buf lo hi (enc32 v).

Arguments b2z : simpl never.
Arguments z2b : simpl never.
Arguments be16 : simpl never.
Arguments be32 : simpl never.
Arguments Z.shiftr : simpl never.
Arguments Z.shiftl : simpl never.
Arguments Z.land : simpl never.
Arguments Z.lor : simpl never.
Arguments Z.lxor : simpl never.
Arguments Z.modulo : simpl never.
Arguments Z.div : simpl never.
Arguments Z.pow : simpl never.

(** ** Automation *)

(** Bounds facts on lengths, normalised to arithmetic. *)
Create HintDb golen.

Lemma len_nonneg {A} (l : list A) : 0 <= len l.
Proof. unfold len. lia. Qed.
Lemma len_nil {A} : len (@nil A) = 0.
Proof. done. Qed.
Lemma len_cons {A} (x : A) l : len (x :: l) = 1 + len l.
Proof. unfold len. cbn [length]. lia. Qed.
Lemma len_app {A} (l k : list A) : len (l ++ k) = len l + len k.
Proof. unfold len. rewrite length_app. lia. Qed.
Lemma len_take {A} n (l : list A) : len (take n l) = Z.min (Z.of_nat n) (len l).
Proof. unfold len. rewrite length_take. lia. Qed.
Lemma len_drop {A} n (l : list A) : len (drop n l) = Z.max 0 (len l - Z.of_nat n).
Proof. unfold len. rewrite length_drop. lia. Qed.
Lemma len_make n : len (make n) = Z.max 0 n.
Proof. unfold len, make. rewrite repeat_length. lia. Qed.
Lemma len_enc16 v : len (enc16 v) = 2.
Proof. done. Qed.
Lemma len_enc32 v : len (enc32 v) = 4.
Proof. done. Qed.
#[export] Hint Rewrite @len_nil @len_cons @len_app @len_take @len_drop len_make
  len_enc16 len_enc32 : golen.

(** [len_lia]: linear arithmetic over lengths. *)
Ltac len_norm := autorewrite with golen in *.
Ltac pose_lens :=
  repeat match goal with
  | |- context [len ?l] => lazymatch goal with
      | _ : 0 <= len l |- _ => fail | _ => pose proof (len_nonneg l) end
  | H : context [len ?l] |- _ => lazymatch goal with
      | _ : 0 <= len l |- _ => fail | _ => pose proof (len_nonneg l) end
  end.
Ltac len_lia := len_norm; pose_lens; lia.

(** Boolean tests of the code as propositions. *)
Ltac blia :=
  repeat match goal with
  | H : context [Z.leb ?a ?b] |- _ => destruct (Z.leb_spec a b)
  | H : context [Z.ltb ?a ?b] |- _ => destruct (Z.ltb_spec a b)
  | H : context [Z.eqb ?a ?b] |- _ => destruct (Z.eqb_spec a b)
  | |- context [Z.leb ?a ?b] => destruct (Z.leb_spec a b)
  | |- context [Z.ltb ?a ?b] => destruct (Z.ltb_spec a b)
  | |- context [Z.eqb ?a ?b] => destruct (Z.eqb_spec a b)
  end; cbn [andb orb negb] in *.

(** ** Slices in range *)

Lemma slice_ok {A} (l : list A) lo hi :
  0 <= lo -> lo <= hi -> hi <= len l ->
  slice l lo hi = Ok (take (Z.to_nat (hi - lo)) (drop (Z.to_nat lo) l)).
Proof. intros. unfold slice. blia; try lia. done. Qed.

Lemma slice_inv {A} (l s : list A) lo hi :
  slice l lo hi = Ok s ->
  0 <= lo <= hi /\ hi <= len l /\ s = take (Z.to_nat (hi - lo)) (drop (Z.to_nat lo) l).
Proof. unfold slice. blia; try done. intros [= <-]. repeat split; lia || done. Qed.

Lemma len_slice {A} (l s : list A) lo hi : slice l lo hi = Ok s -> len s = hi - lo.
Proof. intros (?&?&->)%slice_inv. len_lia. Qed.

Lemma safe_slice {A} (l : list A) lo hi :
  0 <= lo -> lo <= hi -> hi <= len l -> safe (slice l lo hi).
Proof. intros. rewrite slice_ok by done. done. Qed.

Lemma slice_app_l {A} (l k : list A) lo hi :
  hi <= len l -> slice (l ++ k) lo hi = slice l lo hi.
Proof.
  intros Hhi. unfold slice. rewrite len_app. pose proof (len_nonneg k).
  destruct (0 <=? lo) eqn:E1, (lo <=? hi) eqn:E2; cbn; try done.
  replace (hi <=? len l) with true by lia.
  replace (hi <=? len l + len k) with true by lia.
  f_equal. unfold len in *. rewrite drop_app_le, take_app_le by (rewrite ?length_drop; lia). done.
Qed.

Lemma sliceFrom_app {A} (l k : list A) n :
  len l = n -> sliceFrom (l ++ k) n = Ok k.
Proof.
  intros <-. unfold sliceFrom. pose proof (len_nonneg l). pose proof (len_nonneg k).
  rewrite slice_ok by len_lia. f_equal. rewrite len_app.
  replace (Z.to_nat (len l)) with (length l) by (unfold len; lia).
  rewrite drop_app_length, firstn_all2; [done|]. unfold len; lia.
Qed.

Lemma slice_full {A} (l : list A) n : n = len l -> slice l 0 n = Ok l.
Proof.
  intros ->. pose proof (len_nonneg l). rewrite slice_ok by lia. cbn [Z.to_nat].
  rewrite drop_0, firstn_all2; [done|]. unfold len. lia.
Qed.

Lemma sliceTo_app {A} (l k : list A) n : len l = n -> sliceTo (l ++ k) n = Ok l.
Proof.
  intros <-. unfold sliceTo. rewrite slice_app_l by lia. by apply slice_full.
Qed.

Lemma slice_app_r {A} (l k : list A) lo hi :
  len l <= lo -> slice (l ++ k) lo hi = slice k (lo - len l) (hi - len l).
Proof.
  intros Hlo. unfold slice. rewrite len_app. pose proof (len_nonneg l).
  replace (0 <=? lo) with true by lia. replace (0 <=? lo - len l) with true by lia.
  replace (lo - len l <=? hi - len l) with (lo <=? hi) by lia.
  replace (hi - len l <=? len k) with (hi <=? len l + len k) by lia.
  destruct (_ && _ && _); [|done]. f_equal. f_equal; [lia|].
  rewrite drop_app_ge by (unfold len in *; lia). f_equal. unfold len. lia.
Qed.

Lemma idx_ok l i : 0 <= i -> i < len l -> idx l i = Ok (b2z (nth (Z.to_nat i) l x00)).
Proof. intros. unfold idx. blia; try lia. done. Qed.

Lemma idx_inv l i v : idx l i = Ok v -> 0 <= i < len l /\ 0 <= v < 256.
Proof. unfold idx. blia; try done. intros [= <-]. split; [lia|apply b2z_range]. Qed.

Lemma idx_app_l l k i : i < len l -> idx (l ++ k) i = idx l i.
Proof.
  intros Hi. unfold idx. rewrite len_app. pose proof (len_nonneg k).
  destruct (0 <=? i) eqn:E; cbn; [|done].
  replace (i <? len l) with true by lia. replace (i <? len l + len k) with true by lia.
  rewrite app_nth1; [done|]. unfold len in *. lia.
Qed.

Lemma safe_idx l i : 0 <= i -> i < len l -> safe (idx l i).
Proof. intros. rewrite idx_ok by done. done. Qed.

Lemma safe_getU16 l lo hi : 0 <= lo -> lo + 2 <= hi -> hi <= len l -> safe (getU16 l lo hi).
Proof.
  intros. unfold getU16. rewrite slice_ok by lia. cbn [out_bind].
  assert (2 <= len (take (Z.to_nat (hi - lo)) (drop (Z.to_nat lo) l))) as Hl by len_lia.
  revert Hl. destruct (take _ _) as [|? [|? ?]]; cbn; len_norm; try lia; done.
Qed.

Lemma safe_getU32 l lo hi : 0 <= lo -> lo + 4 <= hi -> hi <= len l -> safe (getU32 l lo hi).
Proof.
  intros. unfold getU32. rewrite slice_ok by lia. cbn [out_bind].
  assert (4 <= len (take (Z.to_nat (hi - lo)) (drop (Z.to_nat lo) l))) as Hl by len_lia.
  revert Hl. destruct (take _ _) as [|? [|? [|? [|? ?]]]]; cbn; len_norm; try lia; done.
Qed.

Create HintDb gosafe.
#[export] Hint Resolve safe_ok safe_err : gosafe.

(** [go_safe]: a function written with the checked accessors does not panic;
    the bounds are left to linear arithmetic. *)
Ltac go_safe :=
  repeat first
    [ progress (intros)
    | apply safe_ok | apply safe_err
    | apply safe_if
    | lazymatch goal with
      | |- safe (out_bind _ _) => apply safe_bind
      | |- safe (slice _ _ _) => apply safe_slice
      | |- safe (idx _ _) => apply safe_idx
      | |- safe (getU16 _ _ _) => apply safe_getU16
      | |- safe (getU32 _ _ _) => apply safe_getU32
      end
    | solve [auto with gosafe] ].

(** ** Big-endian round trips *)

Lemma lor_add_disjoint a b n :
  0 <= n -> 0 <= b < 2 ^ n -> Z.lor (Z.shiftl a n) b = a * 2 ^ n + b.
Proof.
  intros Hn Hb. rewrite <- Z.shiftl_mul_pow2 by done.
  pose proof (Z.add_lor_land (Z.shiftl a n) b) as Hadd.
  enough (Z.land (Z.shiftl a n) b = 0) as Hz by lia.
  clear Hadd. apply Z.bits_inj'. intros i Hi. rewrite Z.land_spec, Z.bits_0.
  destruct (Z.lt_ge_cases i n).
  - rewrite Z.shiftl_spec_low by done. done.
  - destruct (Z.eq_dec b 0) as [->|]; [rewrite Z.bits_0; apply andb_false_r|].
    rewrite (Z.bits_above_log2 b i), andb_false_r; [done|lia|].
    apply Z.log2_lt_pow2; [lia|]. eapply Z.lt_le_trans; [apply Hb|].
    apply Z.pow_le_mono_r; lia.
Qed.

Lemma be16_val a b : be16 a b = b2z a * 256 + b2z b.
Proof.
  unfold be16. pose proof (b2z_range b).
  rewrite lor_add_disjoint by (change (2 ^ 8) with 256; lia). done.
Qed.

Lemma be16_range a b : isU16 (be16 a b).
Proof.
  unfold isU16. rewrite be16_val. pose proof (b2z_range a). pose proof (b2z_range b).
  change (2 ^ 16) with 65536. lia.
Qed.

Lemma be32_val a b c d :
  be32 a b c d = ((b2z a * 256 + b2z b) * 256 + b2z c) * 256 + b2z d.
Proof.
  unfold be32. pose proof (b2z_range a). pose proof (b2z_range b).
  pose proof (b2z_range c). pose proof (b2z_range d).
  rewrite (lor_add_disjoint (b2z c) (b2z d) 8) by (change (2 ^ 8) with 256; lia).
  change 24 with (8 + 16). rewrite <- (Z.shiftl_shiftl (b2z a) 8 16) by lia.
  rewrite <- Z.shiftl_lor.
  rewrite (lor_add_disjoint (b2z a) (b2z b) 8) by (change (2 ^ 8) with 256; lia).
  rewrite lor_add_disjoint by (change (2 ^ 16) with 65536; change (2 ^ 8) with 256; lia).
  change (2 ^ 16) with 65536. change (2 ^ 8) with 256. lia.
Qed.

Lemma be32_range a b c d : isU32 (be32 a b c d).
Proof.
  unfold isU32. rewrite be32_val. pose proof (b2z_range a). pose proof (b2z_range b).
  pose proof (b2z_range c). pose proof (b2z_range d).
  change (2 ^ 32) with 4294967296. lia.
Qed.

Lemma be16_enc v : be16 (z2b (Z.shiftr v 8)) (z2b v) = u16 v.
Proof.
  rewrite be16_val, !b2z_z2b, Z.shiftr_div_pow2 by lia. unfold u16.
  change (2 ^ 8) with 256. change (2 ^ 16) with (256 * 256).
  rewrite Z.rem_mul_r by lia. lia.
Qed.

Lemma be32_enc v :
  be32 (z2b (Z.shiftr v 24)) (z2b (Z.shiftr v 16)) (z2b (Z.shiftr v 8)) (z2b v) = u32 v.
Proof.
  rewrite be32_val, !b2z_z2b, !Z.shiftr_div_pow2 by lia. unfold u32.
  change (2 ^ 8) with 256. change (2 ^ 16) with (256 * 256).
  change (2 ^ 24) with (256 * 256 * 256). change (2 ^ 32) with (256 * (256 * (256 * 256))).
  rewrite !Z.rem_mul_r by lia. rewrite <- !Z.div_div by lia. lia.
Qed.

Lemma enc16_be a b : enc16 (be16 a b) = [a; b].
Proof.
  unfold enc16. pose proof (b2z_range a). pose proof (b2z_range b).
  repeat f_equal; apply b2z_inj; rewrite b2z_z2b, ?Z.shiftr_div_pow2, be16_val by lia.
  - change (2 ^ 8) with 256. rewrite Z.div_add_l by lia.
    rewrite (Z.div_small (b2z b)) by lia. rewrite Z.add_0_r. apply Z.mod_small. lia.
  - rewrite Z.add_comm, Z.mod_add by lia. apply Z.mod_small. lia.
Qed.

Lemma u16_small v : isU16 v -> u16 v = v.
Proof. apply Z.mod_small. Qed.
Lemma u32_small v : isU32 v -> u32 v = v.
Proof. apply Z.mod_small. Qed.
Lemma s64_small v : - 2 ^ 63 <= v < 2 ^ 63 -> s64 v = v.
Proof. intros. unfold s64. rewrite Z.mod_small; lia. Qed.
Lemma u64_small v : 0 <= v < 2 ^ 64 -> u64 v = v.
Proof. intros. unfold u64. by rewrite Z.mod_small. Qed.
Lemma u8_small v : 0 <= v < 256 -> u8 v = v.
Proof. apply Z.mod_small. Qed.
Lemma u16_range v : isU16 (u16 v).
Proof. apply Z.mod_pos_bound. done. Qed.
Lemma u32_range v : isU32 (u32 v).
Proof. apply Z.mod_pos_bound. done. Qed.
Lemma u32_add a b : u32 (u32 a + u32 b) = u32 (a + b).
Proof. symmetry. apply Zplus_mod. Qed.
Lemma u32_add_l a b : u32 (u32 a + b) = u32 (a + b).
Proof. apply Zplus_mod_idemp_l. Qed.
#[export] Hint Resolve be16_range be32_range u16_range u32_range : core.

(** ** Filling a header in place

    The marshallers allocate a buffer and then write its fields.  The lemmas
    below push such writes into a header of known length in front of the rest
    of the buffer, where they compute. *)

Lemma make_split n m : 0 <= n -> 0 <= m -> make (n + m) = make n ++ make m.
Proof. intros. unfold make. rewrite Z2Nat.inj_add, repeat_app by done. done. Qed.

Lemma setAt_app_l l k i v :
  i < len l -> setAt (l ++ k) i v = let* l' := setAt l i v in Ok (l' ++ k).
Proof.
  intros Hi. unfold setAt. rewrite len_app. pose proof (len_nonneg k).
  destruct (Z.leb_spec 0 i); cbn; [|done].
  replace (i <? len l) with true by lia. replace (i <? len l + len k) with true by lia.
  cbn. f_equal. unfold len in *.
  rewrite take_app_le, drop_app_le by lia. by rewrite <- app_assoc.
Qed.

Lemma copyAt_app_l l k lo hi src :
  hi <= len l -> copyAt (l ++ k) lo hi src = let* l' := copyAt l lo hi src in Ok (l' ++ k).
Proof.
  intros Hhi. unfold copyAt. rewrite slice_app_l by done.
  destruct (slice l lo hi) as [d| |] eqn:E; cbn; [|done|done].
  apply slice_inv in E as (?&?&_). f_equal. unfold len in *.
  rewrite take_app_le, drop_app_le by lia. by rewrite <- !app_assoc.
Qed.

Lemma putU16_app_l l k lo hi v :
  hi <= len l -> putU16 (l ++ k) lo hi v = let* l' := putU16 l lo hi v in Ok (l' ++ k).
Proof.
  intros Hhi. unfold putU16. rewrite slice_app_l by done.
  destruct (slice l lo hi) as [d| |]; cbn; [|done|done].
  destruct (len d <? 2); [done|]. by apply copyAt_app_l.
Qed.

Lemma putU32_app_l l k lo hi v :
  hi <= len l -> putU32 (l ++ k) lo hi v = let* l' := putU32 l lo hi v in Ok (l' ++ k).
Proof.
  intros Hhi. unfold putU32. rewrite slice_app_l by done.
  destruct (slice l lo hi) as [d| |]; cbn; [|done|done].
  destruct (len d <? 4); [done|]. by apply copyAt_app_l.
Qed.

Lemma getU16_app_l l k lo hi : hi <= len l -> getU16 (l ++ k) lo hi = getU16 l lo hi.
Proof. intros. unfold getU16. by rewrite slice_app_l. Qed.
Lemma getU32_app_l l k lo hi : hi <= len l -> getU32 (l ++ k) lo hi = getU32 l lo hi.
Proof. intros. unfold getU32. by rewrite slice_app_l. Qed.

(** [copy(buf[n:], payload)] over the zeroed tail of a fresh buffer. *)
Lemma copyAt_tail l p n :
  len l = n -> copyAt (l ++ make (len p)) n (len (l ++ make (len p))) p = Ok (l ++ p).
Proof.
  intros <-. pose proof (len_nonneg l). pose proof (len_nonneg p).
  unfold copyAt. fold (sliceFrom (l ++ make (len p)) (len l)).
  rewrite sliceFrom_app by done. cbn [out_bind]. f_equal.
  replace (Z.to_nat (len l)) with (length l) by (unfold len; lia).
  rewrite take_app_length. f_equal.
  rewrite drop_ge by (unfold len; lia). rewrite app_nil_r. unfold copy.
  assert (length (make (len p)) = length p) as ->.
  { unfold make. rewrite repeat_length. unfold len. lia. }
  rewrite Nat.min_id, firstn_all, drop_ge, app_nil_r; [done|].
  unfold make. rewrite repeat_length. unfold len. lia.
Qed.

Lemma copyAt_app_r l k lo hi src :
  len l <= lo -> copyAt (l ++ k) lo hi src = let* k' := copyAt k (lo - len l) (hi - len l) src in Ok (l ++ k').
Proof.
  intros Hlo. unfold copyAt. rewrite slice_app_r by done.
  destruct (slice k _ _) as [d| |] eqn:E; cbn; [|done|done].
  apply slice_inv in E as (?&?&_). f_equal. unfold len in *.
  rewrite take_app_ge, drop_app_ge by lia. rewrite <- app_assoc. do 2 f_equal; [f_equal; lia|].
  f_equal. f_equal. lia.
Qed.

Lemma putU16_app_r l k lo hi v :
  len l <= lo -> putU16 (l ++ k) lo hi v = let* k' := putU16 k (lo - len l) (hi - len l) v in Ok (l ++ k').
Proof.
  intros Hlo. unfold putU16. rewrite slice_app_r by done.
  destruct (slice k _ _) as [d| |]; cbn; [|done|done].
  destruct (len d <? 2); [done|]. by apply copyAt_app_r.
Qed.

Lemma getU16_app_r l k lo hi :
  len l <= lo -> getU16 (l ++ k) lo hi = getU16 k (lo - len l) (hi - len l).
Proof. intros. unfold getU16. by rewrite slice_app_r. Qed.

Lemma slice_app_at {A} (pre m post : list A) lo hi :
  lo = len pre -> hi = len pre + len m -> slice (pre ++ m ++ post) lo hi = Ok m.
Proof.
  intros -> ->. rewrite slice_app_r by lia. rewrite slice_app_l, Z.sub_diag by lia. apply slice_full. lia.
Qed.

(** [copy(buf[n:], src)] over a zeroed tail with room to spare. *)
Lemma copyAt_within l src n m :
  len l = n -> 0 <= m ->
  copyAt (l ++ make (len src + m)) n (len (l ++ make (len src + m))) src = Ok (l ++ src ++ make m).
Proof.
  intros <- Hm. pose proof (len_nonneg src). rewrite copyAt_app_r by lia.
  rewrite Z.sub_diag, len_app, Z.add_simpl_l. unfold copyAt. rewrite slice_full by done. cbn [out_bind].
  do 2 f_equal. rewrite drop_ge, app_nil_r by (unfold len; lia). unfold copy.
  rewrite make_split by lia. rewrite length_app.
  assert (length (make (len src)) = length src) as E by (unfold make; rewrite repeat_length; unfold len; lia).
  rewrite E. replace (Nat.min _ _) with (length src) by lia. rewrite firstn_all, drop_app_ge by lia.
  rewrite E, Nat.sub_diag, drop_0. done.
Qed.

(** [copy(tmp, buf)] into a fresh buffer of the same length. *)
Lemma copy_make l : copy (make (len l)) l = l.
Proof.
  unfold copy. assert (length (make (len l)) = length l) as ->.
  { unfold make. rewrite repeat_length. unfold len. lia. }
  rewrite Nat.min_id, firstn_all, drop_ge, app_nil_r; [done|].
  unfold make. rewrite repeat_length. unfold len. lia.
Qed.

Ltac in_hdr := vm_compute; first [reflexivity | discriminate].

(** Names a value that is neither a variable nor a literal, so that evaluation
    keeps it as it is. *)
Ltac hdr_name v :=
  tryif is_var v then idtac else
  lazymatch v with
  | Z0 => idtac | Zpos _ => idtac | Zneg _ => idtac
  | _ => let w := fresh "w" in set (w := v)
  end.

(** Evaluates one accessor applied to a list of known length. *)
Ltac hdr_eval t :=
  let v := eval cbv beta iota zeta delta
    [copyAt putU16 putU32 setAt getU16 getU32 Uint16 Uint32 idx slice sliceFrom sliceTo
     len copy enc16 enc32 out_bind length take drop app nth andb Nat.min Nat.add
     Z.of_nat Z.to_nat Pos.to_nat Pos.iter_op Pos.of_succ_nat Pos.succ Z.leb Z.ltb
     Z.compare Pos.compare Pos.compare_cont CompOpp Z.sub Z.opp Z.add Z.pos_sub
     Z.double Z.succ_double Z.pred_double Pos.pred_double Pos.add Pos.add_carry] in t in
  lazymatch v with
  | Ok _ => change t with v
  | Panic => change t with v
  end.

(** [hdr_run]: runs writes and reads at literal offsets of a header whose
    bytes are all known, in front of an unknown tail. *)
Ltac hdr_run :=
  repeat first
    [ progress cbn [out_bind]
    | match goal with
      | |- context [setAt (?h ++ ?t) ?i ?v] => rewrite (setAt_app_l h t i v) by in_hdr
      | |- context [putU16 (?h ++ ?t) ?i ?j ?v] => rewrite (putU16_app_l h t i j v) by in_hdr
      | |- context [putU32 (?h ++ ?t) ?i ?j ?v] => rewrite (putU32_app_l h t i j v) by in_hdr
      | |- context [copyAt (?h ++ ?t) ?i ?j ?v] => rewrite (copyAt_app_l h t i j v) by in_hdr
      | |- context [getU16 (?h ++ ?t) ?i ?j] => rewrite (getU16_app_l h t i j) by in_hdr
      | |- context [getU32 (?h ++ ?t) ?i ?j] => rewrite (getU32_app_l h t i j) by in_hdr
      | |- context [idx (?h ++ ?t) ?i] => rewrite (idx_app_l h t i) by in_hdr
      | |- context [slice (?h ++ ?t) ?i ?j] => rewrite (slice_app_l h t i j) by in_hdr
      | |- context [setAt (?x :: ?h) ?i ?v] => progress hdr_name v
      | |- context [putU16 (?x :: ?h) ?i ?j ?v] => progress hdr_name v
      | |- context [putU32 (?x :: ?h) ?i ?j ?v] => progress hdr_name v
      | |- context [setAt (?x :: ?h) ?i ?v] => hdr_eval (setAt (x :: h) i v)
      | |- context [putU16 (?x :: ?h) ?i ?j ?v] => hdr_eval (putU16 (x :: h) i j v)
      | |- context [putU32 (?x :: ?h) ?i ?j ?v] => hdr_eval (putU32 (x :: h) i j v)
      | |- context [copyAt (?x :: ?h) ?i ?j ?v] => hdr_eval (copyAt (x :: h) i j v)
      | |- context [getU16 (?x :: ?h) ?i ?j] => hdr_eval (getU16 (x :: h) i j)
      | |- context [getU32 (?x :: ?h) ?i ?j] => hdr_eval (getU32 (x :: h) i j)
      | |- context [idx (?x :: ?h) ?i] => hdr_eval (idx (x :: h) i)
      | |- context [slice (?x :: ?h) ?i ?j] => hdr_eval (slice (x :: h) i j)
      end ];
  repeat match goal with w := _ : Z |- _ => subst w end.

(** Splitting a packet into its first [n] bytes and the rest. *)
Lemma split_at {A} (l : list A) n :
  0 <= n <= len l -> exists h t, l = h ++ t /\ len h = n /\ len t = len l - n.
Proof.
  intros Hn. exists (take (Z.to_nat n) l), (drop (Z.to_nat n) l).
  rewrite take_drop. split; [done|]. split; len_lia.
Qed.

Lemma list_len_cons {A} (l : list A) n :
  len l = n -> 0 < n -> exists x l', l = x :: l' /\ len l' = n - 1.
Proof. destruct l; intros; len_norm; [lia|]. eexists _, _. split; [done|lia]. Qed.

Lemma list_len_0 {A} (l : list A) : len l = 0 -> l = [].
Proof. destruct l; [done|]. len_lia. Qed.

(** [explode l H]: names the bytes of a list of literal length. *)
Ltac explode l H :=
  lazymatch type of H with
  | len l = ?n =>
      let n' := eval cbv in n in
      lazymatch n' with
      | 0 => apply (list_len_0 l) in H; subst l
      | _ =>
          let m := eval cbv in (n' - 1) in
          let x := fresh "x" in let l' := fresh "tl" in let E := fresh "E" in
          let H' := fresh "Hlen" in
          destruct (list_len_cons l n' H eq_refl) as (x & l' & E & H');
          subst l; clear H; change (len l' = m) in H'; explode l' H'
      end
  end.
