(* ===== verification/Effects.v ===== *)
(** * Stateful code

    The state-and-outcome monad in which the stateful operations are written,
    the Hoare-style predicate their safety and invariants are proved with, the
    link interface (uefiboard/ministack/link.go) and the deadline checker of the
    tamago build (uefiboard/ministack/deadline_tamago.go). *)

From S2P Require Import Prelude.

(** ** The monad *)

(** A stateful call: its outcome and the state it leaves, on every outcome. *)
Definition M (S A : Type) : Type := S -> out A * S.

Definition ret {S A} (a : A) : M S A := fun s => (Ok a, s).
Definition throw {S A} (e : error) : M S A := fun s => (Err e, s).
Definition lift {S A} (m : out A) : M S A := fun s => (m, s).
Definition bind {S A B} (m : M S A) (f : A -> M S B) : M S B := fun s =>
  match m s with
  | (Ok a, s') => f a s'
  | (Err e, s') => (Err e, s')
  | (Panic, s') => (Panic, s')
  end.
Definition gets {S A} (f : S -> A) : M S A := fun s => (Ok (f s), s).
Definition modify {S} (f : S -> S) : M S unit := fun s => (Ok tt, f s).

(** The result of a call as a value, error included: [x, err := m()]. *)
Definition try {S A} (m : M S A) : M S (A + error) := fun s =>
  match m s with
  | (Ok a, s') => (Ok (inl a), s')
  | (Err e, s') => (Ok (inr e), s')
  | (Panic, s') => (Panic, s')
  end.

(** [_ = m()] *)
Definition ignore {S A} (m : M S A) : M S unit := bind (try m) (fun _ => ret tt).

(** A call on a component of the state. *)
Definition zoom {S T A} (g : S -> T) (p : T -> S -> S) (m : M T A) : M S A := fun s =>
  let '(r, t) := m (g s) in (r, p t s).

Notation "x <- m ;; k" := (bind m (fun x => k))
  (at level 100, m at next level, k at level 200, right associativity,
   format "'[v' x  <-  m ;; '/' k ']'") : go_scope.
Notation "m ;;; k" := (bind m (fun _ => k))
  (at level 100, k at level 200, right associativity, format "'[v' m ;;; '/' k ']'") : go_scope.
Notation "'throw_if' b 'with' e ;; k" := (if b then throw e else k)
  (at level 200, b at level 100, e at level 50, k at level 200, right associativity,
   format "'[v' 'throw_if'  b  'with'  e ;; '/' k ']'") : go_scope.

(** ** Invariants *)

(** How a call may end: without a panic, in a state of [I], and on success
    with a result that satisfies [Q]. *)
Definition ends {S A} (I : S -> Prop) (Q : A -> S -> Prop) (r : out A * S) : Prop :=
  fst r <> Panic /\ I (snd r) /\ (forall a, fst r = Ok a -> Q a (snd r)).

(** From a state of [I] the call ends well. *)
Definition keeps {S A} (I : S -> Prop) (m : M S A) (Q : A -> S -> Prop) : Prop :=
  forall s, I s -> ends I Q (m s).

Abbreviation keep I m := (keeps I m (fun _ _ => True)).

Lemma ends_ok {S A} (I : S -> Prop) (Q : A -> S -> Prop) a s :
  I s -> Q a s -> ends I Q (Ok a, s).
Proof. intros. split; [done|]. split; [done|]. by intros ? [= <-]. Qed.
Lemma ends_err {S A} (I : S -> Prop) (Q : A -> S -> Prop) e s : I s -> ends I Q (Err e, s).
Proof. intros. by split. Qed.

Lemma keeps_ret {S A} (I : S -> Prop) (a : A) : keep I (ret a).
Proof. intros s Hs. by apply ends_ok. Qed.
Lemma keeps_throw {S A} (I : S -> Prop) e (Q : A -> S -> Prop) : keeps I (throw e) Q.
Proof. intros s Hs. by apply ends_err. Qed.
Lemma keeps_lift {S A} (I : S -> Prop) (m : out A) : safe m -> keep I (lift m).
Proof. intros Hm s Hs. by split. Qed.
Lemma keeps_gets {S A} (I : S -> Prop) (f : S -> A) (P : A -> Prop) :
  (forall s, I s -> P (f s)) -> keeps I (gets f) (fun a _ => P a).
Proof. intros Hf s Hs. apply ends_ok; auto. Qed.
Lemma keeps_modify {S} (I : S -> Prop) f : (forall s, I s -> I (f s)) -> keep I (modify f).
Proof. intros Hf s Hs. apply ends_ok; auto. Qed.

Lemma ends_bind {S A B} (I : S -> Prop) (m : M S A) (k : A -> M S B) Q R s :
  ends I Q (m s) -> (forall a s', I s' -> Q a s' -> ends I R (k a s')) -> ends I R (bind m k s).
Proof.
  intros (Hp & HI & HQ) Hk. unfold bind.
  destruct (m s) as [[a|e|] s']; cbn in *; [|by apply ends_err|done]. apply Hk; auto.
Qed.

(** The result of the first call, with a fact about it. *)
Lemma keeps_bind {S A B} (I : S -> Prop) (m : M S A) (f : A -> M S B) (P : A -> Prop) R :
  keeps I m (fun a _ => P a) -> (forall a, P a -> keeps I (f a) R) -> keeps I (bind m f) R.
Proof.
  intros Hm Hf s Hs. unfold bind. destruct (Hm s Hs) as (Hp & HI & HQ).
  destruct (m s) as [[a|e|] s'] eqn:E; cbn in *; [|by apply ends_err|done]. apply Hf; auto.
Qed.

(** The same with a fact about the state in between. *)
Lemma keeps_bind_st {S A B} (I : S -> Prop) (m : M S A) (f : A -> M S B) (P : A -> S -> Prop) R :
  keeps I m P ->
  (forall a s, I s -> P a s -> ends I R (f a s)) ->
  keeps I (bind m f) R.
Proof.
  intros Hm Hf s Hs. unfold bind. destruct (Hm s Hs) as (Hp & HI & HQ).
  destruct (m s) as [[a|e|] s'] eqn:E; cbn in *; [|by apply ends_err|done]. apply Hf; auto.
Qed.

Lemma keep_bind {S A B} (I : S -> Prop) (m : M S A) (f : A -> M S B) R :
  keep I m -> (forall a, keeps I (f a) R) -> keeps I (bind m f) R.
Proof.
  intros Hm Hf s Hs. unfold bind. destruct (Hm s Hs) as (Hp & HI & _).
  destruct (m s) as [[a|e|] s'] eqn:E; cbn in *; [|by apply ends_err|done]. by apply Hf.
Qed.

Lemma keeps_weaken {S A} (I : S -> Prop) (m : M S A) (Q R : A -> S -> Prop) :
  keeps I m Q -> (forall a s, Q a s -> R a s) -> keeps I m R.
Proof. intros Hm HQ s Hs. destruct (Hm s Hs) as (? & ? & ?). split_and!; auto. Qed.

Lemma keep_of {S A} (I : S -> Prop) (m : M S A) Q : keeps I m Q -> keep I m.
Proof. intros H. by eapply keeps_weaken. Qed.

Lemma keep_try {S A} (I : S -> Prop) (m : M S A) : keep I m -> keep I (try m).
Proof.
  intros Hm s Hs. unfold try. destruct (Hm s Hs) as (? & ? & _).
  destruct (m s) as [[a|e|] s']; [by apply ends_ok..|done].
Qed.

Lemma keep_ignore {S A} (I : S -> Prop) (m : M S A) : keep I m -> keep I (ignore m).
Proof. intros Hm. apply keep_bind; [by apply keep_try|]. intros. apply keeps_ret. Qed.

Lemma keep_if {S A} (I : S -> Prop) (b : bool) (m n : M S A) Q :
  (b = true -> keeps I m Q) -> (b = false -> keeps I n Q) -> keeps I (if b then m else n) Q.
Proof. destruct b; auto. Qed.

Lemma keep_zoom {S T A} (I : S -> Prop) (J : T -> Prop) (g : S -> T) p (m : M T A) :
  keep J m -> (forall s, I s -> J (g s)) -> (forall s t, I s -> J t -> I (p t s)) ->
  keep I (zoom g p m).
Proof.
  intros Hm Hg Hp s Hs. unfold zoom. destruct (Hm (g s) (Hg s Hs)) as (? & ? & _).
  destruct (m (g s)) as [r t]. cbn in *. split; [done|]. split; [|done]. by apply Hp.
Qed.

Create HintDb gokeep.
#[export] Hint Resolve keeps_ret keeps_throw : gokeep.

(** [go_keep]: walks a monadic body; leaves the invariant obligations of the
    state updates and what the hint database does not know. *)
Ltac go_keep :=
  repeat first
    [ progress intros
    | lazymatch goal with
      | |- keeps _ (ret _) _ => apply keeps_ret
      | |- keeps _ (throw _) _ => apply keeps_throw
      | |- keeps _ (if _ then _ else _) _ => apply keep_if
      | |- keeps _ (bind _ _) _ => apply keep_bind
      | |- keeps _ (ignore _) _ => apply keep_ignore
      | |- keeps _ (try _) _ => apply keep_try
      | |- keeps _ (gets _) _ => apply (keeps_gets _ _ (fun _ => True)); done
      | |- keeps _ (lift _) _ => apply keeps_lift; solve [auto with gosafe]
      | |- keeps _ (match ?x with _ => _ end) _ => destruct x eqn:?
      end
    | solve [auto with gokeep] ].

(** Runs the monad's own steps. *)
Ltac mrun := unfold ignore, bind, try, lift, gets, modify, ret, throw; cbn [fst snd].

(** ** The link *)

(** The L2 transport as the stack sees it: link.go's interface.  An
    implementation keeps its own state [L]; a call returns a value or an
    error. *)
Class Link (L : Type) := {
  SendFrame : list byte -> L -> (unit + error) * L;
  RecvFrame : L -> (list byte + error) * L;
  MAC : L -> list byte
}.

Definition ofSum {A} (r : A + error) : out A :=
  match r with inl a => Ok a | inr e => Err e end.

Definition sendFrame `{Link L} (frame : list byte) : M L unit := fun l =>
  let '(r, l') := SendFrame frame l in (ofSum r, l').
Definition recvFrame `{Link L} : M L (list byte) := fun l =>
  let '(r, l') := RecvFrame l in (ofSum r, l').

(** A link for tests and witnesses: the frames still to arrive, and the frames
    sent, newest first. *)
Record ScriptLink := mkScriptLink {
  sl_mac : list byte;
  sl_rx : list (list byte);
  sl_tx : list (list byte)
}.

#[global] Instance script_link : Link ScriptLink := {
  SendFrame f l := (inl tt, mkScriptLink (sl_mac l) (sl_rx l) (f :: sl_tx l));
  RecvFrame l := match sl_rx l with
                 | [] => (inr (ErrOther 1), l)
                 | f :: r => (inl f, mkScriptLink (sl_mac l) r (sl_tx l))
                 end;
  MAC := sl_mac
}.

(** ** Frames *)

(** The call leaves the projection [f] of the state as it was. *)
Definition frames {S A B} (f : S -> B) (m : M S A) : Prop := forall s, f (snd (m s)) = f s.

Lemma frames_ret {S A B} (f : S -> B) (a : A) : frames f (ret a).
Proof. done. Qed.
Lemma frames_throw {S A B} (f : S -> B) e : frames f (@throw S A e).
Proof. done. Qed.
Lemma frames_lift {S A B} (f : S -> B) (m : out A) : frames f (lift m).
Proof. done. Qed.
Lemma frames_gets {S A B} (f : S -> B) (g : S -> A) : frames f (gets g).
Proof. done. Qed.
Lemma frames_modify {S B} (f : S -> B) g : (forall s, f (g s) = f s) -> frames f (modify g).
Proof. intros Hg s. apply Hg. Qed.
Lemma frames_bind {S A B C} (f : S -> C) (m : M S A) (k : A -> M S B) :
  frames f m -> (forall a, frames f (k a)) -> frames f (bind m k).
Proof.
  intros Hm Hk s. unfold bind. specialize (Hm s).
  destruct (m s) as [[a|e|] s']; cbn in *; [|done|done]. by rewrite Hk.
Qed.
Lemma frames_try {S A B} (f : S -> B) (m : M S A) : frames f m -> frames f (try m).
Proof. intros Hm s. unfold try. specialize (Hm s). by destruct (m s) as [[a|e|] s']. Qed.
Lemma frames_ignore {S A B} (f : S -> B) (m : M S A) : frames f m -> frames f (ignore m).
Proof. intros Hm. apply frames_bind; [by apply frames_try|]. intros a. apply frames_ret. Qed.
Lemma frames_zoom {S T A B} (f : S -> B) (g : S -> T) p (m : M T A) :
  (forall s t, f (p t s) = f s) -> frames f (zoom g p m).
Proof. intros Hp s. unfold zoom. destruct (m (g s)). apply Hp. Qed.

(** A projection of a framed projection. *)
Lemma frames_of {S A B C} (g : B -> C) (f : S -> B) (m : M S A) : frames f m -> frames (fun s => g (f s)) m.
Proof. intros Hm s. by rewrite Hm. Qed.

Create HintDb goframe.
Ltac go_frame :=
  repeat first
    [ progress intros
    | lazymatch goal with
      | |- frames _ (ret _) => apply frames_ret
      | |- frames _ (throw _) => apply frames_throw
      | |- frames _ (lift _) => apply frames_lift
      | |- frames _ (gets _) => apply frames_gets
      | |- frames _ (modify _) => apply frames_modify; intros; reflexivity
      | |- frames _ (bind _ _) => apply frames_bind
      | |- frames _ (try _) => apply frames_try
      | |- frames _ (ignore _) => apply frames_ignore
      | |- frames _ (zoom _ _ _) => apply frames_zoom; intros; reflexivity
      | |- frames _ (match ?x with _ => _ end) => destruct x
      end
    | solve [auto with goframe] ].

(** ** Deadlines *)

(** The tamago build counts pump iterations; the requested timeout is not
    used. *)
Definition maxPumpIters : Z := 1000000.

Record deadlineChecker := mkDeadlineChecker { dc_n : Z; dc_stop : Z }.
Definition newDeadlineChecker : deadlineChecker := mkDeadlineChecker 0 maxPumpIters.
Definition dc_expired (d : deadlineChecker) : bool := dc_stop d <=? dc_n d.
Definition dc_tick (d : deadlineChecker) : deadlineChecker := mkDeadlineChecker (dc_n d + 1) (dc_stop d).

(** [for !checker.expired() { checker.tick(); body }; timeout].  The body
    returns [Some r] for [return r] and [None] for the next iteration. *)
Fixpoint pumpFrom {S A} (fuel : nat) (d : deadlineChecker) (body : M S (option A))
  (timeout : M S A) : M S A :=
  if dc_expired d then timeout else
  match fuel with
  | O => throw (ErrOther 0)
  | S f =>
      r <- body ;;
      match r with
      | Some a => ret a
      | None => pumpFrom f (dc_tick d) body timeout
      end
  end.

Definition pump {S A} (body : M S (option A)) (timeout : M S A) : M S A :=
  pumpFrom (Z.to_nat maxPumpIters) newDeadlineChecker body timeout.

(** The fuel is enough: a pump that starts with at least as much fuel as
    iterations before the cap behaves as with any larger amount. *)
Lemma pumpFrom_fuel {S A} n m d (body : M S (option A)) timeout s :
  dc_stop d - dc_n d <= Z.of_nat n -> dc_stop d - dc_n d <= Z.of_nat m ->
  pumpFrom n d body timeout s = pumpFrom m d body timeout s.
Proof.
  revert m d s. induction n as [|n IH]; intros m d s Hn Hm; destruct m as [|m]; cbn [pumpFrom].
  all: unfold dc_expired; destruct (Z.leb_spec (dc_stop d) (dc_n d)); try done; try lia.
  unfold bind. destruct (body s) as [[[a|]|e|] s']; try done.
  apply IH; cbn; lia.
Qed.

Lemma keep_pumpFrom {S A} (I : S -> Prop) n d (body : M S (option A)) timeout Q :
  keeps I body (fun r s => forall a, r = Some a -> Q a s) ->
  keeps I timeout Q -> keeps I (pumpFrom n d body timeout) Q.
Proof.
  intros Hb Ht. revert d. induction n as [|n IH]; intros d; cbn [pumpFrom];
    destruct (dc_expired d); auto using keeps_throw.
  intros s Hs. unfold bind. destruct (Hb s Hs) as (Hp & HI & HQ).
  destruct (body s) as [[[a|]|e|] s']; cbn in *; [|by apply IH|by apply ends_err|done].
  apply ends_ok; [done|]. by eapply HQ.
Qed.

Lemma keep_pump {S A} (I : S -> Prop) (body : M S (option A)) timeout :
  keep I body -> keep I timeout -> keep I (pump body timeout).
Proof. intros Hb Ht. apply keep_pumpFrom; [|done]. by eapply keeps_weaken. Qed.

Lemma frames_pumpFrom {S A B} (f : S -> B) n d (body : M S (option A)) timeout :
  frames f body -> frames f timeout -> frames f (pumpFrom n d body timeout).
Proof.
  intros Hb Ht. revert d. induction n as [|n IH]; intros d; cbn [pumpFrom];
    destruct (dc_expired d); try done. apply frames_bind; [done|]. intros [a|]; [done|apply IH].
Qed.
Lemma frames_pump {S A B} (f : S -> B) (body : M S (option A)) timeout :
  frames f body -> frames f timeout -> frames f (pump body timeout).
Proof. apply frames_pumpFrom. Qed.

(** ** Monotone changes *)

(** The call changes the state along the preorder [R]. *)
Definition moves {S A} (R : S -> S -> Prop) (m : M S A) : Prop := forall s, R s (snd (m s)).

Section moves.
Context {S : Type} (R : S -> S -> Prop) `{!PreOrder R}.

Lemma moves_ret {A} (a : A) : moves R (ret a).
Proof. intros s. reflexivity. Qed.
Lemma moves_throw {A} e : moves R (@throw S A e).
Proof. intros s. reflexivity. Qed.
Lemma moves_lift {A} (m : out A) : moves R (lift m).
Proof. intros s. reflexivity. Qed.
Lemma moves_gets {A} (g : S -> A) : moves R (gets g).
Proof. intros s. reflexivity. Qed.
Lemma moves_bind {A B} (m : M S A) (k : A -> M S B) :
  moves R m -> (forall a, moves R (k a)) -> moves R (bind m k).
Proof.
  intros Hm Hk s. unfold bind. specialize (Hm s). destruct (m s) as [[a|e|] s']; cbn in *; [|done|done].
  etransitivity; [done|apply Hk].
Qed.
Lemma moves_try {A} (m : M S A) : moves R m -> moves R (try m).
Proof. intros Hm s. unfold try. specialize (Hm s). by destruct (m s) as [[a|e|] s']. Qed.
Lemma moves_ignore {A} (m : M S A) : moves R m -> moves R (ignore m).
Proof. intros Hm. apply moves_bind; [by apply moves_try|]. intros a. apply moves_ret. Qed.
Lemma moves_pump {A} (body : M S (option A)) timeout :
  moves R body -> moves R timeout -> moves R (pump body timeout).
Proof.
  intros Hb Ht. unfold pump. generalize newDeadlineChecker. induction (Z.to_nat maxPumpIters) as [|n IH]; intros d;
    cbn [pumpFrom]; destruct (dc_expired d); try done; [apply moves_throw|].
  apply moves_bind; [done|]. intros [a|]; [apply moves_ret|apply IH].
Qed.
End moves.

(** A step of a run. *)
Lemma moves_step {S A} (R : S -> S -> Prop) (m : M S A) s o s' : m s = (o, s') -> moves R m -> R s s'.
Proof. intros E Hm. specialize (Hm s). by rewrite E in Hm. Qed.

Create HintDb gomove.
Ltac go_move :=
  repeat first
    [ progress intros
    | lazymatch goal with
      | |- moves _ (ret _) => apply moves_ret; apply _
      | |- moves _ (throw _) => apply moves_throw; apply _
      | |- moves _ (lift _) => apply moves_lift; apply _
      | |- moves _ (gets _) => apply moves_gets; apply _
      | |- moves _ (bind _ _) => apply moves_bind; [apply _| |]
      | |- moves _ (try _) => apply moves_try
      | |- moves _ (ignore _) => apply moves_ignore; [apply _|]
      | |- moves _ (pump _ _) => apply moves_pump; [apply _| |]
      | |- moves _ (match ?x with _ => _ end) => destruct x
      end
    | solve [auto with gomove] ].

(** A call that never returns an error. *)
Definition noErr {S A} (m : M S A) : Prop := forall s e, fst (m s) <> Err e.

Lemma noErr_pumpFrom {S A} n d (body : M S (option A)) timeout :
  noErr body -> noErr timeout -> dc_stop d - dc_n d <= Z.of_nat n -> noErr (pumpFrom n d body timeout).
Proof.
  intros Hb Ht. revert d. induction n as [|n IH]; intros d Hd s e; cbn [pumpFrom];
    unfold dc_expired; destruct (Z.leb_spec (dc_stop d) (dc_n d)); [apply Ht|lia|apply Ht|].
  unfold bind. specialize (Hb s). destruct (body s) as [[[a|]|e'|] s']; cbn in *; [done| |by destruct (Hb e')|done].
  apply IH. cbn. lia.
Qed.

(** The iteration cap is the pump's fuel. *)
Lemma noErr_pump {S A} (body : M S (option A)) timeout :
  noErr body -> noErr timeout -> noErr (pump body timeout).
Proof. intros. apply noErr_pumpFrom; [done..|]. cbn [newDeadlineChecker dc_n dc_stop]. unfold maxPumpIters. lia. Qed.

(** *** Outcomes one by one *)

(** The call does not panic, a result satisfies [Q] and an error [E]. *)
Definition leads {S A} (Q : A -> S -> Prop) (E : error -> S -> Prop) (r : out A * S) : Prop :=
  match r with (Ok a, s) => Q a s | (Err e, s) => E e s | (Panic, _) => False end.

Lemma leads_bind {S A B} (m : M S A) (k : A -> M S B) Q R E s :
  leads Q E (m s) -> (forall a s', Q a s' -> leads R E (k a s')) -> leads R E (bind m k s).
Proof. unfold leads at 1, bind. destruct (m s) as [[a|e|] s']; auto. Qed.

Lemma leads_weaken {S A} (Q R : A -> S -> Prop) (E F : error -> S -> Prop) r :
  leads Q E r -> (forall a s, Q a s -> R a s) -> (forall e s, E e s -> F e s) -> leads R F r.
Proof. unfold leads. destruct r as [[a|e|] s]; auto. Qed.

Lemma ends_leads {S A} (I : S -> Prop) (Q : A -> S -> Prop) r :
  ends I Q r -> leads (fun a s => I s /\ Q a s) (fun _ s => I s) r.
Proof. intros (Hp & HI & HQ). destruct r as [[a|e|] s]; cbn in *; auto. Qed.

Lemma leads_ends {S A} (I : S -> Prop) (Q : A -> S -> Prop) r :
  leads (fun a s => I s /\ Q a s) (fun _ s => I s) r -> ends I Q r.
Proof. destruct r as [[a|e|] s]; cbn; [intros []; by apply ends_ok|by apply ends_err|done]. Qed.

Lemma leads_pumpFrom {S A} (I : S -> Prop) Q E n d (body : M S (option A)) timeout :
  (forall s, I s -> leads (fun r s' => match r with None => I s' | Some a => Q a s' end) E (body s)) ->
  (forall s, I s -> leads Q E (timeout s)) ->
  dc_stop d - dc_n d <= Z.of_nat n ->
  forall s, I s -> leads Q E (pumpFrom n d body timeout s).
Proof.
  intros Hb Ht. revert d. induction n as [|n IH]; intros d Hd s Hs; cbn [pumpFrom];
    unfold dc_expired; destruct (Z.leb_spec (dc_stop d) (dc_n d)); [by apply Ht|lia|by apply Ht|].
  eapply leads_bind; [by apply Hb|]. intros [a|] s'; [done|]. apply IH. cbn. lia.
Qed.

(** A pump with a loop invariant. *)
Lemma leads_pump {S A} (I : S -> Prop) Q E (body : M S (option A)) timeout :
  (forall s, I s -> leads (fun r s' => match r with None => I s' | Some a => Q a s' end) E (body s)) ->
  (forall s, I s -> leads Q E (timeout s)) ->
  forall s, I s -> leads Q E (pump body timeout s).
Proof.
  intros Hb Ht. apply leads_pumpFrom; [done..|].
  cbn [newDeadlineChecker dc_n dc_stop]. unfold maxPumpIters. lia.
Qed.

Lemma leads_and {S A} (Q R : A -> S -> Prop) (E F : error -> S -> Prop) r :
  leads Q E r -> leads R F r -> leads (fun a s => Q a s /\ R a s) (fun e s => E e s /\ F e s) r.
Proof. unfold leads. destruct r as [[a|e|] s]; auto. Qed.

(** The error of the first call, as a value, is returned by the second. *)
Lemma leads_try {S A B} (m : M S A) (k : A + error -> M S B) Q R E F s :
  leads Q E (m s) -> (forall a s', Q a s' -> leads R F (k (inl a) s')) ->
  (forall e s', E e s' -> leads R F (k (inr e) s')) -> leads R F (bind (try m) k s).
Proof. unfold leads at 1, bind, try. destruct (m s) as [[a|e|] s']; auto. Qed.

(** A pump's first iteration. *)
Lemma pump_return {T A} (body : M T (option A)) timeout s a s' :
  body s = (Ok (Some a), s') -> pump body timeout s = (Ok a, s').
Proof.
  intros H. unfold pump.
  rewrite (pumpFrom_fuel _ (S (Z.to_nat maxPumpIters))) by (cbn; unfold maxPumpIters; lia).
  cbn [pumpFrom]. change (dc_expired newDeadlineChecker) with false.
  unfold bind. by rewrite H.
Qed.

(** *** Successful runs *)

(** A successful run went through a successful first call. *)
Lemma bind_ok {S A B} (m : M S A) (k : A -> M S B) s b s' :
  bind m k s = (Ok b, s') -> exists a s1, m s = (Ok a, s1) /\ k a s1 = (Ok b, s').
Proof. unfold bind. destruct (m s) as [[a|e|] s1]; [|done|done]. intros Hk. by exists a, s1. Qed.
Lemma bind_assoc {S A B D} (m : M S A) (k : A -> M S B) (f : B -> M S D) s : bind (bind m k) f s = bind m (fun a => bind (k a) f) s.
Proof. unfold bind. by destruct (m s) as [[?|?|] ?]. Qed.
Lemma bind_ext {S A B} (m : M S A) (k k' : A -> M S B) s : (forall a s', k a s' = k' a s') -> bind m k s = bind m k' s.
Proof. intros E. unfold bind. by destruct (m s) as [[?|?|] ?]. Qed.
Lemma bind_ret {S A B} (x : A) (k : A -> M S B) s : bind (ret x) k s = k x s.
Proof. done. Qed.
Lemma lift_ok {S A} (m : out A) (s : S) a s' : lift m s = (Ok a, s') -> m = Ok a /\ s' = s.
Proof. unfold lift. by intros [= -> ->]. Qed.
Lemma ret_ok {S A} (x : A) (s : S) a s' : ret x s = (Ok a, s') -> a = x /\ s' = s.
Proof. unfold ret. by intros [= -> ->]. Qed.
Lemma guard_ok {S A} (b : bool) e (m : M S A) s a s' :
  (if b then throw e else m) s = (Ok a, s') -> b = false /\ m s = (Ok a, s').
Proof. by destruct b. Qed.
