(* ===== verification/NetIP.v ===== *)
(** * net.IP and net.IPMask, the part of the standard library the stack uses

    An address is a byte slice of length 4 or 16; [nil] is the empty slice
    where only [To4] looks at it, and [None] of an [option] where the code
    compares a field with [nil]. *)

From S2P Require Import Prelude.

Definition IP := list byte.

Definition v4InV6Prefix : list byte := repeat x00 10 ++ [xff; xff].

(** [ip.To4()] *)
Definition To4 (ip : IP) : option IP :=
  if len ip =? 4 then Some ip
  else if (len ip =? 16) && bool_decide (take 12 ip = v4InV6Prefix)
  then Some (drop 12 ip) else None.

(** [ip.Equal(x)] *)
Definition IP_Equal (ip x : IP) : bool :=
  if len ip =? len x then bool_decide (ip = x)
  else if (len ip =? 4) && (len x =? 16)
  then bool_decide (take 12 x = v4InV6Prefix) && bool_decide (ip = drop 12 x)
  else if (len ip =? 16) && (len x =? 4)
  then bool_decide (take 12 ip = v4InV6Prefix) && bool_decide (drop 12 ip = x)
  else false.

Lemma To4_len ip a : To4 ip = Some a -> len a = 4.
Proof.
  unfold To4. destruct (Z.eqb_spec (len ip) 4); [by intros [= <-]|].
  destruct (Z.eqb_spec (len ip) 16); cbn; [|done].
  case_bool_decide; [|done]. intros [= <-]. len_lia.
Qed.

Lemma To4_id ip : len ip = 4 -> To4 ip = Some ip.
Proof. intros H. unfold To4. by rewrite H. Qed.

(** [a4 == nil] after a [To4] only for addresses that are not IPv4. *)
Lemma To4_idemp ip a : To4 ip = Some a -> To4 a = Some a.
Proof. intros H%To4_len. by apply To4_id. Qed.

Lemma IP_Equal_refl4 a b : len a = 4 -> len b = 4 -> IP_Equal a b = bool_decide (a = b).
Proof. intros Ha Hb. unfold IP_Equal. by rewrite Ha, Hb. Qed.
