(* ===== verification/Ethernet.v ===== *)
(** * Ethernet II frames (uefiboard/ministack/ethernet.go)

    The 14-byte L2 header: parse, build, and the address predicates. *)

From S2P Require Import Prelude.

Definition EtherTypeIPv4 : Z := 0x0800.
Definition EtherTypeARP : Z := 0x0806.
Definition EthernetHeaderLen : Z := 14.
Definition MaxFrameLen : Z := 1514.

Definition BroadcastMAC : list byte := repeat xff 6.

Record EthernetFrame := mkEthernetFrame {
  eth_Dst : list byte;
  eth_Src : list byte;
  eth_EtherType : Z;
  eth_Payload : list byte
}.

Definition ParseEthernet (frame : list byte) : out EthernetFrame :=
  ret_if len frame <? EthernetHeaderLen with ErrFrameTooShort;;
  let* d := slice frame 0 6 in
  let* s := slice frame 6 12 in
  let dst := copy (make 6) d in
  let src := copy (make 6) s in
  let* ty := getU16 frame 12 14 in
  let* pl := sliceFrom frame EthernetHeaderLen in
  Ok (mkEthernetFrame dst src ty pl).

Definition MarshalEthernet (dst src : list byte) (etherType : Z) (payload : list byte)
  : out (list byte) :=
  ret_if negb (len dst =? 6) || negb (len src =? 6) with ErrInvalidMAC;;
  let total := EthernetHeaderLen + len payload in
  ret_if MaxFrameLen <? total with ErrFrameTooLong;;
  let frame := make total in
  let* frame := copyAt frame 0 6 dst in
  let* frame := copyAt frame 6 12 src in
  let* frame := putU16 frame 12 14 etherType in
  copyAt frame EthernetHeaderLen (len frame) payload.

Definition IsBroadcast (mac : list byte) : bool :=
  (len mac =? 6) && forallb (fun b => b2z b =? 0xff) mac.

Definition IsZeroMAC (mac : list byte) : bool :=
  (len mac =? 6) && forallb (fun b => b2z b =? 0) mac.

(** ** The wire format *)

(** The frame MarshalEthernet lays out. *)
Definition eth_layout (dst src : list byte) (ty : Z) (payload : list byte) : list byte :=
  dst ++ src ++ enc16 ty ++ payload.

Lemma MarshalEthernet_layout dst src ty payload :
  len dst = 6 -> len src = 6 -> len payload <= 1500 ->
  MarshalEthernet dst src ty payload = Ok (eth_layout dst src ty payload).
Proof.
  intros Hd Hs Hp. unfold MarshalEthernet, EthernetHeaderLen, MaxFrameLen.
  rewrite Hd, Hs. cbn [negb orb Z.eqb Pos.eqb].
  replace (1514 <? 14 + len payload) with false by lia.
  rewrite make_split by (pose_lens; lia). explode dst Hd. explode src Hs.
  change (make 14) with (repeat x00 14). cbn [repeat].
  hdr_run. by rewrite copyAt_tail.
Qed.

Lemma ParseEthernet_layout dst src ty payload :
  len dst = 6 -> len src = 6 ->
  ParseEthernet (eth_layout dst src ty payload)
  = Ok (mkEthernetFrame dst src (u16 ty) payload).
Proof.
  intros Hd Hs. unfold ParseEthernet, eth_layout, EthernetHeaderLen. pose_lens.
  replace (_ <? 14) with false by (symmetry; apply Z.ltb_ge; len_lia).
  explode dst Hd. explode src Hs. rewrite !app_assoc.
  match goal with |- context [(?h ++ payload)] =>
    let h' := eval cbn in h in change h with h' end.
  hdr_run. rewrite sliceFrom_app by done. cbn [out_bind]. rewrite be16_enc. done.
Qed.

(** Every frame of at least 14 bytes is such a layout. *)
Lemma eth_layout_surj frame :
  14 <= len frame ->
  exists dst src ty payload, len dst = 6 /\ len src = 6 /\ isU16 ty /\
    len payload = len frame - 14 /\ frame = eth_layout dst src ty payload.
Proof.
  intros H. destruct (split_at frame 14) as (h & t & -> & Hh & Ht); [lia|].
  explode h Hh.
  exists [x; x0; x1; x2; x3; x4], [x5; x6; x7; x8; x9; x10], (be16 x11 x12), t.
  unfold eth_layout. rewrite enc16_be. do 2 (split; [done|]).
  split; [apply be16_range|]. done.
Qed.

Lemma ParseEthernet_short frame :
  len frame < 14 -> ParseEthernet frame = Err ErrFrameTooShort.
Proof. intros. unfold ParseEthernet, EthernetHeaderLen. by replace (_ <? 14) with true by lia. Qed.

Lemma ParseEthernet_safe frame : safe (ParseEthernet frame).
Proof.
  destruct (Z.lt_ge_cases (len frame) 14).
  - by rewrite ParseEthernet_short.
  - destruct (eth_layout_surj frame) as (d & s & ty & p & ? & ? & ? & ? & ->); [lia|].
    by rewrite ParseEthernet_layout.
Qed.
#[export] Hint Resolve ParseEthernet_safe : gosafe.

Lemma MarshalEthernet_ok dst src ty payload frame :
  MarshalEthernet dst src ty payload = Ok frame ->
  len dst = 6 /\ len src = 6 /\ len payload <= 1500 /\ frame = eth_layout dst src ty payload.
Proof.
  intros H. destruct (Z.eq_dec (len dst) 6) as [Hd|]; cycle 1.
  { exfalso. revert H. unfold MarshalEthernet. by replace (len dst =? 6) with false by lia. }
  destruct (Z.eq_dec (len src) 6) as [Hs|]; cycle 1.
  { exfalso. revert H. unfold MarshalEthernet. rewrite Hd. by replace (len src =? 6) with false by lia. }
  destruct (Z.lt_ge_cases 1500 (len payload)) as [Hp|Hp].
  { exfalso. revert H. unfold MarshalEthernet, EthernetHeaderLen, MaxFrameLen. rewrite Hd, Hs. cbn.
    by replace (1514 <? 14 + len payload) with true by lia. }
  rewrite MarshalEthernet_layout in H by done. injection H as <-. done.
Qed.

Lemma MarshalEthernet_safe dst src ty payload : safe (MarshalEthernet dst src ty payload).
Proof.
  destruct (Z.eq_dec (len dst) 6) as [Hd|Hd], (Z.eq_dec (len src) 6) as [Hs|Hs];
    destruct (Z.lt_ge_cases 1500 (len payload)) as [Hp|Hp];
    try (by rewrite MarshalEthernet_layout);
    unfold MarshalEthernet, EthernetHeaderLen, MaxFrameLen; blia; try done; lia.
Qed.
#[export] Hint Resolve MarshalEthernet_safe : gosafe.

(** The largest frame the link sees. *)
Lemma MarshalEthernet_len dst src ty payload frame :
  MarshalEthernet dst src ty payload = Ok frame -> len frame = 14 + len payload /\ len frame <= 1514.
Proof.
  intros (Hd & Hs & Hp & ->)%MarshalEthernet_ok. unfold eth_layout. len_norm. lia.
Qed.

(** ** Properties *)

(** Ethernet framing is exact in both directions: a frame that
    MarshalEthernet accepts parses back to the same addresses, type and
    payload, and every frame ParseEthernet accepts that is no longer than
    MaxFrameLen is rebuilt byte for byte from its parsed fields. *)
Theorem ethernet_roundtrip :
  (forall dst src ty payload frame, isU16 ty ->
     MarshalEthernet dst src ty payload = Ok frame ->
     ParseEthernet frame = Ok (mkEthernetFrame dst src ty payload)) /\
  (forall frame f, len frame <= MaxFrameLen -> ParseEthernet frame = Ok f ->
     MarshalEthernet (eth_Dst f) (eth_Src f) (eth_EtherType f) (eth_Payload f) = Ok frame).
Proof.
  split.
  - intros dst src ty payload frame Hty (Hd & Hs & Hp & ->)%MarshalEthernet_ok.
    rewrite ParseEthernet_layout by done. by rewrite u16_small.
  - intros frame f Hl Hp. destruct (Z.lt_ge_cases (len frame) 14) as [Hs|Hs].
    { rewrite ParseEthernet_short in Hp; [done|lia]. }
    destruct (eth_layout_surj frame) as (d & s & ty & p & Hd & Hsrc & Hty & Hpl & ->); [lia|].
    rewrite ParseEthernet_layout in Hp by done. injection Hp as <-.
    unfold MaxFrameLen in Hl. cbn [eth_Dst eth_Src eth_EtherType eth_Payload].
    rewrite u16_small by done. apply MarshalEthernet_layout; lia || done.
Qed.

(** A concrete frame through both directions. *)
Definition sampleMAC : list byte := [x52; x54; x00; x12; x34; x56].

Lemma ethernet_roundtrip_witness :
  isU16 EtherTypeIPv4 /\
  exists frame, MarshalEthernet BroadcastMAC sampleMAC EtherTypeIPv4 (str "hello") = Ok frame /\
    ParseEthernet frame = Ok (mkEthernetFrame BroadcastMAC sampleMAC EtherTypeIPv4 (str "hello")).
Proof.
  split; [done|]. eexists. split; [vm_compute; reflexivity|].
  apply (proj1 ethernet_roundtrip); [done|]. vm_compute; reflexivity.
Defined.
