(* ===== verification/IPv4.v ===== *)
(** * IPv4 (uefiboard/ministack/ipv4.go)

    The Internet checksum, the 20-byte header codec and the route table. *)

From S2P Require Import Prelude NetIP.

Definition IPv4HeaderLen : Z := 20.
Definition IPProtoICMP : Z := 1.
Definition IPProtoTCP : Z := 6.
Definition IPProtoUDP : Z := 17.
Definition IPv4DefaultTTL : Z := 64.
Definition IPv4MTU : Z := 1500.

(** ** InternetChecksum *)

(** The summing loop: [sum] is a uint32, the index walks two bytes at a time. *)
Fixpoint cksumLoop (data : list byte) (sum : Z) : Z :=
  match data with
  | b0 :: b1 :: rest => cksumLoop rest (u32 (sum + be16 b0 b1))
  | [b0] => u32 (sum + Z.shiftl (b2z b0) 8)
  | [] => sum
  end.

(** [for sum>>16 != 0 { sum = (sum & 0xFFFF) + (sum >> 16) }] *)
Fixpoint foldCarry (fuel : nat) (sum : Z) : Z :=
  match fuel with
  | O => sum
  | S fuel' =>
      if negb (Z.shiftr sum 16 =? 0)
      then foldCarry fuel' (u32 (Z.land sum 0xFFFF + Z.shiftr sum 16))
      else sum
  end.

(** Three rounds are enough for any uint32: [foldCarry_done] below. *)
Definition InternetChecksum (data : list byte) : Z :=
  u16 (Z.lnot (u16 (foldCarry 3 (cksumLoop data 0)))).

(** ** Header *)

Record IPv4Header := mkIPv4Header {
  ip_TOS : Z;
  ip_TotalLen : Z;
  ip_ID : Z;
  ip_Flags : Z;
  ip_FragOff : Z;
  ip_TTL : Z;
  ip_Protocol : Z;
  ip_Checksum : Z;
  ip_Src : IP;
  ip_Dst : IP
}.

Definition ParseIPv4 (pkt : list byte) : out (IPv4Header * list byte) :=
  ret_if len pkt <? IPv4HeaderLen with ErrIPv4HeaderTooShort;;
  let* versionIHL := idx pkt 0 in
  ret_if negb (Z.shiftr versionIHL 4 =? 4) with ErrIPv4NotV4;;
  let ihl := Z.land versionIHL 0x0F in
  ret_if ihl <? 5 with ErrIPv4HeaderTooShort;;
  ret_if len pkt <? ihl * 4 with ErrIPv4HeaderTooShort;;
  let* gotCksum := getU16 pkt 10 12 in
  let* h := slice pkt 0 20 in
  let zeroed := copy (make 20) h in
  let* zeroed := setAt zeroed 10 0 in
  let* zeroed := setAt zeroed 11 0 in
  ret_if negb (InternetChecksum zeroed =? gotCksum) with ErrIPv4BadChecksum;;
  let* flagsFrag := getU16 pkt 6 8 in
  let* tos := idx pkt 1 in
  let* total := getU16 pkt 2 4 in
  let* id := getU16 pkt 4 6 in
  let* ttl := idx pkt 8 in
  let* proto := idx pkt 9 in
  let* src := slice pkt 12 16 in
  let* dst := slice pkt 16 20 in
  let* payload := sliceFrom pkt 20 in
  Ok (mkIPv4Header tos total id (u8 (Z.shiftr flagsFrag 13)) (Z.land flagsFrag 0x1FFF)
        ttl proto gotCksum src dst, payload).

Definition MarshalIPv4 (src dst : IP) (protocol id : Z) (payload : list byte)
  : out (list byte) :=
  match To4 src, To4 dst with
  | Some s4, Some d4 =>
      let total := IPv4HeaderLen + len payload in
      ret_if IPv4MTU <? total with ErrIPv4PacketTooLong;;
      let pkt := make total in
      let* pkt := setAt pkt 0 (Z.lor (Z.shiftl 4 4) 5) in
      let* pkt := setAt pkt 1 0 in
      let* pkt := putU16 pkt 2 4 (u16 total) in
      let* pkt := putU16 pkt 4 6 id in
      let* pkt := putU16 pkt 6 8 0x4000 in
      let* pkt := setAt pkt 8 IPv4DefaultTTL in
      let* pkt := setAt pkt 9 protocol in
      let* pkt := copyAt pkt 12 16 s4 in
      let* pkt := copyAt pkt 16 20 d4 in
      let* pkt := copyAt pkt IPv4HeaderLen (len pkt) payload in
      let* hdr := sliceTo pkt 20 in
      let cksum := InternetChecksum hdr in
      putU16 pkt 10 12 cksum
  | _, _ => Err ErrIPv4InvalidIP
  end.

(** ** Route table *)

Record RouteTable := mkRouteTable {
  rt_Local : option IP;
  rt_Mask : option (list byte);
  rt_Gateway : option IP
}.

Definition emptyRoute : RouteTable := mkRouteTable None None None.

Definition SetLocal (r : RouteTable) (addr : IP) (mask : list byte) : out RouteTable :=
  match To4 addr with
  | None => Err ErrIPv4InvalidIP
  | Some a4 =>
      ret_if negb (len mask =? 4) with ErrIPv4InvalidIP;;
      Ok (mkRouteTable (Some a4) (Some mask) (rt_Gateway r))
  end.

(** [None] is the nil address, which clears the default route. *)
Definition SetGateway (r : RouteTable) (gw : option IP) : out RouteTable :=
  match gw with
  | None => Ok (mkRouteTable (rt_Local r) (rt_Mask r) None)
  | Some g =>
      match To4 g with
      | None => Err ErrIPv4InvalidIP
      | Some g4 => Ok (mkRouteTable (rt_Local r) (rt_Mask r) (Some g4))
      end
  end.

(** The loop over the four bytes. *)
Definition maskedEq (l m t : list byte) (i : nat) : bool :=
  Z.land (b2z (nth i l x00)) (b2z (nth i m x00))
  =? Z.land (b2z (nth i t x00)) (b2z (nth i m x00)).

Definition subnetContains (local mask target : list byte) : bool :=
  if negb (len local =? 4) || negb (len mask =? 4) || negb (len target =? 4) then false
  else forallb (maskedEq local mask target) (seq 0 4).

Definition Lookup (r : RouteTable) (dst : IP) : out IP :=
  match To4 dst with
  | None => Err ErrIPv4InvalidIP
  | Some d4 =>
      match rt_Local r, rt_Mask r with
      | Some local, Some mask =>
          if subnetContains local mask d4 then Ok d4
          else match rt_Gateway r with Some g => Ok g | None => Err ErrNoRoute end
      | _, _ => match rt_Gateway r with Some g => Ok g | None => Err ErrNoRoute end
      end
  end.

(** ** The checksum against RFC 1071 *)

(** The sum of the 16-bit words as an integer, an odd last byte padded with
    zero. *)
Fixpoint wordSum (data : list byte) : Z :=
  match data with
  | b0 :: b1 :: rest => be16 b0 b1 + wordSum rest
  | [b0] => b2z b0 * 256
  | [] => 0
  end.

(** One's-complement value of a sum: zero stays zero, every other sum is
    represented in 1..65535. *)
Definition onesComplement (s : Z) : Z := if s =? 0 then 0 else (s - 1) mod 65535 + 1.

Lemma be16_bounds a b : 0 <= be16 a b <= 65535.
Proof. destruct (be16_range a b). change (2 ^ 16) with 65536 in *. lia. Qed.

(** Induction two bytes at a time. *)
Lemma pairs_ind {A} (P : list A -> Prop) :
  P [] -> (forall a, P [a]) -> (forall a b l, P l -> P (a :: b :: l)) -> forall l, P l.
Proof.
  intros H0 H1 H2 l. enough (P l /\ forall a, P (a :: l)) as [? _]; [done|].
  induction l as [|b l [IH1 IH2]]; split; auto.
Qed.

Lemma wordSum_bounds data : 0 <= wordSum data /\ 2 * wordSum data <= 65535 * (len data + 1).
Proof.
  induction data using pairs_ind; cbn [wordSum]; len_norm; [lia| |].
  - pose proof (b2z_range a). lia.
  - pose proof (be16_bounds a b). lia.
Qed.

Lemma cksumLoop_sum data sum :
  0 <= sum -> sum + wordSum data < 2 ^ 32 -> cksumLoop data sum = sum + wordSum data.
Proof.
  revert sum. induction data using pairs_ind; intros sum Hs; cbn [wordSum cksumLoop].
  - lia.
  - intros Hb. pose proof (b2z_range a). unfold u32. rewrite Z.shiftl_mul_pow2 by lia.
    change (2 ^ 8) with 256. rewrite Z.mod_small; lia.
  - intros Hb. pose proof (be16_bounds a b). destruct (wordSum_bounds data) as [Hw _].
    unfold u32. rewrite Z.mod_small by lia. rewrite IHdata by lia. lia.
Qed.

Lemma land_ffff s : Z.land s 0xFFFF = s mod 65536.
Proof. change 0xFFFF with (Z.ones 16). by rewrite Z.land_ones. Qed.
Lemma shiftr_16 s : Z.shiftr s 16 = s / 65536.
Proof. by rewrite Z.shiftr_div_pow2. Qed.

(** One round keeps the value modulo 65535 and zero apart. *)
Lemma carry_round s :
  0 <= s < 2 ^ 32 -> s / 65536 <> 0 ->
  let s' := s mod 65536 + s / 65536 in
  0 < s' < s /\ onesComplement s' = onesComplement s /\ s' <= 65535 + s / 65536.
Proof.
  change (2 ^ 32) with 4294967296. intros Hs Hq.
  pose proof (Z.div_mod s 65536 ltac:(lia)). pose proof (Z.mod_pos_bound s 65536 ltac:(lia)).
  pose proof (Z.div_pos s 65536 ltac:(lia) ltac:(lia)).
  set (q := s / 65536) in *. set (r := s mod 65536) in *.
  cbn. split; [lia|]. split; [|lia].
  unfold onesComplement. replace (r + q =? 0) with false by lia.
  replace (s =? 0) with false by lia. f_equal.
  replace (s - 1) with (r + q - 1 + q * 65535) by lia. by rewrite Z.mod_add.
Qed.

Lemma foldCarry_step fuel s :
  0 <= s < 2 ^ 32 ->
  foldCarry (S fuel) s
  = if s / 65536 =? 0 then s else foldCarry fuel (s mod 65536 + s / 65536).
Proof.
  intros Hs. cbn [foldCarry]. rewrite shiftr_16, land_ffff.
  destruct (Z.eqb_spec (s / 65536) 0); cbn [negb]; [done|].
  destruct (carry_round s Hs n) as [? _]. unfold u32. rewrite Z.mod_small by lia. done.
Qed.

Lemma onesComplement_small s : 0 <= s <= 65535 -> onesComplement s = s.
Proof.
  intros. unfold onesComplement. destruct (Z.eqb_spec s 0); [done|].
  rewrite Z.mod_small by lia. lia.
Qed.

Lemma onesComplement_range s : 0 <= s -> 0 <= onesComplement s <= 65535.
Proof.
  intros. unfold onesComplement. destruct (s =? 0); [lia|].
  pose proof (Z.mod_pos_bound (s - 1) 65535 ltac:(lia)). lia.
Qed.

(** The loop of the code ends within its three rounds, with a 16-bit value. *)
Lemma foldCarry_done s fuel :
  0 <= s < 2 ^ 32 -> foldCarry (3 + fuel) s = onesComplement s.
Proof.
  change (3 + fuel)%nat with (S (S (S fuel))).
  intros Hs. rewrite foldCarry_step by done.
  destruct (Z.eqb_spec (s / 65536) 0) as [Hz|Hz].
  { apply Z.div_small_iff in Hz; [|lia]. rewrite onesComplement_small; lia. }
  destruct (carry_round s Hs Hz) as (H1 & <- & H2).
  assert (s / 65536 < 65536) by (apply Z.div_lt_upper_bound; [lia|]; change (2 ^ 32) with 4294967296 in Hs; lia).
  set (t := s mod 65536 + s / 65536) in *.
  rewrite foldCarry_step by lia.
  destruct (Z.eqb_spec (t / 65536) 0) as [Hz'|Hz'].
  { apply Z.div_small_iff in Hz'; [|lia]. rewrite onesComplement_small; lia. }
  destruct (carry_round t ltac:(lia) Hz') as (H1' & <- & H2').
  assert (t / 65536 = 1) as Hq by (apply Z.le_antisymm;
    [apply Z.lt_succ_r, Z.div_lt_upper_bound; lia | pose proof (Z.div_pos t 65536 ltac:(lia) ltac:(lia)); lia]).
  set (v := t mod 65536 + t / 65536) in *. assert (v <= 65535).
  { unfold v. rewrite Hq. pose proof (Z.mod_eq t 65536 ltac:(lia)). rewrite Hq in *. lia. }
  rewrite foldCarry_step by lia. rewrite Z.div_small by lia. cbn.
  rewrite onesComplement_small; lia.
Qed.

Lemma InternetChecksum_val data :
  len data <= 131072 -> InternetChecksum data = 65535 - onesComplement (wordSum data).
Proof.
  intros Hl. destruct (wordSum_bounds data) as [Hw0 Hw].
  assert (wordSum data < 2 ^ 32) by (change (2 ^ 32) with 4294967296; lia).
  unfold InternetChecksum. rewrite cksumLoop_sum by lia. rewrite Z.add_0_l.
  rewrite (foldCarry_done _ 0) by lia. pose proof (onesComplement_range (wordSum data) Hw0).
  unfold u16. change (2 ^ 16) with 65536. rewrite (Z.mod_small (onesComplement _)) by lia.
  unfold Z.lnot. symmetry. apply (Z.mod_unique_pos _ _ (-1)); lia.
Qed.

Lemma InternetChecksum_range data : isU16 (InternetChecksum data).
Proof. apply u16_range. Qed.
#[export] Hint Resolve InternetChecksum_range : core.

(** Stamping the complement of a sum makes the total sum all ones: the test a
    receiver of RFC 1071 does. *)
Lemma onesComplement_verify s :
  0 <= s -> onesComplement (s + (65535 - onesComplement s)) = 65535.
Proof.
  intros Hs. unfold onesComplement at 2. destruct (Z.eqb_spec s 0) as [->|]; [done|].
  pose proof (Z.mod_pos_bound (s - 1) 65535 ltac:(lia)).
  pose proof (Z.div_mod (s - 1) 65535 ltac:(lia)). pose proof (Z.div_pos (s - 1) 65535 ltac:(lia) ltac:(lia)).
  unfold onesComplement. destruct (Z.eqb_spec (s + (65535 - ((s - 1) mod 65535 + 1))) 0); [lia|].
  replace (s + (65535 - ((s - 1) mod 65535 + 1)) - 1)
    with (65534 + ((s - 1) / 65535) * 65535) by lia.
  by rewrite Z.mod_add.
Qed.

(** Sums that differ by less than 65535 have different checksums. *)
Lemma onesComplement_neq s t :
  0 < s -> 0 < t -> s <> t -> Z.abs (s - t) < 65535 -> onesComplement s <> onesComplement t.
Proof.
  intros Hs Ht Hne Hd. unfold onesComplement.
  replace (s =? 0) with false by lia. replace (t =? 0) with false by lia.
  intros He. pose proof (Z.div_mod (s - 1) 65535 ltac:(lia)).
  pose proof (Z.div_mod (t - 1) 65535 ltac:(lia)).
  assert ((s - 1) mod 65535 = (t - 1) mod 65535) as Hm by lia.
  assert ((s - 1) / 65535 = (t - 1) / 65535) by (rewrite Hm in *; nia). lia.
Qed.

(** ** The header as a layout *)

Definition ipHdr (total id proto cksum : Z) (s4 d4 : list byte) : list byte :=
  [z2b 0x45; z2b 0] ++ enc16 total ++ enc16 id ++ enc16 0x4000 ++ [z2b 64; z2b proto]
  ++ enc16 cksum ++ s4 ++ d4.

Lemma len_ipHdr total id proto cksum s4 d4 :
  len s4 = 4 -> len d4 = 4 -> len (ipHdr total id proto cksum s4 d4) = 20.
Proof. intros. unfold ipHdr. len_norm. lia. Qed.

Lemma MarshalIPv4_layout src dst proto id payload s4 d4 :
  To4 src = Some s4 -> To4 dst = Some d4 -> len payload <= 1480 ->
  MarshalIPv4 src dst proto id payload
  = Ok (ipHdr (20 + len payload) id proto
          (InternetChecksum (ipHdr (20 + len payload) id proto 0 s4 d4)) s4 d4 ++ payload).
Proof.
  intros Hs Hd Hp. pose proof (To4_len _ _ Hs) as Ls. pose proof (To4_len _ _ Hd) as Ld.
  unfold MarshalIPv4, IPv4HeaderLen, IPv4MTU, IPv4DefaultTTL. rewrite Hs, Hd.
  replace (1500 <? 20 + len payload) with false by lia.
  rewrite u16_small by (unfold isU16; change (2 ^ 16) with 65536; pose_lens; lia).
  rewrite make_split by (pose_lens; lia). clear Hs Hd. explode s4 Ls. explode d4 Ld.
  change (make 20) with (repeat x00 20). cbn [repeat]. hdr_run.
  rewrite copyAt_tail by done. cbn [out_bind]. rewrite sliceTo_app by done. cbn [out_bind].
  hdr_run. unfold ipHdr. cbn [app enc16]. done.
Qed.

Lemma MarshalIPv4_ok src dst proto id payload pkt :
  MarshalIPv4 src dst proto id payload = Ok pkt ->
  exists s4 d4, To4 src = Some s4 /\ To4 dst = Some d4 /\ len payload <= 1480 /\
    pkt = ipHdr (20 + len payload) id proto
            (InternetChecksum (ipHdr (20 + len payload) id proto 0 s4 d4)) s4 d4 ++ payload.
Proof.
  intros H. destruct (To4 src) as [s4|] eqn:Hs; cycle 1.
  { unfold MarshalIPv4 in H. by rewrite Hs in H. }
  destruct (To4 dst) as [d4|] eqn:Hd; cycle 1.
  { unfold MarshalIPv4 in H. by rewrite Hs, Hd in H. }
  destruct (Z.lt_ge_cases 1480 (len payload)) as [Hp|Hp].
  { unfold MarshalIPv4, IPv4MTU, IPv4HeaderLen in H. rewrite Hs, Hd in H.
    by replace (1500 <? 20 + len payload) with true in H by lia. }
  rewrite (MarshalIPv4_layout _ _ _ _ _ s4 d4) in H by done. injection H as <-. eauto 6.
Qed.

Lemma MarshalIPv4_safe src dst proto id payload : safe (MarshalIPv4 src dst proto id payload).
Proof.
  destruct (To4 src) as [s4|] eqn:Hs, (To4 dst) as [d4|] eqn:Hd;
    try (unfold MarshalIPv4; rewrite Hs, ?Hd; done).
  destruct (Z.lt_ge_cases 1480 (len payload)) as [Hp|Hp].
  - unfold MarshalIPv4, IPv4MTU, IPv4HeaderLen. rewrite Hs, Hd.
    by replace (1500 <? 20 + len payload) with true by lia.
  - by rewrite (MarshalIPv4_layout _ _ _ _ _ s4 d4).
Qed.

Lemma MarshalIPv4_len src dst proto id payload pkt :
  MarshalIPv4 src dst proto id payload = Ok pkt ->
  len pkt = 20 + len payload /\ len pkt <= IPv4MTU.
Proof.
  intros (s4 & d4 & Hs%To4_len & Hd%To4_len & Hp & ->)%MarshalIPv4_ok.
  unfold IPv4MTU. rewrite len_app, len_ipHdr by done. lia.
Qed.
#[export] Hint Resolve MarshalIPv4_safe : gosafe.

(** The header with its checksum field zeroed, as ParseIPv4 recomputes it. *)
Definition zeroCksum (h : list byte) : list byte := take 10 h ++ [x00; x00] ++ drop 12 h.

(** What ParseIPv4 does on a packet that has its 20 bytes. *)
Lemma ParseIPv4_unfold h t :
  len h = 20 ->
  ParseIPv4 (h ++ t) =
  (let v := b2z (nth 0 h x00) in
   ret_if negb (Z.shiftr v 4 =? 4) with ErrIPv4NotV4;;
   ret_if Z.land v 0x0F <? 5 with ErrIPv4HeaderTooShort;;
   ret_if 20 + len t <? Z.land v 0x0F * 4 with ErrIPv4HeaderTooShort;;
   let ck := be16 (nth 10 h x00) (nth 11 h x00) in
   ret_if negb (InternetChecksum (zeroCksum h) =? ck) with ErrIPv4BadChecksum;;
   let ff := be16 (nth 6 h x00) (nth 7 h x00) in
   Ok (mkIPv4Header (b2z (nth 1 h x00)) (be16 (nth 2 h x00) (nth 3 h x00))
         (be16 (nth 4 h x00) (nth 5 h x00)) (u8 (Z.shiftr ff 13)) (Z.land ff 0x1FFF)
         (b2z (nth 8 h x00)) (b2z (nth 9 h x00)) ck (take 4 (drop 12 h)) (drop 16 h), t)).
Proof.
  intros Hh. unfold ParseIPv4, IPv4HeaderLen. rewrite !len_app, Hh.
  replace (20 + len t <? 20) with false by (pose_lens; lia).
  explode h Hh. hdr_run. rewrite sliceFrom_app by done. cbn [out_bind]. unfold zeroCksum.
  change (copy (make 20) ?l) with l. hdr_run. change (z2b 0) with x00. done.
Qed.

Lemma ParseIPv4_short pkt : len pkt < 20 -> ParseIPv4 pkt = Err ErrIPv4HeaderTooShort.
Proof. intros. unfold ParseIPv4, IPv4HeaderLen. by replace (_ <? 20) with true by lia. Qed.

Lemma ParseIPv4_safe pkt : safe (ParseIPv4 pkt).
Proof.
  destruct (Z.lt_ge_cases (len pkt) 20); [by rewrite ParseIPv4_short|].
  destruct (split_at pkt 20) as (h & t & -> & Hh & _); [lia|].
  rewrite ParseIPv4_unfold by done. cbv zeta. go_safe.
Qed.
#[export] Hint Resolve ParseIPv4_safe : gosafe.

(** What an accepted packet is. *)
Lemma ParseIPv4_ok pkt hd body :
  ParseIPv4 pkt = Ok (hd, body) ->
  exists h, pkt = h ++ body /\ len h = 20 /\ len (ip_Src hd) = 4 /\ len (ip_Dst hd) = 4 /\
    Z.shiftr (b2z (nth 0 h x00)) 4 = 4 /\
    InternetChecksum (zeroCksum h) = be16 (nth 10 h x00) (nth 11 h x00).
Proof.
  intros H. destruct (Z.lt_ge_cases (len pkt) 20); [by rewrite ParseIPv4_short in H|].
  destruct (split_at pkt 20) as (h & t & -> & Hh & _); [lia|].
  rewrite ParseIPv4_unfold in H by done. cbv zeta in H.
  destruct (Z.eqb_spec (Z.shiftr (b2z (nth 0 h x00)) 4) 4); cbn [negb] in H; [|done].
  destruct (_ <? 5); [done|]. destruct (_ <? _ * 4); [done|].
  destruct (Z.eqb_spec (InternetChecksum (zeroCksum h)) (be16 (nth 10 h x00) (nth 11 h x00)));
    cbn [negb] in H; [|done].
  injection H as <- <-. exists h. cbn. repeat split; try done; len_lia.
Qed.

(** ** Properties *)

(** The checksum routine computes the RFC 1071 checksum: the complement of the
    one's-complement sum of the 16-bit words (an odd last byte padded with
    zero), for every input of at most 128 KiB, where its 32-bit accumulator
    cannot overflow; its carry-folding loop ends within three rounds. *)
Theorem InternetChecksum_rfc1071 data :
  len data <= 131072 ->
  InternetChecksum data = 65535 - onesComplement (wordSum data) /\
  forall fuel, foldCarry (3 + fuel) (cksumLoop data 0) = foldCarry 3 (cksumLoop data 0).
Proof.
  intros Hl. split; [by apply InternetChecksum_val|]. intros fuel.
  destruct (wordSum_bounds data) as [Hw0 Hw].
  assert (wordSum data < 2 ^ 32) by (change (2 ^ 32) with 4294967296; lia).
  rewrite cksumLoop_sum by lia. rewrite (foldCarry_done _ fuel), (foldCarry_done _ 0) by lia. done.
Qed.

(** RFC 1071's worked example. *)
Lemma InternetChecksum_rfc1071_witness :
  len [x00; x01; xf2; x03; xf4; xf5; xf6; xf7] <= 131072 /\
  InternetChecksum [x00; x01; xf2; x03; xf4; xf5; xf6; xf7] = 65535 - 0xddf2.
Proof.
  split; [vm_compute; discriminate|].
  apply (InternetChecksum_rfc1071 [x00; x01; xf2; x03; xf4; xf5; xf6; xf7]).
  vm_compute; discriminate.
Defined.

Lemma ParseIPv4_layout total id proto s4 d4 payload :
  len s4 = 4 -> len d4 = 4 -> isU16 id -> 0 <= proto < 256 -> isU16 total ->
  let ck := InternetChecksum (ipHdr total id proto 0 s4 d4) in
  ParseIPv4 (ipHdr total id proto ck s4 d4 ++ payload)
  = Ok (mkIPv4Header 0 total id 2 0 64 proto ck s4 d4, payload).
Proof.
  intros Hs Hd Hid Hpr Ht ck. rewrite ParseIPv4_unfold by (by apply len_ipHdr).
  assert (zeroCksum (ipHdr total id proto ck s4 d4) = ipHdr total id proto 0 s4 d4) as ->.
  { unfold zeroCksum, ipHdr, enc16. explode s4 Hs. explode d4 Hd. cbn. done. }
  assert (be16 (nth 10 (ipHdr total id proto ck s4 d4) x00)
            (nth 11 (ipHdr total id proto ck s4 d4) x00) = ck) as ->.
  { transitivity (u16 ck); [apply be16_enc|]. apply u16_small, InternetChecksum_range. }
  cbv zeta. fold ck. rewrite (Z.eqb_refl ck). unfold ipHdr, enc16. cbn [app nth].
  rewrite !be16_enc, !(u16_small id), !(u16_small total), !b2z_z2b by done.
  change (0x45 mod 256) with 69. change (Z.shiftr 69 4) with 4. change (Z.land 69 15) with 5.
  cbn [negb Z.eqb Z.ltb Z.compare Pos.compare Pos.compare_cont Pos.eqb].
  replace (20 + len payload <? 5 * 4) with false by (pose_lens; lia).
  rewrite (Z.mod_small proto 256) by done. explode s4 Hs. explode d4 Hd. done.
Qed.

(** Every packet MarshalIPv4 emits parses back to its addresses, protocol,
    identification and payload, carries DF, TTL 64 and the right total length,
    and passes the checksum test of an RFC 1071 receiver (the one's-complement
    sum of its header, checksum included, is all ones). *)
Theorem ipv4_roundtrip src dst proto id payload pkt :
  isU16 id -> 0 <= proto < 256 ->
  MarshalIPv4 src dst proto id payload = Ok pkt ->
  exists s4 d4 ck, To4 src = Some s4 /\ To4 dst = Some d4 /\
    ParseIPv4 pkt = Ok (mkIPv4Header 0 (20 + len payload) id 2 0 64 proto ck s4 d4, payload) /\
    onesComplement (wordSum (take 20 pkt)) = 65535.
Proof.
  intros Hid Hpr (s4 & d4 & Hs & Hd & Hp & ->)%MarshalIPv4_ok.
  pose proof (To4_len _ _ Hs) as Ls. pose proof (To4_len _ _ Hd) as Ld.
  set (total := 20 + len payload). set (ck := InternetChecksum _).
  exists s4, d4, ck. split; [done|]. split; [done|]. split.
  - apply ParseIPv4_layout; try done. unfold isU16, total.
    change (2 ^ 16) with 65536. pose_lens. lia.
  - rewrite take_app_le by (pose proof (len_ipHdr total id proto ck s4 d4 Ls Ld); unfold len in *; lia).
    rewrite firstn_all2 by (pose proof (len_ipHdr total id proto ck s4 d4 Ls Ld); unfold len in *; lia).
    assert (wordSum (ipHdr total id proto ck s4 d4)
            = wordSum (ipHdr total id proto 0 s4 d4) + ck) as ->.
    { explode s4 Ls. explode d4 Ld. unfold ipHdr, enc16. cbn [app wordSum].
      rewrite (be16_enc ck), (be16_enc 0), (u16_small ck) by apply InternetChecksum_range.
      change (u16 0) with 0. lia. }
    unfold ck. rewrite InternetChecksum_val by (rewrite len_ipHdr by done; lia).
    apply onesComplement_verify, wordSum_bounds.
Qed.

Definition ipA : IP := [x0a; x00; x02; x0f].
Definition ipB : IP := [x0a; x00; x02; x02].

Lemma ipv4_roundtrip_witness :
  exists pkt s4 d4 ck, MarshalIPv4 ipA ipB IPProtoUDP 7 (str "payload") = Ok pkt /\
    To4 ipA = Some s4 /\ To4 ipB = Some d4 /\
    ParseIPv4 pkt = Ok (mkIPv4Header 0 27 7 2 0 64 17 ck s4 d4, str "payload") /\
    onesComplement (wordSum (take 20 pkt)) = 65535.
Proof.
  eexists. edestruct (ipv4_roundtrip ipA ipB IPProtoUDP 7 (str "payload"))
    as (s4 & d4 & ck & H1 & H2 & H3 & H4);
    [done|done|vm_compute; reflexivity|].
  exists s4, d4, ck. split; [vm_compute; reflexivity|]. done.
Defined.

(** ** Corruption *)

(** The packet with bit [k] of byte [i] inverted. *)
Definition flipBit (pkt : list byte) (i : nat) (k : Z) : list byte :=
  <[i := z2b (Z.lxor (b2z (nth i pkt x00)) (2 ^ k))]> pkt.

Lemma flip_byte b k :
  0 <= k < 8 ->
  let b' := z2b (Z.lxor (b2z b) (2 ^ k)) in
  b2z b' <> b2z b /\ Z.abs (b2z b' - b2z b) <= 128.
Proof.
  intros Hk. assert (k = 0 \/ k = 1 \/ k = 2 \/ k = 3 \/ k = 4 \/ k = 5 \/ k = 6 \/ k = 7)
    as Hc by lia.
  enough (forallb (fun b' => forallb (fun k => let v := b2z (z2b (Z.lxor (b2z b') (2 ^ k))) in
    negb (v =? b2z b') && (Z.abs (v - b2z b') <=? 128)) [0;1;2;3;4;5;6;7])
    (map (fun n => z2b (Z.of_nat n)) (seq 0 256)) = true) as Hall.
  - rewrite forallb_forall in Hall. pose proof (b2z_range b).
    specialize (Hall b). rewrite forallb_forall in Hall.
    assert (In b (map (fun n => z2b (Z.of_nat n)) (seq 0 256))) as Hin.
    { apply in_map_iff. exists (Z.to_nat (b2z b)). rewrite Z2Nat.id, z2b_b2z by lia.
      split; [done|]. apply in_seq. lia. }
    specialize (Hall Hin k). cbn zeta in Hall |- *.
    assert (In k [0; 1; 2; 3; 4; 5; 6; 7]) as Hk' by (cbn; intuition congruence).
    apply Hall in Hk'. lia.
  - vm_compute. reflexivity.
Qed.

Lemma wordSum_pos a b c d : 0 < b2z b -> 0 < wordSum (b :: a :: c ++ d).
Proof.
  intros. cbn [wordSum]. rewrite be16_val. destruct (wordSum_bounds (c ++ d)).
  pose proof (b2z_range a). lia.
Qed.

(** Two headers that agree on the checksum field cannot both be accepted when
    their word sums differ by less than 65535. *)
Lemma cksum_clash h h' :
  len h = 20 -> len h' = 20 ->
  0 < wordSum (zeroCksum h) -> 0 < wordSum (zeroCksum h') ->
  wordSum (zeroCksum h) <> wordSum (zeroCksum h') ->
  Z.abs (wordSum (zeroCksum h) - wordSum (zeroCksum h')) < 65535 ->
  InternetChecksum (zeroCksum h) <> InternetChecksum (zeroCksum h').
Proof.
  intros Hh Hh' Hp Hp' Hne Hab.
  assert (len (zeroCksum h) = 20) by (unfold zeroCksum; len_lia).
  assert (len (zeroCksum h') = 20) by (unfold zeroCksum; len_lia).
  rewrite !InternetChecksum_val by lia.
  pose proof (onesComplement_neq _ _ Hp Hp' Hne Hab). lia.
Qed.

Lemma zeroCksum_pos h : len h = 20 -> Z.shiftr (b2z (nth 0 h x00)) 4 = 4 ->
  0 < wordSum (zeroCksum h).
Proof.
  intros Hh Hv. explode h Hh. cbn [nth] in Hv. unfold zeroCksum. cbn [take drop app].
  apply (wordSum_pos _ _ []). destruct (Z.eq_dec (b2z x) 0) as [He|]; [by rewrite He in Hv|].
  pose proof (b2z_range x). lia.
Qed.

(** The effect of one inverted bit on the recomputed sum and the field. *)
Lemma flip_effect h i k :
  len h = 20 -> (i < 20)%nat -> 0 <= k < 8 ->
  let h' := flipBit h i k in
  (zeroCksum h' = zeroCksum h /\
   be16 (nth 10 h' x00) (nth 11 h' x00) <> be16 (nth 10 h x00) (nth 11 h x00)) \/
  (be16 (nth 10 h' x00) (nth 11 h' x00) = be16 (nth 10 h x00) (nth 11 h x00) /\
   wordSum (zeroCksum h) <> wordSum (zeroCksum h') /\
   Z.abs (wordSum (zeroCksum h) - wordSum (zeroCksum h')) < 65535).
Proof.
  intros Hh Hi Hk. explode h Hh. unfold flipBit.
  pose proof (fun b => flip_byte b k Hk) as Hf. cbv zeta in *.
  do 20 (destruct i as [|i]; [
    cbn [nth]; match goal with |- context [z2b (Z.lxor (b2z ?b) (2 ^ k))] =>
      destruct (Hf b) as [H1 H2]; set (b' := z2b (Z.lxor (b2z b) (2 ^ k))) in * end;
    unfold zeroCksum; cbn [insert list_insert nth take drop app wordSum];
    first [ left; split; [reflexivity|]; rewrite !be16_val; lia
          | right; split; [reflexivity|]; rewrite !be16_val; split; lia ] |]).
  lia.
Qed.

(** Header integrity: when a packet is accepted, the same packet with any one
    bit of its 20 header bytes inverted is refused. *)
Theorem ParseIPv4_detects_bit_error pkt r i k :
  ParseIPv4 pkt = Ok r -> (i < 20)%nat -> 0 <= k < 8 ->
  exists e, ParseIPv4 (flipBit pkt i k) = Err e.
Proof.
  destruct r as [hd body]. intros (h & -> & Hh & _ & _ & Hv & Hc)%ParseIPv4_ok Hi Hk.
  assert (flipBit (h ++ body) i k = flipBit h i k ++ body) as ->.
  { unfold flipBit. rewrite app_nth1, insert_app_l by (unfold len in Hh; lia). done. }
  assert (len (flipBit h i k) = 20) as Hh'.
  { unfold flipBit, len in *. by rewrite length_insert. }
  pose proof (ParseIPv4_safe (flipBit h i k ++ body)) as Hs.
  destruct (ParseIPv4 (flipBit h i k ++ body)) as [[hd' b']|e|] eqn:E; [|by exists e|done].
  exfalso. apply ParseIPv4_ok in E as (h' & Heq & Hl' & _ & _ & Hv' & Hc').
  apply app_inj_1 in Heq as [<- ->]; [|unfold len in *; lia].
  destruct (flip_effect h i k Hh Hi Hk) as [[Hz Hn]|(He & Hn & Hd)].
  - rewrite Hz in Hc'. congruence.
  - rewrite He, <- Hc in Hc'. symmetry in Hc'. revert Hc'. apply cksum_clash; try done;
      by apply zeroCksum_pos.
Qed.

Lemma ParseIPv4_detects_bit_error_witness :
  exists pkt r e, MarshalIPv4 ipA ipB IPProtoTCP 1 (str "x") = Ok pkt /\
    ParseIPv4 pkt = Ok r /\ ParseIPv4 (flipBit pkt 15 3) = Err e.
Proof.
  eexists _, _.
  edestruct (ParseIPv4_detects_bit_error) as [e He];
    [| | |exists e; split; [vm_compute; reflexivity|split; [|exact He]]];
    [vm_compute; reflexivity|lia|lia|vm_compute; reflexivity].
Defined.

(** ** Routing *)

Lemma subnetContains_spec local mask target :
  len local = 4 -> len mask = 4 -> len target = 4 ->
  subnetContains local mask target = true <->
  zip_with (fun a m => Z.land (b2z a) (b2z m)) local mask
  = zip_with (fun a m => Z.land (b2z a) (b2z m)) target mask.
Proof.
  intros Hl Hm Ht. unfold subnetContains. rewrite Hl, Hm, Ht.
  explode local Hl. explode mask Hm. explode target Ht.
  cbn [negb orb Z.eqb Pos.eqb seq forallb zip_with maskedEq nth].
  rewrite !andb_true_iff. unfold maskedEq. cbn [nth]. rewrite !Z.eqb_eq.
  split; [intros (?&?&?&?&_); congruence|]. intros [=]. auto.
Qed.

(** The next hop: the destination itself exactly when it is on the local
    subnet (it agrees with the local address under the mask, byte by byte),
    the gateway for every other IPv4 destination, and ErrNoRoute when there is
    none. *)
Theorem route_lookup_spec addr mask gw r1 r2 dst d4 a4 :
  SetLocal emptyRoute addr mask = Ok r1 -> SetGateway r1 gw = Ok r2 ->
  To4 addr = Some a4 -> To4 dst = Some d4 ->
  Lookup r2 dst =
    if bool_decide (zip_with (fun a m => Z.land (b2z a) (b2z m)) a4 mask
                    = zip_with (fun a m => Z.land (b2z a) (b2z m)) d4 mask)
    then Ok d4
    else match gw with
         | None => Err ErrNoRoute
         | Some g => match To4 g with Some g4 => Ok g4 | None => Err ErrIPv4InvalidIP end
         end.
Proof.
  intros HL HG Ha Hd. unfold SetLocal in HL. rewrite Ha in HL.
  destruct (Z.eqb_spec (len mask) 4) as [Hm|]; cbn [negb] in HL; [|done]. injection HL as <-.
  assert (rt_Local r2 = Some a4 /\ rt_Mask r2 = Some mask /\
    match gw with None => rt_Gateway r2 = None
    | Some g => exists g4, To4 g = Some g4 /\ rt_Gateway r2 = Some g4 end) as (HL & HM & Hg).
  { unfold SetGateway in HG. destruct gw as [g|]; [destruct (To4 g) eqn:E; [|done]|];
      injection HG as <-; cbn; eauto. }
  unfold Lookup. rewrite Hd, HL, HM.
  pose proof (subnetContains_spec a4 mask d4 (To4_len _ _ Ha) Hm (To4_len _ _ Hd)) as Hsub.
  case_bool_decide as Hz.
  - by rewrite (proj2 Hsub Hz).
  - destruct (subnetContains a4 mask d4); [by destruct Hz; apply Hsub|].
    destruct gw as [g|]; [|by rewrite Hg]. destruct Hg as (g4 & -> & ->). done.
Qed.

Definition mask24 : list byte := [xff; xff; xff; x00].

Lemma route_lookup_spec_witness :
  exists r1 r2, SetLocal emptyRoute ipA mask24 = Ok r1 /\ SetGateway r1 (Some ipB) = Ok r2 /\
    Lookup r2 [x08; x08; x08; x08] = Ok ipB.
Proof.
  set (r1 := mkRouteTable (Some ipA) (Some mask24) None).
  set (r2 := mkRouteTable (Some ipA) (Some mask24) (Some ipB)).
  exists r1, r2. split; [reflexivity|]. split; [reflexivity|].
  rewrite (route_lookup_spec ipA mask24 (Some ipB) r1 r2
             [x08; x08; x08; x08] [x08; x08; x08; x08] ipA); reflexivity.
Defined.

(** The header comment of IPv4Header says that Parse rejects every header with
    options; the code accepts one whose 20 fixed bytes carry a matching
    checksum and returns the option bytes as payload. *)
Theorem ParseIPv4_accepts_options :
  exists pkt h, b2z (nth 0 pkt x00) = 0x46 /\
    ParseIPv4 pkt = Ok (h, [x01; x01; x01; x00] ++ str "data").
Proof.
  exists ([x46; x00; x00; x1c; x00; x00; x40; x00; x40; x11; x21; xc1] ++ ipA ++ ipB
          ++ [x01; x01; x01; x00] ++ str "data").
  eexists. split; [reflexivity|]. vm_compute. reflexivity.
Qed.
