(* ===== verification/Icmp.v ===== *)
(** * ICMPv4 echo (uefiboard/ministack/icmp4.go) *)

From S2P Require Import Prelude NetIP IPv4.

Definition ICMPHeaderLen : Z := 8.
Definition ICMPTypeEchoReply : Z := 0.
Definition ICMPTypeEchoRequest : Z := 8.

Record ICMPEcho := mkICMPEcho {
  icmp_Type : Z;
  icmp_Code : Z;
  icmp_Checksum : Z;
  icmp_Identifier : Z;
  icmp_Sequence : Z;
  icmp_Payload : list byte
}.

Definition MarshalICMPEcho (msgType id sequ : Z) (payload : list byte) : out (list byte) :=
  let buf := make (ICMPHeaderLen + len payload) in
  let* buf := setAt buf 0 msgType in
  let* buf := setAt buf 1 0 in
  let* buf := putU16 buf 4 6 id in
  let* buf := putU16 buf 6 8 sequ in
  let* buf := copyAt buf ICMPHeaderLen (len buf) payload in
  let cksum := InternetChecksum buf in
  putU16 buf 2 4 cksum.

Definition ParseICMPEcho (buf : list byte) : out ICMPEcho :=
  ret_if len buf <? ICMPHeaderLen with ErrICMPTooShort;;
  let* gotCksum := getU16 buf 2 4 in
  let tmp := copy (make (len buf)) buf in
  let* tmp := setAt tmp 2 0 in
  let* tmp := setAt tmp 3 0 in
  ret_if negb (InternetChecksum tmp =? gotCksum) with ErrICMPBadChecksum;;
  let* payload := sliceFrom buf ICMPHeaderLen in
  let* ty := idx buf 0 in
  let* code := idx buf 1 in
  let* id := getU16 buf 4 6 in
  let* sequ := getU16 buf 6 8 in
  Ok (mkICMPEcho ty code gotCksum id sequ payload).

Definition buildEchoRequestPacket (src dst : IP) (ipID icmpID icmpSeq : Z)
  (payload : list byte) : out (list byte) :=
  let* icmp := MarshalICMPEcho ICMPTypeEchoRequest icmpID icmpSeq payload in
  MarshalIPv4 src dst IPProtoICMP ipID icmp.

(** From stack.go: the same packet with the reply type. *)
Definition buildEchoReplyPacket (src dst : IP) (ipID icmpID icmpSeq : Z)
  (payload : list byte) : out (list byte) :=
  let* icmp := MarshalICMPEcho ICMPTypeEchoReply icmpID icmpSeq payload in
  MarshalIPv4 src dst IPProtoICMP ipID icmp.

(** ** The message as a layout *)

Definition icmpMsg (ty code ck id sequ : Z) (payload : list byte) : list byte :=
  [z2b ty; z2b code] ++ enc16 ck ++ enc16 id ++ enc16 sequ ++ payload.

Lemma MarshalICMPEcho_layout ty id sequ payload :
  MarshalICMPEcho ty id sequ payload
  = Ok (icmpMsg ty 0 (InternetChecksum (icmpMsg ty 0 0 id sequ payload)) id sequ payload).
Proof.
  unfold MarshalICMPEcho, ICMPHeaderLen. rewrite make_split by (pose_lens; lia).
  change (make 8) with (repeat x00 8). cbn [repeat]. hdr_run.
  rewrite copyAt_tail by done. cbn [out_bind]. unfold icmpMsg. hdr_run. cbn [app enc16]. done.
Qed.

Lemma ParseICMPEcho_unfold x0 x1 x2 x3 x4 x5 x6 x7 t :
  ParseICMPEcho ([x0; x1; x2; x3; x4; x5; x6; x7] ++ t) =
  (ret_if negb (InternetChecksum ([x0; x1; x00; x00; x4; x5; x6; x7] ++ t) =? be16 x2 x3)
   with ErrICMPBadChecksum;;
   Ok (mkICMPEcho (b2z x0) (b2z x1) (be16 x2 x3) (be16 x4 x5) (be16 x6 x7) t)).
Proof.
  unfold ParseICMPEcho, ICMPHeaderLen.
  replace (_ <? 8) with false by (symmetry; apply Z.ltb_ge; len_lia).
  rewrite copy_make. hdr_run. rewrite sliceFrom_app by done. cbn [out_bind].
  change (z2b 0) with x00. done.
Qed.

Lemma ParseICMPEcho_safe buf : safe (ParseICMPEcho buf).
Proof.
  destruct (Z.lt_ge_cases (len buf) 8) as [Hl|Hl].
  - unfold ParseICMPEcho, ICMPHeaderLen. by replace (_ <? 8) with true by lia.
  - destruct (split_at buf 8) as (h & t & -> & Hh & _); [lia|]. explode h Hh.
    rewrite ParseICMPEcho_unfold. go_safe.
Qed.
#[export] Hint Resolve ParseICMPEcho_safe : gosafe.

Lemma buildEchoReplyPacket_safe src dst ipID id sequ payload :
  safe (buildEchoReplyPacket src dst ipID id sequ payload).
Proof. unfold buildEchoReplyPacket. rewrite MarshalICMPEcho_layout. cbn. auto with gosafe. Qed.
Lemma buildEchoRequestPacket_safe src dst ipID id sequ payload :
  safe (buildEchoRequestPacket src dst ipID id sequ payload).
Proof. unfold buildEchoRequestPacket. rewrite MarshalICMPEcho_layout. cbn. auto with gosafe. Qed.
#[export] Hint Resolve buildEchoReplyPacket_safe buildEchoRequestPacket_safe : gosafe.

Lemma ParseICMPEcho_layout ty id sequ payload :
  0 <= ty < 256 -> isU16 id -> isU16 sequ ->
  let ck := InternetChecksum (icmpMsg ty 0 0 id sequ payload) in
  ParseICMPEcho (icmpMsg ty 0 ck id sequ payload) = Ok (mkICMPEcho ty 0 ck id sequ payload).
Proof.
  intros Hty Hid Hsq ck.
  etrans; [apply (ParseICMPEcho_unfold _ _ _ _ _ _ _ _ payload)|].
  rewrite !be16_enc, !b2z_z2b.
  rewrite (u16_small ck) by apply InternetChecksum_range.
  change (InternetChecksum _) with ck. rewrite Z.eqb_refl. cbn [negb].
  rewrite !u16_small, (Z.mod_small ty) by done. done.
Qed.

(** ** Properties *)

(** An echo message survives the wire: the full IPv4 packet built for an echo
    request parses, through both layers, to an ICMP message of the request
    type with the caller's identifier, sequence number and payload. *)
Theorem echo_request_roundtrip src dst ipID id sequ payload pkt :
  isU16 ipID -> isU16 id -> isU16 sequ ->
  buildEchoRequestPacket src dst ipID id sequ payload = Ok pkt ->
  exists h body ck, ParseIPv4 pkt = Ok (h, body) /\ ip_Protocol h = IPProtoICMP /\
    To4 src = Some (ip_Src h) /\ To4 dst = Some (ip_Dst h) /\
    ParseICMPEcho body = Ok (mkICMPEcho ICMPTypeEchoRequest 0 ck id sequ payload).
Proof.
  intros Hip Hid Hsq H. unfold buildEchoRequestPacket in H.
  rewrite MarshalICMPEcho_layout in H. cbn [out_bind] in H.
  apply MarshalIPv4_ok in H as (s4 & d4 & Hs & Hd & Hl & ->).
  eexists _, _, _. split.
  { apply ParseIPv4_layout; try done; try (by eapply To4_len).
    unfold isU16. change (2 ^ 16) with 65536. pose_lens. lia. }
  cbn. do 3 (split; [done|]). by apply ParseICMPEcho_layout.
Qed.

Lemma echo_request_roundtrip_witness :
  exists pkt h body ck, buildEchoRequestPacket ipA ipB 1 0x4D53 0 (str "ping") = Ok pkt /\
    ParseIPv4 pkt = Ok (h, body) /\
    ParseICMPEcho body = Ok (mkICMPEcho 8 0 ck 0x4D53 0 (str "ping")).
Proof.
  eexists.
  edestruct (echo_request_roundtrip ipA ipB 1 0x4D53 0 (str "ping")) as (h & b & ck & H1 & _ & _ & _ & H2);
    [done|done|done|vm_compute; reflexivity|].
  exists h, b, ck. split; [vm_compute; reflexivity|]. done.
Defined.
