(* ===== verification/Udp.v ===== *)
(** * UDP over IPv4: the datagram codec (uefiboard/ministack/udp4.go) *)

From S2P Require Import Prelude NetIP IPv4.

Definition UDP4HeaderLen : Z := 8.
Definition UDP4MaxPayload : Z := IPv4MTU - IPv4HeaderLen - UDP4HeaderLen.

Record UDP4Header := mkUDP4Header {
  udp_SrcPort : Z;
  udp_DstPort : Z;
  udp_Length : Z;
  udp_Checksum : Z
}.

(** The 12-byte pseudo-header both transport checksums start with: filled in
    place, as udp4Checksum and tcp4Checksum do. *)
Definition pseudoHeader (s4 d4 : IP) (proto : Z) (n : Z) : out (list byte) :=
  let pseudo := make 12 in
  let* pseudo := copyAt pseudo 0 4 s4 in
  let* pseudo := copyAt pseudo 4 8 d4 in
  let* pseudo := setAt pseudo 8 0 in
  let* pseudo := setAt pseudo 9 proto in
  putU16 pseudo 10 12 (u16 n).

Definition udp4Checksum (src dst : IP) (udp : list byte) : out Z :=
  match To4 src, To4 dst with
  | Some s4, Some d4 =>
      let* pseudo := pseudoHeader s4 d4 IPProtoUDP (len udp) in
      Ok (InternetChecksum (pseudo ++ udp))
  | _, _ => Ok 0
  end.

Definition ParseUDP4 (src dst : IP) (pkt : list byte) : out (UDP4Header * list byte) :=
  ret_if len pkt <? UDP4HeaderLen with ErrUDP4HeaderTooShort;;
  let* sp := getU16 pkt 0 2 in
  let* dp := getU16 pkt 2 4 in
  let* ln := getU16 pkt 4 6 in
  let* ck := getU16 pkt 6 8 in
  ret_if (ln <? UDP4HeaderLen) || (len pkt <? ln) with ErrUDP4BadLength;;
  let* payload := slice pkt UDP4HeaderLen ln in
  let h := mkUDP4Header sp dp ln ck in
  if negb (ck =? 0) then
    let* body := sliceTo pkt ln in
    let tmp := copy (make ln) body in
    let* tmp := setAt tmp 6 0 in
    let* tmp := setAt tmp 7 0 in
    let* got := udp4Checksum src dst tmp in
    ret_if negb (got =? ck) with ErrUDP4BadChecksum;;
    Ok (h, payload)
  else Ok (h, payload).

Definition MarshalUDP4 (src dst : IP) (srcPort dstPort : Z) (payload : list byte)
  : out (list byte) :=
  ret_if UDP4MaxPayload <? len payload with ErrUDP4PayloadTooLong;;
  let total := UDP4HeaderLen + len payload in
  let buf := make total in
  let* buf := putU16 buf 0 2 srcPort in
  let* buf := putU16 buf 2 4 dstPort in
  let* buf := putU16 buf 4 6 (u16 total) in
  let* buf := copyAt buf UDP4HeaderLen (len buf) payload in
  let* cksum := udp4Checksum src dst buf in
  let cksum := if cksum =? 0 then 0xFFFF else cksum in
  putU16 buf 6 8 cksum.

(** ** Layouts *)

Definition pseudoBytes (s4 d4 : IP) (proto n : Z) : list byte :=
  s4 ++ d4 ++ [z2b 0; z2b proto] ++ enc16 n.

Lemma pseudoHeader_layout s4 d4 proto n :
  len s4 = 4 -> len d4 = 4 -> pseudoHeader s4 d4 proto n = Ok (pseudoBytes s4 d4 proto (u16 n)).
Proof.
  intros Hs Hd. unfold pseudoHeader. explode s4 Hs. explode d4 Hd.
  change (make 12) with (repeat x00 12). cbn [repeat]. hdr_run. done.
Qed.

Lemma udp4Checksum_val src dst s4 d4 udp :
  To4 src = Some s4 -> To4 dst = Some d4 ->
  udp4Checksum src dst udp
  = Ok (InternetChecksum (pseudoBytes s4 d4 IPProtoUDP (u16 (len udp)) ++ udp)).
Proof.
  intros Hs Hd. unfold udp4Checksum. rewrite Hs, Hd.
  rewrite pseudoHeader_layout by (by eapply To4_len). done.
Qed.

Lemma udp4Checksum_total src dst udp : exists c, udp4Checksum src dst udp = Ok c /\ isU16 c.
Proof.
  destruct (To4 src) as [s4|] eqn:Hs, (To4 dst) as [d4|] eqn:Hd;
    try (exists 0; unfold udp4Checksum; rewrite Hs, ?Hd; done).
  rewrite (udp4Checksum_val _ _ s4 d4) by done. eauto.
Qed.

Definition udpDgram (sp dp ln ck : Z) (payload : list byte) : list byte :=
  enc16 sp ++ enc16 dp ++ enc16 ln ++ enc16 ck ++ payload.

(** The checksum of the datagram with its checksum field zero. *)
Definition udpComputed (s4 d4 : IP) (sp dp : Z) (payload : list byte) : Z :=
  InternetChecksum (pseudoBytes s4 d4 IPProtoUDP (8 + len payload)
                    ++ udpDgram sp dp (8 + len payload) 0 payload).

Lemma MarshalUDP4_layout src dst s4 d4 sp dp payload :
  To4 src = Some s4 -> To4 dst = Some d4 -> len payload <= 1472 ->
  MarshalUDP4 src dst sp dp payload
  = Ok (udpDgram sp dp (8 + len payload)
          (if udpComputed s4 d4 sp dp payload =? 0 then 0xFFFF
           else udpComputed s4 d4 sp dp payload) payload).
Proof.
  intros Hs Hd Hp. unfold MarshalUDP4, UDP4MaxPayload, IPv4MTU, IPv4HeaderLen, UDP4HeaderLen.
  replace (1500 - 20 - 8 <? len payload) with false by lia.
  rewrite make_split by (pose_lens; lia). change (make 8) with (repeat x00 8). cbn [repeat].
  assert (isU16 (8 + len payload)) as Hln
    by (unfold isU16; change (2 ^ 16) with 65536; pose_lens; lia).
  rewrite u16_small by done. hdr_run. rewrite copyAt_tail by done. cbn [out_bind].
  rewrite (udp4Checksum_val _ _ s4 d4) by done. cbn [out_bind].
  match goal with |- context [len (?h ++ payload)] =>
    replace (len (h ++ payload)) with (8 + len payload) by (len_norm; lia) end.
  rewrite u16_small by done.
  match goal with |- context [InternetChecksum ?d] =>
    change (InternetChecksum d) with (udpComputed s4 d4 sp dp payload) end.
  set (c := if _ =? 0 then _ else _). hdr_run. done.
Qed.

Lemma MarshalUDP4_ok src dst sp dp payload buf :
  MarshalUDP4 src dst sp dp payload = Ok buf -> len payload <= 1472.
Proof.
  unfold MarshalUDP4, UDP4MaxPayload, IPv4MTU, IPv4HeaderLen, UDP4HeaderLen.
  destruct (Z.ltb_spec (1500 - 20 - 8) (len payload)); [done|]. lia.
Qed.

(** ParseUDP4 on a datagram that has its eight header bytes. *)
Lemma ParseUDP4_unfold src dst x0 x1 x2 x3 x4 x5 x6 x7 t :
  let ln := be16 x4 x5 in let ck := be16 x6 x7 in
  ParseUDP4 src dst ([x0; x1; x2; x3; x4; x5; x6; x7] ++ t) =
  (ret_if (ln <? 8) || (8 + len t <? ln) with ErrUDP4BadLength;;
   let payload := take (Z.to_nat (ln - 8)) t in
   let h := mkUDP4Header (be16 x0 x1) (be16 x2 x3) ln ck in
   if negb (ck =? 0) then
     let* got := udp4Checksum src dst ([x0; x1; x2; x3; x4; x5; x00; x00] ++ payload) in
     ret_if negb (got =? ck) with ErrUDP4BadChecksum;; Ok (h, payload)
   else Ok (h, payload)).
Proof.
  cbv zeta. unfold ParseUDP4, UDP4HeaderLen. pose_lens.
  replace (_ <? 8) with false by (symmetry; apply Z.ltb_ge; len_lia).
  hdr_run. set (ln := be16 x4 x5). set (ck := be16 x6 x7).
  replace (len ([x0; x1; x2; x3; x4; x5; x6; x7] ++ t)) with (8 + len t) by (len_norm; lia).
  destruct ((ln <? 8) || (8 + len t <? ln)) eqn:E; [done|].
  apply orb_false_iff in E as [E1%Z.ltb_ge E2%Z.ltb_ge].
  rewrite slice_app_r by in_hdr.
  change (len [x0; x1; x2; x3; x4; x5; x6; x7]) with 8. change (8 - 8) with 0.
  rewrite slice_ok by lia. cbn [out_bind Z.to_nat]. rewrite drop_0, Z.sub_0_r.
  destruct (negb (ck =? 0)); [|done].
  assert (sliceTo ([x0; x1; x2; x3; x4; x5; x6; x7] ++ t) ln
    = Ok ([x0; x1; x2; x3; x4; x5; x6; x7] ++ take (Z.to_nat (ln - 8)) t)) as ->.
  { unfold sliceTo. rewrite slice_ok by len_lia. cbn [Z.to_nat]. rewrite drop_0, Z.sub_0_r.
    f_equal. replace (Z.to_nat ln) with (8 + Z.to_nat (ln - 8))%nat by lia. done. }
  cbn [out_bind].
  replace (make ln) with (make (len ([x0; x1; x2; x3; x4; x5; x6; x7] ++ take (Z.to_nat (ln - 8)) t)))
    by (f_equal; len_lia).
  rewrite copy_make. clearbody ln ck. hdr_run. change (z2b 0) with x00. done.
Qed.

Lemma ParseUDP4_safe src dst pkt : safe (ParseUDP4 src dst pkt).
Proof.
  destruct (Z.lt_ge_cases (len pkt) 8) as [Hl|Hl].
  - unfold ParseUDP4, UDP4HeaderLen. by replace (_ <? 8) with true by lia.
  - destruct (split_at pkt 8) as (h & t & -> & Hh & _); [lia|]. explode h Hh.
    rewrite ParseUDP4_unfold. cbv zeta.
    match goal with |- context [udp4Checksum src dst ?b] =>
      destruct (udp4Checksum_total src dst b) as (c & -> & _) end.
    cbn [out_bind]. go_safe.
Qed.
#[export] Hint Resolve ParseUDP4_safe : gosafe.

Lemma MarshalUDP4_safe src dst sp dp payload : safe (MarshalUDP4 src dst sp dp payload).
Proof.
  unfold MarshalUDP4, UDP4MaxPayload, IPv4MTU, IPv4HeaderLen, UDP4HeaderLen.
  destruct (1500 - 20 - 8 <? len payload); [done|].
  rewrite make_split by (pose_lens; lia). change (make 8) with (repeat x00 8). cbn [repeat].
  hdr_run. rewrite copyAt_tail by done. cbn [out_bind].
  match goal with |- context [udp4Checksum src dst ?b] =>
    destruct (udp4Checksum_total src dst b) as (c & -> & _) end.
  cbn [out_bind]. set (c' := if c =? 0 then _ else _). hdr_run. done.
Qed.
#[export] Hint Resolve MarshalUDP4_safe : gosafe.

(** The parser on a marshalled datagram. *)
Lemma ParseUDP4_marshalled src dst s4 d4 sp dp payload padding dgram :
  To4 src = Some s4 -> To4 dst = Some d4 -> isU16 sp -> isU16 dp ->
  MarshalUDP4 src dst sp dp payload = Ok dgram ->
  ParseUDP4 src dst (dgram ++ padding)
  = if udpComputed s4 d4 sp dp payload =? 0 then Err ErrUDP4BadChecksum
    else Ok (mkUDP4Header sp dp (8 + len payload) (udpComputed s4 d4 sp dp payload), payload).
Proof.
  intros Hs Hd Hsp Hdp H. pose proof (MarshalUDP4_ok _ _ _ _ _ _ H) as Hl.
  rewrite (MarshalUDP4_layout _ _ s4 d4) in H by done. apply Ok_inj in H as <-.
  set (c := udpComputed s4 d4 sp dp payload).
  assert (isU16 c) as Hc by apply InternetChecksum_range.
  unfold udpDgram. rewrite <- !app_assoc.
  etrans; [apply (ParseUDP4_unfold src dst _ _ _ _ _ _ _ _ (payload ++ padding))|].
  cbv zeta. rewrite !be16_enc.
  assert (isU16 (8 + len payload)) as Hln
    by (unfold isU16; change (2 ^ 16) with 65536; pose_lens; lia).
  rewrite !(u16_small (8 + _)), !(u16_small sp), !(u16_small dp) by done.
  rewrite len_app, (proj2 (Z.ltb_ge (8 + len payload) 8)), (proj2 (Z.ltb_ge _ (8 + len payload)))
    by (pose_lens; lia).
  cbn [orb].
  replace (Z.to_nat (8 + len payload - 8)) with (length payload) by (unfold len; lia).
  rewrite take_app_length, (udp4Checksum_val _ _ s4 d4) by done. cbn [out_bind].
  match goal with |- context [len (?h ++ payload)] =>
    replace (len (h ++ payload)) with (8 + len payload) by (len_norm; lia) end.
  rewrite (u16_small (8 + _)) by done.
  match goal with |- context [InternetChecksum ?d] => change (InternetChecksum d) with c end.
  destruct (Z.eqb_spec c 0) as [->|Hz]; [done|].
  rewrite u16_small by done. replace (c =? 0) with false by lia. cbn [negb].
  by rewrite Z.eqb_refl.
Qed.

(** ** Properties *)

(** The exact behaviour of the codec on its own output, followed by any
    padding: a marshalled datagram parses back to the caller's ports and
    payload, except when the computed checksum is zero.  RFC 768 transmits that
    checksum as 0xFFFF; MarshalUDP4 does, and ParseUDP4 then recomputes zero,
    compares it with 0xFFFF and rejects the valid datagram. *)
Theorem udp4_roundtrip src dst s4 d4 sp dp payload padding dgram :
  To4 src = Some s4 -> To4 dst = Some d4 -> isU16 sp -> isU16 dp ->
  MarshalUDP4 src dst sp dp payload = Ok dgram ->
  ParseUDP4 src dst (dgram ++ padding)
  = if udpComputed s4 d4 sp dp payload =? 0 then Err ErrUDP4BadChecksum
    else Ok (mkUDP4Header sp dp (8 + len payload) (udpComputed s4 d4 sp dp payload), payload).
Proof. apply ParseUDP4_marshalled. Qed.

Lemma udp4_roundtrip_witness :
  exists dgram, MarshalUDP4 ipA ipB 68 67 (str "hello") = Ok dgram /\
    ParseUDP4 ipA ipB (dgram ++ [x00; x00])
    = Ok (mkUDP4Header 68 67 13 (udpComputed ipA ipB 68 67 (str "hello")), str "hello").
Proof.
  destruct (MarshalUDP4 ipA ipB 68 67 (str "hello")) as [d| |] eqn:E; [|done|done].
  exists d. split; [done|].
  rewrite (udp4_roundtrip ipA ipB ipA ipB 68 67 (str "hello") [x00; x00] d); [|done..].
  replace (_ =? 0) with false by (vm_compute; reflexivity). done.
Defined.

(** The two bytes that bring this datagram's checksum to zero. *)
Definition zeroSumPayload : list byte := [xe7; x42].

(** The rejected case occurs: a DHCP-port datagram that the package itself
    builds and then refuses to receive. *)
Theorem udp4_zero_checksum_rejected :
  exists dgram, MarshalUDP4 ipA ipB 68 67 zeroSumPayload = Ok dgram /\
    ParseUDP4 ipA ipB dgram = Err ErrUDP4BadChecksum.
Proof. exists (udpDgram 68 67 10 0xFFFF zeroSumPayload). split; vm_compute; reflexivity. Qed.
