(* ===== verification/Tcp.v ===== *)
(** * TCP over IPv4: segments and sequence numbers (uefiboard/ministack/tcp4.go)

    The segment codec, the pseudo-header checksum, the modulo-2^32 comparisons
    and the initial sequence number.  The connection itself is in TcpConn.v. *)

From S2P Require Import Prelude NetIP IPv4 Udp.

Definition TCP4HeaderLen : Z := 20.
Definition TCP4DefaultMSS : Z := 1460.
Definition TCP4DefaultWindow : Z := 32 * 1024.
Definition TCP4MaxRetransmits : Z := 3.
Definition TCP4ReassemblyDepth : Z := 8.

Definition TCPFlagFIN : Z := 0x01.
Definition TCPFlagSYN : Z := 0x02.
Definition TCPFlagRST : Z := 0x04.
Definition TCPFlagPSH : Z := 0x08.
Definition TCPFlagACK : Z := 0x10.

Record TCP4Header := mkTCP4Header {
  tcp_SrcPort : Z;
  tcp_DstPort : Z;
  tcp_Seq : Z;
  tcp_Ack : Z;
  tcp_DataOffset : Z;
  tcp_Flags : Z;
  tcp_Window : Z;
  tcp_Checksum : Z;
  tcp_Urgent : Z
}.

Definition tcp4Checksum (src dst : IP) (tcp : list byte) : out Z :=
  match To4 src, To4 dst with
  | Some s4, Some d4 =>
      let* pseudo := pseudoHeader s4 d4 IPProtoTCP (len tcp) in
      Ok (InternetChecksum (pseudo ++ tcp))
  | _, _ => Ok 0
  end.

Definition ParseTCP4 (src dst : IP) (pkt : list byte) : out (TCP4Header * list byte) :=
  ret_if len pkt <? TCP4HeaderLen with ErrTCP4HeaderTooShort;;
  let* b12 := idx pkt 12 in
  let dataOff := Z.shiftr b12 4 in
  let hdrLen := dataOff * 4 in
  ret_if (hdrLen <? TCP4HeaderLen) || (len pkt <? hdrLen) with ErrTCP4HeaderTooShort;;
  let* sp := getU16 pkt 0 2 in
  let* dp := getU16 pkt 2 4 in
  let* sq := getU32 pkt 4 8 in
  let* ak := getU32 pkt 8 12 in
  let* fl := idx pkt 13 in
  let* wn := getU16 pkt 14 16 in
  let* ck := getU16 pkt 16 18 in
  let* ur := getU16 pkt 18 20 in
  let tmp := copy (make (len pkt)) pkt in
  let* tmp := setAt tmp 16 0 in
  let* tmp := setAt tmp 17 0 in
  let* got := tcp4Checksum src dst tmp in
  ret_if negb (got =? ck) with ErrTCP4BadChecksum;;
  let* payload := sliceFrom pkt hdrLen in
  Ok (mkTCP4Header sp dp sq ak dataOff fl wn ck ur, payload).

Definition MarshalTCP4 (src dst : IP) (srcPort dstPort sq ak flags window : Z)
  (payload : list byte) : out (list byte) :=
  let total := TCP4HeaderLen + len payload in
  let buf := make total in
  let* buf := putU16 buf 0 2 srcPort in
  let* buf := putU16 buf 2 4 dstPort in
  let* buf := putU32 buf 4 8 sq in
  let* buf := putU32 buf 8 12 ak in
  let* buf := setAt buf 12 (Z.shiftl 5 4) in
  let* buf := setAt buf 13 flags in
  let* buf := putU16 buf 14 16 window in
  let* buf := putU16 buf 18 20 0 in
  let* buf := copyAt buf TCP4HeaderLen (len buf) payload in
  let* cksum := tcp4Checksum src dst buf in
  let cksum := if cksum =? 0 then 0xFFFF else cksum in
  putU16 buf 16 18 cksum.

(** [int32(a-b) < 0] and [int32(a-b) > 0] on uint32 operands. *)
Definition seqLT (a b : Z) : bool := s32 (u32 (a - b)) <? 0.
Definition seqGT (a b : Z) : bool := 0 <? s32 (u32 (a - b)).

Definition tcp4InitialSeq (mac : list byte) (localPort : Z) : out Z :=
  if len mac <? 6 then Ok (Z.lxor localPort 0xCAFEBABE)
  else
    let* hi := getU32 mac 0 4 in
    let* lo := getU16 mac 4 6 in
    Ok (Z.lxor (Z.lxor hi (u32 (Z.shiftl lo 16))) localPort).

(** ** Layouts *)

Lemma tcp4Checksum_val src dst s4 d4 tcp :
  To4 src = Some s4 -> To4 dst = Some d4 ->
  tcp4Checksum src dst tcp
  = Ok (InternetChecksum (pseudoBytes s4 d4 IPProtoTCP (u16 (len tcp)) ++ tcp)).
Proof.
  intros Hs Hd. unfold tcp4Checksum. rewrite Hs, Hd.
  rewrite pseudoHeader_layout by (by eapply To4_len). done.
Qed.

Lemma tcp4Checksum_total src dst tcp : exists c, tcp4Checksum src dst tcp = Ok c /\ isU16 c.
Proof.
  destruct (To4 src) as [s4|] eqn:Hs, (To4 dst) as [d4|] eqn:Hd;
    try (exists 0; unfold tcp4Checksum; rewrite Hs, ?Hd; done).
  rewrite (tcp4Checksum_val _ _ s4 d4) by done. eauto.
Qed.

Definition tcpSeg (sp dp sq ak fl wn ck : Z) (payload : list byte) : list byte :=
  enc16 sp ++ enc16 dp ++ enc32 sq ++ enc32 ak ++ [z2b 0x50; z2b fl]
  ++ enc16 wn ++ enc16 ck ++ enc16 0 ++ payload.

Definition tcpComputed (s4 d4 : IP) (sp dp sq ak fl wn : Z) (payload : list byte) : Z :=
  InternetChecksum (pseudoBytes s4 d4 IPProtoTCP (u16 (20 + len payload))
                    ++ tcpSeg sp dp sq ak fl wn 0 payload).

Lemma MarshalTCP4_layout src dst s4 d4 sp dp sq ak fl wn payload :
  To4 src = Some s4 -> To4 dst = Some d4 ->
  let c := tcpComputed s4 d4 sp dp sq ak fl wn payload in
  MarshalTCP4 src dst sp dp sq ak fl wn payload
  = Ok (tcpSeg sp dp sq ak fl wn (if c =? 0 then 0xFFFF else c) payload).
Proof.
  intros Hs Hd. cbv zeta. unfold MarshalTCP4, TCP4HeaderLen.
  rewrite make_split by (pose_lens; lia). change (make 20) with (repeat x00 20). cbn [repeat].
  change (Z.shiftl 5 4) with 0x50. hdr_run. rewrite copyAt_tail by done. cbn [out_bind].
  rewrite (tcp4Checksum_val _ _ s4 d4) by done. cbn [out_bind].
  match goal with |- context [len (?h ++ payload)] =>
    replace (len (h ++ payload)) with (20 + len payload) by (len_norm; lia) end.
  match goal with |- context [InternetChecksum ?d] =>
    change (InternetChecksum d) with (tcpComputed s4 d4 sp dp sq ak fl wn payload) end.
  set (c := if _ =? 0 then _ else _). clearbody c. hdr_run. done.
Qed.

Lemma MarshalTCP4_total src dst sp dp sq ak fl wn payload :
  exists seg, MarshalTCP4 src dst sp dp sq ak fl wn payload = Ok seg /\ len seg = 20 + len payload.
Proof.
  unfold MarshalTCP4, TCP4HeaderLen.
  rewrite make_split by (pose_lens; lia). change (make 20) with (repeat x00 20). cbn [repeat].
  hdr_run. rewrite copyAt_tail by done. cbn [out_bind].
  match goal with |- context [tcp4Checksum src dst ?b] =>
    destruct (tcp4Checksum_total src dst b) as (c & -> & _) end.
  cbn [out_bind]. set (c' := if c =? 0 then _ else _). clearbody c'. hdr_run.
  eexists. split; [done|]. len_norm. lia.
Qed.

Lemma MarshalTCP4_safe src dst sp dp sq ak fl wn payload :
  safe (MarshalTCP4 src dst sp dp sq ak fl wn payload).
Proof. by destruct (MarshalTCP4_total src dst sp dp sq ak fl wn payload) as (? & -> & _). Qed.
#[export] Hint Resolve MarshalTCP4_safe : gosafe.

Lemma ParseTCP4_unfold src dst y0 y1 y2 y3 y4 y5 y6 y7 y8 y9 y10 y11 y12 y13 y14 y15 y16 y17 y18 y19 t :
  let off := Z.shiftr (b2z y12) 4 in
  let hd a b := [y0; y1; y2; y3; y4; y5; y6; y7; y8; y9; y10; y11; y12; y13; y14; y15; a; b; y18; y19] in
  ParseTCP4 src dst (hd y16 y17 ++ t) =
  (ret_if (off * 4 <? 20) || (20 + len t <? off * 4) with ErrTCP4HeaderTooShort;;
   let* got := tcp4Checksum src dst (hd x00 x00 ++ t) in
   ret_if negb (got =? be16 y16 y17) with ErrTCP4BadChecksum;;
   Ok (mkTCP4Header (be16 y0 y1) (be16 y2 y3) (be32 y4 y5 y6 y7) (be32 y8 y9 y10 y11) off
         (b2z y13) (be16 y14 y15) (be16 y16 y17) (be16 y18 y19),
       drop (Z.to_nat (off * 4 - 20)) t)).
Proof.
  cbv zeta. unfold ParseTCP4, TCP4HeaderLen. pose_lens.
  replace (_ <? 20) with false by (symmetry; apply Z.ltb_ge; len_lia).
  rewrite copy_make. hdr_run. set (off := Z.shiftr (b2z y12) 4).
  match goal with |- context [len (?h ++ t)] =>
    replace (len (h ++ t)) with (20 + len t) by (len_norm; lia) end.
  destruct ((off * 4 <? 20) || (20 + len t <? off * 4)) eqn:E; [done|].
  apply orb_false_iff in E as [E1%Z.ltb_ge E2%Z.ltb_ge].
  change (z2b 0) with x00. destruct (tcp4Checksum _ _ _); cbn [out_bind]; try done.
  destruct (negb _); [done|].
  match goal with |- context [sliceFrom (?h ++ t) _] =>
    assert (sliceFrom (h ++ t) (off * 4) = Ok (drop (Z.to_nat (off * 4 - 20)) t)) as -> end; [|done].
  unfold sliceFrom. rewrite slice_app_r by (change (len _) with 20; lia).
  change (len [y0; y1; y2; y3; y4; y5; y6; y7; y8; y9; y10; y11; y12; y13; y14; y15; y16; y17; y18; y19]) with 20.
  rewrite slice_ok by len_lia. f_equal. apply firstn_all2. rewrite length_drop. len_norm.
  unfold len. lia.
Qed.

Lemma ParseTCP4_safe src dst pkt : safe (ParseTCP4 src dst pkt).
Proof.
  destruct (Z.lt_ge_cases (len pkt) 20) as [Hl|Hl].
  - unfold ParseTCP4, TCP4HeaderLen. by replace (_ <? 20) with true by lia.
  - destruct (split_at pkt 20) as (h & t & -> & Hh & _); [lia|]. explode h Hh.
    rewrite ParseTCP4_unfold. cbv zeta.
    match goal with |- context [tcp4Checksum src dst ?b] =>
      destruct (tcp4Checksum_total src dst b) as (c & -> & _) end.
    cbn [out_bind]. go_safe.
Qed.
#[export] Hint Resolve ParseTCP4_safe : gosafe.

(** ** Sequence numbers *)

Lemma seqGT_spec a b :
  seqGT a b = true <-> 0 < (a - b) mod 2 ^ 32 < 2 ^ 31.
Proof.
  unfold seqGT, s32, u32. change (2 ^ 32) with 4294967296. change (2 ^ 31) with 2147483648.
  rewrite Z.ltb_lt, Zplus_mod_idemp_l.
  Z.div_mod_to_equations. lia.
Qed.

Lemma seqLT_spec a b :
  seqLT a b = true <-> 2 ^ 31 <= (a - b) mod 2 ^ 32.
Proof.
  unfold seqLT, s32, u32. change (2 ^ 32) with 4294967296. change (2 ^ 31) with 2147483648.
  rewrite Z.ltb_lt, Zplus_mod_idemp_l.
  Z.div_mod_to_equations. lia.
Qed.

Lemma tcp4InitialSeq_safe mac p : safe (tcp4InitialSeq mac p).
Proof. unfold tcp4InitialSeq. blia; go_safe; lia. Qed.
#[export] Hint Resolve tcp4InitialSeq_safe : gosafe.

(** ** Properties *)

(** The exact behaviour of the segment codec on its own output: a marshalled
    segment parses back to the same ports, sequence numbers, flags, window and
    payload, except when the computed checksum is zero, which MarshalTCP4 sends
    as 0xFFFF and ParseTCP4 rejects. *)
Theorem tcp4_roundtrip src dst s4 d4 sp dp sq ak fl wn payload seg :
  To4 src = Some s4 -> To4 dst = Some d4 -> isU16 sp -> isU16 dp -> isU32 sq -> isU32 ak ->
  0 <= fl < 256 -> isU16 wn ->
  MarshalTCP4 src dst sp dp sq ak fl wn payload = Ok seg ->
  ParseTCP4 src dst seg
  = if tcpComputed s4 d4 sp dp sq ak fl wn payload =? 0 then Err ErrTCP4BadChecksum
    else Ok (mkTCP4Header sp dp sq ak 5 fl wn
               (tcpComputed s4 d4 sp dp sq ak fl wn payload) 0, payload).
Proof.
  intros Hs Hd Hsp Hdp Hsq Hak Hfl Hwn H.
  rewrite (MarshalTCP4_layout _ _ s4 d4) in H by done. apply Ok_inj in H as <-.
  set (c := tcpComputed s4 d4 sp dp sq ak fl wn payload).
  assert (isU16 c) as Hc by apply InternetChecksum_range.
  etrans; [apply (ParseTCP4_unfold src dst _ _ _ _ _ _ _ _ _ _ _ _ _ _ _ _ _ _ _ _ payload)|].
  cbv zeta. rewrite !be16_enc, !be32_enc.
  rewrite !(u16_small sp), !(u16_small dp), !(u16_small wn), !(u32_small sq), !(u32_small ak) by done.
  change (Z.shiftr (b2z (z2b 80)) 4) with 5.
  rewrite (proj2 (Z.ltb_ge (5 * 4) 20)), (proj2 (Z.ltb_ge (20 + len payload) (5 * 4)))
    by (pose_lens; lia).
  cbn [orb].
  rewrite (tcp4Checksum_val _ _ s4 d4) by done. cbn [out_bind].
  match goal with |- context [len (?h ++ payload)] =>
    replace (len (h ++ payload)) with (20 + len payload) by (len_norm; lia) end.
  match goal with |- context [InternetChecksum ?d] => change (InternetChecksum d) with c end.
  rewrite b2z_z2b, (Z.mod_small fl) by done.
  clearbody c. destruct (Z.eqb_spec c 0) as [->|Hz]; [done|].
  rewrite !(u16_small c) by done. rewrite Z.eqb_refl. done.
Qed.

Definition sampleSeg : list byte :=
  tcpSeg 49152 80 7 9 0x18 32768 (tcpComputed ipA ipB 49152 80 7 9 0x18 32768 (str "GET /"))
    (str "GET /").

Lemma tcp4_roundtrip_witness :
  MarshalTCP4 ipA ipB 49152 80 7 9 0x18 32768 (str "GET /") = Ok sampleSeg /\
  ParseTCP4 ipA ipB sampleSeg
  = Ok (mkTCP4Header 49152 80 7 9 5 0x18 32768
          (tcpComputed ipA ipB 49152 80 7 9 0x18 32768 (str "GET /")) 0, str "GET /").
Proof.
  split; [vm_compute; reflexivity|].
  etrans; [apply (tcp4_roundtrip ipA ipB ipA ipB 49152 80 7 9 0x18 32768 (str "GET /"));
           solve [done | vm_compute; reflexivity]|].
  vm_compute. reflexivity.
Defined.

(** Sequence numbers compare like stream positions: for two positions of an
    unbounded byte stream less than 2^31 apart, comparing their 32-bit sequence
    numbers decides the order of the positions, across any number of
    wrap-arounds. *)
Theorem seq_compare_positions (p q : Z) :
  Z.abs (p - q) < 2 ^ 31 ->
  seqGT (u32 p) (u32 q) = (q <? p) /\ seqLT (u32 p) (u32 q) = (p <? q).
Proof.
  intros H. unfold u32. split; apply eq_iff_eq_true.
  - rewrite seqGT_spec, <- Zminus_mod, Z.ltb_lt.
    change (2 ^ 32) with 4294967296. change (2 ^ 31) with 2147483648 in *.
    Z.div_mod_to_equations. lia.
  - rewrite seqLT_spec, <- Zminus_mod, Z.ltb_lt.
    change (2 ^ 32) with 4294967296. change (2 ^ 31) with 2147483648 in *.
    Z.div_mod_to_equations. lia.
Qed.

Lemma seq_compare_positions_witness :
  Z.abs (2 ^ 32 + 5 - (2 ^ 32 - 3)) < 2 ^ 31 /\
  seqGT (u32 (2 ^ 32 + 5)) (u32 (2 ^ 32 - 3)) = true.
Proof.
  split; [done|]. rewrite (proj1 (seq_compare_positions (2 ^ 32 + 5) (2 ^ 32 - 3) eq_refl)). done.
Defined.
