(* ===== verification/Arp.v ===== *)
(** * ARP (uefiboard/ministack/arp.go)

    The packet codec, the cache, the handler of received packets and the
    resolver with its receive pump.  The state is the cache and the link.  The
    [lastSeen] time of an entry is written and never read; it is left out. *)

From S2P Require Import Prelude NetIP Effects Ethernet.

Definition ARPPacketLen : Z := 28.
Definition arpHTYPEEthernet : Z := 1.
Definition arpPTYPEIPv4 : Z := 0x0800.
Definition arpHLNEthernet : Z := 6.
Definition arpPLNIPv4 : Z := 4.
Definition ARPOpRequest : Z := 1.
Definition ARPOpReply : Z := 2.

(** ** Packets *)

Definition buildARPPacket (op : Z) (sha : list byte) (spa : IP) (tha : list byte) (tpa : IP)
  : out (list byte) :=
  ret_if negb (len sha =? 6) || negb (len tha =? 6) with ErrInvalidMAC;;
  match To4 spa, To4 tpa with
  | Some spa4, Some tpa4 =>
      let buf := make ARPPacketLen in
      let* buf := putU16 buf 0 2 arpHTYPEEthernet in
      let* buf := putU16 buf 2 4 arpPTYPEIPv4 in
      let* buf := setAt buf 4 arpHLNEthernet in
      let* buf := setAt buf 5 arpPLNIPv4 in
      let* buf := putU16 buf 6 8 op in
      let* buf := copyAt buf 8 14 sha in
      let* buf := copyAt buf 14 18 spa4 in
      let* buf := copyAt buf 18 24 tha in
      copyAt buf 24 28 tpa4
  | _, _ => Err ErrIPv4InvalidIP
  end.

Record arpPacket := mkArpPacket {
  arp_op : Z;
  arp_sha : list byte;
  arp_spa : IP;
  arp_tha : list byte;
  arp_tpa : IP
}.

Definition parseARP (buf : list byte) : out arpPacket :=
  ret_if len buf <? ARPPacketLen with ErrARPInvalidPacket;;
  let* ht := getU16 buf 0 2 in
  ret_if negb (ht =? arpHTYPEEthernet) with ErrARPInvalidPacket;;
  let* pt := getU16 buf 2 4 in
  ret_if negb (pt =? arpPTYPEIPv4) with ErrARPInvalidPacket;;
  let* hln := idx buf 4 in
  let* pln := idx buf 5 in
  ret_if negb (hln =? arpHLNEthernet) || negb (pln =? arpPLNIPv4) with ErrARPInvalidPacket;;
  let* op := getU16 buf 6 8 in
  let* sha := slice buf 8 14 in
  let* spa := slice buf 14 18 in
  let* tha := slice buf 18 24 in
  let* tpa := slice buf 24 28 in
  Ok (mkArpPacket op sha spa tha tpa).

(** ** The cache *)

(** [waiter] is the entry's channel: has it been closed? *)
Record arpEntry := mkArpEntry {
  ae_mac : list byte;
  ae_resolved : bool;
  ae_waiterClosed : bool
}.

Abbreviation arpTable := (gmap Z arpEntry).
Definition newARPTable : arpTable := ∅.

Definition ipKey (ip : IP) : out Z := Uint32 ip.

Definition getLocked (t : arpTable) (ip : IP) : out (option arpEntry) :=
  let* k := ipKey ip in Ok (t !! k).

Definition ensureLocked (t : arpTable) (ip : IP) : out (arpTable * arpEntry) :=
  let* k := ipKey ip in
  match t !! k with
  | Some e => Ok (t, e)
  | None => let e := mkArpEntry [] false false in Ok (<[k := e]> t, e)
  end.

(** [close(ch)]: closing a closed channel panics. *)
Definition closeWaiter (closed : bool) : out bool := if closed then Panic else Ok true.

Definition updateLocked (t : arpTable) (ip : IP) (mac : list byte) : out arpTable :=
  let* (t, e) := ensureLocked t ip in
  let* k := ipKey ip in
  if negb (ae_resolved e) then
    let* w := closeWaiter (ae_waiterClosed e) in
    Ok (<[k := mkArpEntry mac true w]> t)
  else Ok (<[k := mkArpEntry mac (ae_resolved e) (ae_waiterClosed e)]> t).

(** ** Received packets and resolution *)

Section arp.
Context {L : Type} `{Link L}.

(** The resources the ARP functions work on. *)
Abbreviation ArpM A := (M (arpTable * L) A).

Definition onLink {T A} (m : M L A) : M (T * L) A :=
  zoom snd (fun l s => (fst s, l)) m.
Definition setTable (t : arpTable) : ArpM unit := modify (fun s => (t, snd s)).

Definition handleARPFrame (ourMAC : list byte) (ourIP : option IP) (payload : list byte)
  : ArpM unit :=
  p <- lift (parseARP payload) ;;
  t <- gets fst ;;
  t' <- lift (updateLocked t (arp_spa p) (arp_sha p)) ;;
  setTable t' ;;;
  match ourIP with
  | Some ip =>
      if (arp_op p =? ARPOpRequest) && IP_Equal (arp_tpa p) ip then
        reply <- lift (buildARPPacket ARPOpReply ourMAC ip (arp_sha p) (arp_spa p)) ;;
        frame <- lift (MarshalEthernet (arp_sha p) ourMAC EtherTypeARP reply) ;;
        onLink (sendFrame frame)
      else ret tt
  | None => ret tt
  end.

(** A nil source address reaches buildARPPacket as an IP that is not IPv4. *)
Definition ipOrNil (ip : option IP) : IP := match ip with Some i => i | None => [] end.

(** The cached MAC, when the entry is resolved. *)
Definition cachedMAC (t4 : IP) : ArpM (option (list byte)) :=
  t <- gets fst ;;
  e <- lift (getLocked t t4) ;;
  match e with
  | Some e => if ae_resolved e then ret (Some (ae_mac e)) else ret None
  | None => ret None
  end.

(** One iteration of the wait loop. *)
Definition resolveIter (srcMAC : list byte) (srcIP : option IP) (t4 : IP)
  : ArpM (option (list byte)) :=
  c <- cachedMAC t4 ;;
  match c with
  | Some mac => ret (Some mac)
  | None =>
      rx <- try (onLink recvFrame) ;;
      match rx with
      | inr _ => ret None
      | inl rx =>
          eth <- try (lift (ParseEthernet rx)) ;;
          match eth with
          | inr _ => ret None
          | inl eth =>
              if eth_EtherType eth =? EtherTypeARP then
                ignore (handleARPFrame srcMAC srcIP (eth_Payload eth)) ;;; ret None
              else ret None
          end
      end
  end.

Definition resolveARP (srcMAC : list byte) (srcIP : option IP) (target : IP)
  : ArpM (list byte) :=
  match To4 target with
  | None => throw ErrIPv4InvalidIP
  | Some t4 =>
      c <- cachedMAC t4 ;;
      match c with
      | Some mac => ret mac
      | None =>
          t <- gets fst ;;
          te <- lift (ensureLocked t t4) ;;
          setTable (fst te) ;;;
          pkt <- lift (buildARPPacket ARPOpRequest srcMAC (ipOrNil srcIP) (make 6) t4) ;;
          frame <- lift (MarshalEthernet BroadcastMAC srcMAC EtherTypeARP pkt) ;;
          onLink (sendFrame frame) ;;;
          pump (resolveIter srcMAC srcIP t4) (throw ErrARPTimeout)
      end
  end.
End arp.
#[global] Arguments handleARPFrame : simpl never.
#[global] Arguments resolveARP : simpl never.

(** ** Layout *)

Definition arpMsg (op : Z) (sha : list byte) (spa : IP) (tha : list byte) (tpa : IP) : list byte :=
  enc16 1 ++ enc16 0x0800 ++ [z2b 6; z2b 4] ++ enc16 op ++ sha ++ spa ++ tha ++ tpa.

Lemma arpMsg_len op sha spa tha tpa :
  len sha = 6 -> len spa = 4 -> len tha = 6 -> len tpa = 4 ->
  len (arpMsg op sha spa tha tpa) = 28.
Proof. intros. unfold arpMsg. len_norm. lia. Qed.

Lemma buildARPPacket_layout op sha spa tha tpa spa4 tpa4 :
  len sha = 6 -> len tha = 6 -> To4 spa = Some spa4 -> To4 tpa = Some tpa4 ->
  buildARPPacket op sha spa tha tpa = Ok (arpMsg op sha spa4 tha tpa4).
Proof.
  intros Hs Ht Hsp Htp. unfold buildARPPacket. rewrite Hs, Ht, Hsp, Htp. cbn [Z.eqb Pos.eqb negb orb].
  apply To4_len in Hsp, Htp.
  explode sha Hs. explode tha Ht. explode spa4 Hsp. explode tpa4 Htp.
  change (make ARPPacketLen) with (repeat x00 28). cbn [repeat]. hdr_run. done.
Qed.

Lemma buildARPPacket_safe op sha spa tha tpa : safe (buildARPPacket op sha spa tha tpa).
Proof.
  destruct (Z.eq_dec (len sha) 6) as [Hs|Hs], (Z.eq_dec (len tha) 6) as [Ht|Ht].
  2-4: unfold buildARPPacket; rewrite ?(proj2 (Z.eqb_neq _ _) Hs), ?(proj2 (Z.eqb_neq _ _) Ht),
         ?orb_true_r; done.
  destruct (To4 spa) as [spa4|] eqn:E1, (To4 tpa) as [tpa4|] eqn:E2;
    [by rewrite (buildARPPacket_layout _ _ _ _ _ spa4 tpa4)|..].
  all: unfold buildARPPacket; rewrite E1, ?E2, Hs, Ht; done.
Qed.

Lemma parseARP_layout op sha spa tha tpa pad :
  isU16 op -> len sha = 6 -> len spa = 4 -> len tha = 6 -> len tpa = 4 ->
  parseARP (arpMsg op sha spa tha tpa ++ pad) = Ok (mkArpPacket op sha spa tha tpa).
Proof.
  intros Ho Hs Hsp Ht Htp. explode sha Hs. explode tha Ht. explode spa Hsp. explode tpa Htp.
  unfold parseARP, ARPPacketLen, arpMsg. pose_lens.
  replace (_ <? 28) with false by (symmetry; apply Z.ltb_ge; len_lia).
  match goal with |- context [?h ++ pad] => let h' := eval cbn [app enc16] in h in change h with h' end.
  hdr_run. rewrite !be16_enc, (u16_small op) by done. done.
Qed.

Lemma parseARP_safe buf : safe (parseARP buf).
Proof. unfold parseARP, ARPPacketLen. blia; try done. go_safe; try lia; done. Qed.

Lemma parseARP_ok buf p :
  parseARP buf = Ok p ->
  len (arp_sha p) = 6 /\ len (arp_spa p) = 4 /\ len (arp_tha p) = 6 /\ len (arp_tpa p) = 4 /\
  isU16 (arp_op p).
Proof.
  unfold parseARP, ARPPacketLen. destruct (len buf <? 28); [done|].
  destruct (getU16 buf 0 2) as [ht| |]; cbn [out_bind]; [|done|done].
  destruct (negb _); [done|].
  destruct (getU16 buf 2 4) as [pt| |]; cbn [out_bind]; [|done|done].
  destruct (negb _); [done|].
  destruct (idx buf 4) as [hl| |]; cbn [out_bind]; [|done|done].
  destruct (idx buf 5) as [pl| |]; cbn [out_bind]; [|done|done].
  destruct (_ || _); [done|].
  destruct (getU16 buf 6 8) as [op| |] eqn:Eop; cbn [out_bind]; [|done|done].
  destruct (slice buf 8 14) as [s1| |] eqn:E1; cbn [out_bind]; [|done|done].
  destruct (slice buf 14 18) as [s2| |] eqn:E2; cbn [out_bind]; [|done|done].
  destruct (slice buf 18 24) as [s3| |] eqn:E3; cbn [out_bind]; [|done|done].
  destruct (slice buf 24 28) as [s4| |] eqn:E4; cbn [out_bind]; [|done|done].
  intros [= <-]. cbn. apply len_slice in E1, E2, E3, E4.
  rewrite E1, E2, E3, E4. do 4 (split; [done|]).
  revert Eop. unfold getU16. destruct (slice buf 6 8) as [[|? [|? ?]]| |]; cbn; try done.
  intros [= <-]. auto.
Qed.
#[export] Hint Resolve buildARPPacket_safe parseARP_safe : gosafe.

(** ** The cache invariant *)

(** An entry's waiter is closed exactly when the entry is resolved, and a
    resolved entry holds a 6-byte address. *)
Definition entryOk (e : arpEntry) : Prop :=
  ae_resolved e = ae_waiterClosed e /\ (ae_resolved e = true -> len (ae_mac e) = 6).
Definition arpOk (t : arpTable) : Prop := map_Forall (fun _ e => entryOk e) t.

Definition key4 (ip : IP) : Z := match Uint32 ip with Ok k => k | _ => 0 end.

Lemma ipKey4 ip : len ip = 4 -> ipKey ip = Ok (key4 ip).
Proof. intros H. explode ip H. done. Qed.

Lemma key4_inj a b : len a = 4 -> len b = 4 -> key4 a = key4 b -> a = b.
Proof.
  intros Ha Hb. explode a Ha. explode b Hb. unfold key4. cbn [Uint32]. rewrite !be32_val.
  assert (forall p q c d, p * 256 + b2z c = q * 256 + b2z d -> p = q /\ c = d) as Hstep.
  { intros p q c d ?. pose proof (b2z_range c). pose proof (b2z_range d).
    assert (p = q) by lia. split; [done|]. apply b2z_inj. lia. }
  intros [[[E%b2z_inj ->]%Hstep ->]%Hstep ->]%Hstep. by subst.
Qed.

Lemma arpOk_empty : arpOk newARPTable.
Proof. apply map_Forall_empty. Qed.

Lemma ensureLocked_ok t ip :
  arpOk t -> len ip = 4 ->
  exists t' e, ensureLocked t ip = Ok (t', e) /\ arpOk t' /\ entryOk e /\
    t' !! key4 ip = Some e /\ (forall k, k <> key4 ip -> t' !! k = t !! k).
Proof.
  intros Ht Hip. unfold ensureLocked. rewrite ipKey4 by done. cbn [out_bind].
  destruct (t !! key4 ip) as [e|] eqn:E.
  - exists t, e. pose proof (Ht _ _ E). auto.
  - eexists _, _. split; [done|]. assert (entryOk (mkArpEntry [] false false)) by done.
    split; [by apply map_Forall_insert_2|]. split; [done|].
    split; [by rewrite lookup_insert_eq|]. intros k Hk. by rewrite lookup_insert_ne.
Qed.

(** Learning a pair: no double close, the pair is the new entry, the other
    entries stay. *)
Lemma updateLocked_ok t ip mac :
  arpOk t -> len ip = 4 -> len mac = 6 ->
  exists t', updateLocked t ip mac = Ok t' /\ arpOk t' /\
    t' = <[key4 ip := mkArpEntry mac true true]> t.
Proof.
  intros Ht Hip Hmac. unfold updateLocked, ensureLocked. rewrite ipKey4 by done. cbn [out_bind].
  assert (entryOk (mkArpEntry mac true true)) as He by done.
  destruct (t !! key4 ip) as [e|] eqn:E; cbn [out_bind].
  - pose proof (Ht _ _ E) as [Hr _]. rewrite <- Hr.
    destruct (ae_resolved e) eqn:Er; cbn; eexists; (split; [done|]);
      (split; [by apply map_Forall_insert_2|done]).
  - cbn. eexists. split; [done|]. rewrite insert_insert_eq.
    split; [by apply map_Forall_insert_2|done].
Qed.

(** ** The handlers keep the invariant and do not panic *)

Section arp_proofs.
Context {L : Type} `{Link L}.

Definition arpInv (s : arpTable * L) : Prop := arpOk (fst s).

Lemma onLink_keep {A} (m : M L A) :
  (forall l, fst (m l) <> Panic) -> keep arpInv (@onLink L arpTable A m).
Proof.
  intros Hm s Hs. unfold onLink, zoom. specialize (Hm (snd s)).
  destruct (m (snd s)) as [r l]. by split.
Qed.

Lemma sendFrame_safe frame l : fst (sendFrame frame l) <> Panic.
Proof. unfold sendFrame. by destruct (SendFrame frame l) as [[|] ?]. Qed.
Lemma recvFrame_safe l : fst (recvFrame l) <> Panic.
Proof. unfold recvFrame. by destruct (RecvFrame l) as [[|] ?]. Qed.

Lemma onLink_send_keep frame : keep arpInv (@onLink L arpTable _ (sendFrame frame)).
Proof. apply onLink_keep, sendFrame_safe. Qed.
Lemma onLink_recv_keep : keep arpInv (@onLink L arpTable _ recvFrame).
Proof. apply onLink_keep, recvFrame_safe. Qed.
#[local] Hint Resolve onLink_send_keep onLink_recv_keep : gokeep.

Lemma keeps_lift_ok {S A} (I : S -> Prop) (m : out A) (P : A -> Prop) :
  safe m -> (forall a, m = Ok a -> P a) -> keeps I (lift m) (fun a _ => P a).
Proof. intros Hm HP s Hs. split; [done|]. split; [done|]. cbn. auto. Qed.

Lemma handleARPFrame_keep mac ip payload : keep arpInv (handleARPFrame mac ip payload).
Proof.
  unfold handleARPFrame.
  apply keeps_bind with (fun p => len (arp_sha p) = 6 /\ len (arp_spa p) = 4).
  { apply keeps_lift_ok; [auto with gosafe|]. intros p (?&?&_)%parseARP_ok. done. }
  intros p [Hsha Hspa]. apply keeps_bind with arpOk.
  { apply keeps_gets. by intros s Hs. }
  intros t Ht. destruct (updateLocked_ok t (arp_spa p) (arp_sha p)) as (t' & -> & Ht' & _); [done..|].
  apply keeps_bind with (fun x => x = t'); [by apply keeps_lift_ok; [done|intros ? [= <-]]|].
  intros ? ->. go_keep; done.
Qed.

Lemma cachedMAC_keeps t4 :
  len t4 = 4 -> keeps arpInv (cachedMAC t4)
    (fun r s => forall mac, r = Some mac -> len mac = 6 /\ exists e, fst s !! key4 t4 = Some e /\
       ae_resolved e = true /\ ae_mac e = mac).
Proof.
  intros H4 s Hs. unfold cachedMAC, getLocked. rewrite ipKey4 by done. cbn.
  destruct (fst s !! key4 t4) as [e|] eqn:E; [|by apply ends_ok].
  destruct (ae_resolved e) eqn:Er; apply ends_ok; try done. intros ? [= <-].
  destruct (Hs _ _ E) as [_ Hm]. split; [by apply Hm|by exists e].
Qed.

(** The address a successful resolution returns is the one cached for [t4]. *)
Definition cachedAs (t4 : IP) (m : list byte) (s : arpTable * L) : Prop :=
  len m = 6 /\ exists e, fst s !! key4 t4 = Some e /\ ae_resolved e = true /\ ae_mac e = m.

Lemma keep_none {A} : keeps arpInv (ret None) (fun (r : option A) _ => r = None).
Proof. intros s Hs. by apply ends_ok. Qed.

Lemma pumpFrame_keeps mac ip :
  keeps arpInv
    (rx <- try (onLink recvFrame) ;;
     match rx with
     | inr _ => ret None
     | inl rx =>
         eth <- try (lift (ParseEthernet rx)) ;;
         match eth with
         | inr _ => ret None
         | inl eth =>
             if eth_EtherType eth =? EtherTypeARP then
               ignore (handleARPFrame mac ip (eth_Payload eth)) ;;; ret None
             else ret None
         end
     end) (fun (r : option (list byte)) _ => r = None).
Proof.
  apply keep_bind; [apply keep_try; auto with gokeep|]. intros [rx|]; [|apply keep_none].
  apply keep_bind; [go_keep; auto with gosafe|]. intros [eth|]; [|apply keep_none].
  destruct (_ =? _); [|apply keep_none].
  apply keep_bind; [apply keep_ignore, handleARPFrame_keep|]. intros _. apply keep_none.
Qed.

Lemma resolveIter_keeps mac ip t4 :
  len t4 = 4 -> keeps arpInv (resolveIter mac ip t4)
    (fun r s => forall m, r = Some m -> cachedAs t4 m s).
Proof.
  intros H4. unfold resolveIter. eapply keeps_bind_st; [by apply cachedMAC_keeps|].
  intros [m|] s Hs HQ.
  - by apply ends_ok.
  - apply (keeps_weaken arpInv _ _ _ (pumpFrame_keeps mac ip)); [by intros ? ? ->|done].
Qed.

Lemma resolveARP_keeps mac ip target :
  keeps arpInv (resolveARP mac ip target)
    (fun m s => exists t4, To4 target = Some t4 /\ cachedAs t4 m s).
Proof.
  unfold resolveARP. destruct (To4 target) as [t4|] eqn:E4; [|apply keeps_throw].
  assert (len t4 = 4) as H4 by (by eapply To4_len).
  eapply keeps_bind_st; [by apply cachedMAC_keeps|]. intros [m|] s Hs HQ.
  { apply ends_ok; [done|]. exists t4. split; [done|]. by apply HQ. }
  clear HQ. revert s Hs. apply keeps_bind with arpOk; [by apply keeps_gets|]. intros t Ht.
  destruct (ensureLocked_ok t t4) as (t' & e & -> & Ht' & _); [done..|].
  apply keeps_bind with (fun x => x = (t', e)); [by apply keeps_lift_ok; [done|intros ? [= <-]]|].
  intros ? ->. apply keep_bind; [by apply keeps_modify|]. intros _.
  apply keep_bind; [go_keep|]. intros pkt. apply keep_bind; [go_keep|]. intros frame.
  apply keep_bind; [auto with gokeep|]. intros _.
  apply keep_pumpFrom; [|apply keeps_throw].
  eapply keeps_weaken; [by apply resolveIter_keeps|].
  intros r s Hr m Hm. exists t4. split; [done|]. by apply Hr.
Qed.
End arp_proofs.
#[export] Hint Resolve handleARPFrame_keep : gokeep.

(** A received packet, branch by branch. *)
Lemma handleARPFrame_eq {L} `{Link L} ourMAC ourIP op sha spa tha tpa pad (t : arpTable) (l : L) :
  arpOk t -> len ourMAC = 6 -> len ourIP = 4 -> isU16 op ->
  len sha = 6 -> len spa = 4 -> len tha = 6 -> len tpa = 4 ->
  handleARPFrame ourMAC (Some ourIP) (arpMsg op sha spa tha tpa ++ pad) (t, l) =
  let t' := <[key4 spa := mkArpEntry sha true true]> t in
  if (op =? ARPOpRequest) && bool_decide (tpa = ourIP) then
    let reply := eth_layout sha ourMAC EtherTypeARP (arpMsg ARPOpReply ourMAC ourIP sha spa) in
    let '(r, l') := SendFrame reply l in (ofSum r, (t', l'))
  else (Ok tt, (t', l)).
Proof.
  intros Ht Hm Hip Hop Hsha Hspa Htha Htpa. unfold handleARPFrame, lift, gets, setTable, modify, bind.
  rewrite parseARP_layout by done. cbn [fst snd arp_spa arp_sha arp_op arp_tpa].
  destruct (updateLocked_ok t spa sha) as (t' & -> & _ & ->); [done..|]. cbn [fst snd].
  rewrite IP_Equal_refl4 by done. destruct ((op =? ARPOpRequest) && _); [|done].
  rewrite (buildARPPacket_layout _ _ _ _ _ ourIP spa) by (done || by apply To4_id).
  rewrite MarshalEthernet_layout by (done || (rewrite arpMsg_len by done; lia)).
  unfold onLink, zoom, sendFrame. cbn [fst snd]. by destruct (SendFrame _ l) as [r l'].
Qed.

(** ** Properties *)

(** An ARP packet survives the wire, also with the padding of a minimum-size
    Ethernet frame behind it. *)
Theorem arp_roundtrip op sha spa tha tpa pad pkt :
  isU16 op -> buildARPPacket op sha spa tha tpa = Ok pkt ->
  exists spa4 tpa4, To4 spa = Some spa4 /\ To4 tpa = Some tpa4 /\ len pkt = ARPPacketLen /\
    parseARP (pkt ++ pad) = Ok (mkArpPacket op sha spa4 tha tpa4).
Proof.
  intros Hop H. destruct (Z.eq_dec (len sha) 6) as [Hs|Hs]; cycle 1.
  { exfalso. revert H. unfold buildARPPacket. by rewrite (proj2 (Z.eqb_neq _ _) Hs). }
  destruct (Z.eq_dec (len tha) 6) as [Ht|Ht]; cycle 1.
  { exfalso. revert H. unfold buildARPPacket. by rewrite (proj2 (Z.eqb_neq _ _) Ht), orb_true_r. }
  destruct (To4 spa) as [spa4|] eqn:E1, (To4 tpa) as [tpa4|] eqn:E2; cycle 1.
  1-3: exfalso; revert H; unfold buildARPPacket; rewrite E1, ?E2, Hs, Ht; done.
  rewrite (buildARPPacket_layout _ _ _ _ _ spa4 tpa4) in H by done. apply Ok_inj in H as <-.
  apply To4_len in E1, E2. exists spa4, tpa4. do 2 (split; [done|]).
  split; [by apply arpMsg_len|]. by apply parseARP_layout.
Qed.

Lemma arp_roundtrip_witness :
  exists pkt, buildARPPacket 1 sampleMAC [x0a; x00; x02; x0f] (make 6) [x0a; x00; x02; x02] = Ok pkt /\
    parseARP (pkt ++ make 18)
    = Ok (mkArpPacket 1 sampleMAC [x0a; x00; x02; x0f] (make 6) [x0a; x00; x02; x02]).
Proof.
  exists (arpMsg 1 sampleMAC [x0a; x00; x02; x0f] (make 6) [x0a; x00; x02; x02]).
  split; [vm_compute; reflexivity|].
  edestruct (arp_roundtrip 1 sampleMAC [x0a; x00; x02; x0f] (make 6) [x0a; x00; x02; x02] (make 18))
    as (s4 & t4 & [= <-] & [= <-] & _ & H); [done|vm_compute; reflexivity|exact H].
Defined.

(** What a received ARP packet does, whatever the cache held: the pair (sender
    address, sender MAC) becomes the resolved entry of the sender and no other
    entry changes; a request for our address sends exactly one frame, the
    unicast reply to the sender; any other packet sends nothing.  The cache is
    updated even when the reply fails to send. *)
Theorem handleARPFrame_spec {L} `{Link L} ourMAC ourIP op sha spa tha tpa pad (t : arpTable) (l : L) :
  arpOk t -> len ourMAC = 6 -> len ourIP = 4 -> isU16 op ->
  len sha = 6 -> len spa = 4 -> len tha = 6 -> len tpa = 4 ->
  handleARPFrame ourMAC (Some ourIP) (arpMsg op sha spa tha tpa ++ pad) (t, l) =
  let t' := <[key4 spa := mkArpEntry sha true true]> t in
  if (op =? ARPOpRequest) && bool_decide (tpa = ourIP) then
    let reply := eth_layout sha ourMAC EtherTypeARP (arpMsg ARPOpReply ourMAC ourIP sha spa) in
    let '(r, l') := SendFrame reply l in (ofSum r, (t', l'))
  else (Ok tt, (t', l)).
Proof. apply handleARPFrame_eq. Qed.

Lemma handleARPFrame_spec_witness :
  let me := [x0a; x00; x02; x0f] in let gw := [x0a; x00; x02; x02] in
  let r := handleARPFrame sampleMAC (Some me) (arpMsg 1 BroadcastMAC gw (make 6) me)
             (newARPTable, mkScriptLink sampleMAC [] []) in
  fst r = Ok tt /\ length (sl_tx (snd (snd r))) = 1%nat.
Proof.
  cbv zeta. rewrite <- (app_nil_r (arpMsg _ _ _ _ _)).
  rewrite (handleARPFrame_spec sampleMAC [x0a; x00; x02; x0f] 1 BroadcastMAC [x0a; x00; x02; x02]
             (make 6) [x0a; x00; x02; x0f] [] newARPTable (mkScriptLink sampleMAC [] []));
    [done|exact arpOk_empty|done..].
Defined.

(** Resolution is sound on every link: it never panics (no waiter is closed
    twice), keeps the cache invariant on every outcome, and a MAC it returns is
    the six-byte address the cache holds for the target. *)
Theorem resolveARP_sound {L} `{Link L} srcMAC srcIP target (t : arpTable) (l : L) :
  arpOk t ->
  let '(r, (t', _)) := resolveARP srcMAC srcIP target (t, l) in
  r <> Panic /\ arpOk t' /\
  (forall m, r = Ok m -> exists t4 e, To4 target = Some t4 /\ len m = 6 /\
     t' !! key4 t4 = Some e /\ ae_resolved e = true /\ ae_mac e = m).
Proof.
  intros Ht. destruct (resolveARP_keeps srcMAC srcIP target (t, l) Ht) as (Hp & HI & HQ).
  destruct (resolveARP srcMAC srcIP target (t, l)) as [r [t' l']]. cbn in *.
  split; [done|]. split; [done|]. intros m Hm.
  destruct (HQ m Hm) as (t4 & H4 & Hl & e & ? & ? & ?). by exists t4, e.
Qed.

Lemma resolveARP_sound_witness :
  arpOk newARPTable /\
  fst (resolveARP sampleMAC None [x0a; x00; x02; x02] (newARPTable, mkScriptLink sampleMAC [] [])) <> Panic.
Proof.
  split; [exact arpOk_empty|].
  pose proof (resolveARP_sound sampleMAC None [x0a; x00; x02; x02] newARPTable
                (mkScriptLink sampleMAC [] []) arpOk_empty) as H.
  destruct (resolveARP _ _ _ _) as [r [t l]]. exact (proj1 H).
Defined.

(** One pump iteration that finds the entry unresolved and receives a frame
    that is not ARP: the frame is taken from the link and dropped. *)
Lemma resolveIter_discard srcMAC srcIP t4 t mac f rx tx e :
  len t4 = 4 -> t !! key4 t4 = Some e -> ae_resolved e = false ->
  (forall eth, ParseEthernet f = Ok eth -> eth_EtherType eth <> EtherTypeARP) ->
  resolveIter srcMAC srcIP t4 (t, mkScriptLink mac (f :: rx) tx) = (Ok None, (t, mkScriptLink mac rx tx)).
Proof.
  intros H4 He Hr Hf. unfold resolveIter, cachedMAC, getLocked, bind, gets, lift.
  rewrite ipKey4 by done. cbn. rewrite He, Hr. cbn.
  pose proof (ParseEthernet_safe f) as Hs.
  destruct (ParseEthernet f) as [eth| |] eqn:E; [|done|by destruct Hs].
  cbn. by rewrite (proj2 (Z.eqb_neq _ _) (Hf eth eq_refl)).
Qed.

Lemma resolveIter_hit srcMAC srcIP t4 t (l : ScriptLink) m :
  len t4 = 4 -> t !! key4 t4 = Some (mkArpEntry m true true) ->
  resolveIter srcMAC srcIP t4 (t, l) = (Ok (Some m), (t, l)).
Proof.
  intros H4 He. unfold resolveIter, cachedMAC, getLocked, bind, gets, lift.
  rewrite ipKey4 by done. cbn. by rewrite He.
Qed.

Lemma resolveIter_reply srcMAC ourIP t4 t mac gw frame rx tx e ethDst pad :
  arpOk t -> len t4 = 4 -> t !! key4 t4 = Some e -> ae_resolved e = false ->
  len gw = 6 -> len ethDst = 6 -> len srcMAC = 6 -> len ourIP = 4 ->
  frame = eth_layout ethDst gw EtherTypeARP (arpMsg ARPOpReply gw t4 srcMAC ourIP ++ pad) ->
  resolveIter srcMAC (Some ourIP) t4 (t, mkScriptLink mac (frame :: rx) tx)
  = (Ok None, (<[key4 t4 := mkArpEntry gw true true]> t, mkScriptLink mac rx tx)).
Proof.
  intros Ht H4 He Hr Hgw Hed Hm Hip.
  remember (arpMsg ARPOpReply gw t4 srcMAC ourIP ++ pad) as p eqn:Hp. intros ->.
  unfold resolveIter, cachedMAC, getLocked. mrun. rewrite ipKey4 by done. cbn [out_bind].
  rewrite He, Hr. cbn. rewrite ParseEthernet_layout by done. cbn [eth_EtherType eth_Payload].
  change (u16 EtherTypeARP =? EtherTypeARP) with true. cbv beta iota.
  rewrite Hp, (handleARPFrame_eq srcMAC ourIP) by done. done.
Qed.

(** The wait loop over a script: frames that are not ARP, then the reply. *)
Lemma pump_resolve noise n d srcMAC ourIP t4 t mac gw frame rx tx e ethDst pad :
  arpOk t -> len t4 = 4 -> t !! key4 t4 = Some e -> ae_resolved e = false ->
  len gw = 6 -> len ethDst = 6 -> len srcMAC = 6 -> len ourIP = 4 ->
  frame = eth_layout ethDst gw EtherTypeARP (arpMsg ARPOpReply gw t4 srcMAC ourIP ++ pad) ->
  Forall (fun f => forall eth, ParseEthernet f = Ok eth -> eth_EtherType eth <> EtherTypeARP) noise ->
  dc_n d + len noise + 2 <= dc_stop d -> dc_stop d - dc_n d <= Z.of_nat n ->
  pumpFrom n d (resolveIter srcMAC (Some ourIP) t4) (throw ErrARPTimeout)
    (t, mkScriptLink mac (noise ++ frame :: rx) tx)
  = (Ok gw, (<[key4 t4 := mkArpEntry gw true true]> t, mkScriptLink mac rx tx)).
Proof.
  intros Ht H4 He Hr Hgw Hed Hm Hip Hfr Hn. revert n d.
  induction Hn as [|f noise Hf Hn IH]; intros n d Hd Hfuel; len_norm; pose_lens.
  - destruct n as [|[|n]]; try lia. cbn [pumpFrom app].
    unfold dc_expired at 1. rewrite (proj2 (Z.leb_gt _ _)) by lia. unfold bind at 1.
    rewrite (resolveIter_reply _ _ _ _ _ gw frame rx tx e ethDst pad) by done.
    unfold dc_expired. cbn [dc_tick dc_n dc_stop]. rewrite (proj2 (Z.leb_gt _ _)) by lia. unfold bind.
    by rewrite (resolveIter_hit _ _ _ _ _ gw) by (done || by rewrite lookup_insert_eq).
  - destruct n as [|n]; [lia|]. cbn [pumpFrom app].
    unfold dc_expired at 1. rewrite (proj2 (Z.leb_gt _ _)) by lia. unfold bind at 1.
    rewrite (resolveIter_discard _ _ _ _ _ f _ _ e) by done. apply IH; cbn [dc_tick dc_n dc_stop]; lia.
Qed.

(** Resolution is complete within its budget: when the next hop's reply is
    behind fewer than 999,999 other frames, resolveARP sends its one request
    and returns the replier's MAC.  The frames in front of the reply are taken
    from the link and lost. *)
Theorem resolveARP_answered noise srcMAC ourIP target t mac gw frame rx ethDst pad :
  arpOk t -> len target = 4 -> t !! key4 target = None ->
  len gw = 6 -> len ethDst = 6 -> len srcMAC = 6 -> len ourIP = 4 ->
  frame = eth_layout ethDst gw EtherTypeARP (arpMsg ARPOpReply gw target srcMAC ourIP ++ pad) ->
  Forall (fun f => forall eth, ParseEthernet f = Ok eth -> eth_EtherType eth <> EtherTypeARP) noise ->
  len noise < 999999 ->
  let request := eth_layout BroadcastMAC srcMAC EtherTypeARP
                   (arpMsg ARPOpRequest srcMAC ourIP (make 6) target) in
  resolveARP srcMAC (Some ourIP) target (t, mkScriptLink mac (noise ++ frame :: rx) [])
  = (Ok gw, (<[key4 target := mkArpEntry gw true true]> t, mkScriptLink mac rx [request])).
Proof.
  intros Ht H4 Hnone Hgw Hed Hm Hip Hfr Hnoise Hl request.
  unfold resolveARP, cachedMAC, getLocked, ensureLocked. rewrite To4_id by done.
  mrun. rewrite ipKey4 by done. cbn [out_bind]. rewrite !Hnone. cbn [fst snd]. rewrite ?Hnone. cbn [fst snd].
  unfold setTable, modify. cbn [fst snd ipOrNil].
  rewrite (buildARPPacket_layout _ _ _ _ _ ourIP target) by (done || by apply To4_id).
  rewrite MarshalEthernet_layout by (done || (rewrite arpMsg_len by done; lia)).
  unfold onLink, zoom, sendFrame. cbn [fst snd SendFrame script_link sl_mac sl_rx sl_tx ofSum].
  unfold pump. rewrite <- (insert_insert_eq t (key4 target) (mkArpEntry gw true true) (mkArpEntry [] false false)).
  apply (pump_resolve noise _ _ _ _ _ _ _ gw frame rx _ (mkArpEntry [] false false) ethDst pad); try done.
  - by apply map_Forall_insert_2.
  - by rewrite lookup_insert_eq.
  - cbn [newDeadlineChecker dc_n dc_stop]. unfold maxPumpIters. lia.
Qed.

Lemma resolveARP_answered_witness :
  let me := [x0a; x00; x02; x0f] in let gw := [x0a; x00; x02; x02] in
  let gwMAC := [x52; x55; x0a; x00; x02; x02] in
  let reply := eth_layout sampleMAC gwMAC EtherTypeARP (arpMsg ARPOpReply gwMAC gw sampleMAC me ++ make 18) in
  let udp := eth_layout sampleMAC gwMAC EtherTypeIPv4 (str "a datagram") in
  fst (resolveARP sampleMAC (Some me) gw (newARPTable, mkScriptLink sampleMAC [udp; reply] [])) = Ok gwMAC.
Proof.
  intros me gw gwMAC reply udp.
  pose proof (resolveARP_answered [udp] sampleMAC me gw newARPTable sampleMAC gwMAC reply [] sampleMAC
    (make 18) arpOk_empty) as H.
  cbn [app] in H. rewrite H; [reflexivity|vm_compute; reflexivity..| |vm_compute; reflexivity].
  constructor; [|constructor]. intros eth. vm_compute. by intros [= <-].
Defined.
