(* ===== verification/TcpConn.v ===== *)
(** * TCP connections: the receive side and the state machine
    (uefiboard/ministack/tcp4.go)

    A connection's fields, and what a received segment does to them.  Sending
    goes through an interface, [SegmentSink]: the connection hands a segment to
    the stack and ignores or returns its error.  The operations that pump the
    link (Dial, Read, Write, Close) are in Stack.v. *)

From S2P Require Import Prelude NetIP Effects Tcp.

Inductive tcp4State :=
| tcpClosed | tcpSynSent | tcpEstablished | tcpFinWait1 | tcpFinWait2
| tcpCloseWait | tcpClosing | tcpLastAck | tcpTimeWait.

#[global] Instance tcp4State_eq_dec : EqDecision tcp4State.
Proof. solve_decision. Defined.

Definition tcp4State_String (s : tcp4State) : list byte :=
  match s with
  | tcpClosed => str "CLOSED"
  | tcpSynSent => str "SYN_SENT"
  | tcpEstablished => str "ESTABLISHED"
  | tcpFinWait1 => str "FIN_WAIT_1"
  | tcpFinWait2 => str "FIN_WAIT_2"
  | tcpCloseWait => str "CLOSE_WAIT"
  | tcpClosing => str "CLOSING"
  | tcpLastAck => str "LAST_ACK"
  | tcpTimeWait => str "TIME_WAIT"
  end.

Record tcp4ReassemblyEntry := mkEntry {
  re_seq : Z;
  re_payload : list byte;
  re_fin : bool
}.

Record TCP4Conn := mkTCP4Conn {
  localIP : IP;
  localPort : Z;
  remoteIP : IP;
  remotePort : Z;
  state : tcp4State;
  sndUna : Z;
  sndNxt : Z;
  sndWnd : Z;
  rcvNxt : Z;
  rcvWnd : Z;
  rxQueue : list byte;
  reassembly : list tcp4ReassemblyEntry;
  peerFinSeen : bool;
  closed : bool
}.

(** Field updates. *)
Definition set_state st c := mkTCP4Conn (localIP c) (localPort c) (remoteIP c) (remotePort c) st
  (sndUna c) (sndNxt c) (sndWnd c) (rcvNxt c) (rcvWnd c) (rxQueue c) (reassembly c)
  (peerFinSeen c) (closed c).
Definition set_sndUna v c := mkTCP4Conn (localIP c) (localPort c) (remoteIP c) (remotePort c) (state c)
  v (sndNxt c) (sndWnd c) (rcvNxt c) (rcvWnd c) (rxQueue c) (reassembly c)
  (peerFinSeen c) (closed c).
Definition set_sndNxt v c := mkTCP4Conn (localIP c) (localPort c) (remoteIP c) (remotePort c) (state c)
  (sndUna c) v (sndWnd c) (rcvNxt c) (rcvWnd c) (rxQueue c) (reassembly c)
  (peerFinSeen c) (closed c).
Definition set_sndWnd v c := mkTCP4Conn (localIP c) (localPort c) (remoteIP c) (remotePort c) (state c)
  (sndUna c) (sndNxt c) v (rcvNxt c) (rcvWnd c) (rxQueue c) (reassembly c)
  (peerFinSeen c) (closed c).
Definition set_rcvNxt v c := mkTCP4Conn (localIP c) (localPort c) (remoteIP c) (remotePort c) (state c)
  (sndUna c) (sndNxt c) (sndWnd c) v (rcvWnd c) (rxQueue c) (reassembly c)
  (peerFinSeen c) (closed c).
Definition set_rxQueue v c := mkTCP4Conn (localIP c) (localPort c) (remoteIP c) (remotePort c) (state c)
  (sndUna c) (sndNxt c) (sndWnd c) (rcvNxt c) (rcvWnd c) v (reassembly c)
  (peerFinSeen c) (closed c).
Definition set_reassembly v c := mkTCP4Conn (localIP c) (localPort c) (remoteIP c) (remotePort c) (state c)
  (sndUna c) (sndNxt c) (sndWnd c) (rcvNxt c) (rcvWnd c) (rxQueue c) v
  (peerFinSeen c) (closed c).
Definition set_peerFinSeen v c := mkTCP4Conn (localIP c) (localPort c) (remoteIP c) (remotePort c) (state c)
  (sndUna c) (sndNxt c) (sndWnd c) (rcvNxt c) (rcvWnd c) (rxQueue c) (reassembly c)
  v (closed c).
Definition set_closed v c := mkTCP4Conn (localIP c) (localPort c) (remoteIP c) (remotePort c) (state c)
  (sndUna c) (sndNxt c) (sndWnd c) (rcvNxt c) (rcvWnd c) (rxQueue c) (reassembly c)
  (peerFinSeen c) v.

(** ** What a connection needs of the stack *)

(** [sendSegment] wraps one segment and hands it to the link.  It reads the
    connection's addresses and window and does not change the connection.  On a
    state of the sink's invariant it does not panic. *)
Class SegmentSink (W : Type) := {
  sinkInv : W -> Prop;
  sendSegment : TCP4Conn -> Z -> Z -> Z -> list byte -> M W unit;
  sendSegment_keep c flags sq ak payload : keep sinkInv (sendSegment c flags sq ak payload)
}.

(** A sink that records the segments and never fails. *)
#[global] Program Instance recordSink : SegmentSink (list (Z * Z * Z * list byte)) := {
  sinkInv _ := True;
  sendSegment _ flags sq ak payload := modify (fun w => w ++ [(flags, sq, ak, payload)])
}.
Next Obligation. intros. by apply keeps_modify. Qed.

(** ** Reassembly *)

(** Appending a segment that starts at rcv.nxt. *)
Definition mergeSegment (payload : list byte) (fin : bool) (c : TCP4Conn) : TCP4Conn :=
  let c := set_rxQueue (rxQueue c ++ payload) c in
  let c := set_rcvNxt (u32 (rcvNxt c + u32 (len payload))) c in
  if fin then set_rcvNxt (u32 (rcvNxt c + 1)) (set_peerFinSeen true c) else c.

(** The drain loop: the first entry at rcv.nxt is merged and removed, until
    there is none.  Every round removes an entry. *)
Fixpoint drainFrom (fuel : nat) (c : TCP4Conn) : TCP4Conn :=
  match fuel with
  | O => c
  | S f =>
      match list_find (fun e => re_seq e = rcvNxt c) (reassembly c) with
      | None => c
      | Some (matched, e) =>
          let c := mergeSegment (re_payload e) (re_fin e) c in
          drainFrom f (set_reassembly (delete matched (reassembly c)) c)
      end
  end.

Definition drainReassemblyLocked (c : TCP4Conn) : TCP4Conn :=
  drainFrom (S (length (reassembly c))) c.

Section conn.
Context {W : Type} `{SegmentSink W}.

(** The locked connection and the rest of the stack. *)
Abbreviation ConnM A := (M (TCP4Conn * W) A).

Definition conn : ConnM TCP4Conn := gets fst.
Definition update (f : TCP4Conn -> TCP4Conn) : ConnM unit := modify (fun s => (f (fst s), snd s)).

(** [_ = c.sendSegment(TCPFlagACK, c.sndNxt, c.rcvNxt, nil)] *)
Definition sendAck : ConnM unit :=
  c <- conn ;;
  ignore (zoom snd (fun w s => (fst s, w)) (sendSegment c TCPFlagACK (sndNxt c) (rcvNxt c) [])).

Definition acceptSegmentLocked (sq : Z) (payload : list byte) (finFlag : bool) : ConnM unit :=
  c <- conn ;;
  if sq =? rcvNxt c then
    update (mergeSegment payload finFlag) ;;;
    update drainReassemblyLocked ;;;
    sendAck
  else if seqGT sq (rcvNxt c) && (len (reassembly c) <? TCP4ReassemblyDepth) then
    update (fun c => set_reassembly (reassembly c ++ [mkEntry sq payload finFlag]) c) ;;;
    sendAck
  else sendAck.

Definition hasFlag (h : TCP4Header) (f : Z) : bool := negb (Z.land (tcp_Flags h) f =? 0).

(** The transitions at the end of the data states' arm. *)
Definition finTransitions (ack : Z) (c : TCP4Conn) : TCP4Conn :=
  let c := if bool_decide (state c = tcpFinWait1) && (ack =? sndNxt c)
           then set_state tcpFinWait2 c else c in
  if peerFinSeen c then
    match state c with
    | tcpEstablished => set_state tcpCloseWait c
    | tcpFinWait1 => if ack =? sndNxt c then set_state tcpTimeWait c else set_state tcpClosing c
    | tcpFinWait2 => set_state tcpTimeWait c
    | _ => c
    end
  else c.

Definition deliverSegment (h : TCP4Header) (payload : list byte) : ConnM unit :=
  c <- conn ;;
  if closed c then ret tt
  else if hasFlag h TCPFlagRST then
    update (set_state tcpClosed) ;;; update (set_closed true)
  else
    update (set_sndWnd (tcp_Window h)) ;;;
    c <- conn ;;
    match state c with
    | tcpSynSent =>
        if negb (hasFlag h TCPFlagSYN) || negb (hasFlag h TCPFlagACK) then ret tt
        else if negb (tcp_Ack h =? sndNxt c) then ret tt
        else
          update (set_rcvNxt (u32 (tcp_Seq h + 1))) ;;;
          update (set_sndUna (tcp_Ack h)) ;;;
          update (set_state tcpEstablished) ;;;
          sendAck
    | tcpEstablished | tcpFinWait1 | tcpFinWait2 | tcpCloseWait =>
        if negb (hasFlag h TCPFlagACK) then ret tt
        else
          (if seqGT (tcp_Ack h) (sndUna c) then update (set_sndUna (tcp_Ack h)) else ret tt) ;;;
          (if (0 <? len payload) || hasFlag h TCPFlagFIN
           then acceptSegmentLocked (tcp_Seq h) payload (hasFlag h TCPFlagFIN) else ret tt) ;;;
          update (finTransitions (tcp_Ack h))
    | tcpLastAck =>
        if hasFlag h TCPFlagACK && (tcp_Ack h =? sndNxt c) then update (set_state tcpClosed) else ret tt
    | tcpClosing =>
        if hasFlag h TCPFlagACK && (tcp_Ack h =? sndNxt c) then update (set_state tcpTimeWait) else ret tt
    | tcpTimeWait | tcpClosed => ret tt
    end.

(** The queue step of Read: up to [n] bytes leave the queue. *)
Definition readQueue (n : nat) : ConnM (list byte) :=
  c <- conn ;;
  update (set_rxQueue (drop n (rxQueue c))) ;;;
  ret (take n (rxQueue c)).
End conn.

(** ** The effect on the connection alone

    Sends leave the connection as it is, so its fields after a delivery are a
    function of the segment and of its fields before. *)

Definition accept (sq : Z) (payload : list byte) (fin : bool) (c : TCP4Conn) : TCP4Conn :=
  if sq =? rcvNxt c then drainReassemblyLocked (mergeSegment payload fin c)
  else if seqGT sq (rcvNxt c) && (len (reassembly c) <? TCP4ReassemblyDepth)
  then set_reassembly (reassembly c ++ [mkEntry sq payload fin]) c
  else c.

Definition deliverOpen (h : TCP4Header) (payload : list byte) (c : TCP4Conn) : TCP4Conn :=
    match state c with
    | tcpSynSent =>
        if hasFlag h TCPFlagSYN && hasFlag h TCPFlagACK && (tcp_Ack h =? sndNxt c)
        then set_state tcpEstablished (set_sndUna (tcp_Ack h) (set_rcvNxt (u32 (tcp_Seq h + 1)) c))
        else c
    | tcpEstablished | tcpFinWait1 | tcpFinWait2 | tcpCloseWait =>
        if hasFlag h TCPFlagACK then
          let c := if seqGT (tcp_Ack h) (sndUna c) then set_sndUna (tcp_Ack h) c else c in
          let c := if (0 <? len payload) || hasFlag h TCPFlagFIN
                   then accept (tcp_Seq h) payload (hasFlag h TCPFlagFIN) c else c in
          finTransitions (tcp_Ack h) c
        else c
    | tcpLastAck =>
        if hasFlag h TCPFlagACK && (tcp_Ack h =? sndNxt c) then set_state tcpClosed c else c
    | tcpClosing =>
        if hasFlag h TCPFlagACK && (tcp_Ack h =? sndNxt c) then set_state tcpTimeWait c else c
    | tcpTimeWait | tcpClosed => c
    end.

Definition deliver (h : TCP4Header) (payload : list byte) (c : TCP4Conn) : TCP4Conn :=
  if closed c then c
  else if hasFlag h TCPFlagRST then set_closed true (set_state tcpClosed c)
  else deliverOpen h payload (set_sndWnd (tcp_Window h) c).

Section conn_eq.
Context {W : Type} `{SegmentSink W}.

(** [m] returns normally, changes the connection by [f], and keeps the sink's
    invariant. *)
Definition runsAs (m : M (TCP4Conn * W) unit) (f : TCP4Conn -> TCP4Conn) : Prop :=
  forall c w, sinkInv w -> exists w', m (c, w) = (Ok tt, (f c, w')) /\ sinkInv w'.

Lemma runsAs_ret : runsAs (ret tt) id.
Proof. intros c w Hw. by exists w. Qed.
Lemma runsAs_update f : runsAs (update f) f.
Proof. intros c w Hw. by exists w. Qed.
Lemma runsAs_seq m k f g : runsAs m f -> runsAs k g -> runsAs (m ;;; k) (fun c => g (f c)).
Proof.
  intros Hm Hk c w Hw. destruct (Hm c w Hw) as (w1 & E1 & Hw1).
  destruct (Hk (f c) w1 Hw1) as (w2 & E2 & Hw2). exists w2. unfold bind. by rewrite E1.
Qed.
Lemma runsAs_conn (k : TCP4Conn -> M (TCP4Conn * W) unit) f :
  (forall c0, exists g, runsAs (k c0) g /\ g c0 = f c0) -> runsAs (c <- conn ;; k c) f.
Proof.
  intros Hk c w Hw. destruct (Hk c) as (g & Hg & E). destruct (Hg c w Hw) as (w' & E' & Hw').
  exists w'. unfold bind, conn, gets. cbn. by rewrite E', E.
Qed.
Lemma runsAs_if (b : bool) m k f g :
  runsAs m f -> runsAs k g -> runsAs (if b then m else k) (if b then f else g).
Proof. by destruct b. Qed.

Lemma sendAck_runs : runsAs sendAck id.
Proof.
  intros c w Hw. unfold sendAck, conn, zoom. mrun.
  destruct (sendSegment_keep c TCPFlagACK (sndNxt c) (rcvNxt c) [] w Hw) as (Hp & HI & _).
  destruct (sendSegment _ _ _ _ _ w) as [[[]|e|] w']; cbn in *; [by exists w'..|done].
Qed.

Ltac runs := repeat first
  [ apply runsAs_ret | apply runsAs_update | apply sendAck_runs | apply runsAs_if | apply runsAs_seq ].

Lemma acceptSegmentLocked_runs sq payload fin :
  runsAs (acceptSegmentLocked sq payload fin) (accept sq payload fin).
Proof.
  unfold acceptSegmentLocked. apply runsAs_conn. intros c0. eexists. split; [runs|].
  unfold accept. repeat case_match; done.
Qed.

Lemma deliverSegment_runs h payload : runsAs (deliverSegment h payload) (deliver h payload).
Proof.
  unfold deliverSegment. apply runsAs_conn. intros c0. unfold deliver.
  destruct (closed c0); [eexists; split; [runs|done]|].
  destruct (hasFlag h TCPFlagRST); [eexists; split; [runs|done]|].
  exists (fun c => deliverOpen h payload (set_sndWnd (tcp_Window h) c)). split; [|done].
  apply runsAs_seq; [apply runsAs_update|]. apply runsAs_conn. intros c. unfold deliverOpen.
  destruct (state c); eexists; (split; [runs; apply acceptSegmentLocked_runs|]);
    destruct (hasFlag h TCPFlagSYN), (hasFlag h TCPFlagACK), (tcp_Ack h =? sndNxt c);
    cbn [negb andb orb]; repeat case_match; try done.
Qed.
End conn_eq.

(** A delivery changes the sink only by sending. *)
Lemma deliverSegment_frames `{SegmentSink W} {B} (f : W -> B) h payload :
  (forall c flags sq ak p, frames f (sendSegment c flags sq ak p)) ->
  frames (fun s => f (snd s)) (deliverSegment h payload).
Proof.
  intros Hf. assert (frames (fun s : TCP4Conn * W => f (snd s)) sendAck) as Hs.
  { unfold sendAck, conn. go_frame. intros [c w]. unfold zoom. cbn.
    specialize (Hf a TCPFlagACK (sndNxt a) (rcvNxt a) [] w). by destruct (sendSegment _ _ _ _ _ w). }
  unfold deliverSegment, acceptSegmentLocked, conn, update. go_frame.
Qed.

(** ** Fields each step leaves alone *)

Lemma mergeSegment_frame p fin c :
  state (mergeSegment p fin c) = state c /\ closed (mergeSegment p fin c) = closed c /\
  reassembly (mergeSegment p fin c) = reassembly c /\ sndNxt (mergeSegment p fin c) = sndNxt c /\
  sndUna (mergeSegment p fin c) = sndUna c.
Proof. by destruct fin. Qed.

Lemma drainFrom_frame n c :
  state (drainFrom n c) = state c /\ closed (drainFrom n c) = closed c /\
  sndNxt (drainFrom n c) = sndNxt c /\ sndUna (drainFrom n c) = sndUna c.
Proof.
  revert c. induction n as [|n IH]; intros c; [done|]. cbn [drainFrom].
  destruct (list_find _ _) as [[i e]|]; [|done].
  destruct (IH (set_reassembly (delete i (reassembly (mergeSegment (re_payload e) (re_fin e) c)))
    (mergeSegment (re_payload e) (re_fin e) c))) as (-> & -> & -> & ->). cbn.
  destruct (mergeSegment_frame (re_payload e) (re_fin e) c) as (-> & -> & _ & -> & ->). done.
Qed.

Lemma accept_frame sq p fin c :
  state (accept sq p fin c) = state c /\ closed (accept sq p fin c) = closed c /\
  sndNxt (accept sq p fin c) = sndNxt c /\ sndUna (accept sq p fin c) = sndUna c.
Proof.
  unfold accept. case_match; [|by case_match].
  unfold drainReassemblyLocked. edestruct drainFrom_frame as (-> & -> & -> & ->).
  edestruct (mergeSegment_frame p fin c) as (-> & -> & _ & -> & ->). done.
Qed.

(** ** The drain loop *)

(** The fuel is enough: after the drain no parked entry starts at rcv.nxt. *)
Lemma drainFrom_done n c :
  (length (reassembly c) < n)%nat ->
  Forall (fun e => re_seq e <> rcvNxt (drainFrom n c)) (reassembly (drainFrom n c)) /\
  (length (reassembly (drainFrom n c)) <= length (reassembly c))%nat.
Proof.
  revert c. induction n as [|n IH]; intros c Hn; [lia|]. cbn [drainFrom].
  destruct (list_find _ _) as [[i e]|] eqn:E.
  - apply list_find_Some in E as (Hi & _ & _).
    edestruct (mergeSegment_frame (re_payload e) (re_fin e) c) as (_ & _ & Hr & _).
    set (c' := set_reassembly _ _).
    assert (length (reassembly c') = length (reassembly c) - 1)%nat as Hl.
    { unfold c'. cbn [reassembly set_reassembly]. rewrite Hr.
      rewrite length_delete by eauto. lia. }
    destruct (IH c') as [? ?]; [apply lookup_lt_Some in Hi; lia|]. split; [done|lia].
  - apply list_find_None in E. split; [done|lia].
Qed.

Lemma drainReassemblyLocked_done c :
  Forall (fun e => re_seq e <> rcvNxt (drainReassemblyLocked c)) (reassembly (drainReassemblyLocked c)) /\
  (length (reassembly (drainReassemblyLocked c)) <= length (reassembly c))%nat.
Proof. apply drainFrom_done. lia. Qed.

(** ** The byte stream *)

Section stream.
(** The peer's stream [D], whose first byte has sequence number [r0]; its FIN
    follows the last byte.  The stream and its FIN fit the sequence space. *)
Variables (r0 : Z) (D : list byte).
Hypothesis HD : len D + 1 < 2 ^ 32.

(** A segment the peer may send: bytes [p..p+n) of the stream under sequence
    number r0 + p, with FIN only behind the last byte. *)
Definition genuine (sq : Z) (payload : list byte) (fin : bool) : Prop :=
  exists p, 0 <= p /\ p + len payload <= len D /\ sq = u32 (r0 + p) /\
    payload = take (length payload) (drop (Z.to_nat p) D) /\
    (fin = true -> p + len payload = len D).

(** The receive side has taken exactly the first bytes of the stream: [rd] was
    read by the application, the queue follows. *)
Definition received (rd : list byte) (c : TCP4Conn) : Prop :=
  (exists k : nat, (k <= length D)%nat /\ rd ++ rxQueue c = take k D /\
     rcvNxt c = u32 (r0 + Z.of_nat k + (if peerFinSeen c then 1 else 0)) /\
     (peerFinSeen c = true -> k = length D)) /\
  Forall (fun e => genuine (re_seq e) (re_payload e) (re_fin e)) (reassembly c).

Lemma merge_position p k (f : bool) :
  0 <= p <= len D -> (k <= length D)%nat -> (f = true -> k = length D) ->
  u32 (r0 + p) = u32 (r0 + Z.of_nat k + (if f then 1 else 0)) -> f = false /\ p = Z.of_nat k.
Proof.
  intros Hp Hk Hf He. unfold u32 in He. unfold len in *.
  set (q := Z.of_nat k + (if f then 1 else 0)).
  assert (p = q) as Hpq.
  { replace (r0 + Z.of_nat k + _) with (r0 + q) in He by lia.
    assert ((p - q) mod 2 ^ 32 = 0) as Hm.
    { replace (p - q) with ((r0 + p) - (r0 + q)) by lia. by rewrite Zminus_mod, He, Z.sub_diag. }
    assert (- 2 ^ 32 < p - q < 2 ^ 32) by (unfold q; destruct f; lia).
    apply Z.mod_divide in Hm as [z Hz]; [|done]. nia. }
  destruct f; [exfalso|]; unfold q in Hpq; [|split; [done|lia]].
  specialize (Hf eq_refl). lia.
Qed.

Lemma mergeSegment_received rd c payload fin :
  received rd c -> genuine (rcvNxt c) payload fin -> received rd (mergeSegment payload fin c).
Proof.
  intros [(k & Hk & Hq & Hn & Hf) Hre] (p & Hp0 & Hpl & Hsq & Hpay & Hfin).
  rewrite Hn in Hsq. symmetry in Hsq.
  destruct (merge_position p k (peerFinSeen c)) as [Hnf ->]; [pose_lens; lia|done..|].
  rewrite Nat2Z.id in Hpay. rewrite Hnf in Hn. unfold len in *.
  assert (rd ++ rxQueue c ++ payload = take (k + length payload) D) as Htake.
  { rewrite app_assoc, Hq, Hpay at 1. rewrite take_take_drop. done. }
  split; [exists (k + length payload)%nat|by destruct fin].
  split; [lia|].
  unfold mergeSegment, len. destruct fin; cbn [rxQueue rcvNxt peerFinSeen set_rxQueue set_rcvNxt set_peerFinSeen].
  - split; [done|]. rewrite Hn, u32_add, u32_add_l. split; [f_equal; lia|].
    specialize (Hfin eq_refl). lia.
  - split; [done|]. rewrite Hn, Hnf, u32_add. split; [f_equal; lia|done].
Qed.

Lemma set_reassembly_received rd l c :
  received rd c -> Forall (fun e => genuine (re_seq e) (re_payload e) (re_fin e)) l ->
  received rd (set_reassembly l c).
Proof. intros [H _] Hl. by split. Qed.

Lemma drainFrom_received rd n c : received rd c -> received rd (drainFrom n c).
Proof.
  revert c. induction n as [|n IH]; intros c Hc; [done|]. cbn [drainFrom].
  destruct (list_find _ _) as [[i e]|] eqn:E; [|done].
  apply list_find_Some in E as (Hi & He & _). apply IH.
  destruct (mergeSegment_frame (re_payload e) (re_fin e) c) as (_ & _ & Hr & _).
  pose proof (proj2 Hc) as Hre.
  apply set_reassembly_received.
  - apply mergeSegment_received; [done|]. rewrite <- He. by apply (Forall_lookup_1 _ _ _ _ Hre Hi).
  - rewrite Hr. by apply Forall_delete.
Qed.

Lemma accept_received rd sq payload fin c :
  received rd c -> genuine sq payload fin -> received rd (accept sq payload fin c).
Proof.
  intros Hc Hg. unfold accept. destruct (Z.eqb_spec sq (rcvNxt c)) as [->|].
  - apply drainFrom_received. by apply mergeSegment_received.
  - case_match; [|done]. apply set_reassembly_received; [done|].
    apply Forall_app. split; [apply Hc|]. by constructor.
Qed.

(** The fields the stream depends on. *)
Lemma received_ext rd c c' :
  rxQueue c' = rxQueue c -> rcvNxt c' = rcvNxt c -> reassembly c' = reassembly c ->
  peerFinSeen c' = peerFinSeen c -> received rd c -> received rd c'.
Proof. intros H1 H2 H3 H4. unfold received. by rewrite H1, H2, H3, H4. Qed.

Lemma finTransitions_received rd ack c : received rd c -> received rd (finTransitions ack c).
Proof. apply received_ext; unfold finTransitions; repeat case_match; done. Qed.

Lemma finTransitions_open ack c :
  state c <> tcpSynSent -> state (finTransitions ack c) <> tcpSynSent.
Proof. intros Hc. unfold finTransitions. repeat case_match; cbn; congruence. Qed.

Lemma deliver_received rd h payload c :
  state c <> tcpSynSent -> received rd c ->
  ((0 <? len payload) || hasFlag h TCPFlagFIN = true -> genuine (tcp_Seq h) payload (hasFlag h TCPFlagFIN)) ->
  state (deliver h payload c) <> tcpSynSent /\ received rd (deliver h payload c).
Proof.
  intros Hst Hc Hg. unfold deliver. destruct (closed c); [done|].
  destruct (hasFlag h TCPFlagRST); [done|].
  assert (state (set_sndWnd (tcp_Window h) c) <> tcpSynSent) as Hst' by done.
  assert (received rd (set_sndWnd (tcp_Window h) c)) as Hc' by done.
  revert Hst' Hc'. generalize (set_sndWnd (tcp_Window h) c) as c1. clear c Hst Hc.
  intros c Hst Hc. unfold deliverOpen.
  assert (forall ak,
    let c' := if seqGT ak (sndUna c) then set_sndUna ak c else c in
    let c'' := if (0 <? len payload) || hasFlag h TCPFlagFIN
               then accept (tcp_Seq h) payload (hasFlag h TCPFlagFIN) c' else c' in
    state c'' <> tcpSynSent /\ received rd c'') as Hacc.
  { intros ak c' c''. assert (state c' <> tcpSynSent /\ received rd c') as [? ?]
      by (subst c'; case_match; done).
    subst c''. destruct ((0 <? len payload) || _); [|done].
    split; [by rewrite (proj1 (accept_frame _ _ _ _))|]. by apply accept_received; [|apply Hg]. }
  destruct (state c) eqn:E; try done.
  all: try (destruct (hasFlag h TCPFlagACK); [|by rewrite E]).
  all: try (destruct (Hacc (tcp_Ack h)) as [? ?];
            split; [by apply finTransitions_open|by apply finTransitions_received]).
  all: destruct (hasFlag h TCPFlagACK && (tcp_Ack h =? sndNxt c)); rewrite ?E; done.
Qed.
End stream.

(** What happens to a connection over time: a segment arrives, or the
    application takes up to [n] queued bytes. *)
Inductive connEvent :=
| Segment (h : TCP4Header) (payload : list byte)
| AppRead (n : nat).

Fixpoint runConn `{SegmentSink W} (evs : list connEvent) : M (TCP4Conn * W) (list byte) :=
  match evs with
  | [] => ret []
  | Segment h payload :: evs => deliverSegment h payload ;;; runConn evs
  | AppRead n :: evs => b <- readQueue n ;; r <- runConn evs ;; ret (b ++ r)
  end.

(** The segment belongs to the peer's stream, if it carries anything. *)
Definition genuineEvent (r0 : Z) (D : list byte) (ev : connEvent) : Prop :=
  match ev with
  | Segment h payload =>
      (0 <? len payload) || hasFlag h TCPFlagFIN = true ->
      genuine r0 D (tcp_Seq h) payload (hasFlag h TCPFlagFIN)
  | AppRead _ => True
  end.

Lemma runConn_received `{SegmentSink W} r0 D evs rd c w :
  len D + 1 < 2 ^ 32 -> Forall (genuineEvent r0 D) evs ->
  state c <> tcpSynSent -> received r0 D rd c -> sinkInv w ->
  exists out c' w', runConn evs (c, w) = (Ok out, (c', w')) /\ sinkInv w' /\
    received r0 D (rd ++ out) c'.
Proof.
  intros HD Hevs. revert rd c w. induction Hevs as [|[h p|n] evs He Hevs IH]; intros rd c w Hst Hc Hw.
  - exists [], c, w. rewrite app_nil_r. done.
  - cbn [runConn]. destruct (deliverSegment_runs h p c w Hw) as (w1 & E1 & Hw1).
    destruct (deliver_received r0 D HD rd h p c Hst Hc He) as [Hst' Hc'].
    destruct (IH rd (deliver h p c) w1 Hst' Hc' Hw1) as (o & c2 & w2 & E2 & ?).
    exists o, c2, w2. unfold bind. by rewrite E1.
  - cbn [runConn]. destruct Hc as [(k & Hk & Hq & Hn & Hf) Hre].
    destruct (IH (rd ++ take n (rxQueue c)) (set_rxQueue (drop n (rxQueue c)) c) w) as (o & c2 & w2 & E2 & Hw2 & Hr);
      [done| |done|].
    { split; [|done]. exists k. split; [done|]. split; [|done].
      cbn. by rewrite <- app_assoc, take_drop. }
    exists (take n (rxQueue c) ++ o), c2, w2. unfold bind, readQueue, conn, update. mrun. rewrite E2.
    split; [done|]. split; [done|]. by rewrite app_assoc.
Qed.

(** ** Complete reassembly *)

Section reassembly.
Variables (r0 : Z) (D : list byte).
Hypothesis HD : len D < 2 ^ 31.

(** The stream from position [p] on, cut into segments, FIN on the last. *)
Fixpoint cut (p : Z) (segs : list (list byte)) : list tcp4ReassemblyEntry :=
  match segs with
  | [] => []
  | s :: r => mkEntry (u32 (r0 + p)) s (match r with [] => true | _ => false end) :: cut (p + len s) r
  end.

(** The rest of the stream [cut p segs] is split between the parked entries and
    the segments still to arrive. *)
Definition pending (p : Z) (segs : list (list byte)) (todo : list tcp4ReassemblyEntry) (c : TCP4Conn) : Prop :=
  0 <= p /\ p + len (concat segs) = len D /\ Forall (fun s => 0 < len s) segs /\
  rxQueue c ++ concat segs = D /\
  rcvNxt c = u32 (r0 + p + (match segs with [] => 1 | _ => 0 end)) /\
  peerFinSeen c = (match segs with [] => true | _ => false end) /\
  reassembly c ++ todo ≡ₚ cut p segs.

Lemma cut_elem p segs e :
  Forall (fun s => 0 < len s) segs -> e ∈ cut p segs ->
  exists q, re_seq e = u32 (r0 + q) /\ p <= q < p + len (concat segs).
Proof.
  revert p. induction segs as [|s r IH]; intros p Hs; cbn [cut concat]; [by intros ?%elem_of_nil|].
  apply Forall_cons in Hs as [Hs Hr]. intros [->|He]%elem_of_cons; len_norm; pose_lens.
  - exists p. split; [done|lia].
  - destruct (IH (p + len s) Hr He) as (q & ? & ?). exists q. split; [done|lia].
Qed.

Lemma cut_length p segs : length (cut p segs) = length segs.
Proof. revert p. induction segs as [|s r IH]; intros p; cbn; [done|]. by rewrite IH. Qed.

Lemma u32_pos_inj q p : 0 <= q - p < 2 ^ 32 -> u32 (r0 + q) = u32 (r0 + p) -> q = p.
Proof.
  intros Hq He. assert ((q - p) mod 2 ^ 32 = 0) as Hm.
  { unfold u32 in He. replace (q - p) with ((r0 + q) - (r0 + p)) by lia.
    by rewrite Zminus_mod, He, Z.sub_diag. }
  rewrite Z.mod_small in Hm by done. lia.
Qed.

(** The only pending entry at rcv.nxt is the first one. *)
Lemma pending_head p segs todo c e :
  pending p segs todo c -> e ∈ cut p segs -> re_seq e = rcvNxt c ->
  exists s r, segs = s :: r /\ e = mkEntry (u32 (r0 + p)) s (match r with [] => true | _ => false end).
Proof.
  intros (Hp & Hl & Hs & _ & Hn & _ & _) He Hq. destruct segs as [|s r]; [by apply elem_of_nil in He|].
  exists s, r. split; [done|]. cbn [cut] in He. apply elem_of_cons in He as [->|He]; [done|exfalso].
  apply Forall_cons in Hs as [Hs Hr]. destruct (cut_elem _ _ _ Hr He) as (q & Hq1 & Hq2).
  cbn [concat] in Hl. len_norm. pose_lens. rewrite Hn, Z.add_0_r in Hq. rewrite Hq1 in Hq.
  change (2 ^ 31) with 2147483648 in HD.
  apply u32_pos_inj in Hq; [lia|]. change (2 ^ 32) with 4294967296. lia.
Qed.

Lemma merge_pending p s r todo c c' :
  pending p (s :: r) todo c ->
  c' = mergeSegment s (match r with [] => true | _ => false end) c ->
  0 <= p + len s /\ (p + len s) + len (concat r) = len D /\ Forall (fun s => 0 < len s) r /\
  rxQueue c' ++ concat r = D /\
  rcvNxt c' = u32 (r0 + (p + len s) + (match r with [] => 1 | _ => 0 end)) /\
  peerFinSeen c' = (match r with [] => true | _ => false end).
Proof.
  intros (Hp & Hl & Hs & Hq & Hn & Hf & _) ->. apply Forall_cons in Hs as [Hs Hr].
  cbn [concat] in *. len_norm. pose_lens. do 2 (split; [lia|]). split; [done|].
  unfold mergeSegment. destruct r; cbn [rxQueue rcvNxt peerFinSeen set_rxQueue set_rcvNxt set_peerFinSeen].
  - split; [by rewrite <- app_assoc|]. rewrite Hn, u32_add, u32_add_l. split; [f_equal; lia|done].
  - split; [by rewrite <- app_assoc|]. rewrite Hn, u32_add. split; [f_equal; lia|done].
Qed.

Lemma drainFrom_pending n p segs todo c :
  pending p segs todo c ->
  exists p' segs', (length segs' <= length segs)%nat /\ pending p' segs' todo (drainFrom n c).
Proof.
  revert p segs c. induction n as [|n IH]; intros p segs c Hc; [by eauto|]. cbn [drainFrom].
  destruct (list_find _ _) as [[i e]|] eqn:E; [|by eauto].
  apply list_find_Some in E as (Hi & He & _).
  pose proof Hc as (_ & _ & _ & _ & _ & _ & Hperm).
  destruct (pending_head _ _ _ _ e Hc) as (s & r & -> & ->); [|done|].
  { rewrite <- Hperm. apply elem_of_app. left. by eapply list_elem_of_lookup_2. }
  destruct (IH (p + len s) r (set_reassembly (delete i (reassembly (mergeSegment s
    (match r with [] => true | _ => false end) c))) (mergeSegment s (match r with [] => true | _ => false end) c)))
    as (p' & segs' & ? & ?); [|exists p', segs'; split; [cbn; lia|done]].
  destruct (merge_pending p s r todo c _ Hc eq_refl) as (? & ? & ? & ? & ? & ?).
  destruct (mergeSegment_frame s (match r with [] => true | _ => false end) c) as (_ & _ & Hr & _).
  do 6 (split; [done|]). cbn [reassembly set_reassembly]. rewrite Hr.
  apply delete_Permutation in Hi. rewrite Hi in Hperm. cbn [cut app] in Hperm.
  by apply Permutation.Permutation_cons_inv in Hperm.
Qed.

Lemma accept_pending p segs todo c e :
  pending p segs (e :: todo) c -> (length segs <= 9)%nat ->
  Forall (fun x => re_seq x <> rcvNxt c) (reassembly c) ->
  let c' := accept (re_seq e) (re_payload e) (re_fin e) c in
  (exists p' segs', (length segs' <= length segs)%nat /\ pending p' segs' todo c') /\
  Forall (fun x => re_seq x <> rcvNxt c') (reassembly c').
Proof.
  intros Hc Hlen Hno. cbv zeta. pose proof Hc as (Hp & Hl & Hs & Hq & Hn & Hf & Hperm).
  assert (e ∈ cut p segs) as Hin by (rewrite <- Hperm; set_solver).
  unfold accept. destruct (Z.eqb_spec (re_seq e) (rcvNxt c)) as [E|E].
  - split; [|by apply drainReassemblyLocked_done].
    destruct (pending_head _ _ _ _ e Hc Hin E) as (s & r & -> & ->). cbn [re_payload re_fin].
    destruct (merge_pending p s r _ c _ Hc eq_refl) as (? & ? & ? & ? & ? & ?).
    destruct (mergeSegment_frame s (match r with [] => true | _ => false end) c) as (_ & _ & Hr & _).
    destruct (drainFrom_pending (S (length (reassembly (mergeSegment s
      (match r with [] => true | _ => false end) c)))) (p + len s) r todo
      (mergeSegment s (match r with [] => true | _ => false end) c)) as (p' & segs' & ? & ?).
    { do 6 (split; [done|]). rewrite Hr. rewrite <- Permutation_middle in Hperm. cbn [cut] in Hperm.
      by apply Permutation.Permutation_cons_inv in Hperm. }
    exists p', segs'. split; [cbn; lia|done].
  - destruct segs as [|s r]; [by apply elem_of_nil in Hin|].
    assert (seqGT (re_seq e) (rcvNxt c) = true) as ->.
    { cbn [cut] in Hin. apply elem_of_cons in Hin as [->|Hin]; [by rewrite Hn, Z.add_0_r in E|].
      apply Forall_cons in Hs as [Hs Hr]. destruct (cut_elem _ _ _ Hr Hin) as (q & -> & Hqb).
      cbn [concat] in Hl. len_norm. pose_lens. change (2 ^ 31) with 2147483648 in HD.
      apply seqGT_spec. rewrite Hn, Z.add_0_r. unfold u32. rewrite <- Zminus_mod.
      replace (r0 + q - (r0 + p)) with (q - p) by lia.
      change (2 ^ 31) with 2147483648. change (2 ^ 32) with 4294967296.
      rewrite Z.mod_small by lia. lia. }
    assert (len (reassembly c) <? TCP4ReassemblyDepth = true) as ->.
    { apply Z.ltb_lt. unfold TCP4ReassemblyDepth, len.
      pose proof (Permutation_length Hperm) as Hpl. rewrite length_app, cut_length in Hpl. cbn in Hpl, Hlen.
      destruct todo as [|e' todo]; [|cbn in Hpl; lia]. exfalso.
      assert (mkEntry (u32 (r0 + p)) s (match r with [] => true | _ => false end) ∈ reassembly c ++ [e]) as Hh.
      { rewrite Hperm. cbn [cut]. apply elem_of_cons. by left. }
      apply elem_of_app in Hh as [Hh|Hh%list_elem_of_singleton].
      - rewrite Forall_forall in Hno. apply (Hno _ Hh). by rewrite Hn, Z.add_0_r.
      - apply E. rewrite <- Hh, Hn, Z.add_0_r. done. }
    cbn [andb]. split.
    + exists p, (s :: r). split; [done|]. do 6 (split; [done|]). cbn [reassembly set_reassembly].
      rewrite <- app_assoc. destruct e. done.
    + cbn [reassembly set_reassembly rcvNxt]. apply Forall_app. split; [done|].
      by constructor.
Qed.

(** The header of a data segment that carries the entry [e]. *)
Definition carries (h : TCP4Header) (e : tcp4ReassemblyEntry) : Prop :=
  tcp_Seq h = re_seq e /\ hasFlag h TCPFlagFIN = re_fin e /\
  hasFlag h TCPFlagACK = true /\ hasFlag h TCPFlagRST = false.

(** Open for receiving: in ESTABLISHED until the peer's FIN, then in CLOSE_WAIT. *)
Definition receiving (c : TCP4Conn) : Prop :=
  closed c = false /\ state c = (if peerFinSeen c then tcpCloseWait else tcpEstablished).

Lemma pending_ext p segs todo c c' :
  rxQueue c' = rxQueue c -> rcvNxt c' = rcvNxt c -> reassembly c' = reassembly c ->
  peerFinSeen c' = peerFinSeen c -> pending p segs todo c -> pending p segs todo c'.
Proof. intros H1 H2 H3 H4. unfold pending. by rewrite H1, H2, H3, H4. Qed.

Lemma finTransitions_recv ack c :
  let c' := finTransitions ack c in
  rxQueue c' = rxQueue c /\ rcvNxt c' = rcvNxt c /\ reassembly c' = reassembly c /\
  peerFinSeen c' = peerFinSeen c /\ closed c' = closed c.
Proof. unfold finTransitions. repeat case_match; done. Qed.

(** In the receiving states a carrying segment is accepted, then the state
    follows the FIN. *)
Lemma deliver_receiving h e c :
  receiving c -> carries h e -> 0 < len (re_payload e) ->
  exists c1, deliver h (re_payload e) c
             = finTransitions (tcp_Ack h) (accept (re_seq e) (re_payload e) (re_fin e) c1) /\
    rxQueue c1 = rxQueue c /\ rcvNxt c1 = rcvNxt c /\ reassembly c1 = reassembly c /\
    peerFinSeen c1 = peerFinSeen c /\ closed c1 = false /\ state c1 = state c.
Proof.
  intros [Hcl Hst] (Hsq & Hfin & Hack & Hrst) Hlen. unfold deliver. rewrite Hcl, Hrst.
  exists (if seqGT (tcp_Ack h) (sndUna c) then set_sndUna (tcp_Ack h) (set_sndWnd (tcp_Window h) c)
          else set_sndWnd (tcp_Window h) c).
  split; [|by destruct (seqGT _ _)].
  unfold deliverOpen. cbn [state set_sndWnd]. rewrite Hst, Hack, Hfin, Hsq.
  rewrite (proj2 (Z.ltb_lt _ _) Hlen). cbn [orb]. by destruct (peerFinSeen c).
Qed.

Lemma finTransitions_receiving ack c :
  closed c = false -> state c = tcpEstablished \/ (state c = tcpCloseWait /\ peerFinSeen c = true) ->
  receiving (finTransitions ack c).
Proof.
  intros Hcl Hst. unfold receiving, finTransitions.
  rewrite bool_decide_eq_false_2 by (destruct Hst as [->|[-> _]]; done). cbn [andb].
  destruct Hst as [Hst|[Hst Hf]]; rewrite Hst, ?Hf; [|by rewrite ?Hf, ?Hst].
  destruct (peerFinSeen c) eqn:Ef; cbn; rewrite ?Ef, ?Hst; done.
Qed.

Lemma mergeSegment_fin p fin c : peerFinSeen c = true -> peerFinSeen (mergeSegment p fin c) = true.
Proof. by destruct fin. Qed.

Lemma accept_fin sq p fin c : peerFinSeen c = true -> peerFinSeen (accept sq p fin c) = true.
Proof.
  intros Hf. unfold accept. case_match; [|by case_match].
  unfold drainReassemblyLocked. generalize (S (length (reassembly (mergeSegment p fin c)))).
  intros n. apply (mergeSegment_fin p fin) in Hf. revert Hf. generalize (mergeSegment p fin c).
  clear. induction n as [|n IH]; intros c Hf; [done|]. cbn [drainFrom].
  destruct (list_find _ _) as [[i e]|]; [|done]. apply IH. by apply mergeSegment_fin.
Qed.

Lemma deliver_pending p segs todo c h e :
  pending p segs (e :: todo) c -> (length segs <= 9)%nat -> receiving c -> carries h e ->
  0 < len (re_payload e) ->
  Forall (fun x => re_seq x <> rcvNxt c) (reassembly c) ->
  let c' := deliver h (re_payload e) c in
  receiving c' /\
  (exists p' segs', (length segs' <= length segs)%nat /\ pending p' segs' todo c') /\
  Forall (fun x => re_seq x <> rcvNxt c') (reassembly c').
Proof.
  intros Hc Hlen Hrec Hh Hp Hno.
  destruct (deliver_receiving h e c Hrec Hh Hp) as (c1 & -> & H1 & H2 & H3 & H4 & H5 & H6).
  assert (pending p segs (e :: todo) c1) as Hc1 by (by apply (pending_ext _ _ _ c)).
  destruct (accept_pending p segs todo c1 e Hc1 Hlen) as [(p' & segs' & Hl & Hp') Hno'];
    [by rewrite H2, H3|].
  destruct (accept_frame (re_seq e) (re_payload e) (re_fin e) c1) as (Fst & Fcl & _).
  destruct (finTransitions_recv (tcp_Ack h) (accept (re_seq e) (re_payload e) (re_fin e) c1))
    as (T1 & T2 & T3 & T4 & T5).
  cbv zeta. split.
  - apply finTransitions_receiving; [congruence|]. destruct Hrec as [_ Hst].
    destruct (peerFinSeen c) eqn:Ef; [right|left; congruence].
    split; [congruence|]. apply accept_fin. congruence.
  - split; [exists p', segs'; split; [done|]; by eapply pending_ext|]. by rewrite T2, T3.
Qed.

Lemma run_pending `{SegmentSink W} todo hs p segs c w :
  pending p segs todo c -> (length segs <= 9)%nat -> receiving c -> sinkInv w ->
  Forall2 carries hs todo -> Forall (fun e => 0 < len (re_payload e)) todo ->
  Forall (fun x => re_seq x <> rcvNxt c) (reassembly c) ->
  exists c' w', runConn (zip_with (fun h e => Segment h (re_payload e)) hs todo) (c, w) = (Ok [], (c', w')) /\
    rxQueue c' = D /\ peerFinSeen c' = true /\ reassembly c' = [] /\ state c' = tcpCloseWait.
Proof.
  intros Hc Hlen Hrec Hw Hhs. revert p segs c w Hc Hlen Hrec Hw.
  induction Hhs as [|h e hs todo Hh Hhs IH]; intros p segs c w Hc Hlen Hrec Hw Hpos Hno.
  - exists c, w. split; [done|]. destruct Hrec as [_ Hst].
    destruct Hc as (_ & _ & _ & Hq & Hn & Hf & Hperm). rewrite app_nil_r in Hperm.
    destruct segs as [|s r].
    + cbn [cut concat] in *. rewrite app_nil_r in Hq. rewrite Hf in Hst.
      apply Permutation_nil_r in Hperm. done.
    + exfalso. rewrite Hperm in Hno. cbn [cut] in Hno. apply Forall_cons in Hno as [Hno _].
      apply Hno. by rewrite Hn, Z.add_0_r.
  - apply Forall_cons in Hpos as [Hp Hpos].
    destruct (deliver_pending p segs todo c h e Hc Hlen Hrec Hh Hp Hno) as (Hrec' & (p' & segs' & Hl' & Hp') & Hno').
    destruct (deliverSegment_runs h (re_payload e) c w Hw) as (w1 & E1 & Hw1).
    destruct (IH p' segs' _ w1 Hp' ltac:(lia) Hrec' Hw1 Hpos Hno') as (c2 & w2 & E2 & ?).
    exists c2, w2. cbn [zip_with runConn]. unfold bind. by rewrite E1.
Qed.

Lemma cut_payload segs p : re_payload <$> cut p segs = segs.
Proof. revert p. induction segs as [|s r IH]; intros p; cbn; [done|]. by rewrite IH. Qed.
End reassembly.

(** ** Properties *)

(** A connection as it is right after the handshake. *)
Definition freshConn (r0 : Z) (c : TCP4Conn) : Prop :=
  state c = tcpEstablished /\ closed c = false /\ rcvNxt c = u32 r0 /\
  rxQueue c = [] /\ reassembly c = [] /\ peerFinSeen c = false.

(** C1. The receive side refines a byte stream.  However the peer's segments are
    reordered, duplicated, overlapped or lost, and however the application's
    reads and the peer's resets interleave with them, the connection never
    panics and the bytes handed to the application, followed by those queued
    for it, are exactly a prefix of the peer's stream; once the FIN is seen
    they are the whole stream.  The stream may be up to 2^32 - 2 bytes long and
    may wrap the sequence space. *)
Theorem tcp_stream_prefix `{SegmentSink W} r0 D evs c w :
  len D + 1 < 2 ^ 32 -> freshConn r0 c -> sinkInv w -> Forall (genuineEvent r0 D) evs ->
  exists rd c' w', runConn evs (c, w) = (Ok rd, (c', w')) /\
    (exists rest, rd ++ rxQueue c' ++ rest = D) /\
    (peerFinSeen c' = true -> rd ++ rxQueue c' = D).
Proof.
  intros HD (Hst & Hcl & Hn & Hq & Hre & Hf) Hw Hevs.
  destruct (runConn_received r0 D evs [] c w HD Hevs) as (rd & c' & w' & E & _ & Hr);
    [by rewrite Hst| |done|].
  { split; [|by rewrite Hre]. exists 0%nat. rewrite Hq, Hf, Hn. split; [lia|]. split; [done|].
    split; [f_equal; lia|done]. }
  exists rd, c', w'. split; [done|]. destruct Hr as [(k & Hk & Htake & _ & Hfin) _].
  cbn [app] in Htake. split.
  - exists (drop k D). by rewrite app_assoc, Htake, take_drop.
  - intros Hfs. rewrite Htake, (Hfin Hfs). apply firstn_all.
Qed.

(** C17. Reassembly is complete.  Cut a stream of less than 2^31 bytes into at most
    nine non-empty segments, the FIN on the last, and deliver them in any
    order: the connection ends in CLOSE_WAIT with the whole stream queued in
    order, the FIN seen and nothing left parked.  (Nine is the limit: eight
    can be parked ahead of the missing one.) *)
Theorem tcp_reassembly_complete `{SegmentSink W} r0 segs order hs c w :
  freshConn r0 c -> sinkInv w -> segs <> [] -> (length segs <= 9)%nat ->
  Forall (fun s => 0 < len s) segs -> len (concat segs) < 2 ^ 31 ->
  order ≡ₚ cut r0 0 segs -> Forall2 carries hs order ->
  exists c' w',
    runConn (zip_with (fun h e => Segment h (re_payload e)) hs order) (c, w) = (Ok [], (c', w')) /\
    rxQueue c' = concat segs /\ peerFinSeen c' = true /\ reassembly c' = [] /\ state c' = tcpCloseWait.
Proof.
  intros (Hst & Hcl & Hn & Hq & Hre & Hf) Hw Hne Hlen Hs HD Hperm Hhs.
  apply (run_pending r0 (concat segs) HD order hs 0 segs c w); try done.
  - unfold pending. rewrite Hq, Hre, Hf, Hn. split; [lia|]. split; [lia|]. split; [done|].
    split; [done|]. destruct segs; [done|]. split; [f_equal; lia|]. split; [done|]. done.
  - unfold receiving. by rewrite Hf.
  - rewrite Hperm. apply (Forall_fmap re_payload (fun s => 0 < len s)). by rewrite cut_payload.
  - rewrite Hre. constructor.
Qed.

(** A client connection right after its handshake, and its peer's segments. *)
Definition sampleConn (r0 : Z) : TCP4Conn :=
  mkTCP4Conn [x0a; x00; x02; x0f] 49152 [x0a; x00; x02; x02] 80 tcpEstablished
    101 101 0 (u32 r0) TCP4DefaultWindow [] [] false false.
Definition dataHdr (sq : Z) (fin : bool) : TCP4Header :=
  mkTCP4Header 80 49152 sq 101 5 (if fin then 0x19 else 0x18) 65535 0 0.

Lemma tcp_stream_prefix_witness :
  let r0 := 2 ^ 32 - 3 in
  let evs := [Segment (dataHdr (u32 (r0 + 3)) true) (str "lo"); AppRead 10;
              Segment (dataHdr (u32 r0) false) (str "hel"); AppRead 4;
              Segment (dataHdr (u32 r0) false) (str "hel")] in
  exists rd c' w', runConn evs (sampleConn r0, []) = (Ok rd, (c', w')) /\
    (exists rest, rd ++ rxQueue c' ++ rest = str "hello").
Proof.
  intros r0 evs.
  destruct (tcp_stream_prefix r0 (str "hello") evs (sampleConn r0) [])
    as (rd & c' & w' & H1 & H2 & _); [done|done|done| |by exists rd, c', w'].
  assert (genuine r0 (str "hello") (u32 (r0 + 3)) (str "lo") true) as Hlo by (exists 3; done).
  assert (genuine r0 (str "hello") (u32 r0) (str "hel") false) as Hhel by (exists 0; done).
  unfold evs. repeat (apply Forall_cons; split); try done; by intros _.
Defined.

Lemma tcp_reassembly_complete_witness :
  let r0 := 2 ^ 32 - 3 in
  let segs := [str "GET "; str "/"; str " HTTP"] in
  let order := rev (cut r0 0 segs) in
  let hs := (fun e => dataHdr (re_seq e) (re_fin e)) <$> order in
  exists c' w',
    runConn (zip_with (fun h e => Segment h (re_payload e)) hs order) (sampleConn r0, []) = (Ok [], (c', w')) /\
    rxQueue c' = str "GET / HTTP" /\ state c' = tcpCloseWait.
Proof.
  intros r0 segs order hs.
  destruct (tcp_reassembly_complete r0 segs order hs (sampleConn r0) [])
    as (c' & w' & H1 & H2 & _ & _ & H3); try done.
  - cbn. lia.
  - by repeat (apply Forall_cons; split).
  - symmetry. apply Permutation_rev.
  - unfold hs, order, segs. by repeat (apply Forall2_cons; split).
  - exists c', w'. by rewrite H2.
Defined.

(** The transitions of RFC 793 this client implements, and the collapse on a
    reset. *)
Inductive tcpEdge : tcp4State -> tcp4State -> Prop :=
| edge_synack : tcpEdge tcpSynSent tcpEstablished
| edge_peer_fin : tcpEdge tcpEstablished tcpCloseWait
| edge_fin_acked : tcpEdge tcpFinWait1 tcpFinWait2
| edge_simultaneous : tcpEdge tcpFinWait1 tcpClosing
| edge_fin_acked_and_fin : tcpEdge tcpFinWait1 tcpTimeWait
| edge_fin_wait_2 : tcpEdge tcpFinWait2 tcpTimeWait
| edge_closing : tcpEdge tcpClosing tcpTimeWait
| edge_last_ack : tcpEdge tcpLastAck tcpClosed
| edge_reset s : tcpEdge s tcpClosed.

(** A received segment moves the connection along one edge of the state
    machine or leaves its state; a reset closes it and marks it closed; a
    closed connection does not change at all. *)
Theorem tcp_state_machine `{SegmentSink W} h payload c w :
  sinkInv w ->
  exists c' w', deliverSegment h payload (c, w) = (Ok tt, (c', w')) /\ sinkInv w' /\
    (state c' = state c \/ tcpEdge (state c) (state c')) /\
    (closed c = false -> hasFlag h TCPFlagRST = true -> state c' = tcpClosed /\ closed c' = true) /\
    (hasFlag h TCPFlagRST = false -> closed c' = closed c) /\
    (closed c = true -> c' = c).
Proof.
  intros Hw. destruct (deliverSegment_runs h payload c w Hw) as (w' & E & Hw').
  exists (deliver h payload c), w'. split; [done|]. split; [done|]. clear E.
  unfold deliver. destruct (closed c) eqn:Ec; [split; [by left|]; split; [done|]; by split|].
  destruct (hasFlag h TCPFlagRST); [by split; [right; constructor|]|].
  set (c1 := set_sndWnd (tcp_Window h) c).
  assert (state c1 = state c /\ closed c1 = false) as [<- Hc1] by done. clearbody c1.
  unfold deliverOpen.
  assert (forall ak sq fin, let c2 := (if seqGT ak (sndUna c1) then set_sndUna ak c1 else c1) in
    let c3 := (if (0 <? len payload) || fin then accept sq payload fin c2 else c2) in
    state c3 = state c1 /\ closed c3 = false) as Hf.
  { intros ak sq fin c2 c3. assert (state c2 = state c1 /\ closed c2 = false) as [H1 H2]
      by (subst c2; case_match; done).
    subst c3. case_match; [|done]. by destruct (accept_frame sq payload fin c2) as (-> & -> & _). }
  destruct (state c1) eqn:E.
  all: try (destruct (hasFlag h TCPFlagACK); [|by rewrite E; auto]).
  all: try (destruct (Hf (tcp_Ack h) (tcp_Seq h) (hasFlag h TCPFlagFIN)) as [H1 H2];
            unfold finTransitions; rewrite H1).
  all: repeat case_match; cbn in *; rewrite ?E, ?H1, ?H2 in *; try done;
       split_and!; auto using tcpEdge; try congruence; try (right; congruence || constructor).
Qed.

Lemma tcp_state_machine_witness :
  exists c' w', deliverSegment (dataHdr 7 true) (str "bye") (sampleConn 7, []) = (Ok tt, (c', w')) /\
    state c' = tcpCloseWait.
Proof.
  destruct (tcp_state_machine (W := list (Z * Z * Z * list byte)) (dataHdr 7 true) (str "bye")
              (sampleConn 7) [])
    as (c' & w' & E & _); [exact I|].
  exists c', w'. split; [exact E|]. vm_compute in E. by injection E as <- _.
Defined.

(** The handshake: a segment that is not a reset moves SYN_SENT to ESTABLISHED
    exactly when it has SYN and ACK set and acknowledges our SYN; then rcv.nxt
    is one past the peer's sequence number, snd.una is its acknowledgment, and
    one ACK with exactly those numbers is sent.  Any other segment changes only
    the peer's window and sends nothing. *)
Theorem tcp_handshake h payload c w :
  state c = tcpSynSent -> closed c = false -> hasFlag h TCPFlagRST = false ->
  deliverSegment h payload (c, w) =
  if hasFlag h TCPFlagSYN && hasFlag h TCPFlagACK && (tcp_Ack h =? sndNxt c)
  then (Ok tt, (mkTCP4Conn (localIP c) (localPort c) (remoteIP c) (remotePort c) tcpEstablished
                  (tcp_Ack h) (sndNxt c) (tcp_Window h) (u32 (tcp_Seq h + 1)) (rcvWnd c)
                  (rxQueue c) (reassembly c) (peerFinSeen c) false,
                w ++ [(TCPFlagACK, sndNxt c, u32 (tcp_Seq h + 1), [])]))
  else (Ok tt, (set_sndWnd (tcp_Window h) c, w)).
Proof.
  intros Hst Hcl Hrst. unfold deliverSegment, conn, update, sendAck. mrun.
  rewrite Hcl, Hrst. cbn [state set_sndWnd fst snd]. rewrite Hst.
  destruct (hasFlag h TCPFlagSYN), (hasFlag h TCPFlagACK); cbn [negb orb andb]; try done.
  cbn [sndNxt set_sndWnd]. destruct (tcp_Ack h =? sndNxt c); cbn [negb]; [|done].
  cbn. unfold set_state, set_sndUna, set_rcvNxt, set_sndWnd. cbn. by rewrite Hcl.
Qed.

Lemma tcp_handshake_witness :
  let c := set_state tcpSynSent (sampleConn 0) in
  let synack := mkTCP4Header 80 49152 7000 101 5 0x12 65535 0 0 in
  exists c' w', deliverSegment synack [] (c, []) = (Ok tt, (c', w')) /\
    state c' = tcpEstablished /\ rcvNxt c' = 7001 /\ w' = [(TCPFlagACK, 101, 7001, [])].
Proof.
  intros c synack. rewrite (tcp_handshake synack [] c [] eq_refl eq_refl eq_refl).
  eexists _, _. split; [reflexivity|]. done.
Defined.

(** Receive-side memory is bounded: the parking area never exceeds its eight
    entries, whatever arrives; and every segment that carries data or a FIN in
    a data state is answered with exactly one ACK, which acknowledges
    everything received in order so far. *)
Theorem tcp_accept_bounded_and_acked sq payload fin c w :
  (length (reassembly c) <= 8)%nat ->
  exists c', acceptSegmentLocked sq payload fin (c, w)
             = (Ok tt, (c', w ++ [(TCPFlagACK, sndNxt c', rcvNxt c', [])])) /\
    (length (reassembly c') <= 8)%nat /\ sndNxt c' = sndNxt c /\
    Forall (fun e => sq = rcvNxt c -> re_seq e <> rcvNxt c') (reassembly c').
Proof.
  intros Hl. exists (accept sq payload fin c).
  destruct (accept_frame sq payload fin c) as (_ & _ & Hs & _).
  split; [|split; [|split; [done|]]].
  - unfold acceptSegmentLocked, accept, conn, update, sendAck. mrun.
    destruct (sq =? rcvNxt c); [done|]. by destruct (seqGT _ _ && _).
  - unfold accept. case_match.
    + destruct (drainReassemblyLocked_done (mergeSegment payload fin c)) as [_ Hd].
      destruct (mergeSegment_frame payload fin c) as (_ & _ & Hr & _). rewrite Hr in Hd. lia.
    + case_match; [|done]. unfold TCP4ReassemblyDepth, len in *. cbn. rewrite length_app. cbn. lia.
  - unfold accept. destruct (Z.eqb_spec sq (rcvNxt c)) as [Heq|Hne]; [|by apply Forall_true; intros].
    eapply Forall_impl; [apply drainReassemblyLocked_done|]. by intros x Hx _.
Qed.

Lemma tcp_accept_bounded_and_acked_witness :
  exists c', acceptSegmentLocked 5 (str "x") false (sampleConn 5, [])
             = (Ok tt, (c', [(TCPFlagACK, 101, 6, [])])) /\ (length (reassembly c') <= 8)%nat.
Proof.
  destruct (tcp_accept_bounded_and_acked 5 (str "x") false (sampleConn 5) []) as (c' & E & Hb & _);
    [cbn; lia|].
  exists c'. split; [|exact Hb]. rewrite E. vm_compute in E. by injection E as <-.
Defined.
