(* ===== verification/Stack.v ===== *)
(** * The stack (uefiboard/ministack/stack.go, and the operations of udp4.go
    and tcp4.go that work on it)

    The stack's state is its link, ARP cache, route table and demultiplexing
    tables.  A Go pointer to a connection or to a ping waiter is a number; the
    connections themselves are in heaps, so that the demux table and the caller
    share them.  The receive goroutine's body is [rxLoopIter]; the pump loops
    run it inline. *)

From S2P Require Import Prelude NetIP Effects Ethernet IPv4 Icmp Udp Tcp Arp TcpConn.

(** ** State *)

Record udp4Datagram := mkDatagram {
  dg_SrcIP : IP;
  dg_SrcPort : Z;
  dg_Payload : list byte
}.

Definition udp4QueueDepth : Z := 16.

(** The queue is a channel of capacity [udp4QueueDepth]: its contents, oldest
    first, and whether it was closed. *)
Record UDP4Conn := mkUDP4Conn {
  u_localPort : Z;
  u_queue : list udp4Datagram;
  u_queueClosed : bool;
  u_closed : bool
}.

Record Stack (L : Type) := mkStack {
  st_link : L;
  st_arp : arpTable;
  st_route : RouteTable;
  st_pings : gmap Z nat;
  st_udp4Conns : gmap Z nat;
  st_tcp4Conns : gmap Z nat;
  st_rover : Z;
  st_ipID : Z;
  st_started : bool;
  st_closed : bool;
  st_waiters : gmap nat (list ICMPEcho);
  st_udp : gmap nat UDP4Conn;
  st_tcp : gmap nat TCP4Conn;
  st_fresh : nat
}.
Arguments mkStack {L}.
Arguments st_link {L}. Arguments st_arp {L}. Arguments st_route {L}. Arguments st_pings {L}.
Arguments st_udp4Conns {L}. Arguments st_tcp4Conns {L}. Arguments st_rover {L}.
Arguments st_ipID {L}. Arguments st_started {L}. Arguments st_closed {L}.
Arguments st_waiters {L}. Arguments st_udp {L}. Arguments st_tcp {L}. Arguments st_fresh {L}.

Section stack.
Context {L : Type} `{Link L}.

Abbreviation St := (Stack L).
Abbreviation StM A := (M (Stack L) A).

Definition set_net (t : arpTable) (l : L) (s : St) : St :=
  mkStack l t (st_route s) (st_pings s) (st_udp4Conns s) (st_tcp4Conns s) (st_rover s) (st_ipID s)
    (st_started s) (st_closed s) (st_waiters s) (st_udp s) (st_tcp s) (st_fresh s).
Definition set_route (r : RouteTable) (s : St) : St :=
  mkStack (st_link s) (st_arp s) r (st_pings s) (st_udp4Conns s) (st_tcp4Conns s) (st_rover s)
    (st_ipID s) (st_started s) (st_closed s) (st_waiters s) (st_udp s) (st_tcp s) (st_fresh s).
Definition set_pings (p : gmap Z nat) (w : gmap nat (list ICMPEcho)) (s : St) : St :=
  mkStack (st_link s) (st_arp s) (st_route s) p (st_udp4Conns s) (st_tcp4Conns s) (st_rover s)
    (st_ipID s) (st_started s) (st_closed s) w (st_udp s) (st_tcp s) (st_fresh s).
Definition set_udp (m : gmap Z nat) (h : gmap nat UDP4Conn) (s : St) : St :=
  mkStack (st_link s) (st_arp s) (st_route s) (st_pings s) m (st_tcp4Conns s) (st_rover s)
    (st_ipID s) (st_started s) (st_closed s) (st_waiters s) h (st_tcp s) (st_fresh s).
Definition set_tcp (m : gmap Z nat) (h : gmap nat TCP4Conn) (s : St) : St :=
  mkStack (st_link s) (st_arp s) (st_route s) (st_pings s) (st_udp4Conns s) m (st_rover s)
    (st_ipID s) (st_started s) (st_closed s) (st_waiters s) (st_udp s) h (st_fresh s).
Definition set_rover (r : Z) (s : St) : St :=
  mkStack (st_link s) (st_arp s) (st_route s) (st_pings s) (st_udp4Conns s) (st_tcp4Conns s) r
    (st_ipID s) (st_started s) (st_closed s) (st_waiters s) (st_udp s) (st_tcp s) (st_fresh s).
Definition set_ipID (v : Z) (s : St) : St :=
  mkStack (st_link s) (st_arp s) (st_route s) (st_pings s) (st_udp4Conns s) (st_tcp4Conns s)
    (st_rover s) v (st_started s) (st_closed s) (st_waiters s) (st_udp s) (st_tcp s) (st_fresh s).
Definition set_run (started closed : bool) (s : St) : St :=
  mkStack (st_link s) (st_arp s) (st_route s) (st_pings s) (st_udp4Conns s) (st_tcp4Conns s)
    (st_rover s) (st_ipID s) started closed (st_waiters s) (st_udp s) (st_tcp s) (st_fresh s).

(** A pointer to a new object. *)
Definition alloc : StM nat := fun s =>
  (Ok (st_fresh s),
   mkStack (st_link s) (st_arp s) (st_route s) (st_pings s) (st_udp4Conns s) (st_tcp4Conns s)
     (st_rover s) (st_ipID s) (st_started s) (st_closed s) (st_waiters s) (st_udp s) (st_tcp s)
     (S (st_fresh s))).

(** The cache and the link, for arp.go's functions. *)
Definition onArp {A} (m : M (arpTable * L) A) : StM A :=
  zoom (fun s => (st_arp s, st_link s)) (fun p s => set_net (fst p) (snd p) s) m.
Definition onStLink {A} (m : M L A) : StM A :=
  zoom st_link (fun l s => set_net (st_arp s) l s) m.

(** ** Construction and configuration *)

Definition New (link : L) : St :=
  mkStack link newARPTable emptyRoute ∅ ∅ ∅ 0 0 false false ∅ ∅ ∅ 0.

Definition SetIPv4Address (addr : IP) (mask : list byte) : StM unit :=
  s <- gets id ;;
  throw_if st_closed s with ErrStackClosed;;
  r <- lift (SetLocal (st_route s) addr mask) ;;
  modify (set_route r).

Definition SetDefaultGateway (gw : option IP) : StM unit :=
  s <- gets id ;;
  throw_if st_closed s with ErrStackClosed;;
  r <- lift (SetGateway (st_route s) gw) ;;
  modify (set_route r).

Definition LocalIPv4 : StM (option IP) := gets (fun s => rt_Local (st_route s)).

(** Start marks the stack started (and spawns the receive loop); Close is run
    once and marks it closed. *)
Definition Start : StM unit :=
  s <- gets id ;;
  if st_started s || st_closed s then ret tt else modify (set_run true (st_closed s)).

Definition Close : StM unit :=
  s <- gets id ;; modify (set_run (st_started s) true).

(** ** Sending *)

Definition nextIPID : StM Z :=
  i <- gets st_ipID ;; modify (set_ipID (u16 (i + 1))) ;;; ret i.

Definition sendIPv4Frame (finalDst : IP) (ipPkt : list byte) : StM unit :=
  s <- gets id ;;
  throw_if st_closed s with ErrStackClosed;;
  let srcMAC := MAC (st_link s) in
  nextHop <- lift (Lookup (st_route s) finalDst) ;;
  mac <- onArp (resolveARP srcMAC (rt_Local (st_route s)) nextHop) ;;
  frame <- lift (MarshalEthernet mac srcMAC EtherTypeIPv4 ipPkt) ;;
  onStLink (sendFrame frame).

Definition isLimitedBroadcast (ip : IP) : bool :=
  match ip with
  | [a; b; c; d] => (b2z a =? 0xFF) && (b2z b =? 0xFF) && (b2z c =? 0xFF) && (b2z d =? 0xFF)
  | _ => false
  end.

Definition zeroIP : IP := [x00; x00; x00; x00].

Definition sendUDP4 (srcPort dstPort : Z) (dst : IP) (payload : list byte) : StM unit :=
  match To4 dst with
  | None => throw ErrIPv4InvalidIP
  | Some d4 =>
      s <- gets id ;;
      throw_if st_closed s with ErrStackClosed;;
      let src := match rt_Local (st_route s) with Some a => a | None => zeroIP end in
      let srcMAC := MAC (st_link s) in
      udpBytes <- lift (MarshalUDP4 src d4 srcPort dstPort payload) ;;
      ipid <- nextIPID ;;
      ipPkt <- lift (MarshalIPv4 src d4 IPProtoUDP ipid udpBytes) ;;
      if isLimitedBroadcast d4 then
        frame <- lift (MarshalEthernet BroadcastMAC srcMAC EtherTypeIPv4 ipPkt) ;;
        onStLink (sendFrame frame)
      else sendIPv4Frame d4 ipPkt
  end.

(** ** UDP connections *)

(** An object of a heap: a dangling pointer would be a nil dereference. *)
Definition derefUDP (id : nat) : StM UDP4Conn :=
  c <- gets (fun s => st_udp s !! id) ;;
  match c with Some c => ret c | None => lift Panic end.
Definition storeUDP (id : nat) (c : UDP4Conn) : StM unit :=
  modify (fun s => set_udp (st_udp4Conns s) (<[id := c]> (st_udp s)) s).

(** [c.queue <- dg] in a select with a default: sent when there is room. *)
Definition trySend (dg : udp4Datagram) (q : list udp4Datagram) : option (list udp4Datagram) :=
  if len q <? udp4QueueDepth then Some (q ++ [dg]) else None.

Definition deliverUDP (id : nat) (dg : udp4Datagram) : StM unit :=
  c <- derefUDP id ;;
  if u_closed c then ret tt
  else if u_queueClosed c then lift Panic (* send on a closed channel *)
  else
    let q := match trySend dg (u_queue c) with
             | Some q => q
             | None =>
                 let q := tl (u_queue c) in
                 match trySend dg q with Some q => q | None => q end
             end in
    storeUDP id (mkUDP4Conn (u_localPort c) q (u_queueClosed c) (u_closed c)).

Definition OpenUDP4 (port : Z) : StM nat :=
  s <- gets id ;;
  throw_if st_closed s with ErrStackClosed;;
  match st_udp4Conns s !! port with
  | Some _ => throw ErrUDP4PortInUse
  | None =>
      p <- alloc ;;
      storeUDP p (mkUDP4Conn port [] false false) ;;;
      modify (fun s => set_udp (<[port := p]> (st_udp4Conns s)) (st_udp s) s) ;;;
      ret p
  end.

Definition releaseUDP4 (port : Z) : StM unit :=
  modify (fun s => set_udp (delete port (st_udp4Conns s)) (st_udp s) s).

Definition CloseUDP (id : nat) : StM unit :=
  c <- derefUDP id ;;
  if u_closed c then ret tt
  else
    storeUDP id (mkUDP4Conn (u_localPort c) (u_queue c) (u_queueClosed c) true) ;;;
    releaseUDP4 (u_localPort c) ;;;
    c <- derefUDP id ;;
    if u_queueClosed c then lift Panic (* close of a closed channel *)
    else storeUDP id (mkUDP4Conn (u_localPort c) (u_queue c) true (u_closed c)).

(** [dst] is the address of a [*net.UDPAddr]. *)
Definition WriteTo (id : nat) (payload : list byte) (dst : IP) (port : Z) : StM unit :=
  match To4 dst with
  | None => throw ErrUDP4InvalidAddr
  | Some d4 =>
      c <- derefUDP id ;;
      throw_if u_closed c with ErrUDP4ConnClosed;;
      sendUDP4 (u_localPort c) (u16 port) d4 payload
  end.

Definition handleUDP4 (h : IPv4Header) (body : list byte) : StM unit :=
  r <- lift (ParseUDP4 (ip_Src h) (ip_Dst h) body) ;;
  let '(uh, payload) := r in
  s <- gets id ;;
  match st_udp4Conns s !! udp_DstPort uh with
  | None => ret tt
  | Some p =>
      let src := match To4 (ip_Src h) with Some a => a | None => [] end in
      deliverUDP p (mkDatagram src (udp_SrcPort uh) payload)
  end.

(** ** ICMP *)

Definition pingKey (ident sequ : Z) : Z := Z.lor (u32 (Z.shiftl ident 16)) sequ.

Definition handleICMP (h : IPv4Header) (body : list byte) : StM unit :=
  msg <- lift (ParseICMPEcho body) ;;
  if icmp_Type msg =? ICMPTypeEchoReply then
    let key := pingKey (icmp_Identifier msg) (icmp_Sequence msg) in
    s <- gets id ;;
    match st_pings s !! key with
    | None => ret tt
    | Some w =>
        modify (fun s => set_pings (delete key (st_pings s)) (st_waiters s) s) ;;;
        s <- gets id ;;
        match st_waiters s !! w with
        | None => lift Panic
        | Some ch => if len ch <? 1 then modify (fun s => set_pings (st_pings s) (<[w := ch ++ [msg]]> (st_waiters s)) s)
                     else ret tt
        end
    end
  else if icmp_Type msg =? ICMPTypeEchoRequest then
    ipid <- nextIPID ;;
    reply <- lift (buildEchoReplyPacket (ip_Dst h) (ip_Src h) ipid (icmp_Identifier msg)
                     (icmp_Sequence msg) (icmp_Payload msg)) ;;
    sendIPv4Frame (ip_Src h) reply
  else ret tt.

(** ** TCP demultiplexing *)

Definition sendSegmentSt (c : TCP4Conn) (flags sq ak : Z) (payload : list byte) : StM unit :=
  seg <- lift (MarshalTCP4 (localIP c) (remoteIP c) (localPort c) (remotePort c) sq ak flags (rcvWnd c) payload) ;;
  ipid <- nextIPID ;;
  ipPkt <- lift (MarshalIPv4 (localIP c) (remoteIP c) IPProtoTCP ipid seg) ;;
  sendIPv4Frame (remoteIP c) ipPkt.
End stack.
#[global] Arguments sendIPv4Frame : simpl never.
#[global] Arguments sendUDP4 : simpl never.
#[global] Arguments sendSegmentSt : simpl never.
#[global] Arguments deliverUDP : simpl never.
#[global] Arguments handleUDP4 : simpl never.
#[global] Arguments handleICMP : simpl never.

(** ** The stack invariant *)

Section stack_inv.
Context {L : Type} `{Link L}.

Definition udpConnOk (c : UDP4Conn) : Prop :=
  (length (u_queue c) <= 16)%nat /\ (u_queueClosed c = true -> u_closed c = true).

(** The cache is well formed; a demux table entry points to an open connection
    bound to that port, and every open connection is in the table; receive queues respect their capacity, and a closed
    queue belongs to a closed connection; a pending ping has its channel;
    pointers from [st_fresh] on are unused; the IP identifier is 16 bits, the port rover
    below its modulus. *)
Record stackInv (s : Stack L) : Prop := mkStackInv {
  inv_arp : arpOk (st_arp s);
  inv_udpPorts : map_Forall (fun port p => exists c, st_udp s !! p = Some c /\
                   u_localPort c = port /\ u_closed c = false) (st_udp4Conns s);
  inv_udpBound : map_Forall (fun p c => u_closed c = false ->
                   st_udp4Conns s !! u_localPort c = Some p) (st_udp s);
  inv_udp : map_Forall (fun _ c => udpConnOk c) (st_udp s);
  inv_tcpPorts : map_Forall (fun port p => exists c, st_tcp s !! p = Some c /\
                   localPort c = port) (st_tcp4Conns s);
  inv_pings : map_Forall (fun _ w => is_Some (st_waiters s !! w)) (st_pings s);
  inv_fresh : forall p, (st_fresh s <= p)%nat ->
                st_udp s !! p = None /\ st_tcp s !! p = None /\ st_waiters s !! p = None;
  inv_ipID : isU16 (st_ipID s);
  inv_rover : 0 <= st_rover s < 16383
}.

Lemma New_inv link : stackInv (New link).
Proof.
  by constructor; cbn; try apply map_Forall_empty.
Qed.

Lemma set_net_inv t l s : stackInv s -> arpOk t -> stackInv (set_net t l s).
Proof. intros [] ?. by constructor. Qed.
Lemma set_route_inv r s : stackInv s -> stackInv (set_route r s).
Proof. intros []. by constructor. Qed.
Lemma set_run_inv a b s : stackInv s -> stackInv (set_run a b s).
Proof. intros []. by constructor. Qed.
Lemma set_rover_inv r s : stackInv s -> 0 <= r < 16383 -> stackInv (set_rover r s).
Proof. intros [] ?. by constructor. Qed.
Lemma set_ipID_inv v s : stackInv s -> isU16 v -> stackInv (set_ipID v s).
Proof. intros [] ?. by constructor. Qed.

Lemma onArp_keep {A} (m : M (arpTable * L) A) : keep arpInv m -> keep stackInv (onArp m).
Proof.
  intros Hm. apply (keep_zoom _ arpInv); [done|by intros s []|].
  intros s [t l] Hs Ht. by apply set_net_inv.
Qed.

Lemma onStLink_send_keep frame : keep stackInv (onStLink (sendFrame frame)).
Proof.
  intros s Hs. unfold onStLink, zoom. pose proof (sendFrame_safe frame (st_link s)) as Hp.
  destruct (sendFrame frame (st_link s)) as [r l]. split; [done|]. split; [|done].
  apply set_net_inv; [done|apply Hs].
Qed.
Lemma onStLink_recv_keep : keep stackInv (onStLink recvFrame).
Proof.
  intros s Hs. unfold onStLink, zoom. pose proof (recvFrame_safe (st_link s)) as Hp.
  destruct (recvFrame (st_link s)) as [r l]. split; [done|]. split; [|done].
  apply set_net_inv; [done|apply Hs].
Qed.

Lemma nextIPID_keeps : keeps stackInv nextIPID (fun i _ => isU16 i).
Proof.
  unfold nextIPID. apply keeps_bind with isU16; [apply keeps_gets; by intros s []|].
  intros i Hi. apply keep_bind; [apply keeps_modify; intros; apply set_ipID_inv; auto|].
  intros _ s Hs. by apply ends_ok.
Qed.
Lemma nextIPID_keep : keep stackInv nextIPID.
Proof. eapply keep_of, nextIPID_keeps. Qed.

Lemma Lookup_safe r dst : safe (Lookup r dst).
Proof. unfold Lookup. repeat case_match; done. Qed.
Lemma SetLocal_safe r a m : safe (SetLocal r a m).
Proof. unfold SetLocal. repeat case_match; done. Qed.
Lemma SetGateway_safe r g : safe (SetGateway r g).
Proof. unfold SetGateway. repeat case_match; done. Qed.
#[local] Hint Resolve Lookup_safe SetLocal_safe SetGateway_safe MarshalEthernet_safe : gosafe.
#[local] Hint Resolve onStLink_send_keep onStLink_recv_keep nextIPID_keep : gokeep.

Lemma sendIPv4Frame_keep dst pkt : keep stackInv (sendIPv4Frame dst pkt).
Proof.
  unfold sendIPv4Frame. go_keep. apply onArp_keep. eapply keep_of, resolveARP_keeps.
Qed.
#[local] Hint Resolve sendIPv4Frame_keep : gokeep.

Lemma sendUDP4_keep sp dp dst payload : keep stackInv (sendUDP4 sp dp dst payload).
Proof. unfold sendUDP4. go_keep. Qed.

Lemma sendSegmentSt_keep c flags sq ak payload : keep stackInv (sendSegmentSt c flags sq ak payload).
Proof. unfold sendSegmentSt. go_keep. Qed.

Lemma SetIPv4Address_keep a m : keep stackInv (SetIPv4Address a m).
Proof. unfold SetIPv4Address. go_keep. apply keeps_modify. intros. by apply set_route_inv. Qed.
Lemma SetDefaultGateway_keep g : keep stackInv (SetDefaultGateway g).
Proof. unfold SetDefaultGateway. go_keep. apply keeps_modify. intros. by apply set_route_inv. Qed.
Lemma Start_keep : keep stackInv Start.
Proof. unfold Start. go_keep. apply keeps_modify. intros. by apply set_run_inv. Qed.
Lemma Close_keep : keep stackInv Close.
Proof. unfold Close. go_keep. apply keeps_modify. intros. by apply set_run_inv. Qed.

(** *** UDP *)

Lemma derefUDP_keeps p :
  keeps (fun s => stackInv s /\ is_Some (st_udp s !! p)) (derefUDP p)
    (fun c s => st_udp s !! p = Some c).
Proof.
  intros s [Hs [c Hc]]. unfold derefUDP. mrun. rewrite Hc. by apply ends_ok.
Qed.

(** Replacing the contents of a connection's queue. *)
Lemma storeUDP_queue_inv s p c q :
  stackInv s -> st_udp s !! p = Some c -> (length q <= 16)%nat ->
  stackInv (set_udp (st_udp4Conns s)
              (<[p := mkUDP4Conn (u_localPort c) q (u_queueClosed c) (u_closed c)]> (st_udp s)) s).
Proof.
  intros [Ha Hup Hub Hu Ht Hp Hf Hi Hrv] Hc Hq. constructor; try done.
  - intros port p' Hp'. destruct (Hup port p' Hp') as (c' & Hc' & Hl & Hcl). cbn.
    destruct (decide (p' = p)) as [->|Hne].
    + rewrite lookup_insert_eq. rewrite Hc in Hc'. injection Hc' as <-. eexists. eauto.
    + rewrite lookup_insert_ne by done. eauto.
  - apply map_Forall_insert_2; [|done]. cbn. by apply (Hub p c Hc).
  - apply map_Forall_insert_2; [|done]. split; [done|]. cbn. by apply (Hu p c Hc).
  - intros p' Hp'. destruct (Hf p' Hp') as (Hn & ? & ?). cbn. split; [|done].
    rewrite lookup_insert_ne; [done|]. intros ->. by rewrite Hc in Hn.
Qed.

Lemma trySend_spec dg q :
  trySend dg q = if (length q <? 16)%nat then Some (q ++ [dg]) else None.
Proof.
  unfold trySend, udp4QueueDepth, len. destruct (Nat.ltb_spec (length q) 16);
    [rewrite (proj2 (Z.ltb_lt _ _)) by lia|rewrite (proj2 (Z.ltb_ge _ _)) by lia]; done.
Qed.

(** The queue after a delivery: the last sixteen datagrams. *)
Definition lastN {A} (n : nat) (l : list A) : list A := drop (length l - n) l.

Lemma deliverUDP_queue (s : Stack L) p c dg :
  st_udp s !! p = Some c -> u_closed c = false -> udpConnOk c ->
  deliverUDP p dg s
  = (Ok tt, set_udp (st_udp4Conns s)
       (<[p := mkUDP4Conn (u_localPort c) (lastN 16 (u_queue c ++ [dg])) (u_queueClosed c) (u_closed c)]> (st_udp s)) s).
Proof.
  intros Hc Hcl [Hq Hqc]. unfold deliverUDP, derefUDP, storeUDP. mrun. rewrite Hc. rewrite Hcl.
  destruct (u_queueClosed c); [by specialize (Hqc eq_refl); rewrite Hcl in Hqc|].
  do 4 f_equal. rewrite trySend_spec. unfold lastN. rewrite length_app. cbn [length].
  destruct (Nat.ltb_spec (length (u_queue c)) 16).
  - replace (length (u_queue c) + 1 - 16)%nat with 0%nat by lia. done.
  - rewrite trySend_spec. destruct (u_queue c) as [|d q]; [cbn in *; lia|]. cbn [tl length app] in *.
    replace (length q <? 16)%nat with true by (symmetry; apply Nat.ltb_lt; lia).
    replace (S (length q) + 1 - 16)%nat with 1%nat by lia. done.
Qed.

Lemma deliverUDP_ends s p dg : stackInv s -> is_Some (st_udp s !! p) -> ends stackInv (fun _ _ => True) (deliverUDP p dg s).
Proof.
  intros Hs [c Hc]. pose proof (inv_udp _ Hs _ _ Hc) as Hok.
  destruct (u_closed c) eqn:Hcl.
  - unfold deliverUDP, derefUDP. mrun. rewrite Hc, Hcl. by apply ends_ok.
  - rewrite (deliverUDP_queue s p c dg) by done. apply ends_ok; [|done].
    apply storeUDP_queue_inv; [done..|]. unfold lastN. rewrite length_drop, length_app. cbn. lia.
Qed.

Lemma handleUDP4_keep h body : keep stackInv (handleUDP4 h body).
Proof.
  unfold handleUDP4. apply keep_bind; [go_keep|]. intros [uh payload].
  intros s Hs. unfold bind, gets. cbn. destruct (st_udp4Conns s !! udp_DstPort uh) as [p|] eqn:E;
    [|by apply ends_ok].
  apply deliverUDP_ends; [done|]. destruct (inv_udpPorts _ Hs _ _ E) as (c & -> & _). done.
Qed.

Lemma handleICMP_keep h body : keep stackInv (handleICMP h body).
Proof.
  unfold handleICMP. apply keep_bind; [go_keep|]. intros msg. apply keep_if; [|go_keep].
  intros _ s Hs. mrun. unfold id.
  destruct (st_pings s !! pingKey (icmp_Identifier msg) (icmp_Sequence msg)) as [w|] eqn:E; [|by apply ends_ok].
  destruct (inv_pings _ Hs _ _ E) as [ch Hch]. destruct Hs as [Ha Hup Hub Hu Ht Hp Hf Hi Hrv].
  cbn [st_waiters set_pings]. rewrite Hch.
  destruct (len ch <? 1); apply ends_ok; try done; constructor; try done; cbn.
  - intros k w' [_ Hw]%lookup_delete_Some. destruct (decide (w' = w)) as [->|].
    + rewrite lookup_insert_eq. eauto.
    + rewrite lookup_insert_ne by done. by apply (Hp k w').
  - intros p Hpf. destruct (Hf p Hpf) as (? & ? & Hn). split; [done|]. split; [done|].
    rewrite lookup_insert_ne; [done|]. intros ->. by rewrite Hch in Hn.
  - intros k w' [_ Hw]%lookup_delete_Some. by apply (Hp k w').
Qed.

Lemma OpenUDP4_keeps port :
  keeps stackInv (OpenUDP4 port)
    (fun p s => st_udp4Conns s !! port = Some p /\ st_udp s !! p = Some (mkUDP4Conn port [] false false)).
Proof.
  intros s Hs. unfold OpenUDP4, storeUDP, alloc. mrun. unfold id.
  destruct (st_closed s); [by apply ends_err|].
  destruct (st_udp4Conns s !! port) eqn:E; [by apply ends_err|].
  destruct Hs as [Ha Hup Hub Hu Ht Hp Hf Hi Hrv]. destruct (Hf (st_fresh s) ltac:(lia)) as (Hnu & Hnt & Hnw).
  apply ends_ok; cbn; [|by split; rewrite lookup_insert_eq].
  constructor; cbn; try done.
  - apply map_Forall_insert_2; [by rewrite lookup_insert_eq; eauto|].
    intros port' p' Hp'. destruct (Hup port' p' Hp') as (c & Hc & ?).
    rewrite lookup_insert_ne; [by eauto|]. intros <-. by rewrite Hnu in Hc.
  - apply map_Forall_insert_2; [by rewrite lookup_insert_eq|]. intros p c Hc Hcl.
    specialize (Hub p c Hc Hcl). rewrite lookup_insert_ne; [done|]. intros ->. by rewrite E in Hub.
  - apply map_Forall_insert_2; [|done]. split; [cbn; lia|done].
  - intros p Hpf. destruct (Hf p ltac:(lia)) as (? & ? & ?). rewrite lookup_insert_ne by lia. done.
Qed.

Lemma CloseUDP_ends s p :
  stackInv s -> is_Some (st_udp s !! p) -> ends stackInv (fun _ _ => True) (CloseUDP p s).
Proof.
  intros Hs [c Hc]. unfold CloseUDP, derefUDP, storeUDP, releaseUDP4. mrun. rewrite Hc.
  destruct (u_closed c) eqn:Hcl; [by apply ends_ok|].
  pose proof (inv_udpBound _ Hs _ _ Hc Hcl) as Hport.
  cbn [set_udp st_udp st_udp4Conns]. rewrite lookup_insert_eq. cbn [u_queueClosed u_localPort u_queue u_closed].
  pose proof (inv_udp _ Hs _ _ Hc) as [Hq Hqc].
  destruct (u_queueClosed c) eqn:Eq; [by specialize (Hqc eq_refl); rewrite Hcl in Hqc|].
  destruct Hs as [Ha Hup Hub Hu Ht Hp Hf Hi Hrv]. apply ends_ok; [|done].
  constructor; cbn; rewrite ?insert_insert_eq; try done.
  - intros port p' [Hne Hp']%lookup_delete_Some. destruct (Hup port p' Hp') as (c' & Hc' & Hl & Hcl').
    rewrite lookup_insert_ne; [by eauto|]. intros ->. rewrite Hc in Hc'. injection Hc' as <-. by subst.
  - intros p' c' [[<- <-]|[Hne Hc']]%lookup_insert_Some Hcl'; [done|]. specialize (Hub p' c' Hc' Hcl').
    destruct (decide (u_localPort c' = u_localPort c)) as [El|El]; [|by rewrite lookup_delete_ne].
    rewrite El, Hport in Hub. injection Hub as <-. done.
  - apply map_Forall_insert_2; [|done]. split; [done|done].
  - intros p' Hpf. destruct (Hf p' Hpf) as (Hn & ? & ?). rewrite lookup_insert_ne; [done|].
    intros ->. by rewrite Hc in Hn.
Qed.
End stack_inv.
#[export] Hint Resolve onStLink_send_keep onStLink_recv_keep nextIPID_keep sendIPv4Frame_keep
  sendUDP4_keep sendSegmentSt_keep handleUDP4_keep handleICMP_keep : gokeep.
#[export] Hint Resolve Lookup_safe : gosafe.

(** The stack is the sink of its connections. *)
#[global] Instance stackSink `{Link L} : SegmentSink (Stack L) := {
  sinkInv := stackInv;
  sendSegment := sendSegmentSt;
  sendSegment_keep := sendSegmentSt_keep
}.

(** ** What sending leaves alone *)

Section stack_frames.
Context {L : Type} `{Link L}.

(** Everything of the stack but the link, the cache, the route and the IP
    identifier. *)
Definition connState (s : Stack L) :=
  (st_pings s, st_udp4Conns s, st_tcp4Conns s, (st_waiters s, st_udp s, st_tcp s, st_fresh s),
   (st_started s, st_closed s, st_rover s, st_route s)).

Lemma onArp_frame {A} (m : M (arpTable * L) A) : frames connState (onArp m).
Proof. unfold onArp. go_frame. Qed.
Lemma onStLink_frame {A} (m : M L A) : frames connState (onStLink m).
Proof. unfold onStLink. go_frame. Qed.
#[local] Hint Resolve onArp_frame onStLink_frame : goframe.
Lemma nextIPID_frame : frames connState (@nextIPID L).
Proof. unfold nextIPID. go_frame. Qed.
#[local] Hint Resolve nextIPID_frame : goframe.
Lemma sendIPv4Frame_frame dst pkt : frames connState (sendIPv4Frame dst pkt).
Proof. unfold sendIPv4Frame. go_frame. Qed.
#[local] Hint Resolve sendIPv4Frame_frame : goframe.
Lemma sendSegmentSt_frame c flags sq ak payload : frames connState (sendSegmentSt c flags sq ak payload).
Proof. unfold sendSegmentSt. go_frame. Qed.
Lemma sendUDP4_frame sp dp dst payload : frames connState (sendUDP4 sp dp dst payload).
Proof. unfold sendUDP4. go_frame. Qed.
End stack_frames.
#[export] Hint Resolve onArp_frame onStLink_frame nextIPID_frame sendIPv4Frame_frame
  sendSegmentSt_frame sendUDP4_frame : goframe.
