(* ===== verification/StackTcp.v ===== *)
(** * Receiving, pumping and TCP on the stack (uefiboard/ministack/stack.go,
    udp4.go, tcp4.go)

    The frame dispatcher, and the operations that wait by pumping it: ReadFrom,
    PingOnce, and Dial, Read, Write and Close of a TCP connection.  Timeouts are
    those of the tamago build: a cap on pump iterations. *)

From S2P Require Import Prelude NetIP Effects Ethernet IPv4 Icmp Udp Tcp Arp TcpConn Stack.

Section tcp.
Context {L : Type} `{Link L}.
Abbreviation StM A := (M (Stack L) A).

(** ** Connections in the heap *)

Definition derefTCP (p : nat) : StM TCP4Conn :=
  c <- gets (fun s => st_tcp s !! p) ;;
  match c with Some c => ret c | None => lift Panic end.
Definition storeTCP (p : nat) (c : TCP4Conn) : StM unit :=
  modify (fun s => set_tcp (st_tcp4Conns s) (<[p := c]> (st_tcp s)) s).

(** A critical section of the connection: its fields are taken, the operation
    runs, and they are put back. *)
Definition onConn {A} (p : nat) (m : M (TCP4Conn * Stack L) A) : StM A := fun s =>
  match st_tcp s !! p with
  | None => (Panic, s)
  | Some c =>
      let '(r, (c', s')) := m (c, s) in
      (r, set_tcp (st_tcp4Conns s') (<[p := c']> (st_tcp s')) s')
  end.

Definition sendSegmentExt (p : nat) (flags sq ak : Z) (payload : list byte) : StM unit :=
  c <- derefTCP p ;; sendSegmentSt c flags sq ak payload.

(** ** Dispatch *)

Definition handleTCP4 (h : IPv4Header) (body : list byte) : StM unit :=
  let tcpLen := ip_TotalLen h - IPv4HeaderLen in
  if tcpLen <? 0 then ret tt
  else if len body <? tcpLen then ret tt
  else
    body <- lift (sliceTo body tcpLen) ;;
    r <- lift (ParseTCP4 (ip_Src h) (ip_Dst h) body) ;;
    let '(th, payload) := r in
    s <- gets id ;;
    match st_tcp4Conns s !! tcp_DstPort th with
    | None => ret tt
    | Some p =>
        c <- derefTCP p ;;
        if negb (IP_Equal (remoteIP c) (ip_Src h)) || negb (remotePort c =? tcp_SrcPort th) then ret tt
        else onConn p (deliverSegment th payload)
    end.

Definition handleARP (payload : list byte) : StM unit :=
  s <- gets id ;;
  onArp (handleARPFrame (MAC (st_link s)) (rt_Local (st_route s)) payload).

Definition handleIPv4 (payload : list byte) : StM unit :=
  r <- lift (ParseIPv4 payload) ;;
  let '(h, body) := r in
  if ip_Protocol h =? IPProtoICMP then handleICMP h body
  else if ip_Protocol h =? IPProtoUDP then handleUDP4 h body
  else if ip_Protocol h =? IPProtoTCP then handleTCP4 h body
  else ret tt.

Definition dispatch (frame : list byte) : StM unit :=
  eth <- lift (ParseEthernet frame) ;;
  if eth_EtherType eth =? EtherTypeARP then handleARP (eth_Payload eth)
  else if eth_EtherType eth =? EtherTypeIPv4 then handleIPv4 (eth_Payload eth)
  else ret tt.

(** One frame from the link, dispatched: the step every pump loop and the
    receive goroutine share. *)
Definition rxLoopIter : StM unit :=
  rx <- try (onStLink recvFrame) ;;
  match rx with
  | inr _ => ret tt
  | inl frame => ignore (dispatch frame)
  end.

(** ** UDP and ICMP callers *)

(** [buf] is the length of the caller's buffer; the result is the bytes copied
    and the sender. *)
Definition readFromIter (p : nat) (buf : nat) : StM (option (list byte * (IP * Z))) :=
  c <- derefUDP p ;;
  match u_queue c with
  | dg :: q =>
      storeUDP p (mkUDP4Conn (u_localPort c) q (u_queueClosed c) (u_closed c)) ;;;
      ret (Some (take buf (dg_Payload dg), (dg_SrcIP dg, dg_SrcPort dg)))
  | [] =>
      if u_queueClosed c then throw ErrUDP4ConnClosed
      else rxLoopIter ;;; ret None
  end.

Definition ReadFrom (p : nat) (buf : nat) : StM (list byte * (IP * Z)) :=
  c <- derefUDP p ;;
  throw_if u_closed c with ErrUDP4ConnClosed;;
  pump (readFromIter p buf) (throw ErrUDP4ReadTimeout).

Definition pingIdent : Z := 0x4D53.

Definition pingCleanup (key : Z) : StM unit :=
  modify (fun s => set_pings (delete key (st_pings s)) (st_waiters s) s).

Definition pingIter (key : Z) (w : nat) : StM (option unit) :=
  s <- gets id ;;
  match st_waiters s !! w with
  | None => lift Panic
  | Some (_ :: ch) =>
      modify (fun s => set_pings (st_pings s) (<[w := ch]> (st_waiters s)) s) ;;; ret (Some tt)
  | Some [] =>
      if st_closed s then pingCleanup key ;;; throw ErrStackClosed
      else rxLoopIter ;;; ret None
  end.

(** A call whose error is returned after the cleanup. *)
Definition orCleanup {A} (key : Z) (m : StM A) : StM A :=
  r <- try m ;;
  match r with inl a => ret a | inr e => pingCleanup key ;;; throw e end.

Definition PingOnce (dst : IP) (payload : list byte) : StM unit :=
  match To4 dst with
  | None => throw ErrIPv4InvalidIP
  | Some dst4 =>
      s <- gets id ;;
      throw_if st_closed s with ErrStackClosed;;
      match rt_Local (st_route s) with
      | None => throw ErrNoLocalIPv4
      | Some src =>
          sequ <- nextIPID ;;
          let key := pingKey pingIdent sequ in
          w <- alloc ;;
          modify (fun s => set_pings (<[key := w]> (st_pings s)) (<[w := []]> (st_waiters s)) s) ;;;
          ipid <- nextIPID ;;
          pkt <- orCleanup key (lift (buildEchoRequestPacket src dst4 ipid pingIdent sequ payload)) ;;
          orCleanup key (sendIPv4Frame dst4 pkt) ;;;
          pump (pingIter key w) (pingCleanup key ;;; throw ErrPingTimeout)
      end
  end.

(** [defer conn.Close()] around the rest of a function. *)
Definition withUDP {A} (p : nat) (m : StM A) : StM A :=
  r <- try m ;;
  ignore (CloseUDP p) ;;;
  lift (ofSum r).

(** ** TCP callers *)

Definition readIter (p : nat) (buf : nat) : StM (option (list byte)) :=
  c <- derefTCP p ;;
  match rxQueue c with
  | _ :: _ => b <- onConn p (readQueue buf) ;; ret (Some b)
  | [] =>
      if peerFinSeen c then throw ErrTCP4PeerClosed
      else if closed c then throw ErrTCP4ConnClosed
      else rxLoopIter ;;; ret None
  end.

Definition Read (p : nat) (buf : nat) : StM (list byte) :=
  c <- derefTCP p ;;
  throw_if closed c with ErrTCP4ConnClosed;;
  pump (readIter p buf) (throw ErrTCP4Timeout).

(** The wait for an acknowledgment: two checkers, one for the whole call and
    one per attempt. *)
Fixpoint awaitAck (fuel : nat) (overall perAttempt : deadlineChecker) (retransmits : Z)
  (p : nat) (flags sq ak : Z) (segment : list byte) (wantAck : Z) : StM unit :=
  if dc_expired overall then throw ErrTCP4Timeout else
  match fuel with
  | O => throw (ErrOther 0)
  | S f =>
      c <- derefTCP p ;;
      if closed c then throw ErrTCP4ConnClosed
      else if negb (seqLT (sndUna c) wantAck) then ret tt
      else
        pr <- (if dc_expired perAttempt then
                 throw_if TCP4MaxRetransmits <? retransmits + 1 with ErrTCP4Timeout;;
                 sendSegmentExt p flags sq ak segment ;;;
                 ret (newDeadlineChecker, retransmits + 1)
               else ret (perAttempt, retransmits)) ;;
        rxLoopIter ;;;
        awaitAck f (dc_tick overall) (dc_tick (fst pr)) (snd pr) p flags sq ak segment wantAck
  end.

Definition sendAndAwaitAck (p : nat) (segment : list byte) : StM unit :=
  c <- derefTCP p ;;
  let sq := sndNxt c in
  let wantAck := u32 (sndNxt c + u32 (len segment)) in
  let ak := rcvNxt c in
  storeTCP p (set_sndNxt wantAck c) ;;;
  let flags := Z.lor TCPFlagACK TCPFlagPSH in
  sendSegmentExt p flags sq ak segment ;;;
  awaitAck (Z.to_nat maxPumpIters) newDeadlineChecker newDeadlineChecker 0 p flags sq ak segment wantAck.

(** The segments Write cuts its argument into. *)
Fixpoint writeLoop (fuel : nat) (p : nat) (data : list byte) (written : Z) : StM (Z * option error) :=
  if len data <=? written then ret (written, None) else
  match fuel with
  | O => throw (ErrOther 0)
  | S f =>
      let e := if len data <? written + TCP4DefaultMSS then len data else written + TCP4DefaultMSS in
      segment <- lift (slice data written e) ;;
      r <- try (sendAndAwaitAck p segment) ;;
      match r with
      | inr err => ret (written, Some err)
      | inl _ => writeLoop f p data e
      end
  end.

(** The number of bytes written, and the error of the segment that failed. *)
Definition Write (p : nat) (data : list byte) : StM (Z * option error) :=
  c <- derefTCP p ;;
  if closed c || negb (bool_decide (state c = tcpEstablished) || bool_decide (state c = tcpCloseWait))
  then ret (0, Some ErrTCP4ConnClosed)
  else writeLoop (Z.to_nat (len data / TCP4DefaultMSS + 1)) p data 0.

Definition releaseTCP4 (port : Z) : StM unit :=
  modify (fun s => set_tcp (delete port (st_tcp4Conns s)) (st_tcp s) s).

Definition closeIter (p : nat) : StM (option unit) :=
  c <- derefTCP p ;;
  if bool_decide (state c = tcpClosed) || bool_decide (state c = tcpTimeWait) then ret (Some tt)
  else rxLoopIter ;;; ret None.

Definition sendFin (p : nat) (c : TCP4Conn) (st : tcp4State) : StM unit :=
  storeTCP p (set_state st (set_sndNxt (u32 (sndNxt c + 1)) c)) ;;;
  ignore (sendSegmentExt p (Z.lor TCPFlagFIN TCPFlagACK) (sndNxt c) (rcvNxt c) []).

Definition CloseTCP (p : nat) : StM unit :=
  c <- derefTCP p ;;
  if closed c then ret tt
  else
    match state c with
    | tcpEstablished => sendFin p c tcpFinWait1
    | tcpCloseWait => sendFin p c tcpLastAck
    | _ => ret tt
    end ;;;
    pump (closeIter p) (ret tt) ;;;
    c <- derefTCP p ;;
    storeTCP p (set_state tcpClosed (set_closed true c)) ;;;
    releaseTCP4 (localPort c).

(** ** Dialing *)

(** The scan over 1024 candidate ports, in uint16 arithmetic. *)
Fixpoint portScan (n : nat) (i : Z) (s : Stack L) : out Z * Stack L :=
  match n with
  | O => (Err ErrTCP4PortInUse, s)
  | S n' =>
      let p := u16 (49152 + u16 (st_rover s + i) mod (16383 - 1)) in
      match st_tcp4Conns s !! p with
      | None => (Ok p, set_rover (u16 (st_rover s + i + 1) mod 16383) s)
      | Some _ => portScan n' (i + 1) s
      end
  end.

Definition allocTCP4Port : StM Z :=
  s <- gets id ;;
  throw_if st_closed s with ErrStackClosed;;
  portScan 1024 0.

Definition registerTCP4 (p : nat) (c : TCP4Conn) : StM unit :=
  modify (fun s => set_tcp (<[localPort c := p]> (st_tcp4Conns s)) (<[p := c]> (st_tcp s)) s).

Definition dialIter (p : nat) (port : Z) : StM (option (nat + error)) :=
  c <- derefTCP p ;;
  if bool_decide (state c = tcpEstablished) then ret (Some (inl p))
  else if closed c then releaseTCP4 port ;;; ret (Some (inr ErrTCP4ConnRefused))
  else rxLoopIter ;;; ret None.

(** The connection a dial starts from. *)
Definition newConn (local : IP) (lport : Z) (remote : IP) (rport iss : Z) : TCP4Conn :=
  mkTCP4Conn local lport remote rport tcpSynSent iss (u32 (iss + 1)) 0 0 TCP4DefaultWindow [] [] false false.

Definition dialTCP4Once (dst : IP) (port : Z) : StM nat :=
  match To4 dst with
  | None => throw ErrTCP4InvalidAddr
  | Some d4 =>
      s <- gets id ;;
      throw_if st_closed s with ErrStackClosed;;
      match rt_Local (st_route s) with
      | None => throw ErrTCP4NoLocalAddr
      | Some local =>
          let mac := MAC (st_link s) in
          lport <- allocTCP4Port ;;
          iss <- lift (tcp4InitialSeq mac lport) ;;
          p <- alloc ;;
          registerTCP4 p (newConn local lport d4 port iss) ;;;
          syn <- try (sendSegmentExt p TCPFlagSYN iss 0 []) ;;
          match syn with
          | inr e => releaseTCP4 lport ;;; throw e
          | inl _ =>
              r <- pump (dialIter p lport) (releaseTCP4 lport ;;; ret (inr ErrTCP4Timeout)) ;;
              lift (ofSum r)
          end
      end
  end.
End tcp.
#[global] Arguments handleTCP4 : simpl never.
#[global] Arguments handleARP : simpl never.
#[global] Arguments handleIPv4 : simpl never.
#[global] Arguments dispatch : simpl never.
#[global] Arguments rxLoopIter : simpl never.
#[global] Arguments pump : simpl never.

(** ** Every operation keeps the stack invariant and does not panic *)

Section tcp_inv.
Context {L : Type} `{Link L}.

(** Pointers a caller holds stay valid, and keep their port. *)
Definition tcpLive (p : nat) (s : Stack L) : Prop := stackInv s /\ is_Some (st_tcp s !! p).

(** A store to a live connection that keeps its port. *)
Lemma set_tcp_inv (s : Stack L) p c c' :
  stackInv s -> st_tcp s !! p = Some c -> localPort c' = localPort c ->
  stackInv (set_tcp (st_tcp4Conns s) (<[p := c']> (st_tcp s)) s).
Proof.
  intros [Ha Hup Hub Hu Ht Hp Hf Hi Hrv] Hc Hl. constructor; try done.
  - intros port p' Hp'. destruct (Ht port p' Hp') as (c0 & Hc0 & Hl0). cbn.
    destruct (decide (p' = p)) as [->|].
    + rewrite lookup_insert_eq. rewrite Hc in Hc0. injection Hc0 as <-. exists c'. split; [done|congruence].
    + rewrite lookup_insert_ne by done. eauto.
  - intros p' Hp'. destruct (Hf p' Hp') as (? & Hn & ?). cbn. split; [done|]. split; [|done].
    rewrite lookup_insert_ne; [done|]. intros ->. by rewrite Hc in Hn.
Qed.

Lemma localPort_merge p fin c : localPort (mergeSegment p fin c) = localPort c.
Proof. by destruct fin. Qed.
Lemma localPort_drain n c : localPort (drainFrom n c) = localPort c.
Proof.
  revert c. induction n as [|n IH]; intros c; [done|]. cbn [drainFrom].
  destruct (list_find _ _) as [[i e]|]; [|done]. rewrite IH. apply localPort_merge.
Qed.
Lemma localPort_deliver h payload c : localPort (deliver h payload c) = localPort c.
Proof.
  assert (forall sq p fin c, localPort (accept sq p fin c) = localPort c) as Ha.
  { intros. unfold accept. repeat case_match; try done.
    unfold drainReassemblyLocked. by rewrite localPort_drain, localPort_merge. }
  assert (forall ak c, localPort (finTransitions ak c) = localPort c) as Hf.
  { intros. unfold finTransitions. repeat case_match; done. }
  unfold deliver, deliverOpen. repeat case_match; try done; rewrite Hf; try rewrite Ha;
    repeat case_match; done.
Qed.

Lemma onConn_deliver (s : Stack L) p c h payload :
  stackInv s -> st_tcp s !! p = Some c ->
  exists s', onConn p (deliverSegment h payload) s = (Ok tt, s') /\ stackInv s' /\
    st_tcp s' = <[p := deliver h payload c]> (st_tcp s) /\ st_tcp4Conns s' = st_tcp4Conns s /\
    st_udp s' = st_udp s /\ st_waiters s' = st_waiters s /\ st_udp4Conns s' = st_udp4Conns s /\
    st_pings s' = st_pings s.
Proof.
  intros Hs Hc. unfold onConn. rewrite Hc.
  destruct (deliverSegment_runs h payload c s) as (s1 & E & Hs1); [exact Hs|].
  pose proof (deliverSegment_frames connState h payload sendSegmentSt_frame (c, s)) as Hfr.
  rewrite E in *. cbn [snd] in Hfr. unfold connState in Hfr.
  injection Hfr as Hpi Hup Htp Hw Hud Htc Hfre Hst Hcl Hrov Hrt.
  eexists. split; [done|]. rewrite Htp, Htc. split; [|cbn; by rewrite ?Hud, ?Hw, ?Hup, ?Hpi].
  rewrite <- Htp, <- Htc. apply set_tcp_inv with c; [done|by rewrite Htc|]. apply localPort_deliver.
Qed.

Lemma handleTCP4_keep h body : keep stackInv (handleTCP4 h body).
Proof.
  unfold handleTCP4. apply keep_if; [go_keep|]. intros Hl%Z.ltb_ge. apply keep_if; [go_keep|].
  intros Hl2%Z.ltb_ge. apply keep_bind.
  { apply keeps_lift. unfold sliceTo. apply safe_slice; lia. }
  intros body'. apply keep_bind; [go_keep|]. intros [th payload] s Hs. mrun. unfold id.
  destruct (st_tcp4Conns s !! tcp_DstPort th) as [p|] eqn:E; [|by apply ends_ok].
  destruct (inv_tcpPorts _ Hs _ _ E) as (c & Hc & _). unfold derefTCP. mrun. rewrite Hc.
  destruct (_ || _); [by apply ends_ok|].
  destruct (onConn_deliver s p c th payload Hs Hc) as (s' & -> & Hs' & _). by apply ends_ok.
Qed.

Lemma handleARP_keep payload : keep stackInv (handleARP payload).
Proof. unfold handleARP. go_keep. apply onArp_keep, handleARPFrame_keep. Qed.
#[local] Hint Resolve handleTCP4_keep handleARP_keep : gokeep.

Lemma handleIPv4_keep payload : keep stackInv (handleIPv4 payload).
Proof. unfold handleIPv4. apply keep_bind; [go_keep; apply ParseIPv4_safe|]. intros [h body]. cbv iota beta. go_keep. Qed.
#[local] Hint Resolve handleIPv4_keep : gokeep.

Lemma dispatch_keep frame : keep stackInv (dispatch frame).
Proof. unfold dispatch. go_keep. Qed.
#[local] Hint Resolve dispatch_keep : gokeep.

Lemma rxLoopIter_keep : keep stackInv rxLoopIter.
Proof. unfold rxLoopIter. go_keep. Qed.

(** *** Live objects *)

(** What one received frame may not do to the tables: no port is bound or
    released, no object appears or disappears, no connection changes its port. *)
Definition shape (s : Stack L) :=
  (st_udp4Conns s, st_tcp4Conns s, dom (st_udp s), localPort <$> st_tcp s, dom (st_waiters s), st_fresh s).

Lemma frames_shape {A} (m : M (Stack L) A) : frames connState m -> frames shape m.
Proof.
  intros Hm s. specialize (Hm s). unfold connState, shape in *. by simplify_eq/=; congruence.
Qed.

Lemma handleUDP4_shape h body : frames shape (handleUDP4 h body).
Proof.
  unfold handleUDP4. apply frames_bind; [done|]. intros [uh payload].
  apply frames_bind; [done|]. intros s0. destruct (st_udp4Conns s0 !! _) as [p|]; [|done].
  intros s. unfold deliverUDP, derefUDP, storeUDP. mrun.
  destruct (st_udp s !! p) as [c|] eqn:Hc; [|done].
  destruct (u_closed c); [done|]. destruct (u_queueClosed c); [done|].
  unfold shape. cbn. rewrite (dom_insert_lookup_L (st_udp s)) by eauto. done.
Qed.

Lemma handleICMP_shape h body : frames shape (handleICMP h body).
Proof.
  unfold handleICMP. apply frames_bind; [done|]. intros msg.
  destruct (icmp_Type msg =? ICMPTypeEchoReply).
  - intros s. mrun. unfold id. destruct (st_pings s !! _) as [w|]; [|done]. cbn [st_waiters set_pings].
    destruct (st_waiters s !! w) as [ch|] eqn:Hch; [|done]. destruct (len ch <? 1); [|done].
    unfold shape. cbn. rewrite (dom_insert_lookup_L (st_waiters s)) by eauto. done.
  - apply frames_shape. destruct (_ =? _); [|done]. go_frame.
Qed.

Lemma ports_insert (m : gmap nat TCP4Conn) p c c' :
  m !! p = Some c -> localPort c' = localPort c -> localPort <$> <[p := c']> m = localPort <$> m.
Proof. intros Hc Hl. rewrite fmap_insert, Hl. apply insert_id. by rewrite lookup_fmap, Hc. Qed.

(** No operation of a connection changes its port. *)
Lemma deliverSegment_port h payload :
  frames (fun x : TCP4Conn * Stack L => localPort (fst x)) (deliverSegment h payload).
Proof.
  assert (frames (fun x : TCP4Conn * Stack L => localPort (fst x)) sendAck) as Hs.
  { unfold sendAck, conn. go_frame. }
  unfold deliverSegment, acceptSegmentLocked, conn, update.
  repeat (go_frame; try (apply frames_modify; intros [c s]; cbn [fst snd])).
  all: try first [done | apply localPort_merge | apply localPort_drain].
  all: unfold finTransitions; repeat case_match; done.
Qed.

Lemma onConn_shape p h payload : frames shape (onConn p (deliverSegment h payload)).
Proof.
  intros s. unfold onConn. destruct (st_tcp s !! p) as [c|] eqn:Hc; [|done].
  pose proof (deliverSegment_frames connState h payload sendSegmentSt_frame (c, s)) as Hfr.
  pose proof (deliverSegment_port h payload (c, s)) as Hport.
  destruct (deliverSegment h payload (c, s)) as [r [c' s']]. cbn [fst snd] in *.
  unfold connState in Hfr. injection Hfr as Hpi Hup Htp Hw Hud Htc Hfre Hst Hcl Hrov Hrt.
  unfold shape. cbn. rewrite Htc, (ports_insert (st_tcp s) p c) by done. congruence.
Qed.

Lemma handleTCP4_shape h body : frames shape (handleTCP4 h body).
Proof.
  unfold handleTCP4. destruct (_ <? 0); [done|]. destruct (_ <? _); [done|].
  apply frames_bind; [done|]. intros b. apply frames_bind; [done|]. intros [th payload].
  apply frames_bind; [done|]. intros s0. destruct (st_tcp4Conns s0 !! _) as [p|]; [|done].
  unfold derefTCP. go_frame. apply onConn_shape.
Qed.

Lemma rxLoopIter_shape : frames shape rxLoopIter.
Proof.
  unfold rxLoopIter. apply frames_bind; [apply frames_try, frames_shape; auto with goframe|].
  intros [frame|]; [|done]. apply frames_ignore. unfold dispatch. apply frames_bind; [done|].
  intros eth. destruct (_ =? _); [apply frames_shape; unfold handleARP; go_frame|].
  destruct (_ =? _); [|done]. unfold handleIPv4. apply frames_bind; [done|]. intros [hd body].
  destruct (_ =? _); [apply handleICMP_shape|]. destruct (_ =? _); [apply handleUDP4_shape|].
  destruct (_ =? _); [apply handleTCP4_shape|done].
Qed.

(** The invariant with a fixed shape: what a pump loop relies on. *)
Definition shaped sh (s : Stack L) : Prop := stackInv s /\ shape s = sh.

Lemma keep_shaped {A} sh (m : M (Stack L) A) : keep stackInv m -> frames shape m -> keep (shaped sh) m.
Proof.
  intros Hk Hf s [Hs Hsh]. destruct (Hk s Hs) as (? & ? & _). split; [done|]. split; [|done].
  split; [done|]. by rewrite Hf.
Qed.

Lemma rxLoopIter_shaped sh : keep (shaped sh) rxLoopIter.
Proof. apply keep_shaped; [apply rxLoopIter_keep|apply rxLoopIter_shape]. Qed.

Lemma shaped_tcp sh s p : shaped sh s -> is_Some (sh.1.1.2 !! p) -> is_Some (st_tcp s !! p).
Proof. intros [_ <-] [q Hq]. cbn in Hq. rewrite lookup_fmap in Hq. by destruct (st_tcp s !! p). Qed.
Lemma shaped_udp sh s p : shaped sh s -> p ∈ sh.1.1.1.2 -> is_Some (st_udp s !! p).
Proof. intros [_ <-] Hp. by apply elem_of_dom. Qed.
Lemma shaped_waiter sh s p : shaped sh s -> p ∈ sh.1.2 -> is_Some (st_waiters s !! p).
Proof. intros [_ <-] Hp. by apply elem_of_dom. Qed.
End tcp_inv.
#[export] Hint Resolve handleTCP4_keep handleARP_keep handleIPv4_keep dispatch_keep
  rxLoopIter_keep rxLoopIter_shaped : gokeep.

Section pump_inv.
Context {L : Type} `{Link L}.
Implicit Types s : Stack L.

Lemma shaped_self s : stackInv s -> shaped (shape s) s.
Proof. by split. Qed.

Lemma ends_shaped {A} sh (r : out A * Stack L) Q :
  ends (shaped sh) Q r -> ends stackInv (fun _ _ => True) r.
Proof. intros (? & [? _] & _). by split. Qed.

Lemma derefTCP_at s p c : st_tcp s !! p = Some c -> derefTCP p s = (Ok c, s).
Proof. intros Hc. unfold derefTCP. mrun. by rewrite Hc. Qed.
Lemma derefUDP_at s p c : st_udp s !! p = Some c -> derefUDP p s = (Ok c, s).
Proof. intros Hc. unfold derefUDP. mrun. by rewrite Hc. Qed.

Lemma bind_derefTCP {A} s p c (k : TCP4Conn -> M (Stack L) A) :
  st_tcp s !! p = Some c -> (x <- derefTCP p ;; k x) s = k c s.
Proof. intros Hc. unfold bind. by rewrite (derefTCP_at s p c Hc). Qed.
Lemma bind_derefUDP {A} s p c (k : UDP4Conn -> M (Stack L) A) :
  st_udp s !! p = Some c -> (x <- derefUDP p ;; k x) s = k c s.
Proof. intros Hc. unfold bind. by rewrite (derefUDP_at s p c Hc). Qed.

Lemma storeTCP_shaped sh s p c c' :
  shaped sh s -> st_tcp s !! p = Some c -> localPort c' = localPort c ->
  ends (shaped sh) (fun _ s' => st_tcp s' !! p = Some c') (storeTCP p c' s).
Proof.
  intros [Hs Hsh] Hc Hl. apply ends_ok; [|cbn; by rewrite lookup_insert_eq].
  split; [by apply (set_tcp_inv s p c)|]. unfold shape in *. cbn.
  by rewrite (ports_insert (st_tcp s) p c) by done.
Qed.

Lemma sendSegmentExt_shaped sh p flags sq ak payload :
  is_Some (sh.1.1.2 !! p) -> keep (shaped sh) (sendSegmentExt p flags sq ak payload).
Proof.
  intros Hp s Hs. destruct (shaped_tcp sh s p Hs Hp) as [c Hc].
  unfold sendSegmentExt. rewrite (bind_derefTCP s p c _ Hc).
  apply keep_shaped; [auto with gokeep|apply frames_shape; auto with goframe|done].
Qed.

(** *** UDP and ping *)

Lemma readFromIter_shaped sh p buf : p ∈ sh.1.1.1.2 -> keep (shaped sh) (readFromIter p buf).
Proof.
  intros Hp s Hs. destruct (shaped_udp sh s p Hs Hp) as [c Hc].
  unfold readFromIter. rewrite (bind_derefUDP s p c _ Hc). destruct (u_queue c) as [|dg q] eqn:Eq.
  - destruct (u_queueClosed c); [by apply ends_err|]. apply (ends_bind _ _ _ (fun _ _ => True)).
    + by apply rxLoopIter_shaped.
    + intros _ s' Hs' _. by apply ends_ok.
  - destruct Hs as [Hs Hsh]. unfold storeUDP. mrun. apply ends_ok; [|done]. split.
    + apply storeUDP_queue_inv; [done..|]. destruct (inv_udp _ Hs _ _ Hc) as [Hq _].
      rewrite Eq in Hq. cbn in Hq. lia.
    + unfold shape in *. cbn. by rewrite (dom_insert_lookup_L (st_udp s)) by eauto.
Qed.

Lemma ReadFrom_shaped sh p buf : p ∈ sh.1.1.1.2 -> keep (shaped sh) (ReadFrom p buf).
Proof.
  intros Hp s Hs. destruct (shaped_udp sh s p Hs Hp) as [c Hc].
  unfold ReadFrom. rewrite (bind_derefUDP s p c _ Hc). destruct (u_closed c); [by apply ends_err|].
  apply keep_pump; [by apply readFromIter_shaped|apply keeps_throw|done].
Qed.

Lemma WriteTo_shaped sh p payload dst port : p ∈ sh.1.1.1.2 -> keep (shaped sh) (WriteTo p payload dst port).
Proof.
  intros Hp s Hs. destruct (shaped_udp sh s p Hs Hp) as [c Hc].
  unfold WriteTo. destruct (To4 dst); [|by apply ends_err].
  rewrite (bind_derefUDP s p c _ Hc). destruct (u_closed c); [by apply ends_err|].
  apply keep_shaped; [auto with gokeep|apply frames_shape; auto with goframe|done].
Qed.

Lemma ReadFrom_ends s p buf :
  stackInv s -> is_Some (st_udp s !! p) -> ends stackInv (fun _ _ => True) (ReadFrom p buf s).
Proof.
  intros Hs [c Hc]. unfold ReadFrom. rewrite (bind_derefUDP s p c _ Hc).
  destruct (u_closed c); [by apply ends_err|]. apply (ends_shaped (shape s) _ (fun _ _ => True)).
  apply keep_pump; [|apply keeps_throw|by apply shaped_self].
  apply readFromIter_shaped. cbn. by apply elem_of_dom.
Qed.

Lemma WriteTo_ends s p payload dst port :
  stackInv s -> is_Some (st_udp s !! p) -> ends stackInv (fun _ _ => True) (WriteTo p payload dst port s).
Proof.
  intros Hs [c Hc]. unfold WriteTo. destruct (To4 dst); [|by apply ends_err].
  rewrite (bind_derefUDP s p c _ Hc). destruct (u_closed c); [by apply ends_err|].
  by apply sendUDP4_keep.
Qed.

Lemma pingCleanup_keep key : keep (@stackInv L) (pingCleanup key).
Proof.
  apply keeps_modify. intros s [Ha Hup Hub Hu Ht Hp Hf Hi Hrv]. constructor; try done. cbn.
  by apply map_Forall_delete.
Qed.
Lemma pingCleanup_shaped sh key : keep (@shaped L sh) (pingCleanup key).
Proof. apply keep_shaped; [apply pingCleanup_keep|]. unfold pingCleanup. go_frame. Qed.

Lemma pingIter_shaped sh key w : w ∈ sh.1.2 -> keep (shaped sh) (pingIter key w).
Proof.
  intros Hw s Hs. destruct (shaped_waiter sh s w Hs Hw) as [ch Hch].
  unfold pingIter, bind at 1, gets, id. rewrite Hch. destruct ch as [|m ch].
  - destruct (st_closed s); (apply (ends_bind _ _ _ (fun _ _ => True));
      [by first [apply pingCleanup_shaped|apply rxLoopIter_shaped]|intros]);
      [by apply ends_err|by apply ends_ok].
  - mrun. apply ends_ok; [|done]. destruct Hs as [[Ha Hup Hub Hu Ht Hp Hf Hi Hrv] Hsh]. split.
    + constructor; try done; cbn.
      * intros k w' Hk. destruct (decide (w' = w)) as [->|].
        -- rewrite lookup_insert_eq. eauto.
        -- rewrite lookup_insert_ne by done. by apply (Hp k w').
      * intros p Hpf. destruct (Hf p Hpf) as (? & ? & Hn). split; [done|]. split; [done|].
        rewrite lookup_insert_ne; [done|]. intros ->. by rewrite Hch in Hn.
    + unfold shape in *. cbn. by rewrite (dom_insert_lookup_L (st_waiters s)) by eauto.
Qed.

Lemma newPing_inv s key :
  stackInv s ->
  stackInv (set_pings (<[key := st_fresh s]> (st_pings s)) (<[st_fresh s := []]> (st_waiters s)) (snd (alloc s))).
Proof.
  intros [Ha Hup Hub Hu Ht Hp Hf Hi Hrv]. constructor; try done; cbn.
  - apply map_Forall_insert_2; [by rewrite lookup_insert_eq|]. intros k w Hk.
    destruct (decide (w = st_fresh s)) as [->|]; [by rewrite lookup_insert_eq|].
    rewrite lookup_insert_ne by done. by apply (Hp k w).
  - intros p Hpf. destruct (Hf p ltac:(lia)) as (? & ? & ?). split; [done|]. split; [done|].
    by rewrite lookup_insert_ne by lia.
Qed.

Lemma orCleanup_shaped {A} sh key (m : M (Stack L) A) :
  keep (shaped sh) m -> keep (shaped sh) (orCleanup key m).
Proof.
  intros Hm. unfold orCleanup. apply keep_bind; [by apply keep_try|]. intros [a|e]; [apply keeps_ret|].
  apply keep_bind; [apply pingCleanup_shaped|]. intros. apply keeps_throw.
Qed.

Lemma PingOnce_keep dst payload : keep stackInv (PingOnce dst payload).
Proof.
  unfold PingOnce. destruct (To4 dst) as [dst4|]; [|apply keeps_throw].
  apply keep_bind; [go_keep|]. intros s0. apply keep_if; [intros; apply keeps_throw|]. intros _.
  destruct (rt_Local (st_route s0)) as [src|]; [|apply keeps_throw].
  apply keep_bind; [apply nextIPID_keep|]. intros sequ s Hs.
  unfold bind at 1, alloc. unfold bind at 1, modify.
  pose proof (newPing_inv s (pingKey pingIdent sequ) Hs) as Hs'. revert Hs'. unfold alloc. cbn [snd].
  match goal with |- stackInv ?x -> _ => set (s' := x) end. intros Hs'.
  assert (st_fresh s ∈ (shape s').1.2) as Hw by (cbn; set_solver).
  apply (ends_shaped (shape s') _ (fun _ _ => True)).
  assert (forall (A : Type) (m : M (Stack L) A), keep stackInv m -> frames connState m -> keep (shaped (shape s')) m) as Hk
    by (intros A m ? ?; apply keep_shaped; [done|by apply frames_shape]).
  match goal with |- ends _ _ (?m _) => assert (keep (shaped (shape s')) m) as Hm end; [|by apply Hm, shaped_self].
  apply keep_bind; [apply Hk; auto with gokeep goframe|]. intros ipid.
  apply keep_bind; [apply orCleanup_shaped; apply keeps_lift; auto with gosafe|]. intros pkt.
  apply keep_bind; [apply orCleanup_shaped; apply Hk; auto with gokeep goframe|]. intros _.
  apply keep_pump; [by apply pingIter_shaped|].
  apply keep_bind; [apply pingCleanup_shaped|]. intros. apply keeps_throw.
Qed.
End pump_inv.

Section tcp_ops_inv.
Context {L : Type} `{Link L}.
Implicit Types s : Stack L.

Lemma readIter_shaped sh p buf : is_Some (sh.1.1.2 !! p) -> keep (shaped sh) (readIter p buf).
Proof.
  intros Hp s Hs. destruct (shaped_tcp sh s p Hs Hp) as [c Hc].
  unfold readIter. rewrite (bind_derefTCP s p c _ Hc). destruct (rxQueue c) as [|b q] eqn:Eq.
  - destruct (peerFinSeen c); [by apply ends_err|]. destruct (closed c); [by apply ends_err|].
    apply (ends_bind _ _ _ (fun _ _ => True)); [by apply rxLoopIter_shaped|]. intros. by apply ends_ok.
  - unfold onConn, readQueue, conn, update. mrun. rewrite Hc. cbn [fst snd].
    apply ends_ok; [|done]. by apply (storeTCP_shaped sh s p c (set_rxQueue (drop buf (rxQueue c)) c)).
Qed.

Lemma Read_ends s p buf :
  stackInv s -> is_Some (st_tcp s !! p) -> ends stackInv (fun _ _ => True) (Read p buf s).
Proof.
  intros Hs [c Hc]. unfold Read. rewrite (bind_derefTCP s p c _ Hc).
  destruct (closed c); [by apply ends_err|]. apply (ends_shaped (shape s) _ (fun _ _ => True)).
  apply keep_pump; [|apply keeps_throw|by apply shaped_self].
  apply readIter_shaped. cbn. by rewrite lookup_fmap, Hc.
Qed.

Lemma awaitAck_shaped sh fuel d1 d2 rt p flags sq ak segment want :
  is_Some (sh.1.1.2 !! p) -> keep (shaped sh) (awaitAck fuel d1 d2 rt p flags sq ak segment want).
Proof.
  intros Hp. revert d1 d2 rt. induction fuel as [|n IH]; intros d1 d2 rt; cbn [awaitAck];
    (apply keep_if; [intros; apply keeps_throw|]; intros _); [apply keeps_throw|].
  intros s Hs. destruct (shaped_tcp sh s p Hs Hp) as [c Hc]. rewrite (bind_derefTCP s p c _ Hc).
  destruct (closed c); [by apply ends_err|]. destruct (negb _); [by apply ends_ok|].
  revert s Hs Hc. intros s Hs _. revert s Hs.
  apply keep_bind.
  - apply keep_if; [intros _|intros; apply keeps_ret]. apply keep_if; [intros; apply keeps_throw|intros _].
    apply keep_bind; [by apply sendSegmentExt_shaped|]. intros. apply keeps_ret.
  - intros pr. apply keep_bind; [apply rxLoopIter_shaped|]. intros _. apply IH.
Qed.

Lemma sendAndAwaitAck_shaped sh p segment : is_Some (sh.1.1.2 !! p) -> keep (shaped sh) (sendAndAwaitAck p segment).
Proof.
  intros Hp s Hs. destruct (shaped_tcp sh s p Hs Hp) as [c Hc].
  unfold sendAndAwaitAck. rewrite (bind_derefTCP s p c _ Hc). cbv zeta.
  eapply ends_bind; [by apply (storeTCP_shaped sh s p c)|]. intros _ s1 Hs1 _.
  revert s1 Hs1. apply keep_bind; [by apply sendSegmentExt_shaped|]. intros _. by apply awaitAck_shaped.
Qed.

Lemma writeLoop_shaped sh fuel p data written :
  is_Some (sh.1.1.2 !! p) -> 0 <= written -> keep (shaped sh) (writeLoop fuel p data written).
Proof.
  intros Hp. revert written. induction fuel as [|n IH]; intros written Hw; cbn [writeLoop];
    (apply keep_if; [intros; apply keeps_ret|]; intros Hlt%Z.leb_gt); [apply keeps_throw|].
  set (e := if _ <? _ then _ else _).
  assert (written <= e <= len data) as He by (unfold e, TCP4DefaultMSS; case_match; lia).
  apply keep_bind; [apply keeps_lift, safe_slice; lia|]. intros segment.
  apply keep_bind; [apply keep_try; by apply sendAndAwaitAck_shaped|]. intros [u|err]; [|apply keeps_ret].
  apply IH. lia.
Qed.

Lemma Write_ends s p data :
  stackInv s -> is_Some (st_tcp s !! p) -> ends stackInv (fun _ _ => True) (Write p data s).
Proof.
  intros Hs [c Hc]. unfold Write. rewrite (bind_derefTCP s p c _ Hc).
  destruct (_ || _); [by apply ends_ok|]. apply (ends_shaped (shape s) _ (fun _ _ => True)).
  apply writeLoop_shaped; [cbn; by rewrite lookup_fmap, Hc|lia|by apply shaped_self].
Qed.

Lemma sendFin_shaped sh s p c st :
  shaped sh s -> st_tcp s !! p = Some c -> ends (shaped sh) (fun _ _ => True) (sendFin p c st s).
Proof.
  intros Hs Hc. assert (is_Some (sh.1.1.2 !! p)) as Hp by (destruct Hs as [_ <-]; cbn; by rewrite lookup_fmap, Hc).
  unfold sendFin. eapply ends_bind; [by apply (storeTCP_shaped sh s p c)|]. intros _ s1 Hs1 _.
  by apply keep_ignore; [apply sendSegmentExt_shaped|].
Qed.

Lemma closeIter_shaped sh p : is_Some (sh.1.1.2 !! p) -> keep (shaped sh) (closeIter p).
Proof.
  intros Hp s Hs. destruct (shaped_tcp sh s p Hs Hp) as [c Hc].
  unfold closeIter. rewrite (bind_derefTCP s p c _ Hc). destruct (_ || _); [by apply ends_ok|].
  apply (ends_bind _ _ _ (fun _ _ => True)); [by apply rxLoopIter_shaped|]. intros. by apply ends_ok.
Qed.

Lemma release_inv s port :
  stackInv s -> stackInv (set_tcp (delete port (st_tcp4Conns s)) (st_tcp s) s).
Proof.
  intros [Ha Hup Hub Hu Ht Hp Hf Hi Hrv]. constructor; try done. cbn. by apply map_Forall_delete.
Qed.

(** The handshake part of Close, up to its final stores. *)
Lemma CloseTCP_wait s p c :
  stackInv s -> st_tcp s !! p = Some c ->
  ends (shaped (shape s)) (fun _ _ => True)
    ((match state c with
      | tcpEstablished => sendFin p c tcpFinWait1
      | tcpCloseWait => sendFin p c tcpLastAck
      | _ => ret tt
      end ;;; pump (closeIter p) (ret tt)) s).
Proof.
  intros Hs Hc. assert (is_Some ((shape s).1.1.2 !! p)) as Hp by (cbn; by rewrite lookup_fmap, Hc).
  apply (ends_bind _ _ _ (fun _ _ => True)).
  - destruct (state c); try (by apply ends_ok; [apply shaped_self|]).
    all: apply sendFin_shaped; [by apply shaped_self|done].
  - intros _ s1 Hs1 _. apply keep_pump; [by apply closeIter_shaped|apply keeps_ret|done].
Qed.

Lemma rxLoopIter_noErr : noErr (@rxLoopIter L _).
Proof.
  intros s e. unfold rxLoopIter, ignore. mrun.
  destruct (onStLink recvFrame s) as [[f|?|] s1]; try done. destruct (dispatch f s1) as [[[]|?|] ?]; done.
Qed.

Lemma closeIter_noErr p : noErr (closeIter p).
Proof.
  intros s e. unfold closeIter, derefTCP. mrun. destruct (st_tcp s !! p) as [c|]; [|done].
  destruct (_ || _); [done|]. pose proof (rxLoopIter_noErr s) as Hn.
  destruct (rxLoopIter s) as [[|e'|] ?]; cbn; [done|by destruct (Hn e')|done].
Qed.

(** Close on an open connection: what it leaves, whatever the peer does. *)
Lemma CloseTCP_open s p c :
  stackInv s -> st_tcp s !! p = Some c -> closed c = false ->
  exists s' c', CloseTCP p s = (Ok tt, s') /\ stackInv s' /\ st_tcp s' !! p = Some c' /\
    closed c' = true /\ state c' = tcpClosed /\
    st_tcp4Conns s' = delete (localPort c) (st_tcp4Conns s) /\ st_udp4Conns s' = st_udp4Conns s.
Proof.
  intros Hs Hc Hcl. unfold CloseTCP. rewrite (bind_derefTCP s p c _ Hc), Hcl.
  pose proof (CloseTCP_wait s p c Hs Hc) as Hw. unfold bind at 1 in Hw. unfold bind at 1.
  destruct (match state c with | tcpEstablished => sendFin p c tcpFinWait1
    | tcpCloseWait => sendFin p c tcpLastAck | _ => ret tt end s) as [[[]|e|] s1] eqn:E1; cycle 1.
  { exfalso. destruct (state c); try done; unfold sendFin, storeTCP, ignore in E1; revert E1; mrun;
      destruct (sendSegmentExt _ _ _ _ _ _) as [[[]|?|] ?]; done. }
  { exfalso. by destruct Hw as [Hw _]. }
  pose proof (noErr_pump (closeIter p) (ret tt) (closeIter_noErr p) (fun _ _ => ltac:(done)) s1) as Hn.
  unfold bind at 1. destruct (pump (closeIter p) (ret tt) s1) as [[[]|e|] s2] eqn:E2;
    [|by destruct (Hn e)|by destruct Hw as [Hw _]].
  destruct Hw as (_ & [Hs2 Hsh] & _). cbn [snd] in *.
  unfold shape in Hsh. injection Hsh as Hu Ht Hd1 Hports Hd3 Hfr.
  assert (exists c2, st_tcp s2 !! p = Some c2 /\ localPort c2 = localPort c) as (c2 & Hc2 & Hl).
  { assert ((localPort <$> st_tcp s2) !! p = Some (localPort c)) as Hx by (rewrite Hports, lookup_fmap, Hc; done).
    rewrite lookup_fmap in Hx. destruct (st_tcp s2 !! p) as [c2|]; [|done]. injection Hx as Hx. by exists c2. }
  rewrite (bind_derefTCP s2 p c2 _ Hc2). unfold storeTCP, releaseTCP4. mrun.
  eexists _, (set_state tcpClosed (set_closed true c2)). split; [done|].
  split; [apply release_inv; by apply (set_tcp_inv s2 p c2)|]. cbn.
  rewrite lookup_insert_eq, Ht, Hu, Hl. done.
Qed.
End tcp_ops_inv.

(** ** Ports *)

Section ports.
Context {L : Type} `{Link L}.
Implicit Types s : Stack L.

(** The [i]-th candidate of a scan. *)
Definition candidate s (i : Z) : Z := u16 (49152 + u16 (st_rover s + i) mod (16383 - 1)).

Lemma candidate_range s i : 49152 <= candidate s i <= 65533.
Proof.
  unfold candidate. change (16383 - 1) with 16382.
  pose proof (Z.mod_pos_bound (u16 (st_rover s + i)) 16382 ltac:(lia)).
  rewrite u16_small; [lia|]. unfold isU16. change (2 ^ 16) with 65536. lia.
Qed.

Lemma candidate_inj s i j :
  0 <= st_rover s < 16383 -> 0 <= i < 1024 -> 0 <= j < 1024 -> candidate s i = candidate s j -> i = j.
Proof.
  intros Hr Hi Hj. unfold candidate, u16. change (2 ^ 16) with 65536. change (16383 - 1) with 16382.
  rewrite !(Z.mod_small (st_rover s + _)) by lia.
  rewrite !(Z.mod_small (49152 + _)) by (Z.div_mod_to_equations; lia).
  intros E. Z.div_mod_to_equations. lia.
Qed.

Lemma portScan_spec n i s :
  (exists k, (k < n)%nat /\ st_tcp4Conns s !! candidate s (i + Z.of_nat k) = None /\
     portScan n i s = (Ok (candidate s (i + Z.of_nat k)),
                       set_rover (u16 (st_rover s + (i + Z.of_nat k) + 1) mod 16383) s)) \/
  ((forall k, (k < n)%nat -> is_Some (st_tcp4Conns s !! candidate s (i + Z.of_nat k))) /\
     portScan n i s = (Err ErrTCP4PortInUse, s)).
Proof.
  revert i. induction n as [|n IH]; intros i; [right; split; [lia|done]|].
  cbn [portScan]. fold (candidate s i).
  destruct (st_tcp4Conns s !! candidate s i) as [p|] eqn:E.
  - destruct (IH (i + 1)) as [(k & Hk & Hn & ->)|[Hall ->]].
    + left. exists (S k). replace (i + Z.of_nat (S k)) with (i + 1 + Z.of_nat k) by lia.
      split; [lia|]. done.
    + right. split; [|done]. intros [|k] Hk; [by rewrite Z.add_0_r, E|].
      replace (i + Z.of_nat (S k)) with (i + 1 + Z.of_nat k) by lia. apply Hall. lia.
  - left. exists 0%nat. rewrite Z.add_0_r. split; [lia|]. done.
Qed.

Lemma allocTCP4Port_leads s :
  stackInv s ->
  leads (fun p s' => stackInv s' /\ connState s' = connState (set_rover (st_rover s') s) /\
           st_tcp4Conns s !! p = None /\ 49152 <= p <= 65533)
        (fun e s' => s' = s) (allocTCP4Port s).
Proof.
  intros Hs. unfold allocTCP4Port. mrun. unfold id. destruct (st_closed s); [done|].
  destruct (portScan_spec 1024 0 s) as [(k & Hk & Hn & ->)|[_ ->]]; cbn [leads]; [|done].
  split; [apply set_rover_inv; [done|apply Z.mod_pos_bound; lia]|]. split; [done|].
  split; [done|apply candidate_range].
Qed.

(** A port is free among the candidates when fewer than 1024 are taken. *)
Lemma portScan_free s :
  0 <= st_rover s < 16383 -> (size (st_tcp4Conns s) < 1024)%nat ->
  exists p s', portScan 1024 0 s = (Ok p, s').
Proof.
  intros Hr Hsz. destruct (portScan_spec 1024 0 s) as [(k & _ & _ & ->)|[Hall _]]; [by eauto|exfalso].
  set (cs := (fun k => candidate s (Z.of_nat k)) <$> seq 0 1024).
  assert (NoDup cs) as Hnd.
  { apply NoDup_fmap_2_strong; [|apply NoDup_seq]. intros x y Hx Hy E.
    apply elem_of_seq in Hx, Hy. apply (candidate_inj s) in E; lia. }
  assert ((list_to_set cs : gset Z) ⊆ dom (st_tcp4Conns s)) as Hsub.
  { intros p Hp. apply elem_of_list_to_set, list_elem_of_fmap in Hp as (k & -> & Hk).
    apply elem_of_seq in Hk. apply elem_of_dom. specialize (Hall k ltac:(lia)). by rewrite Z.add_0_l in Hall. }
  apply subseteq_size in Hsub. rewrite size_list_to_set, size_dom in Hsub by done.
  unfold cs in Hsub. rewrite length_fmap, length_seq in Hsub. lia.
Qed.
End ports.

(** ** A UDP connection for the length of a call *)

Section with_udp.
Context {L : Type} `{Link L}.
Implicit Types s : Stack L.

(** Closing a connection that was opened in [s]: the port table is as before. *)
Lemma CloseUDP_restores s s' p port :
  st_udp4Conns s !! port = None -> st_udp4Conns s' = <[port := p]> (st_udp4Conns s) -> stackInv s' ->
  exists s'', CloseUDP p s' = (Ok tt, s'') /\ stackInv s'' /\ st_udp4Conns s'' = st_udp4Conns s /\
    st_tcp4Conns s'' = st_tcp4Conns s' /\ st_link s'' = st_link s'.
Proof.
  intros Hfree Hmap Hs'.
  assert (st_udp4Conns s' !! port = Some p) as Hport by (by rewrite Hmap, lookup_insert_eq).
  destruct (inv_udpPorts _ Hs' _ _ Hport) as (c & Hc & Hl & Hcl).
  destruct (CloseUDP_ends s' p Hs') as (_ & HI & _); [by eauto|].
  revert HI. unfold CloseUDP, derefUDP, storeUDP, releaseUDP4. mrun. rewrite Hc, Hcl.
  cbn [set_udp st_udp st_udp4Conns]. rewrite lookup_insert_eq. cbn [u_queueClosed].
  destruct (u_queueClosed c) eqn:Eq.
  { pose proof (proj2 (inv_udp _ Hs' _ _ Hc) Eq). congruence. }
  intros HI. eexists. split; [done|]. split; [exact HI|]. cbn. split; [|done].
  rewrite Hmap, Hl, delete_insert_eq. by apply delete_id.
Qed.

Definition opened s (port : Z) (p : nat) s' : Prop :=
  stackInv s' /\ st_udp4Conns s !! port = None /\ st_udp4Conns s' = <[port := p]> (st_udp4Conns s) /\
  p ∈ (shape s').1.1.1.2 /\ st_tcp4Conns s' = st_tcp4Conns s /\
  st_link s' = st_link s /\ exists c, st_udp s' !! p = Some c /\ u_queue c = [].

Lemma OpenUDP4_opened s port :
  stackInv s ->
  leads (opened s port)
        (fun e s' => s' = s /\ (e = ErrStackClosed \/ e = ErrUDP4PortInUse)) (OpenUDP4 port s).
Proof.
  intros Hs. pose proof (OpenUDP4_keeps port s Hs) as (_ & HI & HQ). revert HI HQ.
  unfold OpenUDP4, storeUDP, alloc. mrun. unfold id.
  destruct (st_closed s); [by intros _ _; cbn; auto|].
  destruct (st_udp4Conns s !! port) eqn:E; [by intros _ _; cbn; auto|]. intros HI HQ. unfold leads, opened, shape. cbn.
  split; [exact HI|]. split; [done|]. split; [done|]. rewrite lookup_insert_eq.
  split; [|by eauto]. apply elem_of_dom. by rewrite lookup_insert_eq.
Qed.

(** The stack after the call: well formed, with the port tables of [s]. *)
Definition restored s s' : Prop :=
  stackInv s' /\ st_udp4Conns s' = st_udp4Conns s /\ st_tcp4Conns s' = st_tcp4Conns s.

Lemma keep_leads {A} (I : Stack L -> Prop) (m : M (Stack L) A) s :
  keep I m -> I s -> leads (fun _ => I) (fun _ => I) (m s).
Proof. intros Hm Hs. eapply leads_weaken; [apply ends_leads, Hm, Hs|by intros ? ? []|done]. Qed.

Lemma withUDP_leads {A} s port p s1 (m : M (Stack L) A) (Q : A -> L -> Prop) :
  opened s port p s1 ->
  leads (fun a s' => shaped (shape s1) s' /\ Q a (st_link s')) (fun _ => shaped (shape s1)) (m s1) ->
  leads (fun a s' => restored s s' /\ Q a (st_link s')) (fun _ => restored s) (withUDP p m s1).
Proof.
  intros (Hs1 & Hfree & Hmap & Hp & Htcp & _) Hm.
  assert (forall s2, shaped (shape s1) s2 -> exists s3, CloseUDP p s2 = (Ok tt, s3) /\ restored s s3 /\ st_link s3 = st_link s2) as Hclose.
  { intros s2 [Hs2 Hsh]. unfold shape in Hsh. injection Hsh as Hu Ht _ _ _ _.
    destruct (CloseUDP_restores s s2 p port Hfree ltac:(congruence) Hs2) as (s3 & Ec & Hs3 & Hm3 & Ht3 & Hl3).
    exists s3. split; [done|]. split; [|done]. split; [done|]. split; [done|congruence]. }
  unfold withUDP, ignore, bind, try, lift. destruct (m s1) as [[a|e|] s2]; [| |done].
  - destruct Hm as [Hsh HQ]. destruct (Hclose s2 Hsh) as (s3 & -> & Hr & El). cbn. by rewrite El.
  - destruct (Hclose s2 Hm) as (s3 & -> & Hr & _). done.
Qed.
End with_udp.

(** ** Dial *)

Section dial.
Context {L : Type} `{Link L}.
Implicit Types s : Stack L.

Lemma register_inv s c :
  stackInv s -> st_tcp4Conns s !! localPort c = None ->
  stackInv (set_tcp (<[localPort c := st_fresh s]> (st_tcp4Conns s)) (<[st_fresh s := c]> (st_tcp s)) (snd (alloc s))).
Proof.
  intros [Ha Hup Hub Hu Ht Hp Hf Hi Hrv] Hn. destruct (Hf (st_fresh s) ltac:(lia)) as (Hnu & Hnt & Hnw).
  constructor; try done; cbn.
  - apply map_Forall_insert_2; [by rewrite lookup_insert_eq; eauto|].
    intros port p Hp'. destruct (Ht port p Hp') as (c' & Hc' & Hl).
    rewrite lookup_insert_ne; [by eauto|]. intros <-. by rewrite Hnt in Hc'.
  - intros p Hpf. destruct (Hf p ltac:(lia)) as (? & ? & ?). by rewrite lookup_insert_ne by lia.
Qed.

Lemma rxLoopIter_leads sh (E : error -> Stack L -> Prop) s :
  shaped sh s -> leads (fun _ s' => shaped sh s') E (rxLoopIter s).
Proof.
  intros Hs. destruct (rxLoopIter_shaped sh s Hs) as (Hp & HI & _). pose proof (rxLoopIter_noErr s) as Hn.
  destruct (rxLoopIter s) as [[u|e|] s']; cbn in *; [done|by destruct (Hn e)|done].
Qed.

(** What a dial promises on success and on failure. *)
Definition dialed s (p : nat) s' : Prop :=
  stackInv s' /\ exists c, st_tcp s' !! p = Some c /\ state c = tcpEstablished /\
    st_tcp4Conns s !! localPort c = None /\ 49152 <= localPort c <= 65533 /\
    st_tcp4Conns s' = <[localPort c := p]> (st_tcp4Conns s).
Definition dialFailed s (e : error) s' : Prop :=
  stackInv s' /\ st_tcp4Conns s' = st_tcp4Conns s.

Lemma dialWait_leads s s1 p lport :
  st_tcp4Conns s !! lport = None -> 49152 <= lport <= 65533 ->
  st_tcp4Conns s1 = <[lport := p]> (st_tcp4Conns s) -> stackInv s1 ->
  (exists c, st_tcp s1 !! p = Some c /\ localPort c = lport) ->
  leads (fun q s' => q = p /\ dialed s q s') (dialFailed s)
    ((r <- pump (dialIter p lport) (releaseTCP4 lport ;;; ret (inr ErrTCP4Timeout)) ;; lift (ofSum r)) s1).
Proof.
  intros Hfree Hrange Hmap Hs1 (c1 & Hc1 & Hl1).
  assert (forall s2, shaped (shape s1) s2 ->
    exists c2, st_tcp s2 !! p = Some c2 /\ localPort c2 = lport /\ st_tcp4Conns s2 = <[lport := p]> (st_tcp4Conns s))
    as Hshape.
  { intros s2 [Hs2 Hsh]. unfold shape in Hsh. injection Hsh as _ Ht _ Hports _ _.
    assert ((localPort <$> st_tcp s2) !! p = Some lport) as Hx by (rewrite Hports, lookup_fmap, Hc1; cbn; congruence).
    rewrite lookup_fmap in Hx. destruct (st_tcp s2 !! p) as [c2|]; [|done]. injection Hx as Hx.
    exists c2. split; [done|]. split; [done|congruence]. }
  assert (forall s2, shaped (shape s1) s2 -> dialFailed s ErrTCP4Timeout (set_tcp (delete lport (st_tcp4Conns s2)) (st_tcp s2) s2))
    as Hrel.
  { intros s2 Hs2. destruct (Hshape s2 Hs2) as (_ & _ & _ & Hm). split; [apply release_inv, Hs2|].
    cbn. rewrite Hm, delete_insert_eq. by apply delete_id. }
  apply leads_bind with (fun (r : nat + error) s' =>
    match r with inl q => q = p /\ dialed s q s' | inr e => dialFailed s e s' end).
  - apply (leads_pump (shaped (shape s1))); [| |by split].
    + intros s2 Hs2. destruct (Hshape s2 Hs2) as (c2 & Hc2 & Hl2 & Hm2).
      unfold dialIter. rewrite (bind_derefTCP s2 p c2 _ Hc2). case_bool_decide as Hst.
      { cbn. split; [done|]. split; [apply Hs2|]. exists c2. rewrite Hl2. done. }
      destruct (closed c2); [cbn; by apply Hrel|].
      eapply leads_bind; [by apply (rxLoopIter_leads (shape s1))|]. by intros u s3 Hs3.
    + intros s2 Hs2. cbn. by apply Hrel.
  - intros [q|e] s' Hs'; done.
Qed.

(** The connection is a new one. *)
Lemma dialTCP4Once_new s dst port :
  stackInv s -> leads (fun p s' => dialed s p s' /\ st_tcp s !! p = None) (dialFailed s) (dialTCP4Once dst port s).
Proof.
  intros Hs. unfold dialTCP4Once. destruct (To4 dst) as [d4|]; [|by split].
  unfold bind at 1, gets, id. destruct (st_closed s); [by split|].
  destruct (rt_Local (st_route s)) as [local|]; [|by split].
  apply leads_bind with (fun p s' => stackInv s' /\ connState s' = connState (set_rover (st_rover s') s) /\
           st_tcp4Conns s !! p = None /\ 49152 <= p <= 65533).
  { eapply leads_weaken; [by apply allocTCP4Port_leads|done|]. intros e s' ->. by split. }
  intros lport s0 (Hs0 & Hcs & Hfree & Hrange).
  pose proof (tcp4InitialSeq_safe (MAC (st_link s)) lport) as Hiss.
  destruct (tcp4InitialSeq (MAC (st_link s)) lport) as [iss|e|]; [|split; [done|]|done]; cycle 1.
  { unfold connState in Hcs. by injection Hcs. }
  unfold bind at 1, lift. unfold bind at 1. destruct (alloc s0) as [r0 s0'] eqn:Eal.
  injection Eal as <- Es0'. unfold bind at 1, registerTCP4, modify.
  set (c := newConn local lport d4 port iss).
  assert (st_tcp4Conns s0 = st_tcp4Conns s) as Hm0 by (unfold connState in Hcs; by injection Hcs).
  assert (stackInv (set_tcp (<[localPort c := st_fresh s0]> (st_tcp4Conns s0')) (<[st_fresh s0 := c]> (st_tcp s0')) s0'))
    as Hs1.
  { rewrite <- Es0'. apply (register_inv s0 c); [done|]. by rewrite Hm0. }
  match type of Hs1 with stackInv ?x => set (s1 := x) in * end.
  assert (st_tcp s1 !! st_fresh s0 = Some c) as Hc by (cbn; by rewrite lookup_insert_eq).
  assert (st_tcp4Conns s1 = <[lport := st_fresh s0]> (st_tcp4Conns s)) as Hm1.
  { cbn. rewrite <- Es0'. cbn. by rewrite Hm0. }
  assert (is_Some ((shape s1).1.1.2 !! st_fresh s0)) as Hp1 by (cbn [shape fst snd]; rewrite lookup_fmap, Hc; done).
  pose proof (sendSegmentExt_shaped (shape s1) (st_fresh s0) TCPFlagSYN iss 0 [] Hp1 s1 (conj Hs1 eq_refl)) as Hsyn.
  apply leads_bind with (fun _ s2 => shaped (shape s1) s2).
  { unfold try. destruct (sendSegmentExt _ _ _ _ _ s1) as [[u|e|] s2];
      destruct Hsyn as (Hnp & Hsh & _); cbn in *; done. }
  intros syn s2 [Hs2 Hsh2].
  assert (st_tcp4Conns s2 = <[lport := st_fresh s0]> (st_tcp4Conns s) /\
          exists c2, st_tcp s2 !! st_fresh s0 = Some c2 /\ localPort c2 = lport) as [Hm2 Hc2].
  { clearbody s1. unfold shape in Hsh2. injection Hsh2 as _ Ht _ Hports _ _. split; [etrans; [exact Ht|exact Hm1]|].
    assert ((localPort <$> st_tcp s2) !! st_fresh s0 = Some lport) as Hx by (rewrite Hports, lookup_fmap, Hc; done).
    rewrite lookup_fmap in Hx. destruct (st_tcp s2 !! st_fresh s0) as [c2|]; [|done]. injection Hx as Hx. eauto. }
  destruct syn as [u|e].
  - assert (st_tcp s0 = st_tcp s) as Et0 by (unfold connState in Hcs; by injection Hcs).
    eapply leads_weaken; [by apply dialWait_leads| |done]. intros q s' [-> Hd]. split; [exact Hd|]. rewrite <- Et0. by apply (inv_fresh _ Hs0).
  - cbn. split; [by apply release_inv|]. cbn. rewrite Hm2, delete_insert_eq. by apply delete_id.
Qed.

Lemma dialTCP4Once_leads s dst port :
  stackInv s -> leads (dialed s) (dialFailed s) (dialTCP4Once dst port s).
Proof. intros Hs. eapply leads_weaken; [by apply dialTCP4Once_new| |done]. by intros p s' []. Qed.

(** A dial does not touch the UDP ports. *)
Lemma dialTCP4Once_udp dst port : frames st_udp4Conns (dialTCP4Once dst port).
Proof.
  assert (forall A (m : M (Stack L) A), frames connState m -> frames st_udp4Conns m) as Hc.
  { intros A m Hm s. specialize (Hm s). unfold connState in Hm. by injection Hm. }
  assert (frames st_udp4Conns rxLoopIter) as Hrx.
  { intros s. pose proof (rxLoopIter_shape s) as Hm. unfold shape in Hm. by injection Hm. }
  assert (frames st_udp4Conns (portScan (L:=L) 1024 0)) as Hps.
  { generalize 1024%nat, 0. induction n as [|n IH]; intros i s; cbn [portScan]; [done|].
    destruct (_ !! _); [apply IH|done]. }
  assert (forall c f a b pl, frames st_udp4Conns (sendSegmentSt c f a b pl)) as Hsend by (intros; apply Hc, sendSegmentSt_frame).
  unfold dialTCP4Once, allocTCP4Port, registerTCP4, releaseTCP4, sendSegmentExt, derefTCP. go_frame.
  - done.
  - apply frames_pump; [|go_frame]. unfold dialIter, derefTCP, releaseTCP4. go_frame.
Qed.
End dial.
