(* ===== verification/Provenance.v ===== *)
(** * Where a datagram comes from

    A link that remembers every frame it delivered, and the invariant that a
    UDP connection's queue holds nothing but the payloads of such frames.  The
    clients built on UDP (DHCP, DNS) use it to say that what they return was
    received, while they ran, from the wire. *)

From S2P Require Import Prelude NetIP Effects Ethernet IPv4 Icmp Udp Tcp Arp TcpConn Stack StackTcp.

(** ** The recording link *)

Record Logged (L : Type) := mkLogged { lg_link : L; lg_seen : list (list byte) }.
Arguments mkLogged {L}. Arguments lg_link {L}. Arguments lg_seen {L}.

#[global] Instance logged_link `{Link L} : Link (Logged L) := {
  SendFrame f l := let '(r, l') := SendFrame f (lg_link l) in (r, mkLogged l' (lg_seen l));
  RecvFrame l := let '(r, l') := RecvFrame (lg_link l) in
                 (r, mkLogged l' (match r with inl f => f :: lg_seen l | inr _ => lg_seen l end));
  MAC l := MAC (lg_link l)
}.

(** ** The log only grows *)

Definition heardMore {L} (l l' : Logged L) : Prop := exists new, lg_seen l' = new ++ lg_seen l.
#[global] Instance heardMore_preorder {L} : PreOrder (@heardMore L).
Proof.
  split; [intros l; by exists []|]. intros l1 l2 l3 [n1 E1] [n2 E2]. exists (n2 ++ n1).
  rewrite E2, E1. by rewrite app_assoc.
Qed.

Definition sndMore {L T} (x y : T * Logged L) : Prop := heardMore (snd x) (snd y).
#[global] Instance sndMore_preorder {L T} : PreOrder (@sndMore L T).
Proof. split; [intros x; unfold sndMore; reflexivity|]. intros x y z. unfold sndMore. apply transitivity. Qed.

(** The log grows and the UDP connections stay. *)
Definition udpSame {L} (s s' : Stack (Logged L)) : Prop :=
  heardMore (st_link s) (st_link s') /\ st_udp s' = st_udp s.
#[global] Instance udpSame_preorder {L} : PreOrder (@udpSame L).
Proof.
  split; [intros s; split; reflexivity|]. intros s1 s2 s3 [H1 E1] [H2 E2]. split; [by etransitivity|congruence].
Qed.

Definition udpSameC {L} (x y : TCP4Conn * Stack (Logged L)) : Prop := udpSame (snd x) (snd y).
#[global] Instance udpSameC_preorder {L} : PreOrder (@udpSameC L).
Proof. split; [intros x; unfold udpSameC; reflexivity|]. intros x y z. unfold udpSameC. apply transitivity. Qed.

Section prov.
Context {L : Type} `{Link L}.
Implicit Types s : Stack (Logged L).

Lemma onLink_send_more {T} frame : moves (@sndMore L T) (onLink (sendFrame frame)).
Proof.
  intros [t l]. unfold onLink, zoom, sendFrame, sndMore. cbn.
  destruct (SendFrame frame (lg_link l)) as [r l']. cbn. by exists [].
Qed.
Lemma onLink_recv_more {T} : moves (@sndMore L T) (onLink recvFrame).
Proof.
  intros [t l]. unfold onLink, zoom, recvFrame, sndMore. cbn.
  destruct (RecvFrame (lg_link l)) as [[f|e] l']; cbn; [by exists [f]|by exists []].
Qed.
Lemma setTable_more t : moves (@sndMore L arpTable) (setTable t).
Proof. intros x. unfold sndMore. cbn. reflexivity. Qed.
#[local] Hint Resolve onLink_send_more onLink_recv_more setTable_more : gomove.

Lemma handleARPFrame_more mac ip payload : moves (@sndMore L _) (handleARPFrame mac ip payload).
Proof. unfold handleARPFrame. go_move. Qed.
#[local] Hint Resolve handleARPFrame_more : gomove.
Lemma resolveARP_more mac ip target : moves (@sndMore L _) (resolveARP mac ip target).
Proof. unfold resolveARP, resolveIter, cachedMAC. go_move. Qed.

Lemma onArp_same {A} (m : M (arpTable * Logged L) A) : moves sndMore m -> moves udpSame (onArp m).
Proof.
  intros Hm s. unfold onArp, zoom. specialize (Hm (st_arp s, st_link s)).
  destruct (m (st_arp s, st_link s)) as [r [t l]]. split; [exact Hm|done].
Qed.
Lemma onStLink_send_same frame : moves (@udpSame L) (onStLink (sendFrame frame)).
Proof.
  intros s. unfold onStLink, zoom, sendFrame. cbn. destruct (SendFrame _ _) as [r l]. cbn.
  split; [by exists []|done].
Qed.
Lemma nextIPID_same : moves (@udpSame L) nextIPID.
Proof. intros s. split; cbn; reflexivity. Qed.
#[local] Hint Resolve onStLink_send_same nextIPID_same : gomove.
Lemma sendIPv4Frame_same dst pkt : moves (@udpSame L) (sendIPv4Frame dst pkt).
Proof. unfold sendIPv4Frame. go_move. apply onArp_same, resolveARP_more. Qed.
#[local] Hint Resolve sendIPv4Frame_same : gomove.
Lemma sendSegmentSt_same c flags sq ak payload : moves (@udpSame L) (sendSegmentSt c flags sq ak payload).
Proof. unfold sendSegmentSt. go_move. Qed.
Lemma sendUDP4_same sp dp dst payload : moves (@udpSame L) (sendUDP4 sp dp dst payload).
Proof. unfold sendUDP4. go_move. Qed.
Lemma handleARP_same payload : moves (@udpSame L) (handleARP payload).
Proof. unfold handleARP. go_move. apply onArp_same, handleARPFrame_more. Qed.

Lemma handleICMP_same h body : moves (@udpSame L) (handleICMP h body).
Proof.
  unfold handleICMP. apply moves_bind; [apply _|go_move|]. intros msg.
  destruct (icmp_Type msg =? ICMPTypeEchoReply); [|go_move].
  intros s. mrun. unfold id. destruct (st_pings s !! _) as [w|]; [|reflexivity]. cbn [st_waiters set_pings].
  destruct (st_waiters s !! w) as [ch|]; [|split; cbn; reflexivity]. destruct (len ch <? 1); split; cbn; reflexivity.
Qed.

Lemma deliverSegment_same h payload : moves (@udpSameC L) (deliverSegment h payload).
Proof.
  assert (moves (@udpSameC L) sendAck) as Hs.
  { unfold sendAck, conn. apply moves_bind; [apply _|go_move|]. intros c. apply moves_ignore; [apply _|].
    intros [c0 s]. unfold zoom. cbn [snd]. pose proof (sendSegmentSt_same c TCPFlagACK (sndNxt c) (rcvNxt c) [] s) as Hm.
    cbn [sendSegment stackSink]. destruct (sendSegmentSt _ _ _ _ _ s) as [r s']. exact Hm. }
  assert (forall f, moves (@udpSameC L) (update f)) as Hu.
  { intros f [c s]. unfold update, modify, udpSameC. cbn. reflexivity. }
  unfold deliverSegment, acceptSegmentLocked, conn. go_move.
Qed.

Lemma handleTCP4_same h body : moves (@udpSame L) (handleTCP4 h body).
Proof.
  unfold handleTCP4, derefTCP. go_move. intros s. unfold onConn.
  destruct (st_tcp s !! _) as [c|]; [|reflexivity].
  match goal with |- context [deliverSegment ?a ?b] => pose proof (deliverSegment_same a b (c, s)) as Hd;
    destruct (deliverSegment a b (c, s)) as [r [c' s']] end.
  destruct Hd as [H1 H2]. by split.
Qed.

(** ** Datagrams on the wire *)

(** The frame carries, through Ethernet, IPv4 and UDP with their checks, the
    datagram [dg] for [port]. *)
Definition udpFrame (port : Z) (frame : list byte) (dg : udp4Datagram) : Prop :=
  exists eth h body uh,
    ParseEthernet frame = Ok eth /\ eth_EtherType eth = EtherTypeIPv4 /\
    ParseIPv4 (eth_Payload eth) = Ok (h, body) /\ ip_Protocol h = IPProtoUDP /\
    ParseUDP4 (ip_Src h) (ip_Dst h) body = Ok (uh, dg_Payload dg) /\
    udp_DstPort uh = port /\ dg_SrcPort dg = udp_SrcPort uh /\ dg_SrcIP dg = ip_Src h.

(** Since the log was [B]: the connection [p] is bound to [port] and its queue
    holds datagrams of frames received since. *)
Definition heard (B : list (list byte)) (p : nat) (port : Z) s : Prop :=
  exists new, lg_seen (st_link s) = new ++ B /\
    forall c, st_udp s !! p = Some c -> u_localPort c = port /\
      forall dg, dg ∈ u_queue c -> exists f, f ∈ new /\ udpFrame port f dg.

Lemma heard_same B p port s s' : udpSame s s' -> heard B p port s -> heard B p port s'.
Proof.
  intros [[n En] Eu] (new & Enew & Hq). exists (n ++ new). split; [by rewrite En, Enew, app_assoc|].
  rewrite Eu. intros c Hc. destruct (Hq c Hc) as [Hp Hdg]. split; [done|]. intros dg Hin.
  destruct (Hdg dg Hin) as (f & Hf & Hu). exists f. split; [|done]. apply elem_of_app. by right.
Qed.

(** A received frame, dispatched. *)
Lemma lastN_elem {A} n (l : list A) x : x ∈ lastN n l -> x ∈ l.
Proof. intros Hx. unfold lastN in Hx. rewrite <- (take_drop (length l - n) l). apply elem_of_app. by right. Qed.

Lemma handleUDP4_heard B p port s frame new h body eth :
  stackInv s -> heard B p port s -> lg_seen (st_link s) = new ++ B -> frame ∈ new ->
  ParseEthernet frame = Ok eth -> eth_EtherType eth = EtherTypeIPv4 ->
  ParseIPv4 (eth_Payload eth) = Ok (h, body) -> ip_Protocol h = IPProtoUDP ->
  heard B p port (snd (handleUDP4 h body s)).
Proof.
  intros Hs Hh Enew Hf Eeth Ety Eip Epr. unfold handleUDP4. unfold bind at 1, lift.
  destruct (ParseUDP4 (ip_Src h) (ip_Dst h) body) as [[uh payload]|e|] eqn:Eu; [|done|done].
  unfold bind, gets, id. destruct (st_udp4Conns s !! udp_DstPort uh) as [q|] eqn:Eq; [|done].
  destruct (inv_udpPorts _ Hs _ _ Eq) as (c & Hc & Hl & Hcl).
  destruct (ParseIPv4_ok _ _ _ Eip) as (_ & _ & _ & Hsrc & _). rewrite (To4_id _ Hsrc).
  rewrite (deliverUDP_queue s q c) by (done || by apply (inv_udp _ Hs _ _ Hc)). cbn [snd].
  destruct Hh as (new' & Enew' & Hq). assert (new' = new) as -> by (apply (app_inv_tail B); congruence).
  exists new. split; [done|]. cbn. destruct (decide (p = q)) as [->|Hne].
  - rewrite lookup_insert_eq. intros c' [= <-]. destruct (Hq c Hc) as [Hp Hdg]. split; [done|]. cbn.
    intros dg [Hin|Hin]%lastN_elem%elem_of_app; [by apply Hdg|].
    apply list_elem_of_singleton in Hin as ->. exists frame. split; [done|].
    exists eth, h, body, uh. repeat split; try done. congruence.
  - rewrite lookup_insert_ne by done. exact Hq.
Qed.

Lemma rxLoopIter_heard B p port s :
  stackInv s -> heard B p port s -> heard B p port (snd (rxLoopIter s)).
Proof.
  intros Hs Hh. unfold rxLoopIter. pose proof (onStLink_recv_keep s Hs) as (_ & Hs1 & _).
  revert Hs1. unfold bind at 1, try, onStLink, zoom, recvFrame. cbn [RecvFrame logged_link].
  destruct (RecvFrame (lg_link (st_link s))) as [[frame|e] l']; cbn [ofSum snd fst]; intros Hs1.
  2:{ cbn. eapply heard_same; [|done]. split; [by exists []|done]. }
  set (s1 := set_net _ _ s) in *.
  assert (heard B p port s1) as Hh1.
  { eapply heard_same; [|done]. split; [by exists [frame]|done]. }
  destruct Hh as (new & Enew & _). assert (lg_seen (st_link s1) = (frame :: new) ++ B) as E1.
  { cbn. by rewrite Enew. }
  unfold ignore, bind, try. assert (heard B p port (snd (dispatch frame s1))) as Hd.
  { unfold dispatch. unfold bind at 1, lift. destruct (ParseEthernet frame) as [eth|e|] eqn:Eeth; [|done|done].
    destruct (eth_EtherType eth =? EtherTypeARP).
    { eapply heard_same; [|exact Hh1]. apply handleARP_same. }
    destruct (Z.eqb_spec (eth_EtherType eth) EtherTypeIPv4) as [Ety|]; [|done].
    unfold handleIPv4. unfold bind at 1, lift. destruct (ParseIPv4 (eth_Payload eth)) as [[h body]|e|] eqn:Eip; [|done|done].
    destruct (_ =? _); [eapply heard_same; [|exact Hh1]; apply handleICMP_same|].
    destruct (Z.eqb_spec (ip_Protocol h) IPProtoUDP) as [Epr|].
    { eapply handleUDP4_heard; [done|done|exact E1|by left|done|done|done|done]. }
    destruct (_ =? _); [eapply heard_same; [|exact Hh1]; apply handleTCP4_same|done]. }
  destruct (dispatch frame s1) as [[u|e|] s2]; done.
Qed.

(** ** Reading *)

(** Some frame received since the log was [B] carries the message [b] for
    [port], as far as the caller's buffer of [n] bytes reaches. *)
Definition heardMsg (B : list (list byte)) (port : Z) (n : nat) (b : list byte) (l : Logged L) : Prop :=
  exists new f dg, lg_seen l = new ++ B /\ f ∈ new /\ udpFrame port f dg /\ b = take n (dg_Payload dg).

Definition listening sh B p port s : Prop := shaped sh s /\ heard B p port s.

Lemma readFromIter_heard sh B p port n s :
  p ∈ sh.1.1.1.2 -> listening sh B p port s ->
  leads (fun r s' => listening sh B p port s' /\ forall b src, r = Some (b, src) -> heardMsg B port n b (st_link s'))
    (fun _ => listening sh B p port) (readFromIter p n s).
Proof.
  intros Hp [Hs Hh]. pose proof (readFromIter_shaped sh p n Hp s Hs) as (Hnp & Hs' & _).
  destruct (shaped_udp sh s p Hs Hp) as [c Hc]. revert Hnp Hs'.
  unfold readFromIter. rewrite (bind_derefUDP s p c _ Hc). destruct (u_queue c) as [|dg q] eqn:Eq.
  - destruct (u_queueClosed c); [by intros; split|]. intros _ _.
    pose proof (rxLoopIter_shaped sh s Hs) as (Hnp & Hs' & _).
    pose proof (rxLoopIter_heard B p port s (proj1 Hs) Hh) as Hh'.
    pose proof (rxLoopIter_noErr s) as Hne. unfold bind.
    destruct (rxLoopIter s) as [[u|e|] s']; cbn in *; [|by destruct (Hne e)|done]. split; [by split|done].
  - unfold storeUDP. mrun. intros _ Hs'. destruct Hh as (new & Enew & Hq). destruct (Hq c Hc) as [Hl Hdg].
    split; [split; [exact Hs'|]|].
    + exists new. split; [done|]. cbn. rewrite lookup_insert_eq. intros c' [= <-]. split; [done|]. cbn.
      intros dg' Hin. apply Hdg. rewrite Eq. by right.
    + intros b src [= <- <-]. destruct (Hdg dg) as (f & Hf & Hu); [rewrite Eq; by left|].
      by exists new, f, dg.
Qed.

Lemma ReadFrom_heard sh B p port n s :
  p ∈ sh.1.1.1.2 -> listening sh B p port s ->
  leads (fun r s' => listening sh B p port s' /\ heardMsg B port n (fst r) (st_link s'))
    (fun _ => listening sh B p port) (ReadFrom p n s).
Proof.
  intros Hp Hl. destruct (shaped_udp sh s p (proj1 Hl) Hp) as [c Hc].
  unfold ReadFrom. rewrite (bind_derefUDP s p c _ Hc). destruct (u_closed c); [done|].
  apply (leads_pump (listening sh B p port)); [|done|done].
  intros s1 Hl1. eapply leads_weaken; [by apply readFromIter_heard| |done].
  intros [[b src]|] s2 [Hl2 Hm]; [|done]. split; [done|]. by eapply Hm.
Qed.

Lemma WriteTo_heard sh B p port payload dst dport s :
  p ∈ sh.1.1.1.2 -> listening sh B p port s ->
  leads (fun _ => listening sh B p port) (fun _ => listening sh B p port) (WriteTo p payload dst dport s).
Proof.
  intros Hp [Hs Hh]. pose proof (keep_leads (shaped sh) _ s (WriteTo_shaped sh p payload dst dport Hp) Hs) as Hk.
  assert (udpSame s (snd (WriteTo p payload dst dport s))) as Hm.
  { unfold WriteTo, derefUDP. destruct (To4 dst); [|reflexivity].
    apply moves_bind; [apply _|go_move|]. intros c. destruct (u_closed c); [go_move|apply sendUDP4_same]. }
  destruct (WriteTo p payload dst dport s) as [[u|e|] s']; [| |done];
    (split; [exact Hk|]); by eapply heard_same.
Qed.

(** A connection just opened has heard nothing. *)
Lemma opened_listening s port p s1 :
  opened s port p s1 -> listening (shape s1) (lg_seen (st_link s)) p port s1.
Proof.
  intros (Hs1 & Hfree & Hmap & Hp & Htcp & El & c & Hc & Hq). split; [by split|].
  exists []. split; [by rewrite El|]. intros c' Hc'. rewrite Hc in Hc'. injection Hc' as <-.
  destruct (inv_udpPorts _ Hs1 port p) as (c' & Hc' & Hl & _); [by rewrite Hmap, lookup_insert_eq|].
  split; [congruence|]. rewrite Hq. by intros dg ?%elem_of_nil.
Qed.
End prov.
