(* ===== verification/StackProps.v ===== *)
(** * Properties of the stack

    Reachability and safety over the whole API, datagram delivery, the queue
    bound, ping demultiplexing, port allocation, dial, write and close. *)

From S2P Require Import Prelude NetIP Effects Ethernet IPv4 Icmp Udp Tcp Arp TcpConn Stack StackTcp.

(** ** Reachable states *)

Section api.
Context {L : Type} `{Link L}.

(** The calls a client makes, and the frames the receive loop dispatches. *)
Inductive apiCall :=
| CSetIPv4Address (addr : IP) (mask : list byte)
| CSetDefaultGateway (gw : option IP)
| CStart
| CClose
| CDispatch (frame : list byte)
| CRxLoop
| COpenUDP4 (port : Z)
| CWriteTo (p : nat) (payload : list byte) (dst : IP) (port : Z)
| CReadFrom (p : nat) (buf : nat)
| CCloseUDP (p : nat)
| CPingOnce (dst : IP) (payload : list byte)
| CDial (dst : IP) (port : Z)
| CRead (p : nat) (buf : nat)
| CWrite (p : nat) (data : list byte)
| CCloseTCP (p : nat).

Definition void {A} (m : M (Stack L) A) : M (Stack L) unit := m ;;; ret tt.

Definition runCall (c : apiCall) : M (Stack L) unit :=
  match c with
  | CSetIPv4Address a m => SetIPv4Address a m
  | CSetDefaultGateway g => SetDefaultGateway g
  | CStart => Start
  | CClose => Close
  | CDispatch f => dispatch f
  | CRxLoop => rxLoopIter
  | COpenUDP4 port => void (OpenUDP4 port)
  | CWriteTo p pl dst port => WriteTo p pl dst port
  | CReadFrom p n => void (ReadFrom p n)
  | CCloseUDP p => CloseUDP p
  | CPingOnce dst pl => PingOnce dst pl
  | CDial dst port => void (dialTCP4Once dst port)
  | CRead p n => void (Read p n)
  | CWrite p data => void (Write p data)
  | CCloseTCP p => CloseTCP p
  end.

(** A method is called on a connection that was opened. *)
Definition validCall (c : apiCall) (s : Stack L) : Prop :=
  match c with
  | CWriteTo p _ _ _ | CReadFrom p _ | CCloseUDP p => is_Some (st_udp s !! p)
  | CRead p _ | CWrite p _ | CCloseTCP p => is_Some (st_tcp s !! p)
  | _ => True
  end.

Inductive reachable : Stack L -> Prop :=
| reach_new link : reachable (New link)
| reach_call s c : reachable s -> validCall c s -> reachable (snd (runCall c s)).

Lemma void_ends {A} (m : M (Stack L) A) s Q : ends stackInv Q (m s) -> ends stackInv (fun _ _ => True) (void m s).
Proof. intros Hm. unfold void. eapply ends_bind; [exact Hm|]. intros. by apply ends_ok. Qed.

Lemma runCall_ends c s : stackInv s -> validCall c s -> ends stackInv (fun _ _ => True) (runCall c s).
Proof.
  intros Hs Hv. destruct c; cbn [runCall validCall] in *.
  - by apply SetIPv4Address_keep.
  - by apply SetDefaultGateway_keep.
  - by apply Start_keep.
  - by apply Close_keep.
  - by apply dispatch_keep.
  - by apply rxLoopIter_keep.
  - by eapply void_ends, OpenUDP4_keeps.
  - by apply WriteTo_ends.
  - by eapply void_ends, ReadFrom_ends.
  - by apply CloseUDP_ends.
  - by apply PingOnce_keep.
  - apply void_ends with (fun _ _ => True). apply leads_ends.
    eapply leads_weaken; [by apply dialTCP4Once_leads| |]; [by intros a s' []|by intros e s' []].
  - by eapply void_ends, Read_ends.
  - by eapply void_ends, Write_ends.
  - destruct Hv as [c Hc]. destruct (closed c) eqn:Hcl.
    + unfold CloseTCP. rewrite (bind_derefTCP s p c _ Hc), Hcl. by apply ends_ok.
    + destruct (CloseTCP_open s p c Hs Hc Hcl) as (s' & c' & -> & Hs' & _). by apply ends_ok.
Qed.

Lemma reachable_inv s : reachable s -> stackInv s.
Proof. induction 1 as [link|s c Hr IH Hv]; [apply New_inv|]. by apply runCall_ends. Qed.
End api.

(** C2. No sequence of API calls and received frames, over any link, makes the
    stack panic: no index or slice out of range on hostile frames, no nil
    connection, no double close, no send on a closed channel.  Every reachable
    state satisfies the stack invariant. *)
Theorem stack_never_panics `{Link L} (s : Stack L) c :
  reachable s -> validCall c s -> stackInv s /\ fst (runCall c s) <> Panic.
Proof.
  intros Hr Hv. pose proof (reachable_inv s Hr) as Hs. split; [done|].
  apply (proj1 (runCall_ends c s Hs Hv)).
Qed.

Lemma stack_never_panics_witness :
  let s0 := New (mkScriptLink sampleMAC [] []) in
  let s1 := snd (runCall (COpenUDP4 68) s0) in
  stackInv s1 /\ fst (runCall (CCloseUDP 0) s1) <> Panic.
Proof.
  intros s0 s1. apply (stack_never_panics s1 (CCloseUDP 0)).
  - apply reach_call; [apply reach_new|exact I].
  - vm_compute. eauto.
Defined.

(** Any byte string handed to the dispatcher is handled: the call returns, does
    not panic, and leaves a well-formed stack whose sets of open connections
    and bound ports are unchanged.  The only errors come from parsing and
    sending. *)
Theorem dispatch_total `{Link L} (s : Stack L) frame :
  stackInv s ->
  let '(r, s') := rxLoopIter s in
  r = Ok tt /\ stackInv s' /\ shape s' = shape s /\
  fst (dispatch frame s) <> Panic /\ stackInv (snd (dispatch frame s)).
Proof.
  intros Hs. destruct (rxLoopIter_keep s Hs) as (Hp & HI & _).
  pose proof (rxLoopIter_shape s) as Hsh. pose proof (rxLoopIter_noErr s) as Hn.
  destruct (dispatch_keep frame s Hs) as (Hdp & HdI & _).
  destruct (rxLoopIter s) as [[[]|e|] s']; cbn in *; [done|by destruct (Hn e)|done].
Qed.

Lemma dispatch_total_witness :
  let s := New (mkScriptLink sampleMAC [make 40] []) in
  stackInv s /\ fst (rxLoopIter s) = Ok tt /\ fst (dispatch (repeat xff 13) s) <> Panic.
Proof.
  intros s. assert (stackInv s) as Hs by apply New_inv. split; [exact Hs|].
  pose proof (dispatch_total s (repeat xff 13) Hs) as Hd.
  destruct (rxLoopIter s) as [r s']. destruct Hd as (-> & _ & _ & Hp & _). split; [done|exact Hp].
Defined.

(** ** UDP *)

(** A datagram travels through all the layers: the frame built by MarshalUDP4,
    MarshalIPv4 and MarshalEthernet, with any padding behind it, enqueues
    exactly the sender's address, port and payload at the connection bound to
    the destination port, as long as the datagram's checksum is not the
    zero/0xFFFF one the parser rejects. *)
Theorem udp_end_to_end `{Link L} (s : Stack L) src dst sp dp payload ipid dgram pkt pad ethDst ethSrc p c :
  stackInv s -> len src = 4 -> len dst = 4 -> isU16 sp -> isU16 dp -> isU16 ipid ->
  len ethDst = 6 -> len ethSrc = 6 ->
  MarshalUDP4 src dst sp dp payload = Ok dgram -> udpComputed src dst sp dp payload <> 0 ->
  MarshalIPv4 src dst IPProtoUDP ipid dgram = Ok pkt ->
  st_udp4Conns s !! dp = Some p -> st_udp s !! p = Some c ->
  dispatch (eth_layout ethDst ethSrc EtherTypeIPv4 (pkt ++ pad)) s
  = (Ok tt, set_udp (st_udp4Conns s)
       (<[p := mkUDP4Conn (u_localPort c) (lastN 16 (u_queue c ++ [mkDatagram src sp payload]))
                 (u_queueClosed c) false]> (st_udp s)) s).
Proof.
  intros Hs Hsrc Hdst Hsp Hdp Hid Hed Hes Hm Hck Hip Hp Hc.
  pose proof (MarshalUDP4_ok _ _ _ _ _ _ Hm) as Hlen.
  apply MarshalIPv4_ok in Hip as (s4 & d4 & Es & Ed & Hl & ->).
  rewrite To4_id in Es, Ed by done. injection Es as <-. injection Ed as <-.
  unfold dispatch. unfold bind at 1, lift. rewrite ParseEthernet_layout by done.
  cbn [eth_EtherType eth_Payload]. change (u16 EtherTypeIPv4 =? EtherTypeARP) with false.
  change (u16 EtherTypeIPv4 =? EtherTypeIPv4) with true. cbv iota. rewrite <- app_assoc.
  unfold handleIPv4. unfold bind at 1, lift. rewrite ParseIPv4_layout; try done; cycle 1.
  { unfold isU16. change (2 ^ 16) with 65536. pose_lens. lia. }
  cbv iota. cbn [ip_Protocol]. change (IPProtoUDP =? IPProtoICMP) with false.
  change (IPProtoUDP =? IPProtoUDP) with true. cbv iota.
  unfold handleUDP4. unfold bind at 1, lift. cbn [ip_Src ip_Dst].
  rewrite (ParseUDP4_marshalled src dst src dst sp dp payload pad dgram) by (done || by apply To4_id).
  rewrite (proj2 (Z.eqb_neq _ _) Hck). unfold bind at 1, gets, id. cbn [udp_DstPort udp_SrcPort].
  rewrite Hp, To4_id by done.
  destruct (inv_udpPorts _ Hs _ _ Hp) as (c' & Hc' & Hlp & Hcl). rewrite Hc in Hc'. injection Hc' as <-.
  rewrite (deliverUDP_queue s p c) by (done || by apply (inv_udp _ Hs _ _ Hc)). by rewrite Hcl.
Qed.

(** A stack with one UDP connection, on the DHCP client port. *)
Definition udpStack : Stack ScriptLink :=
  snd (runCall (COpenUDP4 68) (New (mkScriptLink sampleMAC [] []))).
Definition helloDgram : list byte :=
  udpDgram 67 68 13 (udpComputed ipB ipA 67 68 (str "hello")) (str "hello").
Definition helloPkt : list byte :=
  ipHdr 33 7 17 (InternetChecksum (ipHdr 33 7 17 0 ipB ipA)) ipB ipA ++ helloDgram.

Lemma udp_end_to_end_witness :
  exists s', dispatch (eth_layout sampleMAC BroadcastMAC EtherTypeIPv4 (helloPkt ++ make 13)) udpStack = (Ok tt, s') /\
    u_queue <$> st_udp s' !! 0%nat = Some [mkDatagram ipB 67 (str "hello")].
Proof.
  eexists. split.
  - apply (udp_end_to_end udpStack ipB ipA 67 68 (str "hello") 7 helloDgram helloPkt (make 13)
             sampleMAC BroadcastMAC 0 (mkUDP4Conn 68 [] false false));
      first [done | vm_compute; reflexivity | vm_compute; discriminate | idtac].
    apply (runCall_ends (COpenUDP4 68)); [apply New_inv|exact I].
  - vm_compute. reflexivity.
Defined.

Lemma lastN_snoc {A} n (l : list A) x : (0 < n)%nat -> lastN n (lastN n l ++ [x]) = lastN n (l ++ [x]).
Proof.
  intros Hn. unfold lastN. rewrite !length_app, length_drop. cbn [length].
  destruct (decide (length l <= n)%nat).
  - replace (length l - n)%nat with 0%nat by lia. rewrite drop_0, Nat.sub_0_r. done.
  - rewrite !drop_app_le by (rewrite ?length_drop; lia). rewrite drop_drop. f_equal. f_equal. lia.
Qed.

Fixpoint deliverAll `{Link L} (p : nat) (dgs : list udp4Datagram) : M (Stack L) unit :=
  match dgs with [] => ret tt | dg :: r => deliverUDP p dg ;;; deliverAll p r end.

(** A connection's receive queue is bounded and keeps the newest: after any
    number of datagrams and no reads, it holds exactly the last sixteen of what
    was queued and delivered, in order.  Delivery never blocks and never
    fails. *)
Theorem udp_queue_keeps_newest `{Link L} (s : Stack L) p c dgs :
  stackInv s -> st_udp s !! p = Some c -> u_closed c = false -> dgs <> [] ->
  exists s', deliverAll p dgs s = (Ok tt, s') /\ stackInv s' /\
    st_udp s' !! p = Some (mkUDP4Conn (u_localPort c) (lastN 16 (u_queue c ++ dgs)) (u_queueClosed c) false).
Proof.
  intros Hs Hc Hcl. revert s c Hs Hc Hcl. induction dgs as [|dg dgs IH]; intros s c Hs Hc Hcl Hne; [done|].
  cbn [deliverAll]. unfold bind.
  pose proof (inv_udp _ Hs _ _ Hc) as Hok. rewrite (deliverUDP_queue s p c) by done.
  assert (stackInv (snd (deliverUDP p dg s))) as Hs1 by (apply deliverUDP_ends; [done|by eauto]).
  rewrite (deliverUDP_queue s p c) in Hs1 by done. cbn [snd] in Hs1.
  destruct dgs as [|dg' dgs].
  - eexists. split; [done|]. split; [done|]. cbn. rewrite lookup_insert_eq, Hcl. done.
  - edestruct IH as (s' & E & Hs' & Hq); [exact Hs1|cbn; by rewrite lookup_insert_eq|done|done|].
    exists s'. split; [exact E|]. split; [done|]. rewrite Hq. cbn [u_queue u_localPort u_queueClosed].
    do 2 f_equal. rewrite (app_assoc _ [dg] (dg' :: dgs)). clear.
    generalize (u_queue c ++ [dg]) as q. intros q. revert dg' q. induction dgs as [|d r IHr] using rev_ind;
      intros dg' q; [by rewrite lastN_snoc by lia|].
    rewrite app_comm_cons, !app_assoc. rewrite <- (lastN_snoc 16 (lastN 16 q ++ dg' :: r)), IHr by lia. apply lastN_snoc. lia.
Qed.

Lemma udp_queue_keeps_newest_witness :
  let dgs := (fun n => mkDatagram ipB 67 [z2b (Z.of_nat n)]) <$> seq 0 20 in
  exists s', deliverAll 0 dgs udpStack = (Ok tt, s') /\
    st_udp s' !! 0%nat = Some (mkUDP4Conn 68 (drop 4 dgs) false false).
Proof.
  intros dgs.
  destruct (udp_queue_keeps_newest udpStack 0 (mkUDP4Conn 68 [] false false) dgs) as (s' & E & _ & Hq).
  - apply (runCall_ends (COpenUDP4 68)); [apply New_inv|exact I].
  - vm_compute. reflexivity.
  - reflexivity.
  - done.
  - exists s'. split; [exact E|]. rewrite Hq. reflexivity.
Defined.

(** ** Ping *)

Lemma pingKey_val i q : isU16 i -> isU16 q -> pingKey i q = i * 65536 + q.
Proof.
  intros Hi Hq. unfold pingKey, isU16, u32 in *. change (2 ^ 16) with 65536 in *.
  rewrite Z.mod_small by (rewrite Z.shiftl_mul_pow2 by lia; change (2 ^ 16) with 65536; change (2 ^ 32) with 4294967296; lia).
  rewrite lor_add_disjoint by (change (2 ^ 16) with 65536; lia). done.
Qed.

(** An echo reply wakes exactly the ping it answers: the reply with identifier
    [i] and sequence [q] is put on the channel registered under that pair and
    the registration is removed; a waiter registered under any other pair, and
    every other channel, is untouched. *)
Theorem ping_reply_wakes_its_waiter `{Link L} (s : Stack L) h body msg w ch :
  stackInv s -> ParseICMPEcho body = Ok msg -> icmp_Type msg = ICMPTypeEchoReply ->
  st_pings s !! pingKey (icmp_Identifier msg) (icmp_Sequence msg) = Some w ->
  st_waiters s !! w = Some ch ->
  exists s', handleICMP h body s = (Ok tt, s') /\ stackInv s' /\
    st_waiters s' = <[w := if len ch <? 1 then ch ++ [msg] else ch]> (st_waiters s) /\
    st_pings s' !! pingKey (icmp_Identifier msg) (icmp_Sequence msg) = None /\
    (forall i q, isU16 i -> isU16 q -> isU16 (icmp_Identifier msg) -> isU16 (icmp_Sequence msg) ->
       (i, q) <> (icmp_Identifier msg, icmp_Sequence msg) ->
       st_pings s' !! pingKey i q = st_pings s !! pingKey i q).
Proof.
  intros Hs Hp Ht Hw Hch. pose proof (handleICMP_keep h body s Hs) as (_ & HI & _). revert HI.
  unfold handleICMP. mrun. rewrite Hp, Ht. cbn [ICMPTypeEchoReply Z.eqb]. unfold id. rewrite Hw.
  cbn [st_waiters set_pings]. rewrite Hch. intros HI.
  assert (forall i q, isU16 i -> isU16 q -> isU16 (icmp_Identifier msg) -> isU16 (icmp_Sequence msg) ->
    (i, q) <> (icmp_Identifier msg, icmp_Sequence msg) ->
    delete (pingKey (icmp_Identifier msg) (icmp_Sequence msg)) (st_pings s) !! pingKey i q = st_pings s !! pingKey i q) as Hother.
  { intros i q Hi Hq Hi' Hq' Hne. apply lookup_delete_ne. rewrite !pingKey_val by done.
    unfold isU16 in *. change (2 ^ 16) with 65536 in *. intros E. apply Hne. f_equal; lia. }
  destruct (len ch <? 1); (eexists; split; [done|]; split; [exact HI|]; cbn;
    split; [|split; [by rewrite lookup_delete_eq|done]]); [done|].
  by rewrite insert_id.
Qed.

Definition echoReplyBody : list byte :=
  icmpMsg 0 0 (InternetChecksum (icmpMsg 0 0 0 pingIdent 3 (str "ping"))) pingIdent 3 (str "ping").
Definition pingStack : Stack ScriptLink :=
  set_pings (<[pingKey pingIdent 3 := 0%nat]> ∅) (<[0%nat := []]> ∅)
    (snd (alloc (New (mkScriptLink sampleMAC [] [])))).
Definition anyIPHeader : IPv4Header := mkIPv4Header 0 32 0 2 0 64 1 0 ipB ipA.

Lemma ping_reply_wakes_its_waiter_witness :
  exists s' m, handleICMP anyIPHeader echoReplyBody pingStack = (Ok tt, s') /\
    st_waiters s' !! 0%nat = Some [m] /\ icmp_Payload m = str "ping".
Proof.
  set (m := mkICMPEcho 0 0 (InternetChecksum (icmpMsg 0 0 0 pingIdent 3 (str "ping"))) pingIdent 3 (str "ping")).
  destruct (ping_reply_wakes_its_waiter pingStack anyIPHeader echoReplyBody m 0%nat [])
    as (s' & E & _ & Hw & _).
  - apply (newPing_inv (New (mkScriptLink sampleMAC [] [])) (pingKey pingIdent 3)). apply New_inv.
  - vm_compute. reflexivity.
  - reflexivity.
  - vm_compute. reflexivity.
  - reflexivity.
  - exists s', m. split; [exact E|]. rewrite Hw. split; reflexivity.
Defined.

(** ** TCP *)

(** Port allocation: a port the allocator returns is free and in the ephemeral
    range, the allocator changes nothing but its rover, and while fewer than
    1024 connections are registered it always finds one. *)
Theorem allocTCP4Port_fresh `{Link L} (s : Stack L) :
  stackInv s -> st_closed s = false ->
  leads (fun p s' => stackInv s' /\ st_tcp4Conns s !! p = None /\ 49152 <= p <= 65533 /\
           s' = set_rover (st_rover s') s)
        (fun e s' => e = ErrTCP4PortInUse /\ s' = s /\ (1024 <= size (st_tcp4Conns s))%nat)
        (allocTCP4Port s).
Proof.
  intros Hs Hcl. unfold allocTCP4Port. mrun. unfold id. rewrite Hcl.
  destruct (portScan_spec 1024 0 s) as [(k & Hk & Hn & E)|[Hall E]]; rewrite E; cbn [leads].
  - split; [apply set_rover_inv; [done|apply Z.mod_pos_bound; lia]|]. split; [done|].
    split; [apply candidate_range|done].
  - split; [done|]. split; [done|]. destruct (decide (size (st_tcp4Conns s) < 1024)%nat); [|lia].
    destruct (portScan_free s) as (p & s' & E'); [apply Hs|done|]. by rewrite E in E'.
Qed.

Lemma allocTCP4Port_fresh_witness :
  leads (fun p s' => 49152 <= p <= 65533) (fun _ _ => False) (allocTCP4Port (New (mkScriptLink sampleMAC [] []))).
Proof.
  eapply leads_weaken; [apply (allocTCP4Port_fresh (New (mkScriptLink sampleMAC [] []))); [apply New_inv|reflexivity]| |].
  - by intros p s' (_ & _ & Hr & _).
  - intros e s' (_ & _ & Hsz). vm_compute in Hsz. lia.
Defined.

(** Dialing is atomic on the demux table, for any peer and any link behaviour:
    a successful dial returns an ESTABLISHED connection and registers exactly
    its fresh ephemeral port; a failed one (bad address, no route, SYN not
    sent, reset, no answer within the pump budget) leaves the table exactly as
    it was, so a failed attempt never leaks a port. *)
Theorem dial_atomic `{Link L} (s : Stack L) dst port :
  stackInv s ->
  leads (fun p s' => stackInv s' /\ exists c, st_tcp s' !! p = Some c /\ state c = tcpEstablished /\
           st_tcp4Conns s !! localPort c = None /\ 49152 <= localPort c <= 65533 /\
           st_tcp4Conns s' = <[localPort c := p]> (st_tcp4Conns s))
        (fun e s' => stackInv s' /\ st_tcp4Conns s' = st_tcp4Conns s)
        (dialTCP4Once dst port s).
Proof. apply dialTCP4Once_leads. Qed.

Lemma dial_atomic_witness :
  let s := New (mkScriptLink sampleMAC [] []) in
  leads (fun _ _ => False) (fun e s' => st_tcp4Conns s' = ∅) (dialTCP4Once ipB 80 s).
Proof.
  intros s. pose proof (dial_atomic s ipB 80 (New_inv _)) as Hd.
  assert (fst (dialTCP4Once ipB 80 s) = Err ErrTCP4NoLocalAddr) as He by (vm_compute; reflexivity).
  destruct (dialTCP4Once ipB 80 s) as [[p|e|] s']; cbn in *; [done|exact (proj2 Hd)|done].
Defined.

(** Close always finishes, whatever the peer sends or does not send: an open
    connection ends closed, in state CLOSED, its port is removed from the demux
    table and no other entry of any table changes. *)
Theorem close_releases_port `{Link L} (s : Stack L) p c :
  stackInv s -> st_tcp s !! p = Some c -> closed c = false ->
  exists s' c', CloseTCP p s = (Ok tt, s') /\ stackInv s' /\ st_tcp s' !! p = Some c' /\
    closed c' = true /\ state c' = tcpClosed /\
    st_tcp4Conns s' = delete (localPort c) (st_tcp4Conns s) /\ st_udp4Conns s' = st_udp4Conns s.
Proof. apply CloseTCP_open. Qed.

(** A stack with one connection in its table. *)
Definition tcpStack (c : TCP4Conn) : Stack ScriptLink :=
  set_tcp (<[localPort c := 0%nat]> ∅) (<[0%nat := c]> ∅) (snd (alloc (New (mkScriptLink sampleMAC [] [])))).

Lemma tcpStack_inv c : stackInv (tcpStack c).
Proof. by apply (register_inv (New (mkScriptLink sampleMAC [] [])) c); [apply New_inv|]. Qed.

Lemma close_releases_port_witness :
  exists s', CloseTCP 0 (tcpStack (sampleConn 7)) = (Ok tt, s') /\ st_tcp4Conns s' = ∅.
Proof.
  destruct (close_releases_port (tcpStack (sampleConn 7)) 0 (sampleConn 7)) as (s' & c' & E & _ & _ & _ & _ & Hm & _).
  - apply tcpStack_inv.
  - reflexivity.
  - reflexivity.
  - exists s'. split; [exact E|]. rewrite Hm. vm_compute. reflexivity.
Defined.

(** A reset received on an established connection marks it closed but leaves
    its port registered, and a later Close returns at once without releasing
    it: the port stays taken for the life of the stack. *)
Theorem reset_leaks_port `{Link L} (s : Stack L) p c h payload :
  stackInv s -> st_tcp s !! p = Some c -> closed c = false -> hasFlag h TCPFlagRST = true ->
  st_tcp4Conns s !! localPort c = Some p ->
  exists s', onConn p (deliverSegment h payload) s = (Ok tt, s') /\
    CloseTCP p s' = (Ok tt, s') /\ st_tcp4Conns s' !! localPort c = Some p.
Proof.
  intros Hs Hc Hcl Hrst Hport.
  destruct (onConn_deliver s p c h payload Hs Hc) as (s' & E & Hs' & Htcp & Hmap & _).
  exists s'. split; [done|]. split; [|by rewrite Hmap].
  unfold CloseTCP. rewrite (bind_derefTCP s' p (deliver h payload c)) by (by rewrite Htcp, lookup_insert_eq).
  unfold deliver. rewrite Hcl, Hrst. done.
Qed.

Lemma reset_leaks_port_witness :
  let rst := mkTCP4Header 80 49152 7 101 5 0x14 0 0 0 in
  exists s', onConn 0 (deliverSegment rst []) (tcpStack (sampleConn 7)) = (Ok tt, s') /\
    CloseTCP 0 s' = (Ok tt, s') /\ st_tcp4Conns s' !! 49152 = Some 0%nat.
Proof.
  intros rst. apply (reset_leaks_port (tcpStack (sampleConn 7)) 0 (sampleConn 7) rst []);
    [apply tcpStack_inv|reflexivity..].
Defined.

(** *** Waiting for an acknowledgment *)

(** The wait loop without its retransmission branch. *)
Fixpoint awaitAckOnce `{Link L} (fuel : nat) (overall : deadlineChecker) (p : nat) (wantAck : Z)
  : M (Stack L) unit :=
  if dc_expired overall then throw ErrTCP4Timeout else
  match fuel with
  | O => throw (ErrOther 0)
  | S f =>
      c <- derefTCP p ;;
      if closed c then throw ErrTCP4ConnClosed
      else if negb (seqLT (sndUna c) wantAck) then ret tt
      else rxLoopIter ;;; awaitAckOnce f (dc_tick overall) p wantAck
  end.

Lemma awaitAck_once `{Link L} fuel d rt p flags sq ak segment want (s : Stack L) :
  awaitAck fuel d d rt p flags sq ak segment want s = awaitAckOnce fuel d p want s.
Proof.
  revert d rt s. induction fuel as [|n IH]; intros d rt s; cbn [awaitAck awaitAckOnce]; [done|].
  destruct (dc_expired d) eqn:Ed; [done|]. unfold bind.
  destruct (derefTCP p s) as [[c|e|] s1]; try done. destruct (closed c); [done|].
  destruct (negb _); [done|]. cbn. destruct (rxLoopIter s1) as [[u|e|] s2]; done.
Qed.

(** Under tamago the retransmission timer never fires: both deadline checkers
    count the same iterations up to the same cap, so the per-attempt one cannot
    expire before the overall one, and sendAndAwaitAck sends its segment once
    and then only waits.  (The requested one- and four-second timeouts are
    ignored by the tamago checker.) *)
Theorem tamago_never_retransmits `{Link L} (s : Stack L) p segment :
  sendAndAwaitAck p segment s =
  (c <- derefTCP p ;;
   let wantAck := u32 (sndNxt c + u32 (len segment)) in
   storeTCP p (set_sndNxt wantAck c) ;;;
   sendSegmentExt p (Z.lor TCPFlagACK TCPFlagPSH) (sndNxt c) (rcvNxt c) segment ;;;
   awaitAckOnce (Z.to_nat maxPumpIters) newDeadlineChecker p wantAck) s.
Proof.
  unfold sendAndAwaitAck, bind. generalize (Z.to_nat maxPumpIters) as fuel. intros fuel.
  destruct (derefTCP p s) as [[c|e|] s1]; [|done|done].
  cbv zeta. destruct (storeTCP _ _ s1) as [[u|e|] s2]; [|done|done].
  destruct (sendSegmentExt _ _ _ _ _ s2) as [[u'|e|] s3]; [|done|done]. apply awaitAck_once.
Qed.

(** *** Write *)

Lemma writeLoop_leads `{Link L} sh fuel p data written (s : Stack L) :
  is_Some (sh.1.1.2 !! p) -> 0 <= written <= len data -> shaped sh s ->
  (len data - written <= 1460 * Z.of_nat fuel) ->
  leads (fun r s' => shaped sh s' /\
           match snd r with None => fst r = len data | Some _ => written <= fst r < len data end)
        (fun _ _ => False) (writeLoop fuel p data written s).
Proof.
  intros Hp. revert written s. induction fuel as [|n IH]; intros written s Hw Hs Hfuel; cbn [writeLoop];
    (destruct (Z.leb_spec (len data) written); [cbn; split; [done|lia]|]); [lia|].
  set (e := if _ <? _ then _ else _).
  assert (written < e <= len data /\ (e = len data \/ e = written + 1460)) as [He He']
    by (unfold e, TCP4DefaultMSS; case_match; lia).
  unfold bind at 1, lift. rewrite slice_ok by lia.
  eapply leads_bind with (Q := fun _ s' => shaped sh s').
  - pose proof (keep_try _ _ (sendAndAwaitAck_shaped sh p (take (Z.to_nat (e - written)) (drop (Z.to_nat written) data)) Hp) s Hs) as (Hnp & HI & _).
    unfold try in *. destruct (sendAndAwaitAck _ _ s) as [[u|er|] s']; done.
  - intros [u|er] s' Hs'; [|cbn; split; [done|lia]].
    eapply leads_weaken; [apply IH; [lia|done|lia]| |done].
    intros [k [er|]] s'' [? ?]; cbn in *; split; try done; lia.
Qed.

(** Write reports exactly what it did: without an error it wrote every byte; a
    failed segment is reported with a count short of the length; a connection
    that cannot send reports zero bytes and writes nothing.  Segments never
    exceed the MSS of 1460 bytes, and the loop ends. *)
Theorem write_all_or_error `{Link L} (s : Stack L) p c data :
  stackInv s -> st_tcp s !! p = Some c ->
  leads (fun r s' => stackInv s' /\
           match snd r with None => fst r = len data | Some _ => 0 <= fst r <= len data end)
        (fun _ _ => False) (Write p data s).
Proof.
  intros Hs Hc. unfold Write. rewrite (bind_derefTCP s p c _ Hc). pose_lens.
  destruct (_ || _); [cbn; split; [done|lia]|].
  eapply leads_weaken; [apply (writeLoop_leads (shape s))| |done].
  - cbn. by rewrite lookup_fmap, Hc.
  - lia.
  - by split.
  - unfold TCP4DefaultMSS. rewrite Z2Nat.id by (Z.div_mod_to_equations; lia). Z.div_mod_to_equations. lia.
  - intros [n [e|]] s' [[? ?] ?]; cbn in *; split; try done; lia.
Qed.

Lemma write_all_or_error_witness :
  leads (fun r _ => r = (0, Some ErrTCP4ConnClosed)) (fun _ _ => False)
    (Write 0 (str "GET /") (tcpStack (set_state tcpFinWait1 (sampleConn 7)))).
Proof.
  pose proof (write_all_or_error (tcpStack (set_state tcpFinWait1 (sampleConn 7))) 0
    (set_state tcpFinWait1 (sampleConn 7)) (str "GET /") (tcpStack_inv _) eq_refl) as H.
  assert (fst (Write 0 (str "GET /") (tcpStack (set_state tcpFinWait1 (sampleConn 7)))) = Ok (0, Some ErrTCP4ConnClosed))
    as E by (vm_compute; reflexivity).
  destruct (Write 0 _ _) as [[r|e|] s']; cbn in *; [by injection E|exact H|exact H].
Defined.
