(* ===== verification/Frames.v ===== *)
(** * What the stack puts on the link

    A link that remembers every frame it was handed, and the shape of those
    frames: Ethernet from the card's own address, around ARP packets of that
    address or around whole IPv4 packets that carry an echo message, a UDP
    datagram or a TCP segment between the addresses of the header. *)

From S2P Require Import Prelude NetIP Effects Ethernet IPv4 Icmp Udp Tcp Arp TcpConn Stack StackTcp StackProps.

(** ** Well-formed frames *)

(** A message between two addresses, by protocol number. *)
Inductive carries (src dst : IP) : Z -> list byte -> Prop :=
| carries_echo ty ck ident sequ payload body :
    ty = ICMPTypeEchoReply \/ ty = ICMPTypeEchoRequest ->
    ParseICMPEcho body = Ok (mkICMPEcho ty 0 ck ident sequ payload) -> carries src dst IPProtoICMP body
| carries_udp sp dp payload body :
    isU16 sp -> isU16 dp -> MarshalUDP4 src dst sp dp payload = Ok body -> carries src dst IPProtoUDP body
| carries_tcp sp dp sq ak flags wnd payload body :
    isU16 sp -> isU16 dp -> isU32 sq -> isU32 ak -> isU16 wnd -> 0 <= flags < 256 ->
    MarshalTCP4 src dst sp dp sq ak flags wnd payload = Ok body -> carries src dst IPProtoTCP body.

Definition wfPacket (pkt : list byte) : Prop :=
  exists ident proto ck src dst body,
    ParseIPv4 pkt = Ok (mkIPv4Header 0 (len pkt) ident 2 0 64 proto ck src dst, body) /\
    onesComplement (wordSum (take 20 pkt)) = 65535 /\ len src = 4 /\ len dst = 4 /\ carries src dst proto body.

Definition wfFrame (mac frame : list byte) : Prop :=
  exists dst ty payload, ParseEthernet frame = Ok (mkEthernetFrame dst mac ty payload) /\ len frame <= MaxFrameLen /\
    (ty = EtherTypeARP /\ (exists op spa tha tpa, (op = ARPOpRequest \/ op = ARPOpReply) /\ parseARP payload = Ok (mkArpPacket op mac spa tha tpa)) \/
     ty = EtherTypeIPv4 /\ wfPacket payload).

(** ** What the encoders make *)

Lemma enc16_u16 v : enc16 (u16 v) = enc16 v.
Proof.
  unfold enc16, u16, z2b. change (2 ^ 16) with 65536. rewrite !Z.shiftr_div_pow2 by lia. change (2 ^ 8) with 256.
  assert (v mod 65536 / 256 mod 256 = v / 256 mod 256) as -> by (Z.to_euclidean_division_equations; lia).
  assert (v mod 65536 mod 256 = v mod 256) as -> by (Z.to_euclidean_division_equations; lia). done.
Qed.
Lemma u16_isU16 v : isU16 (u16 v).
Proof. unfold isU16, u16. apply Z.mod_pos_bound. lia. Qed.

Lemma wfPacket_marshalled src dst proto ident body pkt :
  MarshalIPv4 src dst proto ident body = Ok pkt -> 0 <= proto < 256 ->
  (forall s4 d4, To4 src = Some s4 -> To4 dst = Some d4 -> len s4 = 4 -> len d4 = 4 -> carries s4 d4 proto body) -> wfPacket pkt.
Proof.
  intros Hm Hp Hc. assert (MarshalIPv4 src dst proto (u16 ident) body = Ok pkt) as Hm'.
  { apply MarshalIPv4_ok in Hm as (s4 & d4 & Hs & Hd & Hl & ->). rewrite (MarshalIPv4_layout src dst proto (u16 ident) body s4 d4 Hs Hd Hl).
    unfold ipHdr. by rewrite !enc16_u16. }
  destruct (ipv4_roundtrip src dst proto (u16 ident) body pkt (u16_isU16 _) Hp Hm') as (s4 & d4 & ck & Hs & Hd & Hparse & Hsum).
  pose proof (To4_len _ _ Hs). pose proof (To4_len _ _ Hd). pose proof (MarshalIPv4_len _ _ _ _ _ _ Hm) as Hl.
  exists (u16 ident), proto, ck, s4, d4, body. rewrite Hparse. destruct Hl as [<- _]. auto 10.
Qed.

Lemma enc32_u32 v : enc32 (u32 v) = enc32 v.
Proof.
  unfold enc32, u32, z2b. change (2 ^ 32) with 4294967296. rewrite !Z.shiftr_div_pow2 by lia. change (2 ^ 8) with 256. change (2 ^ 16) with 65536. change (2 ^ 24) with 16777216.
  assert (v mod 4294967296 / 16777216 mod 256 = v / 16777216 mod 256) as -> by (Z.to_euclidean_division_equations; lia).
  assert (v mod 4294967296 / 65536 mod 256 = v / 65536 mod 256) as -> by (Z.to_euclidean_division_equations; lia).
  assert (v mod 4294967296 / 256 mod 256 = v / 256 mod 256) as -> by (Z.to_euclidean_division_equations; lia).
  assert (v mod 4294967296 mod 256 = v mod 256) as -> by (Z.to_euclidean_division_equations; lia). done.
Qed.
Lemma u32_isU32 v : isU32 (u32 v).
Proof. unfold isU32, u32. apply Z.mod_pos_bound. lia. Qed.
Lemma z2b_u8 v : z2b (v mod 256) = z2b v.
Proof. unfold z2b. by rewrite Z.mod_mod. Qed.

Lemma carries_marshalled_udp src dst s4 d4 sp dp payload body :
  MarshalUDP4 src dst sp dp payload = Ok body -> To4 src = Some s4 -> To4 dst = Some d4 -> carries s4 d4 IPProtoUDP body.
Proof.
  intros Hm Hs Hd. pose proof (MarshalUDP4_ok _ _ _ _ _ _ Hm) as Hl. apply (carries_udp s4 d4 (u16 sp) (u16 dp) payload); [apply u16_isU16..|].
  rewrite (MarshalUDP4_layout src dst s4 d4 sp dp payload Hs Hd Hl) in Hm.
  rewrite (MarshalUDP4_layout s4 d4 s4 d4) by (by eauto using To4_idemp). rewrite <- Hm. unfold udpComputed, udpDgram. by rewrite !enc16_u16.
Qed.

Lemma carries_marshalled_tcp src dst s4 d4 sp dp sq ak flags wnd payload body :
  MarshalTCP4 src dst sp dp sq ak flags wnd payload = Ok body -> To4 src = Some s4 -> To4 dst = Some d4 -> carries s4 d4 IPProtoTCP body.
Proof.
  intros Hm Hs Hd. apply (carries_tcp s4 d4 (u16 sp) (u16 dp) (u32 sq) (u32 ak) (flags mod 256) (u16 wnd) payload);
    [apply u16_isU16|apply u16_isU16|apply u32_isU32|apply u32_isU32|apply u16_isU16|apply Z.mod_pos_bound; lia|].
  rewrite (MarshalTCP4_layout src dst s4 d4 sp dp sq ak flags wnd payload Hs Hd) in Hm.
  rewrite (MarshalTCP4_layout s4 d4 s4 d4) by (by eapply To4_idemp). rewrite <- Hm. unfold tcpComputed, tcpSeg. by rewrite !enc16_u16, !enc32_u32, z2b_u8.
Qed.

Lemma carries_marshalled_echo src dst ty ident sequ payload :
  ty = ICMPTypeEchoReply \/ ty = ICMPTypeEchoRequest ->
  forall body, MarshalICMPEcho ty ident sequ payload = Ok body -> carries src dst IPProtoICMP body.
Proof.
  intros Hty body Hm. rewrite MarshalICMPEcho_layout in Hm. apply Ok_inj in Hm as <-.
  assert (forall ck, icmpMsg ty 0 ck ident sequ payload = icmpMsg ty 0 ck (u16 ident) (u16 sequ) payload) as E by (intros ck; unfold icmpMsg; by rewrite !enc16_u16).
  rewrite !E. eapply carries_echo; [exact Hty|]. apply ParseICMPEcho_layout; [|apply u16_isU16..]. destruct Hty as [-> | ->]; done.
Qed.

Lemma wfPacket_echoReply src dst ipid ident sequ payload pkt : buildEchoReplyPacket src dst ipid ident sequ payload = Ok pkt -> wfPacket pkt.
Proof.
  unfold buildEchoReplyPacket. destruct (MarshalICMPEcho _ _ _ _) as [body| |] eqn:Eb; [|done..]. cbn [out_bind]. intros Hm.
  eapply wfPacket_marshalled; [exact Hm|done|]. intros. eapply carries_marshalled_echo; [|exact Eb]. by left.
Qed.
Lemma wfPacket_echoRequest src dst ipid ident sequ payload pkt : buildEchoRequestPacket src dst ipid ident sequ payload = Ok pkt -> wfPacket pkt.
Proof.
  unfold buildEchoRequestPacket. destruct (MarshalICMPEcho _ _ _ _) as [body| |] eqn:Eb; [|done..]. cbn [out_bind]. intros Hm.
  eapply wfPacket_marshalled; [exact Hm|done|]. intros. eapply carries_marshalled_echo; [|exact Eb]. by right.
Qed.
Lemma wfPacket_udp src dst ipid sp dp payload body pkt :
  MarshalUDP4 src dst sp dp payload = Ok body -> MarshalIPv4 src dst IPProtoUDP ipid body = Ok pkt -> wfPacket pkt.
Proof. intros Hu Hm. eapply wfPacket_marshalled; [exact Hm|done|]. intros s4 d4 Hs Hd _ _. by eapply carries_marshalled_udp. Qed.
Lemma wfPacket_tcp src dst ipid sp dp sq ak flags wnd payload body pkt :
  MarshalTCP4 src dst sp dp sq ak flags wnd payload = Ok body -> MarshalIPv4 src dst IPProtoTCP ipid body = Ok pkt -> wfPacket pkt.
Proof. intros Hu Hm. eapply wfPacket_marshalled; [exact Hm|done|]. intros s4 d4 Hs Hd _ _. by eapply carries_marshalled_tcp. Qed.

Lemma wfFrame_ip dst mac pkt frame : MarshalEthernet dst mac EtherTypeIPv4 pkt = Ok frame -> wfPacket pkt -> wfFrame mac frame.
Proof.
  intros Hm Hp. pose proof (proj1 ethernet_roundtrip dst mac EtherTypeIPv4 pkt frame ltac:(done) Hm) as Hparse. pose proof (MarshalEthernet_len _ _ _ _ _ Hm) as Hl.
  exists dst, EtherTypeIPv4, pkt. split; [exact Hparse|]. destruct Hl as [_ Hl]. split; [exact Hl|]. by right.
Qed.
Lemma wfFrame_arp dst mac op spa tha tpa pkt frame :
  op = ARPOpRequest \/ op = ARPOpReply -> buildARPPacket op mac spa tha tpa = Ok pkt -> MarshalEthernet dst mac EtherTypeARP pkt = Ok frame -> wfFrame mac frame.
Proof.
  intros Hop Ha Hm. pose proof (proj1 ethernet_roundtrip dst mac EtherTypeARP pkt frame ltac:(done) Hm) as Hparse. pose proof (MarshalEthernet_len _ _ _ _ _ Hm) as Hl.
  exists dst, EtherTypeARP, pkt. split; [exact Hparse|]. destruct Hl as [_ Hl]. split; [exact Hl|]. left. split; [done|].
  destruct (arp_roundtrip op mac spa tha tpa [] pkt) as (s4 & t4 & _ & _ & _ & Hp); [destruct Hop as [-> | ->]; done|exact Ha|]. rewrite app_nil_r in Hp. by exists op, s4, tha, t4.
Qed.

(** ** The tap *)

Record Tapped (L : Type) := mkTapped { tp_link : L; tp_sent : list (list byte) }.
Arguments mkTapped {L}. Arguments tp_link {L}. Arguments tp_sent {L}.
#[global] Instance tapped_link `{Link L} : Link (Tapped L) := {
  SendFrame f l := let '(r, l') := SendFrame f (tp_link l) in (r, mkTapped l' (f :: tp_sent l));
  RecvFrame l := let '(r, l') := RecvFrame (tp_link l) in (r, mkTapped l' (tp_sent l));
  MAC l := MAC (tp_link l)
}.

(** A card keeps its address. *)
Class SteadyLink (L : Type) `{Link L} : Prop := {
  send_mac f l : MAC (snd (SendFrame f l)) = MAC l;
  recv_mac l : MAC (snd (RecvFrame l)) = MAC l
}.

(** What is sent by a card with the address [mac] is well formed. *)
Definition sends `{Link L} (mac : list byte) (l l' : Tapped L) : Prop :=
  MAC l = mac -> MAC l' = mac /\ exists new, tp_sent l' = new ++ tp_sent l /\ Forall (wfFrame mac) new.

Section tap.
Context {L : Type} `{SteadyLink L}.
Variable mac : list byte.
Implicit Types s : Stack (Tapped L).

#[global] Instance sends_preorder : PreOrder (sends (L := L) mac).
Proof.
  split; [intros l Hl; split; [done|by exists []]|].
  intros l1 l2 l3 H12 H23 H1. destruct (H12 H1) as (H2 & n1 & E1 & F1). destruct (H23 H2) as (H3 & n2 & E2 & F2).
  split; [done|]. exists (n2 ++ n1). split; [by rewrite E2, E1, app_assoc|by apply Forall_app].
Qed.
Definition sndSends {T} (x y : T * Tapped L) : Prop := sends mac (snd x) (snd y).
#[local] Instance sndSends_preorder {T} : PreOrder (@sndSends T).
Proof. split; [intros x; unfold sndSends; reflexivity|]. intros x y z. unfold sndSends. apply transitivity. Qed.
Definition stSends s s' : Prop := sends mac (st_link s) (st_link s').
#[local] Instance stSends_preorder : PreOrder stSends.
Proof. split; [intros x; unfold stSends; reflexivity|]. intros x y z. unfold stSends. apply transitivity. Qed.
Definition connSends (x y : TCP4Conn * Stack (Tapped L)) : Prop := stSends (snd x) (snd y).
#[local] Instance connSends_preorder : PreOrder connSends.
Proof. split; [intros x; unfold connSends; reflexivity|]. intros x y z. unfold connSends. apply transitivity. Qed.

Lemma sent_frame f (l : Tapped L) : wfFrame mac f -> sends mac l (snd (sendFrame f l)).
Proof.
  intros Hf Hl. unfold sendFrame. cbn [SendFrame tapped_link]. pose proof (send_mac f (tp_link l)) as Hm.
  destruct (SendFrame f (tp_link l)) as [r l']. cbn [snd] in *. split; [cbn; rewrite Hm; exact Hl|]. exists [f]. split; [done|by constructor].
Qed.
Lemma received_frame (l : Tapped L) : sends mac l (snd (recvFrame l)).
Proof.
  intros Hl. unfold recvFrame. cbn [RecvFrame tapped_link]. pose proof (recv_mac (tp_link l)) as Hm.
  destruct (RecvFrame (tp_link l)) as [r l']. cbn [snd] in *. split; [cbn; rewrite Hm; exact Hl|]. by exists [].
Qed.

(** An encoder's result is what the rest goes on with. *)
Lemma moves_lift_bind {St A B} (R : St -> St -> Prop) `{!PreOrder R} (m : out A) (k : A -> M St B) :
  (forall a, m = Ok a -> moves R (k a)) -> moves R (bind (lift m) k).
Proof. intros Hk s. unfold bind, lift. destruct m as [a|e|]; [by apply Hk|reflexivity..]. Qed.
(** Only a stack on this card matters. *)
Lemma moves_state {B} (k : Stack (Tapped L) -> M (Stack (Tapped L)) B) :
  (forall s, MAC (st_link s) = mac -> moves stSends (k s)) -> moves stSends (bind (gets id) k).
Proof.
  intros Hk s. unfold bind, gets, id. destruct (decide (MAC (st_link s) = mac)) as [Hm|Hm]; [by apply Hk|]. intros Hm'. by destruct Hm.
Qed.
Lemma moves_keeps_link {A} (m : M (Stack (Tapped L)) A) : (forall s, st_link (snd (m s)) = st_link s) -> moves stSends m.
Proof. intros Hm s. unfold stSends. rewrite Hm. reflexivity. Qed.

(** [go_move], with the equations of the encoders and the card's address. *)
Ltac go_tap :=
  repeat first
    [ progress intros
    | lazymatch goal with
      | |- moves _ (bind (lift _) _) => apply moves_lift_bind; [apply _|]
      | |- moves _ (bind (orCleanup _ (lift _)) _) => fail
      | |- moves _ (bind (gets id) _) => let s := fresh "s" in let Hm := fresh "Hm" in apply moves_state; intros s Hm; rewrite ?Hm
      | |- moves _ (bind _ _) => apply moves_bind; [apply _| |]
      | |- moves _ (match ?x with _ => _ end) => destruct x eqn:?
      | |- moves _ (ret _) => apply moves_ret; apply _
      | |- moves _ (throw _) => apply moves_throw; apply _
      | |- moves _ (lift _) => apply moves_lift; apply _
      | |- moves _ (gets _) => apply moves_gets; apply _
      | |- moves _ (try _) => apply moves_try
      | |- moves _ (ignore _) => apply moves_ignore; [apply _|]
      | |- moves _ (pump _ _) => apply moves_pump; [apply _| |]
      end
    | solve [auto with gomove] ].

(** *** ARP *)

Lemma onLink_send_sends {T} f : wfFrame mac f -> moves (@sndSends T) (onLink (sendFrame f)).
Proof.
  intros Hf [t l]. unfold onLink, zoom, sndSends. cbn [snd fst]. pose proof (sent_frame f l Hf) as Hs. by destruct (sendFrame f l).
Qed.
Lemma onLink_recv_sends {T} : moves (@sndSends T) (onLink recvFrame).
Proof. intros [t l]. unfold onLink, zoom, sndSends. cbn [snd fst]. pose proof (received_frame l) as Hs. by destruct (recvFrame l). Qed.
Lemma setTable_sends t : moves (@sndSends arpTable) (setTable t).
Proof. intros x. unfold sndSends. cbn. reflexivity. Qed.
#[local] Hint Resolve onLink_recv_sends setTable_sends : gomove.

Lemma handleARPFrame_sends ip payload : moves (@sndSends _) (handleARPFrame mac ip payload).
Proof.
  unfold handleARPFrame. go_tap. apply onLink_send_sends. eapply wfFrame_arp; [by right|done..].
Qed.
#[local] Hint Resolve handleARPFrame_sends : gomove.
Lemma resolveARP_sends ip target : moves (@sndSends _) (resolveARP mac ip target).
Proof.
  unfold resolveARP, resolveIter, cachedMAC. go_tap. apply onLink_send_sends. eapply wfFrame_arp; [by left|done..].
Qed.

(** *** The stack *)

Lemma onArp_sends {A} (m : M (arpTable * Tapped L) A) : moves sndSends m -> moves stSends (onArp m).
Proof. intros Hm s. unfold onArp, zoom. specialize (Hm (st_arp s, st_link s)). by destruct (m (st_arp s, st_link s)) as [r [t l]]. Qed.
Lemma onStLink_send_sends f : wfFrame mac f -> moves stSends (onStLink (sendFrame f)).
Proof. intros Hf s. unfold onStLink, zoom, stSends. pose proof (sent_frame f (st_link s) Hf) as Hs. by destruct (sendFrame f (st_link s)). Qed.
Lemma onStLink_recv_sends : moves stSends (onStLink recvFrame).
Proof. intros s. unfold onStLink, zoom, stSends. pose proof (received_frame (st_link s)) as Hs. by destruct (recvFrame (st_link s)). Qed.
Lemma modify_sends f : (forall s, st_link (f s) = st_link s) -> moves stSends (modify f).
Proof. intros Hf. by apply moves_keeps_link. Qed.
Lemma nextIPID_sends : moves stSends nextIPID.
Proof. by apply moves_keeps_link. Qed.
Lemma alloc_sends : moves stSends alloc.
Proof. by apply moves_keeps_link. Qed.
#[local] Hint Resolve onStLink_recv_sends nextIPID_sends alloc_sends : gomove.
#[local] Hint Extern 3 (moves _ (modify _)) => apply modify_sends; done : gomove.

Lemma sendIPv4Frame_sends dst pkt : wfPacket pkt -> moves stSends (sendIPv4Frame dst pkt).
Proof.
  intros Hp. unfold sendIPv4Frame. go_tap; [apply onArp_sends, resolveARP_sends|]. apply onStLink_send_sends. by eapply wfFrame_ip.
Qed.
Lemma sendSegmentSt_sends c flags sq ak payload : moves stSends (sendSegmentSt c flags sq ak payload).
Proof. unfold sendSegmentSt. go_tap. apply sendIPv4Frame_sends. by eapply wfPacket_tcp. Qed.
Lemma sendUDP4_sends sp dp dst payload : moves stSends (sendUDP4 sp dp dst payload).
Proof.
  unfold sendUDP4. go_tap; [|apply sendIPv4Frame_sends; by eapply wfPacket_udp].
  apply onStLink_send_sends. eapply wfFrame_ip; [done|by eapply wfPacket_udp].
Qed.
Lemma handleARP_sends payload : moves stSends (handleARP payload).
Proof. unfold handleARP. go_tap. apply onArp_sends, handleARPFrame_sends. Qed.
#[local] Hint Resolve sendSegmentSt_sends sendUDP4_sends handleARP_sends : gomove.

Lemma derefUDP_sends p : moves stSends (derefUDP p).
Proof. unfold derefUDP. go_tap. Qed.
Lemma storeUDP_sends p c : moves stSends (storeUDP p c).
Proof. unfold storeUDP. go_tap. Qed.
Lemma derefTCP_sends p : moves stSends (derefTCP p).
Proof. unfold derefTCP. go_tap. Qed.
Lemma storeTCP_sends p c : moves stSends (storeTCP p c).
Proof. unfold storeTCP. go_tap. Qed.
#[local] Hint Resolve derefUDP_sends storeUDP_sends derefTCP_sends storeTCP_sends : gomove.

Lemma handleUDP4_sends h body : moves stSends (handleUDP4 h body).
Proof. unfold handleUDP4, deliverUDP. go_tap. Qed.
Lemma handleICMP_sends h body : moves stSends (handleICMP h body).
Proof. unfold handleICMP. go_tap. apply sendIPv4Frame_sends. by eapply wfPacket_echoReply. Qed.
Lemma deliverSegment_sends h payload : moves connSends (deliverSegment h payload).
Proof.
  assert (moves connSends sendAck) as Hs.
  { unfold sendAck, conn. apply moves_bind; [apply _|go_move|]. intros c. apply moves_ignore; [apply _|].
    intros [c0 s]. unfold zoom. cbn [snd]. pose proof (sendSegmentSt_sends c TCPFlagACK (sndNxt c) (rcvNxt c) [] s) as Hm.
    cbn [sendSegment stackSink]. destruct (sendSegmentSt _ _ _ _ _ s) as [r s']. exact Hm. }
  assert (forall f, moves connSends (update f)) as Hu by (intros f [c s]; unfold update, modify, connSends; cbn; reflexivity).
  unfold deliverSegment, acceptSegmentLocked, conn. go_move.
Qed.
Lemma onConn_sends {A} p (m : M (TCP4Conn * Stack (Tapped L)) A) : moves connSends m -> moves stSends (onConn p m).
Proof.
  intros Hm s. unfold onConn. destruct (st_tcp s !! p) as [c|]; [|reflexivity]. specialize (Hm (c, s)). by destruct (m (c, s)) as [r [c' s']].
Qed.
Lemma handleTCP4_sends h body : moves stSends (handleTCP4 h body).
Proof. unfold handleTCP4. go_tap. apply onConn_sends, deliverSegment_sends. Qed.
#[local] Hint Resolve handleUDP4_sends handleICMP_sends handleTCP4_sends : gomove.

Lemma dispatch_sends frame : moves stSends (dispatch frame).
Proof. unfold dispatch, handleIPv4. go_tap. Qed.
#[local] Hint Resolve dispatch_sends : gomove.
Lemma rxLoopIter_sends : moves stSends rxLoopIter.
Proof. unfold rxLoopIter. go_tap. Qed.
#[local] Hint Resolve rxLoopIter_sends : gomove.

(** *** The calls *)

Lemma OpenUDP4_sends port : moves stSends (OpenUDP4 port).
Proof. unfold OpenUDP4. go_tap. Qed.
Lemma WriteTo_sends p payload dst port : moves stSends (WriteTo p payload dst port).
Proof. unfold WriteTo. go_tap. Qed.
Lemma ReadFrom_sends p n : moves stSends (ReadFrom p n).
Proof. unfold ReadFrom, readFromIter. go_tap. Qed.
Lemma CloseUDP_sends p : moves stSends (CloseUDP p).
Proof. unfold CloseUDP, releaseUDP4. go_tap. Qed.
Lemma orCleanup_sends {A} key (m : M (Stack (Tapped L)) A) : moves stSends m -> moves stSends (orCleanup key m).
Proof. intros Hm. unfold orCleanup, pingCleanup. go_tap. Qed.
Lemma orCleanup_lift {A B} key (m : out A) (k : A -> M (Stack (Tapped L)) B) :
  (forall a, m = Ok a -> moves stSends (k a)) -> moves stSends (bind (orCleanup key (lift m)) k).
Proof.
  intros Hk s. unfold orCleanup, bind, try, lift. destruct m as [a|e|]; [by apply Hk| |reflexivity].
  unfold pingCleanup, modify, throw, stSends. cbn. reflexivity.
Qed.
Lemma PingOnce_sends dst payload : moves stSends (PingOnce dst payload).
Proof.
  unfold PingOnce. go_tap. apply orCleanup_lift. intros pkt Hp. apply moves_bind; [apply _| |].
  - apply orCleanup_sends, sendIPv4Frame_sends. by eapply wfPacket_echoRequest.
  - intros []. unfold pingIter, pingCleanup. go_tap.
Qed.

Lemma sendSegmentExt_sends p flags sq ak payload : moves stSends (sendSegmentExt p flags sq ak payload).
Proof. unfold sendSegmentExt. go_tap. Qed.
#[local] Hint Resolve sendSegmentExt_sends : gomove.
Lemma Read_sends p n : moves stSends (Read p n).
Proof.
  unfold Read, readIter. go_tap. apply onConn_sends. unfold readQueue, conn, update. go_move. intros [c s]. unfold modify, connSends. cbn. reflexivity.
Qed.
Lemma awaitAck_sends fuel : forall overall per n p flags sq ak segment want, moves stSends (awaitAck fuel overall per n p flags sq ak segment want).
Proof. induction fuel as [|f IH]; intros; cbn [awaitAck]; go_tap. Qed.
#[local] Hint Resolve awaitAck_sends : gomove.
Lemma sendAndAwaitAck_sends p segment : moves stSends (sendAndAwaitAck p segment).
Proof. unfold sendAndAwaitAck. go_tap. Qed.
#[local] Hint Resolve sendAndAwaitAck_sends : gomove.
Lemma writeLoop_sends fuel : forall p data written, moves stSends (writeLoop fuel p data written).
Proof. induction fuel as [|f IH]; intros; cbn [writeLoop]; go_tap. Qed.
#[local] Hint Resolve writeLoop_sends : gomove.
Lemma Write_sends p data : moves stSends (Write p data).
Proof. unfold Write. go_tap. Qed.
Lemma CloseTCP_sends p : moves stSends (CloseTCP p).
Proof. unfold CloseTCP, sendFin, closeIter, releaseTCP4. go_tap. Qed.
Lemma portScan_sends n : forall i, moves stSends (portScan n i).
Proof.
  induction n as [|n IH]; intros i s; cbn [portScan]; [reflexivity|]. destruct (st_tcp4Conns s !! _); [apply IH|]. unfold stSends. cbn. reflexivity.
Qed.
#[local] Hint Resolve portScan_sends : gomove.
Lemma dialTCP4Once_sends dst port : moves stSends (dialTCP4Once dst port).
Proof. unfold dialTCP4Once, allocTCP4Port, registerTCP4, releaseTCP4, dialIter. go_tap. Qed.

Lemma runCall_sends c : moves stSends (runCall c).
Proof.
  destruct c; cbn [runCall]; unfold void;
    try (apply moves_bind; [apply _| |intros; apply moves_ret; apply _]);
    auto using OpenUDP4_sends, WriteTo_sends, ReadFrom_sends, CloseUDP_sends, PingOnce_sends, dialTCP4Once_sends, Read_sends, Write_sends, CloseTCP_sends, dispatch_sends, rxLoopIter_sends.
  - unfold SetIPv4Address. go_tap.
  - unfold SetDefaultGateway. go_tap.
  - unfold Start. go_tap.
  - unfold Close. go_tap.
Qed.
End tap.

(** A history of calls and received frames. *)
Definition runCalls `{Link L} (cs : list apiCall) (s : Stack L) : Stack L := fold_left (fun s c => snd (runCall c s)) cs s.

Lemma runCalls_sends `{SteadyLink L} mac cs : forall s : Stack (Tapped L), sends mac (st_link s) (st_link (runCalls cs s)).
Proof.
  induction cs as [|c cs IH]; intros s; [reflexivity|]. cbn [runCalls fold_left]. etransitivity; [apply runCall_sends|apply IH].
Qed.

(** C3. Whatever calls are made and whatever frames arrive, in whatever order and in
    whatever state the stack is: every frame it hands to the card is at most
    1514 bytes long, parses as an Ethernet frame from the card's address, and
    holds an ARP packet that gives this address as its own, or an IPv4 packet
    of exactly its length, with a valid checksum, around an echo message, a
    UDP datagram or a TCP segment made for the addresses in its header. *)
Theorem stack_sends_typed_frames `{SteadyLink L} cs (s : Stack (Tapped L)) :
  exists new, tp_sent (st_link (runCalls cs s)) = new ++ tp_sent (st_link s) /\ Forall (wfFrame (MAC (st_link s))) new.
Proof. exact (proj2 (runCalls_sends (MAC (st_link s)) cs s eq_refl)). Qed.

#[global] Instance script_steady : SteadyLink ScriptLink.
Proof. split; [done|]. intros [m [|f rx] tx]; done. Qed.

(** A lease request and a ping, which asks for the gateway's address first. *)
Definition chatter : list apiCall :=
  [CSetIPv4Address ipA [xff; xff; xff; x00]; COpenUDP4 68; CWriteTo 0 (str "hello") [xff; xff; xff; xff] 67; CPingOnce ipB (str "ping")].
Definition quietStack : Stack (Tapped ScriptLink) := New (mkTapped (mkScriptLink sampleMAC [] []) []).

Lemma chatter_frames : length (tp_sent (st_link (runCalls chatter quietStack))) = 2%nat.
Proof. vm_compute. reflexivity. Qed.
Lemma stack_sends_typed_frames_witness :
  exists f g, tp_sent (st_link (runCalls chatter quietStack)) = [f; g] /\ wfFrame sampleMAC f /\ wfFrame sampleMAC g.
Proof.
  destruct (stack_sends_typed_frames chatter quietStack) as (new & E & Hall). pose proof chatter_frames as Hn.
  change (tp_sent (st_link quietStack)) with (@nil (list byte)) in E. rewrite app_nil_r in E. rewrite E in Hn |- *.
  destruct new as [|f [|g [|]]]; [discriminate Hn..| |discriminate Hn]. exists f, g. split; [reflexivity|].
  split; [exact (Forall_inv Hall)|exact (Forall_inv (Forall_inv_tail Hall))].
Defined.
