(* ===== verification/Dhcp.v ===== *)
(** * DHCPv4 client (uefiboard/ministack/dhcp4.go)

    Options and messages, the lease, and the DISCOVER/OFFER/REQUEST/ACK
    exchange over a UDP connection of the stack. *)

From S2P Require Import Prelude NetIP Effects Ethernet IPv4 Udp Arp TcpConn Stack StackTcp Provenance.

Definition dhcp4ClientPort : Z := 68.
Definition dhcp4ServerPort : Z := 67.
Definition dhcp4HeaderLen : Z := 240.
Definition dhcp4MagicCookie : Z := 0x63825363.
Definition dhcp4FlagBroadcast : Z := 0x8000.
Definition dhcp4BootRequest : Z := 1.
Definition dhcp4BootReply : Z := 2.
Definition dhcp4HTypeEthernet : Z := 1.
Definition dhcp4HLenEthernet : Z := 6.

Definition dhcp4MsgDiscover : Z := 1.
Definition dhcp4MsgOffer : Z := 2.
Definition dhcp4MsgRequest : Z := 3.
Definition dhcp4MsgAck : Z := 5.
Definition dhcp4MsgNak : Z := 6.

Definition dhcp4OptPad : Z := 0.
Definition dhcp4OptSubnetMask : Z := 1.
Definition dhcp4OptRouter : Z := 3.
Definition dhcp4OptDNS : Z := 6.
Definition dhcp4OptRequestedIP : Z := 50.
Definition dhcp4OptLeaseTime : Z := 51.
Definition dhcp4OptMessageType : Z := 53.
Definition dhcp4OptServerID : Z := 54.
Definition dhcp4OptParameterList : Z := 55.
Definition dhcp4OptClientID : Z := 61.
Definition dhcp4OptBootfileName : Z := 67.
Definition dhcp4OptEnd : Z := 255.

(** ** Options *)

Abbreviation dhcp4Options := (gmap Z (list byte)).

Record dhcp4OptionEntry := mkOpt { opt_tag : Z; opt_value : list byte }.

Definition marshalDHCP4Options (entries : list dhcp4OptionEntry) : list byte :=
  foldl (fun out e => out ++ [z2b (opt_tag e); z2b (len (opt_value e))] ++ opt_value e) [] entries
  ++ [z2b dhcp4OptEnd].

(** The loop of the parser; [rest] is [buf[i:]]. *)
Fixpoint parseOptionsFrom (fuel : nat) (rest : list byte) (opts : dhcp4Options) : out dhcp4Options :=
  match fuel, rest with
  | _, [] => Ok opts
  | O, _ => Err (ErrOther 0)
  | S f, tag :: r =>
      if b2z tag =? dhcp4OptEnd then Ok opts
      else if b2z tag =? dhcp4OptPad then parseOptionsFrom f r opts
      else
        match r with
        | [] => Err ErrDHCP4BadFormat
        | l :: r' =>
            ret_if len r' <? b2z l with ErrDHCP4BadFormat;;
            let* v := slice r' 0 (b2z l) in
            let* r'' := sliceFrom r' (b2z l) in
            parseOptionsFrom f r'' (<[b2z tag := v]> opts)
        end
  end.

Definition parseDHCP4Options (buf : list byte) : out dhcp4Options :=
  parseOptionsFrom (length buf) buf ∅.

(** ** Messages *)

Definition buildDHCP4Message (xid : Z) (mac opts : list byte) : out (list byte) :=
  ret_if negb (len mac =? 6) with ErrInvalidMAC;;
  let buf := make (dhcp4HeaderLen + 4 + len opts) in
  let* buf := setAt buf 0 dhcp4BootRequest in
  let* buf := setAt buf 1 dhcp4HTypeEthernet in
  let* buf := setAt buf 2 dhcp4HLenEthernet in
  let* buf := setAt buf 3 0 in
  let* buf := putU32 buf 4 8 xid in
  let* buf := putU16 buf 8 10 0 in
  let* buf := putU16 buf 10 12 dhcp4FlagBroadcast in
  let* buf := copyAt buf 28 34 mac in
  let* buf := putU32 buf 236 240 dhcp4MagicCookie in
  copyAt buf 240 (len buf) opts.

(** The bytes up to the first NUL. *)
Fixpoint untilNul (l : list byte) : list byte :=
  match l with
  | [] => []
  | b :: r => if b2z b =? 0 then [] else b :: untilNul r
  end.

Record dhcp4Message := mkDhcpMsg { dm_xid : Z; dm_yiaddr : IP; dm_opts : dhcp4Options }.

Definition parseDHCP4Message (buf : list byte) : out dhcp4Message :=
  ret_if len buf <? dhcp4HeaderLen + 4 with ErrDHCP4BadFormat;;
  let* op := idx buf 0 in
  ret_if negb (op =? dhcp4BootReply) with ErrDHCP4BadFormat;;
  let* cookie := getU32 buf 236 240 in
  ret_if negb (cookie =? dhcp4MagicCookie) with ErrDHCP4BadFormat;;
  let* xid := getU32 buf 4 8 in
  let* yiaddr := slice buf 16 20 in
  let* tail := sliceFrom buf 240 in
  let* opts := parseDHCP4Options tail in
  match opts !! dhcp4OptBootfileName with
  | Some _ => Ok (mkDhcpMsg xid yiaddr opts)
  | None =>
      let* bf := slice buf 108 236 in
      let name := untilNul bf in
      if 0 <? len name then Ok (mkDhcpMsg xid yiaddr (<[dhcp4OptBootfileName := name]> opts))
      else Ok (mkDhcpMsg xid yiaddr opts)
  end.

Definition dhcp4ClientIDFromMAC (mac : list byte) : out (list byte) :=
  let out := make (1 + 6) in
  let* out := setAt out 0 0x01 in
  copyAt out 1 (len out) mac.

Definition dhcp4ParameterRequestList : list byte :=
  z2b <$> [dhcp4OptSubnetMask; dhcp4OptRouter; dhcp4OptDNS; dhcp4OptLeaseTime; dhcp4OptBootfileName].

Definition dhcp4XIDFromMAC (mac : list byte) (seed : Z) : out Z :=
  if len mac <? 6 then Ok seed
  else
    let* hi := slice mac 0 2 in
    let* macHi := Uint32 ([x00; x00] ++ hi) in
    let* macLo := getU32 mac 2 6 in
    Ok (Z.lxor (Z.lxor seed macLo) macHi).

Definition parseDHCP4MessageType (opts : dhcp4Options) : out Z :=
  match opts !! dhcp4OptMessageType with
  | None => Err ErrDHCP4MissingOption
  | Some v =>
      ret_if negb (len v =? 1) with ErrDHCP4BadFormat;;
      idx v 0
  end.

(** ** The lease *)

Record DHCP4Lease := mkLease {
  lease_IP : IP;
  lease_Mask : option (list byte);
  lease_Gateway : option IP;
  lease_DNS : list IP;
  lease_Server : option IP;
  lease_Duration : Z; (* nanoseconds *)
  lease_BootfileName : list byte
}.

(** [d[i*4:i*4+4]] for [i < n] *)
Fixpoint dnsServers (n : nat) (d : list byte) (i : Z) : out (list IP) :=
  match n with
  | O => Ok []
  | S n' =>
      let* a := slice d (i * 4) (i * 4 + 4) in
      let* r := dnsServers n' d (i + 1) in
      Ok (a :: r)
  end.

(** [bf] without its trailing NULs. *)
Definition trimNuls (bf : list byte) : list byte :=
  rev ((fix dropNul l := match l with
        | b :: r => if b2z b =? 0 then dropNul r else l
        | [] => []
        end) (rev bf)).

Definition dhcp4LeaseFromOptions (yiaddr : IP) (opts : dhcp4Options) : out DHCP4Lease :=
  let mask := match opts !! dhcp4OptSubnetMask with
              | Some m => if len m =? 4 then Some m else None | None => None end in
  let* gw := match opts !! dhcp4OptRouter with
             | Some r => if 4 <=? len r then let* g := slice r 0 4 in Ok (Some g) else Ok None
             | None => Ok None end in
  let* dns := match opts !! dhcp4OptDNS with
              | Some d => dnsServers (Z.to_nat (Z.min (len d / 4) 4)) d 0
              | None => Ok [] end in
  let server := match opts !! dhcp4OptServerID with
                | Some s => if len s =? 4 then Some s else None | None => None end in
  let* secs := match opts !! dhcp4OptLeaseTime with
               | Some l => if len l =? 4 then Uint32 l else Ok 0 | None => Ok 0 end in
  let bootfile := match opts !! dhcp4OptBootfileName with Some bf => trimNuls bf | None => [] end in
  Ok (mkLease yiaddr mask gw dns server (secs * 1000000000) bootfile).

(** ** The exchange *)

Section dhcp.
Context {L : Type} `{Link L}.
Abbreviation StM A := (M (Stack L) A).

Definition waitForIter (p : nat) (wantXID wantType : Z) : StM (option (IP * dhcp4Options)) :=
  r <- try (ReadFrom p 1500) ;;
  match r with
  | inr ErrUDP4ReadTimeout => throw ErrDHCP4Timeout
  | inr e => throw e
  | inl (b, _) =>
      m <- try (lift (parseDHCP4Message b)) ;;
      match m with
      | inr _ => ret None
      | inl m =>
          if negb (dm_xid m =? wantXID) then ret None
          else
            t <- try (lift (parseDHCP4MessageType (dm_opts m))) ;;
            match t with
            | inr _ => ret None
            | inl mtype =>
                if mtype =? wantType then ret (Some (dm_yiaddr m, dm_opts m))
                else if mtype =? dhcp4MsgNak then throw ErrDHCP4Nak
                else ret None
            end
      end
  end.

Definition dhcp4WaitFor (p : nat) (wantXID wantType : Z) : StM (IP * dhcp4Options) :=
  pump (waitForIter p wantXID wantType) (throw ErrDHCP4Timeout).

Definition bcastIP : IP := [xff; xff; xff; xff].

Definition dhcp4Exchange (p : nat) (mac : list byte) (xid : Z) : StM DHCP4Lease :=
  cid <- lift (dhcp4ClientIDFromMAC mac) ;;
  let discoverOpts := marshalDHCP4Options
    [mkOpt dhcp4OptMessageType [z2b dhcp4MsgDiscover];
     mkOpt dhcp4OptClientID cid;
     mkOpt dhcp4OptParameterList dhcp4ParameterRequestList] in
  discoverMsg <- lift (buildDHCP4Message xid mac discoverOpts) ;;
  WriteTo p discoverMsg bcastIP dhcp4ServerPort ;;;
  offer <- dhcp4WaitFor p xid dhcp4MsgOffer ;;
  match snd offer !! dhcp4OptServerID with
  | None => throw ErrDHCP4MissingOption
  | Some serverID =>
      throw_if negb (len serverID =? 4) with ErrDHCP4MissingOption;;
      yi <- lift (slice (fst offer) 0 4) ;;
      let requestOpts := marshalDHCP4Options
        [mkOpt dhcp4OptMessageType [z2b dhcp4MsgRequest];
         mkOpt dhcp4OptClientID cid;
         mkOpt dhcp4OptRequestedIP yi;
         mkOpt dhcp4OptServerID serverID;
         mkOpt dhcp4OptParameterList dhcp4ParameterRequestList] in
      requestMsg <- lift (buildDHCP4Message xid mac requestOpts) ;;
      WriteTo p requestMsg bcastIP dhcp4ServerPort ;;;
      ack <- dhcp4WaitFor p xid dhcp4MsgAck ;;
      lift (dhcp4LeaseFromOptions (fst ack) (snd ack))
  end.

Definition dhcp4XIDSeedDefault : Z := 0x4E455453.

Definition dhcp4Acquire (xidSeed : Z) : StM DHCP4Lease :=
  s <- gets id ;;
  let mac := MAC (st_link s) in
  xid <- lift (dhcp4XIDFromMAC mac xidSeed) ;;
  p <- OpenUDP4 dhcp4ClientPort ;;
  withUDP p (dhcp4Exchange p mac xid).

Definition DHCP4Acquire : StM DHCP4Lease := dhcp4Acquire dhcp4XIDSeedDefault.
End dhcp.

(** ** Options: termination, safety, round trip *)

Lemma parseOptionsFrom_fuel n m rest opts :
  (length rest <= n)%nat -> (length rest <= m)%nat ->
  parseOptionsFrom n rest opts = parseOptionsFrom m rest opts.
Proof.
  revert m rest opts. induction n as [|n IH]; intros m rest opts Hn Hm;
    destruct rest as [|tag r]; try (by destruct m); cbn in Hn; [lia|].
  destruct m as [|m]; cbn in Hm; [lia|]. cbn [parseOptionsFrom].
  destruct (_ =? dhcp4OptEnd); [done|]. destruct (_ =? dhcp4OptPad); [apply IH; lia|].
  destruct r as [|l r']; [done|]. destruct (Z.ltb_spec (len r') (b2z l)); [done|].
  pose proof (b2z_range l). unfold sliceFrom. rewrite !slice_ok by lia. cbn [out_bind].
  cbn in *. apply IH; rewrite length_take, length_drop; lia.
Qed.

(** The parser's fuel, the length of its input, is enough: it returns. *)
Lemma parseOptionsFrom_total n rest opts :
  (length rest <= n)%nat ->
  (exists o, parseOptionsFrom n rest opts = Ok o) \/ parseOptionsFrom n rest opts = Err ErrDHCP4BadFormat.
Proof.
  revert rest opts. induction n as [|n IH]; intros rest opts Hn; destruct rest as [|tag r];
    [by left; eexists|cbn in Hn; lia|by left; eexists|]. cbn [parseOptionsFrom] in *. cbn in Hn.
  destruct (_ =? dhcp4OptEnd); [by left; eexists|]. destruct (_ =? dhcp4OptPad); [apply IH; lia|].
  destruct r as [|l r']; [by right|]. destruct (Z.ltb_spec (len r') (b2z l)); [by right|].
  pose proof (b2z_range l). unfold sliceFrom. rewrite !slice_ok by lia. cbn [out_bind].
  apply IH. rewrite length_take, length_drop. cbn in *. lia.
Qed.

Lemma parseDHCP4Options_safe buf : safe (parseDHCP4Options buf).
Proof.
  unfold parseDHCP4Options. destruct (parseOptionsFrom_total (length buf) buf ∅) as [[o ->]| ->]; done.
Qed.

Definition optOk (e : dhcp4OptionEntry) : Prop := 0 < opt_tag e < 255 /\ len (opt_value e) < 256.

Definition optBytes (e : dhcp4OptionEntry) : list byte :=
  [z2b (opt_tag e); z2b (len (opt_value e))] ++ opt_value e.

Lemma marshal_concat entries :
  marshalDHCP4Options entries = concat (optBytes <$> entries) ++ [z2b dhcp4OptEnd].
Proof.
  unfold marshalDHCP4Options. f_equal.
  assert (forall acc, foldl (fun out e => out ++ [z2b (opt_tag e); z2b (len (opt_value e))] ++ opt_value e) acc entries
    = acc ++ concat (optBytes <$> entries)) as Hf.
  { induction entries as [|e es IH]; intros acc; cbn [foldl fmap list_fmap concat]; [by rewrite app_nil_r|].
    rewrite IH. by rewrite <- app_assoc. }
  apply Hf.
Qed.

Lemma parse_optBytes n e rest opts :
  optOk e -> (length (optBytes e ++ rest) <= n)%nat ->
  parseOptionsFrom n (optBytes e ++ rest) opts = parseOptionsFrom n rest (<[opt_tag e := opt_value e]> opts).
Proof.
  intros [Ht Hv] Hn. destruct n as [|n]; [cbn in Hn; lia|]. unfold optBytes in *.
  cbn in Hn. rewrite length_app in Hn.
  rewrite (parseOptionsFrom_fuel (S n) n rest (<[opt_tag e := opt_value e]> opts)) by lia.
  cbn [app parseOptionsFrom]. rewrite !b2z_z2b, !(Z.mod_small (opt_tag e)) by lia.
  unfold dhcp4OptEnd, dhcp4OptPad. rewrite !(proj2 (Z.eqb_neq (opt_tag e) _)) by lia.
  pose_lens. rewrite (Z.mod_small (len (opt_value e))) by lia.
  rewrite (proj2 (Z.ltb_ge _ _)) by len_lia.
  assert (slice (opt_value e ++ rest) 0 (len (opt_value e)) = Ok (opt_value e)) as ->.
  { rewrite slice_app_l by lia. by apply slice_full. }
  rewrite sliceFrom_app by done. done.
Qed.

Definition optMap (entries : list dhcp4OptionEntry) : dhcp4Options :=
  foldl (fun m e => <[opt_tag e := opt_value e]> m) ∅ entries.

(** The options a client marshals are what a parser of the same wire format
    reads back, whatever follows the End option; a repeated tag keeps its last
    value. *)
Theorem dhcp_options_roundtrip entries trailer :
  Forall optOk entries ->
  parseDHCP4Options (marshalDHCP4Options entries ++ trailer) = Ok (optMap entries).
Proof.
  intros He. unfold parseDHCP4Options, optMap. rewrite marshal_concat, <- app_assoc.
  assert (forall n opts, (length (concat (optBytes <$> entries) ++ [z2b dhcp4OptEnd] ++ trailer) <= n)%nat ->
    parseOptionsFrom n (concat (optBytes <$> entries) ++ [z2b dhcp4OptEnd] ++ trailer) opts
    = Ok (foldl (fun m e => <[opt_tag e := opt_value e]> m) opts entries)) as Hgen; [|by apply Hgen].
  induction He as [|e es Hok Hes IH]; intros n opts Hn; cbn [fmap list_fmap concat foldl] in *.
  - destruct n as [|n]; [cbn in Hn; lia|]. done.
  - rewrite <- app_assoc in *. rewrite parse_optBytes by done. apply IH.
    rewrite length_app in Hn. lia.
Qed.

Lemma dhcp_options_roundtrip_witness :
  parseDHCP4Options (marshalDHCP4Options [mkOpt 53 [x05]; mkOpt 54 [x0a; x00; x02; x02]] ++ [x00])
  = Ok (optMap [mkOpt 53 [x05]; mkOpt 54 [x0a; x00; x02; x02]]).
Proof. apply dhcp_options_roundtrip. by repeat (apply Forall_cons; split). Defined.

(** ** Safety of the parsers *)

Lemma parseDHCP4Message_safe buf : safe (parseDHCP4Message buf).
Proof.
  unfold parseDHCP4Message, dhcp4HeaderLen. destruct (Z.ltb_spec (len buf) (240 + 4)); [done|].
  unfold sliceFrom. go_safe; try lia; try apply parseDHCP4Options_safe.
  destruct (_ !! _); go_safe; lia.
Qed.

Lemma parseDHCP4MessageType_safe opts : safe (parseDHCP4MessageType opts).
Proof.
  unfold parseDHCP4MessageType. destruct (opts !! _) as [v|]; [|done].
  destruct (Z.eqb_spec (len v) 1); [|done]. cbn [negb]. apply safe_idx; lia.
Qed.

Lemma dnsServers_ok n d i :
  0 <= i -> (i + Z.of_nat n) * 4 <= len d ->
  exists l, dnsServers n d i = Ok l /\ length l = n /\ Forall (fun a => len a = 4) l.
Proof.
  revert i. induction n as [|n IH]; intros i Hi Hl; cbn [dnsServers]; [by exists []|].
  destruct (slice d (i * 4) (i * 4 + 4)) as [a| |] eqn:E;
    [|rewrite slice_ok in E by lia; done..].
  destruct (IH (i + 1)) as (l & -> & Hn & Hf); [lia..|]. cbn [out_bind].
  exists (a :: l). apply len_slice in E. split; [done|]. split; [cbn; lia|].
  constructor; [lia|done].
Qed.

(** The addresses a lease carries have their wire sizes. *)
Lemma dhcp4LeaseFromOptions_ok yi opts :
  exists l, dhcp4LeaseFromOptions yi opts = Ok l /\ lease_IP l = yi /\
    (length (lease_DNS l) <= 4)%nat /\ Forall (fun a => len a = 4) (lease_DNS l) /\
    (forall m, lease_Mask l = Some m -> len m = 4) /\ (forall g, lease_Gateway l = Some g -> len g = 4) /\
    (forall s, lease_Server l = Some s -> len s = 4).
Proof.
  unfold dhcp4LeaseFromOptions.
  assert (exists g, (match opts !! dhcp4OptRouter with
             | Some r => if 4 <=? len r then let* g := slice r 0 4 in Ok (Some g) else Ok None
             | None => Ok None end) = Ok g /\ forall a, g = Some a -> len a = 4) as (g & -> & Hg).
  { destruct (opts !! dhcp4OptRouter) as [r|]; [|by exists None]. destruct (Z.leb_spec 4 (len r)); [|by exists None].
    destruct (slice r 0 4) as [a| |] eqn:E; [|rewrite slice_ok in E by lia; done..].
    exists (Some a). split; [done|]. intros ? [= <-]. apply len_slice in E. lia. }
  cbn [out_bind].
  assert (exists d, (match opts !! dhcp4OptDNS with
              | Some d => dnsServers (Z.to_nat (Z.min (len d / 4) 4)) d 0 | None => Ok [] end) = Ok d /\
              (length d <= 4)%nat /\ Forall (fun a => len a = 4) d) as (d & -> & Hd1 & Hd2).
  { destruct (opts !! dhcp4OptDNS) as [d|]; [|exists []; split; [done|]; split; [cbn; lia|done]].
    pose_lens. destruct (dnsServers_ok (Z.to_nat (Z.min (len d / 4) 4)) d 0) as (l & -> & Hn & Hf).
    - lia.
    - Z.div_mod_to_equations. lia.
    - exists l. split; [done|]. split; [lia|done]. }
  cbn [out_bind].
  assert (exists n, (match opts !! dhcp4OptLeaseTime with
               | Some l => if len l =? 4 then Uint32 l else Ok 0 | None => Ok 0 end) = Ok n) as (n & ->).
  { destruct (opts !! dhcp4OptLeaseTime) as [l|]; [|by eexists].
    destruct (Z.eqb_spec (len l) 4) as [E|]; [|by eexists]. explode l E. by eexists. }
  cbn [out_bind]. eexists. split; [done|]. cbn. split; [done|]. split; [done|]. split; [done|].
  split; [|split; [done|]]; intros m; (destruct (_ !! _) as [v|]; [|done]);
    (destruct (Z.eqb_spec (len v) 4); [|done]); by intros [= <-].
Qed.

Lemma dhcp4XIDFromMAC_safe mac seed : safe (dhcp4XIDFromMAC mac seed).
Proof.
  unfold dhcp4XIDFromMAC. destruct (Z.ltb_spec (len mac) 6); [done|].
  rewrite slice_ok by lia. cbn [out_bind]. apply safe_bind; [|intros; go_safe; lia].
  assert (len (take (Z.to_nat (2 - 0)) (drop (Z.to_nat 0) mac)) = 2) as Hl by len_lia.
  revert Hl. generalize (take (Z.to_nat (2 - 0)) (drop (Z.to_nat 0) mac)). intros h Hl.
  explode h Hl. done.
Qed.

(** ** The exchange *)

Section dhcp_proofs.
Context {L : Type} `{Link L}.
Implicit Types s : Stack L.

(** What the exchange relies on: reading from the connection gives messages of
    which [P] holds, and reading and writing keep [I]. *)
Variables (I : Stack L -> Prop) (P : list byte -> L -> Prop) (p : nat).
Hypothesis HR : forall s, I s ->
  leads (fun r s' => I s' /\ P (fst r) (st_link s')) (fun _ => I) (ReadFrom p 1500 s).
Hypothesis HW : forall payload dst port s, I s ->
  leads (fun _ => I) (fun _ => I) (WriteTo p payload dst port s).

(** A message read that is a DHCP message of our transaction and of type [ty]. *)
Definition dhcpMatch (xid ty : Z) (r : IP * dhcp4Options) (l : L) : Prop :=
  exists b m, P b l /\ parseDHCP4Message b = Ok m /\ dm_xid m = xid /\
    parseDHCP4MessageType (dm_opts m) = Ok ty /\ r = (dm_yiaddr m, dm_opts m).

Lemma waitForIter_leads xid ty s :
  I s ->
  leads (fun r s' => match r with None => I s' | Some a => I s' /\ dhcpMatch xid ty a (st_link s') end)
        (fun _ => I) (waitForIter p xid ty s).
Proof.
  intros Hs. unfold waitForIter. eapply leads_try; [by apply HR| |by intros [] s1].
  intros [b src] s1 [Hs1 HP]. cbn [fst] in HP.
  unfold bind at 1, try, lift. pose proof (parseDHCP4Message_safe b) as Hsafe.
  destruct (parseDHCP4Message b) as [m|e|] eqn:Em; [|done|done].
  destruct (Z.eqb_spec (dm_xid m) xid) as [Hx|]; cbn [negb]; [|done].
  unfold bind. pose proof (parseDHCP4MessageType_safe (dm_opts m)) as Hsafe2.
  destruct (parseDHCP4MessageType (dm_opts m)) as [t|e|] eqn:Et; [|done|done].
  destruct (Z.eqb_spec t ty) as [->|]; [|by destruct (t =? dhcp4MsgNak)].
  cbn. split; [done|]. by exists b, m.
Qed.

Lemma dhcp4WaitFor_leads xid ty s :
  I s -> leads (fun r s' => I s' /\ dhcpMatch xid ty r (st_link s')) (fun _ => I) (dhcp4WaitFor p xid ty s).
Proof.
  intros Hs. unfold dhcp4WaitFor. apply (leads_pump I); [|done|done].
  intros s1 Hs1. by apply waitForIter_leads.
Qed.

Lemma buildDHCP4Message_safe xid mac opts : safe (buildDHCP4Message xid mac opts).
Proof.
  unfold buildDHCP4Message, dhcp4HeaderLen. destruct (Z.eqb_spec (len mac) 6) as [Hm|]; [|done]. cbn [negb].
  rewrite make_split by (pose_lens; lia). change (make (240 + 4)) with (make 240 ++ make 4).
  explode mac Hm. change (make 240) with (repeat x00 240). cbn [repeat].
  rewrite <- app_assoc. hdr_run. unfold copyAt.
  apply safe_bind; [apply safe_slice; len_lia|]. done.
Qed.

Lemma slice_safe4 (a : IP) : len a = 4 -> safe (slice a 0 4).
Proof. intros. apply safe_slice; lia. Qed.

Lemma parseDHCP4Message_yiaddr b m : parseDHCP4Message b = Ok m -> len (dm_yiaddr m) = 4.
Proof.
  unfold parseDHCP4Message. destruct (_ <? _); [done|].
  destruct (idx b 0); cbn [out_bind]; [|done|done]. destruct (negb _); [done|].
  destruct (getU32 b 236 240); cbn [out_bind]; [|done|done]. destruct (negb _); [done|].
  destruct (getU32 b 4 8); cbn [out_bind]; [|done|done].
  destruct (slice b 16 20) as [yi| |] eqn:E; cbn [out_bind]; [|done|done].
  destruct (sliceFrom b 240); cbn [out_bind]; [|done|done].
  destruct (parseDHCP4Options _) as [o| |]; cbn [out_bind]; [|done|done]. apply len_slice in E.
  destruct (o !! _); [by intros [= <-]|]. destruct (slice b 108 236); cbn [out_bind]; [|done|done].
  case_match; by intros [= <-].
Qed.

Lemma dhcp4ClientIDFromMAC_safe mac : safe (dhcp4ClientIDFromMAC mac).
Proof.
  unfold dhcp4ClientIDFromMAC. change (make (1 + 6)) with (repeat x00 7). cbn [repeat].
  hdr_run. discriminate.
Qed.

(** What a successful exchange ends with: the lease is read from an ACK of our
    transaction. *)
Definition leased (xid : Z) (l : DHCP4Lease) (k : L) : Prop :=
  exists b m, P b k /\ parseDHCP4Message b = Ok m /\ dm_xid m = xid /\
    parseDHCP4MessageType (dm_opts m) = Ok dhcp4MsgAck /\ dhcp4LeaseFromOptions (dm_yiaddr m) (dm_opts m) = Ok l.

Lemma dhcp4Exchange_leads mac xid s :
  I s -> leads (fun l s' => I s' /\ leased xid l (st_link s')) (fun _ => I) (dhcp4Exchange p mac xid s).
Proof.
  intros Hs. unfold dhcp4Exchange.
  assert (forall A (m : out A) (k : A -> M (Stack L) DHCP4Lease) s1, safe m -> I s1 ->
    (forall a s2, m = Ok a -> I s2 -> leads (fun l s' => I s' /\ leased xid l (st_link s')) (fun _ => I) (k a s2)) ->
    leads (fun l s' => I s' /\ leased xid l (st_link s')) (fun _ => I) ((x <- lift m ;; k x) s1)) as Hlift.
  { intros A m k s1 Hm Hs1 Hk. unfold bind, lift. destruct m as [a|e|]; [by apply Hk|done|done]. }
  apply Hlift; [apply dhcp4ClientIDFromMAC_safe|done|]. intros cid s1 _ Hs1.
  apply Hlift; [apply buildDHCP4Message_safe|done|]. intros dm s2 _ Hs2.
  eapply leads_bind; [by apply HW|]. intros u3 s3 Hs3.
  eapply leads_bind; [by apply dhcp4WaitFor_leads|]. intros [yi opts] s4 [Hs4 (b & m & _ & Hb & _ & _ & Hr)].
  cbn [fst snd]. destruct (opts !! dhcp4OptServerID) as [sid|]; [|done]. destruct (negb _); [done|].
  apply Hlift; [|done|].
  { apply slice_safe4. injection Hr as -> _. by eapply parseDHCP4Message_yiaddr. }
  intros yi4 s5 _ Hs5. apply Hlift; [apply buildDHCP4Message_safe|done|]. intros rm s6 _ Hs6.
  eapply leads_bind; [by apply HW|]. intros u7 s7 Hs7.
  eapply leads_bind; [by apply dhcp4WaitFor_leads|].
  intros r s8 [Hs8 (b' & m' & HP & Hb' & Hx & Ht & ->)]. cbn [fst snd].
  destruct (dhcp4LeaseFromOptions_ok (dm_yiaddr m') (dm_opts m')) as (l & El & _). unfold lift. rewrite El.
  cbn. split; [done|]. by exists b', m'.
Qed.
End dhcp_proofs.

(** A lease that was acquired: the tables of open ports are as before the call,
    and an ACK of our transaction, heard on port 68 during it, gives the lease. *)
Definition portsAsBefore `{Link L} (s s' : Stack (Logged L)) : Prop :=
  stackInv s' /\ st_udp4Conns s' = st_udp4Conns s /\ st_tcp4Conns s' = st_tcp4Conns s.
Definition ackHeard `{Link L} (s : Stack (Logged L)) (seed : Z) (l : DHCP4Lease) (s' : Stack (Logged L)) : Prop :=
  exists xid b m, dhcp4XIDFromMAC (MAC (st_link s)) seed = Ok xid /\
    heardMsg (lg_seen (st_link s)) dhcp4ClientPort 1500 b (st_link s') /\
    parseDHCP4Message b = Ok m /\ dm_xid m = xid /\ parseDHCP4MessageType (dm_opts m) = Ok dhcp4MsgAck /\
    dhcp4LeaseFromOptions (dm_yiaddr m) (dm_opts m) = Ok l.

Lemma dhcp4Acquire_leads `{Link L} (s : Stack (Logged L)) seed :
  stackInv s ->
  leads (fun l s' => portsAsBefore s s' /\ ackHeard s seed l s') (fun _ => portsAsBefore s) (dhcp4Acquire seed s).
Proof.
  intros Hs. unfold dhcp4Acquire. unfold bind at 1, gets, id. cbv zeta. unfold bind at 1, lift.
  pose proof (dhcp4XIDFromMAC_safe (MAC (st_link s)) seed) as Hx.
  destruct (dhcp4XIDFromMAC (MAC (st_link s)) seed) as [xid|e|] eqn:Ex; [|done|done].
  apply leads_bind with (opened s dhcp4ClientPort).
  { eapply leads_weaken; [by apply OpenUDP4_opened|done|by intros e s1 [-> _]]. }
  intros p s1 Hop. set (B := lg_seen (st_link s)).
  assert (p ∈ (shape s1).1.1.1.2) as Hp by apply Hop. eapply leads_weaken.
  - apply (withUDP_leads s dhcp4ClientPort p s1 _ (leased (heardMsg B dhcp4ClientPort 1500) xid) Hop).
    eapply leads_weaken; [apply (dhcp4Exchange_leads (listening (shape s1) B p dhcp4ClientPort) (heardMsg B dhcp4ClientPort 1500))| |].
    + intros s2 Hs2. by apply ReadFrom_heard.
    + intros payload dst port s2 Hs2. by apply WriteTo_heard.
    + by apply opened_listening.
    + by intros l s2 [[? ?] ?].
    + by intros e s2 [? ?].
  - intros l s' (Hr & b & m & HP & Hb & Hm). split; [exact Hr|]. by exists xid, b, m.
  - done.
Qed.

(** C20. DHCP over any link, here wrapped in a recorder of what it delivers: a lease
    is only ever built from a message that was received on port 68 during the
    call, in a frame that passes the Ethernet, IPv4 and UDP checks, that parses
    as a DHCP reply, carries this client's transaction id and has type ACK;
    foreign, malformed, stale and out-of-turn messages cannot produce one.
    Whatever the outcome (lease, NAK, timeout, send error), port 68 is released
    and the tables of open ports are as before the call. *)
Theorem dhcp_lease_from_own_ack `{Link L} (s : Stack (Logged L)) seed :
  stackInv s ->
  leads (fun l s' => (stackInv s' /\ st_udp4Conns s' = st_udp4Conns s /\ st_tcp4Conns s' = st_tcp4Conns s) /\
           exists xid b m, dhcp4XIDFromMAC (MAC (st_link s)) seed = Ok xid /\
             heardMsg (lg_seen (st_link s)) dhcp4ClientPort 1500 b (st_link s') /\
             parseDHCP4Message b = Ok m /\ dm_xid m = xid /\ parseDHCP4MessageType (dm_opts m) = Ok dhcp4MsgAck /\
             dhcp4LeaseFromOptions (dm_yiaddr m) (dm_opts m) = Ok l)
        (fun _ s' => stackInv s' /\ st_udp4Conns s' = st_udp4Conns s /\ st_tcp4Conns s' = st_tcp4Conns s)
        (dhcp4Acquire seed s).
Proof. apply dhcp4Acquire_leads. Qed.

(** A server's reply to [sampleMAC]: the request with the reply opcode and the
    offered address 10.0.2.15, from 10.0.2.2, broadcast. *)
Definition sampleXID : Z := match dhcp4XIDFromMAC sampleMAC dhcp4XIDSeedDefault with Ok x => x | _ => 0 end.
Definition replyFrame (ty : Z) : list byte :=
  let opts := marshalDHCP4Options [mkOpt 53 [z2b ty]; mkOpt 54 ipB; mkOpt 1 mask24; mkOpt 3 ipB;
                                   mkOpt 67 (str "ghcr.io/acme/boot:v1")] in
  match buildDHCP4Message sampleXID sampleMAC opts with
  | Ok req =>
      let msg := [x02] ++ take 15 (drop 1 req) ++ ipA ++ drop 20 req in
      match MarshalUDP4 ipB bcastIP 67 68 msg with
      | Ok d => match MarshalIPv4 ipB bcastIP IPProtoUDP 1 d with
                | Ok pkt => eth_layout BroadcastMAC sampleMAC EtherTypeIPv4 pkt
                | _ => []
                end
      | _ => []
      end
  | _ => []
  end.
Definition dhcpLink : Logged ScriptLink :=
  mkLogged (mkScriptLink sampleMAC [make 60; replyFrame dhcp4MsgOffer; replyFrame dhcp4MsgAck] []) [].

Lemma dhcp_lease_from_own_ack_witness :
  exists l s', dhcp4Acquire dhcp4XIDSeedDefault (New dhcpLink) = (Ok l, s') /\
    lease_IP l = ipA /\ lease_BootfileName l = str "ghcr.io/acme/boot:v1" /\ st_udp4Conns s' = ∅.
Proof.
  pose proof (dhcp_lease_from_own_ack (New dhcpLink) dhcp4XIDSeedDefault (New_inv _)) as Hd.
  assert (option_map (fun l => (lease_IP l, lease_BootfileName l))
    (match fst (dhcp4Acquire dhcp4XIDSeedDefault (New dhcpLink)) with Ok l => Some l | _ => None end)
    = Some (ipA, str "ghcr.io/acme/boot:v1")) as He by (vm_compute; reflexivity).
  destruct (dhcp4Acquire dhcp4XIDSeedDefault (New dhcpLink)) as [[l|e|] s']; [|discriminate He|discriminate He].
  exists l, s'. injection He as He1 He2. destruct Hd as ((_ & Hm & _) & _). split; [reflexivity|].
  split; [exact He1|]. split; [exact He2|]. exact Hm.
Defined.
