(* ===== verification/GoStr.v ===== *)
(** * Strings

    The functions of Go's [strings] and [strconv] packages that the sources
    call, on byte strings.  The case conversions and the space trimming act on
    ASCII, which is what the protocols' tokens are made of; bytes from 0x80 up
    are left as they are. *)

From S2P Require Import Prelude.

(** ** Searching *)

Definition HasPrefix (s p : list byte) : bool := bool_decide (take (length p) s = p).
Definition HasSuffix (s p : list byte) : bool :=
  bool_decide (length p <= length s)%nat && bool_decide (drop (length s - length p) s = p).
Definition TrimSuffix (s p : list byte) : list byte :=
  if HasSuffix s p then take (length s - length p) s else s.
Definition TrimPrefix (s p : list byte) : list byte :=
  if HasPrefix s p then drop (length p) s else s.

(** The first position of a byte, and what is before and after it. *)
Fixpoint cutByte (c : byte) (s : list byte) : option (list byte * list byte) :=
  match s with
  | [] => None
  | b :: r => if decide (b = c) then Some ([], r)
              else match cutByte c r with Some (x, y) => Some (b :: x, y) | None => None end
  end.

(** [strings.IndexByte]: -1 when the byte is absent. *)
Definition IndexByte (s : list byte) (c : byte) : Z :=
  match cutByte c s with Some (x, _) => len x | None => -1 end.

Definition LastIndexByte (s : list byte) (c : byte) : Z :=
  match cutByte c (rev s) with Some (x, _) => len s - 1 - len x | None => -1 end.

(** The first occurrence of a separator string. *)
Fixpoint cutStr (sep s : list byte) : option (list byte * list byte) :=
  if HasPrefix s sep then Some ([], drop (length sep) s)
  else match s with
       | [] => None
       | b :: r => match cutStr sep r with Some (x, y) => Some (b :: x, y) | None => None end
       end.
Definition Index (s sep : list byte) : Z :=
  match cutStr sep s with Some (x, _) => len x | None => -1 end.

(** ** Splitting and joining *)

(** [strings.Split] on a one-byte separator. *)
Fixpoint Split (c : byte) (s : list byte) : list (list byte) :=
  match s with
  | [] => [[]]
  | b :: r =>
      if decide (b = c) then [] :: Split c r
      else match Split c r with
           | [] => [[b]]
           | h :: t => (b :: h) :: t
           end
  end.

(** [strings.SplitN] on a one-byte separator, [n > 0]. *)
Fixpoint SplitN (c : byte) (s : list byte) (n : nat) : list (list byte) :=
  match n with
  | O => []
  | S O => [s]
  | S n' => match cutByte c s with
            | Some (x, y) => x :: SplitN c y n'
            | None => [s]
            end
  end.

(** [strings.Split] on a separator string; every cut removes it. *)
Fixpoint splitStrFrom (fuel : nat) (sep s : list byte) : list (list byte) :=
  match fuel with
  | O => [s]
  | S f => match cutStr sep s with
           | Some (x, y) => x :: splitStrFrom f sep y
           | None => [s]
           end
  end.
Definition SplitStr (s sep : list byte) : list (list byte) := splitStrFrom (S (length s)) sep s.

Fixpoint Join (ls : list (list byte)) (sep : list byte) : list byte :=
  match ls with
  | [] => []
  | [x] => x
  | x :: r => x ++ sep ++ Join r sep
  end.

(** ** Case and spaces *)

Definition isSpace (b : byte) : bool :=
  let z := b2z b in (z =? 32) || ((9 <=? z) && (z <=? 13)).
Fixpoint trimLeft (s : list byte) : list byte :=
  match s with
  | b :: r => if isSpace b then trimLeft r else s
  | [] => []
  end.
Definition TrimSpace (s : list byte) : list byte := rev (trimLeft (rev (trimLeft s))).

Definition lowerByte (b : byte) : byte :=
  let z := b2z b in if (65 <=? z) && (z <=? 90) then z2b (z + 32) else b.
Definition ToLower (s : list byte) : list byte := lowerByte <$> s.
Definition EqualFold (a b : list byte) : bool := bool_decide (ToLower a = ToLower b).

(** ** Numbers *)

(** The value of a digit in bases up to 16. *)
Definition digitVal (b : byte) : option Z :=
  let z := b2z b in
  if (48 <=? z) && (z <=? 57) then Some (z - 48)
  else if (97 <=? z) && (z <=? 102) then Some (z - 97 + 10)
  else if (65 <=? z) && (z <=? 70) then Some (z - 65 + 10)
  else None.

Fixpoint digitsVal (base : Z) (s : list byte) (acc : Z) : option Z :=
  match s with
  | [] => Some acc
  | b :: r =>
      match digitVal b with
      | Some d => if d <? base then digitsVal base r (acc * base + d) else None
      | None => None
      end
  end.

(** [strconv.ParseUint(s, base, bits)] for an explicit base. *)
Definition ParseUint (s : list byte) (base bits : Z) : option Z :=
  match s with
  | [] => None
  | _ => match digitsVal base s 0 with
         | Some v => if v <? 2 ^ bits then Some v else None
         | None => None
         end
  end.

(** [strconv.ParseInt(s, 10, 64)] and [strconv.Atoi]. *)
Definition Atoi (s : list byte) : option Z :=
  let body := match s with b :: r => if (b2z b =? 45) || (b2z b =? 43) then r else s | [] => [] end in
  let neg := match s with b :: _ => b2z b =? 45 | [] => false end in
  match body with
  | [] => None
  | _ => match digitsVal 10 body 0 with
         | Some v => let v := if neg then - v else v in
                     if (- 2 ^ 63 <=? v) && (v <? 2 ^ 63) then Some v else None
         | None => None
         end
  end.

(** [strconv.FormatUint(v, base)]; a 64-bit value has at most 64 digits. *)
Definition digitChar (d : Z) : byte := z2b (if d <? 10 then 48 + d else 97 + (d - 10)).
Fixpoint formatDigits (fuel : nat) (base v : Z) (acc : list byte) : list byte :=
  match fuel with
  | O => acc
  | S f => let acc := digitChar (v mod base) :: acc in
           if v / base =? 0 then acc else formatDigits f base (v / base) acc
  end.
Definition FormatUint (v base : Z) : list byte := formatDigits 64 base v [].
Definition Itoa (v : Z) : list byte :=
  if v <? 0 then x2d :: FormatUint (- v) 10 else FormatUint v 10.

(** ** Laws *)

Lemma sliceTo_len {A} (s : list A) n : 0 <= n <= len s -> sliceTo s n = Ok (take (Z.to_nat n) s).
Proof. intros. unfold sliceTo. rewrite slice_ok by lia. by rewrite Z.sub_0_r. Qed.
Lemma sliceFrom_len {A} (s : list A) n : 0 <= n <= len s -> sliceFrom s n = Ok (drop (Z.to_nat n) s).
Proof.
  intros. unfold sliceFrom. rewrite slice_ok by lia. rewrite firstn_all2; [done|].
  rewrite length_drop. unfold len in *. lia.
Qed.

Lemma Split_nonempty c s : Split c s <> [].
Proof. destruct s as [|b r]; cbn; [done|]. destruct (decide _); [done|]. by destruct (Split c r). Qed.

Lemma Split_sep c s : Forall (fun l => c ∉ l) (Split c s).
Proof.
  induction s as [|b r IH]; cbn; [by repeat constructor; apply not_elem_of_nil|].
  destruct (decide (b = c)) as [->|Hb]; [by constructor; [apply not_elem_of_nil|]|].
  destruct (Split c r) as [|h t]; inversion IH; subst; constructor; auto;
    rewrite not_elem_of_cons; auto using not_elem_of_nil.
Qed.

Lemma Join_cons x y r sep : Join (x :: y :: r) sep = x ++ sep ++ Join (y :: r) sep.
Proof. done. Qed.
Lemma Join_snoc ls y sep : ls <> [] -> Join (ls ++ [y]) sep = Join ls sep ++ sep ++ y.
Proof.
  induction ls as [|x [|z ls] IH]; intros Hne; [done..|]. change ((x :: z :: ls) ++ [y]) with (x :: (z :: ls) ++ [y]).
  change (Join (x :: (z :: ls) ++ [y]) sep) with (x ++ sep ++ Join ((z :: ls) ++ [y]) sep). rewrite IH by done. rewrite Join_cons, <- !app_assoc. done.
Qed.

Lemma Join_Split c s : Join (Split c s) [c] = s.
Proof.
  induction s as [|b r IH]; [done|]. cbn [Split]. pose proof (Split_nonempty c r) as Hne.
  destruct (decide (b = c)) as [->|Hb].
  - destruct (Split c r) as [|h t]; [done|]. rewrite Join_cons, IH. done.
  - destruct (Split c r) as [|h [|h' t]]; [done|cbn in *; congruence|].
    rewrite Join_cons in *. cbn. by rewrite <- IH.
Qed.

Lemma Split_app c x r : c ∉ x -> Split c (x ++ c :: r) = x :: Split c r.
Proof.
  induction x as [|b x IH]; cbn [app Split]; [by rewrite decide_True|].
  rewrite not_elem_of_cons. intros [Hb Hx]. rewrite decide_False, IH by auto. done.
Qed.
Lemma Split_one c x : c ∉ x -> Split c x = [x].
Proof.
  induction x as [|b x IH]; [done|]. rewrite not_elem_of_cons. intros [Hb Hx].
  cbn. rewrite decide_False, IH by auto. done.
Qed.
Lemma Split_Join c ls : ls <> [] -> Forall (fun l => c ∉ l) ls -> Split c (Join ls [c]) = ls.
Proof.
  intros Hne H. induction H as [|x [|y r] Hx Hr IH]; [done|by apply Split_one|].
  rewrite Join_cons. cbn [app]. rewrite Split_app, IH by done. done.
Qed.

Lemma cutByte_None c s : cutByte c s = None -> c ∉ s.
Proof.
  induction s as [|b r IH]; cbn; [by intros _ ?%elem_of_nil|].
  destruct (decide _); [done|]. destruct (cutByte c r) as [[]|]; [done|].
  intros _. rewrite not_elem_of_cons. auto.
Qed.
Lemma cutByte_Some c s x y : cutByte c s = Some (x, y) -> s = x ++ c :: y /\ c ∉ x.
Proof.
  revert x. induction s as [|b r IH]; cbn; intros x; [done|].
  destruct (decide (b = c)) as [->|]; [intros [= <- <-]; split; [done|apply not_elem_of_nil]|].
  destruct (cutByte c r) as [[x' y']|]; [|done]. intros [= <- <-].
  destruct (IH x' eq_refl) as [-> Hx]. split; [done|]. by rewrite not_elem_of_cons.
Qed.
Lemma cutByte_app c x y : c ∉ x -> cutByte c (x ++ c :: y) = Some (x, y).
Proof.
  induction x as [|b x IH]; cbn; [by rewrite decide_True|].
  rewrite not_elem_of_cons. intros [Hb Hx]. rewrite decide_False, IH by auto. done.
Qed.
Lemma cutByte_none c x : c ∉ x -> cutByte c x = None.
Proof.
  induction x as [|b x IH]; cbn; [done|]. rewrite not_elem_of_cons. intros [Hb Hx].
  rewrite decide_False, IH by auto. done.
Qed.

(** *** Printing and reading numbers *)

Lemma digitVal_char d : 0 <= d < 16 -> digitVal (digitChar d) = Some d.
Proof.
  intros Hd. unfold digitVal, digitChar. rewrite b2z_z2b. destruct (Z.ltb_spec d 10);
    rewrite Z.mod_small by lia; blia; try lia; try done; f_equal; lia.
Qed.

Lemma digitsVal_app base a b acc v :
  digitsVal base a acc = Some v -> digitsVal base (a ++ b) acc = digitsVal base b v.
Proof.
  revert acc. induction a as [|x a IH]; cbn; intros acc; [by intros [= ->]|].
  destruct (digitVal x) as [d|]; [|done]. destruct (d <? base); [|done]. apply IH.
Qed.

Lemma formatDigits_spec fuel base v acc :
  2 <= base <= 16 -> 0 <= v < base ^ Z.of_nat fuel ->
  exists ds, formatDigits fuel base v acc = ds ++ acc /\
    (0 < Z.of_nat fuel -> ds <> []) /\ forall a, exists k, 0 <= k /\ digitsVal base ds a = Some (a * base ^ k + v).
Proof.
  intros Hb. revert v acc. induction fuel as [|f IH]; intros v acc Hv.
  { exists []. cbn in *. split; [done|]. split; [lia|]. intros a. exists 0. split; [done|]. f_equal.
    change (base ^ 0) with 1 in *. lia. }
  cbn [formatDigits]. pose proof (Z.mod_pos_bound v base ltac:(lia)) as Hm.
  pose proof (Z.div_mod v base ltac:(lia)) as Hdm.
  destruct (Z.eqb_spec (v / base) 0) as [H0|H0].
  { exists [digitChar (v mod base)]. split; [done|]. split; [done|]. intros a. exists 1. split; [lia|].
    cbn. rewrite digitVal_char by lia. rewrite (proj2 (Z.ltb_lt _ _)) by lia. f_equal.
    rewrite Z.pow_1_r. nia. }
  destruct (IH (v / base) (digitChar (v mod base) :: acc)) as (ds & -> & Hne & Hds).
  { split; [apply Z.div_pos; lia|]. apply Z.div_lt_upper_bound; [lia|].
    rewrite <- Z.pow_succ_r by lia. rewrite Nat2Z.inj_succ in Hv. apply Hv. }
  exists (ds ++ [digitChar (v mod base)]). rewrite <- app_assoc. split; [done|].
  split; [by destruct ds|]. intros a. destruct (Hds a) as (k & Hk & E). exists (k + 1). split; [lia|].
  rewrite (digitsVal_app _ _ _ _ _ E). cbn. rewrite digitVal_char by lia.
  rewrite (proj2 (Z.ltb_lt _ _)) by lia. f_equal. rewrite Z.pow_add_r, Z.pow_1_r by lia. nia.
Qed.

(** A printed number reads back. *)
Lemma ParseUint_FormatUint v base :
  2 <= base <= 16 -> 0 <= v < 2 ^ 64 -> ParseUint (FormatUint v base) base 64 = Some v.
Proof.
  intros Hb Hv. unfold FormatUint.
  destruct (formatDigits_spec 64 base v [] Hb) as (ds & -> & Hne & Hds).
  { split; [lia|]. eapply Z.lt_le_trans; [apply Hv|]. apply Z.pow_le_mono_l. lia. }
  rewrite app_nil_r. unfold ParseUint. destruct (Hds 0) as (k & Hk & ->).
  rewrite Z.mul_0_l, Z.add_0_l, (proj2 (Z.ltb_lt _ _)) by lia.
  destruct ds as [|q ds]; [exfalso; apply (Hne ltac:(lia)); reflexivity|reflexivity].
Qed.

(** *** Hexadecimal digits *)

Definition hexChar (b : byte) : Prop := 48 <= b2z b <= 57 \/ 97 <= b2z b <= 102.

Lemma hexChar_digit d : 0 <= d < 16 -> hexChar (digitChar d).
Proof.
  intros Hd. unfold hexChar, digitChar. rewrite b2z_z2b. destruct (Z.ltb_spec d 10); rewrite Z.mod_small by lia; lia.
Qed.

Lemma FormatUint_hex v base : 2 <= base <= 16 -> Forall hexChar (FormatUint v base).
Proof.
  intros Hb. unfold FormatUint. assert (Forall hexChar []) as Hacc by constructor. revert Hacc.
  generalize (@nil byte). revert v. generalize 64%nat. induction n as [|n IH]; intros v acc Hacc; cbn [formatDigits]; [done|].
  pose proof (Z.mod_pos_bound v base ltac:(lia)).
  assert (Forall hexChar (digitChar (v mod base) :: acc)) by (constructor; [apply hexChar_digit; lia|done]).
  destruct (v / base =? 0); auto.
Qed.

Lemma hexChar_notin s (c : byte) : Forall hexChar s -> b2z c < 48 \/ 57 < b2z c < 97 -> c ∉ s.
Proof. intros Hs Hc Hin. rewrite Forall_forall in Hs. destruct (Hs c Hin); lia. Qed.

Lemma hexChar_space b : hexChar b -> isSpace b = false.
Proof. unfold hexChar, isSpace. intros. blia; try lia; done. Qed.

Lemma trimLeft_id s : (forall b r, s = b :: r -> isSpace b = false) -> trimLeft s = s.
Proof. destruct s as [|b r]; [done|]. intros H. cbn. by rewrite (H b r eq_refl). Qed.

Lemma trimLeft_spaces sp s : Forall (fun b => isSpace b = true) sp -> trimLeft (sp ++ s) = trimLeft s.
Proof. induction 1 as [|b sp Hb _ IH]; [done|]. cbn. by rewrite Hb. Qed.

(** White space around a word is dropped. *)
Lemma TrimSpace_word s l r :
  Forall (fun b => isSpace b = false) s -> Forall (fun b => isSpace b = true) l -> Forall (fun b => isSpace b = true) r ->
  TrimSpace (l ++ s ++ r) = s.
Proof.
  intros Hs Hl Hr. unfold TrimSpace. rewrite trimLeft_spaces by done.
  destruct s as [|b s].
  { cbn [app]. rewrite <- (app_nil_r r), trimLeft_spaces by done. done. }
  rewrite (trimLeft_id ((b :: s) ++ r)) by (inversion Hs; subst; intros ? ? [= <- _]; done).
  rewrite rev_app_distr, trimLeft_spaces by (by apply Forall_rev).
  rewrite trimLeft_id; [apply rev_involutive|]. intros c t E.
  assert (c ∈ b :: s) as Hin by (apply list_elem_of_In, in_rev; rewrite E; by left).
  rewrite Forall_forall in Hs. by apply Hs.
Qed.
Lemma TrimSpace_hex s r :
  Forall hexChar s -> Forall (fun b => isSpace b = true) r -> TrimSpace (s ++ r) = s.
Proof.
  intros Hs Hr. apply (TrimSpace_word s [] r); [|constructor|done].
  eapply Forall_impl; [exact Hs|]. apply hexChar_space.
Qed.

(** *** Cutting at a separator string *)

Lemma HasPrefix_app p s : HasPrefix (p ++ s) p = true.
Proof. unfold HasPrefix. apply bool_decide_eq_true. by rewrite take_app_length. Qed.
Lemma HasPrefix_inv s p : HasPrefix s p = true -> s = p ++ drop (length p) s.
Proof. unfold HasPrefix. rewrite bool_decide_eq_true. intros H. rewrite <- H at 1. by rewrite take_drop. Qed.

Lemma cutStr_unfold sep s :
  cutStr sep s = if HasPrefix s sep then Some ([], drop (length sep) s)
                 else match s with
                      | [] => None
                      | b :: r => match cutStr sep r with Some (x, y) => Some (b :: x, y) | None => None end
                      end.
Proof. by destruct s. Qed.

Lemma cutStr_Some sep s x y : cutStr sep s = Some (x, y) -> s = x ++ sep ++ y.
Proof.
  revert x. induction s as [|b r IH]; intros x; rewrite cutStr_unfold;
    (destruct (HasPrefix _ sep) eqn:E; [intros [= <- <-]; by apply HasPrefix_inv in E|]); [done|].
  destruct (cutStr sep r) as [[x' y']|]; [|done]. intros [= <- <-]. by rewrite (IH x' eq_refl).
Qed.

(** The first byte of the separator does not occur before it. *)
Lemma cutStr_app c sep x y : c ∉ x -> cutStr (c :: sep) (x ++ (c :: sep) ++ y) = Some (x, y).
Proof.
  induction x as [|b x IH]; intros Hx; rewrite cutStr_unfold.
  - change ([] ++ (c :: sep) ++ y) with ((c :: sep) ++ y). rewrite HasPrefix_app. do 2 f_equal. apply drop_app_length.
  - rewrite not_elem_of_cons in Hx. destruct Hx as [Hb Hx].
    assert (HasPrefix ((b :: x) ++ (c :: sep) ++ y) (c :: sep) = false) as ->.
    { unfold HasPrefix. apply bool_decide_eq_false. cbn. congruence. }
    cbn [app]. change (x ++ c :: sep ++ y) with (x ++ (c :: sep) ++ y). by rewrite IH.
Qed.
Lemma cutStr_none c sep x : c ∉ x -> cutStr (c :: sep) x = None.
Proof.
  induction x as [|b x IH]; intros Hx; rewrite cutStr_unfold.
  - done.
  - rewrite not_elem_of_cons in Hx. destruct Hx as [Hb Hx].
    assert (HasPrefix (b :: x) (c :: sep) = false) as ->.
    { unfold HasPrefix. apply bool_decide_eq_false. cbn. congruence. }
    by rewrite IH.
Qed.

Lemma Index_range s sep : -1 <= Index s sep <= len s.
Proof.
  unfold Index. destruct (cutStr sep s) as [[x y]|] eqn:E; [|len_lia].
  apply cutStr_Some in E as ->. len_lia.
Qed.
Lemma IndexByte_range s c : -1 <= IndexByte s c < Z.max 1 (len s).
Proof.
  unfold IndexByte. destruct (cutByte c s) as [[x y]|] eqn:E; [|len_lia].
  apply cutByte_Some in E as [-> _]. len_lia.
Qed.
Lemma LastIndexByte_range s c : -1 <= LastIndexByte s c < Z.max 1 (len s).
Proof.
  unfold LastIndexByte. destruct (cutByte c (rev s)) as [[x y]|] eqn:E; [|len_lia].
  apply cutByte_Some in E as [E _]. apply (f_equal len) in E. unfold len in *. rewrite length_rev in E.
  rewrite length_app in E. cbn in E. lia.
Qed.

(** *** Lines *)

Lemma cutStr_skip c sep x z :
  c ∉ x -> cutStr (c :: sep) (x ++ z)
           = match cutStr (c :: sep) z with Some (a, b) => Some (x ++ a, b) | None => None end.
Proof.
  induction x as [|b x IH]; intros Hx; [cbn [app]; by destruct (cutStr _ z) as [[]|]|].
  rewrite not_elem_of_cons in Hx. destruct Hx as [Hb Hx]. rewrite cutStr_unfold.
  assert (HasPrefix ((b :: x) ++ z) (c :: sep) = false) as ->.
  { unfold HasPrefix. apply bool_decide_eq_false. cbn. congruence. }
  cbn [app]. rewrite IH by done. by destruct (cutStr _ z) as [[]|].
Qed.

(** Lines joined by a separator whose first byte is in none of them split
    again. *)
Lemma splitStrFrom_Join c sep x r n :
  (length r < n)%nat -> c ∉ x -> Forall (fun l => c ∉ l) r ->
  splitStrFrom n (c :: sep) (Join (x :: r) (c :: sep)) = x :: r.
Proof.
  intros Hn Hx Hr. revert x n Hn Hx. induction Hr as [|y r Hy _ IH]; intros x n Hn Hx; (destruct n as [|n]; [lia|]).
  - cbn. by rewrite cutStr_none.
  - rewrite Join_cons. cbn [splitStrFrom]. rewrite cutStr_app, IH by (done || (cbn in Hn; lia)). done.
Qed.

Lemma SplitStr_Join c sep x r :
  c ∉ x -> Forall (fun l => c ∉ l) r -> SplitStr (Join (x :: r) (c :: sep)) (c :: sep) = x :: r.
Proof.
  intros Hx Hr. unfold SplitStr. apply splitStrFrom_Join; [|done..].
  clear Hx Hr. revert x. induction r as [|y r IH]; intros x; cbn [length]; [lia|].
  rewrite Join_cons, !length_app. specialize (IH y). cbn [length] in *. lia.
Qed.

(** The blank line is the first occurrence of the separator twice. *)
Lemma cutStr_blank c d x r body :
  c <> d -> c ∉ x -> Forall (fun l => c ∉ l /\ l <> []) r ->
  cutStr [c; d; c; d] (Join (x :: r) [c; d] ++ [c; d; c; d] ++ body) = Some (Join (x :: r) [c; d], body).
Proof.
  intros Hcd Hx Hr. revert x Hx. induction Hr as [|y r [Hy Hne] _ IH]; intros x Hx; [by apply cutStr_app|].
  rewrite Join_cons, <- !app_assoc. rewrite cutStr_skip by done. specialize (IH y Hy).
  destruct y as [|b y]; [done|]. rewrite not_elem_of_cons in Hy. destruct Hy as [Hb _].
  remember (Join ((b :: y) :: r) [c; d]) as J eqn:EJ.
  assert (exists J', J = b :: J') as [J' EJ'] by (rewrite EJ; destruct r; cbn; by eexists).
  assert (cutStr [c; d; c; d] ([c; d] ++ J ++ [c; d; c; d] ++ body) = Some ([c; d] ++ J, body)) as ->; [|done].
  cbn [app]. rewrite cutStr_unfold.
  assert (HasPrefix (c :: d :: J ++ c :: d :: c :: d :: body) [c; d; c; d] = false) as ->.
  { unfold HasPrefix. apply bool_decide_eq_false. rewrite EJ'. cbn. congruence. }
  rewrite cutStr_unfold.
  assert (HasPrefix (d :: J ++ c :: d :: c :: d :: body) [c; d; c; d] = false) as ->.
  { unfold HasPrefix. apply bool_decide_eq_false. cbn. congruence. }
  cbn [app] in IH. by rewrite IH.
Qed.

Lemma TrimSpace_space v : TrimSpace (x20 :: v) = TrimSpace v.
Proof. done. Qed.

Lemma Atoi_FormatUint v : 0 <= v < 2 ^ 63 -> Atoi (FormatUint v 10) = Some v.
Proof.
  intros Hv. pose proof (ParseUint_FormatUint v 10 ltac:(lia) ltac:(change (2 ^ 64) with (2 * 2 ^ 63); lia)) as Hp.
  pose proof (FormatUint_hex v 10 ltac:(lia)) as Hh. revert Hp. unfold ParseUint, Atoi.
  destruct (FormatUint v 10) as [|b r]; [done|]. apply Forall_cons in Hh as [Hb _].
  assert (48 <= b2z b) by (destruct Hb; lia).
  rewrite !(proj2 (Z.eqb_neq (b2z b) _)) by lia. cbn [orb].
  destruct (digitsVal 10 (b :: r) 0) as [w|]; [|done]. destruct (w <? 2 ^ 64); [|done]. intros [= ->].
  rewrite (proj2 (Z.leb_le _ _)), (proj2 (Z.ltb_lt _ _)) by lia. done.
Qed.

Lemma elem_rev (c : byte) s : c ∈ rev s <-> c ∈ s.
Proof. rewrite !list_elem_of_In. symmetry. apply in_rev. Qed.

Lemma LastIndexByte_app x c y : c ∉ y -> LastIndexByte (x ++ c :: y) c = len x.
Proof.
  intros Hy. unfold LastIndexByte. rewrite rev_app_distr. cbn [rev]. rewrite <- app_assoc. cbn [app].
  rewrite cutByte_app by (by rewrite elem_rev). len_norm. unfold len. rewrite length_rev. lia.
Qed.
Lemma LastIndexByte_none s c : c ∉ s -> LastIndexByte s c = -1.
Proof. intros Hs. unfold LastIndexByte. by rewrite cutByte_none by (by rewrite elem_rev). Qed.
