(* ===== verification/Dns.v ===== *)
(** * DNS resolver (uefiboard/ministack/dns.go)

    Name and query encoding, the reply parser with its compression pointers,
    and the A-record lookup over a UDP connection of the stack. *)

From S2P Require Import Prelude NetIP Effects Ethernet IPv4 Udp Arp TcpConn Stack StackTcp Provenance GoStr.

Definition dnsHeaderLen : Z := 12.
Definition dnsTypeA : Z := 1.
Definition dnsClassIN : Z := 1.
Definition dnsFlagResponse : Z := 0x8000.
Definition dnsFlagRD : Z := 0x0100.
Definition dnsRcodeMask : Z := 0x000F.
Definition dnsMaxLabelLen : Z := 63.
Definition dnsMaxNameLen : Z := 255.
Definition dnsClientPortLow : Z := 49152.
Definition dnsQueryRoot : Z := 0x4D53.

Definition dnsIDFromMAC (mac : list byte) (seed salt : Z) : out Z :=
  if len mac <? 6 then Ok (Z.lxor seed salt)
  else
    let* macHi := getU16 mac 0 2 in
    let* macLo := getU16 mac 4 6 in
    Ok (Z.lxor (Z.lxor (Z.lxor seed salt) macHi) macLo).

(** ** Names *)

Definition dot : byte := x2e.

(** The first loop: label lengths checked and summed. *)
Fixpoint labelsTotal (labels : list (list byte)) (total : Z) : out Z :=
  match labels with
  | [] => Ok total
  | l :: r =>
      ret_if dnsMaxLabelLen <? len l with ErrDNSLabelTooLong;;
      labelsTotal r (total + (1 + len l))
  end.

(** The second loop. *)
Definition writeLabels (labels : list (list byte)) : list byte :=
  foldl (fun out l => (out ++ [z2b (len l)]) ++ l) [] labels.

Definition encodeDNSName (name : list byte) : out (list byte) :=
  let name := TrimSuffix name [dot] in
  match name with
  | [] => Ok [x00]
  | _ =>
      let labels := Split dot name in
      let* total := labelsTotal labels 1 in
      ret_if dnsMaxNameLen <? total with ErrDNSNameTooLong;;
      Ok (writeLabels labels ++ [x00])
  end.

Definition buildDNSQuery (id : Z) (name : list byte) : out (list byte) :=
  let* qname := encodeDNSName name in
  let buf := make (dnsHeaderLen + len qname + 4) in
  let* buf := putU16 buf 0 2 id in
  let* buf := putU16 buf 2 4 dnsFlagRD in
  let* buf := putU16 buf 4 6 1 in
  let* buf := copyAt buf dnsHeaderLen (len buf) qname in
  let off := dnsHeaderLen + len qname in
  let* buf := putU16 buf off (off + 2) dnsTypeA in
  putU16 buf (off + 2) (off + 4) dnsClassIN.

(** The loop of the name parser. *)
Fixpoint nameLoop (fuel : nat) (pkt : list byte) (labels : list (list byte)) (off postPointer chain : Z)
  : out (list (list byte) * Z) :=
  match fuel with
  | O => Err (ErrOther 0)
  | S f =>
      ret_if len pkt <=? off with ErrDNSBadFormat;;
      let* b := idx pkt off in
      if b =? 0 then Ok (labels, if postPointer =? -1 then off + 1 else postPointer)
      else if Z.land b 0xC0 =? 0xC0 then
        ret_if len pkt <=? off + 1 with ErrDNSBadFormat;;
        let* w := getU16 pkt off (off + 2) in
        let ptr := Z.land w 0x3FFF in
        let postPointer := if postPointer =? -1 then off + 2 else postPointer in
        ret_if 16 <? chain + 1 with ErrDNSCompressLoop;;
        nameLoop f pkt labels ptr postPointer (chain + 1)
      else
        ret_if len pkt <? b + off + 1 with ErrDNSBadFormat;;
        let* l := slice pkt (off + 1) (off + 1 + b) in
        nameLoop f pkt (labels ++ [l]) (off + (1 + b)) postPointer chain
  end.

(** Between two jumps the offset grows, and there are at most sixteen jumps. *)
Definition nameFuel (pkt : list byte) : nat := Z.to_nat (17 * (len pkt + 1) + 1).

Definition parseDNSName (pkt : list byte) (start : Z) : out (list byte * Z) :=
  ret_if len pkt <=? start with ErrDNSBadFormat;;
  let* r := nameLoop (nameFuel pkt) pkt [] start (-1) 0 in
  Ok (Join (fst r) [dot], snd r).

(** ** Replies *)

Fixpoint skipQuestions (n : nat) (pkt : list byte) (off : Z) : out Z :=
  match n with
  | O => Ok off
  | S n' =>
      let* r := parseDNSName pkt off in
      let off := snd r in
      ret_if len pkt <? off + 4 with ErrDNSBadFormat;;
      skipQuestions n' pkt (off + 4)
  end.

Fixpoint walkAnswers (n : nat) (pkt : list byte) (off : Z) : out IP :=
  match n with
  | O => Err ErrDNSEmptyAnswer
  | S n' =>
      let* r := parseDNSName pkt off in
      let off := snd r in
      ret_if len pkt <? off + 10 with ErrDNSBadFormat;;
      let* rtype := getU16 pkt off (off + 2) in
      let* rclass := getU16 pkt (off + 2) (off + 4) in
      let* rdlen := getU16 pkt (off + 8) (off + 10) in
      let off := off + 10 in
      ret_if len pkt <? off + rdlen with ErrDNSBadFormat;;
      if (rtype =? dnsTypeA) && (rclass =? dnsClassIN) && (rdlen =? 4)
      then slice pkt off (off + 4)
      else walkAnswers n' pkt (off + rdlen)
  end.

Definition parseDNSAnswerForA (pkt : list byte) (wantID : Z) : out IP :=
  ret_if len pkt <? dnsHeaderLen with ErrDNSBadFormat;;
  let* gotID := getU16 pkt 0 2 in
  ret_if negb (gotID =? wantID) with ErrDNSBadFormat;;
  let* flags := getU16 pkt 2 4 in
  ret_if Z.land flags dnsFlagResponse =? 0 with ErrDNSBadFormat;;
  ret_if negb (Z.land flags dnsRcodeMask =? 0) with ErrDNSRcode;;
  let* qdcount := getU16 pkt 4 6 in
  let* ancount := getU16 pkt 6 8 in
  let* off := skipQuestions (Z.to_nat qdcount) pkt dnsHeaderLen in
  walkAnswers (Z.to_nat ancount) pkt off.

(** ** The lookup *)

Section resolve.
Context {L : Type} `{Link L}.
Abbreviation StM A := (M (Stack L) A).

(** Ports from [dnsClientPortLow + i], [n] of them. *)
Fixpoint scanUDP (n : nat) (i : Z) : StM (nat * Z) :=
  match n with
  | O => throw ErrUDP4PortInUse
  | S n' =>
      let candidate := u16 (dnsClientPortLow + i) in
      r <- try (OpenUDP4 candidate) ;;
      match r with
      | inl p => ret (p, candidate)
      | inr e => if decide (e = ErrUDP4PortInUse) then scanUDP n' (i + 1) else throw e
      end
  end.

Definition resolveAIter (p : nat) (id : Z) : StM (option IP) :=
  r <- try (ReadFrom p 1500) ;;
  match r with
  | inr ErrUDP4ReadTimeout => throw ErrDNSTimeout
  | inr e => throw e
  | inl (b, _) =>
      a <- try (lift (parseDNSAnswerForA b id)) ;;
      match a with
      | inr ErrDNSBadFormat => ret None
      | inr e => throw e
      | inl ip => ret (Some ip)
      end
  end.

Definition queryA (p : nat) (mac : list byte) (localPort : Z) (name : list byte) (d4 : IP) : StM IP :=
  id <- lift (dnsIDFromMAC mac dnsQueryRoot localPort) ;;
  query <- lift (buildDNSQuery id name) ;;
  WriteTo p query d4 53 ;;;
  pump (resolveAIter p id) (throw ErrDNSTimeout).

Definition ResolveA (name : list byte) (dnsServer : IP) : StM IP :=
  match To4 dnsServer with
  | None => throw ErrDNSInvalidServer
  | Some d4 =>
      s <- gets id ;;
      throw_if st_closed s with ErrStackClosed;;
      let mac := MAC (st_link s) in
      c <- scanUDP 1024 0 ;;
      withUDP (fst c) (queryA (fst c) mac (snd c) name d4)
  end.
End resolve.

(** ** The parser returns *)

Lemma getU16_in pkt lo :
  0 <= lo -> lo + 2 <= len pkt -> exists v, getU16 pkt lo (lo + 2) = Ok v /\ isU16 v.
Proof.
  intros. unfold getU16. rewrite slice_ok by lia. cbn [out_bind].
  assert (len (take (Z.to_nat (lo + 2 - lo)) (drop (Z.to_nat lo) pkt)) = 2) as Hl by len_lia.
  revert Hl. generalize (take (Z.to_nat (lo + 2 - lo)) (drop (Z.to_nat lo) pkt)). intros t Hl.
  explode t Hl. cbn. eauto.
Qed.

Definition dnsParseErr (e : error) : Prop := e = ErrDNSBadFormat \/ e = ErrDNSCompressLoop.

Lemma nameLoop_total fuel pkt labels off pp chain :
  0 <= off -> 0 <= chain <= 16 -> (pp = -1 \/ 0 < pp <= len pkt) ->
  (16 - chain) * (len pkt + 1) + Z.max 0 (len pkt - off) < Z.of_nat fuel ->
  match nameLoop fuel pkt labels off pp chain with
  | Ok r => 0 < snd r <= len pkt
  | Err e => dnsParseErr e
  | Panic => False
  end.
Proof.
  revert labels off pp chain. induction fuel as [|f IH]; intros labels off pp chain Hoff Hch Hpp Hf; pose_lens; [nia|].
  cbn [nameLoop]. destruct (Z.leb_spec (len pkt) off); [by left|].
  rewrite idx_ok by lia. cbn [out_bind]. set (b := b2z _).
  assert (0 <= b < 256) as Hb by apply b2z_range. clearbody b.
  destruct (Z.eqb_spec b 0); [cbn; destruct (Z.eqb_spec pp (-1)); lia|].
  destruct (Z.land b 192 =? 192).
  - destruct (Z.leb_spec (len pkt) (off + 1)); [by left|].
    destruct (getU16_in pkt off ltac:(lia) ltac:(lia)) as (w & -> & _). cbn [out_bind].
    destruct (Z.ltb_spec 16 (chain + 1)); [by right|].
    assert (0 <= Z.land w 16383) by (apply Z.land_nonneg; right; lia).
    apply IH; [lia|lia| |nia]. destruct (Z.eqb_spec pp (-1)); lia.
  - destruct (Z.ltb_spec (len pkt) (b + off + 1)); [by left|].
    rewrite slice_ok by lia. cbn [out_bind]. apply IH; [lia|lia|done|lia].
Qed.

Lemma parseDNSName_total pkt start :
  0 <= start ->
  match parseDNSName pkt start with
  | Ok r => 0 < snd r <= len pkt
  | Err e => dnsParseErr e
  | Panic => False
  end.
Proof.
  intros Hs. unfold parseDNSName. destruct (Z.leb_spec (len pkt) start); [by left|].
  pose proof (nameLoop_total (nameFuel pkt) pkt [] start (-1) 0) as Ht.
  destruct (nameLoop _ _ _ _ _ _); cbn [out_bind]; apply Ht; try lia; unfold nameFuel; pose_lens; lia.
Qed.

Lemma skipQuestions_total n pkt off :
  0 <= off ->
  match skipQuestions n pkt off with Ok o => 0 <= o | Err e => dnsParseErr e | Panic => False end.
Proof.
  revert off. induction n as [|n IH]; intros off Hoff; cbn [skipQuestions]; [done|].
  pose proof (parseDNSName_total pkt off Hoff) as Ht.
  destruct (parseDNSName pkt off) as [r|e|]; cbn [out_bind]; [|done|done].
  destruct (_ <? _); [by left|]. apply IH. lia.
Qed.

(** An address record at offset [o] of a message. *)
Definition aRecordAt (pkt : list byte) (o : Z) (ip : IP) : Prop :=
  getU16 pkt o (o + 2) = Ok dnsTypeA /\ getU16 pkt (o + 2) (o + 4) = Ok dnsClassIN /\
  getU16 pkt (o + 8) (o + 10) = Ok 4 /\ slice pkt (o + 10) (o + 14) = Ok ip.

Lemma walkAnswers_total n pkt off :
  0 <= off ->
  match walkAnswers n pkt off with
  | Ok ip => exists o, 0 < o /\ aRecordAt pkt o ip
  | Err e => dnsParseErr e \/ e = ErrDNSEmptyAnswer
  | Panic => False
  end.
Proof.
  revert off. induction n as [|n IH]; intros off Hoff; cbn [walkAnswers]; [by right|].
  pose proof (parseDNSName_total pkt off Hoff) as Ht.
  destruct (parseDNSName pkt off) as [[nm o]|e|] eqn:Enm; cbn [out_bind]; [|by left|done]. cbn [snd] in *.
  destruct (Z.ltb_spec (len pkt) (o + 10)); [by left; left|].
  destruct (getU16_in pkt o ltac:(lia) ltac:(lia)) as (ty & Ety & _).
  destruct (getU16_in pkt (o + 2) ltac:(lia) ltac:(lia)) as (cl & Ecl & _).
  destruct (getU16_in pkt (o + 8) ltac:(lia) ltac:(lia)) as (rd & Erd & Hrd). unfold isU16 in Hrd.
  replace (o + 2 + 2) with (o + 4) in Ecl by lia. replace (o + 8 + 2) with (o + 10) in Erd by lia.
  rewrite Ety, Ecl, Erd. cbn [out_bind]. destruct (Z.ltb_spec (len pkt) (o + 10 + rd)); [by left; left|].
  destruct (Z.eqb_spec ty dnsTypeA) as [->|]; [|apply IH; lia].
  destruct (Z.eqb_spec cl dnsClassIN) as [->|]; [|apply IH; lia].
  destruct (Z.eqb_spec rd 4) as [->|]; [|apply IH; lia]. cbn [andb].
  rewrite slice_ok by lia. exists o. split; [lia|]. unfold aRecordAt.
  replace (o + 14) with (o + 10 + 4) by lia. by rewrite slice_ok by lia.
Qed.

(** What the reply parser may return. *)
Definition soundAnswer (pkt : list byte) (wantID : Z) (r : out IP) : Prop :=
  match r with
  | Ok ip =>
      len ip = 4 /\ getU16 pkt 0 2 = Ok wantID /\
      (exists flags, getU16 pkt 2 4 = Ok flags /\ Z.land flags dnsFlagResponse <> 0 /\ Z.land flags dnsRcodeMask = 0) /\
      exists o, 0 < o /\ aRecordAt pkt o ip
  | Err e => e = ErrDNSBadFormat \/ e = ErrDNSCompressLoop \/ e = ErrDNSRcode \/ e = ErrDNSEmptyAnswer
  | Panic => False
  end.

Lemma parseDNSAnswerForA_spec pkt wantID : soundAnswer pkt wantID (parseDNSAnswerForA pkt wantID).
Proof.
  unfold soundAnswer, parseDNSAnswerForA, dnsHeaderLen. destruct (Z.ltb_spec (len pkt) 12); [by left|].
  destruct (getU16_in pkt 0 ltac:(lia) ltac:(lia)) as (gid & Eid & _).
  destruct (getU16_in pkt 2 ltac:(lia) ltac:(lia)) as (fl & Efl & _).
  destruct (getU16_in pkt 4 ltac:(lia) ltac:(lia)) as (qd & Eqd & _).
  destruct (getU16_in pkt 6 ltac:(lia) ltac:(lia)) as (an & Ean & _).
  change (0 + 2) with 2 in Eid. change (2 + 2) with 4 in Efl. change (4 + 2) with 6 in Eqd.
  change (6 + 2) with 8 in Ean. rewrite Eid. cbn [out_bind].
  destruct (Z.eqb_spec gid wantID) as [->|]; [|by left]. cbn [negb].
  rewrite Efl. cbn [out_bind]. destruct (Z.eqb_spec (Z.land fl dnsFlagResponse) 0); [by left|].
  destruct (Z.eqb_spec (Z.land fl dnsRcodeMask) 0); cbn [negb]; [|by auto].
  rewrite Eqd, Ean. cbn [out_bind].
  pose proof (skipQuestions_total (Z.to_nat qd) pkt 12 ltac:(lia)) as Hq.
  destruct (skipQuestions _ _ _) as [off|er|]; cbn [out_bind]; [|destruct Hq; auto|done].
  pose proof (walkAnswers_total (Z.to_nat an) pkt off Hq) as Hw.
  destruct (walkAnswers _ _ _) as [ip|er|]; [|destruct Hw as [[]|]; auto|done].
  destruct Hw as (o & Ho & HA). split; [|by eauto 8].
  destruct HA as (_ & _ & _ & Hs%len_slice). lia.
Qed.

(** A reply parser that cannot be misled by its framing: for every byte string
    the parser returns; an address comes from an IN A record of a message that
    is a response without an error code and carries the wanted id; the other
    outcomes are the listed errors.  In particular compression pointers cannot
    make it loop or read out of bounds. *)
Theorem dns_reply_sound pkt wantID : soundAnswer pkt wantID (parseDNSAnswerForA pkt wantID).
Proof. apply parseDNSAnswerForA_spec. Qed.

(** ** Round trips *)

Definition nameLabels (name : list byte) : list (list byte) :=
  match TrimSuffix name [dot] with [] => [] | n => Split dot n end.

Definition labelOk (l : list byte) : Prop := l <> [] /\ len l <= 63.

Definition labelBytes (l : list byte) : list byte := z2b (len l) :: l.

Lemma writeLabels_concat ls : writeLabels ls = concat (labelBytes <$> ls).
Proof.
  unfold writeLabels.
  assert (forall acc, foldl (fun out l => (out ++ [z2b (len l)]) ++ l) acc ls = acc ++ concat (labelBytes <$> ls)) as Hf; [|apply Hf].
  induction ls as [|l ls IH]; intros acc; cbn [foldl fmap list_fmap concat]; [by rewrite app_nil_r|].
  rewrite IH, <- !app_assoc. done.
Qed.

Lemma labelsTotal_ok ls t r : labelsTotal ls t = Ok r -> Forall (fun l => len l <= 63) ls.
Proof.
  revert t. induction ls as [|l ls IH]; intros t; cbn [labelsTotal]; [by constructor|].
  destruct (Z.ltb_spec dnsMaxLabelLen (len l)); [done|]. intros Hr%IH. by constructor.
Qed.

Lemma labelsTotal_safe ls t : safe (labelsTotal ls t).
Proof.
  revert t. induction ls as [|l ls IH]; intros t; cbn [labelsTotal]; [done|]. by destruct (_ <? _).
Qed.

Lemma encodeDNSName_ok name q :
  encodeDNSName name = Ok q ->
  q = concat (labelBytes <$> nameLabels name) ++ [x00] /\ Forall (fun l => len l <= 63) (nameLabels name) /\
  Join (nameLabels name) [dot] = TrimSuffix name [dot].
Proof.
  unfold encodeDNSName, nameLabels. destruct (TrimSuffix name [dot]) as [|c n]; [by intros [= <-]|].
  destruct (labelsTotal _ 1) as [t| |] eqn:Et; cbn [out_bind]; [|done|done].
  destruct (_ <? _); [done|]. intros <-%Ok_inj. rewrite writeLabels_concat.
  split; [done|]. split; [by eapply labelsTotal_ok|]. apply Join_Split.
Qed.

Lemma encodeDNSName_safe name : safe (encodeDNSName name).
Proof.
  unfold encodeDNSName. destruct (TrimSuffix name [dot]); [done|].
  apply safe_bind; [apply labelsTotal_safe|]. intros t _. by destruct (_ <? _).
Qed.

Lemma land_label b : 0 <= b <= 63 -> Z.land b 192 = 0.
Proof.
  intros Hb. assert (Z.land b 192 = Z.land (b mod 2 ^ 6) 192) as -> by (rewrite Z.mod_small by lia; done).
  rewrite <- Z.land_ones by lia. rewrite <- Z.land_assoc. change (Z.land (Z.ones 6) 192) with 0. apply Z.land_0_r.
Qed.

Lemma idx_app_at pre c r : idx (pre ++ c :: r) (len pre) = Ok (b2z c).
Proof.
  rewrite idx_ok by len_lia. rewrite app_nth2 by (unfold len; lia).
  replace (Z.to_nat (len pre) - length pre)%nat with 0%nat by (unfold len; lia). done.
Qed.

(** The loop on a run of labels that ends with the root. *)
Lemma nameLoop_labels ls pre post labels pp chain fuel :
  Forall labelOk ls -> (length ls < fuel)%nat ->
  nameLoop fuel (pre ++ concat (labelBytes <$> ls) ++ x00 :: post) labels (len pre) pp chain
  = Ok (labels ++ ls, if pp =? -1 then len pre + len (concat (labelBytes <$> ls)) + 1 else pp).
Proof.
  intros Hls. revert pre labels fuel. induction Hls as [|l ls [Hne Hl] Hls IH]; intros pre labels fuel Hf;
    (destruct fuel as [|f]; [lia|]); cbn [fmap list_fmap concat app nameLoop].
  - rewrite (proj2 (Z.leb_gt _ _)) by len_lia. rewrite idx_app_at. cbn [out_bind].
    change (b2z x00) with 0. cbn [Z.eqb]. rewrite app_nil_r. by rewrite len_nil, Z.add_0_r.
  - change (labelBytes l) with (z2b (len l) :: l). cbn [app].
    rewrite (proj2 (Z.leb_gt _ _)) by len_lia. rewrite idx_app_at. cbn [out_bind].
    pose proof (len_nonneg l). rewrite b2z_z2b, Z.mod_small by lia.
    assert (len l <> 0) as Hn0 by (intros E%list_len_0; done).
    rewrite (proj2 (Z.eqb_neq _ _)) by done. rewrite land_label by lia. cbn [Z.eqb].
    rewrite (proj2 (Z.ltb_ge _ _)) by len_lia.
    set (tail := concat (labelBytes <$> ls) ++ x00 :: post) in *.
    replace (pre ++ z2b (len l) :: (l ++ concat (labelBytes <$> ls)) ++ x00 :: post)
      with ((pre ++ [z2b (len l)]) ++ l ++ tail) by (unfold tail; rewrite <- !app_assoc; done).
    rewrite slice_app_at by len_lia. cbn [out_bind].
    replace (len pre + (1 + len l)) with (len ((pre ++ [z2b (len l)]) ++ l)) by len_lia.
    rewrite app_assoc. unfold tail. rewrite IH by (cbn in Hf; lia). rewrite <- app_assoc. f_equal. f_equal.
    destruct (pp =? -1); [|done]. len_lia.
Qed.

Lemma labels_short ls pre post :
  (length ls < nameFuel (pre ++ concat (labelBytes <$> ls) ++ x00 :: post))%nat.
Proof.
  assert (Z.of_nat (length ls) <= len (concat (labelBytes <$> ls))) as H.
  { induction ls as [|l ls IH]; [done|]. cbn [fmap list_fmap concat length]. unfold labelBytes at 1. len_lia. }
  unfold nameFuel. len_lia.
Qed.

Lemma parseDNSName_labels ls pre post :
  Forall labelOk ls ->
  parseDNSName (pre ++ concat (labelBytes <$> ls) ++ x00 :: post) (len pre)
  = Ok (Join ls [dot], len pre + len (concat (labelBytes <$> ls)) + 1).
Proof.
  intros Hok. unfold parseDNSName. rewrite (proj2 (Z.leb_gt _ _)) by len_lia.
  rewrite nameLoop_labels by (done || apply labels_short). done.
Qed.

(** A name that encodes and has no empty label parses back, wherever in a
    message it stands, to itself without its final dot, and the parser
    continues right after it. *)
Theorem dns_name_roundtrip name q pre post :
  encodeDNSName name = Ok q -> Forall (fun l => l <> []) (nameLabels name) ->
  parseDNSName (pre ++ q ++ post) (len pre) = Ok (TrimSuffix name [dot], len pre + len q).
Proof.
  intros (-> & H63 & HJ)%encodeDNSName_ok Hne.
  assert (Forall labelOk (nameLabels name)) as Hok.
  { rewrite Forall_forall in *. intros l Hl. split; auto. }
  rewrite <- app_assoc. cbn [app]. rewrite parseDNSName_labels by done. rewrite HJ. f_equal. f_equal. len_lia.
Qed.

Lemma dns_name_roundtrip_witness :
  parseDNSName (make 12 ++ (x07 :: str "example" ++ x03 :: str "com" ++ [x00]) ++ [x00; x01]) (len (make 12))
  = Ok (str "example.com", 25).
Proof.
  rewrite (dns_name_roundtrip (str "example.com.")).
  - vm_compute; reflexivity.
  - vm_compute; reflexivity.
  - change (nameLabels (str "example.com.")) with [str "example"; str "com"]. by repeat constructor.
Defined.

(** *** Answers *)

(** A resource record as servers send it: the owner name is a compression
    pointer to the question. *)
Record rr := mkRR { rr_type : Z; rr_ttl : Z; rr_data : list byte }.
Definition rrHdr (r : rr) : list byte :=
  [xc0; x0c] ++ enc16 (rr_type r) ++ enc16 dnsClassIN ++ enc32 (rr_ttl r) ++ enc16 (len (rr_data r)).
Definition rrBytes (r : rr) : list byte := rrHdr r ++ rr_data r.
Definition otherRR (r : rr) : Prop := isU16 (rr_type r) /\ rr_type r <> dnsTypeA /\ len (rr_data r) < 2 ^ 16.

(** The reply to a query: the question repeated, then the records. *)
Definition dnsReply (id : Z) (q : list byte) (rs : list rr) : list byte :=
  (enc16 id ++ enc16 0x8180 ++ enc16 1 ++ enc16 (len rs) ++ [x00; x00; x00; x00]) ++
  q ++ (enc16 dnsTypeA ++ enc16 dnsClassIN) ++ concat (rrBytes <$> rs).

Lemma parseDNSName_pointer pkt pre post h ls tail :
  pkt = pre ++ [xc0; x0c] ++ post -> pkt = h ++ concat (labelBytes <$> ls) ++ x00 :: tail -> len h = 12 ->
  Forall labelOk ls -> parseDNSName pkt (len pre) = Ok (Join ls [dot], len pre + 2).
Proof.
  intros E1 E2 Hh Hls. unfold parseDNSName. rewrite (proj2 (Z.leb_gt _ _)) by (rewrite E1; len_lia).
  destruct (nameFuel pkt) as [|f] eqn:Ef; [unfold nameFuel in Ef; pose_lens; lia|]. cbn [nameLoop].
  rewrite (proj2 (Z.leb_gt _ _)) by (rewrite E1; len_lia).
  assert (idx pkt (len pre) = Ok 192) as ->.
  { rewrite E1. cbn [app]. apply idx_app_at. }
  cbn [out_bind]. change (192 =? 0) with false. change (Z.land 192 192 =? 192) with true. cbv iota.
  rewrite (proj2 (Z.leb_gt _ _)) by (rewrite E1; len_lia).
  assert (getU16 pkt (len pre) (len pre + 2) = Ok 49164) as ->.
  { rewrite E1. unfold getU16. rewrite slice_app_at by len_lia. done. }
  cbn [out_bind]. change (Z.land 49164 16383) with 12. change (16 <? 0 + 1) with false. cbv iota.
  change (-1 =? -1) with true. cbv iota. rewrite <- Hh at 1. rewrite E2.
  assert (S (length ls) < S f)%nat as Hf.
  { rewrite <- Ef, E2. unfold nameFuel.
    assert (Z.of_nat (length ls) <= len (concat (labelBytes <$> ls))) as H.
    { clear. induction ls as [|l ls IH]; [done|]. cbn [fmap list_fmap concat length]. unfold labelBytes at 1. len_lia. }
    len_lia. }
  rewrite nameLoop_labels by (done || lia). cbn [out_bind fst snd app].
  rewrite (proj2 (Z.eqb_neq _ _)) by (pose_lens; lia). done.
Qed.

Section answers.
Variables (pkt h : list byte) (ls : list (list byte)) (tail : list byte).
Hypothesis (Hpkt : pkt = h ++ concat (labelBytes <$> ls) ++ x00 :: tail) (Hh : len h = 12) (Hls : Forall labelOk ls).

(** The walk over one record of the reply. *)
Lemma walk_rr n pre r post :
  pkt = pre ++ rrBytes r ++ post -> isU16 (rr_type r) -> len (rr_data r) < 2 ^ 16 ->
  walkAnswers (S n) pkt (len pre) =
    if (rr_type r =? dnsTypeA) && (len (rr_data r) =? 4) then Ok (rr_data r)
    else walkAnswers n pkt (len (pre ++ rrBytes r)).
Proof.
  intros E Hty Hd. cbn [walkAnswers]. pose proof (len_nonneg (rr_data r)) as Hn.
  assert (len (rrHdr r) = 12) as Hl by done.
  rewrite (parseDNSName_pointer pkt pre (drop 2 (rrHdr r) ++ rr_data r ++ post) h ls tail); [|by rewrite E; unfold rrBytes; rewrite <- app_assoc|done..].
  cbn [out_bind snd]. unfold rrBytes in *. rewrite <- app_assoc in E.
  rewrite (proj2 (Z.ltb_ge _ _)) by (rewrite E, !len_app, Hl; pose_lens; lia).
  assert (forall k, 0 <= k -> k + 2 <= 10 -> getU16 pkt (len pre + 2 + k) (len pre + 2 + k + 2) = getU16 (rrHdr r) (2 + k) (4 + k)) as Hg.
  { intros k Hk1 Hk2. rewrite E, getU16_app_r by lia. rewrite getU16_app_l by lia. f_equal; lia. }
  assert (forall k a b, 0 <= k -> k + 2 <= 10 -> a = len pre + 2 + k -> b = a + 2 ->
    getU16 pkt a b = getU16 (rrHdr r) (2 + k) (4 + k)) as Hg'.
  { intros k a b ? ? -> ->. by apply Hg. }
  rewrite (Hg' 0), (Hg' 2), (Hg' 8) by lia. unfold rrHdr at 1 2 3. cbn [app enc16 enc32].
  change (2 + 0) with 2. change (4 + 0) with 4. change (2 + 2) with 4. change (4 + 2) with 6.
  change (2 + 8) with 10. change (4 + 8) with 12.
  remember (len (rr_data r)) as rdl eqn:Erd. hdr_run.
  rewrite !be16_enc, !u16_small by (done || (unfold isU16, dnsClassIN; lia)). subst rdl.
  rewrite (proj2 (Z.ltb_ge _ _)) by (rewrite E, !len_app, Hl; pose_lens; lia).
  change (dnsClassIN =? dnsClassIN) with true. rewrite andb_true_r.
  destruct (rr_type r =? dnsTypeA); cbn [andb]; [destruct (Z.eqb_spec (len (rr_data r)) 4) as [E4|]|].
  - rewrite E. rewrite app_assoc. apply slice_app_at; rewrite ?len_app, Hl; lia.
  - f_equal. rewrite !len_app, Hl. lia.
  - f_equal. rewrite !len_app, Hl. lia.
Qed.

Lemma walk_records n others pre ip ttl post :
  Forall otherRR others -> len ip = 4 ->
  pkt = pre ++ concat (rrBytes <$> others) ++ rrBytes (mkRR dnsTypeA ttl ip) ++ post ->
  walkAnswers (length others + S n) pkt (len pre) = Ok ip.
Proof.
  intros Ho Hip. revert pre. induction Ho as [|r others (Ht & Hna & Hd) Ho IH]; intros pre E; cbn [length Nat.add].
  - rewrite (walk_rr n pre (mkRR dnsTypeA ttl ip) post); cbn; [|done|done|lia].
    change (dnsTypeA =? dnsTypeA) with true. by rewrite Hip.
  - cbn [fmap list_fmap concat] in E. rewrite <- app_assoc in E. rewrite (walk_rr _ pre r _ E) by done.
    rewrite (proj2 (Z.eqb_neq _ _)) by done. cbn [andb]. apply IH. by rewrite <- app_assoc.
Qed.
End answers.

Lemma buildDNSQuery_layout id name q :
  encodeDNSName name = Ok q ->
  buildDNSQuery id name
  = Ok ((enc16 id ++ enc16 dnsFlagRD ++ enc16 1 ++ make 6) ++ q ++ enc16 dnsTypeA ++ enc16 dnsClassIN).
Proof.
  intros Hq. unfold buildDNSQuery. rewrite Hq. cbn [out_bind]. pose proof (len_nonneg q).
  unfold dnsHeaderLen. rewrite <- Z.add_assoc, make_split by lia.
  change (make 12) with (repeat x00 12). cbn [repeat]. remember (make (len q + 4)) as tl eqn:Et. hdr_run. subst tl.
  rewrite copyAt_within by (done || lia). cbn [out_bind].
  rewrite app_assoc. remember (_ ++ q) as hd eqn:Ehd.
  assert (len hd = 12 + len q) as Hl by (rewrite Ehd, len_app; done).
  assert (forall k a b lo hi v, 0 <= a -> lo = 12 + len q + a -> hi = 12 + len q + b ->
    putU16 (hd ++ k) lo hi v = let* k' := putU16 k a b v in Ok (hd ++ k')) as Hput.
  { intros k a b lo hi v Ha -> ->. rewrite putU16_app_r by lia. rewrite Hl. by rewrite !Z.add_simpl_l. }
  rewrite (Hput _ 0 2) by lia. change (make 4) with (repeat x00 4). cbn [repeat]. hdr_run.
  rewrite (Hput _ 2 4) by lia. hdr_run. subst hd. by rewrite <- app_assoc.
Qed.

(** The query for a name, and any server's reply to it, whose answer section
    holds records of other types (a CNAME chain, say) before an A record:
    the resolver extracts that record's address. *)
Theorem dns_reply_resolves id name query q others ttl ip more :
  isU16 id -> encodeDNSName name = Ok q -> Forall (fun l => l <> []) (nameLabels name) ->
  buildDNSQuery id name = Ok query ->
  Forall otherRR others -> len ip = 4 -> len (others ++ mkRR dnsTypeA ttl ip :: more) < 2 ^ 16 ->
  query = (enc16 id ++ enc16 dnsFlagRD ++ enc16 1 ++ make 6) ++ q ++ enc16 dnsTypeA ++ enc16 dnsClassIN /\
  parseDNSAnswerForA (dnsReply id q (others ++ mkRR dnsTypeA ttl ip :: more)) id = Ok ip.
Proof.
  intros Hid Hq Hne Hb Ho Hip Hn. split.
  { rewrite (buildDNSQuery_layout id name q Hq) in Hb. symmetry. by apply Ok_inj. }
  destruct (encodeDNSName_ok name q Hq) as (-> & H63 & HJ).
  assert (Forall labelOk (nameLabels name)) as Hls.
  { rewrite Forall_forall in *. intros l Hl. split; auto. }
  remember (nameLabels name) as ls eqn:Els. remember (concat (labelBytes <$> ls)) as lb eqn:Elb.
  unfold parseDNSAnswerForA, dnsReply. remember (len (others ++ _)) as n eqn:En.
  set (h := enc16 id ++ enc16 33152 ++ enc16 1 ++ enc16 n ++ [x00; x00; x00; x00]).
  set (mid := enc16 dnsTypeA ++ enc16 dnsClassIN).
  set (recs := concat (rrBytes <$> others ++ _)). set (pkt := h ++ _).
  assert (pkt = h ++ concat (labelBytes <$> ls) ++ x00 :: mid ++ recs) as Epkt.
  { unfold pkt. by rewrite <- app_assoc, <- Elb. }
  assert (len h = 12) as Hh by done.
  rewrite (proj2 (Z.ltb_ge _ _)) by (unfold pkt, dnsHeaderLen; rewrite len_app, Hh; pose_lens; lia).
  assert (forall lo hi, hi <= 12 -> getU16 pkt lo hi = getU16 h lo hi) as Hget.
  { intros lo hi Hhi. unfold pkt. apply getU16_app_l. by rewrite Hh. }
  rewrite !Hget by lia. unfold h at 1 2 3 4. cbn [app enc16]. hdr_run.
  rewrite !be16_enc, (u16_small id) by done. rewrite Z.eqb_refl. cbn [negb].
  change (Z.land (u16 33152) dnsFlagResponse =? 0) with false. change (Z.land (u16 33152) dnsRcodeMask =? 0) with true.
  cbv iota. cbn [negb]. rewrite (u16_small n) by (split; [subst n; apply len_nonneg|done]).
  change (Z.to_nat (u16 1)) with 1%nat.
  cbn [skipQuestions].
  assert (parseDNSName pkt dnsHeaderLen = Ok (Join ls [dot], 12 + len lb + 1)) as ->.
  { rewrite Epkt. change dnsHeaderLen with (len h). rewrite parseDNSName_labels by done. by rewrite Hh, Elb. }
  cbn [out_bind snd].
  rewrite (proj2 (Z.ltb_ge _ _)) by (unfold pkt; rewrite !len_app, Hh; change (len mid) with 4; change (len [x00]) with 1; pose_lens; lia).
  cbn [out_bind]. replace (12 + len lb + 1 + 4) with (len (h ++ lb ++ [x00] ++ mid))
    by (rewrite !len_app, Hh; change (len mid) with 4; change (len [x00]) with 1; lia).
  replace (Z.to_nat n) with (length others + S (length more))%nat by (subst n; unfold len; rewrite length_app; cbn; lia).
  apply (walk_records pkt h ls (mid ++ recs) Epkt Hh Hls) with ttl (concat (rrBytes <$> more)); [done|done|].
  unfold pkt, recs. rewrite fmap_app, concat_app. cbn [fmap list_fmap concat]. by rewrite <- !app_assoc.
Qed.

Lemma dns_reply_resolves_witness :
  exists query q, buildDNSQuery 0x1234 (str "ghcr.io") = Ok query /\ encodeDNSName (str "ghcr.io") = Ok q /\
    parseDNSAnswerForA (dnsReply 0x1234 q [mkRR 5 60 q; mkRR dnsTypeA 60 ipB]) 0x1234 = Ok ipB.
Proof.
  destruct (buildDNSQuery 0x1234 (str "ghcr.io")) as [query|e|] eqn:Eb; [|vm_compute in Eb; discriminate Eb..].
  destruct (encodeDNSName (str "ghcr.io")) as [q|e|] eqn:Eq; [|vm_compute in Eq; discriminate Eq..].
  exists query, q. split; [reflexivity|]. split; [reflexivity|].
  apply (dns_reply_resolves 0x1234 (str "ghcr.io") query q [mkRR 5 60 q] 60 ipB []).
  - split; reflexivity || discriminate.
  - exact Eq.
  - change (nameLabels (str "ghcr.io")) with [str "ghcr"; str "io"].
    constructor; [discriminate|]. constructor; [discriminate|constructor].
  - exact Eb.
  - vm_compute in Eq. apply Ok_inj in Eq. subst q. constructor; [|constructor]. split; [split; [discriminate|reflexivity]|]. split; [discriminate|reflexivity].
  - reflexivity.
  - reflexivity.
Defined.

(** A name with an empty label encodes to something else: the message ends at
    the empty label, and what follows is read as the question's type. *)
Theorem dns_empty_label_truncates :
  exists q, encodeDNSName (str "a..b") = Ok q /\ parseDNSName q 0 = Ok (str "a", 3).
Proof. eexists. split; vm_compute; reflexivity. Qed.

(** ** The lookup *)

Lemma buildDNSQuery_safe id name : safe (buildDNSQuery id name).
Proof.
  pose proof (encodeDNSName_safe name) as Hs. destruct (encodeDNSName name) as [q|e|] eqn:Eq; [|by unfold buildDNSQuery; rewrite Eq|done].
  by rewrite (buildDNSQuery_layout id name q Eq).
Qed.

Lemma dnsIDFromMAC_safe mac seed salt : safe (dnsIDFromMAC mac seed salt).
Proof. unfold dnsIDFromMAC. destruct (Z.ltb_spec (len mac) 6); [done|]. go_safe; lia. Qed.

Lemma parseDNSAnswerForA_safe pkt id : safe (parseDNSAnswerForA pkt id).
Proof. pose proof (parseDNSAnswerForA_spec pkt id) as Hs. by destruct (parseDNSAnswerForA pkt id). Qed.

Section resolve_proofs.
Context {L : Type} `{Link L}.
Implicit Types s : Stack L.

Lemma scanUDP_leads n i s :
  stackInv s -> 0 <= i -> i + Z.of_nat n <= 1024 ->
  leads (fun r s' => opened s (snd r) (fst r) s' /\ 49152 <= snd r < 50176) (fun _ s' => s' = s) (scanUDP n i s).
Proof.
  intros Hs. revert i. induction n as [|n IH]; intros i Hi Hn; cbn [scanUDP]; [done|].
  assert (u16 (dnsClientPortLow + i) = dnsClientPortLow + i) as ->.
  { apply u16_small. unfold isU16, dnsClientPortLow. lia. }
  eapply leads_try; [by apply OpenUDP4_opened| |].
  - intros p s1 Hop. cbn. split; [done|]. unfold dnsClientPortLow. lia.
  - intros e s1 [-> _]. destruct (decide _); [apply IH; lia|done].
Qed.

(** As for DHCP: reading gives messages of which [P] holds, reading and writing
    keep [I]. *)
Variables (I : Stack L -> Prop) (P : list byte -> L -> Prop) (p : nat).
Hypothesis HR : forall s, I s ->
  leads (fun r s' => I s' /\ P (fst r) (st_link s')) (fun _ => I) (ReadFrom p 1500 s).
Hypothesis HW : forall payload dst port s, I s ->
  leads (fun _ => I) (fun _ => I) (WriteTo p payload dst port s).

Definition answered (id : Z) (ip : IP) (l : L) : Prop :=
  exists b, P b l /\ parseDNSAnswerForA b id = Ok ip.

Lemma resolveAIter_leads id s :
  I s ->
  leads (fun r s' => match r with None => I s' | Some ip => I s' /\ answered id ip (st_link s') end)
        (fun _ => I) (resolveAIter p id s).
Proof.
  intros Hs. unfold resolveAIter. eapply leads_try; [by apply HR| |by intros [] s1].
  intros [b src] s1 [Hs1 HP]. cbn [fst] in HP. unfold bind, try, lift.
  pose proof (parseDNSAnswerForA_safe b id) as Hsafe.
  destruct (parseDNSAnswerForA b id) as [ip|e|] eqn:E; [|by destruct e|done].
  cbn. split; [done|]. by exists b.
Qed.

Lemma queryA_leads mac port name d4 s :
  I s ->
  leads (fun ip s' => I s' /\ exists id, dnsIDFromMAC mac dnsQueryRoot port = Ok id /\ answered id ip (st_link s'))
        (fun _ => I) (queryA p mac port name d4 s).
Proof.
  intros Hs. unfold queryA. unfold bind at 1, lift. pose proof (dnsIDFromMAC_safe mac dnsQueryRoot port) as Hsi.
  destruct (dnsIDFromMAC mac dnsQueryRoot port) as [id|e|]; [|done|done].
  unfold bind at 1. pose proof (buildDNSQuery_safe id name) as Hsq.
  destruct (buildDNSQuery id name) as [q|e|]; [|done|done].
  eapply leads_bind; [by apply HW|]. intros u s1 Hs1.
  eapply leads_weaken; [apply (leads_pump I (fun ip s' => I s' /\ answered id ip (st_link s')) (fun _ => I)); [|done|done]| |done].
  - intros s2 Hs2. by apply resolveAIter_leads.
  - intros ip s2 [Hs2 Ha]. split; [done|]. by exists id.
Qed.
End resolve_proofs.

(** A lookup leaves the port tables as they were. *)
Lemma ResolveA_restored `{Link L} (s : Stack L) name server :
  stackInv s -> leads (fun _ s' => restored s s') (fun _ => restored s) (ResolveA name server s).
Proof.
  intros Hs. unfold ResolveA. destruct (To4 server) as [d4|]; [|done].
  unfold bind at 1, gets, id. destruct (st_closed s); [done|]. cbv zeta.
  eapply leads_bind.
  { eapply leads_weaken; [apply scanUDP_leads; [done|lia|lia]|intros r s1 Hr; exact Hr|by intros e s1 ->]. }
  intros [p port] s1 [Hop _]. cbn [fst snd]. assert (p ∈ (shape s1).1.1.1.2) as Hp by apply Hop.
  eapply leads_weaken; [apply (withUDP_leads s port p s1 _ (fun _ _ => True) Hop)|by intros ip s' []|done].
  eapply leads_weaken; [apply (queryA_leads (shaped (shape s1)) (fun _ _ => True) p)| |done].
  - intros s2 Hs2. eapply leads_weaken; [apply (keep_leads (shaped (shape s1)))|done|done]; [by apply ReadFrom_shaped|done].
  - intros payload dst dport s2 Hs2. apply (keep_leads (shaped (shape s1))); [by apply WriteTo_shaped|done].
  - split; [apply Hop|done].
  - by intros ip s2 [? _].
Qed.

(** C21. A lookup over any link, wrapped in a recorder: an address is returned only
    when a message received during the call on the query's own port, one that
    was free before, answers the query's transaction id; messages that do not
    are ignored or end the call with an error.  On every exit the port is
    released and the tables of open ports are as before. *)
Theorem dns_answer_from_wire `{Link L} (s : Stack (Logged L)) name server :
  stackInv s ->
  leads (fun ip s' => (stackInv s' /\ st_udp4Conns s' = st_udp4Conns s /\ st_tcp4Conns s' = st_tcp4Conns s) /\
           exists port id b, 49152 <= port < 50176 /\ st_udp4Conns s !! port = None /\
             dnsIDFromMAC (MAC (st_link s)) dnsQueryRoot port = Ok id /\
             heardMsg (lg_seen (st_link s)) port 1500 b (st_link s') /\ parseDNSAnswerForA b id = Ok ip)
        (fun _ s' => stackInv s' /\ st_udp4Conns s' = st_udp4Conns s /\ st_tcp4Conns s' = st_tcp4Conns s)
        (ResolveA name server s).
Proof.
  intros Hs. unfold ResolveA. destruct (To4 server) as [d4|]; [|done].
  unfold bind at 1, gets, id. destruct (st_closed s); [done|]. cbv zeta.
  eapply leads_bind.
  { eapply leads_weaken; [apply scanUDP_leads; [done|lia|lia]|intros r s1 Hr; exact Hr|by intros e s1 ->]. }
  intros [p port] s1 [Hop Hport]. cbn [fst snd] in *. set (B := lg_seen (st_link s)).
  assert (p ∈ (shape s1).1.1.1.2) as Hp by apply Hop. eapply leads_weaken.
  - apply (withUDP_leads s port p s1 _ (fun ip l => exists id, dnsIDFromMAC (MAC (st_link s)) dnsQueryRoot port = Ok id /\
      answered (heardMsg B port 1500) id ip l) Hop).
    eapply leads_weaken; [apply (queryA_leads (listening (shape s1) B p port) (heardMsg B port 1500))| |].
    + intros s2 Hs2. by apply ReadFrom_heard.
    + intros payload dst dport s2 Hs2. by apply WriteTo_heard.
    + by apply opened_listening.
    + by intros ip s2 [[? ?] ?].
    + by intros e s2 [? ?].
  - intros ip s' (Hr & id' & Hid & b & HP & Hb). split; [exact Hr|].
    exists port, id', b. split; [done|]. split; [apply Hop|]. done.
  - done.
Qed.

(** A server at 10.0.2.2 that answers ARP and then the query for ghcr.io. *)
Definition dnsServerMAC : list byte := [x52; x55; x0a; x00; x02; x02].
Definition dnsID0 : Z := match dnsIDFromMAC sampleMAC dnsQueryRoot 49152 with Ok i => i | _ => 0 end.
Definition dnsReplyFrame : list byte :=
  match encodeDNSName (str "ghcr.io") with
  | Ok q =>
      match MarshalUDP4 ipB ipA 53 49152 (dnsReply dnsID0 q [mkRR dnsTypeA 60 [x8c; x52; x79; x21]]) with
      | Ok d => match MarshalIPv4 ipB ipA IPProtoUDP 1 d with
                | Ok pkt => eth_layout sampleMAC dnsServerMAC EtherTypeIPv4 pkt
                | _ => []
                end
      | _ => []
      end
  | _ => []
  end.
Definition dnsLink : Logged ScriptLink :=
  mkLogged (mkScriptLink sampleMAC
    [eth_layout sampleMAC dnsServerMAC EtherTypeARP (arpMsg ARPOpReply dnsServerMAC ipB sampleMAC ipA); dnsReplyFrame] []) [].
Definition dnsStack : Stack (Logged ScriptLink) := snd (SetIPv4Address ipA mask24 (New dnsLink)).

Lemma dns_answer_from_wire_witness :
  exists s', ResolveA (str "ghcr.io") ipB dnsStack = (Ok [x8c; x52; x79; x21], s') /\ st_udp4Conns s' = ∅.
Proof.
  assert (stackInv dnsStack) as Hs by (apply (SetIPv4Address_keep ipA mask24 (New dnsLink)), New_inv).
  pose proof (dns_answer_from_wire dnsStack (str "ghcr.io") ipB Hs) as Hd.
  assert (fst (ResolveA (str "ghcr.io") ipB dnsStack) = Ok [x8c; x52; x79; x21]) as He by (vm_compute; reflexivity).
  destruct (ResolveA (str "ghcr.io") ipB dnsStack) as [[ip|e|] s']; [|discriminate He|discriminate He].
  exists s'. cbn [fst] in He. destruct Hd as ((_ & Hm & _) & _). split; [by rewrite He|exact Hm].
Defined.
