(* ===== verification/DialRetry.v ===== *)
(** * Dial with retries (uefiboard/ministack/dial_retry.go)

    The retry loop over one dial attempt, its error classification and its
    exponential backoff, and the TCP dial built on it. *)

From S2P Require Import Prelude NetIP Effects Ethernet IPv4 Tcp Arp TcpConn Stack StackTcp GoStr.

Definition DefaultDialAttemptsFallback : Z := 3.
Definition DefaultDialBaseDelayFallback : Z := 2000000000.

(** ** Error classification *)

(** [errors.Is] along the Unwrap chain of ErrDialAttemptsExhausted. *)
Fixpoint errorsIs (err target : error) : bool :=
  bool_decide (err = target) ||
  match err with ErrDialAttemptsExhausted _ last => errorsIs last target | _ => false end.

(** [ErrCertificate] stands for the certificate-validation errors of crypto/tls
    and crypto/x509, which the code recognises by type or by message. *)
Definition isRetryableDialError (err : error) : bool :=
  if errorsIs err ErrTLSNoServerName then false
  else if errorsIs err ErrTCP4InvalidAddr then false
  else if errorsIs err ErrDNSInvalidServer then false
  else if errorsIs err ErrStackClosed then false
  else if errorsIs err ErrIPv4InvalidIP then false
  else if errorsIs err ErrTCP4NoLocalAddr then false
  else if errorsIs err ErrTCP4ConnRefused then false
  else if errorsIs err ErrCertificate then false
  else true.

(** The digits of the error message, right to left in a 20-byte buffer. *)
Fixpoint itoaLoop (fuel : nat) (n : Z) (buf : list byte) : list byte :=
  match fuel with
  | O => buf
  | S f => if 0 <? n then itoaLoop f (n / 10) (z2b (48 + n mod 10) :: buf) else buf
  end.
Definition dialRetryItoa (n : Z) : list byte :=
  if n =? 0 then str "0"
  else
    let neg := n <? 0 in
    let n := if neg then s64 (- n) else n in
    let buf := itoaLoop 20 n [] in
    if neg then x2d :: buf else buf.

(** ** The loop *)

Section defaults.
(** The stack's DefaultDialAttempts and DefaultDialBaseDelay fields. *)
Variables (defaultAttempts defaultBaseDelay : Z).

Definition dialAttemptsOrDefault (n : Z) : Z :=
  if n <=? 0 then if 0 <? defaultAttempts then defaultAttempts else DefaultDialAttemptsFallback else n.
Definition dialBaseDelayOrDefault (d : Z) : Z :=
  if d <=? 0 then if 0 <? defaultBaseDelay then defaultBaseDelay else DefaultDialBaseDelayFallback else d.
End defaults.

Section retry.
Context {S A : Type}.

(** The state of an attempt, and the delays slept so far. *)
Abbreviation RetryM B := (M (S * list Z) B).

Definition dialRetrySleep (d : Z) : RetryM unit :=
  if d <=? 0 then ret tt else modify (fun s => (fst s, snd s ++ [d])).

Definition attempt (once : M S A) : RetryM A := zoom fst (fun t s => (t, snd s)) once.

(** The iterations [i] with [n] attempts left. *)
Fixpoint retryFrom (n : nat) (attempts delay : Z) (once : M S A) : RetryM A :=
  match n with
  | O => throw (ErrOther 0)
  | Datatypes.S n' =>
      r <- try (attempt once) ;;
      match r with
      | inl conn => ret conn
      | inr err =>
          throw_if negb (isRetryableDialError err) with err;;
          match n' with
          | O => throw (if attempts =? 1 then err else ErrDialAttemptsExhausted attempts err)
          | _ => dialRetrySleep delay ;;; retryFrom n' attempts (s64 (delay * 2)) once
          end
      end
  end.

(** DialTCP4WithRetry and DialTLSWithRetry, over their single attempt. *)
Definition dialWithRetry (once : M S A) (defaultAttempts defaultBaseDelay attempts baseDelay : Z) : RetryM A :=
  let attempts := dialAttemptsOrDefault defaultAttempts attempts in
  let baseDelay := dialBaseDelayOrDefault defaultBaseDelay baseDelay in
  retryFrom (Z.to_nat attempts) attempts baseDelay once.
End retry.

Definition DialTCP4WithRetry `{Link L} (dst : IP) (port defaultAttempts defaultBaseDelay attempts baseDelay : Z)
  : M (Stack L * list Z) nat :=
  dialWithRetry (dialTCP4Once dst port) defaultAttempts defaultBaseDelay attempts baseDelay.

(** Over its single attempt, which Tls.v models. *)
Definition DialTLSWithRetry {S A} (dialTLSOnce : M S A) (defaultAttempts defaultBaseDelay attempts baseDelay : Z)
  : M (S * list Z) A :=
  dialWithRetry dialTLSOnce defaultAttempts defaultBaseDelay attempts baseDelay.

Definition DialTCP4 `{Link L} (dst : IP) (port defaultAttempts defaultBaseDelay : Z) : M (Stack L * list Z) nat :=
  DialTCP4WithRetry dst port defaultAttempts defaultBaseDelay defaultAttempts defaultBaseDelay.

(** ** Specification *)

(** [k] attempts in a row from [s] fail with transient errors and leave [s']. *)
Inductive fails {S A} (once : M S A) : nat -> S -> S -> Prop :=
| fails_0 s : fails once 0 s s
| fails_S k s e s1 s2 :
    once s = (Err e, s1) -> isRetryableDialError e = true -> fails once k s1 s2 ->
    fails once (Datatypes.S k) s s2.

(** Base delay, then twice as long each time. *)
Fixpoint backoff (k : nat) (base : Z) : list Z :=
  match k with O => [] | Datatypes.S k' => base :: backoff k' (base * 2) end.

(** What [attempts] attempts may end with, after [k] transient failures that
    led to [s']: the outcome of the attempt in [s']. *)
Definition retryEnds {S A} (once : M S A) (attempts base : Z) (naps : list Z) (k : nat) (s' : S)
  (r : out A * (S * list Z)) : Prop :=
  let naps' := naps ++ backoff k base in
  match once s' with
  | (Ok a, s'') => r = (Ok a, (s'', naps'))
  | (Panic, s'') => r = (Panic, (s'', naps'))
  | (Err e, s'') =>
      if isRetryableDialError e
      then Z.of_nat k = attempts - 1 /\
           r = (Err (if attempts =? 1 then e else ErrDialAttemptsExhausted attempts e), (s'', naps'))
      else r = (Err e, (s'', naps'))
  end.


Lemma retryFrom_spec {S A} (once : M S A) n attempts base naps s :
  (0 < n)%nat -> 0 < base -> base * 2 ^ Z.of_nat n <= 2 ^ 63 ->
  exists k s', (k < n)%nat /\ fails once k s s' /\
    let r := retryFrom n attempts base once (s, naps) in
    let naps' := naps ++ backoff k base in
    match once s' with
    | (Ok a, s'') => r = (Ok a, (s'', naps'))
    | (Panic, s'') => r = (Panic, (s'', naps'))
    | (Err e, s'') =>
        if isRetryableDialError e
        then k = (n - 1)%nat /\
             r = (Err (if attempts =? 1 then e else ErrDialAttemptsExhausted attempts e), (s'', naps'))
        else r = (Err e, (s'', naps'))
    end.
Proof.
  revert base naps s. induction n as [|n IH]; intros base naps s Hn Hb Hmax; [lia|].
  destruct (once s) as [[a|e|] s1] eqn:E.
  - exists 0%nat, s. split; [lia|]. split; [constructor|]. rewrite E. cbn [backoff]. rewrite app_nil_r.
    cbn [retryFrom]. unfold bind, try, attempt, zoom. cbn [fst snd]. by rewrite E.
  - destruct (isRetryableDialError e) eqn:Er; [destruct n as [|n]|].
    + exists 0%nat, s. split; [lia|]. split; [constructor|]. rewrite E, Er. split; [done|]. cbn [backoff].
      rewrite app_nil_r. cbn [retryFrom]. unfold bind, try, attempt, zoom. cbn [fst snd]. by rewrite E, Er.
    + rewrite Nat2Z.inj_succ, Z.pow_succ_r in Hmax by lia.
      assert (1 <= 2 ^ Z.of_nat (Datatypes.S n)) as Hpow by (pose proof (Z.pow_pos_nonneg 2 (Z.of_nat (Datatypes.S n))); lia).
      assert (2 <= 2 ^ Z.of_nat (Datatypes.S n)) as Hpow2.
      { rewrite Nat2Z.inj_succ, Z.pow_succ_r by lia. pose proof (Z.pow_pos_nonneg 2 (Z.of_nat n)). lia. }
      destruct (IH (base * 2) (naps ++ [base]) s1) as (k & s' & Hk & Hf & Hr); [lia|lia|nia|].
      exists (Datatypes.S k), s'. split; [lia|]. split; [by econstructor|].
      assert (retryFrom (Datatypes.S (Datatypes.S n)) attempts base once (s, naps)
        = retryFrom (Datatypes.S n) attempts (base * 2) once (s1, naps ++ [base])) as ->.
      { cbn [retryFrom]. unfold bind at 1, try at 1, attempt at 1, zoom at 1. cbn [fst snd].
        rewrite E, Er. cbn [negb]. unfold bind at 1, dialRetrySleep. rewrite (proj2 (Z.leb_gt base 0)) by lia.
        unfold modify. cbn [fst snd]. by rewrite s64_small by nia. }
      cbn [backoff]. replace (naps ++ base :: backoff k (base * 2)) with ((naps ++ [base]) ++ backoff k (base * 2))
        by (rewrite <- app_assoc; done). cbv zeta in *.
      destruct (once s') as [[a|e'|] s'']; [exact Hr| |exact Hr].
      destruct (isRetryableDialError e'); [|exact Hr]. destruct Hr as [-> Hr]. split; [lia|exact Hr].
    + exists 0%nat, s. split; [lia|]. split; [constructor|]. rewrite E, Er. cbn [backoff]. rewrite app_nil_r.
      cbn [retryFrom]. unfold bind, try, attempt, zoom. cbn [fst snd]. by rewrite E, Er.
  - exists 0%nat, s. split; [lia|]. split; [constructor|]. rewrite E. cbn [backoff]. rewrite app_nil_r.
    cbn [retryFrom]. unfold bind, try, attempt, zoom. cbn [fst snd]. by rewrite E.
Qed.

(** C40. The retry loop, whatever the attempts do: after [k] transient failures, fewer
    than the number of attempts, it stops at the first attempt that succeeds,
    panics or fails deterministically, with that outcome unwrapped, or at the
    last attempt, whose error it wraps unless there was only one attempt.  It
    has slept exactly the base delay, twice it, and so on, once per failed
    attempt before the last. *)
Theorem dial_retry_spec {S A} (once : M S A) attempts base naps s :
  0 < attempts -> 0 < base -> base * 2 ^ attempts <= 2 ^ 63 ->
  exists k s', Z.of_nat k < attempts /\ fails once k s s' /\
    retryEnds once attempts base naps k s' (dialWithRetry once 0 0 attempts base (s, naps)).
Proof.
  intros Ha Hb Hmax. unfold dialWithRetry, dialAttemptsOrDefault, dialBaseDelayOrDefault.
  rewrite !(proj2 (Z.leb_gt _ 0)) by lia.
  destruct (retryFrom_spec once (Z.to_nat attempts) attempts base naps s) as (k & s' & Hk & Hf & Hr);
    [lia|lia|by rewrite Z2Nat.id by lia|].
  exists k, s'. split; [lia|]. split; [done|]. unfold retryEnds. cbv zeta in *.
  destruct (once s') as [[a|e|] s'']; [exact Hr| |exact Hr].
  destruct (isRetryableDialError e); [|exact Hr]. destruct Hr as [-> Hr]. split; [lia|exact Hr].
Qed.

(** A dial that times out twice and then succeeds. *)
Definition flaky : M nat nat := fun n =>
  match n with O => (Ok 7%nat, O) | Datatypes.S n' => (Err ErrTCP4Timeout, n') end.

Lemma dial_retry_spec_witness :
  dialWithRetry flaky 0 0 3 DefaultDialBaseDelayFallback (2%nat, []) = (Ok 7%nat, (0%nat, [2000000000; 4000000000])).
Proof.
  destruct (dial_retry_spec flaky 3 DefaultDialBaseDelayFallback [] 2%nat) as (k & s' & Hk & Hf & Hr).
  - reflexivity.
  - reflexivity.
  - vm_compute; discriminate.
  - assert (k = (2 - s')%nat /\ (s' <= 2)%nat) as [-> Hs'].
    { assert (forall k n s, fails flaky k n s -> n = (k + s)%nat) as Hgen.
      { intros k0 n s Hf0. induction Hf0 as [|k0 n e s1 s2 He _ _ IH]; [lia|].
        destruct n as [|n]; [discriminate He|]. injection He as _ <-. lia. }
      apply Hgen in Hf. lia. }
    destruct s' as [|[|[|s']]]; [exact Hr| | |lia].
    + destruct Hr as [Hr _]. discriminate Hr.
    + destruct Hr as [Hr _]. discriminate Hr.
Defined.

(** ** The TCP dial *)

Lemma fails_dial `{Link L} dst port k (s s' : Stack L) :
  stackInv s -> fails (dialTCP4Once dst port) k s s' -> stackInv s' /\ st_tcp4Conns s' = st_tcp4Conns s.
Proof.
  intros Hs Hf. induction Hf as [|k s e s1 s2 E _ _ IH]; [done|].
  pose proof (dialTCP4Once_leads s dst port Hs) as Hl. rewrite E in Hl. destruct Hl as [Hs1 Hm].
  destruct (IH Hs1) as [? ?]. split; [done|congruence].
Qed.

Lemma DialTCP4WithRetry_leads `{Link L} (s : Stack L) naps dst port da db attempts base :
  stackInv s ->
  let a := dialAttemptsOrDefault da attempts in let b := dialBaseDelayOrDefault db base in
  b * 2 ^ a <= 2 ^ 63 ->
  leads (fun p s' => dialed s p (fst s')) (fun e s' => dialFailed s e (fst s'))
    (DialTCP4WithRetry dst port da db attempts base (s, naps)).
Proof.
  intros Hs a b Hmax. unfold DialTCP4WithRetry, dialWithRetry. fold a b.
  assert (0 < a) as Ha by (unfold a, dialAttemptsOrDefault, DefaultDialAttemptsFallback; blia; lia).
  assert (0 < b) as Hb by (unfold b, dialBaseDelayOrDefault, DefaultDialBaseDelayFallback; blia; lia).
  destruct (retryFrom_spec (dialTCP4Once dst port) (Z.to_nat a) a b naps s) as (k & s' & _ & Hf & Hr);
    [lia|lia|by rewrite Z2Nat.id by lia|].
  destruct (fails_dial dst port k s s' Hs Hf) as [Hs' Hm].
  pose proof (dialTCP4Once_leads s' dst port Hs') as Hl. cbv zeta in Hr. revert Hr Hl.
  generalize (retryFrom (Z.to_nat a) a b (dialTCP4Once dst port) (s, naps)). intros r Hr Hl.
  destruct (dialTCP4Once dst port s') as [[p|e|] s'']; [| |done].
  - rewrite Hr. cbn in *. destruct Hl as (? & c & ? & ? & ? & ? & ?). split; [done|]. exists c. by rewrite <- Hm.
  - assert (exists e', r = (Err e', (s'', naps ++ backoff k b))) as [e' ->].
    { destruct (isRetryableDialError e); [destruct Hr as [_ ->]|rewrite Hr]; by eexists. }
    cbn in *. destruct Hl as [? ?]. split; [done|congruence].
Qed.

Lemma dialWithRetry_frames {S A B} (f : S -> B) (once : M S A) da db attempts base :
  frames f once -> frames (fun s => f (fst s)) (dialWithRetry once da db attempts base).
Proof.
  intros Ho. unfold dialWithRetry. generalize (dialAttemptsOrDefault da attempts) at 2. intros a.
  generalize (dialBaseDelayOrDefault db base). generalize (Z.to_nat (dialAttemptsOrDefault da attempts)).
  assert (frames (fun s => f (fst s)) (attempt once)) as Ha.
  { intros [s naps]. unfold attempt, zoom. cbn. specialize (Ho s). by destruct (once s). }
  induction n as [|n IH]; intros d; cbn [retryFrom]; unfold dialRetrySleep; go_frame.
Qed.

(** C19. However many attempts it takes, a dial is atomic: it returns one
    established connection, registered under a local port that was free, or an
    error, and then no attempt has left a port behind. *)
Theorem dial_retry_atomic `{Link L} (s : Stack L) naps dst port attempts base :
  stackInv s -> 0 < attempts -> 0 < base -> base * 2 ^ attempts <= 2 ^ 63 ->
  leads (fun p s' => dialed s p (fst s')) (fun e s' => dialFailed s e (fst s'))
    (DialTCP4WithRetry dst port 0 0 attempts base (s, naps)).
Proof.
  intros Hs Ha Hb Hmax. apply DialTCP4WithRetry_leads; [done|].
  unfold dialAttemptsOrDefault, dialBaseDelayOrDefault. by rewrite !(proj2 (Z.leb_gt _ 0)) by lia.
Qed.

(** A peer that answers ARP and then the SYN of the first port. *)
Definition peerMAC : list byte := [x52; x55; x0a; x00; x02; x02].
Definition dialISS : Z := match tcp4InitialSeq sampleMAC 49152 with Ok i => i | _ => 0 end.
Definition peerFrame (sq ak flags : Z) (payload : list byte) : list byte :=
  match MarshalTCP4 ipB ipA 80 49152 sq ak flags 1000 payload with
  | Ok seg => match MarshalIPv4 ipB ipA IPProtoTCP 1 seg with
              | Ok pkt => eth_layout sampleMAC peerMAC EtherTypeIPv4 pkt
              | _ => []
              end
  | _ => []
  end.
Definition arpReplyFrame : list byte :=
  eth_layout sampleMAC peerMAC EtherTypeARP (arpMsg ARPOpReply peerMAC ipB sampleMAC ipA).
Definition dialStack : Stack ScriptLink :=
  snd (SetIPv4Address ipA mask24 (New (mkScriptLink sampleMAC
    [arpReplyFrame; peerFrame 5000 (u32 (dialISS + 1)) (Z.lor TCPFlagSYN TCPFlagACK) []] []))).

Lemma dial_retry_atomic_witness :
  exists p s' naps, DialTCP4WithRetry ipB 80 0 0 3 DefaultDialBaseDelayFallback (dialStack, []) = (Ok p, (s', naps)) /\
    exists c, st_tcp s' !! p = Some c /\ state c = tcpEstablished /\ st_tcp4Conns s' = <[localPort c := p]> ∅.
Proof.
  assert (stackInv dialStack) as Hs by (apply (SetIPv4Address_keep ipA mask24 _), New_inv).
  pose proof (dial_retry_atomic dialStack [] ipB 80 3 DefaultDialBaseDelayFallback Hs eq_refl eq_refl
    ltac:(vm_compute; discriminate)) as Hd.
  assert (is_ok (fst (DialTCP4WithRetry ipB 80 0 0 3 DefaultDialBaseDelayFallback (dialStack, []))) = true) as He
    by (vm_compute; reflexivity).
  destruct (DialTCP4WithRetry ipB 80 0 0 3 DefaultDialBaseDelayFallback (dialStack, [])) as [[p|e|] [s' naps]];
    [|discriminate He|discriminate He].
  exists p, s', naps. split; [reflexivity|]. destruct Hd as (_ & c & H1 & H2 & _ & _ & H3). by exists c.
Defined.

(** ** The digits of the error message *)

Lemma itoaLoop_format fuel n acc :
  0 < n < 10 ^ Z.of_nat fuel -> itoaLoop fuel n acc = formatDigits fuel 10 n acc.
Proof.
  revert n acc. induction fuel as [|f IH]; intros n acc Hn; [done|].
  cbn [itoaLoop formatDigits]. rewrite (proj2 (Z.ltb_lt 0 n)) by lia.
  pose proof (Z.mod_pos_bound n 10 ltac:(lia)). unfold digitChar. rewrite (proj2 (Z.ltb_lt (n mod 10) 10)) by lia.
  destruct (Z.eqb_spec (n / 10) 0) as [->|Hnz]; [by destruct f|]. apply IH.
  rewrite Nat2Z.inj_succ, Z.pow_succ_r in Hn by lia.
  split; [|apply Z.div_lt_upper_bound; lia]. pose proof (Z.div_pos n 10). lia.
Qed.

Lemma formatDigits_fuel n m v acc :
  0 <= v -> v < 10 ^ Z.of_nat n -> v < 10 ^ Z.of_nat m -> (0 < n)%nat -> (0 < m)%nat ->
  formatDigits n 10 v acc = formatDigits m 10 v acc.
Proof.
  revert m v acc. induction n as [|n IH]; intros m v acc Hv Hn Hm H0 H1; [lia|]. destruct m as [|m]; [lia|].
  cbn [formatDigits]. destruct (Z.eqb_spec (v / 10) 0) as [|Hnz]; [done|].
  rewrite Nat2Z.inj_succ, Z.pow_succ_r in Hn, Hm by lia. pose proof (Z.div_pos v 10).
  assert (v / 10 < 10 ^ Z.of_nat n) by (apply Z.div_lt_upper_bound; lia).
  assert (v / 10 < 10 ^ Z.of_nat m) by (apply Z.div_lt_upper_bound; lia).
  apply IH; try lia; [destruct n|destruct m]; cbn in *; lia.
Qed.

(** The hand-written formatter prints what strconv.Itoa prints, except for the
    least int, whose negation overflows and of which it prints only the sign. *)
Theorem dialRetryItoa_spec n :
  - 2 ^ 63 <= n < 2 ^ 63 ->
  dialRetryItoa n = if n =? - 2 ^ 63 then str "-" else Itoa n.
Proof.
  intros Hn. destruct (Z.eqb_spec n (- 2 ^ 63)) as [->|Hmin]; [by vm_compute|].
  unfold dialRetryItoa, Itoa. destruct (Z.eqb_spec n 0) as [->|Hz]; [by vm_compute|].
  assert (2 ^ 63 < 10 ^ Z.of_nat 20) as H20 by (vm_compute; reflexivity).
  assert (10 ^ Z.of_nat 20 < 10 ^ Z.of_nat 64) as H64 by (vm_compute; reflexivity).
  destruct (Z.ltb_spec n 0).
  - rewrite s64_small by lia. rewrite itoaLoop_format by lia. unfold FormatUint. by rewrite (formatDigits_fuel 20 64) by lia.
  - rewrite itoaLoop_format by lia. unfold FormatUint. apply formatDigits_fuel; lia.
Qed.

Lemma dialRetryItoa_spec_witness : dialRetryItoa 1234 = str "1234" /\ dialRetryItoa (- 2 ^ 63) = str "-".
Proof.
  split; rewrite dialRetryItoa_spec; [reflexivity|split; [vm_compute; discriminate|reflexivity]|reflexivity|].
  split; [vm_compute; discriminate|reflexivity].
Defined.
