(* ===== verification/Resets.v ===== *)
(** * Why a connection is closed under its user

    Over a link that remembers the frames it delivered (Provenance.v): while the
    stack waits, reads and writes, a TCP connection becomes closed only when a
    frame with a reset for its port was heard.  The clients built on TCP (HTTP,
    TLS) use it to say in which case a port of theirs stays taken. *)

From S2P Require Import Prelude NetIP Effects Ethernet IPv4 Icmp Udp Tcp Arp TcpConn Stack StackTcp Provenance GoStr Dns DialRetry.

(** The frame carries, through Ethernet, IPv4 and TCP with their checks, a reset
    for [port]. *)
Definition rstFrame (port : Z) (frame : list byte) : Prop :=
  exists eth h body th payload,
    ParseEthernet frame = Ok eth /\ eth_EtherType eth = EtherTypeIPv4 /\
    ParseIPv4 (eth_Payload eth) = Ok (h, body) /\ ip_Protocol h = IPProtoTCP /\
    ParseTCP4 (ip_Src h) (ip_Dst h) (take (Z.to_nat (ip_TotalLen h - 20)) body) = Ok (th, payload) /\
    tcp_DstPort th = port /\ negb (Z.land (tcp_Flags th) 4 =? 0) = true.

(** Such a frame was heard between the two states. *)
Definition resetHeard {L} (port : Z) (s s' : Stack (Logged L)) : Prop :=
  exists new f, lg_seen (st_link s') = new ++ lg_seen (st_link s) /\ f ∈ new /\ rstFrame port f.

(** The log grows. *)
Definition grows {L} (s s' : Stack (Logged L)) : Prop := heardMore (st_link s) (st_link s').
#[global] Instance grows_preorder {L} : PreOrder (@grows L).
Proof. split; [intros s; unfold grows; reflexivity|]. intros a b c. unfold grows. apply transitivity. Qed.

Lemma resetHeard_grows {L} port (a b c d : Stack (Logged L)) : grows a b -> resetHeard port b c -> grows c d -> resetHeard port a d.
Proof.
  intros [n1 E1] (new & f & E & Hin & Hf) [n2 E2]. exists (n2 ++ new ++ n1), f. split; [by rewrite E2, E, E1, <- !app_assoc|]. split; [|done].
  apply elem_of_app. right. apply elem_of_app. by left.
Qed.

(** The log grows and TCP stays as it is. *)
Definition tcpSame {L} (s s' : Stack (Logged L)) : Prop :=
  grows s s' /\ st_tcp s' = st_tcp s /\ st_tcp4Conns s' = st_tcp4Conns s.
#[global] Instance tcpSame_preorder {L} : PreOrder (@tcpSame L).
Proof.
  split; [intros s; split; [reflexivity|done]|]. intros a b c (H1 & E1 & F1) (H2 & E2 & F2). split; [by etransitivity|]. split; congruence.
Qed.

(** A connection that is closed now was closed before, in the state it is in. *)
Definition wasClosed {L} (s : Stack L) (p : nat) (c' : TCP4Conn) : Prop :=
  exists c, st_tcp s !! p = Some c /\ closed c = true /\ state c' = state c.
(** A connection closes by a reset heard for the port it is bound to. *)
Definition resets {L} (s s' : Stack (Logged L)) : Prop :=
  grows s s' /\ st_tcp4Conns s' = st_tcp4Conns s /\
  forall p c', st_tcp s' !! p = Some c' -> closed c' = true ->
    wasClosed s p c' \/ state c' = tcpClosed /\ exists port, st_tcp4Conns s !! port = Some p /\ resetHeard port s s'.
(** The same without the reason, where the ports change. *)
Definition closings {L} (s s' : Stack (Logged L)) : Prop :=
  grows s s' /\ forall p c', st_tcp s' !! p = Some c' -> closed c' = true -> wasClosed s p c' \/ state c' = tcpClosed.

#[global] Instance resets_preorder {L} : PreOrder (@resets L).
Proof.
  split; [intros s; split; [reflexivity|]; split; [done|]; intros p c Hc Hcl; left; by exists c|].
  intros a b c (G1 & M1 & R1) (G2 & M2 & R2). split; [by etransitivity|]. split; [congruence|]. intros p c2 Hc2 Hcl.
  destruct (R2 p c2 Hc2 Hcl) as [(c1 & Hc1 & Hcl1 & Est)|(Hst & port & Hp & Hr)].
  - destruct (R1 p c1 Hc1 Hcl1) as [(c0 & Hc0 & Hcl0 & Est0)|(Hst & port & Hp & Hr)]; [left; exists c0; split_and!; congruence|right].
    split; [congruence|]. exists port. split; [done|]. by eapply (resetHeard_grows port a a b c); [reflexivity| |].
  - right. split; [done|]. exists port. split; [congruence|]. by eapply (resetHeard_grows port a b c c); [| |reflexivity].
Qed.
#[global] Instance closings_preorder {L} : PreOrder (@closings L).
Proof.
  split; [intros s; split; [reflexivity|]; intros p c Hc Hcl; left; by exists c|].
  intros a b c (G1 & R1) (G2 & R2). split; [by etransitivity|]. intros p c2 Hc2 Hcl.
  destruct (R2 p c2 Hc2 Hcl) as [(c1 & Hc1 & Hcl1 & Est)|Hst]; [|by right].
  destruct (R1 p c1 Hc1 Hcl1) as [(c0 & Hc0 & Hcl0 & Est0)|Hst]; [left; exists c0; split_and!; congruence|right; congruence].
Qed.

Lemma tcpSame_resets {L} (s s' : Stack (Logged L)) : tcpSame s s' -> resets s s'.
Proof. intros (G & E & F). split; [done|]. split; [done|]. intros p c Hc Hcl. left. exists c. by rewrite <- E. Qed.
Lemma resets_closings {L} (s s' : Stack (Logged L)) : resets s s' -> closings s s'.
Proof. intros (G & _ & R). split; [done|]. intros p c Hc Hcl. destruct (R p c Hc Hcl) as [?|[? _]]; auto. Qed.
Lemma moves_weaken {S A} (R R' : S -> S -> Prop) (m : M S A) : (forall s s', R s s' -> R' s s') -> moves R m -> moves R' m.
Proof. intros Hw Hm s. apply Hw, Hm. Qed.

Section resets.
Context {L : Type} `{Link L}.
Implicit Types s : Stack (Logged L).
Notation same m := (moves (@tcpSame L) m).
Notation res m := (moves (@resets L) m).

(** ** What leaves TCP alone *)

Lemma same_of {A} (m : M (Stack (Logged L)) A) : moves (@grows L) m -> frames (fun s => (st_tcp s, st_tcp4Conns s)) m -> same m.
Proof. intros Hg Hf s. specialize (Hf s). cbv beta in Hf. injection Hf as E F. split; [apply Hg|by split]. Qed.
Lemma udpSame_grows {A} (m : M (Stack (Logged L)) A) : moves udpSame m -> moves (@grows L) m.
Proof. intros Hm s. apply (Hm s). Qed.
Lemma connState_tcp {A} (m : M (Stack (Logged L)) A) : frames connState m -> frames (fun s => (st_tcp s, st_tcp4Conns s)) m.
Proof. intros Hm s. specialize (Hm s). unfold connState in Hm. cbv beta. injection Hm as _ _ E _ _ F _ _. by rewrite E, F. Qed.

Lemma sendIPv4Frame_tcp dst pkt : same (sendIPv4Frame dst pkt).
Proof. apply same_of; [apply udpSame_grows, sendIPv4Frame_same|apply connState_tcp, sendIPv4Frame_frame]. Qed.
Lemma sendSegmentSt_tcp c flags sq ak payload : same (sendSegmentSt c flags sq ak payload).
Proof. apply same_of; [apply udpSame_grows, sendSegmentSt_same|apply connState_tcp, sendSegmentSt_frame]. Qed.
Lemma handleARP_tcp payload : same (handleARP payload).
Proof. apply same_of; [apply udpSame_grows, handleARP_same|apply connState_tcp]. unfold handleARP. go_frame. Qed.
Lemma handleICMP_tcp h body : same (handleICMP h body).
Proof.
  apply same_of; [apply udpSame_grows, handleICMP_same|]. unfold handleICMP. apply frames_bind; [go_frame|]. intros msg.
  destruct (icmp_Type msg =? ICMPTypeEchoReply).
  - intros s. mrun. unfold id. destruct (st_pings s !! _) as [w|]; [|done]. cbn [st_waiters set_pings].
    destruct (st_waiters s !! w) as [ch|]; [|done]. by destruct (len ch <? 1).
  - apply connState_tcp. go_frame.
Qed.
Lemma handleUDP4_tcp h body : same (handleUDP4 h body).
Proof.
  unfold handleUDP4. apply moves_bind; [apply _|go_move|]. intros [uh payload]. intros s. unfold bind, gets, id.
  destruct (st_udp4Conns s !! _) as [p|]; [|reflexivity]. unfold deliverUDP, derefUDP, storeUDP. mrun.
  destruct (st_udp s !! p) as [c|]; [|reflexivity]. destruct (u_closed c); [reflexivity|]. destruct (u_queueClosed c); [reflexivity|].
  by split; [unfold grows; cbn; reflexivity|].
Qed.
Hint Resolve sendIPv4Frame_tcp sendSegmentSt_tcp : gomove.

(** ** Receiving *)

(** The pair of a connection taken out and the stack: TCP in the stack stays and
    the connection is as closed as before. *)
Definition quietC (x y : TCP4Conn * Stack (Logged L)) : Prop := tcpSame (snd x) (snd y) /\ closed (fst y) = closed (fst x).
#[local] Instance quietC_preorder : PreOrder quietC.
Proof. split; [intros x; split; reflexivity|]. intros x y z [H1 E1] [H2 E2]. split; [by etransitivity|congruence]. Qed.

Lemma update_quiet f : (forall c, closed (f c) = closed c) -> moves quietC (update f).
Proof. intros Hf [c s]. unfold update, modify, quietC. cbn. split; [reflexivity|apply Hf]. Qed.
Lemma sendAck_quiet : moves quietC sendAck.
Proof.
  unfold sendAck, conn. apply moves_bind; [apply _|go_move|]. intros c. apply moves_ignore; [apply _|].
  intros [c0 s]. unfold zoom. cbn [snd]. pose proof (sendSegmentSt_tcp c TCPFlagACK (sndNxt c) (rcvNxt c) [] s) as Hm.
  cbn [sendSegment stackSink]. destruct (sendSegmentSt _ _ _ _ _ s) as [r s']. by split.
Qed.
Hint Resolve sendAck_quiet : gomove.

Lemma merge_closed p fin c : closed (mergeSegment p fin c) = closed c.
Proof. unfold mergeSegment. by destruct fin. Qed.
Lemma drain_closed c : closed (drainReassemblyLocked c) = closed c.
Proof.
  unfold drainReassemblyLocked. generalize (S (length (reassembly c))). intros n. revert c. induction n as [|n IH]; intros c; cbn [drainFrom]; [done|].
  destruct (list_find _ _) as [[i e]|]; [|done]. rewrite IH. cbn. apply merge_closed.
Qed.
Lemma finTransitions_closed a c : closed (finTransitions a c) = closed c.
Proof. unfold finTransitions. repeat case_match; done. Qed.
Lemma acceptSegmentLocked_quiet sq payload fin : moves quietC (acceptSegmentLocked sq payload fin).
Proof.
  unfold acceptSegmentLocked, conn. go_move; apply update_quiet; intros; first [apply merge_closed|apply drain_closed|done].
Qed.
Hint Resolve acceptSegmentLocked_quiet : gomove.

(** A delivery closes the connection only by a reset. *)
Lemma deliverSegment_closes th payload (x : TCP4Conn * Stack (Logged L)) :
  let y := snd (deliverSegment th payload x) in
  tcpSame (snd x) (snd y) /\
  (closed (fst y) = true -> (closed (fst x) = true /\ state (fst y) = state (fst x)) \/ (state (fst y) = tcpClosed /\ hasFlag th TCPFlagRST = true)).
Proof.
  destruct x as [c s]. cbv zeta. destruct (deliverSegment th payload (c, s)) as [r y] eqn:E. cbn [fst snd].
  unfold deliverSegment in E. unfold bind at 1, conn at 1, gets at 1 in E. cbn [fst] in E. destruct (closed c) eqn:Ec.
  { injection E as _ <-. split; [reflexivity|]. intros _. left. by split. }
  destruct (hasFlag th TCPFlagRST) eqn:Er.
  { injection E as _ <-. split; [reflexivity|]. intros _. right. by split. }
  match type of E with ?m (c, s) = _ => assert (moves quietC m) as Hm end.
  { unfold conn. go_move; apply update_quiet; intros; try done; apply finTransitions_closed. }
  specialize (Hm (c, s)). rewrite E in Hm. destruct Hm as [H1 H2]. split; [exact H1|]. cbn [fst snd] in H2. intros Ht. congruence.
Qed.

(** A segment dispatched: what it closes it closes by a reset for its port. *)
Lemma handleTCP4_closes h body s :
  let s' := snd (handleTCP4 h body s) in
  grows s s' /\ st_tcp4Conns s' = st_tcp4Conns s /\
  forall p c', st_tcp s' !! p = Some c' -> closed c' = true ->
    wasClosed s p c' \/ state c' = tcpClosed /\ exists th payload,
      ParseTCP4 (ip_Src h) (ip_Dst h) (take (Z.to_nat (ip_TotalLen h - 20)) body) = Ok (th, payload) /\
      st_tcp4Conns s !! tcp_DstPort th = Some p /\ hasFlag th TCPFlagRST = true.
Proof.
  cbv zeta. assert (forall s', tcpSame s s' -> grows s s' /\ st_tcp4Conns s' = st_tcp4Conns s /\
    forall p c', st_tcp s' !! p = Some c' -> closed c' = true -> wasClosed s p c' \/ state c' = tcpClosed /\ exists th payload,
      ParseTCP4 (ip_Src h) (ip_Dst h) (take (Z.to_nat (ip_TotalLen h - 20)) body) = Ok (th, payload) /\
      st_tcp4Conns s !! tcp_DstPort th = Some p /\ hasFlag th TCPFlagRST = true) as Hsame.
  { intros s' (G & E & F). split; [done|]. split; [done|]. intros p c Hc Hcl. left. exists c. by rewrite <- E. }
  destruct (handleTCP4 h body s) as [o s'] eqn:E. cbn [snd]. unfold handleTCP4, IPv4HeaderLen in E. cbv zeta in E.
  destruct (Z.ltb_spec (ip_TotalLen h - 20) 0); [injection E as _ <-; by apply Hsame|].
  destruct (Z.ltb_spec (len body) (ip_TotalLen h - 20)); [injection E as _ <-; by apply Hsame|].
  rewrite sliceTo_len in E by lia. unfold bind at 1, lift at 1 in E. cbv beta iota in E. unfold bind at 1, lift at 1 in E.
  destruct (ParseTCP4 _ _ _) as [[th payload]|e|] eqn:Ep; [|injection E as _ <-; by apply Hsame..]. unfold bind at 1, gets at 1, id in E. cbv beta iota in E.
  destruct (st_tcp4Conns s !! tcp_DstPort th) as [q|] eqn:Eq; [|injection E as _ <-; by apply Hsame]. unfold bind, derefTCP, gets in E. unfold bind in E.
  destruct (st_tcp s !! q) as [c|] eqn:Ec; [|injection E as _ <-; by apply Hsame]. unfold ret in E. destruct (_ || _); [injection E as _ <-; by apply Hsame|].
  unfold onConn in E. rewrite Ec in E. pose proof (deliverSegment_closes th payload (c, s)) as Hd. cbv zeta in Hd.
  destruct (deliverSegment th payload (c, s)) as [r [c' s2]]. injection E as _ <-. cbn [fst snd] in Hd. destruct Hd as [(G & E & F) Hcl]. split; [exact G|]. split; [exact F|].
  intros p c2. cbn. rewrite E. destruct (decide (p = q)) as [->|Hne].
  - rewrite lookup_insert_eq. intros [= <-] Ht. destruct (Hcl Ht) as [[Ha Hb]|[Ha Hb]]; [left; by exists c|right]. split; [done|]. by exists th, payload.
  - rewrite lookup_insert_ne by done. intros Hc2 Ht. left. by exists c2.
Qed.

Lemma rxLoopIter_resets : res rxLoopIter.
Proof.
  intros s. unfold rxLoopIter, ignore. unfold bind at 1, try at 1, onStLink, zoom, recvFrame. cbn [RecvFrame logged_link].
  destruct (RecvFrame (lg_link (st_link s))) as [[frame|e] l']; cbn [ofSum snd fst].
  2:{ apply tcpSame_resets. split; [by exists []|done]. }
  set (s1 := set_net _ _ s). assert (tcpSame s s1) as Hs1 by (split; [by exists [frame]|done]). assert (frame ∈ lg_seen (st_link s1)) as Hf by by left.
  assert (lg_seen (st_link s1) = [frame] ++ lg_seen (st_link s)) as El by done. clearbody s1.
  assert (resets s (snd (dispatch frame s1))) as Hd.
  2:{ unfold bind, try. destruct (dispatch frame s1) as [[u|e|] s2]; exact Hd. }
  assert (forall s2, tcpSame s1 s2 -> resets s s2) as Hsame by (intros s2 H2; apply tcpSame_resets; by etransitivity).
  unfold dispatch. unfold bind at 1, lift. destruct (ParseEthernet frame) as [eth|e|] eqn:Eeth; [|by apply Hsame..].
  destruct (eth_EtherType eth =? EtherTypeARP); [apply Hsame, handleARP_tcp|].
  destruct (Z.eqb_spec (eth_EtherType eth) EtherTypeIPv4) as [Ety|]; [|by apply Hsame].
  unfold handleIPv4. unfold bind at 1, lift. destruct (ParseIPv4 (eth_Payload eth)) as [[h body]|e|] eqn:Eip; [|by apply Hsame..].
  destruct (_ =? IPProtoICMP); [apply Hsame, handleICMP_tcp|]. destruct (_ =? IPProtoUDP); [apply Hsame, handleUDP4_tcp|].
  destruct (Z.eqb_spec (ip_Protocol h) IPProtoTCP) as [Epr|]; [|by apply Hsame].
  destruct (handleTCP4_closes h body s1) as (G & F & Hcl). destruct Hs1 as (G0 & E0 & F0). split; [by etransitivity|]. split; [congruence|].
  intros p c Hc Ht. destruct (Hcl p c Hc Ht) as [(c0 & Hc0 & ?)|(Hst & th & payload & Hp & Hq & Hr)]; [left; exists c0; split; [congruence|done]|right].
  split; [done|]. exists (tcp_DstPort th). split; [congruence|]. destruct G as [n En]. exists (n ++ [frame]), frame.
  split; [by rewrite En, El, app_assoc|]. split; [apply elem_of_app; right; by left|]. by exists eth, h, body, th, payload.
Qed.
Hint Resolve rxLoopIter_resets : gomove.

(** ** Reading and writing *)

Lemma same_res {A} (m : M (Stack (Logged L)) A) : same m -> res m.
Proof. apply moves_weaken, tcpSame_resets. Qed.
Lemma derefTCP_res p : res (derefTCP p).
Proof. unfold derefTCP. go_move. Qed.
Lemma sendSegmentExt_tcp p flags sq ak payload : same (sendSegmentExt p flags sq ak payload).
Proof. unfold sendSegmentExt, derefTCP. go_move. Qed.
Lemma sendSegmentExt_res p flags sq ak payload : res (sendSegmentExt p flags sq ak payload).
Proof. apply same_res, sendSegmentExt_tcp. Qed.
Hint Resolve derefTCP_res sendSegmentExt_res : gomove.

(** Putting back a connection that is as closed, and in the same state. *)
Lemma store_resets s p c c' : st_tcp s !! p = Some c -> closed c' = closed c -> state c' = state c ->
  resets s (set_tcp (st_tcp4Conns s) (<[p := c']> (st_tcp s)) s).
Proof.
  intros Hc Ecl Est. split; [unfold grows; cbn; reflexivity|]. split; [done|]. intros q c2. cbn. destruct (decide (q = p)) as [->|Hne].
  - rewrite lookup_insert_eq. intros [= <-] Ht. left. exists c. split; [done|]. split; congruence.
  - rewrite lookup_insert_ne by done. intros Hc2 Ht. left. by exists c2.
Qed.
Lemma readQueue_res p n : res (onConn p (readQueue n)).
Proof.
  intros s. unfold onConn. destruct (st_tcp s !! p) as [c|] eqn:Ec; [|reflexivity]. unfold readQueue, conn, update, bind, gets, modify, ret. cbn [fst snd].
  by apply (store_resets s p c).
Qed.
Hint Resolve readQueue_res : gomove.
Lemma Read_res p n : res (Read p n).
Proof. unfold Read, readIter. go_move. Qed.

Lemma awaitAck_res fuel : forall o pa r p flags sq ak seg w, res (awaitAck fuel o pa r p flags sq ak seg w).
Proof. induction fuel as [|fuel IH]; intros; cbn [awaitAck]; go_move. Qed.
Hint Resolve awaitAck_res : gomove.
Lemma sendAndAwaitAck_res p seg : res (sendAndAwaitAck p seg).
Proof.
  intros s. unfold sendAndAwaitAck. unfold bind at 1. destruct (derefTCP p s) as [[c|e|] s0] eqn:Ed; [|by apply (moves_step _ _ _ _ _ Ed (derefTCP_res p))..].
  assert (s0 = s /\ st_tcp s !! p = Some c) as [-> Hc]. { revert Ed. unfold derefTCP, bind, gets. destruct (st_tcp s !! p) as [x|]; by intros [= <- <-]. }
  cbv zeta. set (w := u32 _). unfold bind at 1, storeTCP, modify. etransitivity; [by apply (store_resets s p c (set_sndNxt w c))|].
  match goal with |- resets ?x (snd (?m ?x)) => assert (res m) as Hm by go_move; exact (Hm x) end.
Qed.
Hint Resolve sendAndAwaitAck_res : gomove.
Lemma writeLoop_res fuel : forall p data w, res (writeLoop fuel p data w).
Proof. induction fuel as [|fuel IH]; intros; cbn [writeLoop]; cbv zeta; go_move. Qed.
Hint Resolve writeLoop_res : gomove.
Lemma Write_res p data : res (Write p data).
Proof. unfold Write. go_move. Qed.

(** ** Dialling *)

Notation clo m := (moves (@closings L) m).
Lemma res_clo {A} (m : M (Stack (Logged L)) A) : res m -> clo m.
Proof. apply moves_weaken, resets_closings. Qed.
Lemma releaseTCP4_clo port : clo (releaseTCP4 port).
Proof. intros s. split; [unfold grows; cbn; reflexivity|]. intros p c Hc Ht. left. by exists c. Qed.
Lemma registerTCP4_clo p c : closed c = false -> clo (registerTCP4 p c).
Proof.
  intros Hcl s. split; [unfold grows; cbn; reflexivity|]. intros q c'. cbn. destruct (decide (q = p)) as [->|Hne].
  - rewrite lookup_insert_eq. intros [= <-]. congruence.
  - rewrite lookup_insert_ne by done. intros Hc Ht. left. by exists c'.
Qed.
Lemma alloc_clo : clo alloc.
Proof. intros s. split; [unfold grows; cbn; reflexivity|]. intros p c Hc Ht. left. by exists c. Qed.
Lemma portScan_clo n : forall i, clo (portScan n i).
Proof.
  induction n as [|n IH]; intros i s; cbn [portScan]; [reflexivity|]. destruct (_ !! _); [apply IH|].
  split; [unfold grows; cbn; reflexivity|]. intros p c Hc Ht. left. by exists c.
Qed.
Hint Resolve releaseTCP4_clo alloc_clo portScan_clo : gomove.
Hint Extern 2 (moves closings rxLoopIter) => apply res_clo, rxLoopIter_resets : gomove.
Hint Extern 2 (moves closings (derefTCP _)) => apply res_clo, derefTCP_res : gomove.
Hint Extern 2 (moves closings (sendSegmentExt _ _ _ _ _)) => apply res_clo, sendSegmentExt_res : gomove.
Hint Extern 2 (moves closings (registerTCP4 _ _)) => (apply registerTCP4_clo; reflexivity) : gomove.
Lemma dialTCP4Once_clo dst port : clo (dialTCP4Once dst port).
Proof. unfold dialTCP4Once, allocTCP4Port, dialIter. go_move. Qed.

(** A dial that succeeds gives a connection that is open. *)
Lemma dialTCP4Once_open dst port s p s' :
  stackInv s -> dialTCP4Once dst port s = (Ok p, s') -> exists c, st_tcp s' !! p = Some c /\ state c = tcpEstablished /\ closed c = false.
Proof.
  intros Hs E. pose proof (dialTCP4Once_new s dst port Hs) as Hd. rewrite E in Hd. destruct Hd as [(_ & c & Hc & Hst & _) Hnew].
  exists c. split; [done|]. split; [done|]. destruct (moves_step _ _ _ _ _ E (dialTCP4Once_clo dst port)) as [_ Hcl].
  destruct (closed c) eqn:Ec; [|done]. destruct (Hcl p c Hc Ec) as [(c0 & Hc0 & _)|?]; congruence.
Qed.

(** ** The log over whole operations *)

Lemma clo_grows {A} (m : M (Stack (Logged L)) A) : clo m -> moves (@grows L) m.
Proof. apply moves_weaken. by intros s s' []. Qed.
Lemma res_grows {A} (m : M (Stack (Logged L)) A) : res m -> moves (@grows L) m.
Proof. intros Hm. by apply clo_grows, res_clo. Qed.
Lemma modify_grows f : (forall s, lg_seen (st_link (f s)) = lg_seen (st_link s)) -> moves (@grows L) (modify f : M (Stack (Logged L)) unit).
Proof. intros Hf s. exists []. cbn. apply Hf. Qed.
Hint Extern 2 (moves (@grows L) (modify _)) => (apply modify_grows; reflexivity) : gomove.
Hint Extern 2 (moves (@grows L) rxLoopIter) => apply res_grows, rxLoopIter_resets : gomove.
Hint Extern 2 (moves (@grows L) (sendSegmentExt _ _ _ _ _)) => apply res_grows, sendSegmentExt_res : gomove.
Hint Extern 2 (moves (@grows L) (sendUDP4 _ _ _ _)) => apply udpSame_grows, sendUDP4_same : gomove.
Lemma CloseTCP_grows p : moves (@grows L) (CloseTCP p).
Proof. unfold CloseTCP, sendFin, closeIter, derefTCP, storeTCP, releaseTCP4. go_move. Qed.
Lemma ReadFrom_grows p n : moves (@grows L) (ReadFrom p n).
Proof. unfold ReadFrom, readFromIter, derefUDP, storeUDP. go_move. Qed.
Lemma alloc_grows : moves (@grows L) (alloc : M (Stack (Logged L)) nat).
Proof. intros s. unfold grows. cbn. reflexivity. Qed.
Lemma CloseUDP_grows p : moves (@grows L) (CloseUDP p).
Proof. unfold CloseUDP, derefUDP, storeUDP, releaseUDP4. go_move. Qed.
Hint Resolve ReadFrom_grows alloc_grows CloseUDP_grows : gomove.
Lemma scanUDP_grows n : forall i, moves (@grows L) (scanUDP n i : M (Stack (Logged L)) _).
Proof. induction n as [|n IH]; intros i; cbn [scanUDP]; unfold OpenUDP4, storeUDP; go_move. Qed.
Hint Resolve scanUDP_grows : gomove.
Lemma ResolveA_grows name server : moves (@grows L) (ResolveA name server : M (Stack (Logged L)) _).
Proof. unfold ResolveA, withUDP, queryA, resolveAIter, WriteTo, derefUDP. go_move. Qed.

Lemma retry_moves {S A} (R : S -> S -> Prop) `{!PreOrder R} (once : M S A) da db attempts base :
  moves R once -> moves (fun x y => R (fst x) (fst y)) (dialWithRetry once da db attempts base).
Proof.
  intros Ho. unfold dialWithRetry. generalize (dialAttemptsOrDefault da attempts) at 2. intros a.
  generalize (dialBaseDelayOrDefault db base). generalize (Z.to_nat (dialAttemptsOrDefault da attempts)).
  assert (PreOrder (fun x y : S * list Z => R (fst x) (fst y))) as Hpre.
  { split; [intros x; reflexivity|]. intros x y z ? ?. by etransitivity. }
  assert (moves (fun x y => R (fst x) (fst y)) (attempt once)) as Ha.
  { intros [s naps]. unfold attempt, zoom. cbn. specialize (Ho s). by destruct (once s). }
  induction n as [|n IH]; intros d; cbn [retryFrom]; unfold dialRetrySleep; go_move; try (destruct n; go_move); intros x; unfold modify; cbn; reflexivity.
Qed.
End resets.
