(* ===== verification/Http.v ===== *)
(** * HTTP/1.1 client, buffered (uefiboard/ministack/http.go)

    URLs, requests, the response parser with its chunked decoder, and the GET
    built on the stack's resolver, dialer and TCP calls. *)

From S2P Require Import Prelude NetIP Effects Ethernet IPv4 Tcp Arp TcpConn Stack StackTcp Provenance GoStr Dns DialRetry Resets.

Definition HTTPMaxResponseBytes : Z := 1048576.

Record parsedHTTPURL := mkURL { url_Host : list byte; url_Port : Z; url_Path : list byte }.

Definition slash : byte := x2f.
Definition colon : byte := x3a.
Definition semicolon : byte := x3b.
Definition crlf : list byte := [x0d; x0a].

Definition parseHTTPURL (url : list byte) : out parsedHTTPURL :=
  let prefix := str "http://" in
  ret_if negb (HasPrefix url prefix) with ErrHTTPSchemeNotHTTP;;
  let* rest := sliceFrom url (len prefix) in
  let i := IndexByte rest slash in
  let* path := if 0 <=? i then sliceFrom rest i else Ok [slash] in
  let* rest := if 0 <=? i then sliceTo rest i else Ok rest in
  let i := LastIndexByte rest colon in
  let* host := if 0 <=? i then sliceTo rest i else Ok rest in
  let* port := if 0 <=? i
               then let* p := sliceFrom rest (i + 1) in
                    match ParseUint p 10 16 with Some p => Ok (u16 p) | None => Err ErrHTTPBadURL end
               else Ok 80 in
  ret_if bool_decide (host = []) with ErrHTTPBadURL;;
  Ok (mkURL host port path).

Definition buildHTTPRequest (u : parsedHTTPURL) (extraHeaders : list (list byte)) : list byte :=
  str "GET " ++ url_Path u ++ str " HTTP/1.1" ++ crlf ++
  str "Host: " ++ url_Host u ++
  (if negb (url_Port u =? 80) then str ":" ++ FormatUint (url_Port u) 10 else []) ++ crlf ++
  str "User-Agent: ministack/1.0" ++ crlf ++
  str "Accept: */*" ++ crlf ++
  str "Connection: close" ++ crlf ++
  foldr (fun h rest => h ++ crlf ++ rest) [] extraHeaders ++ crlf.

(** ** Chunked decoding *)

(** The size line without its extension. *)
Definition stripExt (line : list byte) : out (list byte) :=
  let semi := IndexByte line semicolon in
  if 0 <=? semi then sliceTo line semi else Ok line.

(** The loop; [rest] is [raw[pos:]]. *)
Fixpoint chunksFrom (fuel : nat) (rest acc : list byte) : out (list byte) :=
  match fuel with
  | O => Err (ErrOther 0)
  | S f =>
      let eol := Index rest crlf in
      ret_if eol <? 0 with ErrHTTPBadChunk;;
      let* line := sliceTo rest eol in
      let* sizeStr := stripExt line in
      match ParseUint (TrimSpace sizeStr) 16 32 with
      | None => Err ErrHTTPBadChunk
      | Some size =>
          let* rest := sliceFrom rest (eol + 2) in
          if size =? 0 then Ok acc
          else
            ret_if len rest <? size + 2 with ErrHTTPBadChunk;;
            let* data := sliceTo rest size in
            let* rest := sliceFrom rest (size + 2) in
            chunksFrom f rest (acc ++ data)
      end
  end.

Definition decodeChunked (raw : list byte) : out (list byte) := chunksFrom (S (length raw)) raw [].

(** ** Responses *)

Abbreviation httpHeaders := (gmap (list byte) (list byte)).

Record HTTPResponse := mkResponse {
  StatusCode : Z;
  StatusLine : list byte;
  Headers : httpHeaders;
  Body : list byte
}.

Definition addHeader (headers : httpHeaders) (k v : list byte) : httpHeaders :=
  match headers !! k with
  | Some existing => <[k := existing ++ str ", " ++ v]> headers
  | None => <[k := v]> headers
  end.

Fixpoint parseHeaderLines (lines : list (list byte)) (headers : httpHeaders) : out httpHeaders :=
  match lines with
  | [] => Ok headers
  | line :: r =>
      match line with
      | [] => parseHeaderLines r headers
      | _ =>
          let i := IndexByte line colon in
          ret_if i <? 0 with ErrHTTPBadHeader;;
          let* name := sliceTo line i in
          let* value := sliceFrom line (i + 1) in
          parseHeaderLines r (addHeader headers (ToLower (TrimSpace name)) (TrimSpace value))
      end
  end.

(** Chunked, else Content-Length, else everything that came. *)
Definition decodeBody (headers : httpHeaders) (body : list byte) : out (list byte) :=
  let chunked := match headers !! str "transfer-encoding" with
                 | Some te => EqualFold te (str "chunked") | None => false end in
  if chunked then decodeChunked body
  else match headers !! str "content-length" with
       | None => Ok body
       | Some cl =>
           match Atoi cl with
           | None => Err ErrHTTPBadHeader
           | Some n =>
               ret_if n <? 0 with ErrHTTPBadHeader;;
               let n := if len body <? n then len body else n in
               sliceTo body n
           end
       end.

Definition parseHTTPResponse (raw : list byte) : out HTTPResponse :=
  let sep := crlf ++ crlf in
  let idx := Index raw sep in
  ret_if idx <? 0 with ErrHTTPBadStatusLine;;
  let* headerBlock := sliceTo raw idx in
  let* body := sliceFrom raw (idx + len sep) in
  match SplitStr headerBlock crlf with
  | [] => Err ErrHTTPBadStatusLine
  | line0 :: lines =>
      ret_if len line0 =? 0 with ErrHTTPBadStatusLine;;
      match SplitN x20 line0 3 with
      | proto :: code :: _ =>
          ret_if negb (HasPrefix proto (str "HTTP/")) with ErrHTTPBadStatusLine;;
          match Atoi code with
          | None => Err ErrHTTPBadStatusLine
          | Some statusCode =>
              let* headers := parseHeaderLines lines ∅ in
              let* body := decodeBody headers body in
              Ok (mkResponse statusCode line0 headers body)
          end
      | _ => Err ErrHTTPBadStatusLine
      end
  end.

(** ** GET *)

Section get.
Context {L : Type} `{Link L}.
Abbreviation StM A := (M (Stack L) A).

(** net.ParseIP, of which nothing is assumed. *)
Variable ParseIP : list byte -> option IP.

(** The address of the URL's host: a literal, or resolved. *)
Definition resolveHost (host : list byte) (dnsServer : option IP) : StM IP :=
  match ParseIP host with
  | Some parsed =>
      match To4 parsed with
      | None => throw ErrTCP4InvalidAddr
      | Some ip => ret ip
      end
  | None =>
      match dnsServer with
      | None => throw ErrDNSInvalidServer
      | Some d => ResolveA host d
      end
  end.

(** The read loop.  A successful Read returns at least one byte, so the cap
    bounds the iterations. *)
Fixpoint readAll (fuel : nat) (p : nat) (all : list byte) : StM (list byte) :=
  match fuel with
  | O => throw (ErrOther 0)
  | S f =>
      r <- try (Read p 4096) ;;
      match r with
      | inl chunk =>
          throw_if HTTPMaxResponseBytes <? len all + len chunk with ErrHTTPResponseTooBig;;
          readAll f p (all ++ chunk)
      | inr err =>
          if decide (err = ErrTCP4PeerClosed) then ret all
          else throw_if len all =? 0 with err;; ret all
      end
  end.

Definition readHTTPResponse (p : nat) : StM HTTPResponse :=
  all <- readAll (S (Z.to_nat HTTPMaxResponseBytes)) p [] ;;
  lift (parseHTTPResponse all).

(** [defer conn.Close()] *)
Definition withTCP {A} (p : nat) (m : StM A) : StM A :=
  r <- try m ;;
  ignore (CloseTCP p) ;;;
  lift (ofSum r).

Definition exchangeHTTP (p : nat) (req : list byte) : StM HTTPResponse :=
  w <- Write p req ;;
  match snd w with
  | Some werr => throw werr
  | None => readHTTPResponse p
  end.

Definition onStack {A} (m : StM A) : M (Stack L * list Z) A := attempt m.

Definition dialHTTPConn (u : parsedHTTPURL) (dnsServer : option IP) (defaultAttempts defaultBaseDelay : Z)
  : M (Stack L * list Z) nat :=
  ip <- onStack (resolveHost (url_Host u) dnsServer) ;;
  DialTCP4 ip (url_Port u) defaultAttempts defaultBaseDelay.

Definition HTTPGet (url : list byte) (dnsServer : option IP) (extraHeaders : list (list byte))
  (defaultAttempts defaultBaseDelay : Z) : M (Stack L * list Z) HTTPResponse :=
  u <- lift (parseHTTPURL url) ;;
  p <- dialHTTPConn u dnsServer defaultAttempts defaultBaseDelay ;;
  onStack (withTCP p (exchangeHTTP p (buildHTTPRequest u extraHeaders))).
End get.

(** ** The decoder returns *)

Lemma stripExt_ok line : exists l, stripExt line = Ok l.
Proof.
  unfold stripExt. pose proof (IndexByte_range line semicolon). destruct (Z.leb_spec 0 (IndexByte line semicolon)); [|by eexists].
  rewrite sliceTo_len; [by eexists|]. destruct line; [|len_lia]. cbn in *. lia.
Qed.

Lemma Index_crlf_room s : 0 <= Index s crlf -> Index s crlf + 2 <= len s.
Proof.
  unfold Index. destruct (cutStr crlf s) as [[x y]|] eqn:E; [|lia]. apply cutStr_Some in E as ->.
  intros _. unfold crlf. len_lia.
Qed.

Lemma ParseUint_range s base bits v : 0 < base -> ParseUint s base bits = Some v -> 0 <= v < 2 ^ bits.
Proof.
  intros Hb. unfold ParseUint. destruct s; [done|].
  destruct (digitsVal base (b :: s) 0) as [w|] eqn:E; [|done]. destruct (Z.ltb_spec w (2 ^ bits)); [|done].
  intros [= <-]. split; [|done].
  assert (forall l acc w, 0 <= acc -> digitsVal base l acc = Some w -> 0 <= w) as Hpos; [|by eapply Hpos in E].
  induction l as [|c l IH]; cbn; intros acc w' Ha Hw; [by injection Hw as <-|].
  destruct (digitVal c) as [d|] eqn:Ed; [|done]. destruct (d <? base); [|done]. apply IH in Hw; [done|].
  assert (0 <= d); [|nia]. unfold digitVal in Ed. revert Ed. blia; try done; intros [= <-]; lia.
Qed.

Lemma chunksFrom_total fuel rest acc :
  (length rest < fuel)%nat ->
  match chunksFrom fuel rest acc with
  | Ok r => len r <= len acc + len rest
  | Err e => e = ErrHTTPBadChunk
  | Panic => False
  end.
Proof.
  revert rest acc. induction fuel as [|f IH]; intros rest acc Hf; [lia|]. cbn [chunksFrom].
  pose proof (Index_range rest crlf) as Hi. destruct (Z.ltb_spec (Index rest crlf) 0); [done|].
  pose proof (Index_crlf_room rest ltac:(lia)) as Hr. rewrite sliceTo_len by lia. cbn [out_bind].
  destruct (stripExt_ok (take (Z.to_nat (Index rest crlf)) rest)) as [l ->]. cbn [out_bind].
  destruct (ParseUint (TrimSpace l) 16 32) as [size|] eqn:Es; [|done].
  apply ParseUint_range in Es; [|lia]. rewrite sliceFrom_len by lia. cbn [out_bind].
  destruct (Z.eqb_spec size 0); [pose_lens; lia|]. set (rest' := drop _ rest).
  assert (len rest' = len rest - (Index rest crlf + 2)) as Hl by (unfold rest'; len_lia).
  destruct (Z.ltb_spec (len rest') (size + 2)); [done|].
  rewrite sliceTo_len, sliceFrom_len by lia. cbn [out_bind].
  pose proof (IH (drop (Z.to_nat (size + 2)) rest') (acc ++ take (Z.to_nat size) rest')) as Hrec.
  rewrite length_drop in Hrec. specialize (Hrec ltac:(unfold len in Hl; lia)). clearbody rest'.
  destruct (chunksFrom _ _ _); [|done|done]. len_lia.
Qed.

Lemma decodeChunked_total raw :
  match decodeChunked raw with Ok r => len r <= len raw | Err e => e = ErrHTTPBadChunk | Panic => False end.
Proof. unfold decodeChunked. pose proof (chunksFrom_total (S (length raw)) raw [] ltac:(lia)) as Ht. by destruct (chunksFrom _ _ _). Qed.

(** ** Chunked round trip *)

(** A chunk on the wire: size in hexadecimal, an optional extension, data. *)
Record chunk := mkChunk { ch_data : list byte; ch_ext : list byte }.
Definition chunkOk (c : chunk) : Prop :=
  0 < len (ch_data c) < 2 ^ 32 /\ x0d ∉ ch_ext c /\ x0a ∉ ch_ext c /\ (ch_ext c = [] \/ exists t, ch_ext c = semicolon :: t).
Definition sizeLine (c : chunk) : list byte := FormatUint (len (ch_data c)) 16 ++ ch_ext c.
Definition chunkBytes (c : chunk) : list byte := sizeLine c ++ crlf ++ ch_data c ++ crlf.
Definition chunkedBody (cs : list chunk) (trailer : list byte) : list byte :=
  concat (chunkBytes <$> cs) ++ str "0" ++ crlf ++ trailer.

(** The size line, with or without a carriage return behind it, gives the size. *)
Lemma sizeLine_parse c bits tail :
  chunkOk c -> len (ch_data c) < 2 ^ bits -> bits <= 64 -> Forall (fun b => isSpace b = true) tail -> semicolon ∉ tail ->
  exists l, stripExt (sizeLine c ++ tail) = Ok l /\ ParseUint (TrimSpace l) 16 bits = Some (len (ch_data c)).
Proof.
  intros (Hlen & _ & _ & Hext) Hb Hb64 Hsp Hsc. unfold sizeLine, stripExt, IndexByte.
  pose proof (FormatUint_hex (len (ch_data c)) 16 ltac:(lia)) as Hhex.
  assert (semicolon ∉ FormatUint (len (ch_data c)) 16) as Hns.
  { apply hexChar_notin; [done|]. right. vm_compute. split; reflexivity. }
  assert (forall r, Forall (fun b => isSpace b = true) r ->
    ParseUint (TrimSpace (FormatUint (len (ch_data c)) 16 ++ r)) 16 bits = Some (len (ch_data c))) as Hp.
  { intros r Hr. rewrite TrimSpace_hex by done.
    pose proof (ParseUint_FormatUint (len (ch_data c)) 16 ltac:(lia) ltac:(change (2 ^ 64) with (2 ^ 32 * 2 ^ 32); nia)) as Hrt.
    revert Hrt. unfold ParseUint. destruct (FormatUint (len (ch_data c)) 16); [done|].
    destruct (digitsVal _ _ _) as [v|]; [|done]. destruct (v <? 2 ^ 64); [|done]. intros [= ->].
    by rewrite (proj2 (Z.ltb_lt _ _)) by lia. }
  destruct Hext as [->|[t ->]].
  - rewrite app_nil_r. rewrite cutByte_none by (rewrite elem_of_app; tauto).
    cbn. eexists. split; [done|]. by apply Hp.
  - rewrite <- app_assoc. cbn [app]. rewrite cutByte_app by done.
    pose proof (len_nonneg (FormatUint (len (ch_data c)) 16)).
    rewrite (proj2 (Z.leb_le _ _)) by done. rewrite sliceTo_app by done. eexists. split; [done|].
    rewrite <- (app_nil_r (FormatUint _ _)). by apply Hp.
Qed.

Lemma sizeLine_noCR c : chunkOk c -> x0d ∉ sizeLine c.
Proof.
  intros (_ & He & _). unfold sizeLine. rewrite elem_of_app. intros [Hin|]; [|done]. revert Hin.
  apply hexChar_notin; [apply FormatUint_hex; lia|]. left. reflexivity.
Qed.

Lemma chunksFrom_chunk f c rest acc :
  chunkOk c -> chunksFrom (S f) (chunkBytes c ++ rest) acc = chunksFrom f rest (acc ++ ch_data c).
Proof.
  intros Hc. destruct Hc as (Hlen & Hx) eqn:HH. cbn [chunksFrom]. unfold chunkBytes. rewrite <- !app_assoc.
  unfold Index. change crlf with (x0d :: [x0a]).
  rewrite cutStr_app by (by apply sizeLine_noCR). rewrite (proj2 (Z.ltb_ge _ _)) by (pose_lens; lia).
  rewrite sliceTo_app by done. cbn [out_bind].
  destruct (sizeLine_parse c 32 [] ltac:(done) ltac:(lia) ltac:(lia) ltac:(constructor) ltac:(apply not_elem_of_nil)) as (l & El & Ep).
  rewrite app_nil_r in El. rewrite El. cbn [out_bind]. rewrite Ep.
  rewrite app_assoc, sliceFrom_app by (unfold crlf; len_lia). cbn [out_bind].
  rewrite (proj2 (Z.eqb_neq _ _)) by lia. rewrite (proj2 (Z.ltb_ge _ _)) by len_lia.
  rewrite sliceTo_app by done. cbn [out_bind]. rewrite app_assoc, sliceFrom_app by len_lia. done.
Qed.

Lemma chunksFrom_chunks cs trailer f acc :
  Forall chunkOk cs -> (length cs < f)%nat ->
  chunksFrom f (chunkedBody cs trailer) acc = Ok (acc ++ concat (ch_data <$> cs)).
Proof.
  intros Hcs. revert f acc. induction Hcs as [|c cs Hc _ IH]; intros f acc Hf; (destruct f as [|f]; [lia|]); unfold chunkedBody.
  - cbn [fmap list_fmap concat]. rewrite app_nil_r. cbn [app chunksFrom]. unfold Index.
    change (str "0" ++ crlf ++ trailer) with ([x30] ++ (x0d :: [x0a]) ++ trailer). change crlf with (x0d :: [x0a]).
    rewrite cutStr_app by (by apply (bool_decide_unpack _)). change (len [x30]) with 1. change (1 <? 0) with false. cbv iota.
    rewrite sliceTo_app by done. cbn [out_bind]. change (stripExt [x30]) with (Ok [x30]). cbn [out_bind].
    change (ParseUint (TrimSpace [x30]) 16 32) with (Some 0). cbv iota.
    rewrite app_assoc, sliceFrom_app by done. done.
  - cbn [fmap list_fmap concat]. rewrite <- app_assoc, chunksFrom_chunk by done.
    fold (chunkedBody cs trailer). rewrite IH by (cbn in Hf; lia). by rewrite <- app_assoc.
Qed.

(** Whatever the chunk sizes, extensions and trailer, decoding a chunked body
    gives the concatenation of the chunks' data. *)
Theorem chunked_roundtrip cs trailer :
  Forall chunkOk cs -> decodeChunked (chunkedBody cs trailer) = Ok (concat (ch_data <$> cs)).
Proof.
  intros Hcs. unfold decodeChunked. apply (chunksFrom_chunks cs trailer _ []); [done|].
  unfold chunkedBody. rewrite !length_app.
  assert (length cs <= length (concat (chunkBytes <$> cs)))%nat; [|lia].
  clear Hcs. induction cs as [|c cs IH]; [done|]. cbn [fmap list_fmap concat length]. rewrite length_app.
  unfold chunkBytes at 1. rewrite !length_app. cbn. lia.
Qed.

Lemma chunked_roundtrip_witness :
  decodeChunked (str "5;name=x" ++ crlf ++ str "hello" ++ crlf ++ str "6" ++ crlf ++ str " world" ++ crlf ++ str "0" ++ crlf ++ crlf)
  = Ok (str "hello world").
Proof.
  apply (chunked_roundtrip [mkChunk (str "hello") (str ";name=x"); mkChunk (str " world") []] crlf).
  constructor; [|constructor; [|constructor]]; (split; [split; reflexivity|]); (split; [|split]);
    try (by apply (bool_decide_unpack _); vm_compute); [right; by eexists|by left].
Defined.

(** ** Responses *)

Lemma parseHeaderLines_safe lines h : safe (parseHeaderLines lines h).
Proof.
  revert h. induction lines as [|line r IH]; intros h; cbn [parseHeaderLines]; [done|].
  destruct line as [|b l]; [apply IH|]. pose proof (IndexByte_range (b :: l) colon) as Hi.
  destruct (Z.ltb_spec (IndexByte (b :: l) colon) 0); [done|].
  rewrite sliceTo_len, sliceFrom_len by len_lia. cbn [out_bind]. apply IH.
Qed.

Lemma decodeBody_safe h body : safe (decodeBody h body).
Proof.
  unfold decodeBody. destruct (match _ with Some te => EqualFold te (str "chunked") | None => false end).
  - pose proof (decodeChunked_total body) as Ht. by destruct (decodeChunked body).
  - destruct (h !! str "content-length") as [cl|]; [|done]. destruct (Atoi cl) as [n|]; [|done].
    destruct (Z.ltb_spec n 0); [done|]. destruct (Z.ltb_spec (len body) n); rewrite sliceTo_len by len_lia; done.
Qed.

Lemma parseHTTPResponse_safe raw : safe (parseHTTPResponse raw).
Proof.
  unfold parseHTTPResponse. pose proof (Index_range raw (crlf ++ crlf)) as Hi.
  destruct (Z.ltb_spec (Index raw (crlf ++ crlf)) 0); [done|].
  assert (Index raw (crlf ++ crlf) + len (crlf ++ crlf) <= len raw) as Hr.
  { revert H. unfold Index. destruct (cutStr _ raw) as [[x y]|] eqn:E; [|lia]. apply cutStr_Some in E as ->. intros _. len_lia. }
  rewrite sliceTo_len, sliceFrom_len by len_lia. cbn [out_bind].
  destruct (SplitStr _ _) as [|l0 ls]; [done|]. destruct (_ =? 0); [done|].
  destruct (SplitN x20 l0 3) as [|proto [|code r]]; [done..|]. destruct (negb _); [done|].
  destruct (Atoi code); [|done]. apply safe_bind; [apply parseHeaderLines_safe|]. intros h _.
  apply safe_bind; [apply decodeBody_safe|]. done.
Qed.

(** A response as servers send it. *)
Definition headerLine (kv : list byte * list byte) : list byte := fst kv ++ str ": " ++ snd kv.
Definition statusLineOf (proto codeStr reason : list byte) : list byte := proto ++ [x20] ++ codeStr ++ [x20] ++ reason.
Definition responseHead (status : list byte) (hdrs : list (list byte * list byte)) : list byte :=
  Join (status :: (headerLine <$> hdrs)) crlf ++ crlf ++ crlf.
Definition headerOk (kv : list byte * list byte) : Prop :=
  colon ∉ fst kv /\ x0d ∉ fst kv /\ x0d ∉ snd kv.
(** The header map: names in lower case, values trimmed, repeated ones joined. *)
Definition headerMap (hdrs : list (list byte * list byte)) : httpHeaders :=
  foldl (fun h kv => addHeader h (ToLower (TrimSpace (fst kv))) (TrimSpace (snd kv))) ∅ hdrs.

Lemma parseHeaderLines_cons line r h :
  line <> [] ->
  parseHeaderLines (line :: r) h =
    let i := IndexByte line colon in
    ret_if i <? 0 with ErrHTTPBadHeader;;
    let* name := sliceTo line i in
    let* value := sliceFrom line (i + 1) in
    parseHeaderLines r (addHeader h (ToLower (TrimSpace name)) (TrimSpace value)).
Proof. by destruct line. Qed.

Lemma parseHeaderLines_ok hdrs h :
  Forall headerOk hdrs ->
  parseHeaderLines (headerLine <$> hdrs) h
  = Ok (foldl (fun h kv => addHeader h (ToLower (TrimSpace (fst kv))) (TrimSpace (snd kv))) h hdrs).
Proof.
  intros Hh. revert h. induction Hh as [|[k v] hdrs (Hc & _ & _) _ IH]; intros h; [done|].
  cbn [fmap list_fmap foldl fst snd] in *. unfold headerLine at 1. cbn [fst snd].
  change (str ": " ++ v) with (colon :: x20 :: v). rewrite parseHeaderLines_cons by (by destruct k).
  unfold IndexByte. rewrite cutByte_app by done.
  rewrite (proj2 (Z.ltb_ge _ _)) by (pose_lens; lia). rewrite sliceTo_app by done. cbn [out_bind].
  replace (k ++ colon :: x20 :: v) with ((k ++ [colon]) ++ x20 :: v) by (by rewrite <- app_assoc).
  rewrite sliceFrom_app by len_lia. cbn [out_bind]. apply IH.
Qed.

Lemma parseHTTPResponse_head proto codeStr reason code hdrs body :
  HasPrefix proto (str "HTTP/") = true -> x20 ∉ proto -> x20 ∉ codeStr -> Atoi codeStr = Some code ->
  x0d ∉ statusLineOf proto codeStr reason -> Forall headerOk hdrs ->
  parseHTTPResponse (responseHead (statusLineOf proto codeStr reason) hdrs ++ body)
  = let* b := decodeBody (headerMap hdrs) body in
    Ok (mkResponse code (statusLineOf proto codeStr reason) (headerMap hdrs) b).
Proof.
  intros Hp Hsp Hsc Hcode Hcr Hh. unfold parseHTTPResponse, responseHead.
  set (st := statusLineOf proto codeStr reason) in *. rewrite <- !app_assoc.
  assert (Forall (fun l => x0d ∉ l /\ l <> []) (headerLine <$> hdrs)) as Hlines.
  { rewrite Forall_fmap. eapply Forall_impl; [exact Hh|]. intros [k v] (_ & Hk & Hv). cbn [fst snd] in *.
    unfold compose, headerLine. cbn [fst snd]. split; [|by destruct k].
    rewrite !elem_of_app. intros [?|[Hin|?]]; [done| |done]. revert Hin. by apply (bool_decide_unpack _). }
  unfold Index. change (crlf ++ crlf) with [x0d; x0a; x0d; x0a]. change crlf with [x0d; x0a].
  change (Join (st :: (headerLine <$> hdrs)) [x0d; x0a] ++ [x0d; x0a] ++ [x0d; x0a] ++ body)
    with (Join (st :: (headerLine <$> hdrs)) [x0d; x0a] ++ [x0d; x0a; x0d; x0a] ++ body).
  rewrite cutStr_blank by done. set (J := Join _ _). rewrite (proj2 (Z.ltb_ge _ _)) by (pose_lens; lia).
  rewrite sliceTo_app by done. cbn [out_bind]. rewrite app_assoc, sliceFrom_app by len_lia. cbn [out_bind].
  unfold J. rewrite SplitStr_Join by (done || (eapply Forall_impl; [exact Hlines|]; by intros l [])).
  assert (len st =? 0 = false) as ->.
  { apply Z.eqb_neq. unfold st, statusLineOf. pose proof (len_nonneg proto). rewrite len_app. cbn [app]. len_lia. }
  assert (SplitN x20 st 3 = [proto; codeStr; reason]) as ->.
  { unfold st, statusLineOf. cbn [app SplitN]. rewrite cutByte_app by done. by rewrite cutByte_app by done. }
  rewrite Hp, Hcode. cbn [negb]. rewrite parseHeaderLines_ok by done. done.
Qed.

(** A response reaches the caller intact.  Its head gives the status and the
    header map; its body is what the server framed, by Content-Length, then
    without anything behind it, or by chunks. *)
Theorem http_response_roundtrip proto codeStr reason code hdrs body wire :
  HasPrefix proto (str "HTTP/") = true -> x20 ∉ proto -> x20 ∉ codeStr -> Atoi codeStr = Some code ->
  x0d ∉ statusLineOf proto codeStr reason -> Forall headerOk hdrs ->
  (headerMap hdrs !! str "transfer-encoding" = None /\
   headerMap hdrs !! str "content-length" = Some (FormatUint (len body) 10) /\
   len body < 2 ^ 63 /\ (exists extra, wire = body ++ extra)) \/
  (exists te cs trailer, headerMap hdrs !! str "transfer-encoding" = Some te /\ EqualFold te (str "chunked") = true /\
   Forall chunkOk cs /\ wire = chunkedBody cs trailer /\ body = concat (ch_data <$> cs)) ->
  parseHTTPResponse (responseHead (statusLineOf proto codeStr reason) hdrs ++ wire)
  = Ok (mkResponse code (statusLineOf proto codeStr reason) (headerMap hdrs) body).
Proof.
  intros Hp Hsp Hsc Hcode Hcr Hh Hw. rewrite (parseHTTPResponse_head _ _ _ code) by done.
  enough (decodeBody (headerMap hdrs) wire = Ok body) as -> by done. unfold decodeBody.
  destruct Hw as [(Hte & Hcl & Hlen & extra & ->)|(te & cs & trailer & Hte & Hf & Hcs & -> & ->)].
  - rewrite Hte, Hcl, Atoi_FormatUint by (pose_lens; lia). cbv iota.
    rewrite (proj2 (Z.ltb_ge _ 0)), (proj2 (Z.ltb_ge _ _)) by len_lia. by apply sliceTo_app.
  - rewrite Hte, Hf. unfold decodeChunked. apply (chunksFrom_chunks cs trailer _ []); [done|].
    unfold chunkedBody. rewrite !length_app.
    assert (length cs <= length (concat (chunkBytes <$> cs)))%nat; [|lia].
    clear. induction cs as [|c cs IH]; [done|]. cbn [fmap list_fmap concat length]. rewrite length_app.
    unfold chunkBytes at 1. rewrite !length_app. cbn. lia.
Qed.

Lemma http_response_roundtrip_witness :
  exists r, parseHTTPResponse (str "HTTP/1.1 200 OK" ++ crlf ++ str "Content-Length: 2" ++ crlf ++ crlf ++ str "okJUNK") = Ok r /\
    StatusCode r = 200 /\ Body r = str "ok".
Proof.
  eexists. split; [|split; [|]].
  - apply (http_response_roundtrip (str "HTTP/1.1") (str "200") (str "OK") 200
      [(str "Content-Length", str "2")] (str "ok") (str "okJUNK")).
    + reflexivity.
    + by apply (bool_decide_unpack _); vm_compute.
    + by apply (bool_decide_unpack _); vm_compute.
    + reflexivity.
    + by apply (bool_decide_unpack _); vm_compute.
    + constructor; [|constructor]. by split_and!; apply (bool_decide_unpack _); vm_compute.
    + left. split; [vm_compute; reflexivity|]. split; [vm_compute; reflexivity|]. split; [reflexivity|].
      exists (str "JUNK"). reflexivity.
  - reflexivity.
  - reflexivity.
Defined.

(** ** GET: safety and resources *)

Lemma parseHTTPURL_safe url : safe (parseHTTPURL url).
Proof.
  unfold parseHTTPURL. destruct (HasPrefix url (str "http://")) eqn:Ep; [|done]. cbn [negb].
  apply HasPrefix_inv in Ep. rewrite Ep, sliceFrom_app by done. cbn [out_bind].
  generalize (drop (length (str "http://")) url). intros rest. clear Ep.
  assert (forall (s : list byte) i, -1 <= i < Z.max 1 (len s) -> 0 <= i -> 0 <= i <= len s) as Hr by (intros; pose_lens; lia).
  pose proof (IndexByte_range rest slash) as Hi.
  assert (exists path r, (if 0 <=? IndexByte rest slash then sliceFrom rest (IndexByte rest slash) else Ok [slash]) = Ok path /\
    (if 0 <=? IndexByte rest slash then sliceTo rest (IndexByte rest slash) else Ok rest) = Ok r) as (path & r & -> & ->).
  { destruct (Z.leb_spec 0 (IndexByte rest slash)); [|by eauto]. rewrite sliceFrom_len, sliceTo_len by eauto. eauto. }
  cbn [out_bind]. pose proof (LastIndexByte_range r colon) as Hj.
  destruct (Z.leb_spec 0 (LastIndexByte r colon)) as [H0|H0].
  - assert (LastIndexByte r colon + 1 <= len r) as H1.
    { unfold LastIndexByte in *. destruct (cutByte colon (rev r)) as [[x y]|] eqn:E; [|lia]. pose_lens. lia. }
    rewrite sliceTo_len, sliceFrom_len by lia. cbn [out_bind]. destruct (ParseUint _ _ _); [|done]. cbn. by case_bool_decide.
  - cbn. by case_bool_decide.
Qed.

Section get_proofs.
Context {L : Type} `{Link L}.
Implicit Types s : Stack L.
Variable ParseIP : list byte -> option IP.

Lemma Read_leads sh p n s :
  (0 < n)%nat -> is_Some (sh.1.1.2 !! p) -> shaped sh s ->
  leads (fun b s' => shaped sh s' /\ b <> []) (fun _ => shaped sh) (Read p n s).
Proof.
  intros Hn Hp Hs. destruct (shaped_tcp sh s p Hs Hp) as [c Hc].
  unfold Read. rewrite (bind_derefTCP s p c _ Hc). destruct (closed c); [done|].
  apply (leads_pump (shaped sh)); [|done|done]. intros s1 Hs1.
  destruct (shaped_tcp sh s1 p Hs1 Hp) as [c1 Hc1].
  pose proof (readIter_shaped sh p n Hp s1 Hs1) as (Hnp & Hs2 & _). revert Hnp Hs2.
  unfold readIter. rewrite (bind_derefTCP s1 p c1 _ Hc1). destruct (rxQueue c1) as [|b q] eqn:Eq.
  - destruct (peerFinSeen c1); [done|]. destruct (closed c1); [done|].
    intros Hnp Hs2. destruct ((rxLoopIter ;;; ret None) s1) as [[r|e|] s2] eqn:E; [|done|done].
    revert E. unfold bind. destruct (rxLoopIter s1) as [[u|e|] s3]; [|done|done]. by intros [= <- <-].
  - unfold onConn, readQueue, conn, update. mrun. rewrite Hc1. cbn [fst snd]. intros _ Hs2. split; [exact Hs2|].
    cbn [rxQueue set_rxQueue]. rewrite Eq. destruct n; [lia|done].
Qed.

Lemma readAll_leads sh p fuel all s :
  is_Some (sh.1.1.2 !! p) -> shaped sh s -> HTTPMaxResponseBytes - len all < Z.of_nat fuel -> len all <= HTTPMaxResponseBytes ->
  leads (fun b s' => shaped sh s' /\ len b <= HTTPMaxResponseBytes) (fun e s' => shaped sh s') (readAll fuel p all s).
Proof.
  intros Hp. revert all s. induction fuel as [|f IH]; intros all s Hs Hf Hall; [lia|]. cbn [readAll].
  eapply leads_try; [apply (Read_leads sh p 4096); [lia|done|done]| |].
  - intros chunk s1 [Hs1 Hne]. destruct (Z.ltb_spec HTTPMaxResponseBytes (len all + len chunk)); [done|].
    assert (0 < len chunk) by (destruct chunk; [done|len_lia]). apply IH; [done| |]; len_lia.
  - intros e s1 Hs1. destruct (decide _); [done|]. by destruct (_ =? 0).
Qed.

Lemma Write_leads sh p data s :
  is_Some (sh.1.1.2 !! p) -> shaped sh s -> leads (fun _ => shaped sh) (fun _ => shaped sh) (Write p data s).
Proof.
  intros Hp Hs. destruct (shaped_tcp sh s p Hs Hp) as [c Hc]. unfold Write. rewrite (bind_derefTCP s p c _ Hc).
  destruct (_ || _); [done|]. apply (keep_leads (shaped sh)); [|done]. by apply writeLoop_shaped.
Qed.

Lemma sliceTo_len_le {A} (l r : list A) n : sliceTo l n = Ok r -> len r <= len l.
Proof. intros (?&?&->)%slice_inv. len_lia. Qed.

Lemma parseHTTPResponse_len raw r : parseHTTPResponse raw = Ok r -> len (Body r) <= len raw.
Proof.
  unfold parseHTTPResponse. destruct (_ <? 0); [done|]. destruct (sliceTo raw _) as [hb| |]; cbn [out_bind]; [|done|done].
  destruct (sliceFrom raw _) as [body| |] eqn:Eb; cbn [out_bind]; [|done|done].
  assert (len body <= len raw) as Hl by (apply slice_inv in Eb as (?&?&->); len_lia).
  destruct (SplitStr _ _) as [|l0 ls]; [done|]. destruct (_ =? 0); [done|].
  destruct (SplitN x20 l0 3) as [|proto [|code t]]; [done..|]. destruct (negb _); [done|].
  destruct (Atoi code); [|done]. destruct (parseHeaderLines ls ∅) as [h| |]; cbn [out_bind]; [|done|done].
  destruct (decodeBody h body) as [b| |] eqn:Ed; cbn [out_bind]; [|done|done]. intros [= <-]. cbn.
  enough (len b <= len body) by lia. revert Ed. unfold decodeBody. destruct (match _ with Some te => EqualFold te (str "chunked") | None => false end).
  - pose proof (decodeChunked_total body) as Ht. intros E. by rewrite E in Ht.
  - destruct (h !! _) as [cl|]; [|by intros [= ->]]. destruct (Atoi cl); [|done]. destruct (_ <? 0); [done|]. apply sliceTo_len_le.
Qed.

Lemma exchangeHTTP_leads sh p req s :
  is_Some (sh.1.1.2 !! p) -> shaped sh s ->
  leads (fun r s' => shaped sh s' /\ len (Body r) <= HTTPMaxResponseBytes) (fun _ => shaped sh) (exchangeHTTP p req s).
Proof.
  intros Hp Hs. unfold exchangeHTTP. eapply leads_bind; [by apply Write_leads|]. intros [n [e|]] s1 Hs1; [done|]. cbn [snd].
  unfold readHTTPResponse. eapply leads_bind.
  { apply readAll_leads; [done|done| |]; unfold HTTPMaxResponseBytes; rewrite len_nil; lia. }
  intros all s2 [Hs2 Hl]. pose proof (parseHTTPResponse_safe all) as Hsafe. pose proof (parseHTTPResponse_len all) as Hlen.
  unfold lift. destruct (parseHTTPResponse all) as [r|e|]; [|done|done]. cbn. split; [done|]. specialize (Hlen r eq_refl). lia.
Qed.

Lemma onStack_leads {A} (m : M (Stack L) A) s naps Q E :
  leads Q E (m s) -> leads (fun a x => Q a (fst x)) (fun e x => E e (fst x)) (onStack m (s, naps)).
Proof. unfold onStack, attempt, zoom, leads. cbn. by destruct (m s) as [[a|e|] s']. Qed.

Lemma dialHTTPConn_leads u dns da db s naps :
  stackInv s ->
  dialBaseDelayOrDefault db db * 2 ^ dialAttemptsOrDefault da da <= 2 ^ 63 ->
  leads (fun p x => dialed s p (fst x) /\ st_udp4Conns (fst x) = st_udp4Conns s) (fun _ x => restored s (fst x))
    (dialHTTPConn ParseIP u dns da db (s, naps)).
Proof.
  intros Hs Hmax. unfold dialHTTPConn.
  apply leads_bind with (fun _ x => restored s (fst x)).
  { apply (onStack_leads (resolveHost ParseIP (url_Host u) dns) s naps (fun _ => restored s) (fun _ => restored s)).
    unfold resolveHost. destruct (ParseIP (url_Host u)) as [a|]; [by destruct (To4 a)|].
    destruct dns as [d|]; [by apply ResolveA_restored|done]. }
  intros ip [s1 naps1] (Hs1 & Hu1 & Ht1). cbn [fst] in *. unfold DialTCP4.
  pose proof (DialTCP4WithRetry_leads s1 naps1 ip (url_Port u) da db da db Hs1 Hmax) as Hl.
  pose proof (dialWithRetry_frames st_udp4Conns (dialTCP4Once ip (url_Port u)) da db da db (dialTCP4Once_udp ip (url_Port u)) (s1, naps1)) as Hf.
  fold (DialTCP4WithRetry ip (url_Port u) da db da db) in Hf.
  destruct (DialTCP4WithRetry ip (url_Port u) da db da db (s1, naps1)) as [[p|e|] [s2 naps2]]; cbn in *; [| |done].
  - split; [|congruence]. destruct Hl as (? & c & ? & ? & ? & ? & ?). split; [done|]. exists c. by rewrite <- Ht1.
  - destruct Hl as [? ?]. split; [done|]. split; congruence.
Qed.
End get_proofs.

(** ** What a GET leaves *)

Section logged.
Context {L : Type} `{Link L}.
Implicit Types s : Stack (Logged L).
Variable ParseIP : list byte -> option IP.

(** The UDP ports are as before, and so are the TCP ports, unless a reset was
    heard for the one that the connection had, which then stays taken. *)
Definition released s s' : Prop :=
  stackInv s' /\ grows s s' /\ st_udp4Conns s' = st_udp4Conns s /\
  (st_tcp4Conns s' = st_tcp4Conns s \/
   exists port p, st_tcp4Conns s !! port = None /\ st_tcp4Conns s' = <[port := p]> (st_tcp4Conns s) /\ resetHeard port s s').

Lemma restored_released s s' : grows s s' -> restored s s' -> released s s'.
Proof. intros Hg (? & ? & ?). split_and!; [done..|by left]. Qed.

Lemma dialHTTPConn_grows u dns da db x : grows (fst x) (fst (snd (dialHTTPConn ParseIP u dns da db x))).
Proof.
  assert (PreOrder (fun x y : Stack (Logged L) * list Z => grows (fst x) (fst y))) as Hpre.
  { split; [intros y; reflexivity|]. intros y1 y2 y3 ? ?. by etransitivity. }
  assert (moves (fun x y : Stack (Logged L) * list Z => grows (fst x) (fst y)) (dialHTTPConn ParseIP u dns da db)) as Hm; [|exact (Hm x)].
  unfold dialHTTPConn. apply moves_bind; [done| |].
  - intros [s naps]. unfold onStack, attempt, zoom. cbn [fst].
    assert (moves (@grows L) (resolveHost ParseIP (url_Host u) dns)) as Hr by (unfold resolveHost; pose proof ResolveA_grows; go_move).
    specialize (Hr s). by destruct (resolveHost _ _ _ s).
  - intros ip. apply retry_moves; [apply _|]. apply clo_grows, dialTCP4Once_clo.
Qed.

(** The connection dialled is open. *)
Lemma DialTCP4_open s naps dst port da db p x :
  stackInv s -> dialBaseDelayOrDefault db db * 2 ^ dialAttemptsOrDefault da da <= 2 ^ 63 ->
  DialTCP4 dst port da db (s, naps) = (Ok p, x) -> exists c, st_tcp (fst x) !! p = Some c /\ state c = tcpEstablished /\ closed c = false.
Proof.
  intros Hs Hmax. unfold DialTCP4, DialTCP4WithRetry, dialWithRetry. set (a := dialAttemptsOrDefault da da) in *. set (b := dialBaseDelayOrDefault db db) in *.
  assert (0 < a) as Ha by (unfold a, dialAttemptsOrDefault, DefaultDialAttemptsFallback; blia; lia).
  assert (0 < b) as Hb by (unfold b, dialBaseDelayOrDefault, DefaultDialBaseDelayFallback; blia; lia).
  destruct (retryFrom_spec (dialTCP4Once dst port) (Z.to_nat a) a b naps s) as (k & s' & _ & Hf & Hr); [lia|lia|by rewrite Z2Nat.id by lia|].
  destruct (fails_dial dst port k s s' Hs Hf) as [Hs' _]. cbv zeta in Hr. intros E.
  destruct (dialTCP4Once dst port s') as [[q|e|] s''] eqn:Eo; rewrite E in Hr; [|by destruct (isRetryableDialError e); [destruct Hr|]|done].
  injection Hr as <- ->. by eapply dialTCP4Once_open.
Qed.

(** Closing a dialled connection, whatever was done with it that closes it only
    when it is reset. *)
Lemma close_released s p s1 s2 :
  grows s s1 -> dialed s p s1 -> (exists c, st_tcp s1 !! p = Some c /\ closed c = false) -> st_udp4Conns s1 = st_udp4Conns s ->
  shaped (shape s1) s2 -> resets s1 s2 -> exists s3, CloseTCP p s2 = (Ok tt, s3) /\ released s s3.
Proof.
  intros Hg (Hs1 & c1 & Hc1 & _ & Hfree & _ & Hmap) (c1' & Hc1' & Hopen) Hudp [Hs2 Hsh] Hres.
  assert (c1' = c1) as -> by congruence. clear Hc1'. unfold shape in Hsh. injection Hsh as Hu2 Ht2 _ Hports _ _.
  assert ((localPort <$> st_tcp s2) !! p = Some (localPort c1)) as Hx by (rewrite Hports, lookup_fmap, Hc1; done).
  rewrite lookup_fmap in Hx. destruct (st_tcp s2 !! p) as [c2|] eqn:Hc2; [|done]. injection Hx as Hx.
  destruct (closed c2) eqn:Hcl.
  - exists s2. unfold CloseTCP. rewrite (bind_derefTCP s2 p c2 _ Hc2), Hcl. split; [done|]. destruct Hres as (Hg2 & _ & Hres).
    split; [done|]. split; [by etransitivity|]. split; [congruence|]. right. exists (localPort c1), p. split; [done|]. split; [congruence|].
    destruct (Hres p c2 Hc2 Hcl) as [(c & Hc & Hclc & _)|(_ & port & Hport & Hr)]; [congruence|].
    destruct (inv_tcpPorts _ Hs1 _ _ Hport) as (c & Hc & <-). assert (c = c1) as -> by congruence. by eapply (resetHeard_grows _ s s1 s2 s2).
  - pose proof (CloseTCP_grows p s2) as Hg3. destruct (CloseTCP_open s2 p c2 Hs2 Hc2 Hcl) as (s3 & c3 & E & Hs3 & _ & _ & _ & Htm & Hum). rewrite E in Hg3 |- *.
    exists s3. split; [done|]. split; [done|]. split; [etransitivity; [exact Hg|]; etransitivity; [apply Hres|exact Hg3]|]. split; [congruence|]. left.
    rewrite Htm, Ht2, Hmap, Hx, delete_insert_eq. by apply delete_id.
Qed.

Lemma exchangeHTTP_resets p req : moves (@resets L) (exchangeHTTP p req).
Proof.
  assert (forall fuel all, moves (@resets L) (readAll fuel p all)) as Hr.
  { induction fuel as [|fuel IH]; intros all; cbn [readAll]; pose proof Read_res; go_move. }
  unfold exchangeHTTP, readHTTPResponse. pose proof Write_res. go_move.
Qed.

Lemma withTCP_leads {A} s p s1 (m : M (Stack (Logged L)) A) (Q : A -> Prop) :
  grows s s1 -> dialed s p s1 -> (exists c, st_tcp s1 !! p = Some c /\ closed c = false) -> st_udp4Conns s1 = st_udp4Conns s ->
  leads (fun a s' => shaped (shape s1) s' /\ Q a) (fun _ s' => shaped (shape s1) s') (m s1) -> moves (@resets L) m ->
  leads (fun a s' => released s s' /\ Q a) (fun _ => released s) (withTCP p m s1).
Proof.
  intros Hg Hd Hop Hudp Hm Hres. specialize (Hres s1). unfold withTCP, ignore, bind, try, lift. destruct (m s1) as [[a|e|] s2]; cbn [snd] in Hres; [| |done].
  - destruct Hm as [Hsh HQ]. destruct (close_released s p s1 s2 Hg Hd Hop Hudp Hsh Hres) as (s3 & -> & Hr). done.
  - destruct (close_released s p s1 s2 Hg Hd Hop Hudp Hm Hres) as (s3 & -> & Hr). done.
Qed.

Lemma dialHTTPConn_open u dns da db s naps p x :
  stackInv s -> dialBaseDelayOrDefault db db * 2 ^ dialAttemptsOrDefault da da <= 2 ^ 63 ->
  dialHTTPConn ParseIP u dns da db (s, naps) = (Ok p, x) -> exists c, st_tcp (fst x) !! p = Some c /\ state c = tcpEstablished /\ closed c = false.
Proof.
  intros Hs Hmax. unfold dialHTTPConn. intros (ip & [s1 naps1] & Hr & Hd)%bind_ok. eapply DialTCP4_open; [|exact Hmax|exact Hd].
  pose proof (onStack_leads (resolveHost ParseIP (url_Host u) dns) s naps (fun _ => restored s) (fun _ => restored s)) as Hl. rewrite Hr in Hl.
  apply Hl. unfold resolveHost. destruct (ParseIP (url_Host u)) as [a|]; [by destruct (To4 a)|]. destruct dns as [d|]; [by apply ResolveA_restored|done].
Qed.
End logged.

(** C22. A GET over any link, with any server, never panics and always returns; a
    response body is at most the cap of 1 MiB.  On every exit (bad URL, failed
    lookup, failed dial, write error, oversized or malformed response, success)
    the tables of UDP and TCP ports are as they were, with one exception: when a
    reset for the connection's port came in while the GET ran, that port, which
    was free before, stays taken. *)
Theorem http_get_bounded_and_clean `{Link L} (ParseIP : list byte -> option IP) (s : Stack (Logged L)) naps url dns extra da db :
  stackInv s -> dialBaseDelayOrDefault db db * 2 ^ dialAttemptsOrDefault da da <= 2 ^ 63 ->
  leads (fun r x => released s (fst x) /\ len (Body r) <= HTTPMaxResponseBytes) (fun _ x => released s (fst x))
    (HTTPGet ParseIP url dns extra da db (s, naps)).
Proof.
  intros Hs Hmax. unfold HTTPGet. unfold bind at 1, lift. pose proof (parseHTTPURL_safe url) as Hu.
  destruct (parseHTTPURL url) as [u|e|]; [|by apply restored_released|done].
  pose proof (dialHTTPConn_grows ParseIP u dns da db (s, naps)) as Hg. pose proof (dialHTTPConn_open ParseIP u dns da db s naps) as Ho.
  pose proof (dialHTTPConn_leads ParseIP u dns da db s naps Hs Hmax) as Hd. unfold bind.
  destruct (dialHTTPConn ParseIP u dns da db (s, naps)) as [[p|e|] [s1 naps1]]; cbn [fst snd leads] in *; [|by apply restored_released|done].
  destruct Hd as [Hd Hudp]. destruct (Ho p (s1, naps1) Hs Hmax eq_refl) as (c & Hc & _ & Hopen). cbn [fst] in Hc.
  apply (onStack_leads _ s1 naps1 (fun r s' => released s s' /\ len (Body r) <= HTTPMaxResponseBytes) (fun _ => released s)).
  apply withTCP_leads; [done|done|by exists c|done| |apply exchangeHTTP_resets].
  apply exchangeHTTP_leads; [cbn; by rewrite lookup_fmap, Hc|by apply shaped_self; destruct Hd].
Qed.

(** A server that accepts the connection, acknowledges the request with its
    response and a FIN, and acknowledges our FIN. *)
Definition getURL : list byte := str "http://10.0.2.2/v2/".
Definition getRequest : list byte := buildHTTPRequest (mkURL (str "10.0.2.2") 80 (str "/v2/")) [].
Definition getResponse : list byte :=
  str "HTTP/1.1 200 OK" ++ crlf ++ str "Content-Length: 2" ++ crlf ++ crlf ++ str "ok".
Definition getLink : Logged ScriptLink :=
  let ack := u32 (dialISS + 1 + len getRequest) in
  mkLogged (mkScriptLink sampleMAC
    [arpReplyFrame;
     peerFrame 5000 (u32 (dialISS + 1)) (Z.lor TCPFlagSYN TCPFlagACK) [];
     peerFrame 5001 ack (Z.lor TCPFlagACK TCPFlagFIN) getResponse;
     peerFrame (5002 + len getResponse) (u32 (ack + 1)) TCPFlagACK []] []) [].
Definition getStack : Stack (Logged ScriptLink) := snd (SetIPv4Address ipA mask24 (New getLink)).

Lemma http_get_bounded_and_clean_witness :
  exists r x, HTTPGet (fun _ => Some ipB) getURL None [] 0 0 (getStack, []) = (Ok r, x) /\
    StatusCode r = 200 /\ Body r = str "ok" /\ st_tcp4Conns (fst x) = ∅ /\ released getStack (fst x).
Proof.
  assert (stackInv getStack) as Hs by (apply (SetIPv4Address_keep ipA mask24 _), New_inv).
  pose proof (http_get_bounded_and_clean (fun _ => Some ipB) getStack [] getURL None [] 0 0 Hs
    ltac:(vm_compute; discriminate)) as Hd.
  assert (match fst (HTTPGet (fun _ => Some ipB) getURL None [] 0 0 (getStack, [])) with
          | Ok r => Some (StatusCode r, Body r) | _ => None end = Some (200, str "ok")) as He
    by (vm_compute; reflexivity).
  assert (map_to_list (st_tcp4Conns (fst (snd (HTTPGet (fun _ => Some ipB) getURL None [] 0 0 (getStack, []))))) = []) as Ht by (vm_compute; reflexivity).
  destruct (HTTPGet (fun _ => Some ipB) getURL None [] 0 0 (getStack, [])) as [[r|e|] x]; [|discriminate He|discriminate He].
  exists r, x. injection He as He1 He2. destruct Hd as [Hr _]. split; [reflexivity|]. split; [exact He1|]. split; [exact He2|].
  split; [by apply map_to_list_empty_iff|exact Hr].
Defined.
