(* ===== verification/Tls.v ===== *)
(** * TLS connections

    src/uefiboard/ministack/tls.go and ca_bundle.go, with DialTLSWithRetry of
    dial_retry.go: the dialer, its configuration and the embedded roots.
    crypto/tls and crypto/x509 are the standard library's: a handshake is a
    parameter that is given the configuration and the connection, and a pool of
    roots is what AppendCertsFromPEM makes of the bundle. *)

From S2P Require Import Prelude NetIP GoStr Effects Ethernet IPv4 Tcp Arp TcpConn Stack StackTcp StackProps Provenance Dns DialRetry Resets Http.

(** ** The roots (ca_bundle.go) *)

Definition certMarker : list byte := str "-----BEGIN CERTIFICATE-----".

(** The scan for markers from offset [i]; one that matches is skipped whole. *)
Fixpoint countFrom (fuel : nat) (pem : list byte) (n : Z) : Z :=
  match fuel with
  | O => n
  | S f =>
      if len pem <? len certMarker then n
      else if HasPrefix pem certMarker then countFrom f (drop (length certMarker) pem) (n + 1)
      else countFrom f (drop 1 pem) n
  end.
Definition countPEMCertificates (pem : list byte) : Z := countFrom (S (length pem)) pem 0.

Section tls.
Context {R : Type}.
(** x509's AppendCertsFromPEM into an empty pool; [None] when it adds nothing. *)
Variable appendCertsFromPEM : list byte -> option R.
Variable embeddedCABundlePEM : list byte.

(** The pool of the first call, which later calls share. *)
Definition NewRootCAs : out R :=
  match appendCertsFromPEM embeddedCABundlePEM with Some pool => Ok pool | None => Err ErrCABundleParse end.
(** EmbeddedRootCount after a call of NewRootCAs. *)
Definition EmbeddedRootCount : Z :=
  match appendCertsFromPEM embeddedCABundlePEM with Some _ => countPEMCertificates embeddedCABundlePEM | None => 0 end.

(** ** The configuration *)

Record tlsConfig := mkTLSConfig { cfg_ServerName : list byte; cfg_RootCAs : R; cfg_MinVersion : Z; cfg_InsecureSkipVerify : bool }.

Definition VersionTLS12 : Z := 0x0303.
Definition TLSMinVersion : Z := VersionTLS12.
(** Seconds since the Unix epoch. *)
Definition tlsClockFloorUnix : Z := 1780610400.
(** The clock of the certificate checks. *)
Definition tlsTimeFunc (now : Z) : Z := if now <? tlsClockFloorUnix then tlsClockFloorUnix else now.

Definition NewTLSConfig (serverName : list byte) : out tlsConfig :=
  ret_if bool_decide (serverName = []) with ErrTLSNoServerName;;
  let* pool := NewRootCAs in
  Ok (mkTLSConfig serverName pool TLSMinVersion false).

(** ** The dial *)

Context {L : Type} `{Link L}.
Variable ParseIP : list byte -> option IP.
(** tls.Client and Handshake over the connection. *)
Variable Handshake : tlsConfig -> nat -> M (Stack L) unit.
Variables defaultAttempts defaultBaseDelay : Z.

Record tlsConn := mkTLSConn { tc_conn : nat; tc_cfg : tlsConfig }.

Definition dialTLSOnce (host : list byte) (port : Z) (dnsServer : option IP) : M (Stack L * list Z) tlsConn :=
  throw_if bool_decide (host = []) with ErrTLSNoServerName;;
  ip <- onStack (resolveHost ParseIP host dnsServer) ;;
  tcpConn <- DialTCP4 ip port defaultAttempts defaultBaseDelay ;;
  match NewTLSConfig host with
  | Ok cfg =>
      r <- onStack (try (Handshake cfg tcpConn)) ;;
      match r with
      | inl _ => ret (mkTLSConn tcpConn cfg)
      | inr err => onStack (ignore (CloseTCP tcpConn)) ;;; throw err
      end
  | Err err => onStack (ignore (CloseTCP tcpConn)) ;;; throw err
  | Panic => lift Panic
  end.

(** DialTLS, with the sleeps between the attempts apart from those within one. *)
Definition DialTLS (host : list byte) (port : Z) (dnsServer : option IP) : M ((Stack L * list Z) * list Z) tlsConn :=
  DialTLSWithRetry (dialTLSOnce host port dnsServer) defaultAttempts defaultBaseDelay defaultAttempts defaultBaseDelay.
End tls.
Arguments tlsConfig : clear implicits. Arguments tlsConn : clear implicits.
Arguments mkTLSConfig {R}. Arguments cfg_ServerName {R}. Arguments cfg_RootCAs {R}. Arguments cfg_MinVersion {R}. Arguments cfg_InsecureSkipVerify {R}.
Arguments mkTLSConn {R}. Arguments tc_conn {R}. Arguments tc_cfg {R}.

(** ** The clock *)

(** The floor is two hours before the midnight that begins the 5th of June 2026
    in UTC (day 20609 of the epoch): that of a naive local date. *)
Lemma clock_floor_date : tlsClockFloorUnix + 2 * 3600 = 20609 * 86400.
Proof. reflexivity. Qed.
Lemma tlsTimeFunc_max now : tlsTimeFunc now = Z.max now tlsClockFloorUnix.
Proof. unfold tlsTimeFunc. destruct (Z.ltb_spec now tlsClockFloorUnix); lia. Qed.

(** ** The markers counted *)

Lemma cutStr_short sep s : (length s < length sep)%nat -> cutStr sep s = None.
Proof.
  intros Hl. destruct (cutStr sep s) as [[x y]|] eqn:E; [|done]. apply cutStr_Some in E as ->. rewrite !length_app in Hl. lia.
Qed.

Lemma marker_length : length certMarker = 27%nat.
Proof. reflexivity. Qed.

Lemma countFrom_split m pem f f' n :
  (length pem <= m)%nat -> (length pem < f)%nat -> (length pem < f')%nat ->
  countFrom f pem n = n + len (splitStrFrom f' certMarker pem) - 1.
Proof.
  revert pem f f' n. induction m as [|m IH]; intros pem [|f] [|f'] n Hm Hf Hf'; try lia; cbn [countFrom splitStrFrom].
  { destruct pem; [|cbn in Hm; lia]. change (len [] <? len certMarker) with true. change (cutStr certMarker []) with (@None (list byte * list byte)). cbv iota. rewrite len_cons, len_nil. lia. }
  destruct (Z.ltb_spec (len pem) (len certMarker)) as [Hs|Hs]; [rewrite cutStr_short by (unfold len in Hs; lia); rewrite len_cons, len_nil; lia|].
  rewrite cutStr_unfold. destruct (HasPrefix pem certMarker).
  - assert (length (drop (length certMarker) pem) < length pem)%nat as Hd by (pose proof marker_length as H27; rewrite length_drop; unfold len in Hs; lia).
    rewrite (IH _ f f' (n + 1)) by lia. rewrite len_cons. lia.
  - destruct pem as [|b r]; [by vm_compute in Hs|]. cbn [length] in *. change (drop 1 (b :: r)) with r. rewrite (IH r f (S f') n) by lia. cbn [splitStrFrom].
    destruct (cutStr certMarker r) as [[x y]|]; [by rewrite !len_cons|done].
Qed.

(** What EmbeddedRootCount reports: the markers that cutting the bundle at them
    would find. *)
Lemma countPEMCertificates_spec pem : countPEMCertificates pem = len (SplitStr pem certMarker) - 1.
Proof. unfold countPEMCertificates, SplitStr. rewrite (countFrom_split (length pem) pem (S (length pem)) (S (length pem)) 0) by lia. lia. Qed.

(** ** A dial *)

Section dial.
Context {R L : Type} `{Link L}.
Implicit Types s : Stack (Logged L).
Variable appendCertsFromPEM : list byte -> option R.
Variable bundle : list byte.
Variable ParseIP : list byte -> option IP.
Variable Handshake : tlsConfig R -> nat -> M (Stack (Logged L)) unit.
Variables da db : Z.

(** crypto/tls reaches the stack through the Read and Write of its
    connection only, which open and close no port, and by which a connection
    closes only when it is reset. *)
Hypothesis handshakes : forall sh cfg p s, is_Some (sh.1.1.2 !! p) -> shaped sh s ->
  leads (fun _ s' => shaped sh s') (fun _ s' => shaped sh s') (Handshake cfg p s).
Hypothesis handshake_resets : forall cfg p, moves (@resets L) (Handshake cfg p).
Hypothesis delays : dialBaseDelayOrDefault db db * 2 ^ dialAttemptsOrDefault da da <= 2 ^ 63.

Abbreviation dialOnce := (dialTLSOnce appendCertsFromPEM bundle ParseIP Handshake da db).

(** A connection to hand out: established, under a port that was free, and then
    taken through a handshake that succeeded and that was told to expect this host,
    with a chain to the embedded roots, TLS 1.2 at the least and no check
    skipped. *)
Definition secured (host : list byte) s (c : tlsConn R) s' : Prop :=
  stackInv s' /\ st_udp4Conns s' = st_udp4Conns s /\
  exists port s1 tcp pool,
    st_tcp4Conns s !! port = None /\ st_tcp4Conns s' = <[port := tc_conn c]> (st_tcp4Conns s) /\
    st_tcp s1 !! tc_conn c = Some tcp /\ localPort tcp = port /\ state tcp = tcpEstablished /\ closed tcp = false /\
    host <> [] /\ appendCertsFromPEM bundle = Some pool /\ tc_cfg c = mkTLSConfig host pool 0x0303 false /\
    Handshake (tc_cfg c) (tc_conn c) s1 = (Ok tt, s').

Lemma dialTLSOnce_leads host port dns s naps :
  stackInv s ->
  leads (fun c x => secured host s c (fst x)) (fun _ x => released s (fst x)) (dialOnce host port dns (s, naps)).
Proof using handshakes handshake_resets delays.
  intros Hs. unfold dialTLSOnce. case_bool_decide as Hh; [by apply restored_released|].
  set (u := mkURL host port []). pose proof (dialHTTPConn_leads ParseIP u dns da db s naps Hs delays) as Hd.
  pose proof (dialHTTPConn_grows ParseIP u dns da db (s, naps)) as Hg. pose proof (dialHTTPConn_open ParseIP u dns da db s naps) as Ho.
  unfold dialHTTPConn in Hd, Hg, Ho. cbn [url_Host url_Port u] in Hd, Hg, Ho. rewrite <- bind_assoc. unfold bind at 1.
  destruct (bind (onStack _) _ (s, naps)) as [[p|e|] [s1 naps1]]; cbn [fst snd leads] in *; [|by apply restored_released|done].
  destruct Hd as [Hdl Hudp]. destruct (Ho p (s1, naps1) Hs delays eq_refl) as (c & Hc & Hst & Hopen). cbn [fst] in Hc.
  pose proof Hdl as (Hs1 & c1 & Hc1 & _ & Hfree & _ & Hmap). assert (c1 = c) as -> by congruence.
  assert (forall s2 naps2 e, shaped (shape s1) s2 -> resets s1 s2 ->
    leads (fun c x => secured host s c (fst x)) (fun _ x => released s (fst x)) ((onStack (ignore (CloseTCP p)) ;;; throw e) (s2, naps2))) as Hclose.
  { intros s2 naps2 e Hsh Hr. destruct (close_released s p s1 s2) as (s3 & E & Hrel); [done|done|by exists c|done..|].
    unfold onStack, attempt, zoom, ignore, bind, try, throw. cbn [fst]. rewrite E. exact Hrel. }
  unfold NewTLSConfig, NewRootCAs. rewrite bool_decide_eq_false_2 by done.
  destruct (appendCertsFromPEM bundle) as [pool|] eqn:Ep; cbn [out_bind]; [|apply Hclose; [by apply shaped_self|reflexivity]].
  set (cfg := mkTLSConfig host pool TLSMinVersion false).
  assert (is_Some ((shape s1).1.1.2 !! p)) as Hp by (cbn; by rewrite lookup_fmap, Hc1).
  pose proof (handshakes (shape s1) cfg p s1 Hp (shaped_self s1 Hs1)) as Hk. pose proof (handshake_resets cfg p s1) as Hr.
  unfold bind at 1, onStack at 1, attempt, zoom, try. cbn [fst snd]. destruct (Handshake cfg p s1) as [[[]|e|] s2] eqn:Eh; cbn [snd] in Hr; [| |done].
  - destruct Hk as [Hs2 Hsh]. unfold shape in Hsh. injection Hsh as Hu2 Ht2 _ _ _ _. cbn. split; [exact Hs2|]. split; [congruence|].
    exists (localPort c), s1, c, pool. cbn [tc_conn tc_cfg]. split_and!; try done. by rewrite Ht2, Hmap.
  - by apply Hclose.
Qed.

(** What failed attempts leave: the ports that were bound, and of those that were
    free only ones for which a reset was heard. *)
Definition kept s s' : Prop :=
  stackInv s' /\ grows s s' /\ st_udp4Conns s' = st_udp4Conns s /\
  (forall port p, st_tcp4Conns s !! port = Some p -> st_tcp4Conns s' !! port = Some p) /\
  forall port, is_Some (st_tcp4Conns s' !! port) -> is_Some (st_tcp4Conns s !! port) \/ resetHeard port s s'.

Lemma kept_refl s : stackInv s -> kept s s.
Proof. intros Hs. split_and!; [done|reflexivity|done|done|]. intros port Hp. by left. Qed.
Lemma kept_released s s1 s2 : kept s s1 -> released s1 s2 -> kept s s2.
Proof.
  intros (_ & G1 & U1 & T1 & R1) (Hs2 & G2 & U2 & Ht). split; [done|]. split; [by etransitivity|]. split; [congruence|].
  assert (forall port, is_Some (st_tcp4Conns s1 !! port) -> is_Some (st_tcp4Conns s !! port) \/ resetHeard port s s2) as Hkeep.
  { intros port Hp. destruct (R1 port Hp) as [?|Hr]; [by left|right]. by apply (resetHeard_grows port s s s1 s2). }
  destruct Ht as [->|(port & p & Hfree & -> & Hr)]; [by split; [|exact Hkeep]|]. split.
  - intros q x Hq. rewrite lookup_insert_ne; [by apply T1|]. intros ->. apply T1 in Hq. congruence.
  - intros q. destruct (decide (q = port)) as [->|Hne]; [|rewrite lookup_insert_ne by done; apply Hkeep].
    intros _. right. by apply (resetHeard_grows port s s1 s2 s2).
Qed.

Lemma fails_kept host port dns k s naps s' naps' :
  stackInv s -> fails (dialOnce host port dns) k (s, naps) (s', naps') -> kept s s'.
Proof using handshakes handshake_resets delays.
  intros Hs Hf. enough (forall s0, kept s0 s -> kept s0 s') as He by by apply He, kept_refl.
  remember (s, naps) as x eqn:Ex. remember (s', naps') as x' eqn:Ex'. revert s naps Ex Hs.
  induction Hf as [x|k x e [s1 naps1] x2 E _ _ IH]; intros s naps -> Hs s0 Hk; [by injection Ex' as -> _|].
  pose proof (dialTLSOnce_leads host port dns s naps Hs) as Hl. rewrite E in Hl. cbn in Hl.
  apply (IH Ex' s1 naps1 eq_refl); [apply Hl|]. by eapply kept_released.
Qed.

(** C34. However many attempts it takes, DialTLS never panics and returns a secured
    connection or an error.  The connection is established, under a port that was
    free, and a handshake succeeded over it that was configured for this host, the
    embedded roots and TLS 1.2 at the least, with no check skipped.  Either way
    the UDP ports are as before, every TCP port that was bound still is, and a
    failed attempt leaves a port bound only if a reset for it was heard while
    DialTLS ran. *)
Theorem tls_dial_secured host port dns s naps naps2 :
  stackInv s ->
  leads (fun c x => exists s0, kept s s0 /\ secured host s0 c (fst (fst x))) (fun _ x => kept s (fst (fst x)))
    (DialTLS appendCertsFromPEM bundle ParseIP Handshake da db host port dns ((s, naps), naps2)).
Proof using handshakes handshake_resets delays.
  intros Hs. unfold DialTLS, DialTLSWithRetry, dialWithRetry. set (a := dialAttemptsOrDefault da da) in *. set (b := dialBaseDelayOrDefault db db) in *.
  assert (0 < a) as Ha by (unfold a, dialAttemptsOrDefault, DefaultDialAttemptsFallback; blia; lia).
  assert (0 < b) as Hb by (unfold b, dialBaseDelayOrDefault, DefaultDialBaseDelayFallback; blia; lia).
  destruct (retryFrom_spec (dialOnce host port dns) (Z.to_nat a) a b naps2 (s, naps)) as (k & [s' naps'] & _ & Hf & Hr);
    [lia|lia|by rewrite Z2Nat.id by lia|].
  pose proof (fails_kept _ _ _ _ _ _ _ _ Hs Hf) as Hk.
  pose proof (dialTLSOnce_leads host port dns s' naps' (proj1 Hk)) as Hl. cbv zeta in Hr. revert Hr Hl.
  generalize (retryFrom (Z.to_nat a) a b (dialOnce host port dns) (s, naps, naps2)). intros r Hr Hl.
  destruct (dialOnce host port dns (s', naps')) as [[c|e|] [s'' naps'']]; [| |done].
  - rewrite Hr. cbn in *. by exists s'.
  - assert (exists e', r = (Err e', (s'', naps'', naps2 ++ backoff k b))) as [e' ->].
    { destruct (isRetryableDialError e); [destruct Hr as [_ ->]|rewrite Hr]; by eexists. }
    cbn in *. by eapply kept_released.
Qed.
End dial.

(** A server that takes the greeting and answers in the same stream; the handshake here is one
    exchange of bytes. *)
Definition toyHandshake `{Link L} (cfg : tlsConfig (list byte)) (p : nat) : M (Stack L) unit :=
  w <- Write p (cfg_ServerName cfg) ;;
  match snd w with Some e => throw e | None => Read p 16 ;;; ret tt end.
Lemma toyHandshake_ok `{Link L} sh cfg p (s : Stack L) :
  is_Some (sh.1.1.2 !! p) -> shaped sh s -> leads (fun _ s' => shaped sh s') (fun _ s' => shaped sh s') (toyHandshake cfg p s).
Proof.
  intros Hp Hs. unfold toyHandshake. eapply leads_bind; [by apply Write_leads|]. intros [n [e|]] s1 Hs1; [done|]. cbn [snd].
  eapply leads_bind; [apply (Read_leads sh p 16); [lia|done|done]|]. by intros b s2 [Hs2 _].
Qed.

Lemma toyHandshake_resets {L} `{Link L} cfg p : moves (@resets L) (toyHandshake cfg p).
Proof. unfold toyHandshake. pose proof Write_res. pose proof Read_res. go_move. Qed.

Definition tlsResponse : list byte := str "hello".
Definition tlsLink : Logged ScriptLink :=
  let ack := u32 (dialISS + 1 + 8) in
  mkLogged (mkScriptLink sampleMAC
    [arpReplyFrame; peerFrame 5000 (u32 (dialISS + 1)) (Z.lor TCPFlagSYN TCPFlagACK) []; peerFrame 5001 ack TCPFlagACK tlsResponse] []) [].
Definition tlsStack : Stack (Logged ScriptLink) := snd (SetIPv4Address ipA mask24 (New tlsLink)).
Abbreviation tlsRun := (DialTLS Some [x01] (fun _ => Some ipB) toyHandshake 0 0 (str "10.0.2.2") 80 None ((tlsStack, []), [])).
Example tlsRun_ok : (match fst tlsRun with Ok c => Some (cfg_ServerName (tc_cfg c)) | _ => None end) = Some (str "10.0.2.2").
Proof. vm_compute. reflexivity. Qed.

Lemma tls_dial_secured_witness :
  exists c x s0, tlsRun = (Ok c, x) /\ kept tlsStack s0 /\ secured Some [x01] toyHandshake (str "10.0.2.2") s0 c (fst (fst x)).
Proof.
  assert (stackInv tlsStack) as Hs by (apply (SetIPv4Address_keep ipA mask24 _), New_inv).
  pose proof (tls_dial_secured Some [x01] (fun _ => Some ipB) toyHandshake 0 0 toyHandshake_ok toyHandshake_resets ltac:(vm_compute; discriminate) (str "10.0.2.2") 80 None tlsStack [] [] Hs) as Hd.
  pose proof tlsRun_ok as E. revert E Hd. generalize tlsRun. intros [[c|e|] x] E Hd; [|discriminate E|discriminate E].
  destruct Hd as (s0 & Hk & Hsec). by exists c, x, s0.
Defined.
