(* ===== verification/HttpStream.v ===== *)
(** * HTTP/1.1 client, streaming (uefiboard/ministack/http.go)

    The line reader, the three body copiers and the streaming response parser,
    over any reader and any writer, and the fact that a chunked body arrives
    intact however the transport cuts it. *)

From S2P Require Import Prelude NetIP Effects Ethernet IPv4 Tcp Arp TcpConn Stack StackTcp GoStr Dns DialRetry Http.

Definition HTTPLineMaxBytes : Z := 8192.
Definition streamReadBufBytes : Z := 8192.
Definition lf : byte := x0a.
Definition cr : byte := x0d.

(** io.Reader: the bytes read, and the error that came with them. *)
Class Reader (R : Type) := { rdRead : nat -> M R (list byte * option error) }.
(** io.Writer: the count written and the error. *)
Class Writer (W : Type) := { wrWrite : list byte -> M W (Z * option error) }.

(** ** The line reader *)

(** [lr_buf] is [buf[pos:end]]: every fill first moves it to the front of the
    array, so the positions themselves do not matter. *)
Record lineReader (R : Type) := mkLineReader { lr_r : R; lr_buf : list byte }.
Arguments mkLineReader {R}. Arguments lr_r {R}. Arguments lr_buf {R}.

Definition newLineReader {R} (r : R) : lineReader R := mkLineReader r [].

(** A line without its carriage return. *)
Definition stripCR (line : list byte) : list byte :=
  match rev line with
  | c :: r => if decide (c = cr) then rev r else line
  | [] => line
  end.

Section reader.
Context {R : Type} `{Reader R}.
Abbreviation LrM A := (M (lineReader R) A).

Definition onReader {A} (m : M R A) : LrM A := zoom lr_r (fun r lr => mkLineReader r (lr_buf lr)) m.
Definition setBuf (b : list byte) : LrM unit := modify (fun lr => mkLineReader (lr_r lr) b).

Definition fill : LrM (option error) :=
  buf <- gets lr_buf ;;
  if len buf =? streamReadBufBytes then ret (Some ErrHTTPLineTooLong)
  else
    r <- onReader (rdRead (Z.to_nat (streamReadBufBytes - len buf))) ;;
    setBuf (buf ++ fst r) ;;;
    ret (snd r).

Fixpoint readLine (fuel : nat) (acc : list byte) : LrM (list byte) :=
  match fuel with
  | O => throw (ErrOther 0)
  | S f =>
      buf <- gets lr_buf ;;
      match cutByte lf buf with
      | Some (line, rest) =>
          let line := acc ++ stripCR line in
          setBuf rest ;;;
          throw_if HTTPLineMaxBytes <? len line with ErrHTTPLineTooLong;;
          ret line
      | None =>
          let acc := acc ++ buf in
          throw_if HTTPLineMaxBytes <? len acc with ErrHTTPLineTooLong;;
          setBuf [] ;;;
          err <- fill ;;
          match err with
          | None => readLine f acc
          | Some e =>
              buf <- gets lr_buf ;;
              if 0 <? len buf then readLine f acc else throw e
          end
      end
  end.

(** The line cap bounds the iterations of a reader that returns at least a byte
    or an error. *)
Definition ReadLine : LrM (list byte) := readLine (Z.to_nat HTTPLineMaxBytes + 3) [].

Definition lrRead (n : nat) : LrM (list byte * option error) :=
  buf <- gets lr_buf ;;
  if 0 <? len buf then setBuf (drop n buf) ;;; ret (take n buf, None)
  else onReader (rdRead n).
End reader.

(** ** The body copiers *)

Section stream.
Context {R W : Type} `{Reader R} `{Writer W}.
Abbreviation StreamM A := (M (lineReader R * W) A).

Definition onLR {A} (m : M (lineReader R) A) : StreamM A := zoom fst (fun l s => (l, snd s)) m.

(** [dst.Write(b)]; io.Discard takes everything. *)
Definition sinkWrite (discard : bool) (b : list byte) : StreamM (Z * option error) :=
  if discard then ret (len b, None) else zoom snd (fun w s => (fst s, w)) (wrWrite b).

Definition isEOF (e : error) : bool := bool_decide (e = ErrTCP4PeerClosed) || bool_decide (e = ErrEOF).

Definition wantOf (left : Z) : nat := Z.to_nat (if streamReadBufBytes <? left then streamReadBufBytes else left).

Fixpoint streamBoundedFrom (fuel : nat) (discard : bool) (total written : Z) : StreamM (Z * option error) :=
  if total <=? written then ret (written, None) else
  match fuel with
  | O => throw (ErrOther 0)
  | S f =>
      r <- onLR (lrRead (wantOf (total - written))) ;;
      wr <- (if 0 <? len (fst r) then sinkWrite discard (fst r) else ret (0, None)) ;;
      let written := written + fst wr in
      match snd wr with
      | Some werr => ret (written, Some werr)
      | None =>
          match snd r with
          | None => streamBoundedFrom f discard total written
          | Some err =>
              if isEOF err then ret (written, if written <? total then Some ErrUnexpectedEOF else None)
              else ret (written, Some err)
          end
      end
  end.
Definition streamBoundedBody (fuel : nat) (discard : bool) (total : Z) : StreamM (Z * option error) :=
  streamBoundedFrom fuel discard total 0.

Fixpoint streamIdentityFrom (fuel : nat) (discard : bool) (written : Z) : StreamM (Z * option error) :=
  match fuel with
  | O => throw (ErrOther 0)
  | S f =>
      r <- onLR (lrRead (Z.to_nat streamReadBufBytes)) ;;
      wr <- (if 0 <? len (fst r) then sinkWrite discard (fst r) else ret (0, None)) ;;
      let written := written + fst wr in
      match snd wr with
      | Some werr => ret (written, Some werr)
      | None =>
          match snd r with
          | None => streamIdentityFrom f discard written
          | Some err => if isEOF err then ret (written, None) else ret (written, Some err)
          end
      end
  end.
Definition streamIdentityBody (fuel : nat) (discard : bool) : StreamM (Z * option error) :=
  streamIdentityFrom fuel discard 0.

(** The trailer block: lines up to an empty one or an error. *)
Fixpoint dropTrailer (fuel : nat) : StreamM unit :=
  match fuel with
  | O => throw (ErrOther 0)
  | S f =>
      tl <- try (onLR ReadLine) ;;
      match tl with
      | inr _ | inl [] => ret tt
      | inl _ => dropTrailer f
      end
  end.

(** The data of one chunk. *)
Fixpoint chunkData (fuel : nat) (discard : bool) (remaining written : Z) : StreamM (Z * option error) :=
  if remaining <=? 0 then ret (written, None) else
  match fuel with
  | O => throw (ErrOther 0)
  | S f =>
      r <- onLR (lrRead (wantOf remaining)) ;;
      wr <- (if 0 <? len (fst r) then sinkWrite discard (fst r) else ret (0, None)) ;;
      let written := written + fst wr in
      let remaining := remaining - len (fst r) in
      match snd wr with
      | Some werr => ret (written, Some werr)
      | None =>
          match snd r with
          | None => chunkData f discard remaining written
          | Some rerr => ret (written, Some (if isEOF rerr then ErrHTTPBadChunk else rerr))
          end
      end
  end.

Fixpoint streamChunkedFrom (fuel : nat) (discard : bool) (written : Z) : StreamM (Z * option error) :=
  match fuel with
  | O => throw (ErrOther 0)
  | S f =>
      sl <- try (onLR ReadLine) ;;
      match sl with
      | inr err => ret (written, Some err)
      | inl line =>
          line <- lift (stripExt line) ;;
          match ParseUint (TrimSpace line) 16 64 with
          | None => ret (written, Some ErrHTTPBadChunk)
          | Some size =>
              if size =? 0 then dropTrailer fuel ;;; ret (written, None)
              else
                d <- chunkData fuel discard (s64 size) written ;;
                match snd d with
                | Some e => ret d
                | None =>
                    e <- try (onLR ReadLine) ;;
                    match e with
                    | inr err => ret (fst d, Some err)
                    | inl _ => streamChunkedFrom f discard (fst d)
                    end
                end
          end
      end
  end.
Definition streamChunkedBody (fuel : nat) (discard : bool) : StreamM (Z * option error) :=
  streamChunkedFrom fuel discard 0.

(** ** The response *)

Record streamHead := mkHead { sh_headers : httpHeaders; sh_contentLength : Z; sh_chunked : bool }.

(** One header line. *)
Definition headLine (h : streamHead) (line : list byte) : out streamHead :=
  let i := IndexByte line colon in
  ret_if i <? 0 with ErrHTTPBadHeader;;
  let* name := sliceTo line i in
  let* value := sliceFrom line (i + 1) in
  let k := ToLower (TrimSpace name) in
  let v := TrimSpace value in
  if bool_decide (k = str "content-length") then
    match Atoi v with
    | None => Err ErrHTTPBadHeader
    | Some n =>
        ret_if n <? 0 with ErrHTTPBadHeader;;
        Ok (mkHead (<[k := v]> (sh_headers h)) n (sh_chunked h))
    end
  else if bool_decide (k = str "transfer-encoding") then
    Ok (mkHead (<[k := v]> (sh_headers h)) (sh_contentLength h) (sh_chunked h || EqualFold v (str "chunked")))
  else if bool_decide (k = str "content-type") || bool_decide (k = str "location") then
    Ok (mkHead (<[k := v]> (sh_headers h)) (sh_contentLength h) (sh_chunked h))
  else Ok h.

Fixpoint headLoop (fuel : nat) (h : streamHead) : StreamM streamHead :=
  match fuel with
  | O => throw (ErrOther 0)
  | S f =>
      line <- onLR ReadLine ;;
      match line with
      | [] => ret h
      | _ => h <- lift (headLine h line) ;; headLoop f h
      end
  end.

Record streamResult := mkStreamResult {
  sr_status : Z; sr_written : Z; sr_headers : httpHeaders; sr_err : option error
}.

Definition streamHTTPResponseHeaders (fuel : nat) : StreamM streamResult :=
  statusLine <- onLR ReadLine ;;
  match SplitN x20 statusLine 3 with
  | proto :: code :: _ =>
      throw_if negb (HasPrefix proto (str "HTTP/")) with ErrHTTPBadStatusLine;;
      match Atoi code with
      | None => throw ErrHTTPBadStatusLine
      | Some status =>
          h <- headLoop fuel (mkHead ∅ (-1) false) ;;
          let redirect := (300 <=? status) && (status <? 400) in
          w <- (if sh_chunked h then streamChunkedBody fuel redirect
                else if 0 <=? sh_contentLength h then streamBoundedBody fuel redirect (sh_contentLength h)
                else streamIdentityBody fuel redirect) ;;
          ret (mkStreamResult status (if redirect then 0 else fst w) (sh_headers h) (snd w))
      end
  | _ => throw ErrHTTPBadStatusLine
  end.
End stream.

(** ** A transport that cuts the stream anywhere *)

(** The segments still to come, and the error after the last one. *)
Record segReader := mkSegReader { sg_segs : list (list byte); sg_fin : error }.

#[global] Instance seg_reader : Reader segReader := {
  rdRead n r :=
    match sg_segs r with
    | [] => (Ok ([], Some (sg_fin r)), r)
    | s :: segs =>
        (Ok (take n s, None),
         mkSegReader (match drop n s with [] => segs | s' => s' :: segs end) (sg_fin r))
    end
}.

(** A buffer that takes everything. *)
#[global] Instance append_writer : Writer (list byte) := {
  wrWrite b w := (Ok (len b, None), w ++ b)
}.

(** The bytes still to be read. *)
Definition content (lr : lineReader segReader) : list byte := lr_buf lr ++ concat (sg_segs (lr_r lr)).
Definition segsOk (lr : lineReader segReader) : Prop := Forall (fun s => s <> []) (sg_segs (lr_r lr)).
Definition finOf (lr : lineReader segReader) : error := sg_fin (lr_r lr).

(** One read of the underlying transport. *)
Lemma rdRead_spec n r :
  (0 < n)%nat -> Forall (fun s => s <> []) (sg_segs r) ->
  exists b r', Forall (fun s => s <> []) (sg_segs r') /\ sg_fin r' = sg_fin r /\ (length b <= n)%nat /\
    concat (sg_segs r) = b ++ concat (sg_segs r') /\
    ((sg_segs r = [] /\ b = [] /\ rdRead n r = (Ok ([], Some (sg_fin r)), r')) \/
     (b <> [] /\ rdRead n r = (Ok (b, None), r'))).
Proof.
  intros Hn Hs. destruct r as [[|s segs] fin]; cbn [sg_segs sg_fin rdRead seg_reader] in *.
  - exists [], (mkSegReader [] fin). cbn. split_and!; try done; [lia|]. by left.
  - apply Forall_cons in Hs as [Hne Hs]. exists (take n s).
    exists (mkSegReader (match drop n s with [] => segs | s' => s' :: segs end) fin). cbn [sg_segs sg_fin].
    split_and!; [destruct (drop n s) eqn:E; [done|by constructor]|done|rewrite length_take; lia| |].
    + cbn [concat]. rewrite <- (take_drop n s) at 1. rewrite <- app_assoc. f_equal.
      destruct (drop n s); done.
    + right. split; [|done]. destruct s; [done|]. destruct n; [lia|done].
Qed.

(** Reading: what is returned is the front of the stream; nothing comes back
    only at its end. *)
Lemma lrRead_spec n lr :
  (0 < n)%nat -> segsOk lr ->
  exists b lr', segsOk lr' /\ finOf lr' = finOf lr /\ (length b <= n)%nat /\ content lr = b ++ content lr' /\
    ((content lr = [] /\ lrRead n lr = (Ok ([], Some (finOf lr)), lr')) \/
     (b <> [] /\ lrRead n lr = (Ok (b, None), lr'))).
Proof.
  intros Hn Hs. unfold lrRead, setBuf. mrun. destruct lr as [r buf]. unfold content, segsOk, finOf in *. cbn [lr_buf lr_r] in *.
  destruct buf as [|c buf].
  - destruct (rdRead_spec n r Hn Hs) as (b & r' & Hs' & Hf & Hl & Hc & Hr). exists b, (mkLineReader r' []).
    cbn [lr_buf lr_r app]. split_and!; try done. unfold onReader, zoom. change (0 <? len (@nil byte)) with false. cbv iota. cbn [lr_r lr_buf].
    destruct Hr as [(E & -> & ->)|[Hne ->]]; [left|right; done]. by rewrite E.
  - exists (take n (c :: buf)), (mkLineReader r (drop n (c :: buf))). cbn [lr_buf lr_r].
    rewrite (proj2 (Z.ltb_lt _ _)) by len_lia.
    split_and!; try done; [rewrite length_take; lia| |].
    + rewrite app_assoc. f_equal. by rewrite take_drop.
    + right. split; [|done]. destruct n; [lia|done].
Qed.

Lemma stripCR_app x y : y <> [] -> stripCR (x ++ y) = x ++ stripCR y.
Proof.
  intros Hy. destruct (exists_last Hy) as (y' & c & ->). unfold stripCR.
  rewrite app_assoc, !rev_app_distr. cbn [rev app]. destruct (decide (c = cr)); [|by rewrite <- app_assoc].
  by rewrite rev_app_distr, !rev_involutive.
Qed.

Lemma stripCR_len raw : len (stripCR raw) <= len raw.
Proof.
  unfold stripCR. destruct (rev raw) as [|c t] eqn:E; [lia|]. destruct (decide _); [|lia].
  apply (f_equal (@rev byte)) in E. rewrite rev_involutive in E. subst raw. unfold len. rewrite !length_rev. cbn. lia.
Qed.

(** The first line feed of a stream. *)
Lemma cut_unique line rest' raw rest :
  line ++ lf :: rest' = raw ++ lf :: rest -> lf ∉ line -> lf ∉ raw -> line = raw /\ rest' = rest.
Proof.
  revert raw. induction line as [|c line IH]; intros [|d raw] Hc Hl Hr; cbn in Hc.
  - by injection Hc.
  - injection Hc as <- _. exfalso. apply Hr. by left.
  - injection Hc as -> _. exfalso. apply Hl. by left.
  - injection Hc as -> Hc. rewrite not_elem_of_cons in *. destruct (IH raw Hc (proj2 Hl) (proj2 Hr)) as [-> ->]. done.
Qed.
Lemma cut_later buf segs raw rest :
  buf ++ segs = raw ++ lf :: rest -> lf ∉ buf -> exists raw', raw = buf ++ raw' /\ segs = raw' ++ lf :: rest.
Proof.
  revert raw. induction buf as [|c buf IH]; intros raw Hc Hb; [by exists raw|].
  rewrite not_elem_of_cons in Hb. destruct raw as [|d raw]; cbn in Hc; injection Hc as Ec Hc; [exfalso; by apply (proj1 Hb)|].
  destruct (IH raw Hc (proj2 Hb)) as (raw' & -> & E). exists raw'. by rewrite Ec.
Qed.

(** A round without a line feed in the buffer: the buffer is set aside and the
    next segment takes its place. *)
Lemma readLine_refill f acc r buf :
  Forall (fun s => s <> []) (sg_segs r) -> lf ∉ buf -> len (acc ++ buf) <= HTTPLineMaxBytes ->
  (sg_segs r = [] /\ readLine (S f) acc (mkLineReader r buf) = (Err (sg_fin r), mkLineReader r [])) \/
  (exists b r', b <> [] /\ Forall (fun s => s <> []) (sg_segs r') /\ sg_fin r' = sg_fin r /\
     concat (sg_segs r) = b ++ concat (sg_segs r') /\
     readLine (S f) acc (mkLineReader r buf) = readLine f (acc ++ buf) (mkLineReader r' b)).
Proof.
  intros Hs Hb Hcap.
  assert (readLine (S f) acc (mkLineReader r buf) =
    match rdRead (Z.to_nat streamReadBufBytes) r with
    | (Ok (b, None), r') => readLine f (acc ++ buf) (mkLineReader r' b)
    | (Ok (b, Some e), r') => if 0 <? len b then readLine f (acc ++ buf) (mkLineReader r' b) else (Err e, mkLineReader r' b)
    | (Err e, r') => (Err e, mkLineReader r' [])
    | (Panic, r') => (Panic, mkLineReader r' [])
    end) as ->.
  { cbn [readLine]. unfold bind at 1, gets at 1. cbn [lr_buf]. rewrite cutByte_none by done.
    rewrite (proj2 (Z.ltb_ge _ _)) by done. unfold fill, setBuf, onReader. mrun. cbn [lr_buf lr_r].
    change (len [] =? streamReadBufBytes) with false. cbv iota. unfold zoom. cbn [lr_r lr_buf].
    change (streamReadBufBytes - len (@nil byte)) with streamReadBufBytes.
    destruct (rdRead _ r) as [[[b [e|]]|e|] r']; [|done|done|done]. cbn [fst snd app lr_buf]. by destruct (0 <? len b). }
  destruct (rdRead_spec (Z.to_nat streamReadBufBytes) r) as (b & r' & Hs' & Hfin & _ & Hcat & Hr); [vm_compute; lia|done|].
  destruct Hr as [(E & -> & Er)|[Hne ->]].
  - left. split; [done|]. assert (r' = r) as -> by (cbn in Er; rewrite E in Er; by injection Er).
    by rewrite Er.
  - right. exists b, r'. by split_and!.
Qed.

(** A line that is within the cap is found wherever the cuts are.  The carriage
    return in front of the line feed is dropped unless a cut separates them. *)
Lemma readLine_spec fuel acc lr raw rest :
  segsOk lr -> content lr = raw ++ lf :: rest -> lf ∉ raw -> len acc + len raw <= HTTPLineMaxBytes ->
  (length raw + (if decide (lr_buf lr = []) then 2 else 1) <= fuel)%nat ->
  exists line lr', readLine fuel acc lr = (Ok line, lr') /\ segsOk lr' /\ finOf lr' = finOf lr /\ content lr' = rest /\
    (line = acc ++ raw \/ line = acc ++ stripCR raw).
Proof.
  revert acc lr raw. induction fuel as [|f IH]; intros acc lr raw Hs Hc Hraw Hcap Hf; [case_decide; lia|].
  destruct lr as [r buf]. unfold content, segsOk, finOf in *. cbn [lr_buf lr_r] in *.
  destruct (cutByte lf buf) as [[line rest']|] eqn:Ecut.
  - cbn [readLine]. unfold bind at 1, gets. cbn [lr_buf]. rewrite Ecut.
    apply cutByte_Some in Ecut as [-> Hline]. rewrite <- app_assoc in Hc. cbn [app] in Hc.
    destruct (cut_unique _ _ _ _ Hc Hline Hraw) as [-> Hrest].
    eexists _, (mkLineReader r rest'). unfold setBuf. mrun. cbn [lr_r lr_buf].
    rewrite (proj2 (Z.ltb_ge _ _)) by (pose proof (stripCR_len raw); len_lia). split_and!; try done. by right.
  - apply cutByte_None in Ecut. destruct (cut_later _ _ _ _ Hc Ecut) as (raw' & -> & Hseg).
    rewrite not_elem_of_app in Hraw. destruct Hraw as [_ Hraw'].
    destruct (readLine_refill f acc r buf Hs Ecut ltac:(len_lia)) as [[E _]|(b & r' & Hne & Hs' & Hfin & Hcat & ->)].
    { rewrite E in Hseg. by destruct raw'. }
    destruct (IH (acc ++ buf) (mkLineReader r' b) raw') as (line & lr' & E & Hs2 & Hf2 & Hc2 & Hor); cbn [lr_r lr_buf];
      [done|by rewrite <- Hcat|done|len_lia| |].
    { rewrite decide_False by done. rewrite length_app in Hf. case_decide as Hb; [lia|].
      destruct buf; [done|cbn in Hf; lia]. }
    exists line, lr'. split; [done|]. split; [done|]. split; [etrans; [exact Hf2|exact Hfin]|]. split; [done|].
    destruct Hor as [->| ->]; [left; by rewrite <- app_assoc|]. rewrite <- app_assoc.
    destruct (decide (raw' = [])) as [->|Hne']; [by left|right]. by rewrite stripCR_app.
Qed.

(** ** Bodies arrive intact *)

Lemma ReadLine_spec lr raw rest :
  segsOk lr -> content lr = raw ++ cr :: lf :: rest -> lf ∉ raw -> len raw < HTTPLineMaxBytes ->
  exists line lr', ReadLine lr = (Ok line, lr') /\ segsOk lr' /\ finOf lr' = finOf lr /\ content lr' = rest /\
    (line = raw ++ [cr] \/ line = raw).
Proof.
  intros Hs Hc Hraw Hl. destruct (readLine_spec (Z.to_nat HTTPLineMaxBytes + 3) [] lr (raw ++ [cr]) rest)
    as (line & lr' & E & Hs' & Hf & Hc' & Hor).
  - done.
  - by rewrite Hc, <- app_assoc.
  - rewrite elem_of_app. intros [?|E]; [done|]. apply list_elem_of_singleton in E. discriminate E.
  - len_lia.
  - rewrite length_app. cbn [length]. unfold len in Hl. case_decide; lia.
  - exists line, lr'. split_and!; try done. cbn [app] in Hor.
    destruct Hor as [->| ->]; [by left|right]. rewrite stripCR_app by done. apply app_nil_r.
Qed.

Lemma wantOf_range left : 0 < left -> (0 < wantOf left)%nat /\ Z.of_nat (wantOf left) <= left.
Proof. intros Hl. unfold wantOf, streamReadBufBytes. destruct (Z.ltb_spec 8192 left); lia. Qed.

Abbreviation SegM A := (M (lineReader segReader * list byte) A).

(** One read of the body and its write, as the copiers do it. *)
Lemma onLR_read n lr (w : list byte) :
  (0 < n)%nat -> segsOk lr ->
  exists b lr', segsOk lr' /\ finOf lr' = finOf lr /\ (length b <= n)%nat /\ content lr = b ++ content lr' /\
    ((content lr = [] /\ onLR (lrRead n) (lr, w) = (Ok ([], Some (finOf lr)), (lr', w))) \/
     (b <> [] /\ onLR (lrRead n) (lr, w) = (Ok (b, None), (lr', w)))).
Proof.
  intros Hn Hs. destruct (lrRead_spec n lr Hn Hs) as (b & lr' & Hs' & Hf & Hl & Hc & Hr).
  exists b, lr'. split_and!; try done. unfold onLR, zoom. cbn [fst snd].
  destruct Hr as [[? ->]|[? ->]]; [by left|by right].
Qed.

Lemma sinkWrite_append b (lr : lineReader segReader) (w : list byte) :
  sinkWrite false b (lr, w) = (Ok (len b, None), (lr, w ++ b)).
Proof. done. Qed.

Lemma streamBoundedFrom_spec fuel total written lr w :
  segsOk lr -> isEOF (finOf lr) = true -> written <= total -> (length (content lr) < fuel)%nat ->
  exists lr', let k := Z.min (total - written) (len (content lr)) in
    streamBoundedFrom fuel false total written (lr, w)
    = (Ok (written + k, if k <? total - written then Some ErrUnexpectedEOF else None),
       (lr', w ++ take (Z.to_nat k) (content lr))) /\
    content lr' = drop (Z.to_nat k) (content lr).
Proof.
  revert written lr w. induction fuel as [|f IH]; intros written lr w Hs Hfin Hw Hf; [lia|]. cbn [streamBoundedFrom].
  pose proof (len_nonneg (content lr)). destruct (Z.leb_spec total written).
  { exists lr. replace (total - written) with 0 by lia. rewrite Z.min_l by lia. cbn. rewrite app_nil_r, Z.add_0_r. done. }
  destruct (wantOf_range (total - written) ltac:(lia)) as [Hn Hwant].
  destruct (onLR_read (wantOf (total - written)) lr w Hn Hs) as (b & lr1 & Hs1 & Hf1 & Hl & Hc & Hr).
  destruct Hr as [[E Er]|[Hne Er]]; unfold bind at 1; rewrite Er; unfold bind at 1; cbn [fst snd].
  - exists lr1. change (0 <? len (@nil byte)) with false. cbv iota. unfold ret at 1. cbn [fst snd]. rewrite Hfin.
    rewrite E in *. destruct b; [|done]. cbn [app] in Hc. change (len (@nil byte)) with 0 in *.
    rewrite Z.min_r, !Z.add_0_r, (proj2 (Z.ltb_lt _ _)), (proj2 (Z.ltb_lt 0 _)) by lia.
    cbn. by rewrite app_nil_r.
  - rewrite (proj2 (Z.ltb_lt _ _)) by (destruct b; [done|len_lia]).
    rewrite sinkWrite_append. cbn [fst snd].
    rewrite Hc in *. rewrite length_app in Hf. assert (0 < length b)%nat by (destruct b; [done|cbn; lia]).
    destruct (IH (written + len b) lr1 (w ++ b)) as (lr' & Er' & Hc'); [done|by rewrite Hf1|unfold len; lia|lia|].
    exists lr'. rewrite Er'. rewrite len_app.
    replace (Z.min (total - written) (len b + len (content lr1)))
      with (len b + Z.min (total - (written + len b)) (len (content lr1))) by (unfold len in *; lia).
    set (k := Z.min (total - (written + len b)) _) in *. assert (0 <= k) by (unfold k, len in *; lia).
    assert (Z.to_nat (len b + k) = length b + Z.to_nat k)%nat as Hk by (unfold len; lia).
    rewrite Hk, take_app_add, drop_app_add. rewrite <- app_assoc. split; [|done].
    f_equal. f_equal. f_equal; [lia|]. replace (len b + k <? total - written) with (k <? total - (written + len b)) by lia. done.
Qed.

(** A body with a Content-Length, however the transport cuts it: exactly the
    announced bytes are written and the rest of the stream is left; when the
    stream ends early everything that came is written and the copier reports
    an unexpected end. *)
Theorem http_bounded_body_any_cut fuel total lr w :
  segsOk lr -> isEOF (finOf lr) = true -> 0 <= total -> (length (content lr) < fuel)%nat ->
  exists lr',
    streamBoundedBody fuel false total (lr, w)
    = (Ok (Z.min total (len (content lr)), if len (content lr) <? total then Some ErrUnexpectedEOF else None),
       (lr', w ++ take (Z.to_nat total) (content lr))) /\
    content lr' = drop (Z.to_nat total) (content lr).
Proof.
  intros Hs Hfin Ht Hf. destruct (streamBoundedFrom_spec fuel total 0 lr w Hs Hfin Ht Hf) as (lr' & E & Hc).
  exists lr'. unfold streamBoundedBody. rewrite E. clear E. rewrite Z.sub_0_r, Z.add_0_l in *.
  pose proof (len_nonneg (content lr)) as Hl. destruct (Z.le_gt_cases total (len (content lr))) as [Hle|Hgt].
  - rewrite Z.min_l in * by lia. rewrite Z.ltb_irrefl, (proj2 (Z.ltb_ge _ _)) by lia. done.
  - rewrite Z.min_r in * by lia. rewrite (proj2 (Z.ltb_lt _ _)) by lia.
    rewrite !take_ge, !drop_ge in * by (unfold len in *; lia). done.
Qed.

Lemma http_bounded_body_any_cut_witness :
  let lr := mkLineReader (mkSegReader [str "lo wor"; str "ld"] ErrEOF) (str "hel") in
  exists lr', streamBoundedBody 20 false 5 (lr, []) = (Ok (5, None), (lr', str "hello")) /\ content lr' = str " world".
Proof.
  intros lr. apply (http_bounded_body_any_cut 20 5 lr []).
  - by repeat constructor.
  - reflexivity.
  - discriminate.
  - cbn. lia.
Defined.

(** *** Chunks *)

Lemma chunkData_spec fuel data rest written lr w :
  segsOk lr -> content lr = data ++ rest -> (length data < fuel)%nat ->
  exists lr', chunkData fuel false (len data) written (lr, w) = (Ok (written + len data, None), (lr', w ++ data)) /\
    segsOk lr' /\ content lr' = rest /\ finOf lr' = finOf lr.
Proof.
  revert data written lr w. induction fuel as [|f IH]; intros data written lr w Hs Hc Hf; [lia|]. cbn [chunkData].
  destruct (Z.leb_spec (len data) 0) as [H0|H0].
  { assert (data = []) as -> by (apply list_len_0; pose_lens; lia). exists lr. rewrite app_nil_r, Z.add_0_r. done. }
  destruct (wantOf_range (len data) H0) as [Hn Hwant].
  destruct (onLR_read (wantOf (len data)) lr w Hn Hs) as (b & lr1 & Hs1 & Hf1 & Hl & Hcb & Hr).
  destruct Hr as [[E _]|[Hne Er]]; [rewrite E in Hc; destruct data; done|]. unfold bind at 1. rewrite Er. unfold bind at 1.
  cbn [fst snd]. rewrite (proj2 (Z.ltb_lt _ _)) by (destruct b; [done|len_lia]). rewrite sinkWrite_append. cbn [fst snd].
  assert (exists d', data = b ++ d' /\ content lr1 = d' ++ rest) as (d' & -> & Hc1).
  { rewrite Hcb in Hc. apply app_eq_app in Hc as (l & [[-> ->]|[-> Hl2]]).
    - assert (l = []) as ->. { apply list_len_0. unfold len in *. rewrite length_app in *. lia. }
      exists []. by rewrite !app_nil_r.
    - by exists l. }
  rewrite length_app in Hf. assert (0 < length b)%nat by (destruct b; [done|cbn; lia]).
  replace (len (b ++ d') - len b) with (len d') by len_lia.
  destruct (IH d' (written + len b) lr1 (w ++ b)) as (lr' & -> & ? & ? & ?); [done|done|lia|].
  exists lr'. rewrite <- app_assoc. split_and!; try done; [|congruence]. do 3 f_equal. len_lia.
Qed.

(** Reading lines makes progress or fails. *)
Lemma readLine_total fuel acc lr :
  segsOk lr -> exists r lr', readLine fuel acc lr = (r, lr') /\ r <> Panic /\ segsOk lr' /\
    (forall l, r = Ok l -> (length (content lr') < length (content lr))%nat).
Proof.
  revert acc lr. induction fuel as [|f IH]; intros acc lr Hs; [by exists (Err (ErrOther 0)), lr|].
  destruct lr as [r buf]. unfold segsOk, content in *. cbn [lr_r lr_buf] in *.
  destruct (cutByte lf buf) as [[line rest]|] eqn:Ecut.
  - cbn [readLine]. unfold bind at 1, gets. cbn [lr_buf]. rewrite Ecut. apply cutByte_Some in Ecut as [-> _].
    unfold setBuf. mrun. cbn [lr_r lr_buf].
    destruct (_ <? _); eexists _, (mkLineReader r rest); (split; [done|]); (split; [done|]); (split; [done|]); [done|].
    intros l _. cbn [lr_buf lr_r]. rewrite !length_app. cbn. lia.
  - apply cutByte_None in Ecut. destruct (Z.le_gt_cases (len (acc ++ buf)) HTTPLineMaxBytes) as [Hcap|Hcap].
    + destruct (readLine_refill f acc r buf Hs Ecut Hcap) as [[E ->]|(b & r' & Hne & Hs' & Hfin & Hcat & ->)].
      * by exists (Err (sg_fin r)), (mkLineReader r []).
      * destruct (IH (acc ++ buf) (mkLineReader r' b) Hs') as (res & lr' & -> & Hp & Hs2 & Hlt).
        exists res, lr'. split_and!; try done. intros l Hl. specialize (Hlt l Hl). cbn [lr_r lr_buf] in *.
        rewrite Hcat. rewrite !length_app in *. lia.
    + cbn [readLine]. unfold bind at 1, gets at 1. cbn [lr_buf]. rewrite cutByte_none by done.
      rewrite (proj2 (Z.ltb_lt _ _)) by lia. by exists (Err ErrHTTPLineTooLong), (mkLineReader r buf).
Qed.

Lemma dropTrailer_spec fuel lr (w : list byte) :
  segsOk lr -> (length (content lr) < fuel)%nat -> exists lr', dropTrailer fuel (lr, w) = (Ok tt, (lr', w)).
Proof.
  revert lr. induction fuel as [|f IH]; intros lr Hs Hf; [lia|]. cbn [dropTrailer].
  unfold bind at 1, try, onLR, zoom. cbn [fst snd]. unfold ReadLine.
  destruct (readLine_total (Z.to_nat HTTPLineMaxBytes + 3) [] lr Hs) as (r & lr1 & -> & Hp & Hs1 & Hlt).
  destruct r as [l|e|]; [|by exists lr1|done]. destruct l as [|c l]; [by exists lr1|].
  apply IH; [done|]. specialize (Hlt _ eq_refl). lia.
Qed.

Lemma onLR_line lr (w : list byte) line lr' :
  ReadLine lr = (Ok line, lr') -> try (onLR ReadLine) (lr, w) = (Ok (inl line), (lr', w)).
Proof. intros E. unfold try, onLR, zoom. cbn [fst snd]. by rewrite E. Qed.

Definition chunkFits (c : chunk) : Prop := chunkOk c /\ len (sizeLine c) < HTTPLineMaxBytes.

Lemma sizeLine_noLF c : chunkOk c -> lf ∉ sizeLine c.
Proof.
  intros (_ & _ & He & _). unfold sizeLine. rewrite elem_of_app. intros [Hin|]; [|done]. revert Hin.
  apply hexChar_notin; [apply FormatUint_hex; lia|]. left. reflexivity.
Qed.

Lemma streamChunkedFrom_spec fuel cs trailer written lr w :
  segsOk lr -> content lr = chunkedBody cs trailer -> Forall chunkFits cs -> (length (content lr) < fuel)%nat ->
  exists lr', streamChunkedFrom fuel false written (lr, w)
    = (Ok (written + len (concat (ch_data <$> cs)), None), (lr', w ++ concat (ch_data <$> cs))).
Proof.
  intros Hs Hc Hcs. revert fuel written lr w Hs Hc.
  induction Hcs as [|c cs [Hok Hfit] Hcs IH]; intros fuel written lr w Hs Hc Hf; (destruct fuel as [|f]; [lia|]);
    cbn [streamChunkedFrom]; unfold chunkedBody in Hc; cbn [fmap list_fmap concat] in *.
  - destruct (ReadLine_spec lr (str "0") trailer Hs Hc) as (line & lr1 & E & Hs1 & Hf1 & Hc1 & Hor);
      [by apply (bool_decide_unpack _)|done|].
    unfold bind at 1. rewrite (onLR_line lr w line lr1 E). unfold bind at 1, lift.
    assert (exists l, stripExt line = Ok l /\ ParseUint (TrimSpace l) 16 64 = Some 0) as (l & -> & ->).
    { destruct Hor as [->| ->]; by eexists. }
    change (0 =? 0) with true. cbv iota. unfold bind.
    destruct (dropTrailer_spec (S f) lr1 w Hs1) as (lr2 & ->).
    { rewrite Hc1. apply (f_equal length) in Hc. rewrite length_app in Hc. cbn in Hc. lia. }
    exists lr2. by rewrite app_nil_r, Z.add_0_r.
  - unfold chunkBytes in Hc. rewrite <- !app_assoc in Hc.
    assert (content lr = sizeLine c ++ cr :: lf :: ch_data c ++ cr :: lf :: chunkedBody cs trailer) as Hc'.
    { rewrite Hc. unfold chunkedBody, crlf. cbn [app]. done. }
    destruct (ReadLine_spec lr _ _ Hs Hc' (sizeLine_noLF c Hok) Hfit) as (line & lr1 & E & Hs1 & Hf1 & Hc1 & Hor).
    unfold bind at 1. rewrite (onLR_line lr w line lr1 E). unfold bind at 1, lift.
    assert (exists l, stripExt line = Ok l /\ ParseUint (TrimSpace l) 16 64 = Some (len (ch_data c))) as (l & -> & ->).
    { assert (len (ch_data c) < 2 ^ 64) as H64 by (pose proof (proj1 Hok); change (2 ^ 64) with (2 ^ 32 * 2 ^ 32); lia).
      destruct Hor as [->| ->]; [|rewrite <- (app_nil_r (sizeLine c))];
        (apply sizeLine_parse; [exact Hok|exact H64|lia| |]).
      - by apply Forall_singleton.
      - by apply (bool_decide_unpack _).
      - by constructor.
      - apply not_elem_of_nil. }
    assert (0 < len (ch_data c) < 2 ^ 32) as Hlen by apply Hok.
    rewrite (proj2 (Z.eqb_neq _ _)) by lia. rewrite s64_small by (change (2 ^ 63) with (2 ^ 32 * 2 ^ 31); lia).
    assert (length (content lr) = length (sizeLine c) + (length (ch_data c) + length (chunkedBody cs trailer)) + 4)%nat as Hlen'.
    { rewrite Hc'. rewrite length_app. cbn [length]. rewrite length_app. cbn [length]. lia. }
    destruct (chunkData_spec (S f) (ch_data c) (cr :: lf :: chunkedBody cs trailer) written lr1 w Hs1 Hc1 ltac:(lia))
      as (lr2 & E2 & Hs2 & Hc2 & Hf2).
    unfold bind at 1. rewrite E2. cbn [snd fst].
    destruct (ReadLine_spec lr2 [] _ Hs2 Hc2 ltac:(apply not_elem_of_nil) ltac:(reflexivity)) as (el & lr3 & E3 & Hs3 & Hf3 & Hc3 & _).
    unfold bind at 1. rewrite (onLR_line lr2 _ el lr3 E3).
    destruct (IH f (written + len (ch_data c)) lr3 (w ++ ch_data c)) as (lr4 & E4); [done|done|rewrite Hc3; lia|].
    exists lr4. rewrite E4. rewrite <- app_assoc. do 3 f_equal. len_lia.
Qed.

(** C23. A chunked body arrives intact however the transport cuts it, even in the
    middle of a size line or between a carriage return and its line feed:
    the writer receives exactly the chunks' data. *)
Theorem http_chunked_body_any_cut fuel cs trailer lr w :
  segsOk lr -> content lr = chunkedBody cs trailer -> Forall chunkFits cs -> (length (content lr) < fuel)%nat ->
  exists lr', streamChunkedBody fuel false (lr, w)
    = (Ok (len (concat (ch_data <$> cs)), None), (lr', w ++ concat (ch_data <$> cs))).
Proof. intros. by apply (streamChunkedFrom_spec fuel cs trailer 0). Qed.

Lemma http_chunked_body_any_cut_witness :
  exists lr', streamChunkedBody 100 false
    (mkLineReader (mkSegReader [str "5"; [x0d]; [x0a] ++ str "he"; str "llo" ++ [x0d]; [x0a] ++ str "0" ++ crlf; crlf] ErrEOF) [], [])
  = (Ok (5, None), (lr', str "hello")).
Proof.
  apply (http_chunked_body_any_cut 100 [mkChunk (str "hello") []] crlf
    (mkLineReader (mkSegReader [str "5"; [x0d]; [x0a] ++ str "he"; str "llo" ++ [x0d]; [x0a] ++ str "0" ++ crlf; crlf] ErrEOF) []) []).
  - by repeat constructor.
  - reflexivity.
  - constructor; [|constructor]. split; [|reflexivity]. split; [split; reflexivity|].
    split; [apply not_elem_of_nil|]. split; [apply not_elem_of_nil|]. by left.
  - cbn. lia.
Defined.

(** ** Where cuts and sizes are not handled *)

Definition okHead : list byte := str "HTTP/1.1 200 OK" ++ crlf ++ str "Content-Length: 0" ++ crlf.
Definition parseCut (segs : list (list byte)) : out (Z * option error) :=
  match fst (streamHTTPResponseHeaders 100 (mkLineReader (mkSegReader segs ErrEOF) [], [])) with
  | Ok r => Ok (sr_status r, sr_err r)
  | Err e => Err e
  | Panic => Panic
  end.

(** The head of a response is not independent of the cuts: when a read ends
    between the carriage return and the line feed of the blank line, the line
    reader returns a lone carriage return, which the parser rejects as a
    malformed header; the same bytes in one read are accepted. *)
Theorem http_head_depends_on_cut :
  parseCut [okHead ++ crlf] = Ok (200, None) /\
  parseCut [okHead ++ [cr]; [lf]] = Err ErrHTTPBadHeader.
Proof. by vm_compute. Qed.

(** A chunk size of 2^63 or more becomes a negative int64: the chunk is taken
    for an empty one and the body is accepted. *)
Theorem http_huge_chunk_is_empty :
  fst (streamChunkedBody 100 false
    (mkLineReader (mkSegReader [str "ffffffffffffffff" ++ crlf ++ crlf ++ str "0" ++ crlf ++ crlf] ErrEOF) [], []))
  = Ok (0, None).
Proof. by vm_compute. Qed.
