(* ===== verification/HttpTransport.v ===== *)
(** * Streaming GETs over a connection

    uefiboard/ministack: HTTPGetStreamHeaders of http.go, https.go, and the
    promise the OCI client relies on: what a streaming GET reports as written is
    what its writer took, and a redirect writes nothing. *)

From S2P Require Import Prelude NetIP Effects Ethernet IPv4 Tcp Arp TcpConn Stack StackTcp GoStr Dns DialRetry Http HttpStream.

(** http.go's HTTPGetOptions.  The timeouts only set deadlines. *)
Record HTTPGetOptions := mkGetOptions {
  DNSServer : option IP;
  DialTimeout : Z;
  RequestTimeout : Z;
  ExtraHeaders : list (list byte)
}.

Definition parseHTTPSURL (url : list byte) : out parsedHTTPURL :=
  let prefix := str "https://" in
  ret_if negb (HasPrefix url prefix) with ErrHTTPSchemeNotHTTPS;;
  let* rest := sliceFrom url (len prefix) in
  let i := IndexByte rest slash in
  let* path := if 0 <=? i then sliceFrom rest i else Ok [slash] in
  let* rest := if 0 <=? i then sliceTo rest i else Ok rest in
  let i := LastIndexByte rest colon in
  let* host := if 0 <=? i then sliceTo rest i else Ok rest in
  let* port := if 0 <=? i
               then let* p := sliceFrom rest (i + 1) in
                    match ParseUint p 10 16 with Some p => Ok (u16 p) | None => Err ErrHTTPBadURL end
               else Ok 443 in
  ret_if bool_decide (host = []) with ErrHTTPBadURL;;
  Ok (mkURL host port path).

(** ** Connections *)

(** What the GETs use of a connection: DialTLS and *tls.Conn for https, the
    stack's own dialer and *TCP4Conn for http. *)
Class Dialer (S C : Type) := {
  dDial : parsedHTTPURL -> option IP -> M S C;
  dRead : C -> nat -> M S (list byte * option error);
  dWrite : C -> list byte -> M S (Z * option error);
  dClose : C -> M S unit
}.

(** [c.Read(p)] as a value. *)
Definition readValue {S} (m : M S (list byte)) : M S (list byte * option error) :=
  r <- try m ;;
  match r with inl b => ret (b, None) | inr e => ret ([], Some e) end.

(** The plain dialer: a connection is its local port. *)
Definition tcpDialer {L} `{Link L} (ParseIP : list byte -> option IP) (defaultAttempts defaultBaseDelay : Z)
  : Dialer (Stack L * list Z) nat := {|
  dDial u dns := dialHTTPConn ParseIP u dns defaultAttempts defaultBaseDelay;
  dRead p n := onStack (readValue (Read p n));
  dWrite p b := onStack (Write p b);
  dClose p := onStack (CloseTCP p)
|}.

Section get.
Context {S C : Type} `{Dialer S C}.

Definition connReader (c : C) : Reader S := {| rdRead n := dRead c n |}.

(** The read loop of readHTTPSResponse, with the iterations the cap allows a
    reader that returns a byte or an error. *)
Fixpoint readConn (fuel : nat) (c : C) (all : list byte) : M S (list byte) :=
  match fuel with
  | O => throw (ErrOther 0)
  | Datatypes.S f =>
      r <- dRead c 4096 ;;
      throw_if (0 <? len (fst r)) && (HTTPMaxResponseBytes <? len all + len (fst r)) with ErrHTTPResponseTooBig;;
      let all := all ++ fst r in
      match snd r with
      | None => readConn f c all
      | Some err =>
          if decide (err = ErrEOF) then ret all
          else throw_if len all =? 0 with err;; ret all
      end
  end.

Definition readHTTPSResponse (c : C) : M S HTTPResponse :=
  all <- readConn (Datatypes.S (Z.to_nat HTTPMaxResponseBytes)) c [] ;;
  lift (parseHTTPResponse all).

(** HTTPSGet. *)
Definition HTTPSGet (url : list byte) (opts : HTTPGetOptions) : M S HTTPResponse :=
  u <- lift (parseHTTPSURL url) ;;
  c <- dDial u (DNSServer opts) ;;
  r <- try (w <- dWrite c (buildHTTPRequest u (ExtraHeaders opts)) ;;
            match snd w with Some werr => throw werr | None => readHTTPSResponse c end) ;;
  ignore (dClose c) ;;;
  lift (ofSum r).

Section stream.
Context {W : Type} `{Writer W}.
Abbreviation GetM A := (M (S * W) A).

Definition onConn {A} (m : M S A) : GetM A := zoom fst (fun s x => (s, snd x)) m.

(** [br := newLineReader(conn); return streamHTTPResponseHeaders(br, dst)] *)
Definition streamResponse (fuel : nat) (c : C) : GetM streamResult := fun x =>
  let '(r, (lr, w)) := @streamHTTPResponseHeaders S W (connReader c) _ fuel (newLineReader (fst x), snd x) in
  (r, (lr_r lr, w)).

Definition failed (e : error) : streamResult := mkStreamResult 0 0 ∅ (Some e).

(** HTTPGetStreamHeaders and HTTPSGetStreamHeaders, over their URL parser and
    dialer; errors are in the result.  [fuel] bounds the reads of the body. *)
Definition getStreamHeaders (fuel : nat) (parse : list byte -> out parsedHTTPURL) (url : list byte) (opts : HTTPGetOptions)
  : GetM streamResult :=
  d <- try (u <- lift (parse url) ;; c <- onConn (dDial u (DNSServer opts)) ;; ret (u, c)) ;;
  match d with
  | inr err => ret (failed err)
  | inl (u, c) =>
      r <- try (w <- onConn (dWrite c (buildHTTPRequest u (ExtraHeaders opts))) ;;
                match snd w with Some werr => ret (failed werr) | None => streamResponse fuel c end) ;;
      ignore (onConn (dClose c)) ;;;
      ret (match r with inl res => res | inr err => failed err end)
  end.
End stream.
End get.

(** ** What is written *)

(** io.Writer's contract: a short count comes with an error; the call itself
    returns. *)
Class WriterOk (W : Type) `{Writer W} := {
  write_full b w n w' : wrWrite b w = (Ok (n, None), w') -> n = len b
}.

(** A run of successful writes that puts [bs] into the writer. *)
Inductive wrote {W} `{Writer W} : W -> list byte -> W -> Prop :=
| wrote_nil w : wrote w [] w
| wrote_cons w b w1 bs w2 : wrWrite b w = (Ok (len b, None), w1) -> wrote w1 bs w2 -> wrote w (b ++ bs) w2.

Lemma wrote_app {W} `{Writer W} w x w1 y w2 : wrote w x w1 -> wrote w1 y w2 -> wrote w (x ++ y) w2.
Proof. induction 1; [done|]. intros Hy. rewrite <- app_assoc. econstructor; eauto. Qed.

#[global] Instance append_writer_ok : WriterOk (list byte).
Proof. split. intros b w n w' [= <- _]. done. Qed.

(** Writing to a buffer appends. *)
Lemma wrote_append (w x w' : list byte) : wrote w x w' <-> w' = w ++ x.
Proof.
  split.
  - induction 1 as [|w b w1 bs w2 [= <-] _ ->]; [by rewrite app_nil_r|by rewrite app_assoc].
  - intros ->. rewrite <- (app_nil_r x) at 1. econstructor; [done|constructor].
Qed.

(** The line reader's fuel is a large numeral. *)
#[local] Strategy 1000 [ReadLine].

Section copied.
Context {R W : Type} `{Reader R} `{WriterOk W}.

(** What a body copier put into its writer; a redirect's body is discarded. *)
Definition copied (discard : bool) (w : W) (body : list byte) (w' : W) : Prop :=
  if discard then w' = w else wrote w body w'.

Lemma copied_nil discard w : copied discard w [] w.
Proof. destruct discard; [done|constructor]. Qed.
Lemma copied_app discard w x w1 y w2 : copied discard w x w1 -> copied discard w1 y w2 -> copied discard w (x ++ y) w2.
Proof. destruct discard; cbn; [by intros -> ->|apply wrote_app]. Qed.

Lemma onLR_snd {A} (m : M (lineReader R) A) : frames snd (@onLR R W A m).
Proof. apply frames_zoom. done. Qed.
#[local] Hint Resolve onLR_snd : goframe.

Lemma onLR_ok {A} (m : M (lineReader R) A) (s : lineReader R * W) r s' : onLR m s = (r, s') -> snd s' = snd s.
Proof. intros E. pose proof (onLR_snd m s) as Hs. by rewrite E in Hs. Qed.

Lemma tryLR_ok {A} (m : M (lineReader R) A) (s : lineReader R * W) r s' : try (onLR m) s = (r, s') -> snd s' = snd s.
Proof. intros E. pose proof (frames_try snd _ (onLR_snd m) s) as Hs. by rewrite E in Hs. Qed.

Lemma dropTrailer_snd fuel : frames snd (@dropTrailer R W _ fuel).
Proof. induction fuel as [|f IH]; cbn [dropTrailer]; go_frame. Qed.
Lemma headLoop_snd fuel h : frames snd (@headLoop R W _ fuel h).
Proof. revert h. induction fuel as [|f IH]; intros h; cbn [headLoop]; go_frame. Qed.

(** One block of a body. *)
Lemma copy_block discard b (s : lineReader R * W) n s' :
  (if 0 <? len b then sinkWrite discard b else ret (0, None)) s = (Ok (n, None), s') ->
  exists body, n = len body /\ copied discard (snd s) body (snd s').
Proof.
  destruct (0 <? len b).
  - exists b. destruct discard; cbn in *.
    + by apply ret_ok in H2 as [[= ->] ->].
    + unfold sinkWrite, zoom in H2. destruct (wrWrite b (snd s)) as [o w] eqn:E. injection H2 as -> <-. cbn.
      pose proof (write_full _ _ _ _ E) as ->. split; [done|]. rewrite <- (app_nil_r b). econstructor; [exact E|constructor].
  - intros [[= ->] ->]%ret_ok. exists []. split; [done|apply copied_nil].
Qed.

(** The copier went on after a block. *)
Lemma copied_more discard (w w1 w2 : W) n m written :
  (exists body, n = len body /\ copied discard w body w1) ->
  (exists body, m = written + n + len body /\ copied discard w1 body w2) ->
  exists body, m = written + len body /\ copied discard w body w2.
Proof.
  intros (x & -> & Hx) (y & -> & Hy). exists (x ++ y). split; [len_lia|by eapply copied_app].
Qed.
Lemma copied_last discard (w w1 : W) n written :
  (exists body, n = len body /\ copied discard w body w1) ->
  exists body, written + n = written + len body /\ copied discard w body w1.
Proof. intros (x & -> & Hx). by exists x. Qed.
Lemma copied_none discard (w : W) written : exists body, written = written + len body /\ copied discard w body w.
Proof. exists []. split; [len_lia|apply copied_nil]. Qed.

(** The counts of the three copiers are what their writer took. *)
Lemma streamBoundedFrom_copied fuel discard total written (s : lineReader R * W) n s' :
  streamBoundedFrom fuel discard total written s = (Ok (n, None), s') ->
  exists body, n = written + len body /\ copied discard (snd s) body (snd s').
Proof.
  revert written s. induction fuel as [|f IH]; intros written s; cbn [streamBoundedFrom];
    (destruct (total <=? written); [intros [[= ->] ->]%ret_ok; apply copied_none|]); [done|].
  intros (r & s1 & Hr & Hk)%bind_ok. apply onLR_ok in Hr. apply bind_ok in Hk as ([k we] & s2 & Hw & Hk).
  destruct we as [e|]; [by apply ret_ok in Hk as [[=] _]|]. apply copy_block in Hw. rewrite Hr in Hw. cbn [fst snd] in Hk.
  destruct (snd r) as [e|].
  - destruct (isEOF e); apply ret_ok in Hk as [E ->]; [|done]. injection E as -> _. by apply copied_last.
  - eapply copied_more; [exact Hw|]. by eapply IH.
Qed.

Lemma streamIdentityFrom_copied fuel discard written (s : lineReader R * W) n s' :
  streamIdentityFrom fuel discard written s = (Ok (n, None), s') ->
  exists body, n = written + len body /\ copied discard (snd s) body (snd s').
Proof.
  revert written s. induction fuel as [|f IH]; intros written s; cbn [streamIdentityFrom]; [done|].
  intros (r & s1 & Hr & Hk)%bind_ok. apply onLR_ok in Hr. apply bind_ok in Hk as ([k we] & s2 & Hw & Hk).
  destruct we as [e|]; [by apply ret_ok in Hk as [[=] _]|]. apply copy_block in Hw. rewrite Hr in Hw. cbn [fst snd] in Hk.
  destruct (snd r) as [e|].
  - destruct (isEOF e); apply ret_ok in Hk as [E ->]; [|done]. injection E as ->. by apply copied_last.
  - eapply copied_more; [exact Hw|]. by eapply IH.
Qed.

Lemma chunkData_copied fuel discard remaining written (s : lineReader R * W) n s' :
  chunkData fuel discard remaining written s = (Ok (n, None), s') ->
  exists body, n = written + len body /\ copied discard (snd s) body (snd s').
Proof.
  revert remaining written s. induction fuel as [|f IH]; intros remaining written s; cbn [chunkData];
    (destruct (remaining <=? 0); [intros [[= ->] ->]%ret_ok; apply copied_none|]); [done|].
  intros (r & s1 & Hr & Hk)%bind_ok. apply onLR_ok in Hr. apply bind_ok in Hk as ([k we] & s2 & Hw & Hk).
  destruct we as [e|]; [by apply ret_ok in Hk as [[=] _]|]. apply copy_block in Hw. rewrite Hr in Hw. cbn [fst snd] in Hk.
  destruct (snd r) as [e|]; [by apply ret_ok in Hk as [[=] _]|].
  eapply copied_more; [exact Hw|]. by eapply IH.
Qed.

Lemma streamChunkedFrom_copied fuel discard written (s : lineReader R * W) n s' :
  streamChunkedFrom fuel discard written s = (Ok (n, None), s') ->
  exists body, n = written + len body /\ copied discard (snd s) body (snd s').
Proof.
  revert written s. induction fuel as [|f IH]; intros written s; cbn [streamChunkedFrom]; [done|].
  intros (sl & s1 & Hf & Hk)%bind_ok. apply tryLR_ok in Hf.
  destruct sl as [line|e]; [|by apply ret_ok in Hk as [[=] _]].
  apply bind_ok in Hk as (line' & s2 & [_ ->]%lift_ok & Hk). destruct (ParseUint _ 16 64) as [size|]; [|by apply ret_ok in Hk as [[=] _]].
  destruct (size =? 0).
  - apply bind_ok in Hk as ([] & s3 & Hd & [[= ->] ->]%ret_ok).
    pose proof (dropTrailer_snd (Datatypes.S f) s1) as Ht. rewrite Hd in Ht. cbn [snd] in Ht. rewrite Ht, Hf. apply copied_none.
  - apply bind_ok in Hk as ([k ce] & s3 & Hd & Hk). destruct ce as [e|]; [by apply ret_ok in Hk as [[=] _]|].
    apply chunkData_copied in Hd as (x & -> & Hx). apply bind_ok in Hk as ([l|e] & s4 & Hf2 & Hk); [|by apply ret_ok in Hk as [[=] _]].
    apply tryLR_ok in Hf2.
    apply IH in Hk as (y & -> & Hy). exists (x ++ y). split; [cbn [fst]; len_lia|]. rewrite Hf in Hx. rewrite Hf2 in Hy.
    by eapply copied_app.
Qed.

(** A streamed response without an error: what it reports as written is what
    its writer took, and a redirect leaves the writer alone. *)
Lemma streamHTTPResponseHeaders_wrote fuel (s : lineReader R * W) res s' :
  streamHTTPResponseHeaders fuel s = (Ok res, s') -> sr_err res = None ->
  exists body, sr_written res = len body /\ wrote (snd s) body (snd s') /\
    (300 <= sr_status res < 400 -> body = []).
Proof.
  unfold streamHTTPResponseHeaders. intros (sl & s1 & Hl & Hk)%bind_ok. apply onLR_ok in Hl.
  destruct (SplitN x20 sl 3) as [|proto [|code ?]]; [done|done|]. apply guard_ok in Hk as [_ Hk].
  destruct (Atoi code) as [status|]; [|done]. apply bind_ok in Hk as (h & s2 & Hh & Hk).
  pose proof (headLoop_snd fuel (mkHead ∅ (-1) false) s1) as Hs2. rewrite Hh in Hs2. cbn [snd] in Hs2. rewrite Hl in Hs2.
  apply bind_ok in Hk as ([n we] & s3 & Hb & [-> ->]%ret_ok). cbn [sr_err sr_written sr_status fst snd]. intros ->.
  set (redirect := (300 <=? status) && (status <? 400)) in *.
  assert (exists body, n = len body /\ copied redirect (snd s) body (snd s3)) as (body & -> & Hc).
  { rewrite <- Hs2. destruct (sh_chunked h); [by apply streamChunkedFrom_copied in Hb|].
    destruct (0 <=? sh_contentLength h); [by apply streamBoundedFrom_copied in Hb|by apply streamIdentityFrom_copied in Hb]. }
  unfold redirect in *. destruct (Z.leb_spec 300 status), (Z.ltb_spec status 400); cbn in *.
  - exists []. rewrite Hc. split; [done|]. split; [constructor|done].
  - exists body. split_and!; [done..|lia].
  - exists body. split_and!; [done..|lia].
  - exists body. split_and!; [done..|lia].
Qed.
End copied.

(** The same of the whole GET, whatever the connection does. *)
Lemma getStreamHeaders_wrote {S C W} `{Dialer S C} `{WriterOk W} fuel parse url opts (s : S) (w : W) res s' w' :
  getStreamHeaders fuel parse url opts (s, w) = (Ok res, (s', w')) -> sr_err res = None ->
  exists body, sr_written res = len body /\ wrote w body w' /\ (300 <= sr_status res < 400 -> body = []).
Proof.
  unfold getStreamHeaders. intros (d & x1 & Hd & Hk)%bind_ok He.
  assert (snd x1 = w) as Hx1.
  { pose proof (frames_try (S := S * W) snd (u <- lift (parse url) ;; c <- onConn (dDial u (DNSServer opts)) ;; ret (u, c))) as Hf.
    specialize (Hf ltac:(unfold onConn; go_frame) (s, w)). rewrite Hd in Hf. done. }
  destruct d as [[u c]|e]; [|by apply ret_ok in Hk as [-> _]].
  apply bind_ok in Hk as (r & x2 & Hr & Hk). apply bind_ok in Hk as ([] & x3 & Hc & [-> E]%ret_ok). subst x3.
  pose proof (frames_ignore (S := S * W) snd (onConn (dClose c)) ltac:(unfold onConn; go_frame) x2) as Hf.
  rewrite Hc in Hf. cbn [snd] in Hf. subst w'. destruct r as [res|e]; [|done].
  unfold try in Hr. destruct (bind _ _ x1) as [[a|e|] x4] eqn:Eb; [|done|done]. injection Hr as -> ->.
  apply bind_ok in Eb as ([n we] & x5 & Hw & Hs). assert (snd x5 = w) as Hx5.
  { pose proof (frames_zoom (S := S * W) snd fst (fun s x => (s, snd x)) (dWrite c (buildHTTPRequest u (ExtraHeaders opts)))
      ltac:(done) x1) as Hf. unfold onConn in Hw. rewrite Hw in Hf. cbn [snd] in Hf. congruence. }
  destruct we as [e|]; cbn [snd] in Hs; [by apply ret_ok in Hs as [-> _]|].
  unfold streamResponse in Hs. destruct (streamHTTPResponseHeaders _ _) as [o [lr w2]] eqn:Es. injection Hs as -> <-.
  rewrite Hx5 in Es. exact (@streamHTTPResponseHeaders_wrote S W (connReader c) _ _ fuel _ res _ Es He).
Qed.
