(* ===== verification/OciTransport.v ===== *)
(** * The net/http transport of the alternative OCI client

    uefiboard/ministack/orasoci/transport.go: RoundTrip, which carries a
    net/http request over the stack, its URL splitting, its request writer, its
    response parser and the three body copiers of its own, over any dialer.
    The copiers duplicate those of http.go; they are compared with them. *)

From S2P Require Import Prelude NetIP Effects GoStr Dns Http HttpStream HttpTransport.

Definition DefaultDialTimeout : Z := 15000000000.
Definition DefaultRequestTimeout : Z := 30000000000.

(** ** Addresses *)

Definition lbracket : byte := x5b.
Definition rbracket : byte := x5d.

Definition splitHostPort (hostport : list byte) : out (list byte * list byte) :=
  let i := LastIndexByte hostport colon in
  if 0 <=? i then
    if HasPrefix hostport [lbracket] then
      let rb := LastIndexByte hostport rbracket in
      if (0 <=? rb) && (rb <? i) then
        let* host := slice hostport 1 rb in
        let* port := sliceFrom hostport (i + 1) in
        Ok (host, port)
      else Ok (hostport, [])
    else
      let* host := sliceTo hostport i in
      let* port := sliceFrom hostport (i + 1) in
      Ok (host, port)
  else Ok (hostport, []).

Definition defaultPort (scheme port : list byte) : out Z :=
  if bool_decide (port = []) then
    if bool_decide (scheme = str "http") then Ok 80
    else if bool_decide (scheme = str "https") then Ok 443
    else Err ErrUnsupportedScheme
  else match ParseUint port 10 16 with Some p => Ok (u16 p) | None => Err ErrBadPort end.

(** ** Requests *)

(** The parts of net/http's Request that are used.  The header is in the order
    in which the range over the map meets its keys; [rq_body] is what reading
    the body gives. *)
Record Request := mkRequest {
  rq_scheme : list byte; rq_host : list byte; rq_uri : list byte; rq_method : list byte;
  rq_header : list (list byte * list (list byte)); rq_body : option (list byte + error)
}.

(** [Header.Get] of a canonical key. *)
Definition headerGet (h : list (list byte * list (list byte))) (k : list byte) : list byte :=
  match list_find (fun e => fst e = k) h with Some (_, (_, v :: _)) => v | _ => [] end.

Definition skipped (k : list byte) : bool := EqualFold k (str "Host") || EqualFold k (str "Connection").

Definition hostHeader (scheme host : list byte) (port : Z) : list byte :=
  if (bool_decide (scheme = str "http") && negb (port =? 80)) || (bool_decide (scheme = str "https") && negb (port =? 443))
  then host ++ str ":" ++ FormatUint port 10 else host.

(** What writeHTTPRequest hands to its buffered writer, up to the body. *)
Definition headPieces (req : Request) (host : list byte) (port : Z) (scheme : list byte) : list (list byte) :=
  let path := if bool_decide (rq_uri req = []) then str "/" else rq_uri req in
  let method := if bool_decide (rq_method req = []) then str "GET" else rq_method req in
  [method ++ str " " ++ path ++ str " HTTP/1.1" ++ crlf; str "Host: " ++ hostHeader scheme host port ++ crlf]
  ++ (if bool_decide (headerGet (rq_header req) (str "User-Agent") = []) then [str "User-Agent: ministack-orasoci/1.0" ++ crlf] else [])
  ++ concat ((fun e => if skipped (fst e) then [] else (fun v => fst e ++ str ": " ++ v ++ crlf) <$> snd e) <$> rq_header req)
  ++ [str "Connection: close" ++ crlf].

Definition bodyPieces (req : Request) (body : list byte) : list (list byte) :=
  (if (0 <? len body) && bool_decide (headerGet (rq_header req) (str "Content-Length") = [])
   then [str "Content-Length: " ++ FormatUint (len body) 10 ++ crlf] else [])
  ++ [crlf] ++ (if 0 <? len body then [body] else []).

(** ** The network *)

(** What RoundTrip uses of ministack: DialTLS and its connection, ResolveA,
    DialTCP4 and its connection. *)
Class Net (S C : Type) := {
  nDialTLS : list byte -> Z -> option IP -> Z -> M S C;
  nResolveA : list byte -> IP -> Z -> M S IP;
  nDialTCP4 : IP -> Z -> Z -> M S C;
  nRead : C -> nat -> M S (list byte * option error);
  nWrite : C -> list byte -> M S (Z * option error);
  nClose : C -> M S unit;
  nSetDeadline : C -> Z -> M S unit
}.

(** The transport's fields besides the stack, and the state of the request's
    context: what is left to its deadline, and whether it is cancelled before
    the request is written and after. *)
Record RoundTripper := mkRT { rt_dns : option IP; rt_dialTimeout : Z; rt_requestTimeout : Z }.
Record Ctx := mkCtx { cx_budget : option Z; cx_before : option error; cx_after : option error }.

(** The dial and request timeouts. *)
Definition timeouts (t : RoundTripper) (ctx : Ctx) : Z * Z :=
  let dial := if rt_dialTimeout t <=? 0 then DefaultDialTimeout else rt_dialTimeout t in
  let request := if rt_requestTimeout t <=? 0 then DefaultRequestTimeout else rt_requestTimeout t in
  match cx_budget ctx with
  | None => (dial, request)
  | Some budget =>
      (if (0 <? budget) && (budget <? dial) then budget else dial,
       if (0 <? budget) && (budget <? request) then budget else request)
  end.

(** net/http's canonical header keys. *)
Definition tokenByte (b : byte) : bool :=
  let z := b2z b in
  ((48 <=? z) && (z <=? 57)) || ((65 <=? z) && (z <=? 90)) || ((97 <=? z) && (z <=? 122))
  || bool_decide (b ∈ str "!#$%&'*+-.^_`|~").
Definition upperByte (b : byte) : byte := let z := b2z b in if (97 <=? z) && (z <=? 122) then z2b (z - 32) else b.
Fixpoint canonicalFrom (upper : bool) (k : list byte) : list byte :=
  match k with
  | [] => []
  | b :: k => (if upper then upperByte b else lowerByte b) :: canonicalFrom (bool_decide (b = x2d)) k
  end.
Definition CanonicalHeaderKey (k : list byte) : list byte := if forallb tokenByte k then canonicalFrom true k else k.

Abbreviation responseHeader := (gmap (list byte) (list (list byte))).

(** The value lists; keys that become equal are overwritten, and the parser's
    keys are in lower case, so that none do. *)
Definition headerValues (v : list byte) : list (list byte) :=
  match cutStr (str ", ") v with Some _ => SplitStr v (str ", ") | None => [v] end.
Definition toHTTPHeader (headers : httpHeaders) : responseHeader :=
  list_to_map ((fun kv => (CanonicalHeaderKey (fst kv), headerValues (snd kv))) <$> map_to_list headers).

Record Response := mkHttpResponse {
  rs_Status : list byte; rs_StatusCode : Z; rs_Header : responseHeader; rs_ContentLength : Z; rs_TransferEncoding : list (list byte)
}.

(** ** Parsing and copying *)

Section parse.
Context {R : Type} `{Reader R}.

(** One header line. *)
Definition putHeaderLine (headers : httpHeaders) (line : list byte) : out httpHeaders :=
  let i := IndexByte line colon in
  ret_if i <? 0 with ErrHTTPBadHeader;;
  let* name := sliceTo line i in
  let* value := sliceFrom line (i + 1) in
  Ok (addHeader headers (ToLower (TrimSpace name)) (TrimSpace value)).

Fixpoint headersFrom (fuel : nat) (headers : httpHeaders) : M (lineReader R) httpHeaders :=
  match fuel with
  | O => throw (ErrOther 0)
  | S f =>
      line <- ReadLine ;;
      match line with
      | [] => ret headers
      | _ => h <- lift (putHeaderLine headers line) ;; headersFrom f h
      end
  end.

Definition readStatusAndHeaders (fuel : nat) : M (lineReader R) (Z * httpHeaders) :=
  statusLine <- ReadLine ;;
  match SplitN x20 statusLine 3 with
  | proto :: code :: _ =>
      throw_if negb (HasPrefix proto (str "HTTP/")) with ErrHTTPBadStatusLine;;
      match Atoi code with
      | None => throw ErrHTTPBadStatusLine
      | Some status => headers <- headersFrom fuel ∅ ;; ret (status, headers)
      end
  | _ => throw ErrHTTPBadStatusLine
  end.

Section copy.
Context {W : Type} `{Writer W}.
Abbreviation StreamM A := (M (lineReader R * W) A).

(** [if r > 0 { w, werr := dst.Write(b) }] *)
Definition writeSome (b : list byte) : StreamM (Z * option error) :=
  if 0 <? len b then sinkWrite false b else ret (0, None).

Fixpoint streamBounded (fuel : nat) (n written : Z) : StreamM (Z * option error) :=
  if n <=? written then ret (written, None) else
  match fuel with
  | O => throw (ErrOther 0)
  | S f =>
      r <- onLR (lrRead (wantOf (n - written))) ;;
      wr <- writeSome (fst r) ;;
      let written := written + fst wr in
      match snd wr with
      | Some werr => ret (written, Some werr)
      | None =>
          match snd r with
          | None => streamBounded f n written
          | Some err =>
              if decide (err = ErrEOF) then ret (written, if written <? n then Some ErrUnexpectedEOF else None)
              else ret (written, Some err)
          end
      end
  end.

Fixpoint streamIdentity (fuel : nat) (written : Z) : StreamM (Z * option error) :=
  match fuel with
  | O => throw (ErrOther 0)
  | S f =>
      r <- onLR (lrRead (Z.to_nat streamReadBufBytes)) ;;
      wr <- writeSome (fst r) ;;
      let written := written + fst wr in
      match snd wr with
      | Some werr => ret (written, Some werr)
      | None =>
          match snd r with
          | None => streamIdentity f written
          | Some err => if decide (err = ErrEOF) then ret (written, None) else ret (written, Some err)
          end
      end
  end.

(** The loop over one chunk's data. *)
Fixpoint chunkCopy (fuel : nat) (remaining written : Z) : StreamM (Z * option error) :=
  if remaining <=? 0 then ret (written, None) else
  match fuel with
  | O => throw (ErrOther 0)
  | S f =>
      r <- onLR (lrRead (wantOf remaining)) ;;
      wr <- writeSome (fst r) ;;
      let written := written + fst wr in
      let remaining := remaining - len (fst r) in
      match snd wr with
      | Some werr => ret (written, Some werr)
      | None =>
          match snd r with
          | None => chunkCopy f remaining written
          | Some rerr => ret (written, Some (if decide (rerr = ErrEOF) then ErrUnexpectedEOF else rerr))
          end
      end
  end.

Fixpoint streamChunked (fuel : nat) (written : Z) : StreamM (Z * option error) :=
  match fuel with
  | O => throw (ErrOther 0)
  | S f =>
      sl <- try (onLR ReadLine) ;;
      match sl with
      | inr err => ret (written, Some err)
      | inl sizeLine =>
          sizeLine <- lift (stripExt sizeLine) ;;
          match ParseUint (TrimSpace sizeLine) 16 64 with
          | None => ret (written, Some ErrHTTPBadChunk)
          | Some size =>
              if size =? 0 then dropTrailer fuel ;;; ret (written, None)
              else
                d <- chunkCopy fuel (s64 size) written ;;
                match snd d with
                | Some e => ret d
                | None =>
                    e <- try (onLR ReadLine) ;;
                    match e with
                    | inr err => ret (fst d, Some err)
                    | inl _ => streamChunked f (fst d)
                    end
                end
          end
      end
  end.

Definition isChunked (headers : httpHeaders) : bool :=
  match headers !! str "transfer-encoding" with Some te => EqualFold te (str "chunked") | None => false end.

Definition streamBodyOnly (fuel : nat) (headers : httpHeaders) : StreamM (Z * option error) :=
  if isChunked headers then streamChunked fuel 0
  else match headers !! str "content-length" with
       | Some cl =>
           match Atoi cl with
           | None => ret (0, Some ErrBadContentLength)
           | Some n => if n <? 0 then ret (0, Some ErrBadContentLength) else streamBounded fuel n 0
           end
       | None => streamIdentity fuel 0
       end.
End copy.
End parse.

(** ** The round trip *)

Section roundtrip.
Context {S C : Type} `{Net S C}.
(** net.ParseIP and http.StatusText, of which nothing is assumed. *)
Variables (ParseIP : list byte -> option IP) (StatusText : Z -> list byte).

(** bufio.Writer over the connection: the bytes buffered, up to 4096. *)
Definition bufioSize : Z := 4096.
Definition bufioFlush (c : C) (buf : list byte) : M S (list byte) :=
  if len buf =? 0 then ret []
  else
    w <- nWrite c buf ;;
    match snd w with
    | Some werr => throw werr
    | None => throw_if fst w <? len buf with ErrShortWrite;; ret []
    end.
(** A block that does not fit fills the buffer, which is then sent; with an
    empty buffer it is sent directly.  [fuel] bounds the sends. *)
Fixpoint bufioWrite (fuel : nat) (c : C) (buf p : list byte) : M S (list byte) :=
  if len p <=? bufioSize - len buf then ret (buf ++ p)
  else
    match fuel with
    | O => throw (ErrOther 0)
    | Datatypes.S f =>
        if len buf =? 0 then
          w <- nWrite c p ;;
          match snd w with
          | Some werr => throw werr
          | None => bufioWrite f c [] (drop (Z.to_nat (fst w)) p)
          end
        else
          let n := Z.to_nat (bufioSize - len buf) in
          buf <- bufioFlush c (buf ++ take n p) ;;
          bufioWrite f c buf (drop n p)
    end.
Fixpoint bufioPieces (c : C) (buf : list byte) (ps : list (list byte)) : M S (list byte) :=
  match ps with
  | [] => ret buf
  | p :: ps => buf <- bufioWrite (2 + length p) c buf p ;; bufioPieces c buf ps
  end.

Definition writeHTTPRequest (c : C) (req : Request) (host : list byte) (port : Z) (scheme : list byte) : M S unit :=
  buf <- bufioPieces c [] (headPieces req host port scheme) ;;
  body <- lift (match rq_body req with None => Ok [] | Some r => ofSum r end) ;;
  buf <- bufioPieces c buf (bodyPieces req body) ;;
  bufioFlush c buf ;;;
  ret tt.

Definition resolve (t : RoundTripper) (host : list byte) (timeout : Z) : M S IP :=
  match ParseIP host with
  | Some ip => match To4 ip with None => throw ErrOnlyIPv4 | Some ip4 => ret ip4 end
  | None => match rt_dns t with None => throw ErrNoDNSServer | Some dns => nResolveA host dns timeout end
  end.

Definition dial (t : RoundTripper) (scheme host : list byte) (port dialTimeout : Z) : M S C :=
  if bool_decide (scheme = str "https") then nDialTLS host port (rt_dns t) dialTimeout
  else ip <- resolve t host dialTimeout ;; nDialTCP4 ip port dialTimeout.

Definition netReader (c : C) : Reader S := {| rdRead n := nRead c n |}.

(** A failure after the dial closes the connection. *)
Definition closing {A} (c : C) (m : M S A) : M S A :=
  r <- try m ;;
  match r with inl a => ret a | inr e => ignore (nClose c) ;;; throw e end.

Definition cancelled (e : option error) : M S unit := match e with Some e => throw e | None => ret tt end.

Definition responseOf (status : Z) (headers : httpHeaders) : Response :=
  mkHttpResponse (StatusText status) status (toHTTPHeader headers)
    (match headers !! str "content-length" with Some cl => default 0 (Atoi cl) | None => -1 end)
    (if isChunked headers then [str "chunked"] else []).

(** The response, its headers as parsed, and the connection with the bytes
    already read from it, which the goroutine goes on from.  [fuel] bounds the
    header lines. *)
Definition RoundTrip (fuel : nat) (t : RoundTripper) (ctx : Ctx) (req : option Request) : M S (Response * httpHeaders * C * list byte) :=
  match req with
  | None => throw ErrNilURL
  | Some req =>
      let scheme := ToLower (rq_scheme req) in
      throw_if negb (bool_decide (scheme = str "http")) && negb (bool_decide (scheme = str "https")) with ErrUnsupportedScheme;;
      hp <- lift (splitHostPort (rq_host req)) ;;
      let '(host, portStr) := hp in
      port <- lift (defaultPort scheme portStr) ;;
      let '(dialTimeout, reqTimeout) := timeouts t ctx in
      c <- dial t scheme host port dialTimeout ;;
      ignore (nSetDeadline c reqTimeout) ;;;
      closing c (
        cancelled (cx_before ctx) ;;;
        writeHTTPRequest c req host port scheme ;;;
        cancelled (cx_after ctx) ;;;
        sh <- (fun s => let '(r, lr) := @readStatusAndHeaders S (netReader c) fuel (newLineReader s) in
                        (match r with Ok x => Ok (x, lr_buf lr) | Err e => Err e | Panic => Panic end, lr_r lr)) ;;
        let '(status, headers, buf) := sh in
        ret (responseOf status headers, headers, c, buf))
  end.

(** The goroutine: the body goes into the pipe, whose end the reader of the
    response sees as EOF or as the error returned; then the connection is
    closed. *)
Definition copyBody {W} `{Writer W} (fuel : nat) (c : C) (headers : httpHeaders) (buf : list byte) : M (S * W) (option error) := fun x =>
  let '(r, (lr, w)) := @streamBodyOnly S (netReader c) W _ fuel headers (mkLineReader (fst x) buf, snd x) in
  let '(_, s) := ignore (nClose c) (lr_r lr) in
  (match r with Ok d => Ok (snd d) | Err e => Err e | Panic => Panic end, (s, w)).
End roundtrip.

(** ** The request on the wire *)

(** net.Conn's contract: a short count comes with an error. *)
Class NetOk (S C : Type) `{Net S C} := {
  net_full c b s n s' : nWrite c b s = (Ok (n, None), s') -> n = len b
}.

(** A run of successful writes that puts [bs] on the connection. *)
Inductive sent {S C} `{Net S C} (c : C) : S -> list byte -> S -> Prop :=
| sent_nil s : sent c s [] s
| sent_cons s b s1 bs s2 : nWrite c b s = (Ok (len b, None), s1) -> sent c s1 bs s2 -> sent c s (b ++ bs) s2.

Section wire.
Context {S C : Type} `{NetOk S C}.

Lemma sent_app c s x s1 y s2 : sent c s x s1 -> sent c s1 y s2 -> sent c s (x ++ y) s2.
Proof. induction 1; [done|]. intros Hy. rewrite <- app_assoc. econstructor; eauto. Qed.

Lemma nWrite_sent c b n s s' : nWrite c b s = (Ok (n, None), s') -> n = len b /\ sent c s b s'.
Proof.
  intros E. pose proof (net_full _ _ _ _ _ E) as ->. split; [done|]. rewrite <- (app_nil_r b). econstructor; [exact E|constructor].
Qed.

Lemma bufioFlush_sent c buf s r s' : bufioFlush c buf s = (Ok r, s') -> r = [] /\ sent c s buf s'.
Proof.
  unfold bufioFlush. destruct (Z.eqb_spec (len buf) 0) as [Hz|Hz].
  - intros [-> ->]%ret_ok. apply list_len_0 in Hz as ->. split; [done|constructor].
  - intros ([n we] & s1 & E & Hk)%bind_ok. cbn [fst snd] in Hk. destruct we; [done|]. apply guard_ok in Hk as [_ [-> ->]%ret_ok].
    split; [done|by eapply nWrite_sent].
Qed.

(** What is sent and what stays in the buffer is what was there and what came. *)
Lemma bufioWrite_sent fuel c buf p s r s' :
  bufioWrite fuel c buf p s = (Ok r, s') -> exists out, sent c s out s' /\ buf ++ p = out ++ r.
Proof.
  revert buf p s. induction fuel as [|f IH]; intros buf p s; cbn [bufioWrite]; (destruct (len p <=? bufioSize - len buf);
    [intros [-> ->]%ret_ok; exists []; split; [constructor|done]|]); [done|].
  destruct (Z.eqb_spec (len buf) 0) as [Hz|Hz].
  - apply list_len_0 in Hz as ->. intros ([n we] & s1 & E & Hk)%bind_ok. cbn [fst snd] in Hk. destruct we; [done|].
    apply nWrite_sent in E as [-> Hs]. apply IH in Hk as (out & Hs2 & Ho). exists (p ++ out). split; [by eapply sent_app|].
    rewrite drop_ge in Ho by (unfold len; lia). cbn in Ho. symmetry in Ho. apply app_eq_nil in Ho as [-> ->]. by rewrite !app_nil_r.
  - intros (b & s1 & E & Hk)%bind_ok. apply bufioFlush_sent in E as [-> Hs]. apply IH in Hk as (out & Hs2 & Ho).
    eexists. split; [by eapply sent_app|]. rewrite <- app_assoc, <- Ho. cbn [app]. by rewrite <- app_assoc, take_drop.
Qed.
Lemma bufioPieces_sent c ps buf s r s' :
  bufioPieces c buf ps s = (Ok r, s') -> exists out, sent c s out s' /\ buf ++ concat ps = out ++ r.
Proof.
  revert buf s. induction ps as [|p ps IH]; intros buf s; cbn [bufioPieces concat].
  - intros [-> ->]%ret_ok. exists []. split; [constructor|]. by rewrite app_nil_r.
  - intros (b & s1 & E & Hk)%bind_ok. apply bufioWrite_sent in E as (o1 & Hs1 & E1). apply IH in Hk as (o2 & Hs2 & E2).
    exists (o1 ++ o2). split; [by eapply sent_app|]. by rewrite app_assoc, E1, <- app_assoc, E2, app_assoc.
Qed.

Lemma writeHTTPRequest_sent c req host port scheme s s' :
  writeHTTPRequest c req host port scheme s = (Ok tt, s') ->
  exists body, (match rq_body req with None => body = [] | Some r => r = inl body end)
    /\ sent c s (concat (headPieces req host port scheme) ++ concat (bodyPieces req body)) s'.
Proof.
  unfold writeHTTPRequest. intros (b1 & s1 & E1 & Hk)%bind_ok. apply bind_ok in Hk as (body & s2 & [Eb ->]%lift_ok & Hk).
  apply bind_ok in Hk as (b2 & s3 & E2 & Hk). apply bind_ok in Hk as (b3 & s4 & E3 & [_ ->]%ret_ok).
  apply bufioPieces_sent in E1 as (o1 & Hs1 & E1). apply bufioPieces_sent in E2 as (o2 & Hs2 & E2). apply bufioFlush_sent in E3 as [_ Hs3].
  exists body. split.
  { destruct (rq_body req) as [[x|e]|]; cbn in Eb; by simplify_eq. }
  cbn [app] in E1. rewrite E1, <- app_assoc, E2, app_assoc. eapply sent_app; [by eapply sent_app|done].
Qed.
End wire.

(** The lines of the request, and what is sent in their order. *)
Definition lineOf (l : list byte) : list byte := l ++ crlf.
Definition fieldLines (h : list (list byte * list (list byte))) : list (list byte) :=
  concat (map (fun e => map (fun v => fst e ++ str ": " ++ v) (snd e)) (List.filter (fun e => negb (skipped (fst e))) h)).
Definition requestLines (req : Request) (host : list byte) (port : Z) (scheme body : list byte) : list (list byte) :=
  let path := if bool_decide (rq_uri req = []) then str "/" else rq_uri req in
  let method := if bool_decide (rq_method req = []) then str "GET" else rq_method req in
  (method ++ str " " ++ path ++ str " HTTP/1.1") :: (str "Host: " ++ hostHeader scheme host port)
  :: (if bool_decide (headerGet (rq_header req) (str "User-Agent") = []) then [str "User-Agent: ministack-orasoci/1.0"] else [])
  ++ fieldLines (rq_header req) ++ [str "Connection: close"]
  ++ (if (0 <? len body) && bool_decide (headerGet (rq_header req) (str "Content-Length") = [])
      then [str "Content-Length: " ++ FormatUint (len body) 10] else []).
Definition requestText (req : Request) (host : list byte) (port : Z) (scheme body : list byte) : list byte :=
  concat (lineOf <$> requestLines req host port scheme body) ++ crlf ++ body.

Lemma fieldLines_pieces h :
  concat (concat ((fun e => if skipped (fst e) then [] else (fun v => fst e ++ str ": " ++ v ++ crlf) <$> snd e) <$> h))
  = concat (lineOf <$> fieldLines h).
Proof.
  unfold fieldLines. induction h as [|[k vs] h IH]; [done|]. cbn [fmap list_fmap concat fst snd List.filter]. rewrite concat_app, IH.
  destruct (skipped k); cbn [negb map fst snd concat]; [done|]. rewrite fmap_app, concat_app. f_equal. clear.
  induction vs as [|v vs IH]; [done|]. cbn [fmap list_fmap map concat]. rewrite IH. unfold lineOf at 2. by rewrite <- !app_assoc.
Qed.

Lemma requestText_pieces req host port scheme body :
  concat (headPieces req host port scheme) ++ concat (bodyPieces req body) = requestText req host port scheme body.
Proof.
  unfold requestText, headPieces, bodyPieces, requestLines. cbv zeta. rewrite !concat_app, fieldLines_pieces.
  cbn [fmap list_fmap concat]. rewrite !fmap_app, !concat_app. rewrite <- !app_assoc. unfold lineOf at 1 2.
  cbn [app concat]. rewrite <- !app_assoc. cbn [app].
  assert (concat (if 0 <? len body then [body] else []) = body) as ->.
  { destruct (Z.ltb_spec 0 (len body)); cbn; [apply app_nil_r|]. symmetry. apply list_len_0. pose proof (len_nonneg body). lia. }
  repeat case_bool_decide; destruct (0 <? len body); cbn [fmap list_fmap concat andb app]; unfold lineOf; rewrite ?app_nil_r, <- ?app_assoc; reflexivity.
Qed.

(** ** What a round trip does to its connection *)

(** The network's calls do not panic. *)
Class NetSafe (S C : Type) `{Net S C} := {
  net_dialTLS h p d t s : fst (nDialTLS h p d t s) <> Panic;
  net_resolve h d t s : fst (nResolveA (C := C) h d t s) <> Panic;
  net_dialTCP4 i p t s : fst (nDialTCP4 i p t s) <> Panic;
  net_read c n s : fst (nRead c n s) <> Panic;
  net_write c b s : fst (nWrite c b s) <> Panic;
  net_close c s : fst (nClose c s) <> Panic;
  net_deadline c d s : fst (nSetDeadline c d s) <> Panic
}.

(** From one state to another by reads and writes of [c] alone. *)
Inductive via {S C} `{Net S C} (c : C) (s : S) : S -> Prop :=
| via_start : via c s s
| via_read n s1 : via c s s1 -> via c s (snd (nRead c n s1))
| via_write b s1 : via c s s1 -> via c s (snd (nWrite c b s1)).

Lemma LastIndexByte_head b r c : LastIndexByte (b :: r) c = 0 -> b = c.
Proof.
  unfold LastIndexByte. destruct (cutByte c (rev (b :: r))) as [[x y]|] eqn:E; [|done].
  apply cutByte_Some in E as [E _]. intros Hy. assert (y = []) as -> by (apply list_len_0; pose proof (f_equal len E) as El; rewrite len_app, len_cons in El; unfold len in *; rewrite length_rev in El; cbn in *; lia).
  apply (f_equal (@rev byte)) in E. rewrite rev_involutive, rev_unit in E. by injection E.
Qed.
Lemma splitHostPort_safe hp : safe (splitHostPort hp).
Proof.
  unfold splitHostPort. pose proof (LastIndexByte_range hp colon) as Hi. destruct (Z.leb_spec 0 (LastIndexByte hp colon)) as [H0|]; [|done].
  assert (LastIndexByte hp colon < len hp \/ hp = []) as [Hl| ->]; [destruct hp; [by right|left; pose_lens; pose proof (len_nonneg hp); rewrite len_cons in *; lia]| |done].
  destruct (HasPrefix hp [lbracket]) eqn:Ep.
  - destruct (Z.leb_spec 0 (LastIndexByte hp rbracket)) as [Hr0|]; [|done]. destruct (Z.ltb_spec (LastIndexByte hp rbracket) (LastIndexByte hp colon)); [|done]. cbn [andb].
    assert (LastIndexByte hp rbracket <> 0) as Hne.
    { apply HasPrefix_inv in Ep. destruct hp as [|b r]; [done|]. cbn in Ep. injection Ep as ->. intros Hb%LastIndexByte_head. discriminate Hb. }
    rewrite slice_ok by lia. cbn [out_bind]. rewrite sliceFrom_len by lia. done.
  - rewrite sliceTo_len, sliceFrom_len by lia. done.
Qed.
Lemma defaultPort_safe scheme port : safe (defaultPort scheme port).
Proof. unfold defaultPort. repeat case_bool_decide; try done. by destruct (ParseUint port 10 16). Qed.
Lemma putHeaderLine_safe h line : safe (putHeaderLine h line).
Proof.
  unfold putHeaderLine. pose proof (IndexByte_range line colon) as Hi. destruct (Z.ltb_spec (IndexByte line colon) 0); [done|].
  assert (IndexByte line colon < len line \/ line = []) as [Hl| ->]; [destruct line; [by right|left; rewrite len_cons in *; pose proof (len_nonneg line); lia]| |done].
  rewrite sliceTo_len, sliceFrom_len by lia. done.
Qed.
#[local] Hint Resolve splitHostPort_safe defaultPort_safe putHeaderLine_safe : gosafe.

Section calls.
Context {S C : Type} `{NetSafe S C}.
Variables (c : C) (s0 : S).
Abbreviation onlyConn m := (keep (via c s0) m).
#[local] Existing Instance netReader.

Lemma nRead_via n : onlyConn (nRead c n).
Proof. intros s Hs. split; [apply net_read|]. split; [by constructor|done]. Qed.
Lemma nWrite_via b : onlyConn (nWrite c b).
Proof. intros s Hs. split; [apply net_write|]. split; [by constructor|done]. Qed.
Hint Resolve nRead_via nWrite_via : gokeep.

Lemma bufioFlush_via buf : onlyConn (bufioFlush c buf).
Proof. unfold bufioFlush. go_keep. Qed.
Hint Resolve bufioFlush_via : gokeep.
Lemma bufioWrite_via fuel buf p : onlyConn (bufioWrite fuel c buf p).
Proof. revert buf p. induction fuel as [|f IH]; intros buf p; cbn [bufioWrite]; go_keep. Qed.
Hint Resolve bufioWrite_via : gokeep.
Lemma bufioPieces_via ps buf : onlyConn (bufioPieces c buf ps).
Proof. revert buf. induction ps as [|p ps IH]; intros buf; cbn [bufioPieces]; go_keep. Qed.
Hint Resolve bufioPieces_via : gokeep.
Lemma writeHTTPRequest_via req host port scheme : onlyConn (writeHTTPRequest c req host port scheme).
Proof.
  unfold writeHTTPRequest. apply keep_bind; [auto with gokeep|]. intros b. apply keep_bind; [|go_keep].
  apply keeps_lift. destruct (rq_body req) as [[x|e]|]; done.
Qed.

Abbreviation onlyReads m := (keep (fun lr => via c s0 (lr_r lr)) m).
Lemma onReader_via n : onlyReads (@onReader S _ (rdRead (Reader := netReader c) n)).
Proof. unfold onReader. eapply keep_zoom; [apply (nRead_via n)|done|done]. Qed.
Lemma setBuf_via b : onlyReads (@setBuf S b).
Proof. unfold setBuf. by apply keeps_modify. Qed.
Hint Resolve onReader_via setBuf_via : gokeep.
Lemma fill_via : onlyReads (@fill S (netReader c)).
Proof. unfold fill. go_keep. Qed.
Hint Resolve fill_via : gokeep.
Lemma readLine_via fuel acc : onlyReads (@readLine S (netReader c) fuel acc).
Proof. revert acc. induction fuel as [|f IH]; intros acc; cbn [readLine]; go_keep. Qed.
Lemma ReadLine_via : onlyReads (@ReadLine S (netReader c)).
Proof. apply readLine_via. Qed.
Hint Resolve ReadLine_via : gokeep.
Lemma headersFrom_via fuel h : onlyReads (@headersFrom S (netReader c) fuel h).
Proof. revert h. induction fuel as [|f IH]; intros h; cbn [headersFrom]; go_keep. destruct a; go_keep. Qed.
Hint Resolve headersFrom_via : gokeep.
Lemma readHead_via fuel : onlyReads (@readStatusAndHeaders S (netReader c) fuel).
Proof. unfold readStatusAndHeaders. go_keep. Qed.
End calls.

(** ** The whole round trip *)

Section outcome.
Context {S C : Type} `{NetOk S C} `{!NetSafe S C}.
Variables (ParseIP : list byte -> option IP) (StatusText : Z -> list byte).

(** The endpoint a request names. *)
Definition endpoint (req : Request) : out (list byte * list byte * Z) :=
  let scheme := ToLower (rq_scheme req) in
  ret_if negb (bool_decide (scheme = str "http")) && negb (bool_decide (scheme = str "https")) with ErrUnsupportedScheme;;
  let* hp := splitHostPort (rq_host req) in
  let* port := defaultPort scheme (snd hp) in
  Ok (scheme, fst hp, port).

(** A success: the endpoint was dialled, the request's text and nothing else
    was sent to it, and the answer's head was read off the same connection. *)
Definition exchanged (fuel : nat) (t : RoundTripper) (ctx : Ctx) (req : Request) (s : S)
  (resp : Response) (headers : httpHeaders) (c : C) (buf : list byte) (s' : S) : Prop :=
  exists scheme host port body status s1 s2 s3,
    endpoint req = Ok (scheme, host, port)
    /\ dial ParseIP t scheme host port (fst (timeouts t ctx)) s = (Ok c, s1)
    /\ snd (ignore (nSetDeadline c (snd (timeouts t ctx))) s1) = s2
    /\ match rq_body req with None => body = [] | Some r => r = inl body end
    /\ sent c s2 (requestText req host port scheme body) s3
    /\ @readStatusAndHeaders S (netReader c) fuel (newLineReader s3) = (Ok (status, headers), mkLineReader s' buf)
    /\ resp = responseOf StatusText status headers /\ cx_before ctx = None /\ cx_after ctx = None.

(** A failure: nothing was dialled, or what was is closed, as the last thing
    that is done, with nothing but its reads and writes in between. *)
Definition abandoned (t : RoundTripper) (ctx : Ctx) (req : Request) (s : S) (e : error) (s' : S) : Prop :=
  (endpoint req = Err e /\ s' = s)
  \/ (exists scheme host port, endpoint req = Ok (scheme, host, port)
        /\ dial ParseIP t scheme host port (fst (timeouts t ctx)) s = (Err e, s'))
  \/ (exists scheme host port c s1 s2, endpoint req = Ok (scheme, host, port)
        /\ dial ParseIP t scheme host port (fst (timeouts t ctx)) s = (Ok c, s1)
        /\ via c (snd (ignore (nSetDeadline c (snd (timeouts t ctx))) s1)) s2
        /\ s' = snd (nClose c s2)).

(** What follows the dial keeps to the connection. *)
Lemma closing_ends {A} c (m : M S A) (s0 s : S) :
  keep (via c s0) m -> via c s0 s ->
  match closing c m s with
  | (Ok a, s') => m s = (Ok a, s')
  | (Err e, s') => exists s1, via c s0 s1 /\ s' = snd (nClose c s1)
  | (Panic, _) => False
  end.
Proof.
  intros Hm Hs. unfold closing, bind, try, ignore, ret, throw. destruct (Hm s Hs) as (Hp & Hv & _).
  destruct (m s) as [[a|e1|] s1]; [done| |done]. cbn in Hv. unfold bind, try. pose proof (net_close c s1) as Hc.
  destruct (nClose c s1) as [[u|e2|] s2] eqn:Ec; [..|done]; (exists s1; by rewrite Ec).
Qed.

Lemma dial_safe t scheme host port d (s : S) : fst (dial (C := C) ParseIP t scheme host port d s) <> Panic.
Proof.
  unfold dial, resolve. case_bool_decide; [apply net_dialTLS|]. unfold bind.
  assert (forall m : M S IP, fst (m s) <> Panic -> fst (match m s with (Ok ip, s1) => nDialTCP4 (C := C) ip port d s1 | (Err e, s1) => (Err e, s1) | (Panic, s1) => (Panic, s1) end) <> Panic) as Hk.
  { intros m Hm. destruct (m s) as [[ip|e|] s1]; [apply net_dialTCP4|done|done]. }
  apply Hk. destruct (ParseIP host) as [ip|]; [by destruct (To4 ip)|]. destruct (rt_dns t); [apply net_resolve|done].
Qed.

End outcome.

(** ** Header values *)

(** The pairs in the order they came, and the values of one key. *)
Definition addAll (kvs : list (list byte * list byte)) : httpHeaders := foldl (fun h kv => addHeader h (fst kv) (snd kv)) ∅ kvs.
Definition valuesOf (k : list byte) (kvs : list (list byte * list byte)) : list (list byte) :=
  map snd (List.filter (fun kv => bool_decide (fst kv = k)) kvs).
Definition commaFree (v : list byte) : Prop := cutStr (str ", ") v = None.

Lemma commaFree_cons b x : commaFree (b :: x) -> commaFree x /\ ~ (b = x2c /\ exists y, x = x20 :: y).
Proof.
  unfold commaFree. rewrite cutStr_unfold. destruct (HasPrefix (b :: x) (str ", ")) eqn:E; [done|].
  destruct (cutStr (str ", ") x) as [[]|]; [done|]. intros _. split; [done|]. intros [-> [y ->]]. pose proof (HasPrefix_app (str ", ") y) as E2. change (str ", " ++ y) with (x2c :: x20 :: y) in E2. by rewrite E2 in E.
Qed.
Lemma cutComma x y : commaFree x -> cutStr (str ", ") (x ++ str ", " ++ y) = Some (x, y).
Proof.
  induction x as [|b x IH]; intros Hx; [apply (cutStr_app x2c [x20] [] y), not_elem_of_nil|].
  apply commaFree_cons in Hx as [Hx Hno]. rewrite cutStr_unfold.
  assert (HasPrefix ((b :: x) ++ str ", " ++ y) (str ", ") = false) as ->.
  { unfold HasPrefix. apply bool_decide_eq_false. intros E. apply Hno. destruct x as [|c x]; [by cbn in E; simplify_eq|].
    cbn in E. simplify_eq. eauto. }
  cbn [app]. change (x ++ x2c :: x20 :: y) with (x ++ str ", " ++ y). by rewrite IH.
Qed.

Lemma split_joined x r n :
  (length r < n)%nat -> Forall commaFree (x :: r) -> splitStrFrom n (str ", ") (Join (x :: r) (str ", ")) = x :: r.
Proof.
  revert x n. induction r as [|y r IH]; intros x [|n] Hn Hc; try lia; apply Forall_cons in Hc as [Hx Hr].
  - cbn [Join splitStrFrom]. by rewrite Hx.
  - rewrite Join_cons. cbn [splitStrFrom]. rewrite cutComma, IH by (done || cbn in Hn; lia). done.
Qed.
Lemma length_join x r : (length r <= length (Join (x :: r) (str ", ")))%nat.
Proof.
  revert x. induction r as [|y r IH]; intros x; [cbn; lia|]. rewrite Join_cons, !length_app. specialize (IH y). change (length (str ", ")) with 2%nat. change (length (y :: r)) with (S (length r)). lia.
Qed.
Lemma headerValues_join x r : Forall commaFree (x :: r) -> headerValues (Join (x :: r) (str ", ")) = x :: r.
Proof.
  intros Hc. unfold headerValues. pose proof Hc as [Hx _]%Forall_cons. destruct r as [|y r].
  - cbn [Join]. by rewrite Hx.
  - rewrite Join_cons at 1. rewrite cutComma by done. unfold SplitStr. apply split_joined; [|done]. pose proof (length_join x (y :: r)). lia.
Qed.

(** The parser's map holds the joined values. *)
Lemma addAll_lookup k kvs :
  addAll kvs !! k = match valuesOf k kvs with [] => None | vs => Some (Join vs (str ", ")) end.
Proof.
  unfold addAll. induction kvs as [|[k' v] kvs IH] using rev_ind; [done|]. rewrite foldl_app. cbn [foldl fst snd].
  set (h := foldl _ ∅ kvs) in *. unfold valuesOf. rewrite List.filter_app, map_app. fold (valuesOf k kvs). cbn [List.filter fst].
  unfold addHeader. destruct (decide (k' = k)) as [->|Hne].
  - rewrite bool_decide_eq_true_2 by done. cbn [map snd]. rewrite IH. destruct (valuesOf k kvs) as [|x r]; cbn [app]; rewrite lookup_insert_eq; [done|].
    f_equal. change (x :: r ++ [v]) with ((x :: r) ++ [v]). by rewrite Join_snoc by done.
  - rewrite bool_decide_eq_false_2 by done. cbn [map]. rewrite app_nil_r, <- IH. destruct (h !! k'); by rewrite lookup_insert_ne.
Qed.

(** Canonical keys of lower-case keys are distinct. *)
Lemma lower_upper b : lowerByte (upperByte b) = lowerByte b.
Proof. by destruct b. Qed.
Lemma lower_lower b : lowerByte (lowerByte b) = lowerByte b.
Proof. by destruct b. Qed.
Lemma ToLower_canonical k : ToLower (CanonicalHeaderKey k) = ToLower k.
Proof.
  unfold CanonicalHeaderKey. destruct (forallb tokenByte k); [|done]. generalize true. induction k as [|b k IH]; intros u; [done|].
  cbn [canonicalFrom]. unfold ToLower in *. rewrite !fmap_cons, IH. f_equal. destruct u; [apply lower_upper|apply lower_lower].
Qed.
Definition lowerKey (k : list byte) : Prop := ToLower k = k.

Lemma toHTTPHeader_lookup (headers : httpHeaders) k :
  (forall k v, headers !! k = Some v -> lowerKey k) -> lowerKey k ->
  toHTTPHeader headers !! CanonicalHeaderKey k = headerValues <$> headers !! k.
Proof.
  intros Hlow Hk. unfold toHTTPHeader. set (f := fun kv : list byte * list byte => _).
  assert (forall k1 k2, lowerKey k1 -> lowerKey k2 -> CanonicalHeaderKey k1 = CanonicalHeaderKey k2 -> k1 = k2) as Hinj.
  { intros k1 k2 H1 H2 E. rewrite <- H1, <- H2. by rewrite <- (ToLower_canonical k1), E, ToLower_canonical. }
  destruct (headers !! k) as [v|] eqn:Ev; cbn [fmap option_fmap option_map].
  - apply elem_of_list_to_map_1.
    + rewrite <- list_fmap_compose. apply NoDup_fmap_2_strong; [|apply NoDup_map_to_list].
      intros [k1 v1] [k2 v2] E1%elem_of_map_to_list E2%elem_of_map_to_list E. cbn in E.
      assert (k1 = k2) as <- by (apply Hinj; eauto). congruence.
    + apply list_elem_of_fmap. exists (k, v). split; [done|]. by apply elem_of_map_to_list.
  - apply not_elem_of_list_to_map_1. rewrite <- list_fmap_compose. intros ([k1 v1] & E & E1%elem_of_map_to_list)%list_elem_of_fmap.
    cbn in E. assert (k = k1) as <- by (apply Hinj; eauto). congruence.
Qed.

(** Repeated headers are joined by the parser and split again for net/http:
    what the caller finds under a key is the list of its values, in order,
    whenever none of them has a comma and a space of its own. *)
Theorem header_values_roundtrip kvs k :
  Forall (fun kv => lowerKey (fst kv) /\ commaFree (snd kv)) kvs -> lowerKey k ->
  toHTTPHeader (addAll kvs) !! CanonicalHeaderKey k = match valuesOf k kvs with [] => None | vs => Some vs end.
Proof.
  intros Hkvs Hk. rewrite toHTTPHeader_lookup; [|clear k Hk|done].
  - rewrite addAll_lookup. assert (Forall commaFree (valuesOf k kvs)) as Hc.
    { unfold valuesOf. clear -Hkvs. induction Hkvs as [|[k' v] kvs [_ Hv] _ IH]; cbn; [done|]. case_bool_decide; [by constructor|done]. }
    destruct (valuesOf k kvs) as [|x r]; [done|]. cbn [fmap option_fmap option_map]. by rewrite headerValues_join.
  - intros k v. rewrite addAll_lookup. unfold valuesOf. induction Hkvs as [|[k' v'] kvs [Hl _] _ IH]; cbn; [done|].
    case_bool_decide; [by subst|done].
Qed.

Lemma header_values_roundtrip_witness :
  toHTTPHeader (addAll [(str "link", str "a"); (str "content-type", str "text/html"); (str "link", str "b,c")]) !! str "Link"
  = Some [str "a"; str "b,c"].
Proof.
  apply (header_values_roundtrip [(str "link", str "a"); (str "content-type", str "text/html"); (str "link", str "b,c")] (str "link")); [|done].
  by repeat constructor.
Defined.

(** A single value that has one comes apart. *)
Lemma date_comes_apart :
  toHTTPHeader (addAll [(str "date", str "Tue, 02 Jan 2024 15:04:05 GMT")]) !! str "Date" = Some [str "Tue"; str "02 Jan 2024 15:04:05 GMT"].
Proof. vm_compute. reflexivity. Qed.

(** ** The Host header *)

Lemma splitHostPort_port host port :
  HasPrefix host [lbracket] = false -> host <> [] -> colon ∉ port ->
  splitHostPort (host ++ colon :: port) = Ok (host, port).
Proof.
  intros Hb Hne Hp. unfold splitHostPort. rewrite LastIndexByte_app by done. pose proof (len_nonneg host).
  rewrite (proj2 (Z.leb_le 0 (len host))) by lia.
  assert (HasPrefix (host ++ colon :: port) [lbracket] = false) as ->.
  { destruct host as [|b host]; [done|]. unfold HasPrefix in *. by cbn in *. }
  rewrite sliceTo_len, sliceFrom_len by (rewrite len_app, len_cons; pose proof (len_nonneg port); lia). cbn [out_bind].
  replace (Z.to_nat (len host)) with (length host) by (unfold len; lia). rewrite take_app_length.
  replace (Z.to_nat (len host + 1)) with (length host + 1)%nat by (unfold len; lia). by rewrite drop_app_add.
Qed.

(** The Host header names the endpoint: reading it the way a URL's host is read
    gives back the host and the port dialled, the default one included. *)
Theorem host_header_names_endpoint scheme host port :
  scheme = str "http" \/ scheme = str "https" -> HasPrefix host [lbracket] = false -> host <> [] -> colon ∉ host ->
  0 <= port < 2 ^ 16 ->
  exists portStr, splitHostPort (hostHeader scheme host port) = Ok (host, portStr) /\ defaultPort scheme portStr = Ok port.
Proof.
  intros Hs Hb Hne Hc Hp. unfold hostHeader.
  destruct ((bool_decide (scheme = str "http") && negb (port =? 80)) || (bool_decide (scheme = str "https") && negb (port =? 443))) eqn:E.
  - exists (FormatUint port 10). split; [apply splitHostPort_port; [done|done|]|].
    + apply hexChar_notin; [apply FormatUint_hex; lia|right; done].
    + unfold defaultPort. pose proof (ParseUint_FormatUint port 10 ltac:(lia) ltac:(lia)) as Hq.
      rewrite bool_decide_eq_false_2 by (intros Hz; by rewrite Hz in Hq). unfold ParseUint in *.
      destruct (FormatUint port 10); [done|]. destruct (digitsVal 10 _ 0) as [v|]; [|done].
      destruct (v <? 2 ^ 64); [|done]. injection Hq as ->. rewrite (proj2 (Z.ltb_lt _ _)) by lia. unfold u16. by rewrite Z.mod_small.
  - exists []. unfold splitHostPort. rewrite LastIndexByte_none by done. split; [done|].
    unfold defaultPort. rewrite bool_decide_eq_true_2 by done.
    destruct Hs as [-> | ->]; cbn in E |- *; destruct (Z.eqb_spec port 80), (Z.eqb_spec port 443); cbn in E; try done; by f_equal.
Qed.
Lemma host_header_names_endpoint_witness :
  exists portStr, splitHostPort (str "ghcr.io:5000") = Ok (str "ghcr.io", portStr) /\ defaultPort (str "https") portStr = Ok 5000.
Proof.
  apply (host_header_names_endpoint (str "https") (str "ghcr.io") 5000); [by right|done|done|by apply (bool_decide_unpack _)|lia].
Defined.

(** ** The copiers against those of http.go *)

(** A reader of which no read ends with ErrTCP4PeerClosed, from [er_ok] on:
    crypto/tls answers io.EOF after the peer's close_notify. *)
Class EofReader (R : Type) `{Reader R} := {
  er_ok : R -> Prop;
  er_step n r o r' : er_ok r -> rdRead n r = (o, r') -> er_ok r' /\ forall b, o <> Ok (b, Some ErrTCP4PeerClosed)
}.
Lemma seg_eof_step n (r : segReader) o r' :
  sg_fin r <> ErrTCP4PeerClosed -> rdRead n r = (o, r') -> sg_fin r' <> ErrTCP4PeerClosed /\ forall b, o <> Ok (b, Some ErrTCP4PeerClosed).
Proof.
  destruct r as [[|x segs] fin]; cbn; intros Hok [= <- <-]; cbn; (split; [done|]); intros b; [|done]. by intros [= _ E].
Qed.
#[global] Instance seg_eof_reader : EofReader segReader := {
  er_ok r := sg_fin r <> ErrTCP4PeerClosed; er_step := seg_eof_step
}.

(** Same count, same state, and an error on one side only when on the other. *)
Definition agree {A} (r1 r2 : out (Z * option error) * A) : Prop :=
  snd r1 = snd r2 /\
  match fst r1, fst r2 with
  | Ok (n1, e1), Ok (n2, e2) => n1 = n2 /\ (e1 = None <-> e2 = None)
  | Err x, Err y => x = y
  | Panic, Panic => True
  | _, _ => False
  end.
Lemma agree_refl {A} (r : out (Z * option error) * A) : agree r r.
Proof. split; [done|]. by destruct (fst r) as [[n e]|e|]. Qed.

(** From [I] the call stays in [I], whatever its outcome, and its results
    satisfy [Q]. *)
Definition stays {S A} (I : S -> Prop) (m : M S A) (Q : A -> Prop) : Prop :=
  forall s o s', I s -> m s = (o, s') -> I s' /\ forall a, o = Ok a -> Q a.

Section stays.
Context {S : Type} (I : S -> Prop).

Lemma stays_bind {A B} (m : M S A) (k : A -> M S B) P Q :
  stays I m P -> (forall a, P a -> stays I (k a) Q) -> stays I (bind m k) Q.
Proof.
  intros Hm Hk s o s' Hs. unfold bind. destruct (m s) as [[a|e|] s1] eqn:E; destruct (Hm s _ s1 Hs E) as [Hs1 Ha]; [|intros [= <- <-]; by split..].
  intros E2. eapply Hk; [by apply Ha|exact Hs1|exact E2].
Qed.
Lemma stays_ret {A} (a : A) (Q : A -> Prop) : Q a -> stays I (ret a) Q.
Proof. intros Hq s o s' Hs [= <- <-]. split; [done|]. by intros ? [= <-]. Qed.
Lemma stays_throw {A} e (Q : A -> Prop) : stays I (throw e) Q.
Proof. intros s o s' Hs [= <- <-]. by split. Qed.
Lemma stays_lift {A} (m : out A) : stays I (lift m) (fun _ => True).
Proof. intros s o s' Hs [= <- <-]. by split. Qed.
Lemma stays_gets {A} (f : S -> A) : stays I (gets f) (fun _ => True).
Proof. intros s o s' Hs [= <- <-]. by split. Qed.
Lemma stays_modify (f : S -> S) : (forall s, I s -> I (f s)) -> stays I (modify f) (fun _ => True).
Proof. intros Hf s o s' Hs [= <- <-]. split; [by apply Hf|done]. Qed.
Lemma stays_try {A} (m : M S A) Q : stays I m Q -> stays I (try m) (fun _ => True).
Proof. intros Hm s o s' Hs. unfold try. destruct (m s) as [[a|e|] s1] eqn:E; intros [= <- <-]; by destruct (Hm s _ s1 Hs E). Qed.
Lemma stays_weaken {A} (m : M S A) (P Q : A -> Prop) : stays I m P -> (forall a, P a -> Q a) -> stays I m Q.
Proof. intros Hm HPQ s o s' Hs E. destruct (Hm s o s' Hs E) as [Hs' Ha]. split; [done|auto]. Qed.

(** Two programs that go on alike after a common call. *)
Lemma agree_bind {A} (m : M S A) (k1 k2 : A -> M S (Z * option error)) P s :
  stays I m P -> I s -> (forall a s', P a -> I s' -> agree (k1 a s') (k2 a s')) -> agree (bind m k1 s) (bind m k2 s).
Proof.
  intros Hm Hs Hk. unfold bind. destruct (m s) as [[a|e|] s1] eqn:E; [|by split..]. destruct (Hm s _ s1 Hs E) as [Hs1 Ha].
  apply Hk; [by apply Ha|done].
Qed.
End stays.

(** A copier's read: not ended by ErrTCP4PeerClosed. *)
Definition goodRead (r : list byte * option error) : Prop := snd r <> Some ErrTCP4PeerClosed.

Section agreement.
Context {R W : Type} `{EofReader R} `{Writer W}.
Definition lrOk (lr : lineReader R) : Prop := er_ok (lr_r lr).
Definition readable (s : lineReader R * W) : Prop := lrOk (fst s).

Lemma rdRead_stays n : stays er_ok (rdRead n) goodRead.
Proof.
  intros r o r' Hr E. destruct (er_step n r o r' Hr E) as [Hr' Hb]. split; [done|]. intros [b e] ->. unfold goodRead. cbn. intros ->. by apply (Hb b).
Qed.
Lemma onReader_stays {A} (m : M R A) Q : stays er_ok m Q -> stays lrOk (onReader m) Q.
Proof.
  intros Hm lr o lr' Hr. unfold onReader, zoom. destruct (m (lr_r lr)) as [x r'] eqn:E. intros [= <- <-]. by eapply Hm.
Qed.
Lemma onLR_stays {A} (m : M (lineReader R) A) Q : stays lrOk m Q -> stays readable (onLR m) Q.
Proof.
  intros Hm s o s' Hs. unfold onLR, zoom. destruct (m (fst s)) as [x lr'] eqn:E. intros [= <- <-]. by eapply Hm.
Qed.

Lemma setBuf_stays b : stays lrOk (setBuf b) (fun _ => True).
Proof. by apply stays_modify. Qed.
Lemma lrRead_stays n : stays lrOk (lrRead n) goodRead.
Proof.
  unfold lrRead. eapply stays_bind; [apply stays_gets|]. intros buf _. destruct (0 <? len buf).
  - eapply stays_bind; [apply setBuf_stays|]. intros _ _. by apply stays_ret.
  - apply onReader_stays, rdRead_stays.
Qed.
Lemma fill_stays : stays lrOk fill (fun _ => True).
Proof.
  unfold fill. eapply stays_bind; [apply stays_gets|]. intros buf _. destruct (_ =? _); [by apply stays_ret|].
  eapply stays_bind; [apply onReader_stays, rdRead_stays|]. intros r _. eapply stays_bind; [apply setBuf_stays|]. intros _ _. by apply stays_ret.
Qed.
Lemma readLine_stays fuel acc : stays lrOk (readLine fuel acc) (fun _ => True).
Proof.
  revert acc. induction fuel as [|f IH]; intros acc; cbn [readLine]; [apply stays_throw|].
  eapply stays_bind; [apply stays_gets|]. intros buf _. destruct (cutByte lf buf) as [[line rest]|].
  - eapply stays_bind; [apply setBuf_stays|]. intros _ _. destruct (_ <? _); [apply stays_throw|by apply stays_ret].
  - destruct (_ <? _); [apply stays_throw|]. eapply stays_bind; [apply setBuf_stays|]. intros _ _.
    eapply stays_bind; [apply fill_stays|]. intros [e|] _; [|apply IH]. eapply stays_bind; [apply stays_gets|]. intros b _.
    destruct (0 <? len b); [apply IH|apply stays_throw].
Qed.
Lemma line_stays : stays readable (try (onLR ReadLine)) (fun _ => True).
Proof. eapply stays_try, onLR_stays, readLine_stays. Qed.
Lemma sinkWrite_stays b : stays readable (@sinkWrite R W _ false b) (fun _ => True).
Proof. intros s o s' Hs. unfold sinkWrite, zoom. destruct (wrWrite b (snd s)) as [x w]. intros [= <- <-]. by split. Qed.
Lemma writeSome_stays b : stays readable (@writeSome R W _ b) (fun _ => True).
Proof. unfold writeSome. destruct (0 <? len b); [apply sinkWrite_stays|by apply stays_ret]. Qed.

(** The end-of-stream tests of the two files agree on such reads. *)
Lemma good_eof e : Some e <> Some ErrTCP4PeerClosed -> isEOF e = bool_decide (e = ErrEOF).
Proof. intros He. unfold isEOF. rewrite bool_decide_eq_false_2 by congruence. done. Qed.

(** The head of every copier's loop: a read and its write. *)
Lemma agree_block n (k1 k2 : list byte * option error -> Z * option error -> M (lineReader R * W) (Z * option error)) s :
  readable s ->
  (forall b e c s', e <> Some ErrTCP4PeerClosed -> readable s' -> agree (k1 (b, e) (c, None) s') (k2 (b, e) (c, None) s')) ->
  (forall b e c we s', agree (k1 (b, e) (c, Some we) s') (k2 (b, e) (c, Some we) s')) ->
  agree (bind (onLR (lrRead n)) (fun r => bind (writeSome (fst r)) (k1 r)) s)
        (bind (onLR (lrRead n)) (fun r => bind (writeSome (fst r)) (k2 r)) s).
Proof.
  intros Hs Hn Hw. eapply agree_bind; [apply onLR_stays, lrRead_stays|done|]. intros [b e] s1 Hg Hs1.
  eapply agree_bind; [apply writeSome_stays|done|]. intros [c [we|]] s2 _ Hs2; [apply Hw|by apply Hn].
Qed.

Lemma bounded_agrees fuel n written s :
  readable s -> agree (streamBounded fuel n written s) (streamBoundedFrom (R := R) (W := W) fuel false n written s).
Proof.
  revert written s. induction fuel as [|f IH]; intros written s Hs; cbn [streamBounded streamBoundedFrom];
    (destruct (n <=? written); [apply agree_refl|]); [apply agree_refl|].
  eapply agree_block; [done| |intros; apply agree_refl].
  intros b e c s' Hg Hs'. cbn [fst snd]. destruct e as [e|]; [|by apply IH]. rewrite good_eof by done. destruct (decide (e = ErrEOF)) as [He|He];
    [rewrite bool_decide_eq_true_2 by done|rewrite bool_decide_eq_false_2 by done]; apply agree_refl.
Qed.
Lemma identity_agrees fuel written s :
  readable s -> agree (streamIdentity fuel written s) (streamIdentityFrom (R := R) (W := W) fuel false written s).
Proof.
  revert written s. induction fuel as [|f IH]; intros written s Hs; cbn [streamIdentity streamIdentityFrom]; [apply agree_refl|].
  eapply agree_block; [done| |intros; apply agree_refl].
  intros b e c s' Hg Hs'. cbn [fst snd]. destruct e as [e|]; [|by apply IH]. rewrite good_eof by done. destruct (decide (e = ErrEOF)) as [He|He];
    [rewrite bool_decide_eq_true_2 by done|rewrite bool_decide_eq_false_2 by done]; apply agree_refl.
Qed.
Lemma chunk_agrees fuel remaining written s :
  readable s -> agree (chunkCopy fuel remaining written s) (chunkData (R := R) (W := W) fuel false remaining written s).
Proof.
  revert remaining written s. induction fuel as [|f IH]; intros remaining written s Hs; cbn [chunkCopy chunkData];
    (destruct (remaining <=? 0); [apply agree_refl|]); [apply agree_refl|].
  eapply agree_block; [done| |intros; apply agree_refl].
  intros b e c s' Hg Hs'. cbn [fst snd]. destruct e as [e|]; [|by apply IH]. done.
Qed.

Lemma chunkCopy_stays fuel remaining written : stays readable (@chunkCopy R _ W _ fuel remaining written) (fun _ => True).
Proof.
  revert remaining written. induction fuel as [|f IH]; intros remaining written; cbn [chunkCopy];
    (destruct (remaining <=? 0); [by apply stays_ret|]); [apply stays_throw|].
  eapply stays_bind; [apply onLR_stays, lrRead_stays|]. intros r _. eapply stays_bind; [apply writeSome_stays|]. intros [c [we|]] _; cbn [fst snd];
    [by apply stays_ret|]. destruct (snd r); [by apply stays_ret|apply IH].
Qed.
Lemma dropTrailer_stays fuel : stays readable (@dropTrailer R W _ fuel) (fun _ => True).
Proof.
  induction fuel as [|f IH]; cbn [dropTrailer]; [apply stays_throw|]. eapply stays_bind; [apply line_stays|].
  intros [[|? ?]|] _; [by apply stays_ret|apply IH|by apply stays_ret].
Qed.

(** Two copies that agree, and what follows them. *)
Lemma agree_then (m1 m2 : M (lineReader R * W) (Z * option error)) k1 k2 s :
  agree (m1 s) (m2 s) -> stays readable m1 (fun _ => True) -> readable s ->
  (forall n s', readable s' -> agree (k1 (n, None) s') (k2 (n, None) s')) ->
  (forall n e1 e2 s', agree (k1 (n, Some e1) s') (k2 (n, Some e2) s')) ->
  agree (bind m1 k1 s) (bind m2 k2 s).
Proof.
  intros [Hst Ho] Hstay Hs Hn He. unfold bind. destruct (m1 s) as [o1 s1] eqn:E1, (m2 s) as [o2 s2]. cbn [fst snd] in *. subst s2.
  destruct (Hstay s o1 s1 Hs E1) as [Hs1 _].
  destruct o1 as [[n1 e1]|x|], o2 as [[n2 e2]|y|]; try done. destruct Ho as [<- Hee].
  destruct e1 as [e1|], e2 as [e2|]; [apply He|by pose proof (proj2 Hee eq_refl)|by pose proof (proj1 Hee eq_refl)|by apply Hn].
Qed.

Lemma chunked_agrees fuel written s :
  readable s -> agree (streamChunked fuel written s) (streamChunkedFrom (R := R) (W := W) fuel false written s).
Proof.
  revert written s. induction fuel as [|f IH]; intros written s Hs; cbn [streamChunked streamChunkedFrom]; [apply agree_refl|].
  eapply agree_bind; [apply line_stays|done|]. intros [line|e] s1 _ Hs1; [|apply agree_refl].
  eapply agree_bind; [apply stays_lift|done|]. intros size s2 _ Hs2. destruct (ParseUint _ 16 64) as [v|]; [|apply agree_refl].
  destruct (v =? 0); [apply agree_refl|].
  apply agree_then; [by apply chunk_agrees|apply chunkCopy_stays|done| |].
  - intros n s3 Hs3. cbn [fst snd]. eapply agree_bind; [apply line_stays|done|]. intros [l|e] s4 _ Hs4; [by apply IH|apply agree_refl].
  - intros n e1 e2 s3. by split.
Qed.
End agreement.

(** The copiers of this transport and those of http.go, which are proved to
    deliver a body intact however the connection cuts it, do the same to the
    same reader and writer, whatever either of these does, and fail together:
    as long as no read ends with ErrTCP4PeerClosed, which only http.go takes for
    the end of the stream. *)
Theorem copiers_agree {R W} `{EofReader R} `{Writer W} fuel (s : lineReader R * W) :
  readable s ->
  (forall n, agree (streamBounded fuel n 0 s) (streamBoundedBody fuel false n s))
  /\ agree (streamIdentity fuel 0 s) (streamIdentityBody fuel false s)
  /\ agree (streamChunked fuel 0 s) (streamChunkedBody fuel false s).
Proof.
  intros Hs. split; [intros n; by apply bounded_agrees|]. split; [by apply identity_agrees|by apply chunked_agrees].
Qed.
Lemma copiers_agree_witness :
  let s := (mkLineReader (mkSegReader [str "5;x"; crlf ++ str "hel"; str "lo" ++ crlf ++ str "0" ++ crlf ++ crlf] ErrEOF) [], @nil byte) in
  agree (streamChunked 99 0 s) (streamChunkedBody 99 false s) /\ fst (streamChunked 99 0 s) = Ok (5, None).
Proof.
  intros s. split; [|by vm_compute]. apply (copiers_agree (R := segReader) 99 s). done.
Defined.

(** Over plain HTTP the connection answers ErrTCP4PeerClosed when the peer has
    closed in order: a body that ends there arrives whole and is then reported
    as failed, where http.go reports success. *)
Lemma identity_spec fuel written lr w :
  segsOk lr -> finOf lr = ErrTCP4PeerClosed -> (length (content lr) < fuel)%nat ->
  fst (streamIdentity fuel written (lr, w)) = Ok (written + len (content lr), Some ErrTCP4PeerClosed)
  /\ snd (snd (streamIdentity fuel written (lr, w))) = w ++ content lr
  /\ fst (streamIdentityFrom fuel false written (lr, w)) = Ok (written + len (content lr), None).
Proof.
  revert written lr w. induction fuel as [|f IH]; intros written lr w Hs Hfin Hf; [lia|]. cbn [streamIdentity streamIdentityFrom].
  destruct (onLR_read (Z.to_nat streamReadBufBytes) lr w ltac:(unfold streamReadBufBytes; lia) Hs) as (b & lr1 & Hs1 & Hf1 & Hl & Hc & Hr).
  destruct Hr as [[E Er]|[Hne Er]]; unfold bind at 1 3 5; rewrite Er; unfold bind, writeSome; cbn [fst snd].
  - change (0 <? len (@nil byte)) with false. cbv iota. unfold ret. cbn [fst snd]. rewrite Hfin, E. change (len (@nil byte)) with 0.
    rewrite !Z.add_0_r, app_nil_r. done.
  - rewrite (proj2 (Z.ltb_lt 0 (len b))) by (destruct b; [done|len_lia]). rewrite sinkWrite_append. cbn [fst snd].
    rewrite Hc in *. rewrite length_app in Hf. assert (0 < length b)%nat by (destruct b; [done|cbn; lia]).
    destruct (IH (written + len b) lr1 (w ++ b)) as (-> & -> & ->); [done|by rewrite Hf1|lia|].
    rewrite len_app, <- app_assoc. replace (written + len b + len (content lr1)) with (written + (len b + len (content lr1))) by lia. done.
Qed.
Theorem http_identity_body_fails fuel lr w :
  segsOk lr -> finOf lr = ErrTCP4PeerClosed -> (length (content lr) < fuel)%nat ->
  fst (streamIdentity fuel 0 (lr, w)) = Ok (len (content lr), Some ErrTCP4PeerClosed)
  /\ snd (snd (streamIdentity fuel 0 (lr, w))) = w ++ content lr
  /\ fst (streamIdentityBody fuel false (lr, w)) = Ok (len (content lr), None).
Proof. intros. by apply (identity_spec fuel 0). Qed.

(** ** A run *)

(** A peer that answers with fixed segments; what it was sent, and whether its
    connection is closed. *)
Record toyPeer := mkToyPeer { tp_in : list (list byte); tp_out : list byte; tp_closed : bool }.
#[local] Instance toyNet : Net toyPeer unit := {|
  nDialTLS _ _ _ _ := ret tt;
  nResolveA _ _ _ := ret [];
  nDialTCP4 _ _ _ := ret tt;
  nRead _ n := fun s =>
    match tp_in s with
    | [] => (Ok ([], Some ErrEOF), s)
    | x :: r => (Ok (take n x, None), mkToyPeer (match drop n x with [] => r | y => y :: r end) (tp_out s) (tp_closed s))
    end;
  nWrite _ b := fun s => (Ok (len b, None), mkToyPeer (tp_in s) (tp_out s ++ b) (tp_closed s));
  nClose _ := modify (fun s => mkToyPeer (tp_in s) (tp_out s) true);
  nSetDeadline _ _ := ret tt
|}.
#[local] Instance toyNet_ok : NetOk toyPeer unit.
Proof. split. intros c b s n s' [= <- _]. done. Qed.
#[local] Instance toyNet_safe : NetSafe toyPeer unit.
Proof. split; intros; try discriminate. unfold nRead, toyNet. by destruct (tp_in s). Qed.

Definition toyRequest : Request :=
  mkRequest (str "HTTPS") (str "ghcr.io:8443") (str "/v2/") [] [(str "Accept", [str "*/*"]); (str "connection", [str "keep-alive"])] None.
Definition toyAnswer : toyPeer :=
  mkToyPeer [str "HTTP/1.1 401 Unauthorized" ++ crlf ++ str "WWW-Auth: a"; crlf ++ crlf ++ str "no"] [] false.
Definition toyTrip := RoundTrip (C := unit) (fun _ => None) (fun _ => []) 20 (mkRT None 0 0) (mkCtx (Some 5) None None) (Some toyRequest) toyAnswer.

Lemma toyTrip_runs :
  match toyTrip with
  | (Ok (resp, _, _, buf), s') => bool_decide (rs_StatusCode resp = 401) && bool_decide (buf = str "no")
      && bool_decide (tp_out s' = str "GET /v2/ HTTP/1.1" ++ crlf ++ str "Host: ghcr.io:8443" ++ crlf ++ str "User-Agent: ministack-orasoci/1.0" ++ crlf
         ++ str "Accept: */*" ++ crlf ++ str "Connection: close" ++ crlf ++ crlf)
  | _ => false
  end = true.
Proof. vm_compute. reflexivity. Qed.

