(* ===== verification/OciRef.v ===== *)
(** * OCI references, digests and authentication tokens

    uefiboard/ministack/oci: ref.go, digest.go and the string half of
    registry.go (challenge parsing, token URLs, token extraction). *)

From S2P Require Import Prelude GoStr.

(** ** References *)

Record Ref := mkRef {
  ref_Scheme : list byte;
  ref_Host : list byte;
  ref_Repo : list byte;
  ref_Reference : list byte
}.

Definition localHost (host : list byte) : bool :=
  HasPrefix host (str "localhost") || HasPrefix host (str "127.0.0.1").

Definition ParseRef (s : list byte) : out Ref :=
  let i := Index s (str "://") in
  let* scheme := if 0 <=? i then sliceTo s i else Ok (str "https") in
  let* s := if 0 <=? i then sliceFrom s (i + 3) else Ok s in
  let slash := Index s (str "/") in
  ret_if slash <? 0 with ErrRefNoRepo;;
  let* host := sliceTo s slash in
  let* rest := sliceFrom s (slash + 1) in
  let scheme := if localHost host && bool_decide (scheme = str "https") then str "http" else scheme in
  let at_ := LastIndexByte rest x40 in
  let colon := LastIndexByte rest x3a in
  let i := if 0 <=? at_ then at_ else colon in
  let* repo := if 0 <=? i then sliceTo rest i else Ok rest in
  let* ref := if 0 <=? i then sliceFrom rest (i + 1) else Ok (str "latest") in
  ret_if bool_decide (repo = []) with ErrRefNoRepo;;
  Ok (mkRef scheme host repo ref).

Definition baseURL (r : Ref) : list byte :=
  ref_Scheme r ++ str "://" ++ ref_Host r ++ str "/v2/" ++ ref_Repo r.
Definition manifestURL (r : Ref) (reference : list byte) : list byte := baseURL r ++ str "/manifests/" ++ reference.
Definition blobURL (r : Ref) (d : list byte) : list byte := baseURL r ++ str "/blobs/" ++ d.

(** ** Digests *)

Definition digestSHA256HexLen : Z := 64.

(** hex.EncodeToString and the validity check of hex.DecodeString. *)
Definition hexEncode (b : list byte) : list byte :=
  concat ((fun c => [digitChar (Z.shiftr (b2z c) 4); digitChar (Z.land (b2z c) 15)]) <$> b).
Definition hexValid (s : list byte) : bool :=
  Nat.even (length s) && forallb (fun c => match digitVal c with Some _ => true | None => false end) s.

(** The algorithm and the hexadecimal part. *)
Definition ParseDigest (s : list byte) : out (list byte * list byte) :=
  let i := IndexByte s x3a in
  ret_if i <? 0 with ErrDigestBadShape;;
  let* algo := sliceTo s i in
  let* hexStr := sliceFrom s (i + 1) in
  ret_if negb (bool_decide (algo = str "sha256")) with ErrDigestUnsupported;;
  ret_if negb (len hexStr =? digestSHA256HexLen) with ErrDigestBadShape;;
  ret_if negb (hexValid hexStr) with ErrDigestBadShape;;
  Ok (algo, hexStr).

Section digest.
(** crypto/sha256's Sum256. *)
Variable Sum256 : list byte -> list byte.

Definition DigestFromBytes (b : list byte) : list byte := str "sha256:" ++ hexEncode (Sum256 b).

Definition VerifyDigest (want b : list byte) : out unit :=
  let* w := ParseDigest want in
  ret_if negb (EqualFold (hexEncode (Sum256 b)) (snd w)) with ErrDigestMismatch;;
  Ok tt.
End digest.

(** ** Challenges and tokens *)

Definition quote : byte := x22.
Definition comma : byte := x2c.

(** The loop of splitQuoted: the rest of the string, the current element and
    whether it is inside quotes. *)
Fixpoint splitQuotedFrom (s cur : list byte) (inQuote : bool) : list (list byte) :=
  match s with
  | [] => if 0 <? len cur then [TrimSpace cur] else []
  | ch :: r =>
      if decide (ch = quote) then splitQuotedFrom r (cur ++ [ch]) (negb inQuote)
      else if bool_decide (ch = comma) && negb inQuote then TrimSpace cur :: splitQuotedFrom r [] inQuote
      else splitQuotedFrom r (cur ++ [ch]) inQuote
  end.
Definition splitQuoted (s : list byte) : list (list byte) := splitQuotedFrom s [] false.

(** [strings.Trim(s, cutset)] for a set of bytes. *)
Fixpoint trimLeftSet (cut : list byte) (s : list byte) : list byte :=
  match s with
  | b :: r => if bool_decide (b ∈ cut) then trimLeftSet cut r else s
  | [] => []
  end.
Definition Trim (s cut : list byte) : list byte := rev (trimLeftSet cut (rev (trimLeftSet cut s))).

Abbreviation challengeParams := (gmap (list byte) (list byte)).

Fixpoint challengeFrom (ps : list (list byte)) (params : challengeParams) : out challengeParams :=
  match ps with
  | [] => Ok params
  | p :: r =>
      let i := Index p (str "=") in
      if i <? 0 then challengeFrom r params
      else
        let* k := sliceTo p i in
        let* v := sliceFrom p (i + 1) in
        challengeFrom r (<[ToLower (TrimSpace k) := Trim v [quote; x20]]> params)
  end.

Definition parseBearerChallenge (chal : list byte) : out challengeParams :=
  ret_if negb (HasPrefix (ToLower chal) (str "bearer ")) with ErrChallengeUnsupported;;
  let* rest := sliceFrom chal (len (str "Bearer ")) in
  challengeFrom (splitQuoted rest) ∅.

Definition unreserved (c : byte) : bool :=
  let z := b2z c in
  ((65 <=? z) && (z <=? 90)) || ((97 <=? z) && (z <=? 122)) || ((48 <=? z) && (z <=? 57)) ||
  (z =? 45) || (z =? 95) || (z =? 46) || (z =? 126).

(** "0123456789ABCDEF"[d] *)
Definition hexUpper (d : Z) : byte := z2b (if d <? 10 then 48 + d else 65 + (d - 10)).

Definition urlEscape (s : list byte) : list byte :=
  concat ((fun c => if unreserved c then [c]
                    else [x25; hexUpper (Z.shiftr (b2z c) 4); hexUpper (Z.land (b2z c) 15)]) <$> s).

Definition buildTokenURL (realm service scope : list byte) : list byte :=
  if bool_decide (service = []) && bool_decide (scope = []) then realm
  else
    let sep := if 0 <=? Index realm (str "?") then str "&" else str "?" in
    realm ++ sep ++
    (if bool_decide (service = []) then [] else str "service=" ++ urlEscape service) ++
    (if bool_decide (scope = []) then []
     else (if bool_decide (service = []) then [] else str "&") ++ str "scope=" ++ urlEscape scope).

Definition extractStringField (body key : list byte) : out (list byte) :=
  let needle := [quote] ++ key ++ [quote] in
  let i := Index body needle in
  if i <? 0 then Ok []
  else
    let* rest := sliceFrom body (i + len needle) in
    let colon := IndexByte rest x3a in
    if colon <? 0 then Ok []
    else
      let* rest := sliceFrom rest (colon + 1) in
      let openQuote := IndexByte rest quote in
      if openQuote <? 0 then Ok []
      else
        let* rest := sliceFrom rest (openQuote + 1) in
        let closeQuote := IndexByte rest quote in
        if closeQuote <? 0 then Ok [] else sliceTo rest closeQuote.

Definition parseTokenBody (body : list byte) : out (list byte) :=
  let* tok := extractStringField body (str "token") in
  if negb (bool_decide (tok = [])) then Ok tok
  else extractStringField body (str "access_token").

(** ** References: round trip *)

Lemma Index_app c sep x y : c ∉ x -> Index (x ++ (c :: sep) ++ y) (c :: sep) = len x.
Proof. intros Hx. unfold Index. by rewrite cutStr_app. Qed.

(** A reference splits into its parts: a tag after the last colon, a digest
    after the last at sign, which wins over colons.  A local registry asked for
    by https is contacted by http. *)
Theorem parse_ref_roundtrip scheme host repo sep reference :
  x3a ∉ scheme -> x2f ∉ host -> repo <> [] ->
  (sep = x40 /\ x40 ∉ reference) \/ (sep = x3a /\ x40 ∉ repo ++ reference /\ x3a ∉ reference) ->
  ParseRef (scheme ++ str "://" ++ host ++ str "/" ++ repo ++ [sep] ++ reference)
  = Ok (mkRef (if localHost host && bool_decide (scheme = str "https") then str "http" else scheme) host repo reference).
Proof.
  intros Hs Hh Hr Hsep. unfold ParseRef. change (str "://") with (x3a :: [x2f; x2f]).
  rewrite Index_app by done. pose proof (len_nonneg scheme). pose proof (len_nonneg host). pose proof (len_nonneg repo).
  rewrite (proj2 (Z.leb_le 0 (len scheme))) by done. rewrite sliceTo_app by done. cbn [out_bind].
  rewrite app_assoc, sliceFrom_app by len_lia. cbn [out_bind].
  change (str "/") with (x2f :: []). rewrite Index_app by done.
  rewrite (proj2 (Z.ltb_ge _ _)) by done. rewrite sliceTo_app by done. cbn [out_bind].
  rewrite app_assoc, sliceFrom_app by len_lia. cbn [out_bind app].
  assert ((if 0 <=? LastIndexByte (repo ++ sep :: reference) x40 then LastIndexByte (repo ++ sep :: reference) x40
           else LastIndexByte (repo ++ sep :: reference) x3a) = len repo) as ->.
  { destruct Hsep as [[-> Hr40]|(-> & Hat & Hcol)].
    - by rewrite LastIndexByte_app, (proj2 (Z.leb_le _ _)) by done.
    - rewrite elem_of_app in Hat. rewrite (LastIndexByte_none _ x40); [by rewrite LastIndexByte_app|].
      rewrite elem_of_app, elem_of_cons. intros [?|[E|?]]; [tauto|discriminate E|tauto]. }
  rewrite (proj2 (Z.leb_le _ _)) by done. rewrite sliceTo_app by done. cbn [out_bind].
  rewrite cons_middle, app_assoc, sliceFrom_app by len_lia. cbn [out_bind].
  by rewrite bool_decide_eq_false_2.
Qed.

Lemma parse_ref_roundtrip_witness :
  ParseRef (str "https://ghcr.io/cloud-boot/kernel:v1") = Ok (mkRef (str "https") (str "ghcr.io") (str "cloud-boot/kernel") (str "v1")) /\
  ParseRef (str "https://localhost:5000/repo@sha256:00") = Ok (mkRef (str "http") (str "localhost:5000") (str "repo") (str "sha256:00")).
Proof.
  split.
  - apply (parse_ref_roundtrip (str "https") (str "ghcr.io") (str "cloud-boot/kernel") x3a (str "v1"));
      by apply (bool_decide_unpack _); vm_compute.
  - apply (parse_ref_roundtrip (str "https") (str "localhost:5000") (str "repo") x40 (str "sha256:00"));
      by apply (bool_decide_unpack _); vm_compute.
Defined.

(** ** Digests *)

Lemma hexEncode_hex b : Forall hexChar (hexEncode b).
Proof.
  unfold hexEncode. apply Forall_concat. rewrite Forall_fmap. apply Forall_true. intros c. unfold compose.
  pose proof (b2z_range c) as Hc. change 15 with (Z.ones 4). rewrite Z.land_ones, Z.shiftr_div_pow2 by lia.
  change (2 ^ 4) with 16. pose proof (Z.mod_pos_bound (b2z c) 16 ltac:(lia)).
  assert (0 <= b2z c / 16 < 16) by (split; [apply Z.div_pos; lia|apply Z.div_lt_upper_bound; lia]).
  constructor; [apply hexChar_digit; lia|]. constructor; [apply hexChar_digit; lia|constructor].
Qed.

Lemma digitChar_inj a b : 0 <= a < 16 -> 0 <= b < 16 -> digitChar a = digitChar b -> a = b.
Proof. intros Ha Hb E. apply (f_equal digitVal) in E. rewrite !digitVal_char in E by lia. congruence. Qed.

Lemma hexEncode_inj a b : hexEncode a = hexEncode b -> a = b.
Proof.
  unfold hexEncode. revert b. induction a as [|x a IH]; intros [|y b]; cbn; try done.
  intros [= E1 E2 E]. f_equal; [|by apply IH]. apply b2z_inj.
  pose proof (b2z_range x) as Hx. pose proof (b2z_range y) as Hy.
  change 15 with (Z.ones 4) in E2. rewrite !Z.land_ones, !Z.shiftr_div_pow2 in * by lia. change (2 ^ 4) with 16 in *.
  apply digitChar_inj in E1; [|split; [apply Z.div_pos; lia|apply Z.div_lt_upper_bound; lia]..].
  apply digitChar_inj in E2; [|apply Z.mod_pos_bound; lia..].
  rewrite (Z.div_mod (b2z x) 16), (Z.div_mod (b2z y) 16) by lia. congruence.
Qed.

Lemma lower_hex s : Forall hexChar s -> ToLower s = s.
Proof.
  induction 1 as [|c s Hc _ IH]; [done|]. cbn. f_equal; [|done]. unfold lowerByte.
  destruct Hc; blia; try lia; done.
Qed.

Lemma VerifyDigest_ok Sum256 want b :
  VerifyDigest Sum256 want b = Ok tt ->
  exists hexStr, ParseDigest want = Ok (str "sha256", hexStr) /\ hexEncode (Sum256 b) = ToLower hexStr.
Proof.
  unfold VerifyDigest. destruct (ParseDigest want) as [[algo h]| |] eqn:E; cbn [out_bind snd]; [|done|done].
  unfold EqualFold. case_bool_decide as Heq; [|done]. intros _. exists h.
  assert (algo = str "sha256") as ->.
  { revert E. unfold ParseDigest. destruct (_ <? 0); [done|]. destruct (sliceTo _ _); cbn [out_bind]; [|done|done].
    destruct (sliceFrom _ _); cbn [out_bind]; [|done|done]. case_bool_decide; [|done].
    cbn [negb]. destruct (negb _); [done|]. destruct (negb _); [done|]. intros E2%Ok_inj. congruence. }
  split; [done|]. by rewrite <- Heq, lower_hex by apply hexEncode_hex.
Qed.

Lemma hexEncode_len b : len (hexEncode b) = 2 * len b.
Proof. unfold hexEncode. induction b as [|c b IH]; [done|]. cbn [fmap list_fmap concat]. len_lia. Qed.

Lemma hexValid_hex s : Forall hexChar s -> Nat.even (length s) = true -> hexValid s = true.
Proof.
  intros Hs He. unfold hexValid. rewrite He. cbn [andb]. apply forallb_forall. intros c Hc.
  rewrite Forall_forall in Hs. apply list_elem_of_In, Hs in Hc. unfold digitVal. destruct Hc; blia; try lia; done.
Qed.

Lemma ParseDigest_computed Sum256 b :
  len (Sum256 b) = 32 -> ParseDigest (DigestFromBytes Sum256 b) = Ok (str "sha256", hexEncode (Sum256 b)).
Proof.
  intros Hl. unfold ParseDigest, DigestFromBytes, IndexByte.
  change (str "sha256:" ++ hexEncode (Sum256 b)) with (str "sha256" ++ x3a :: hexEncode (Sum256 b)).
  rewrite cutByte_app by (by apply (bool_decide_unpack _); vm_compute). change (len (str "sha256") <? 0) with false. cbv iota.
  rewrite sliceTo_app by done. cbn [out_bind]. rewrite cons_middle, app_assoc, sliceFrom_app by done. cbn [out_bind].
  rewrite bool_decide_eq_true_2 by done. cbn [negb]. rewrite hexEncode_len, Hl. cbn [negb Z.mul Z.eqb].
  rewrite hexValid_hex; [done|apply hexEncode_hex|].
  pose proof (hexEncode_len (Sum256 b)) as E. unfold len in *. replace (length (hexEncode (Sum256 b))) with 64%nat by lia. done.
Qed.

(** A digest string pins the content up to collisions of the hash: the digest
    computed from a byte string verifies exactly the strings with the same
    hash, and two strings that verify against one digest, whatever the case of
    its digits, have the same hash. *)
Theorem digest_pins_hash (Sum256 : list byte -> list byte) want a b :
  (forall m, len (Sum256 m) = 32) ->
  (VerifyDigest Sum256 (DigestFromBytes Sum256 a) b = Ok tt <-> Sum256 b = Sum256 a) /\
  (VerifyDigest Sum256 want a = Ok tt -> VerifyDigest Sum256 want b = Ok tt -> Sum256 a = Sum256 b).
Proof.
  intros Hlen. split; [split|].
  - intros (h & E & Hh)%VerifyDigest_ok. rewrite ParseDigest_computed in E by done. injection E as <-.
    apply hexEncode_inj. by rewrite Hh, lower_hex by apply hexEncode_hex.
  - intros Eq. unfold VerifyDigest. rewrite ParseDigest_computed by done. cbn [out_bind snd]. unfold EqualFold.
    by rewrite bool_decide_eq_true_2 by (by rewrite Eq).
  - intros (h1 & E1 & H1)%VerifyDigest_ok (h2 & E2 & H2)%VerifyDigest_ok. rewrite E1 in E2. injection E2 as <-.
    apply hexEncode_inj. congruence.
Qed.

(** A 32-byte stand-in for the hash: the first bytes of the message. *)
Definition toyHash (b : list byte) : list byte := take 32 (b ++ make 32).

Lemma toyHash_len b : len (toyHash b) = 32.
Proof. unfold toyHash. rewrite len_take, len_app. change (len (make 32)) with 32. pose_lens. lia. Qed.

Lemma digest_pins_hash_witness :
  let want := str "sha256:68690000000000000000000000000000000000000000000000000000000000Aa" in
  let a := str "hi" ++ make 29 ++ [xaa] in
  VerifyDigest toyHash want a = Ok tt /\ toyHash a = toyHash (a ++ str "tail") /\
  VerifyDigest toyHash (DigestFromBytes toyHash a) (a ++ str "tail") = Ok tt.
Proof.
  intros want a. destruct (digest_pins_hash toyHash want a (a ++ str "tail") toyHash_len) as [H1 H2].
  assert (VerifyDigest toyHash want a = Ok tt) as Ha by (vm_compute; reflexivity).
  split; [exact Ha|]. assert (toyHash a = toyHash (a ++ str "tail")) as E.
  { apply H2; [exact Ha|vm_compute; reflexivity]. }
  split; [exact E|]. apply H1. symmetry. exact E.
Defined.

(** ** Token URLs *)

(** Percent-decoding, as a server does it. *)
Fixpoint urlUnescape (s : list byte) : option (list byte) :=
  match s with
  | [] => Some []
  | c :: r =>
      if decide (c = x25) then
        match r with
        | a :: b :: r' =>
            match digitVal a, digitVal b, urlUnescape r' with
            | Some x, Some y, Some t => Some (z2b (16 * x + y) :: t)
            | _, _, _ => None
            end
        | _ => None
        end
      else option_map (cons c) (urlUnescape r)
  end.

Lemma digitVal_upper d : 0 <= d < 16 -> digitVal (hexUpper d) = Some d.
Proof.
  intros Hd. unfold digitVal, hexUpper. rewrite b2z_z2b. destruct (Z.ltb_spec d 10);
    rewrite Z.mod_small by lia; blia; try lia; f_equal; lia.
Qed.

Lemma nibbles c : 0 <= Z.shiftr (b2z c) 4 < 16 /\ 0 <= Z.land (b2z c) 15 < 16 /\
  16 * Z.shiftr (b2z c) 4 + Z.land (b2z c) 15 = b2z c.
Proof.
  pose proof (b2z_range c). change 15 with (Z.ones 4). rewrite Z.land_ones, Z.shiftr_div_pow2 by lia.
  change (2 ^ 4) with 16. pose proof (Z.mod_pos_bound (b2z c) 16 ltac:(lia)). pose proof (Z.div_mod (b2z c) 16 ltac:(lia)).
  split; [|lia]. split; [apply Z.div_pos; lia|apply Z.div_lt_upper_bound; lia].
Qed.

Lemma hexUpper_class d : 0 <= d < 16 -> 48 <= b2z (hexUpper d) <= 57 \/ 65 <= b2z (hexUpper d) <= 70.
Proof. intros Hd. unfold hexUpper. rewrite b2z_z2b. destruct (Z.ltb_spec d 10); rewrite Z.mod_small by lia; lia. Qed.

(** An escaped parameter decodes to itself and holds nothing but unreserved
    characters and percent signs: a service or scope sent by a registry cannot
    add a parameter, a fragment or a line to the token request. *)
Theorem url_escape_safe s :
  urlUnescape (urlEscape s) = Some s /\ Forall (fun c => unreserved c = true \/ c = x25) (urlEscape s).
Proof.
  unfold urlEscape. induction s as [|c s [IH1 IH2]]; [by split|]. cbn [fmap list_fmap concat].
  destruct (nibbles c) as (Hh & Hl & Hsum). destruct (unreserved c) eqn:Eu.
  - split; [|constructor; auto]. cbn [app urlUnescape]. rewrite decide_False, IH1; [done|]. intros ->. done.
  - split.
    + cbn [app urlUnescape]. rewrite decide_True by done. rewrite !digitVal_upper, IH1 by lia. do 2 f_equal.
      rewrite Hsum. apply z2b_b2z.
    + assert (forall d, 0 <= d < 16 -> unreserved (hexUpper d) = true \/ hexUpper d = x25) as Hd.
      { intros d Hd. left. unfold unreserved. destruct (hexUpper_class d Hd); blia; try lia; done. }
      cbn [app]. repeat (constructor; [by auto|]). done.
Qed.

(** ** Challenges *)

(** One parameter of a challenge: a word, an equals sign, a quoted value that
    may contain commas and equals signs. *)
Definition paramBytes (kv : list byte * list byte) : list byte := fst kv ++ str "=" ++ [quote] ++ snd kv ++ [quote].
Definition paramOk (kv : list byte * list byte) : Prop :=
  fst kv <> [] /\ Forall (fun b => isSpace b = false /\ b <> quote /\ b <> comma /\ b <> x3d) (fst kv) /\
  quote ∉ snd kv /\ (forall b r, snd kv = b :: r -> b <> x20) /\ (forall b r, rev (snd kv) = b :: r -> b <> x20).
Definition challengeMap (kvs : list (list byte * list byte)) : challengeParams :=
  foldl (fun m kv => <[ToLower (fst kv) := snd kv]> m) ∅ kvs.

Lemma splitQuoted_plain s rest cur q :
  quote ∉ s -> (q = true \/ comma ∉ s) -> splitQuotedFrom (s ++ rest) cur q = splitQuotedFrom rest (cur ++ s) q.
Proof.
  revert cur. induction s as [|c s IH]; intros cur Hq Hc; [by rewrite app_nil_r|].
  rewrite not_elem_of_cons in Hq. destruct Hq as [Hc1 Hq]. cbn [app splitQuotedFrom].
  rewrite decide_False by done.
  assert (bool_decide (c = comma) && negb q = false) as ->.
  { destruct Hc as [->|Hc]; [apply andb_false_r|]. rewrite not_elem_of_cons in Hc.
    rewrite bool_decide_eq_false_2 by (intros ->; by apply (proj1 Hc)). done. }
  rewrite IH, <- app_assoc; [done|done|]. destruct Hc as [->|Hc]; [by left|right].
  rewrite not_elem_of_cons in Hc. apply Hc.
Qed.

Lemma splitQuoted_param kv rest cur :
  paramOk kv -> splitQuotedFrom (paramBytes kv ++ rest) cur false = splitQuotedFrom rest (cur ++ paramBytes kv) false.
Proof.
  intros (_ & Hk & Hv & _). unfold paramBytes. rewrite <- !app_assoc.
  assert (quote ∉ fst kv /\ comma ∉ fst kv) as [Hk1 Hk2].
  { rewrite Forall_forall in Hk. split; intros Hin; specialize (Hk _ Hin); tauto. }
  rewrite splitQuoted_plain by auto. rewrite splitQuoted_plain by (right || idtac; by apply (bool_decide_unpack _)).
  cbn [app splitQuotedFrom]. rewrite decide_True by done. cbn [negb].
  rewrite splitQuoted_plain by auto. cbn [app splitQuotedFrom]. rewrite decide_True by done. cbn [negb].
  by rewrite <- !app_assoc.
Qed.

Lemma paramBytes_trim kv : paramOk kv -> TrimSpace (paramBytes kv) = paramBytes kv.
Proof.
  intros (Hne & Hk & _). unfold TrimSpace, paramBytes. destruct (fst kv) as [|c k]; [done|].
  apply Forall_cons in Hk as [[Hc _] _]. rewrite (trimLeft_id ((c :: k) ++ _)) by (intros ? ? E0; cbn in E0; injection E0 as <- _; done).
  rewrite trimLeft_id; [apply rev_involutive|]. intros b r. rewrite !app_assoc, rev_app_distr. cbn. by intros [= <- _].
Qed.

Lemma splitQuoted_params kv kvs :
  paramOk kv -> Forall paramOk kvs ->
  splitQuoted (Join (paramBytes <$> kv :: kvs) [comma]) = paramBytes <$> kv :: kvs.
Proof.
  intros Hkv Hkvs. unfold splitQuoted. revert kv Hkv. induction Hkvs as [|kv' kvs Hkv' _ IH]; intros kv Hkv.
  - cbn [fmap list_fmap Join]. rewrite <- (app_nil_r (paramBytes kv)) at 1. rewrite splitQuoted_param by done.
    cbn [app splitQuotedFrom]. rewrite paramBytes_trim by done.
    rewrite (proj2 (Z.ltb_lt _ _)); [done|]. unfold paramBytes. destruct kv as [[|c k] v]; [by destruct Hkv|]. cbn [fst]. len_lia.
  - cbn [fmap list_fmap]. rewrite Join_cons, splitQuoted_param by done. cbn [app splitQuotedFrom].
    rewrite decide_False by done. rewrite bool_decide_eq_true_2 by done. cbn [andb negb].
    rewrite paramBytes_trim by done. f_equal. by apply IH.
Qed.

Lemma trimLeftSet_id cut s : (forall b r, s = b :: r -> b ∉ cut) -> trimLeftSet cut s = s.
Proof. destruct s as [|b r]; [done|]. intros H. cbn. by rewrite bool_decide_eq_false_2 by (by eapply H). Qed.

Lemma Trim_quoted v :
  quote ∉ v -> (forall b r, v = b :: r -> b <> x20) -> (forall b r, rev v = b :: r -> b <> x20) ->
  Trim ([quote] ++ v ++ [quote]) [quote; x20] = v.
Proof.
  intros Hq Hf Hl. unfold Trim. cbn [app trimLeftSet]. rewrite bool_decide_eq_true_2 by (by left).
  assert (forall s b r, quote ∉ s -> s = b :: r -> b <> x20 -> b ∉ [quote; x20]) as Hnot.
  { intros s b r Hs -> Hb Hin. rewrite not_elem_of_cons in Hs. apply elem_of_cons in Hin as [->|Hin]; [tauto|].
    apply list_elem_of_singleton in Hin. done. }
  destruct v as [|c v].
  { cbn. done. }
  rewrite (trimLeftSet_id _ ((c :: v) ++ [quote])) by (intros ? ? [= <- _]; eapply (Hnot (c :: v)); [done|done|by eapply Hf]).
  rewrite rev_app_distr. cbn [rev app trimLeftSet]. rewrite bool_decide_eq_true_2 by (by left).
  change (rev v ++ [c]) with (rev (c :: v)). rewrite trimLeftSet_id; [apply rev_involutive|].
  intros b r E. eapply (Hnot (rev (c :: v))); [by rewrite elem_rev|done|by eapply Hl].
Qed.

Lemma challengeFrom_params kvs m :
  Forall paramOk kvs ->
  challengeFrom (paramBytes <$> kvs) m = Ok (foldl (fun m kv => <[ToLower (fst kv) := snd kv]> m) m kvs).
Proof.
  intros Hk. revert m. induction Hk as [|[k v] kvs (Hne & Hk & Hq & Hf & Hl) _ IH]; intros m; [done|].
  cbn [fmap list_fmap challengeFrom foldl fst snd] in *. change (paramBytes (k, v)) with (k ++ (x3d :: []) ++ [quote] ++ v ++ [quote]).
  change (str "=") with (x3d :: []). assert (x3d ∉ k) as Heq.
  { rewrite Forall_forall in Hk. intros Hin. specialize (Hk _ Hin). tauto. }
  rewrite (Index_app x3d [] k) by done. rewrite (proj2 (Z.ltb_ge _ _)) by (pose_lens; lia).
  rewrite sliceTo_app by done. cbn [out_bind]. rewrite app_assoc, sliceFrom_app by len_lia. cbn [out_bind].
  rewrite Trim_quoted by done. rewrite IH. do 3 f_equal.
  rewrite <- (app_nil_r k) at 1. f_equal. apply (TrimSpace_word k [] []); [|constructor..].
  eapply Forall_impl; [exact Hk|]. by intros b [? _].
Qed.

(** A Bearer challenge, whatever the case of its scheme, gives the map of its
    parameters; commas inside quoted values do not split them. *)
Theorem bearer_challenge_roundtrip scheme kv kvs :
  ToLower scheme = str "bearer " -> paramOk kv -> Forall paramOk kvs ->
  parseBearerChallenge (scheme ++ Join (paramBytes <$> kv :: kvs) [comma]) = Ok (challengeMap (kv :: kvs)).
Proof.
  intros Hs Hkv Hkvs. unfold parseBearerChallenge, ToLower. rewrite fmap_app. fold (ToLower scheme). rewrite Hs, HasPrefix_app.
  cbn [negb]. rewrite sliceFrom_app; [|by apply (f_equal len) in Hs; unfold ToLower, len in *; rewrite length_fmap in Hs].
  cbn [out_bind]. rewrite splitQuoted_params by done. apply (challengeFrom_params (kv :: kvs)). by constructor.
Qed.

Definition qstr (s : list byte) : list byte := [quote] ++ s ++ [quote].

Lemma bearer_challenge_roundtrip_witness :
  exists m, parseBearerChallenge (str "Bearer realm=" ++ qstr (str "https://ghcr.io/token") ++ str ",scope=" ++ qstr (str "repository:a/b:pull,push")) = Ok m /\
    m !! str "realm" = Some (str "https://ghcr.io/token") /\ m !! str "scope" = Some (str "repository:a/b:pull,push").
Proof.
  exists (challengeMap [(str "realm", str "https://ghcr.io/token"); (str "scope", str "repository:a/b:pull,push")]).
  split; [|split; vm_compute; reflexivity].
  apply (bearer_challenge_roundtrip (str "Bearer ") (str "realm", str "https://ghcr.io/token")
    [(str "scope", str "repository:a/b:pull,push")]).
  - reflexivity.
  - split; [discriminate|]. split; [by apply (bool_decide_unpack _); vm_compute|].
    split; [by apply (bool_decide_unpack _); vm_compute|]. split; by intros b r [= <- _].
  - constructor; [|constructor]. split; [discriminate|]. split; [by apply (bool_decide_unpack _); vm_compute|].
    split; [by apply (bool_decide_unpack _); vm_compute|]. split; by intros b r [= <- _].
Defined.
