(* ===== verification/OciFetch.v ===== *)
(** * OCI registry client

    uefiboard/ministack/oci: manifest.go, the request half of registry.go and
    fetch.go.  Requests go through the transport interfaces of registry.go; the
    theorems hold of every transport.  encoding/json's decoding of the three
    document shapes and crypto/sha256's Sum256 are parameters of which nothing
    is assumed.  [fmt.Errorf("...: %w", err)] is modelled as [err]. *)

From S2P Require Import Prelude Effects NetIP GoStr Http HttpStream HttpTransport OciRef.

(** ** Documents (manifest.go) *)

Definition MediaTypeOCIIndex : list byte := str "application/vnd.oci.image.index.v1+json".
Definition MediaTypeOCIManifest : list byte := str "application/vnd.oci.image.manifest.v1+json".
Definition MediaTypeDockerIndex : list byte := str "application/vnd.docker.distribution.manifest.list.v2+json".
Definition MediaTypeDockerManifest : list byte := str "application/vnd.docker.distribution.manifest.v2+json".

Definition ManifestAcceptHeader : list byte :=
  MediaTypeOCIIndex ++ str ", " ++ MediaTypeDockerIndex ++ str ", " ++ MediaTypeOCIManifest ++ str ", " ++ MediaTypeDockerManifest.

Record Platform := mkPlatform { Architecture : list byte; OS : list byte; Variant : list byte }.
Record Descriptor := mkDescriptor {
  d_MediaType : list byte;
  d_Digest : list byte;
  d_Size : Z;
  d_Platform : option Platform
}.
Record OciIndex := mkOciIndex { i_SchemaVersion : Z; i_MediaType : list byte; i_Manifests : list Descriptor }.
Record Manifest := mkManifest {
  m_SchemaVersion : Z;
  m_MediaType : list byte;
  m_Config : Descriptor;
  m_Layers : list Descriptor
}.

(** encoding/json's Unmarshal into the three shapes the code decodes: an index,
    a manifest and the probe of IsIndex. *)
Record Decoders := mkDecoders {
  jsonIndex : list byte -> option OciIndex;
  jsonManifest : list byte -> option Manifest;
  jsonProbe : list byte -> option (list byte * list Descriptor)
}.

Definition ParseIndex (J : Decoders) (raw : list byte) : out OciIndex :=
  ret_if len raw =? 0 with ErrManifestEmpty;;
  match jsonIndex J raw with None => Err ErrBadJSON | Some idx => Ok idx end.

Definition ParseManifest (J : Decoders) (raw : list byte) : out Manifest :=
  ret_if len raw =? 0 with ErrManifestEmpty;;
  match jsonManifest J raw with None => Err ErrBadJSON | Some m => Ok m end.

Definition indexType (t : list byte) : bool :=
  bool_decide (t = MediaTypeOCIIndex) || bool_decide (t = MediaTypeDockerIndex).

Definition IsIndex (J : Decoders) (raw contentType : list byte) : bool :=
  if indexType contentType then true
  else match jsonProbe J raw with
       | None => false
       | Some (mediaType, manifests) => if indexType mediaType then true else 0 <? len manifests
       end.

Definition platformMatches (osName arch : list byte) (d : Descriptor) : bool :=
  match d_Platform d with
  | None => false
  | Some p => bool_decide (OS p = osName) && bool_decide (Architecture p = arch)
  end.

Fixpoint pickFrom (ms : list Descriptor) (osName arch : list byte) : out Descriptor :=
  match ms with
  | [] => Err ErrIndexNoMatch
  | m :: r => if platformMatches osName arch m then Ok m else pickFrom r osName arch
  end.
Definition PickPlatform (idx : OciIndex) (osName arch : list byte) : out Descriptor :=
  pickFrom (i_Manifests idx) osName arch.

(** ** Transports (registry.go) *)

Class Transport (T : Type) := { tGet : list byte -> HTTPGetOptions -> M T HTTPResponse }.

Record Registry (T : Type) := mkRegistry {
  reg_Transport : T;
  reg_DNS : option IP;
  reg_Ref : Ref;
  reg_DialTimeout : Z;
  reg_RequestTimeout : Z;
  reg_bearer : list byte
}.
Arguments mkRegistry {T}. Arguments reg_Transport {T}. Arguments reg_DNS {T}. Arguments reg_Ref {T}.
Arguments reg_DialTimeout {T}. Arguments reg_RequestTimeout {T}. Arguments reg_bearer {T}.

Definition NewRegistryWithTransport {T} (t : T) (dns : option IP) (ref : Ref) : Registry T :=
  mkRegistry t dns ref 0 0 [].

Definition setTransport {T} (t : T) (r : Registry T) : Registry T :=
  mkRegistry t (reg_DNS r) (reg_Ref r) (reg_DialTimeout r) (reg_RequestTimeout r) (reg_bearer r).
Definition setBearer {T} (b : list byte) (r : Registry T) : Registry T :=
  mkRegistry (reg_Transport r) (reg_DNS r) (reg_Ref r) (reg_DialTimeout r) (reg_RequestTimeout r) b.

(** A map read: the zero value where the key is missing. *)
Definition header (h : httpHeaders) (k : list byte) : list byte := default [] (h !! k).

Definition authHeader (bearer : list byte) : list (list byte) :=
  if bool_decide (bearer = []) then [] else [str "Authorization: Bearer " ++ bearer].

Definition isRedirect (status : Z) : bool :=
  (status =? 301) || (status =? 302) || (status =? 303) || (status =? 307) || (status =? 308).

Definition maxBlobRedirects : nat := 2.

Section registry.
Context {T : Type} `{Transport T}.
Variable Sum256 : list byte -> list byte.
Variable J : Decoders.
Abbreviation RegM A := (M (Registry T) A).

Definition httpGet (url accept bearer : list byte) : RegM HTTPResponse :=
  r <- gets id ;;
  let extra := (if bool_decide (accept = []) then [] else [str "Accept: " ++ accept]) ++ authHeader bearer in
  zoom reg_Transport setTransport
    (tGet url (mkGetOptions (reg_DNS r) (reg_DialTimeout r) (reg_RequestTimeout r) extra)).

Definition Authenticate : RegM unit :=
  ref <- gets reg_Ref ;;
  let probeURL := manifestURL ref (ref_Reference ref) in
  resp <- httpGet probeURL ManifestAcceptHeader [] ;;
  if StatusCode resp =? 200 then modify (setBearer [])
  else
    throw_if negb (StatusCode resp =? 401) with ErrRegistryStatus probeURL (StatusCode resp);;
    let chal := header (Headers resp) (str "www-authenticate") in
    throw_if bool_decide (chal = []) with ErrChallengeMissing;;
    params <- lift (parseBearerChallenge chal) ;;
    let realm := header params (str "realm") in
    throw_if bool_decide (realm = []) with ErrChallengeMissingRealm;;
    let tokenURL := buildTokenURL realm (header params (str "service")) (header params (str "scope")) in
    tokResp <- httpGet tokenURL [] [] ;;
    throw_if negb (StatusCode tokResp =? 200) with ErrRegistryStatus tokenURL (StatusCode tokResp);;
    tok <- lift (parseTokenBody (Body tokResp)) ;;
    throw_if bool_decide (tok = []) with ErrTokenEmpty;;
    modify (setBearer tok).

(** The body and the content type. *)
Definition FetchManifestRaw (reference : list byte) : RegM (list byte * list byte) :=
  ref <- gets reg_Ref ;;
  bearer <- gets reg_bearer ;;
  let url := manifestURL ref reference in
  resp <- httpGet url ManifestAcceptHeader bearer ;;
  throw_if negb (StatusCode resp =? 200) with ErrRegistryStatus url (StatusCode resp);;
  ret (Body resp, header (Headers resp) (str "content-type")).

(** The loop of FetchBlob with [hops] requests left. *)
Fixpoint fetchBlobFrom (hops : nat) (desc : Descriptor) (url bearer : list byte) : RegM (list byte) :=
  match hops with
  | O => throw ErrTooManyRedirects
  | S hops =>
      resp <- httpGet url [] bearer ;;
      if isRedirect (StatusCode resp) then
        let loc := header (Headers resp) (str "location") in
        throw_if bool_decide (loc = []) with ErrRegistryStatus url (StatusCode resp);;
        fetchBlobFrom hops desc loc []
      else
        throw_if negb (StatusCode resp =? 200) with ErrRegistryStatus url (StatusCode resp);;
        lift (VerifyDigest Sum256 (d_Digest desc) (Body resp)) ;;;
        throw_if (0 <? d_Size desc) && negb (len (Body resp) =? d_Size desc) with ErrBlobSizeMismatch;;
        ret (Body resp)
  end.

Definition FetchBlob (desc : Descriptor) : RegM (list byte) :=
  ref <- gets reg_Ref ;;
  bearer <- gets reg_bearer ;;
  fetchBlobFrom (S maxBlobRedirects) desc (blobURL ref (d_Digest desc)) bearer.

(** ** Artifacts (fetch.go) *)

Record Artifact := mkArtifact {
  art_Reference : list byte;
  art_ManifestRaw : list byte;
  art_ManifestDigest : list byte;
  art_IndexRaw : option (list byte);
  art_IndexDigest : list byte;
  art_Manifest : Manifest;
  art_ConfigBlob : option (list byte);
  art_LayerBlobs : list (option (list byte))
}.

Record FetchOptions := mkFetchOptions {
  opt_OS : list byte;
  opt_Arch : list byte;
  opt_LayerFilter : option (Descriptor -> bool);
  opt_SkipConfig : bool
}.

Definition wanted (opts : FetchOptions) (d : Descriptor) : bool :=
  match opt_LayerFilter opts with Some f => f d | None => true end.

Fixpoint fetchLayers (opts : FetchOptions) (layers : list Descriptor) : RegM (list (option (list byte))) :=
  match layers with
  | [] => ret []
  | layer :: r =>
      b <- (if wanted opts layer then bytes <- FetchBlob layer ;; ret (Some bytes) else ret None) ;;
      bs <- fetchLayers opts r ;;
      ret (b :: bs)
  end.

(** What the reference resolves to: the reference and bytes of the manifest,
    and the bytes of the index it came through. *)
Definition resolveManifest (osName arch : list byte) : RegM (list byte * list byte * option (list byte)) :=
  ref <- gets reg_Ref ;;
  m <- FetchManifestRaw (ref_Reference ref) ;;
  let '(manifestRaw, contentType) := m in
  if IsIndex J manifestRaw contentType then
    idx <- lift (ParseIndex J manifestRaw) ;;
    picked <- lift (PickPlatform idx osName arch) ;;
    m2 <- FetchManifestRaw (d_Digest picked) ;;
    lift (VerifyDigest Sum256 (d_Digest picked) (fst m2)) ;;;
    ret (d_Digest picked, fst m2, Some manifestRaw)
  else ret (ref_Reference ref, manifestRaw, None).

Definition FetchArtifact (opts : FetchOptions) : RegM Artifact :=
  let osName := if bool_decide (opt_OS opts = []) then str "linux" else opt_OS opts in
  let arch := opt_Arch opts in
  throw_if bool_decide (arch = []) with ErrArchRequired;;
  Authenticate ;;;
  r <- resolveManifest osName arch ;;
  let '(reference, manifestRaw, indexRaw) := r in
  m <- lift (ParseManifest J manifestRaw) ;;
  cfg <- (if opt_SkipConfig opts then ret None else cfg <- FetchBlob (m_Config m) ;; ret (Some cfg)) ;;
  layers <- fetchLayers opts (m_Layers m) ;;
  ret (mkArtifact reference manifestRaw (DigestFromBytes Sum256 manifestRaw) indexRaw
    (match indexRaw with Some i => DigestFromBytes Sum256 i | None => [] end) m cfg layers).
End registry.

(** ** What a successful fetch guarantees *)

(** The bytes are those the descriptor names: its digest, and its size where it
    declares one. *)
Definition blobOf (Sum256 : list byte -> list byte) (d : Descriptor) (b : list byte) : Prop :=
  VerifyDigest Sum256 (d_Digest d) b = Ok tt /\ (0 < d_Size d -> len b = d_Size d).

(** Requests leave the reference as it was. *)
Lemma httpGet_ref {T} `{Transport T} url accept bearer : frames reg_Ref (@httpGet T _ url accept bearer).
Proof. unfold httpGet. go_frame. Qed.
#[export] Hint Resolve httpGet_ref : goframe.

Lemma Authenticate_ref {T} `{Transport T} : frames reg_Ref (@Authenticate T _).
Proof. unfold Authenticate. go_frame. Qed.

Section verified.
Context {T : Type} `{Transport T}.
Variable Sum256 : list byte -> list byte.
Variable J : Decoders.

Lemma pickFrom_ok ms osName arch d :
  pickFrom ms osName arch = Ok d -> d ∈ ms /\ platformMatches osName arch d = true.
Proof.
  induction ms as [|m ms IH]; cbn; [done|]. destruct (platformMatches osName arch m) eqn:E.
  - intros [= <-]. split; [by left|done].
  - intros Hd. destruct (IH Hd). split; [by right|done].
Qed.

Lemma fetchBlobFrom_ok hops desc url bearer (r : Registry T) b r' :
  fetchBlobFrom Sum256 hops desc url bearer r = (Ok b, r') -> blobOf Sum256 desc b.
Proof.
  revert url bearer r. induction hops as [|hops IH]; intros url bearer r; cbn [fetchBlobFrom]; [done|].
  intros (resp & s1 & _ & Hr)%bind_ok. destruct (isRedirect (StatusCode resp)).
  - apply guard_ok in Hr as [_ Hr]. by eapply IH.
  - apply guard_ok in Hr as [_ Hr]. apply bind_ok in Hr as ([] & s2 & [Hv ->]%lift_ok & Hr).
    apply guard_ok in Hr as [Hs [-> _]%ret_ok]. split; [done|]. intros Hp. revert Hs.
    rewrite (proj2 (Z.ltb_lt _ _)) by done. cbn. destruct (Z.eqb_spec (len (Body resp)) (d_Size desc)); done.
Qed.

Lemma FetchBlob_ok desc (r : Registry T) b r' : FetchBlob Sum256 desc r = (Ok b, r') -> blobOf Sum256 desc b.
Proof. apply fetchBlobFrom_ok. Qed.

Definition layerOk (opts : FetchOptions) (d : Descriptor) (ob : option (list byte)) : Prop :=
  if wanted opts d then exists b, ob = Some b /\ blobOf Sum256 d b else ob = None.

Lemma fetchLayers_ok opts ds (r : Registry T) bs r' :
  fetchLayers Sum256 opts ds r = (Ok bs, r') -> Forall2 (layerOk opts) ds bs.
Proof.
  revert r bs r'. induction ds as [|d ds IH]; intros r bs r'; cbn [fetchLayers].
  - intros [-> _]%ret_ok. constructor.
  - intros (ob & s1 & Hb & Hr)%bind_ok. apply bind_ok in Hr as (bs' & s2 & Hbs & [-> _]%ret_ok).
    constructor; [|by eapply IH]. unfold layerOk. destruct (wanted opts d).
    + apply bind_ok in Hb as (b & s3 & Hb & [-> _]%ret_ok). exists b. split; [done|by eapply FetchBlob_ok].
    + by apply ret_ok in Hb as [-> _].
Qed.

(** The manifest an index leads to is one the index lists for the platform, and
    its bytes match the digest in the index. *)
Definition resolvedBy (reference osName arch ref manifestRaw : list byte) (indexRaw : option (list byte)) : Prop :=
  match indexRaw with
  | None => ref = reference
  | Some i => exists idx d, ParseIndex J i = Ok idx /\ d ∈ i_Manifests idx /\ platformMatches osName arch d = true /\
      ref = d_Digest d /\ VerifyDigest Sum256 ref manifestRaw = Ok tt
  end.

Lemma resolveManifest_ok osName arch (r : Registry T) ref raw idx r' :
  resolveManifest Sum256 J osName arch r = (Ok (ref, raw, idx), r') ->
  resolvedBy (ref_Reference (reg_Ref r)) osName arch ref raw idx.
Proof.
  unfold resolveManifest. intros (rf & s1 & [= <- <-] & Hr)%bind_ok. apply bind_ok in Hr as ([mraw ct] & s2 & _ & Hr).
  destruct (IsIndex J mraw ct).
  - apply bind_ok in Hr as (i & s3 & [Hi ->]%lift_ok & Hr). apply bind_ok in Hr as (d & s4 & [Hd ->]%lift_ok & Hr).
    apply bind_ok in Hr as (m2 & s5 & _ & Hr). apply bind_ok in Hr as ([] & s6 & [Hv ->]%lift_ok & [E _]%ret_ok).
    injection E as -> -> ->. apply pickFrom_ok in Hd as [Hin Hm]. by exists i, d.
  - apply ret_ok in Hr as [[= -> -> ->] _]. done.
Qed.

(** C12. An artifact that FetchArtifact returns is verified below its manifest: a
    manifest taken from an index is one the index lists for the requested
    platform and hashes to the digest listed there; the config blob and every
    wanted layer hash to their digests and have their declared sizes; unwanted
    layers are left out in place, so layers and descriptors keep their order. *)
Theorem artifact_verified opts (r : Registry T) art r' :
  FetchArtifact Sum256 J opts r = (Ok art, r') ->
  let osName := if bool_decide (opt_OS opts = []) then str "linux" else opt_OS opts in
  ParseManifest J (art_ManifestRaw art) = Ok (art_Manifest art) /\
  art_ManifestDigest art = DigestFromBytes Sum256 (art_ManifestRaw art) /\
  resolvedBy (ref_Reference (reg_Ref r)) osName (opt_Arch opts) (art_Reference art) (art_ManifestRaw art) (art_IndexRaw art) /\
  (if opt_SkipConfig opts then art_ConfigBlob art = None
   else exists b, art_ConfigBlob art = Some b /\ blobOf Sum256 (m_Config (art_Manifest art)) b) /\
  Forall2 (layerOk opts) (m_Layers (art_Manifest art)) (art_LayerBlobs art).
Proof.
  intros Hr osName. unfold FetchArtifact in Hr. cbv zeta in Hr. apply guard_ok in Hr as [_ Hr]. apply bind_ok in Hr as ([] & s1 & Ha & Hr).
  apply bind_ok in Hr as ([[ref raw] idx] & s2 & Hres & Hr). apply bind_ok in Hr as (m & s3 & [Hm ->]%lift_ok & Hr).
  apply bind_ok in Hr as (cfg & s4 & Hc & Hr). apply bind_ok in Hr as (bs & s5 & Hl & [-> _]%ret_ok). cbn.
  split_and!; [done|done| | |by eapply fetchLayers_ok].
  - apply resolveManifest_ok in Hres. pose proof (Authenticate_ref r) as Hf. rewrite Ha in Hf. cbn in Hf. by rewrite Hf in Hres.
  - destruct (opt_SkipConfig opts); [by apply ret_ok in Hc as [-> _]|].
    apply bind_ok in Hc as (b & s6 & Hb & [-> _]%ret_ok). exists b. split; [done|by eapply FetchBlob_ok].
Qed.
End verified.

(** A registry that answers every request by looking its URL up. *)
Definition mirror : Type := list (list byte * HTTPResponse).
#[global] Instance mirror_transport : Transport mirror := {
  tGet url _ m :=
    match list_find (fun e => fst e = url) m with
    | Some (_, (_, resp)) => (Ok resp, m)
    | None => (Ok (mkResponse 404 [] ∅ []), m)
    end
}.

Definition okResponse (headers : httpHeaders) (body : list byte) : HTTPResponse := mkResponse 200 (str "HTTP/1.1 200 OK") headers body.
Definition toyRef : Ref := mkRef (str "https") (str "ghcr.io") (str "cloud-boot/kernel") (str "v1").
Definition toyPlatform (a : string) : option Platform := Some (mkPlatform (str a) (str "linux") []).
Definition toyDesc (body : list byte) (p : option Platform) : Descriptor :=
  mkDescriptor [] (DigestFromBytes toyHash body) (len body) p.
Definition toyManifest : Manifest := mkManifest 2 MediaTypeOCIManifest (toyDesc (str "cfg") None) [toyDesc (str "layer-a") None; toyDesc (str "layer-b") None].
Definition toyIndex : OciIndex := mkOciIndex 2 MediaTypeOCIIndex [toyDesc (str "M-arm") (toyPlatform "arm64"); toyDesc (str "M-amd") (toyPlatform "amd64")].
Definition toyDecoders : Decoders := mkDecoders
  (fun raw => if bool_decide (raw = str "IDX") then Some toyIndex else None)
  (fun _ => Some toyManifest)
  (fun _ => Some ([], [])).
Definition toyMirror : mirror :=
  [(manifestURL toyRef (str "v1"), okResponse {[str "content-type" := MediaTypeOCIIndex]} (str "IDX"));
   (manifestURL toyRef (DigestFromBytes toyHash (str "M-amd")), okResponse ∅ (str "M-amd"));
   (blobURL toyRef (DigestFromBytes toyHash (str "cfg")), okResponse ∅ (str "cfg"));
   (blobURL toyRef (DigestFromBytes toyHash (str "layer-a")),
    mkResponse 307 [] {[str "location" := str "https://s3/blob-a"]} []);
   (str "https://s3/blob-a", okResponse ∅ (str "layer-a"))].

(** The layer at the second position is filtered out, the first is redirected. *)
Definition toyOptions : FetchOptions := mkFetchOptions [] (str "amd64") (Some (fun d => bool_decide (d_Digest d = DigestFromBytes toyHash (str "layer-a")))) false.

Definition toyRun : out Artifact * Registry mirror :=
  FetchArtifact toyHash toyDecoders toyOptions (NewRegistryWithTransport toyMirror None toyRef).

Lemma artifact_verified_witness :
  exists art r', toyRun = (Ok art, r') /\
    art_IndexRaw art = Some (str "IDX") /\ art_ManifestRaw art = str "M-amd" /\
    art_LayerBlobs art = [Some (str "layer-a"); None] /\
    Forall2 (layerOk toyHash toyOptions) (m_Layers (art_Manifest art)) (art_LayerBlobs art).
Proof.
  assert (match fst toyRun with
          | Ok art => bool_decide ((art_IndexRaw art, art_ManifestRaw art, art_LayerBlobs art)
              = (Some (str "IDX"), str "M-amd", [Some (str "layer-a"); None]))
          | _ => false end = true) as Hb by (vm_compute; reflexivity).
  destruct toyRun as [[art|e|] r'] eqn:E; [|discriminate Hb|discriminate Hb].
  exists art, r'. split; [reflexivity|]. cbn [fst] in Hb. apply bool_decide_eq_true in Hb. injection Hb as Hi Hm Hl.
  split; [exact Hi|]. split; [exact Hm|]. split; [exact Hl|].
  apply (artifact_verified toyHash toyDecoders toyOptions (NewRegistryWithTransport toyMirror None toyRef) art r'). exact E.
Defined.

(** A reference pinned by digest is not itself checked: whatever non-index
    document a registry serves for it is accepted as the manifest. *)
Theorem pinned_reference_unchecked Sum256 J opts ref raw m (dns : option IP) :
  raw <> [] -> IsIndex J raw [] = false -> jsonManifest J raw = Some m -> m_Layers m = [] ->
  opt_Arch opts <> [] -> opt_SkipConfig opts = true ->
  exists art r', FetchArtifact Sum256 J opts
      (NewRegistryWithTransport [(manifestURL ref (ref_Reference ref), okResponse ∅ raw)] dns ref) = (Ok art, r') /\
    art_Reference art = ref_Reference ref /\ art_ManifestRaw art = raw.
Proof.
  intros Hraw Hidx Hj Hl Ha Hc.
  assert (forall acc bearer (r : Registry mirror),
    reg_Ref r = ref -> reg_Transport r = [(manifestURL ref (ref_Reference ref), okResponse ∅ raw)] ->
    httpGet (manifestURL ref (ref_Reference ref)) acc bearer r = (Ok (okResponse ∅ raw), r)) as Hget.
  { intros acc bearer [t d rf dt rt b]. cbn. intros -> ->. unfold httpGet, bind, gets, zoom, setTransport. cbn.
    by destruct (decide _). }
  unfold FetchArtifact. rewrite bool_decide_eq_false_2 by done. unfold Authenticate. unfold bind at 1 2 3, gets at 1.
  rewrite Hget by done. cbn [okResponse StatusCode]. change (200 =? 200) with true. cbv iota. unfold modify.
  unfold resolveManifest, FetchManifestRaw. unfold bind at 1 2 3 4 5 6, gets. rewrite Hget by done.
  cbn [okResponse StatusCode Body Headers]. change (200 =? 200) with true. cbn [negb]. unfold ret at 1, header.
  rewrite lookup_empty. cbn [default id]. rewrite Hidx. unfold bind, lift, ParseManifest, ret. cbn.
  rewrite (proj2 (Z.eqb_neq (len raw) 0)); [|destruct raw; [done|len_lia]].
  rewrite Hj, Hc, Hl. cbn. eexists _, _. split; [reflexivity|]. done.
Qed.

Definition pinnedRef : Ref := mkRef (str "https") (str "ghcr.io") (str "cloud-boot/kernel") (DigestFromBytes toyHash (str "GOOD")).
Definition emptyManifest : Manifest := mkManifest 2 MediaTypeOCIManifest (toyDesc [] None) [].

Lemma pinned_reference_unchecked_witness :
  exists art r', FetchArtifact toyHash (mkDecoders (fun _ => None) (fun _ => Some emptyManifest) (fun _ => Some ([], [])))
      (mkFetchOptions [] (str "amd64") None true)
      (NewRegistryWithTransport [(manifestURL pinnedRef (ref_Reference pinnedRef), okResponse ∅ (str "EVIL"))] None pinnedRef) = (Ok art, r') /\
    art_ManifestRaw art = str "EVIL" /\ VerifyDigest toyHash (art_Reference art) (art_ManifestRaw art) = Err ErrDigestMismatch.
Proof.
  destruct (pinned_reference_unchecked toyHash (mkDecoders (fun _ => None) (fun _ => Some emptyManifest) (fun _ => Some ([], [])))
    (mkFetchOptions [] (str "amd64") None true) pinnedRef (str "EVIL") emptyManifest None) as (art & r' & E & Er & Em);
    try reflexivity; try discriminate.
  exists art, r'. split; [exact E|]. split; [exact Em|]. rewrite Er, Em. vm_compute. reflexivity.
Defined.

(** ** Where the bearer token goes *)

(** A transport that records the URL and headers of every request. *)
Record Recorded (T : Type) := mkRecorded { rc_inner : T; rc_log : list (list byte * list (list byte)) }.
Arguments mkRecorded {T}. Arguments rc_inner {T}. Arguments rc_log {T}.

#[global] Instance recorded_transport {T} `{Transport T} : Transport (Recorded T) := {
  tGet url opts s :=
    let '(r, t) := tGet url opts (rc_inner s) in
    (r, mkRecorded t (rc_log s ++ [(url, ExtraHeaders opts)]))
}.

Definition requests {T} (r : Registry (Recorded T)) : list (list byte * list (list byte)) := rc_log (reg_Transport r).

(** The request carries an Authorization header. *)
Definition carriesToken (q : list byte * list (list byte)) : Prop :=
  Exists (fun h => HasPrefix h (str "Authorization:") = true) (snd q).

(** A request below the repository's base URL of the registry. *)
Definition toRegistry (ref : Ref) (q : list byte * list (list byte)) : Prop := exists rest, fst q = baseURL ref ++ rest.

Section token.
Context {T : Type} `{Transport T}.
Variable Sum256 : list byte -> list byte.
Variable J : Decoders.
Abbreviation Reg := (Registry (Recorded T)).

Lemma httpGet_request url accept bearer (r : Reg) :
  let s' := snd (httpGet url accept bearer r) in
  requests s' = requests r ++ [(url, (if bool_decide (accept = []) then [] else [str "Accept: " ++ accept]) ++ authHeader bearer)] /\
  reg_Ref s' = reg_Ref r /\ reg_bearer s' = reg_bearer r.
Proof.
  unfold httpGet, bind, gets, zoom. cbn [tGet recorded_transport]. unfold id.
  destruct (tGet url _ (rc_inner (reg_Transport r))) as [o t]. cbn. by split_and!.
Qed.

(** What a call sends: whatever carries the token stays with the registry. *)
Definition sends (r r' : Reg) : Prop :=
  reg_Ref r' = reg_Ref r /\
  exists qs, requests r' = requests r ++ qs /\ Forall (fun q => carriesToken q -> toRegistry (reg_Ref r) q) qs.

#[export] Instance sends_preorder : PreOrder sends.
Proof.
  split.
  - intros r. split; [done|]. exists []. by rewrite app_nil_r.
  - intros a b c [E1 (q1 & L1 & F1)] [E2 (q2 & L2 & F2)]. split; [congruence|]. exists (q1 ++ q2).
    rewrite L2, L1, app_assoc. split; [done|]. apply Forall_app. by rewrite E1 in F2.
Qed.

Lemma no_token url accept : ~ carriesToken (url, (if bool_decide (accept = []) then [] else [str "Accept: " ++ accept]) ++ authHeader []).
Proof.
  unfold carriesToken. cbn [snd authHeader]. case_bool_decide; cbn; intros He; [by inversion He|].
  apply Exists_cons in He as [He|He]; [discriminate He|by inversion He].
Qed.

Lemma httpGet_sends url accept bearer (r : Reg) :
  bearer = [] \/ (exists rest, url = baseURL (reg_Ref r) ++ rest) ->
  sends r (snd (httpGet url accept bearer r)).
Proof.
  intros Hb. destruct (httpGet_request url accept bearer r) as (El & Er & _). split; [done|].
  eexists. split; [exact El|]. constructor; [|constructor]. destruct Hb as [->|[rest E]].
  - intros Ht. by apply no_token in Ht.
  - intros _. by exists rest.
Qed.

Lemma httpGet_moves url accept : moves sends (@httpGet (Recorded T) _ url accept []).
Proof. intros r. apply httpGet_sends. by left. Qed.
#[local] Hint Resolve httpGet_moves : gomove.

Lemma setBearer_moves b : moves sends (modify (@setBearer (Recorded T) b)).
Proof. intros r. split; [done|]. exists []. by rewrite app_nil_r. Qed.
#[local] Hint Resolve setBearer_moves : gomove.

Lemma Authenticate_moves : moves sends (@Authenticate (Recorded T) _).
Proof. unfold Authenticate. go_move. Qed.
#[local] Hint Resolve Authenticate_moves : gomove.

(** A first request to the registry, then a rest that sends nothing more of its
    own token. *)
Lemma sends_bind {A B} (m : M Reg A) (k : A -> M Reg B) r :
  sends r (snd (m r)) -> (forall a, moves sends (k a)) -> sends r (snd (bind m k r)).
Proof.
  intros Hm Hk. unfold bind. destruct (m r) as [[a|e|] r1]; cbn in *; [|done|done]. etransitivity; [done|apply Hk].
Qed.

Lemma FetchManifestRaw_moves reference : moves sends (@FetchManifestRaw (Recorded T) _ reference).
Proof.
  intros r. unfold FetchManifestRaw. unfold bind at 1 2, gets. apply sends_bind; [|intros; go_move].
  apply httpGet_sends. right. unfold manifestURL. eauto.
Qed.
#[local] Hint Resolve FetchManifestRaw_moves : gomove.

Lemma fetchBlobFrom_moves hops desc url : moves sends (@fetchBlobFrom (Recorded T) _ Sum256 hops desc url []).
Proof. revert url. induction hops as [|hops IH]; intros url; cbn [fetchBlobFrom]; go_move. Qed.
#[local] Hint Resolve fetchBlobFrom_moves : gomove.

Lemma FetchBlob_moves desc : moves sends (@FetchBlob (Recorded T) _ Sum256 desc).
Proof.
  intros r. unfold FetchBlob. unfold bind at 1 2, gets. cbn [fetchBlobFrom]. apply sends_bind; [|intros; go_move].
  apply httpGet_sends. right. unfold blobURL. eauto.
Qed.
#[local] Hint Resolve FetchBlob_moves : gomove.

Lemma fetchLayers_moves opts ds : moves sends (@fetchLayers (Recorded T) _ Sum256 opts ds).
Proof. induction ds as [|d ds IH]; cbn [fetchLayers]; go_move. Qed.
#[local] Hint Resolve fetchLayers_moves : gomove.

(** C31. The token of a fetch is only ever sent to URLs below the registry's own
    base URL for the repository: not to the token endpoint, and not to the
    targets of redirects; this on every outcome of the fetch. *)
Theorem token_stays_with_registry opts (r : Reg) :
  exists qs, requests (snd (FetchArtifact Sum256 J opts r)) = requests r ++ qs /\
    Forall (fun q => carriesToken q -> toRegistry (reg_Ref r) q) qs.
Proof.
  assert (moves sends (@FetchArtifact (Recorded T) _ Sum256 J opts)) as Hm.
  { unfold FetchArtifact, resolveManifest. go_move. }
  by destruct (Hm r) as [_ ?].
Qed.

Lemma no_more_requests (r : Reg) n :
  exists qs, requests r = requests r ++ qs /\ (length qs <= n)%nat /\ Forall (fun q => snd q = @nil (list byte)) qs.
Proof. exists []. rewrite app_nil_r. split; [done|]. split; [apply Nat.le_0_l|constructor]. Qed.

Lemma fetchBlobFrom_requests hops desc url bearer (r : Reg) :
  exists qs, requests (snd (fetchBlobFrom Sum256 (S hops) desc url bearer r)) = (requests r ++ [(url, authHeader bearer)]) ++ qs /\
    (length qs <= hops)%nat /\ Forall (fun q => snd q = []) qs.
Proof.
  revert url bearer r. induction hops as [|hops IH]; intros url bearer r.
  all: cbn [fetchBlobFrom]; destruct (httpGet_request url [] bearer r) as (El & _ & _); unfold bind at 1;
    destruct (httpGet url [] bearer r) as [[resp|e|] r1]; cbn [snd] in El;
    rewrite bool_decide_eq_true_2 in El by done; cbn [app] in El; rewrite <- El; try apply no_more_requests.
  all: destruct (isRedirect _); [case_bool_decide; [apply no_more_requests|]
    |destruct (negb _); [apply no_more_requests|]; unfold bind, lift;
     destruct (VerifyDigest _ _ _); [destruct (_ && _)|..]; apply no_more_requests].
  - apply no_more_requests.
  - destruct (IH (header (Headers resp) (str "location")) [] r1) as (qs & E & Hl & Hf). cbn [fetchBlobFrom] in E.
    eexists (_ :: qs). rewrite E, <- app_assoc. split; [done|]. split; [cbn; lia|by constructor].
Qed.

(** A blob costs at most three requests: the first goes to the registry with the
    token, the ones after a redirect carry no header at all. *)
Theorem blob_redirect_requests desc (r : Reg) :
  exists qs, requests (snd (FetchBlob Sum256 desc r))
      = requests r ++ (blobURL (reg_Ref r) (d_Digest desc), authHeader (reg_bearer r)) :: qs /\
    (length qs <= 2)%nat /\ Forall (fun q => snd q = []) qs.
Proof.
  unfold FetchBlob. unfold bind at 1 2, gets. 
  destruct (fetchBlobFrom_requests 2 desc (blobURL (reg_Ref r) (d_Digest desc)) (reg_bearer r) r) as (qs & E & Hq).
  exists qs. rewrite <- app_assoc in E. by split.
Qed.
End token.
