(* ===== verification/OciStream.v ===== *)
(** * Streaming blob fetches

    uefiboard/ministack/oci/fetch.go: FetchBlobStream, fixedSliceWriter and
    FetchBlobToBuffer, over the streaming transport interface of registry.go and
    the promise about it that HttpTransport discharges. *)

From S2P Require Import Prelude Effects NetIP Ethernet IPv4 Stack DialRetry GoStr Http HttpStream HttpTransport OciRef OciFetch.

(** ** Writers *)

(** crypto/sha256's New: a hash of everything written so far. *)
Record hasher := mkHasher { h_data : list byte }.
#[global] Instance hasher_writer : Writer hasher := {
  wrWrite b h := (Ok (len b, None), mkHasher (h_data h ++ b))
}.

(** io.MultiWriter of two writers. *)
#[global] Instance multi_writer {W1 W2} `{Writer W1} `{Writer W2} : Writer (W1 * W2) := {
  wrWrite b :=
    r1 <- zoom fst (fun w x => (w, snd x)) (wrWrite b) ;;
    match snd r1 with
    | Some e => ret r1
    | None =>
        if negb (fst r1 =? len b) then ret (fst r1, Some ErrShortWrite)
        else
          r2 <- zoom snd (fun w x => (fst x, w)) (wrWrite b) ;;
          match snd r2 with
          | Some e => ret r2
          | None => if negb (fst r2 =? len b) then ret (fst r2, Some ErrShortWrite) else ret (len b, None)
          end
    end
}.

(** A caller's buffer filled at a running offset. *)
Record fixedSliceWriter := mkFixed { fw_buf : list byte; fw_off : Z }.

(** [n := copy(w.buf[w.off:], p)]: the count and the new buffer. *)
Definition fixedWrite (p : list byte) (w : fixedSliceWriter) : out (Z * option error) * fixedSliceWriter :=
  if len (fw_buf w) <=? fw_off w then
    (Ok (if len p =? 0 then (0, None) else (0, Some ErrBlobBufferOverflow)), w)
  else
    match copyAt (fw_buf w) (fw_off w) (len (fw_buf w)) p with
    | Ok buf =>
        let n := Z.min (len (fw_buf w) - fw_off w) (len p) in
        (Ok (n, if n <? len p then Some ErrBlobBufferOverflow else None), mkFixed buf (fw_off w + n))
    | Err e => (Err e, w)
    | Panic => (Panic, w)
    end.
#[global] Instance fixed_writer : Writer fixedSliceWriter := { wrWrite := fixedWrite }.

(** ** The streaming transport *)

(** GetStream: status, count, headers and error in a [streamResult]. *)
Class StreamTransport (T : Type) := {
  tGetStream : forall {W : Type} `{Writer W}, list byte -> HTTPGetOptions -> M (T * W) streamResult
}.

(** stackTransport's GetStream: by scheme, over the two dialers. *)
Definition stackStream {S C1 C2} (plain : Dialer S C1) (tls : Dialer S C2) (fuel : nat) : StreamTransport S := {|
  tGetStream W _ url opts :=
    if HasPrefix url (str "http://") then @getStreamHeaders S C1 plain W _ fuel parseHTTPURL url opts
    else @getStreamHeaders S C2 tls W _ fuel parseHTTPSURL url opts
|}.

(** ** Fetching *)

Section fetch.
Context {T : Type}.
Variable Sum256 : list byte -> list byte.
(** [reg.Transport.(StreamTransport)], where the assertion holds. *)
Variable st : option (StreamTransport T).

(** One GET into [dst] and a fresh hasher, and what the hasher was given. *)
Definition hashedGet {W} `{Writer W} (X : StreamTransport T) (url bearer : list byte)
  : M (Registry T * W) (streamResult * list byte) := fun s =>
  let r := fst s in
  let '(o, (t, (w, h))) := @tGetStream T X (W * hasher) _ url
      (mkGetOptions (reg_DNS r) (reg_DialTimeout r) (reg_RequestTimeout r) (authHeader bearer))
      (reg_Transport r, (snd s, mkHasher [])) in
  (match o with Ok res => Ok (res, h_data h) | Err e => Err e | Panic => Panic end, (setTransport t r, w)).

(** The checks after the last hop. *)
Definition checkStream (desc : Descriptor) (url : list byte) (res : streamResult) (body : list byte) : out (Z * option error) :=
  let n := sr_written res in
  if negb (sr_status res =? 200) then Ok (n, Some (ErrRegistryStatus url (sr_status res)))
  else if (0 <? d_Size desc) && negb (n =? d_Size desc) then Ok (n, Some ErrBlobSizeMismatch)
  else
    let* d := ParseDigest (d_Digest desc) in
    if negb (EqualFold (hexEncode (Sum256 body)) (snd d)) then Ok (n, Some ErrDigestMismatch) else Ok (n, None).

(** The redirect loop; [reset] makes the writer of a hop. *)
Fixpoint streamFrom {W} `{Writer W} (X : StreamTransport T) (reset : W -> W) (hops : nat) (desc : Descriptor) (url bearer : list byte)
  : M (Registry T * W) (Z * option error) :=
  match hops with
  | O => ret (0, Some ErrTooManyRedirects)
  | S hops =>
      modify (fun s => (fst s, reset (snd s))) ;;;
      r <- hashedGet X url bearer ;;
      let res := fst r in
      match sr_err res with
      | Some herr => ret (sr_written res, Some herr)
      | None =>
          if isRedirect (sr_status res) then
            let loc := header (sr_headers res) (str "location") in
            if bool_decide (loc = []) then ret (0, Some (ErrRegistryStatus url (sr_status res)))
            else streamFrom X reset hops desc loc []
          else lift (checkStream desc url res (snd r))
      end
  end.

Definition FetchBlobStream {W} `{Writer W} (desc : Descriptor) : M (Registry T * W) (Z * option error) :=
  match ParseDigest (d_Digest desc) with
  | Err e => ret (0, Some e)
  | Panic => lift Panic
  | Ok _ =>
      match st with
      | None => ret (0, Some ErrTransportNotStreaming)
      | Some X =>
          r <- gets fst ;;
          streamFrom X id (S maxBlobRedirects) desc (blobURL (reg_Ref r) (d_Digest desc)) (reg_bearer r)
      end
  end.

(** The state holds the caller's buffer. *)
Definition FetchBlobToBuffer (desc : Descriptor) : M (Registry T * list byte) (Z * option error) := fun s =>
  match ParseDigest (d_Digest desc) with
  | Err e => (Ok (0, Some e), s)
  | Panic => (Panic, s)
  | Ok _ =>
      if (0 <? d_Size desc) && (len (snd s) <? d_Size desc) then (Ok (0, Some ErrBlobBufferTooSmall), s)
      else
        match st with
        | None => (Ok (0, Some ErrTransportNotStreaming), s)
        | Some X =>
            let '(o, (r, w)) := streamFrom X (fun w => mkFixed (fw_buf w) 0) (S maxBlobRedirects) desc
                (blobURL (reg_Ref (fst s)) (d_Digest desc)) (reg_bearer (fst s)) (fst s, mkFixed (snd s) 0) in
            (o, (r, fw_buf w))
        end
  end.
End fetch.

(** ** The promise *)

(** What the fetches rely on: a GET that reports no error put into its writer,
    by successful writes, exactly the bytes it counts, and none for a redirect. *)
Class StreamSound {T} (X : StreamTransport T) := {
  stream_wrote {W} `{WriterOk W} url opts (t : T) (w : W) res t' w' :
    tGetStream url opts (t, w) = (Ok res, (t', w')) -> sr_err res = None ->
    exists body, sr_written res = len body /\ wrote w body w' /\ (300 <= sr_status res < 400 -> body = [])
}.

(** The stack's transport keeps it, whatever the two dialers do. *)
#[global] Instance stackStream_sound {S C1 C2} (plain : Dialer S C1) (tls : Dialer S C2) fuel :
  StreamSound (stackStream plain tls fuel).
Proof.
  split. intros W ? ? url opts t w res t' w'. cbn [tGetStream stackStream].
  destruct (HasPrefix url _); apply getStreamHeaders_wrote.
Qed.

#[global] Instance hasher_ok : WriterOk hasher.
Proof. split. intros b w n w' [= <- _]. done. Qed.

(** A successful write of both went to both. *)
Lemma multi_write {W1 W2} `{WriterOk W1} `{WriterOk W2} b (w : W1 * W2) n w' :
  wrWrite b w = (Ok (n, None), w') ->
  n = len b /\ wrWrite b (fst w) = (Ok (len b, None), fst w') /\ wrWrite b (snd w) = (Ok (len b, None), snd w').
Proof.
  cbn [wrWrite multi_writer]. intros ([n1 e1] & x1 & Hz1 & Hk)%bind_ok. unfold zoom in Hz1.
  destruct (wrWrite b (fst w)) as [o1 a] eqn:E1. injection Hz1 as -> <-. cbn [fst snd] in Hk.
  destruct e1 as [e|]; [by apply ret_ok in Hk as [[=] _]|].
  destruct (negb (n1 =? len b)) eqn:En1; [by apply ret_ok in Hk as [[=] _]|].
  apply bind_ok in Hk as ([n2 e2] & x2 & Hz2 & Hk). unfold zoom in Hz2. cbn [fst snd] in Hz2.
  destruct (wrWrite b (snd w)) as [o2 c] eqn:E2. injection Hz2 as -> <-. cbn [fst snd] in Hk.
  destruct e2 as [e|]; [by apply ret_ok in Hk as [[=] _]|].
  destruct (negb (n2 =? len b)) eqn:En2; [by apply ret_ok in Hk as [[=] _]|].
  apply ret_ok in Hk as [[= ->] ->]. apply negb_false_iff, Z.eqb_eq in En1, En2. subst. cbn. by split_and!.
Qed.

#[global] Instance multi_ok {W1 W2} `{WriterOk W1} `{WriterOk W2} : WriterOk (W1 * W2).
Proof. split. intros b w n w' E. by apply multi_write in E as [? _]. Qed.

(** Writing through a hasher: the writer takes the bytes that are hashed. *)
Lemma wrote_hashed {W} `{WriterOk W} (w : W) h body w' h' :
  wrote (w, h) body (w', h') -> wrote w body w' /\ h_data h' = h_data h ++ body.
Proof.
  remember (w, h) as x eqn:Ex. remember (w', h') as y eqn:Ey. intros Hw. revert w h Ex Ey.
  induction Hw as [x|x b x1 bs y Hb _ IH]; intros w0 h0 -> Ey.
  - injection Ey as <- <-. split; [constructor|by rewrite app_nil_r].
  - apply multi_write in Hb as (_ & Hb1 & Hb2). cbn [fst snd] in *. destruct x1 as [w1 h1]. cbn [fst snd] in *.
    destruct (IH w1 h1 eq_refl Ey) as [Hw Hh]. split; [by econstructor|]. cbn in Hb2. injection Hb2 as <-.
    rewrite Hh. cbn. by rewrite app_assoc.
Qed.

(** A write into a caller's buffer behind the bytes [pre] already there. *)
Lemma fixedWrite_ok b pre rest n w' :
  fixedWrite b (mkFixed (pre ++ rest) (len pre)) = (Ok (n, None), w') ->
  exists mid post, rest = mid ++ post /\ len mid = len b /\ w' = mkFixed ((pre ++ b) ++ post) (len (pre ++ b)).
Proof.
  unfold fixedWrite. cbn [fw_buf fw_off]. rewrite len_app. destruct (Z.leb_spec (len pre + len rest) (len pre)).
  - destruct (Z.eqb_spec (len b) 0) as [Eb|]; [|done]. intros [= <- <-]. exists [], rest.
    assert (b = []) as -> by (destruct b; [done|]; revert Eb; len_lia). by rewrite app_nil_r.
  - destruct (copyAt _ _ _ _) as [buf|e|] eqn:Ec; [|done|done].
    destruct (Z.ltb_spec (Z.min (len pre + len rest - len pre) (len b)) (len b)); [done|]. intros [= _ <-].
    assert (len b <= len rest) by lia. rewrite Z.min_r by lia. exists (take (length b) rest), (drop (length b) rest).
    rewrite take_drop, len_app. split; [done|]. split; [unfold len in *; rewrite length_take; lia|]. f_equal.
    revert Ec. unfold copyAt. rewrite <- (len_app pre rest). change (slice (pre ++ rest) (len pre) (len (pre ++ rest))) with (sliceFrom (pre ++ rest) (len pre)).
    rewrite sliceFrom_app by done. cbn [out_bind]. intros [= <-].
    unfold len. rewrite !Nat2Z.id, take_app_length, drop_all, app_nil_r, <- app_assoc. f_equal.
    unfold copy. rewrite Nat.min_r by (unfold len in *; lia). by rewrite take_ge by lia.
Qed.

#[global] Instance fixed_ok : WriterOk fixedSliceWriter.
Proof.
  split. intros b w n w'. cbn [wrWrite fixed_writer]. unfold fixedWrite. destruct (_ <=? _).
  - destruct (Z.eqb_spec (len b) 0); [by intros [= <- _]|done].
  - destruct (copyAt _ _ _ _); [|done|done]. destruct (Z.ltb_spec (Z.min (len (fw_buf w) - fw_off w) (len b)) (len b)); [done|].
    intros [= <- _]. lia.
Qed.

Lemma wrote_fixed pre rest body (w' : fixedSliceWriter) :
  wrote (mkFixed (pre ++ rest) (len pre)) body w' ->
  exists mid post, rest = mid ++ post /\ len mid = len body /\ fw_buf w' = pre ++ body ++ post.
Proof.
  remember (mkFixed (pre ++ rest) (len pre)) as w eqn:Ew. intros Hw. revert pre rest Ew.
  induction Hw as [w|w b w1 bs w2 Hb _ IH]; intros pre rest ->.
  - by exists [], rest.
  - apply fixedWrite_ok in Hb as (m1 & p1 & -> & Hm1 & ->). destruct (IH _ _ eq_refl) as (m2 & p2 & -> & Hm2 & ->).
    exists (m1 ++ m2), p2. rewrite !len_app, <- !app_assoc. split_and!; [done|lia|done].
Qed.

(** ** What a successful fetch guarantees *)

Section verified.
Context {T : Type} (X : StreamTransport T) `{!StreamSound X}.
Variable Sum256 : list byte -> list byte.

Lemma hashedGet_ok {W} `{WriterOk W} url bearer (r : Registry T) (w : W) res body r' w' :
  hashedGet X url bearer (r, w) = (Ok (res, body), (r', w')) -> sr_err res = None ->
  wrote w body w' /\ sr_written res = len body /\ (isRedirect (sr_status res) = true -> body = []).
Proof.
  unfold hashedGet. cbn [fst snd]. destruct (tGetStream _ _ _) as [o [t [w1 h1]]] eqn:E. destruct o as [res'| |]; [|done|done].
  intros [= -> <- <- <-] He. destruct (stream_wrote _ _ _ _ _ _ _ E He) as (b & Hn & Hw & Hr).
  apply wrote_hashed in Hw as [Hw Hh]. cbn in Hh. rewrite Hh. split_and!; [done..|]. intros Hred. apply Hr.
  revert Hred. unfold isRedirect. lia.
Qed.

Lemma checkStream_ok desc url res body n :
  checkStream Sum256 desc url res body = Ok (n, None) -> sr_written res = len body ->
  len body = n /\ blobOf Sum256 desc body.
Proof.
  unfold checkStream. destruct (negb _); [done|]. destruct (_ && _) eqn:Es; [done|].
  destruct (ParseDigest (d_Digest desc)) as [d| |] eqn:Ed; cbn [out_bind]; [|done|done].
  destruct (negb (EqualFold _ _)) eqn:Ef; [done|]. intros [= <-] Hn. split; [done|]. split.
  - unfold VerifyDigest. rewrite Ed. cbn [out_bind]. by rewrite Ef.
  - intros Hs. revert Es. rewrite (proj2 (Z.ltb_lt _ _)) by done. cbn. rewrite Hn. lia.
Qed.

(** The hops of a fetch: what the last one put into its writer is the blob.  [I]
    relates the writer at the start to the one the last hop started with. *)
Lemma streamFrom_ok {W} `{WriterOk W} (reset : W -> W) (I : W -> Prop) hops desc url bearer (r : Registry T) (w : W) n r' w' :
  (forall w w1, I w -> wrote (reset w) [] w1 -> I w1) -> I w ->
  streamFrom Sum256 X reset hops desc url bearer (r, w) = (Ok (n, None), (r', w')) ->
  exists w1 body, I w1 /\ wrote (reset w1) body w' /\ len body = n /\ blobOf Sum256 desc body.
Proof.
  intros HI. revert url bearer r w. induction hops as [|hops IH]; intros url bearer r w Hw; cbn [streamFrom]; [done|].
  intros ([] & s1 & [= <-] & Hk)%bind_ok. apply bind_ok in Hk as ([res body] & [r2 w2] & Hg & Hk). cbn [fst snd] in *.
  destruct (sr_err res) as [e|] eqn:Ee; [by apply ret_ok in Hk as [[=] _]|].
  destruct (hashedGet_ok _ _ _ _ _ _ _ _ Hg Ee) as (Hwr & Hn & Hred). destruct (isRedirect (sr_status res)).
  - case_bool_decide; [by apply ret_ok in Hk as [[=] _]|]. eapply IH; [|exact Hk]. rewrite Hred in Hwr by done. by eapply HI.
  - apply lift_ok in Hk as [Hc [= -> ->]]. apply checkStream_ok in Hc as [? ?]; [|done]. by exists w, body.
Qed.

(** C14. A blob streamed to a writer: when the fetch reports success, the writer has
    taken, by successful writes and nothing else, bytes that match the
    descriptor's digest and size, whatever redirects were followed. *)
Theorem blob_stream_verified {W} `{WriterOk W} desc (r : Registry T) (w : W) n r' w' :
  FetchBlobStream Sum256 (Some X) desc (r, w) = (Ok (n, None), (r', w')) ->
  exists body, wrote w body w' /\ len body = n /\ blobOf Sum256 desc body.
Proof.
  unfold FetchBlobStream. destruct (ParseDigest (d_Digest desc)); [|done|done].
  intros (r0 & s & [= <- <-] & Hk)%bind_ok.
  eapply (streamFrom_ok id (fun w1 => wrote w [] w1)) in Hk as (w1 & body & Hw1 & Hb & Hl & Ho).
  - exists body. split; [|done]. by apply (wrote_app w [] w1).
  - intros x y Hx Hy. by apply (wrote_app w [] x [] y).
  - constructor.
Qed.

(** A blob streamed into a caller's buffer: when the fetch reports success, the
    front of the buffer is the blob and the rest is as it was; in particular the
    blob fitted. *)
Theorem blob_buffer_verified desc (r : Registry T) dst n r' dst' :
  FetchBlobToBuffer Sum256 (Some X) desc (r, dst) = (Ok (n, None), (r', dst')) ->
  exists body, dst' = body ++ drop (length body) dst /\ len dst' = len dst /\ len body = n /\ blobOf Sum256 desc body.
Proof.
  unfold FetchBlobToBuffer. cbn [fst snd]. destruct (ParseDigest (d_Digest desc)); [|done|done].
  destruct (_ && _); [done|]. destruct (streamFrom _ _ _ _ _ _ _ _) as [o [r1 w1]] eqn:E. intros [= -> -> <-].
  eapply (streamFrom_ok _ (fun w => fw_buf w = dst)) in E as (w & body & Hw & Hb & Hl & Ho); [| |done].
  - rewrite Hw in Hb. apply (wrote_fixed [] dst) in Hb as (mid & post & -> & Hm & ->). exists body. cbn [app].
    rewrite !len_app. rewrite drop_app_length' by (unfold len in Hm; lia). split_and!; [done|lia|done|done].
  - intros w w2 Hw Hb. rewrite Hw in Hb. apply (wrote_fixed [] dst) in Hb as (mid & post & -> & Hm & ->).
    destruct mid; [done|]. revert Hm. len_lia.
Qed.
End verified.

(** A server whose connections answer in turn, each cut into segments. *)
Record scripted := mkScripted { sv_next : list (list (list byte)); sv_now : segReader }.
Definition scriptDialer : Dialer scripted unit := {|
  dDial _ _ s :=
    match sv_next s with
    | [] => (Err ErrTCP4ConnRefused, s)
    | segs :: next => (Ok tt, mkScripted next (mkSegReader segs ErrEOF))
    end;
  dRead _ n s := let '(r, x) := rdRead n (sv_now s) in (r, mkScripted (sv_next s) x);
  dWrite _ b s := (Ok (len b, None), s);
  dClose _ s := (Ok tt, s)
|}.

Definition helloDesc : Descriptor := mkDescriptor [] (DigestFromBytes toyHash (str "hello")) 5 None.
(** A redirect with a body of its own, then the blob in two segments. *)
Definition helloServer : scripted := mkScripted
  [[str "HTTP/1.1 307 Moved" ++ crlf ++ str "Location: https://s3/x" ++ crlf ++ str "Content-Length: 4" ++ crlf ++ crlf ++ str "junk"];
   [str "HTTP/1.1 200 OK" ++ crlf ++ str "Content-Length: 5" ++ crlf ++ crlf ++ str "he"; str "llo"]]
  (mkSegReader [] ErrEOF).
Definition helloStream : StreamTransport scripted := stackStream scriptDialer scriptDialer 20.
Definition helloRegistry : Registry scripted := NewRegistryWithTransport helloServer None toyRef.

Lemma blob_buffer_verified_witness :
  exists r' dst' body, FetchBlobToBuffer toyHash (Some helloStream) helloDesc (helloRegistry, str "????????") = (Ok (5, None), (r', dst')) /\
    dst' = str "hello???" /\ dst' = body ++ drop (length body) (str "????????") /\ blobOf toyHash helloDesc body.
Proof.
  assert (match FetchBlobToBuffer toyHash (Some helloStream) helloDesc (helloRegistry, str "????????") with
          | (Ok (n, None), (_, dst')) => bool_decide ((n, dst') = (5, str "hello???")) | _ => false end = true) as Hb
    by (vm_compute; reflexivity).
  destruct (FetchBlobToBuffer toyHash (Some helloStream) helloDesc (helloRegistry, str "????????")) as [[[n [e|]]|e|] [r' dst']] eqn:E;
    try discriminate Hb. apply bool_decide_eq_true in Hb. injection Hb as -> Hd.
  destruct (blob_buffer_verified helloStream toyHash helloDesc helloRegistry (str "????????") 5 r' dst' E) as (body & H1 & _ & _ & H2).
  exists r', dst', body. split; [reflexivity|]. split; [exact Hd|]. split; [exact H1|exact H2].
Defined.

Lemma blob_stream_verified_witness :
  exists r' w' body, FetchBlobStream toyHash (Some helloStream) helloDesc (helloRegistry, str "> ") = (Ok (5, None), (r', w')) /\
    w' = str "> hello" /\ wrote (str "> ") body w' /\ blobOf toyHash helloDesc body.
Proof.
  assert (match FetchBlobStream toyHash (Some helloStream) helloDesc (helloRegistry, str "> ") with
          | (Ok (n, None), (_, w')) => bool_decide ((n, w') = (5, str "> hello")) | _ => false end = true) as Hb
    by (vm_compute; reflexivity).
  destruct (FetchBlobStream toyHash (Some helloStream) helloDesc (helloRegistry, str "> ")) as [[[n [e|]]|e|] [r' w']] eqn:E;
    try discriminate Hb. apply bool_decide_eq_true in Hb. injection Hb as -> Hd.
  destruct (blob_stream_verified helloStream toyHash helloDesc helloRegistry (str "> ") 5 r' w' E) as (body & H1 & _ & H2).
  exists r', w', body. split; [reflexivity|]. split; [exact Hd|]. split; [exact H1|exact H2].
Defined.
