(* ===== verification/LittleEndian.v ===== *)
(** * Little-endian words

    uefiboard: putLE64 of blkprintk.go, leU32 and leU64 of memorymap.go, with
    their round trips. *)

From S2P Require Import Prelude.

(** The bytes putLE64 stores. *)
Definition le64 (v : Z) : list byte :=
  [z2b v; z2b (Z.shiftr v 8); z2b (Z.shiftr v 16); z2b (Z.shiftr v 24);
   z2b (Z.shiftr v 32); z2b (Z.shiftr v 40); z2b (Z.shiftr v 48); z2b (Z.shiftr v 56)].
Definition putLE64 (b : list byte) (v : Z) : out (list byte) :=
  if len b <? 8 then Panic else Ok (le64 v ++ drop 8 b).

(** [putLE64(b[lo:lo+8], v)] *)
Definition putLE64At (b : list byte) (lo v : Z) : out (list byte) :=
  let* w := slice b lo (lo + 8) in
  let* w := putLE64 w v in
  copyAt b lo (lo + 8) w.

Definition leU32 (b : list byte) : out Z :=
  match b with
  | b0 :: b1 :: b2 :: b3 :: _ =>
      Ok (Z.lor (Z.lor (Z.lor (b2z b0) (Z.shiftl (b2z b1) 8)) (Z.shiftl (b2z b2) 16)) (Z.shiftl (b2z b3) 24))
  | _ => Panic
  end.
Definition leU64 (b : list byte) : out Z :=
  match b with
  | b0 :: b1 :: b2 :: b3 :: b4 :: b5 :: b6 :: b7 :: _ =>
      Ok (Z.lor (Z.lor (Z.lor (Z.lor (Z.lor (Z.lor (Z.lor (b2z b0) (Z.shiftl (b2z b1) 8)) (Z.shiftl (b2z b2) 16))
           (Z.shiftl (b2z b3) 24)) (Z.shiftl (b2z b4) 32)) (Z.shiftl (b2z b5) 40)) (Z.shiftl (b2z b6) 48)) (Z.shiftl (b2z b7) 56))
  | _ => Panic
  end.

(** A byte put above [k] bits of an accumulator. *)
Lemma lor_above acc b k : 0 <= k -> 0 <= acc < 2 ^ k -> Z.lor acc (Z.shiftl (b2z b) k) = acc + b2z b * 2 ^ k.
Proof. intros Hk Ha. rewrite Z.lor_comm, lor_add_disjoint by done. lia. Qed.

(** The bytes of [v], least significant first, give [v] modulo the width. *)
Lemma leU64_le64 v rest : leU64 (le64 v ++ rest) = Ok (u64 v).
Proof.
  cbn [le64 app leU64]. f_equal. unfold u64.
  assert (forall k, 0 <= k -> b2z (z2b (Z.shiftr v k)) = (v / 2 ^ k) mod 2 ^ 8) as Hb.
  { intros k Hk. by rewrite b2z_z2b, Z.shiftr_div_pow2. }
  assert (forall k n, 0 <= k -> 0 <= n -> v mod 2 ^ (k + 8) = v mod 2 ^ k + (v / 2 ^ k) mod 2 ^ 8 * 2 ^ k) as Hstep.
  { intros k n Hk Hn. rewrite Z.pow_add_r, Z.rem_mul_r by lia. lia. }
  assert (forall acc k, 0 <= k -> acc = v mod 2 ^ k ->
    Z.lor acc (Z.shiftl (b2z (z2b (Z.shiftr v k))) k) = v mod 2 ^ (k + 8)) as Hor.
  { intros acc k Hk ->. rewrite lor_above, Hb, (Hstep k 0) by (try apply Z.mod_pos_bound; lia). done. }
  change (2 ^ 64) with (2 ^ (56 + 8)). do 7 (apply Hor; [lia|]). by rewrite b2z_z2b.
Qed.

Lemma len_le64 v : len (le64 v) = 8.
Proof. done. Qed.

Lemma leU32_le64 v : 0 <= v < 2 ^ 32 -> leU32 (take 4 (le64 v)) = Ok v.
Proof.
  intros Hv. cbn [take le64 leU32]. f_equal.
  assert (forall k, 0 <= k -> b2z (z2b (Z.shiftr v k)) = (v / 2 ^ k) mod 2 ^ 8) as Hb.
  { intros k Hk. by rewrite b2z_z2b, Z.shiftr_div_pow2. }
  assert (forall acc k, 0 <= k -> acc = v mod 2 ^ k -> Z.lor acc (Z.shiftl (b2z (z2b (Z.shiftr v k))) k) = v mod 2 ^ (k + 8)) as Hor.
  { intros acc k Hk ->. rewrite lor_above, Hb by (try apply Z.mod_pos_bound; lia). rewrite Z.pow_add_r, Z.rem_mul_r by lia. lia. }
  rewrite <- (Z.mod_small v (2 ^ 32)) at 5 by lia. change (2 ^ 32) with (2 ^ (24 + 8)). do 3 (apply Hor; [lia|]). by rewrite b2z_z2b.
Qed.

(** The narrower words. *)
Definition le32 (v : Z) : list byte := take 4 (le64 v).
Definition le16 (v : Z) : list byte := take 2 (le64 v).
Lemma len_le32 v : len (le32 v) = 4.
Proof. done. Qed.
Lemma len_le16 v : len (le16 v) = 2.
Proof. done. Qed.

(** Reading eight bytes, and back. *)
Lemma leU64_ok b : len b = 8 -> exists v, leU64 b = Ok v /\ 0 <= v < 2 ^ 64.
Proof.
  intros Hb. destruct b as [|b0 [|b1 [|b2 [|b3 [|b4 [|b5 [|b6 [|b7 b]]]]]]]]; try discriminate Hb.
  cbn [leU64]. eexists. split; [reflexivity|]. pose proof (b2z_range b0). pose proof (b2z_range b1). pose proof (b2z_range b2). pose proof (b2z_range b3).
  pose proof (b2z_range b4). pose proof (b2z_range b5). pose proof (b2z_range b6). pose proof (b2z_range b7).
  rewrite (lor_above _ _ 8) by lia. rewrite (lor_above _ _ 16) by lia. rewrite (lor_above _ _ 24) by lia. rewrite (lor_above _ _ 32) by lia.
  rewrite (lor_above _ _ 40) by lia. rewrite (lor_above _ _ 48) by lia. rewrite (lor_above _ _ 56) by lia. lia.
Qed.

(** The byte at [k] bits of a sum. *)
Lemma z2b_digit lo b hi k v : 0 <= k -> 0 <= lo < 2 ^ k -> v = lo + b2z b * 2 ^ k + hi * 2 ^ (k + 8) -> z2b (Z.shiftr v k) = b.
Proof.
  intros Hk Hlo ->. rewrite <- (z2b_b2z b) at 2. apply b2z_inj. rewrite !b2z_z2b, Z.shiftr_div_pow2 by done.
  replace (lo + b2z b * 2 ^ k + hi * 2 ^ (k + 8)) with ((b2z b + hi * 256) * 2 ^ k + lo) by (rewrite Z.pow_add_r by lia; lia).
  rewrite Z.div_add_l, (Z.div_small lo), Z.add_0_r by lia. by rewrite Z.mod_add.
Qed.
Lemma leU64_inv b v : len b = 8 -> leU64 b = Ok v -> le64 v = b.
Proof.
  intros Hb. destruct b as [|b0 [|b1 [|b2 [|b3 [|b4 [|b5 [|b6 [|b7 [|? b]]]]]]]]]; try discriminate Hb; [|rewrite !len_cons in Hb; pose proof (len_nonneg b); lia].
  cbn [leU64]. intros [= E]. pose proof (b2z_range b0). pose proof (b2z_range b1). pose proof (b2z_range b2). pose proof (b2z_range b3).
  pose proof (b2z_range b4). pose proof (b2z_range b5). pose proof (b2z_range b6). pose proof (b2z_range b7).
  rewrite (lor_above _ _ 8) in E by lia. rewrite (lor_above _ _ 16) in E by lia. rewrite (lor_above _ _ 24) in E by lia. rewrite (lor_above _ _ 32) in E by lia.
  rewrite (lor_above _ _ 40) in E by lia. rewrite (lor_above _ _ 48) in E by lia. rewrite (lor_above _ _ 56) in E by lia.
  assert (forall k lo b hi, 0 <= k -> 0 <= lo < 2 ^ k -> v = lo + b2z b * 2 ^ k + hi * 2 ^ (k + 8) -> z2b (Z.shiftr v k) = b) as Hz by (intros; by eapply z2b_digit).
  set (l1 := b2z b0) in *. set (l2 := l1 + b2z b1 * 2 ^ 8) in *. set (l3 := l2 + b2z b2 * 2 ^ 16) in *. set (l4 := l3 + b2z b3 * 2 ^ 24) in *.
  set (l5 := l4 + b2z b4 * 2 ^ 32) in *. set (l6 := l5 + b2z b5 * 2 ^ 40) in *. set (l7 := l6 + b2z b6 * 2 ^ 48) in *.
  unfold le64. rewrite <- (Z.shiftr_0_r v) at 1.
  rewrite (Hz 0 0 b0 (b2z b1 + b2z b2 * 2 ^ 8 + b2z b3 * 2 ^ 16 + b2z b4 * 2 ^ 24 + b2z b5 * 2 ^ 32 + b2z b6 * 2 ^ 40 + b2z b7 * 2 ^ 48)) by lia.
  rewrite (Hz 8 l1 b1 (b2z b2 + b2z b3 * 2 ^ 8 + b2z b4 * 2 ^ 16 + b2z b5 * 2 ^ 24 + b2z b6 * 2 ^ 32 + b2z b7 * 2 ^ 40)) by lia.
  rewrite (Hz 16 l2 b2 (b2z b3 + b2z b4 * 2 ^ 8 + b2z b5 * 2 ^ 16 + b2z b6 * 2 ^ 24 + b2z b7 * 2 ^ 32)) by lia.
  rewrite (Hz 24 l3 b3 (b2z b4 + b2z b5 * 2 ^ 8 + b2z b6 * 2 ^ 16 + b2z b7 * 2 ^ 24)) by lia.
  rewrite (Hz 32 l4 b4 (b2z b5 + b2z b6 * 2 ^ 8 + b2z b7 * 2 ^ 16)) by lia.
  rewrite (Hz 40 l5 b5 (b2z b6 + b2z b7 * 2 ^ 8)) by lia. rewrite (Hz 48 l6 b6 (b2z b7)) by lia. by rewrite (Hz 56 l7 b7 0) by lia.
Qed.

(** A word stored at [len pre], over eight bytes. *)
Lemma putLE64At_app pre w post v :
  len w = 8 -> putLE64At (pre ++ w ++ post) (len pre) v = Ok (pre ++ le64 v ++ post).
Proof.
  intros Hw. unfold putLE64At. rewrite slice_app_at by (rewrite ?Hw; done). cbn [out_bind]. unfold putLE64.
  rewrite Hw. change (8 <? 8) with false. cbn [out_bind].
  rewrite drop_ge, app_nil_r by (unfold len in Hw; lia). unfold copyAt. rewrite slice_app_at by (rewrite ?Hw; done).
  cbn [out_bind]. f_equal. unfold len at 1. rewrite Nat2Z.id, take_app_length.
  f_equal. f_equal.
  - unfold copy. assert (length w = 8%nat) as Hl by (unfold len in Hw; lia). rewrite Hl. change (length (le64 v)) with 8%nat.
    cbn [Nat.min]. by rewrite drop_ge, app_nil_r by lia.
  - rewrite app_assoc, drop_app_length'; [done|]. rewrite length_app. unfold len in *. lia.
Qed.

(** At the front. *)
Lemma putLE64At_front w post v : len w = 8 -> putLE64At (w ++ post) 0 v = Ok (le64 v ++ post).
Proof. intros Hw. apply (putLE64At_app [] w post v Hw). Qed.

(** ** What a reader means *)

(** The number that bytes spell, least significant first, and the bytes of a range
    of a file. *)
Definition littleEndian (bs : list byte) : Z := foldr (fun b n => b2z b + 256 * n) 0 bs.
Definition bytesAt (b : list byte) (off n : Z) : list byte := take (Z.to_nat n) (drop (Z.to_nat off) b).

Lemma littleEndian_range bs : 0 <= littleEndian bs < 256 ^ len bs.
Proof.
  induction bs as [|b bs IH]; [done|]. cbn [littleEndian foldr]. fold (littleEndian bs). rewrite len_cons. pose proof (len_nonneg bs).
  pose proof (b2z_range b). rewrite Z.pow_add_r by lia. change (256 ^ 1) with 256. nia.
Qed.

Lemma slice_bytesAt b lo hi : 0 <= lo <= hi -> hi <= len b -> slice b lo hi = Ok (bytesAt b lo (hi - lo)).
Proof. intros. by rewrite slice_ok by lia. Qed.
Lemma length_bytesAt b off n : 0 <= off -> 0 <= n -> off + n <= len b -> len (bytesAt b off n) = n.
Proof. intros. unfold bytesAt. rewrite len_take, len_drop. lia. Qed.
(** A range of a range. *)
Lemma bytesAt_inner b off n off' n' :
  0 <= off -> 0 <= off' -> off' + n' <= n -> bytesAt (bytesAt b off n) off' n' = bytesAt b (off + off') n'.
Proof.
  intros. unfold bytesAt. rewrite skipn_firstn_comm, take_take, drop_drop. f_equal; [lia|f_equal; lia].
Qed.

Lemma leU32_value b : (4 <= length b)%nat -> leU32 b = Ok (littleEndian (take 4 b)).
Proof.
  intros Hb. destruct b as [|b0 [|b1 [|b2 [|b3 b]]]]; try (cbn in Hb; lia). cbn [leU32 take]. f_equal.
  pose proof (b2z_range b0). pose proof (b2z_range b1). pose proof (b2z_range b2). pose proof (b2z_range b3).
  rewrite (lor_above _ _ 8) by lia. rewrite (lor_above _ _ 16) by lia. rewrite (lor_above _ _ 24) by lia. rewrite ?take_0. cbn [littleEndian foldr]. lia.
Qed.
Lemma leU64_value b : (8 <= length b)%nat -> leU64 b = Ok (littleEndian (take 8 b)).
Proof.
  intros Hb. destruct b as [|b0 [|b1 [|b2 [|b3 [|b4 [|b5 [|b6 [|b7 b]]]]]]]]; try (cbn in Hb; lia). cbn [leU64 take]. f_equal.
  pose proof (b2z_range b0). pose proof (b2z_range b1). pose proof (b2z_range b2). pose proof (b2z_range b3).
  pose proof (b2z_range b4). pose proof (b2z_range b5). pose proof (b2z_range b6). pose proof (b2z_range b7).
  rewrite (lor_above _ _ 8) by lia. rewrite (lor_above _ _ 16) by lia. rewrite (lor_above _ _ 24) by lia. rewrite (lor_above _ _ 32) by lia.
  rewrite (lor_above _ _ 40) by lia. rewrite (lor_above _ _ 48) by lia. rewrite (lor_above _ _ 56) by lia. rewrite ?take_0. cbn [littleEndian foldr]. lia.
Qed.
