(* ===== verification/Base64.v ===== *)
(** * Base64

    encoding/base64's StdEncoding as the cosign verifier uses it: DecodeString
    (line breaks are skipped, padding is required, what follows it is an error)
    and EncodeToString, with their round trip. *)

From S2P Require Import Prelude LittleEndian.

Definition encodeStd (d : Z) : byte :=
  z2b (if d <? 26 then 65 + d else if d <? 52 then 97 + (d - 26) else if d <? 62 then 48 + (d - 52) else if d =? 62 then 43 else 47).
Definition decodeMap (b : byte) : option Z :=
  let z := b2z b in
  if (65 <=? z) && (z <=? 90) then Some (z - 65)
  else if (97 <=? z) && (z <=? 122) then Some (z - 97 + 26)
  else if (48 <=? z) && (z <=? 57) then Some (z - 48 + 52)
  else if z =? 43 then Some 62 else if z =? 47 then Some 63 else None.
Definition padChar : byte := x3d.

(** The three bytes of four six-bit digits. *)
Definition quantum (d0 d1 d2 d3 : Z) : Z := Z.lor (Z.lor (Z.lor (Z.shiftl d0 18) (Z.shiftl d1 12)) (Z.shiftl d2 6)) d3.
Definition quantumBytes (v : Z) : list byte := [z2b (Z.shiftr v 16); z2b (Z.shiftr v 8); z2b v].

Fixpoint decodeQuanta (s : list byte) : option (list byte) :=
  match s with
  | [] => Some []
  | a :: b :: c :: d :: r =>
      match decodeMap a, decodeMap b with
      | Some d0, Some d1 =>
          match decodeMap c, decodeMap d with
          | Some d2, Some d3 => option_map (app (quantumBytes (quantum d0 d1 d2 d3))) (decodeQuanta r)
          | Some d2, None =>
              if bool_decide (d = padChar /\ r = []) then Some (take 2 (quantumBytes (quantum d0 d1 d2 0))) else None
          | None, _ => if bool_decide (c = padChar /\ d = padChar /\ r = []) then Some (take 1 (quantumBytes (quantum d0 d1 0 0))) else None
          end
      | _, _ => None
      end
  | _ => None
  end.
Definition isNewline (b : byte) : bool := (b2z b =? 10) || (b2z b =? 13).
Definition DecodeString (s : list byte) : option (list byte) := decodeQuanta (List.filter (fun b => negb (isNewline b)) s).

Definition digitOf (v k : Z) : byte := encodeStd (Z.land (Z.shiftr v k) 63).
Fixpoint EncodeToString (b : list byte) : list byte :=
  match b with
  | b0 :: b1 :: b2 :: r =>
      let v := Z.lor (Z.lor (Z.shiftl (b2z b0) 16) (Z.shiftl (b2z b1) 8)) (b2z b2) in
      [digitOf v 18; digitOf v 12; digitOf v 6; digitOf v 0] ++ EncodeToString r
  | [b0; b1] => let v := Z.lor (Z.shiftl (b2z b0) 16) (Z.shiftl (b2z b1) 8) in [digitOf v 18; digitOf v 12; digitOf v 6; padChar]
  | [b0] => let v := Z.shiftl (b2z b0) 16 in [digitOf v 18; digitOf v 12; padChar; padChar]
  | [] => []
  end.

(** ** Round trip *)

Lemma decodeMap_digit v k : decodeMap (digitOf v k) = Some (Z.land (Z.shiftr v k) 63).
Proof.
  unfold digitOf. assert (0 <= Z.land (Z.shiftr v k) 63 < 64) as Hr by (change 63 with (Z.ones 6); rewrite Z.land_ones by lia; apply Z.mod_pos_bound; lia).
  generalize dependent (Z.land (Z.shiftr v k) 63). intros d Hd.
  assert (forallb (fun n => bool_decide (decodeMap (encodeStd (Z.of_nat n)) = Some (Z.of_nat n))) (seq 0 64) = true) as Hall by (vm_compute; reflexivity).
  rewrite forallb_forall in Hall. specialize (Hall (Z.to_nat d)). rewrite Z2Nat.id in Hall by lia.
  eapply bool_decide_eq_true_1, Hall. apply in_seq. lia.
Qed.
Lemma digitOf_plain v k : isNewline (digitOf v k) = false.
Proof.
  pose proof (decodeMap_digit v k) as Hd. unfold decodeMap, isNewline in *.
  destruct (Z.eqb_spec (b2z (digitOf v k)) 10) as [E|]; [by rewrite E in Hd|]. destruct (Z.eqb_spec (b2z (digitOf v k)) 13) as [E|]; [by rewrite E in Hd|]. done.
Qed.

Lemma quantum_sum a b c d : 0 <= a < 64 -> 0 <= b < 64 -> 0 <= c < 64 -> 0 <= d < 64 -> quantum a b c d = a * 2 ^ 18 + b * 2 ^ 12 + c * 2 ^ 6 + d.
Proof.
  intros Ha Hb Hc Hd. unfold quantum. rewrite <- !Z.lor_assoc.
  rewrite (lor_add_disjoint c d 6) by lia. rewrite (lor_add_disjoint b (c * 2 ^ 6 + d) 12) by lia.
  rewrite (lor_add_disjoint a _ 18) by lia. lia.
Qed.

Lemma digit_div v k : 0 <= k -> Z.land (Z.shiftr v k) 63 = (v / 2 ^ k) mod 64.
Proof. intros Hk. change 63 with (Z.ones 6). rewrite Z.land_ones, Z.shiftr_div_pow2 by lia. done. Qed.

Lemma quantum_digits v : 0 <= v < 2 ^ 24 ->
  quantum (Z.land (Z.shiftr v 18) 63) (Z.land (Z.shiftr v 12) 63) (Z.land (Z.shiftr v 6) 63) (Z.land (Z.shiftr v 0) 63) = v.
Proof.
  intros Hv. rewrite !digit_div by lia. rewrite quantum_sum by (apply Z.mod_pos_bound; lia).
  change (2 ^ 0) with 1. rewrite Z.div_1_r. change (2 ^ 18) with (64 * 64 * 64). change (2 ^ 12) with (64 * 64). change (2 ^ 6) with 64.
  rewrite <- !Z.div_div by lia. rewrite (Z.mod_small (v / 64 / 64 / 64)).
  - pose proof (Z.div_mod v 64). pose proof (Z.div_mod (v / 64) 64). pose proof (Z.div_mod (v / 64 / 64) 64). lia.
  - rewrite !Z.div_div by lia. split; [apply Z.div_pos; lia|apply Z.div_lt_upper_bound; lia].
Qed.

(** Two and three digits, with the bits below them zero. *)
Lemma quantum_digits0 v : 0 <= v < 2 ^ 24 -> v mod 64 = 0 ->
  quantum (Z.land (Z.shiftr v 18) 63) (Z.land (Z.shiftr v 12) 63) (Z.land (Z.shiftr v 6) 63) 0 = v.
Proof.
  intros Hv H0. rewrite <- (quantum_digits v Hv) at 4. f_equal. rewrite digit_div by lia. change (2 ^ 0) with 1. by rewrite Z.div_1_r.
Qed.
Lemma quantum_digits00 v : 0 <= v < 2 ^ 24 -> v mod 4096 = 0 ->
  quantum (Z.land (Z.shiftr v 18) 63) (Z.land (Z.shiftr v 12) 63) 0 0 = v.
Proof.
  intros Hv H0. pose proof (Z.div_mod v 4096 ltac:(lia)) as Hd. rewrite <- (quantum_digits0 v Hv) at 3.
  - f_equal. rewrite digit_div by lia. change (2 ^ 6) with 64. rewrite Hd, H0, Z.add_0_r.
    replace (4096 * (v / 4096)) with ((v / 4096 * 64) * 64) by lia. by rewrite Z.div_mul, Z.mod_mul by lia.
  - rewrite Hd, H0, Z.add_0_r. replace (4096 * (v / 4096)) with ((v / 4096 * 64) * 64) by lia. by apply Z.mod_mul.
Qed.

Lemma bytes3 b0 b1 b2 : Z.lor (Z.lor (Z.shiftl (b2z b0) 16) (Z.shiftl (b2z b1) 8)) (b2z b2) = b2z b0 * 2 ^ 16 + b2z b1 * 2 ^ 8 + b2z b2.
Proof.
  pose proof (b2z_range b0). pose proof (b2z_range b1). pose proof (b2z_range b2). rewrite <- Z.lor_assoc.
  rewrite (lor_add_disjoint _ (b2z b2) 8) by lia. rewrite (lor_add_disjoint _ _ 16) by lia. lia.
Qed.
Lemma quantumBytes3 b0 b1 b2 : quantumBytes (b2z b0 * 2 ^ 16 + b2z b1 * 2 ^ 8 + b2z b2) = [b0; b1; b2].
Proof.
  pose proof (b2z_range b0). pose proof (b2z_range b1). pose proof (b2z_range b2). unfold quantumBytes. rewrite !Z.shiftr_div_pow2 by lia.
  assert (forall z b, z mod 2 ^ 8 = b2z b -> z2b z = b) as Hz.
  { intros z b Hb. rewrite <- (z2b_b2z b), <- Hb. apply b2z_inj. rewrite !b2z_z2b. by rewrite Z.mod_mod. }
  f_equal; [|f_equal; [|f_equal]]; apply Hz.
  - replace (b2z b0 * 2 ^ 16 + b2z b1 * 2 ^ 8 + b2z b2) with (b2z b0 * 2 ^ 16 + (b2z b1 * 2 ^ 8 + b2z b2)) by lia.
    rewrite Z.div_add_l, (Z.div_small (_ + _)), Z.add_0_r by lia. apply Z.mod_small. lia.
  - replace (b2z b0 * 2 ^ 16 + b2z b1 * 2 ^ 8 + b2z b2) with ((b2z b0 * 2 ^ 8 + b2z b1) * 2 ^ 8 + b2z b2) by lia.
    rewrite Z.div_add_l, (Z.div_small (b2z b2)), Z.add_0_r by lia. rewrite Z.add_comm, Z.mod_add by lia. apply Z.mod_small. lia.
  - replace (b2z b0 * 2 ^ 16 + b2z b1 * 2 ^ 8 + b2z b2) with (b2z b2 + (b2z b0 * 2 ^ 8 + b2z b1) * 2 ^ 8) by lia.
    rewrite Z.mod_add by lia. apply Z.mod_small. lia.
Qed.

Lemma EncodeToString_plain b : List.filter (fun c => negb (isNewline c)) (EncodeToString b) = EncodeToString b.
Proof.
  assert (forall n b, (length b <= n)%nat -> List.filter (fun c => negb (isNewline c)) (EncodeToString b) = EncodeToString b) as H; [|by eapply H].
  clear b. induction n as [|n IH]; intros b Hn; [destruct b; [done|cbn in Hn; lia]|]. destruct b as [|b0 [|b1 [|b2 r]]]; cbn [EncodeToString app List.filter].
  - done.
  - by rewrite !digitOf_plain.
  - by rewrite !digitOf_plain.
  - rewrite !digitOf_plain. cbn [negb]. rewrite IH; [done|]. cbn in Hn. lia.
Qed.

Lemma DecodeString_Encode b : DecodeString (EncodeToString b) = Some b.
Proof.
  unfold DecodeString. rewrite EncodeToString_plain.
  assert (forall n b, (length b <= n)%nat -> decodeQuanta (EncodeToString b) = Some b) as H; [|by eapply H].
  clear b. induction n as [|n IH]; intros b Hn; [destruct b; [done|cbn in Hn; lia]|].
  destruct b as [|b0 [|b1 [|b2 r]]]; cbn [EncodeToString app decodeQuanta]; [done|..]; rewrite !decodeMap_digit.
  - change (decodeMap padChar) with (@None Z). rewrite bool_decide_eq_true_2 by done. pose proof (b2z_range b0).
    assert (Z.shiftl (b2z b0) 16 = b2z b0 * 2 ^ 16 + b2z x00 * 2 ^ 8 + b2z x00) as E by (rewrite Z.shiftl_mul_pow2 by lia; change (b2z x00) with 0; lia).
    rewrite E, quantum_digits00.
    + by rewrite quantumBytes3.
    + change (b2z x00) with 0. lia.
    + change (b2z x00) with 0. replace (b2z b0 * 2 ^ 16 + 0 * 2 ^ 8 + 0) with (b2z b0 * 16 * 4096) by lia. by apply Z.mod_mul.
  - change (decodeMap padChar) with (@None Z). rewrite bool_decide_eq_true_2 by done. pose proof (b2z_range b0). pose proof (b2z_range b1).
    pose proof (bytes3 b0 b1 x00) as E. change (b2z x00) with 0 in E. rewrite Z.lor_0_r in E. rewrite E, quantum_digits0.
    + change 0 with (b2z x00) at 1. by rewrite quantumBytes3.
    + lia.
    + replace (b2z b0 * 2 ^ 16 + b2z b1 * 2 ^ 8 + 0) with ((b2z b0 * 2 ^ 10 + b2z b1 * 4) * 64) by lia. by apply Z.mod_mul.
  - rewrite bytes3, quantum_digits, quantumBytes3.
    + rewrite IH by (cbn in Hn; lia). done.
    + pose proof (b2z_range b0). pose proof (b2z_range b1). pose proof (b2z_range b2). lia.
Qed.
