(* ===== verification/Cosign.v ===== *)
(** * Cosign signature verification

    uefiboard/ministack/oci/cosign.go: keyed verification of image signatures.
    encoding/json's decoding of the four document shapes, crypto/sha256,
    crypto/ecdsa, crypto/x509 and encoding/pem are parameters of which nothing
    is assumed.  [fmt.Errorf("%w: ...", err)] is modelled as [err]. *)

From S2P Require Import Prelude Effects GoStr LittleEndian DialRetry Http HttpStream HttpTransport OciRef OciFetch Base64.

(** A string literal with its double quotes spelt as apostrophes. *)
Definition dq (s : String.string) : list byte := (fun c => if decide (c = x27) then quote else c) <$> str s.
Arguments dq s%_string_scope.

Definition CosignSignatureAnnotation : list byte := str "dev.cosignproject.cosign/signature".
Definition CosignPayloadType : list byte := str "cosign container image signature".
Definition SigstoreBundleMediaTypeV02 : list byte := str "application/vnd.dev.sigstore.bundle.v0.2+json".
Definition SigstoreBundleMediaTypeV03 : list byte := str "application/vnd.dev.sigstore.bundle.v0.3+json".

(** ** Data *)

Inductive sigFormat := sigFormatLegacy | sigFormatBundleV3 | sigFormatBundleV3DSSE.

Record parsedSignature := mkParsed {
  ps_format : sigFormat;
  ps_bytes : list byte;
  ps_messageDigest : list byte;
  ps_dssePayload : list byte;
  ps_dssePayloadTy : list byte;
  ps_subjectDigest : list byte
}.

Record sigLayerDescr := mkSigLayer {
  sl_MediaType : list byte;
  sl_Digest : list byte;
  sl_Size : Z;
  sl_Annotations : gmap (list byte) (list byte)
}.
Record sigManifest := mkSigManifest { sm_SchemaVersion : Z; sm_MediaType : list byte; sm_Layers : list sigLayerDescr }.

Record bundleMessageSignature := mkMessageSignature { ms_Algorithm : list byte; ms_Digest : list byte; ms_Signature : list byte }.
Record bundleDsseEnvelope := mkEnvelope { env_Payload : list byte; env_PayloadType : list byte; env_Signatures : list (list byte) }.
Record sigstoreBundle := mkBundle {
  b_MediaType : list byte;
  b_MessageSignature : option bundleMessageSignature;
  b_DsseEnvelope : option bundleDsseEnvelope
}.
Record inTotoStatement := mkStatement { st_Type : list byte; st_Subject : list (gmap (list byte) (list byte)) }.

(** encoding/json's Unmarshal into the three shapes. *)
Record CosignDecoders := mkCosignDecoders {
  jsonSigManifest : list byte -> option sigManifest;
  jsonBundle : list byte -> option sigstoreBundle;
  jsonStatement : list byte -> option inTotoStatement
}.

(** The keys x509.ParsePKIXPublicKey returns: an ECDSA key with the name of its
    curve (absent when the curve or its parameters are nil), or another kind. *)
Inductive publicKey (K : Type) := ECDSAKey (curve : option (list byte)) (k : K) | OtherKey.
Arguments ECDSAKey {K}. Arguments OtherKey {K}.
Record CosignVerifier (K : Type) := mkCosignVerifier { PubKey : option K }.
Arguments mkCosignVerifier {K}. Arguments PubKey {K}.

Definition NewCosignVerifier {K} (pemDecode : list byte -> option (list byte)) (ParsePKIXPublicKey : list byte -> publicKey K + error)
  (pemPubKey : list byte) : out (CosignVerifier K) :=
  match pemDecode pemPubKey with
  | None => Err ErrCosignPEMBad
  | Some block =>
      match ParsePKIXPublicKey block with
      | inr e => Err e
      | inl OtherKey => Err ErrCosignKeyNotECDSA
      | inl (ECDSAKey curve k) =>
          ret_if negb (bool_decide (curve = Some (str "P-256"))) with ErrCosignCurveNotP256;;
          Ok (mkCosignVerifier (Some k))
      end
  end.

(** ** Tags and payloads *)

Definition SigTag (manifestDigest : list byte) : out (list byte) :=
  let* d := ParseDigest manifestDigest in Ok (fst d ++ str "-" ++ snd d ++ str ".sig").
Definition SigTagOCI11 (manifestDigest : list byte) : out (list byte) :=
  let* d := ParseDigest manifestDigest in Ok (fst d ++ str "-" ++ snd d).
Definition candidateSigTags (manifestDigest : list byte) : out (list (list byte)) :=
  let* legacy := SigTag manifestDigest in
  let* oci11 := SigTagOCI11 manifestDigest in
  Ok [legacy; oci11].

Definition bslash : byte := x5c.
Definition jsonEscapeByte (c : byte) : list byte :=
  if decide (c = quote) then [bslash; quote]
  else if decide (c = bslash) then [bslash; bslash]
  else if decide (c = x0a) then [bslash; x6e]
  else if decide (c = x0d) then [bslash; x72]
  else if decide (c = x09) then [bslash; x74]
  else if b2z c <? 0x20 then [bslash; x75; x30; x30; digitChar (Z.shiftr (b2z c) 4); digitChar (Z.land (b2z c) 15)]
  else [c].
Definition jsonEscape (s : list byte) : list byte := concat (jsonEscapeByte <$> s).

Definition CanonicalPayload (dockerReference manifestDigest : list byte) : list byte :=
  dq "{'critical':{'identity':{'docker-reference':'" ++ jsonEscape dockerReference ++
  dq "'},'image':{'docker-manifest-digest':'" ++ jsonEscape manifestDigest ++
  dq "'},'type':'" ++ CosignPayloadType ++ dq "'},'optional':null}".

Definition itoaInt (n : Z) : list byte := if n =? 0 then str "0" else itoaLoop 20 n [].
Definition dssePAE (payloadType payload : list byte) : list byte :=
  str "DSSEv1 " ++ itoaInt (len payloadType) ++ [x20] ++ payloadType ++ [x20] ++ itoaInt (len payload) ++ [x20] ++ payload.

(** ** Bundles *)

Section cosign.
Context {T K : Type} `{Transport T}.
Variable Sum256 : list byte -> list byte.
Variable VerifyASN1 : K -> list byte -> list byte -> bool.
Variable J : CosignDecoders.
Abbreviation RegM A := (M (Registry T) A).

Definition parseSigManifest (raw : list byte) : out sigManifest :=
  ret_if len raw =? 0 with ErrManifestEmpty;;
  match jsonSigManifest J raw with None => Err ErrBadJSON | Some m => Ok m end.

Definition isSigstoreBundleMediaType (mt : list byte) : bool :=
  bool_decide (mt = SigstoreBundleMediaTypeV02) || bool_decide (mt = SigstoreBundleMediaTypeV03).

Definition parseSigstoreBundleMessageSignature (ms : bundleMessageSignature) : out parsedSignature :=
  ret_if bool_decide (ms_Signature ms = []) with ErrCosignBundleMalformed;;
  ret_if bool_decide (ms_Digest ms = []) with ErrCosignBundleMalformed;;
  ret_if negb (bool_decide (ms_Algorithm ms = str "SHA2_256")) with ErrCosignBundleAlgo;;
  match DecodeString (ms_Signature ms), DecodeString (ms_Digest ms) with
  | Some sig, Some digest =>
      ret_if negb (len digest =? 32) with ErrCosignBundleMalformed;;
      Ok (mkParsed sigFormatBundleV3 sig digest [] [] [])
  | _, _ => Err ErrCosignBundleMalformed
  end.

Definition parseSigstoreBundleDSSE (env : bundleDsseEnvelope) : out parsedSignature :=
  ret_if bool_decide (env_Payload env = []) with ErrCosignBundleMalformed;;
  ret_if bool_decide (env_PayloadType env = []) with ErrCosignBundleMalformed;;
  match env_Signatures env with
  | [] => Err ErrCosignBundleMalformed
  | sig0 :: _ =>
      ret_if bool_decide (sig0 = []) with ErrCosignBundleMalformed;;
      match DecodeString (env_Payload env), DecodeString sig0 with
      | Some payload, Some sig =>
          match jsonStatement J payload with
          | None => Err ErrCosignBundleMalformed
          | Some stmt =>
              match st_Subject stmt with
              | [] => Err ErrCosignBundleMalformed
              | subject :: _ =>
                  let subj := default [] (subject !! str "sha256") in
                  ret_if bool_decide (subj = []) with ErrCosignBundleMalformed;;
                  Ok (mkParsed sigFormatBundleV3DSSE sig [] payload (env_PayloadType env) subj)
              end
          end
      | _, _ => Err ErrCosignBundleMalformed
      end
  end.

Definition parseSigstoreBundle (raw : list byte) : out parsedSignature :=
  ret_if len raw =? 0 with ErrCosignBundleMalformed;;
  match jsonBundle J raw with
  | None => Err ErrCosignBundleMalformed
  | Some b =>
      match b_MessageSignature b, b_DsseEnvelope b with
      | Some ms, _ => parseSigstoreBundleMessageSignature ms
      | None, Some env => parseSigstoreBundleDSSE env
      | None, None => Err ErrCosignBundleMalformed
      end
  end.

(** [if perLayerErr == nil { perLayerErr = e }] *)
Definition firstErr (old : option error) (e : error) : option error := match old with Some _ => old | None => Some e end.

(** The signatures found so far and the first error of a layer. *)
Fixpoint collectFrom (layers : list sigLayerDescr) (sigs : list parsedSignature) (perLayerErr : option error) :
  RegM (list parsedSignature * option error) :=
  match layers with
  | [] => ret (sigs, perLayerErr)
  | l :: r =>
      let sigB64 := default [] (sl_Annotations l !! CosignSignatureAnnotation) in
      if negb (bool_decide (sigB64 = [])) then
        match DecodeString sigB64 with
        | None => collectFrom r sigs (firstErr perLayerErr ErrCorruptInput)
        | Some sig => collectFrom r (sigs ++ [mkParsed sigFormatLegacy sig [] [] [] []]) perLayerErr
        end
      else if isSigstoreBundleMediaType (sl_MediaType l) then
        body <- try (FetchBlob Sum256 (mkDescriptor (sl_MediaType l) (sl_Digest l) (sl_Size l) None)) ;;
        match body with
        | inr ferr => collectFrom r sigs (firstErr perLayerErr ferr)
        | inl body =>
            sig <- try (lift (parseSigstoreBundle body)) ;;
            match sig with
            | inr perr => collectFrom r sigs (firstErr perLayerErr perr)
            | inl sig => collectFrom r (sigs ++ [sig]) perLayerErr
            end
        end
      else collectFrom r sigs (firstErr perLayerErr (ErrOther 0))
  end.
Definition collectSignatures (m : sigManifest) : RegM (list parsedSignature * option error) := collectFrom (sm_Layers m) [] None.

(** ** Verification *)

(** Whether one signature endorses the manifest. *)
Definition verifyOne (pub : K) (digest hexDigest : list byte) (sig : parsedSignature) : bool :=
  match ps_format sig with
  | sigFormatLegacy => VerifyASN1 pub digest (ps_bytes sig)
  | sigFormatBundleV3 =>
      if negb (bool_decide (ps_messageDigest sig = digest)) then false else VerifyASN1 pub digest (ps_bytes sig)
  | sigFormatBundleV3DSSE =>
      if negb (EqualFold (ps_subjectDigest sig) hexDigest) then false
      else VerifyASN1 pub (Sum256 (dssePAE (ps_dssePayloadTy sig) (ps_dssePayload sig))) (ps_bytes sig)
  end.

Fixpoint verifyLoop (pub : K) (digest hexDigest : list byte) (sigs : list parsedSignature) : out unit :=
  match sigs with
  | [] => Err ErrCosignNoMatchingSignature
  | sig :: r => if verifyOne pub digest hexDigest sig then Ok tt else verifyLoop pub digest hexDigest r
  end.

(** The first tag that can be fetched, or the first error. *)
Fixpoint fetchTags (tags : list (list byte)) (fetchErr : option error) : RegM (list byte) :=
  match tags with
  | [] => throw (default (ErrOther 0) fetchErr)
  | t :: r =>
      m <- try (FetchManifestRaw t) ;;
      match m with
      | inl raw => ret (fst raw)
      | inr ferr => fetchTags r (firstErr fetchErr ferr)
      end
  end.

Definition Verify (v : option (CosignVerifier K)) (ref : Ref) (manifestDigest : list byte) : RegM unit :=
  match v with
  | None => throw ErrCosignKeyNotECDSA
  | Some v =>
      match PubKey v with
      | None => throw ErrCosignKeyNotECDSA
      | Some pub =>
          match ParseDigest manifestDigest with
          | Ok (_, hexDigest) =>
              tags <- lift (candidateSigTags manifestDigest) ;;
              raw <- fetchTags tags None ;;
              m <- lift (parseSigManifest raw) ;;
              throw_if len (sm_Layers m) =? 0 with ErrCosignSigManifestEmpty;;
              let dockerRef := ref_Host ref ++ str "/" ++ ref_Repo ref in
              let payload := CanonicalPayload dockerRef manifestDigest in
              let digest := Sum256 payload in
              c <- collectSignatures m ;;
              throw_if len (fst c) =? 0 with ErrCosignNoMatchingSignature;;
              lift (verifyLoop pub digest hexDigest (fst c))
          | Err _ => throw ErrCosignBadManifestDigest
          | Panic => lift Panic
          end
      end
  end.
End cosign.

(** ** The signed bytes are unambiguous *)

(** Reads one byte of an escaped string; [None] at its closing quote. *)
Definition unescape1 (s : list byte) : option (byte * list byte) :=
  match s with
  | [] => None
  | c :: r =>
      if decide (c = quote) then None
      else if decide (c = bslash) then
        match r with
        | x6e :: r => Some (x0a, r)
        | x72 :: r => Some (x0d, r)
        | x74 :: r => Some (x09, r)
        | x75 :: _ :: _ :: h :: l :: r =>
            match digitVal h, digitVal l with Some h, Some l => Some (z2b (h * 16 + l), r) | _, _ => None end
        | e :: r => Some (e, r)
        | [] => None
        end
      else Some (c, r)
  end.

Lemma unescape1_escape c r : unescape1 (jsonEscapeByte c ++ r) = Some (c, r).
Proof. by destruct c. Qed.

Lemma jsonEscape_inj s s' r r' : jsonEscape s ++ quote :: r = jsonEscape s' ++ quote :: r' -> s = s' /\ r = r'.
Proof.
  revert s'. induction s as [|c s IH]; intros [|c' s']; unfold jsonEscape; cbn [fmap list_fmap concat].
  - by intros [= ->].
  - intros E. apply (f_equal unescape1) in E. rewrite <- app_assoc, unescape1_escape in E. done.
  - intros E. apply (f_equal unescape1) in E. rewrite <- app_assoc, unescape1_escape in E. done.
  - intros E. apply (f_equal unescape1) in E. rewrite <- !app_assoc, !unescape1_escape in E. injection E as -> E.
    by destruct (IH s' E) as [-> ->].
Qed.

(** Two canonical payloads are equal only if they name the same repository and
    the same manifest: nothing an operator or a registry puts into a reference
    can forge the payload of another image. *)
Theorem canonical_payload_injective ref d ref' d' :
  CanonicalPayload ref d = CanonicalPayload ref' d' <-> ref = ref' /\ d = d'.
Proof.
  split; [|by intros [-> ->]]. unfold CanonicalPayload. intros E%app_inv_head.
  change (dq "'},'image':{'docker-manifest-digest':'") with (quote :: dq "},'image':{'docker-manifest-digest':'") in E.
  rewrite <- !app_comm_cons in E. apply jsonEscape_inj in E as [-> E%app_inv_head].
  change (dq "'},'type':'") with (quote :: dq "},'type':'") in E. rewrite <- !app_comm_cons in E.
  by apply jsonEscape_inj in E as [-> _].
Qed.

Lemma itoaInt_spec n : 0 <= n < 2 ^ 63 -> itoaInt n = FormatUint n 10.
Proof.
  intros Hn. unfold itoaInt. destruct (Z.eqb_spec n 0) as [->|Hz]; [done|].
  assert (2 ^ 63 < 10 ^ Z.of_nat 20) as H20 by (vm_compute; reflexivity).
  assert (10 ^ Z.of_nat 20 < 10 ^ Z.of_nat 64) as H64 by (vm_compute; reflexivity).
  rewrite itoaLoop_format by lia. unfold FormatUint. apply formatDigits_fuel; lia.
Qed.

Lemma itoaInt_cut n n' r r' :
  0 <= n < 2 ^ 63 -> 0 <= n' < 2 ^ 63 -> itoaInt n ++ x20 :: r = itoaInt n' ++ x20 :: r' -> n = n' /\ r = r'.
Proof.
  intros Hn Hn'. rewrite !itoaInt_spec by done. intros E. apply (f_equal (cutByte x20)) in E.
  assert (forall k, x20 ∉ FormatUint k 10) as Hsp.
  { intros k. eapply hexChar_notin; [apply FormatUint_hex; lia|]. left. by vm_compute. }
  rewrite !cutByte_app in E by apply Hsp. injection E as E ->. split; [|done].
  apply (f_equal Atoi) in E. rewrite !Atoi_FormatUint in E by done. congruence.
Qed.

(** The DSSE encoding that is hashed and verified determines the payload type
    and the payload, whatever bytes (spaces and digits included) they hold. *)
Theorem dsse_pae_injective ty p ty' p' :
  len ty < 2 ^ 63 -> len p < 2 ^ 63 -> len ty' < 2 ^ 63 -> len p' < 2 ^ 63 ->
  dssePAE ty p = dssePAE ty' p' -> ty = ty' /\ p = p'.
Proof.
  intros H1 H2 H3 H4. unfold dssePAE. intros E%app_inv_head. pose_lens.
  apply itoaInt_cut in E as [El E]; [|pose proof (len_nonneg ty); lia|pose proof (len_nonneg ty'); lia].
  apply app_inj_1 in E as [-> E]; [|unfold len in El; lia]. injection E as E.
  by apply itoaInt_cut in E as [_ ->]; [|pose proof (len_nonneg p); lia|pose proof (len_nonneg p'); lia].
Qed.
Lemma dsse_pae_injective_witness :
  dssePAE (str "a b") (str "c") <> dssePAE (str "a") (str "b c").
Proof.
  intros E. apply (dsse_pae_injective (str "a b") (str "c") (str "a") (str "b c")) in E as [E _]; [done|vm_compute; done..].
Defined.

(** ** Soundness *)

Section sound.
Context {T K : Type} `{Transport T}.
Variable Sum256 : list byte -> list byte.
Variable VerifyASN1 : K -> list byte -> list byte -> bool.
Variable J : CosignDecoders.

(** The key verifies a signature: over the canonical payload of the repository and
    the manifest digest, or over a DSSE envelope whose in-toto statement has the
    manifest as its first subject, which says nothing of a repository. *)
Definition endorsed (pub : K) (ref : Ref) (manifestDigest : list byte) : Prop :=
  exists sig,
    VerifyASN1 pub (Sum256 (CanonicalPayload (ref_Host ref ++ str "/" ++ ref_Repo ref) manifestDigest)) sig = true \/
    exists ty payload stmt subject rest hexDigest,
      VerifyASN1 pub (Sum256 (dssePAE ty payload)) sig = true /\ jsonStatement J payload = Some stmt /\
      st_Subject stmt = subject :: rest /\ manifestDigest = str "sha256:" ++ hexDigest /\
      EqualFold (default [] (subject !! str "sha256")) hexDigest = true.

(** What a signature layer publishes: a signature in the annotation, or in a bundle
    that the registry answered and that matches the layer's digest and size. *)
Definition annotation (l : sigLayerDescr) : list byte := default [] (sl_Annotations l !! CosignSignatureAnnotation).
Definition publishes (l : sigLayerDescr) (s : parsedSignature) : Prop :=
  (ps_format s = sigFormatLegacy /\ annotation l <> [] /\ DecodeString (annotation l) = Some (ps_bytes s)) \/
  (annotation l = [] /\ exists body, blobOf Sum256 (mkDescriptor (sl_MediaType l) (sl_Digest l) (sl_Size l) None) body /\ parseSigstoreBundle J body = Ok s).

(** What verification by the key means for each form of signature. *)
Definition binds (pub : K) (ref : Ref) (manifestDigest : list byte) (s : parsedSignature) : Prop :=
  let payloadDigest := Sum256 (CanonicalPayload (ref_Host ref ++ str "/" ++ ref_Repo ref) manifestDigest) in
  match ps_format s with
  | sigFormatLegacy => VerifyASN1 pub payloadDigest (ps_bytes s) = true
  | sigFormatBundleV3 => ps_messageDigest s = payloadDigest /\ VerifyASN1 pub payloadDigest (ps_bytes s) = true
  | sigFormatBundleV3DSSE =>
      VerifyASN1 pub (Sum256 (dssePAE (ps_dssePayloadTy s) (ps_dssePayload s))) (ps_bytes s) = true /\
      exists stmt subject rest hexDigest, jsonStatement J (ps_dssePayload s) = Some stmt /\ st_Subject stmt = subject :: rest /\
        manifestDigest = str "sha256:" ++ hexDigest /\ EqualFold (default [] (subject !! str "sha256")) hexDigest = true
  end.

(** What a parsed signature carries. *)
Definition wellFormedSig (s : parsedSignature) : Prop :=
  ps_format s = sigFormatBundleV3DSSE ->
  exists stmt subject rest, jsonStatement J (ps_dssePayload s) = Some stmt /\ st_Subject stmt = subject :: rest /\
    ps_subjectDigest s = default [] (subject !! str "sha256").

Lemma parseSigstoreBundle_ok raw s : parseSigstoreBundle J raw = Ok s -> wellFormedSig s.
Proof.
  unfold parseSigstoreBundle. destruct (len raw =? 0); [done|]. destruct (jsonBundle J raw) as [b|]; [|done].
  destruct (b_MessageSignature b) as [ms|].
  - unfold parseSigstoreBundleMessageSignature. do 3 (case_match; [done|]). destruct (DecodeString (ms_Signature ms)), (DecodeString (ms_Digest ms)); try done.
    case_match; [done|]. by intros [= <-].
  - destruct (b_DsseEnvelope b) as [env|]; [|done]. unfold parseSigstoreBundleDSSE. do 2 (case_match; [done|]).
    destruct (env_Signatures env) as [|s0 ss]; [done|]. case_match; [done|].
    destruct (DecodeString (env_Payload env)) as [p|], (DecodeString s0) as [sg|]; try done.
    destruct (jsonStatement J p) as [stmt|] eqn:Ej; [|done]. destruct (st_Subject stmt) as [|sub rest] eqn:Es; [done|].
    cbv zeta. case_match; [done|]. intros [= <-] _. by exists stmt, sub, rest.
Qed.

Lemma publishes_wellFormed l s : publishes l s -> wellFormedSig s.
Proof. intros [[E _]|(_ & body & _ & Hp)]; [unfold wellFormedSig; congruence|by apply (parseSigstoreBundle_ok body)]. Qed.

(** Every signature collected is one that a layer publishes. *)
Lemma collectFrom_ok (all layers : list sigLayerDescr) sigs err (r : Registry T) c r' :
  collectFrom Sum256 J layers sigs err r = (Ok c, r') -> (forall l, l ∈ layers -> l ∈ all) ->
  Forall (fun s => exists l, l ∈ all /\ publishes l s) sigs -> Forall (fun s => exists l, l ∈ all /\ publishes l s) (fst c).
Proof.
  revert sigs err r. induction layers as [|l layers IH]; intros sigs err r Hr Hall Hs; cbn [collectFrom] in Hr.
  { by apply ret_ok in Hr as [-> _]. }
  assert (l ∈ all) as Hl by (apply Hall; left). assert (forall l', l' ∈ layers -> l' ∈ all) as Hrest by (intros; apply Hall; by right).
  cbv zeta in Hr. fold (annotation l) in Hr. case_bool_decide as Ha; cbn [negb] in Hr.
  2: { destruct (DecodeString (annotation l)) as [sg|] eqn:Ed; (eapply IH; [exact Hr|done|]); [|done]. apply Forall_app; split; [done|].
       apply Forall_singleton. exists l. split; [done|]. by left. }
  destruct (isSigstoreBundleMediaType _); [|by eapply IH]. apply bind_ok in Hr as (body & s1 & Hb & Hr).
  destruct body as [body|e]; [|by eapply IH]. apply bind_ok in Hr as (sg & s2 & Hsg & Hr). destruct sg as [sg|e]; [|by eapply IH].
  eapply IH; [exact Hr|done|]. apply Forall_app; split; [done|]. apply Forall_singleton. exists l. split; [done|]. right. split; [done|]. exists body. split.
  - unfold try in Hb. destruct (FetchBlob _ _ r) as [[b|e|] r1] eqn:Ef; [|done..]. injection Hb as <- <-. by apply FetchBlob_ok in Ef.
  - unfold try, lift in Hsg. destruct (parseSigstoreBundle J body); [by injection Hsg as -> _|done|done].
Qed.

Lemma verifyLoop_ok pub digest hexDigest sigs :
  verifyLoop Sum256 VerifyASN1 pub digest hexDigest sigs = Ok tt -> exists s, s ∈ sigs /\ verifyOne Sum256 VerifyASN1 pub digest hexDigest s = true.
Proof.
  induction sigs as [|s sigs IH]; cbn [verifyLoop]; [done|]. destruct (verifyOne _ _ _ _ _ s) eqn:E.
  - intros _. exists s. split; [left|done].
  - intros (s' & Hin & Hs)%IH. exists s'. by split; [right|].
Qed.

Lemma ParseDigest_sha256 d algo hexDigest : ParseDigest d = Ok (algo, hexDigest) -> algo = str "sha256" /\ d = str "sha256:" ++ hexDigest.
Proof.
  unfold ParseDigest. cbv zeta. pose proof (IndexByte_range d x3a) as Hi. unfold IndexByte in *.
  destruct (cutByte x3a d) as [[x y]|] eqn:Ec; [|done]. apply cutByte_Some in Ec as [-> _]. destruct (Z.ltb_spec (len x) 0); [done|].
  rewrite sliceTo_app by done. cbn [out_bind]. change (x ++ x3a :: y) with (x ++ [x3a] ++ y). rewrite app_assoc, sliceFrom_app by (rewrite len_app; done). cbn [out_bind].
  destruct (decide (x = str "sha256")) as [->|Hx]; [rewrite bool_decide_eq_true_2 by done|by rewrite bool_decide_eq_false_2 by done].
  cbn [negb]. destruct (negb _); [done|]. destruct (negb _); [done|]. by intros [= <- <-].
Qed.

Lemma fetchTags_ok (tags : list (list byte)) err (r r' : Registry T) raw :
  fetchTags tags err r = (Ok raw, r') -> exists t r1 r2 ct, t ∈ tags /\ FetchManifestRaw t r1 = (Ok (raw, ct), r2).
Proof.
  revert err r. induction tags as [|t tags IH]; intros err r; cbn [fetchTags]; [done|]. intros (m & r1 & Hm & Hk)%bind_ok. unfold try in Hm.
  destruct (FetchManifestRaw t r) as [[[b ct]|e|] r2] eqn:Ef; [| |done]; injection Hm as <- <-.
  - apply ret_ok in Hk as [-> ->]. exists t, r, r2, ct. split; [left|done].
  - apply IH in Hk as (t' & ra & rb & ct & Hin & Hf). exists t', ra, rb, ct. split; [by right|done].
Qed.

(** Acceptance, taken apart. *)
Definition accepted (v : option (CosignVerifier K)) (ref : Ref) (manifestDigest : list byte) : Prop :=
  exists pub hexDigest tag r1 r2 raw ct m l s,
    v = Some (mkCosignVerifier (Some pub)) /\ manifestDigest = str "sha256:" ++ hexDigest /\
    tag ∈ [str "sha256-" ++ hexDigest ++ str ".sig"; str "sha256-" ++ hexDigest] /\
    @FetchManifestRaw T _ tag r1 = (Ok (raw, ct), r2) /\ parseSigManifest J raw = Ok m /\ l ∈ sm_Layers m /\
    publishes l s /\ binds pub ref manifestDigest s.
Lemma Verify_accepted v ref manifestDigest (r r' : Registry T) :
  Verify Sum256 VerifyASN1 J v ref manifestDigest r = (Ok tt, r') -> accepted v ref manifestDigest.
Proof.
  unfold Verify. destruct v as [[[pub|]]|]; [|done..]. cbn [PubKey]. destruct (ParseDigest manifestDigest) as [[algo hexd]|e|] eqn:Ed; [|done..].
  unfold candidateSigTags, SigTag, SigTagOCI11. rewrite Ed. cbn [out_bind fst snd]. apply ParseDigest_sha256 in Ed as [-> Hd].
  intros (tags & s1 & [[= <-] ->]%lift_ok & Hr)%bind_ok. apply bind_ok in Hr as (raw & s2 & Hf & Hr). apply fetchTags_ok in Hf as (tag & ra & rb & ct & Hin & Hf).
  apply bind_ok in Hr as (m & s3 & [Hm ->]%lift_ok & Hr). apply guard_ok in Hr as [_ Hr]. cbv zeta in Hr.
  apply bind_ok in Hr as (c & s4 & Hc & Hr). apply guard_ok in Hr as [_ Hr]. apply lift_ok in Hr as [Hv _].
  apply verifyLoop_ok in Hv as (s & Hs & Hone). apply (collectFrom_ok (sm_Layers m)) in Hc; [|done..]. rewrite Forall_forall in Hc.
  destruct (Hc s Hs) as (l & Hl & Hpub). pose proof (publishes_wellFormed _ _ Hpub) as Hwf.
  exists pub, hexd, tag, ra, rb, raw, ct, m, l, s. do 7 (split; [done|]). unfold binds, verifyOne in *. cbv zeta. destruct (ps_format s) eqn:Efmt; [done| |].
  - case_bool_decide; [done|discriminate Hone].
  - destruct (EqualFold (ps_subjectDigest s) hexd) eqn:Efold; [|done]. split; [exact Hone|]. destruct (Hwf Efmt) as (stmt & sub & rest & Hj & Hsub & Hsd).
    rewrite Hsd in Efold. by exists stmt, sub, rest, hexd.
Qed.

Lemma accepted_endorsed pub ref manifestDigest : accepted (Some (mkCosignVerifier (Some pub))) ref manifestDigest -> endorsed pub ref manifestDigest.
Proof.
  intros (pub' & hexd & tag & r1 & r2 & raw & ct & m & l & s & [= <-] & _ & _ & _ & _ & _ & _ & Hb). exists (ps_bytes s). unfold binds in Hb. cbv zeta in Hb.
  destruct (ps_format s); [by left|left; apply Hb|right]. destruct Hb as (Hv & stmt & sub & rest & h & Hj & Hs & Hd & Hf).
  by exists (ps_dssePayloadTy s), (ps_dssePayload s), stmt, sub, rest, h.
Qed.

(** C13. Whatever the registry answers, Verify accepts only a sha256 digest under a
    configured key, for a signature published in a layer of the manifest that the
    registry answered at one of the digest's two signature tags: in the layer's
    annotation, or in a bundle that matches the layer's digest and size.  In the
    annotation and message-digest forms the key verifies it over the canonical payload,
    which binds this repository and this manifest digest.  In the DSSE form it verifies
    it over an envelope whose statement has this manifest as its first subject: this
    binds neither a repository nor the statement's other subjects. *)
Theorem cosign_verify_sound v ref manifestDigest (r r' : Registry T) :
  Verify Sum256 VerifyASN1 J v ref manifestDigest r = (Ok tt, r') ->
  exists pub hexDigest tag r1 r2 raw ct m l s,
    v = Some (mkCosignVerifier (Some pub)) /\ manifestDigest = str "sha256:" ++ hexDigest /\
    tag ∈ [str "sha256-" ++ hexDigest ++ str ".sig"; str "sha256-" ++ hexDigest] /\
    @FetchManifestRaw T _ tag r1 = (Ok (raw, ct), r2) /\ parseSigManifest J raw = Ok m /\ l ∈ sm_Layers m /\
    publishes l s /\ binds pub ref manifestDigest s.
Proof. apply Verify_accepted. Qed.

(** ** What is signed is accepted *)

(** The transport does not panic, and nothing else can. *)
Definition calm : Prop := forall url opts (t : T), fst (tGet url opts t) <> Panic.

Lemma parseSigstoreBundle_safe raw : safe (parseSigstoreBundle J raw).
Proof.
  unfold parseSigstoreBundle. destruct (len raw =? 0); [done|]. destruct (jsonBundle J raw) as [b|]; [|done].
  destruct (b_MessageSignature b) as [ms|].
  - unfold parseSigstoreBundleMessageSignature. do 3 (case_match; [done|]). destruct (DecodeString (ms_Signature ms)), (DecodeString (ms_Digest ms)); try done. by case_match.
  - destruct (b_DsseEnvelope b) as [env|]; [|done]. unfold parseSigstoreBundleDSSE. do 2 (case_match; [done|]).
    destruct (env_Signatures env) as [|s0 ss]; [done|]. case_match; [done|].
    destruct (DecodeString (env_Payload env)) as [p|], (DecodeString s0) as [sg|]; try done.
    destruct (jsonStatement J p) as [stmt|]; [|done]. destruct (st_Subject stmt); [done|]. cbv zeta. by case_match.
Qed.
Lemma VerifyDigest_safe want b : safe (VerifyDigest Sum256 want b).
Proof.
  assert (safe (ParseDigest want)) as Hp.
  { unfold ParseDigest. cbv zeta. unfold IndexByte. destruct (cutByte x3a want) as [[x y]|] eqn:Ec; [|done]. apply cutByte_Some in Ec as [-> _].
    destruct (Z.ltb_spec (len x) 0); [done|]. rewrite sliceTo_app by done. cbn [out_bind]. change (x ++ x3a :: y) with (x ++ [x3a] ++ y).
    rewrite app_assoc, sliceFrom_app by (rewrite len_app; done). cbn [out_bind]. by repeat case_match. }
  unfold VerifyDigest. destruct (ParseDigest want) as [d|e|]; [|done..]. cbn [out_bind]. by case_match.
Qed.

Lemma FetchBlob_calm desc (r : Registry T) : calm -> fst (FetchBlob Sum256 desc r) <> Panic.
Proof.
  intros Hc. unfold FetchBlob. unfold bind, gets. generalize (S maxBlobRedirects) as hops, (blobURL (reg_Ref r) (d_Digest desc)) as url, (reg_bearer r) as bearer.
  intros hops. revert r. induction hops as [|hops IH]; intros r url bearer; cbn [fetchBlobFrom]; [done|]. unfold bind at 1, httpGet, gets, id, bind at 1, zoom.
  pose proof (Hc url (mkGetOptions (reg_DNS r) (reg_DialTimeout r) (reg_RequestTimeout r) ((if bool_decide (@nil byte = []) then [] else [str "Accept: " ++ []]) ++ authHeader bearer)) (reg_Transport r)) as Ht.
  destruct (tGet _ _ _) as [[resp|e|] t]; [|done..]. clear Ht. destruct (isRedirect _).
  - case_bool_decide; [done|]. apply IH.
  - destruct (negb _); [done|]. unfold bind, lift. pose proof (VerifyDigest_safe (d_Digest desc) (Body resp)) as Hv. destruct (VerifyDigest _ _ _); [|done..]. by destruct (_ && _).
Qed.

(** The annotations' signatures are all collected, whatever the other layers are. *)
Lemma collectFrom_finds layers sigs err (r : Registry T) : calm ->
  exists found err' r', collectFrom Sum256 J layers sigs err r = (Ok (sigs ++ found, err'), r') /\
    forall l s, l ∈ layers -> annotation l <> [] -> DecodeString (annotation l) = Some s -> mkParsed sigFormatLegacy s [] [] [] [] ∈ found.
Proof.
  intros Hcalm. revert sigs err r. induction layers as [|l layers IH]; intros sigs err r; cbn [collectFrom].
  { exists [], err, r. rewrite app_nil_r. split; [done|]. intros l s Hl. by apply not_elem_of_nil in Hl. }
  assert (forall sigs' new err' r', sigs' = sigs ++ new -> (forall s, annotation l <> [] -> DecodeString (annotation l) = Some s -> mkParsed sigFormatLegacy s [] [] [] [] ∈ new) ->
    exists found err2 r2, collectFrom Sum256 J layers sigs' err' r' = (Ok (sigs ++ found, err2), r2) /\
      forall l' s, l' ∈ l :: layers -> annotation l' <> [] -> DecodeString (annotation l') = Some s -> mkParsed sigFormatLegacy s [] [] [] [] ∈ found) as Hgo.
  { intros sigs' new err' r' -> Hnew. destruct (IH (sigs ++ new) err' r') as (found & e2 & r2 & -> & Hf). exists (new ++ found), e2, r2. rewrite app_assoc. split; [done|].
    intros l' s [->|Hl]%elem_of_cons Ha Hd; apply elem_of_app; [left; by apply Hnew|right; by eapply Hf]. }
  cbv zeta. fold (annotation l). case_bool_decide as Ha; cbn [negb].
  2: { destruct (DecodeString (annotation l)) as [sg|] eqn:Ed; [apply (Hgo _ [mkParsed sigFormatLegacy sg [] [] [] []])|apply (Hgo _ [])];
       rewrite ?app_nil_r; try done. intros s _ E. assert (s = sg) as -> by congruence. left. }
  destruct (isSigstoreBundleMediaType _); [|by apply (Hgo _ []); rewrite ?app_nil_r]. unfold bind at 1, try at 1.
  match goal with |- context [FetchBlob Sum256 ?d r] => pose proof (FetchBlob_calm d r Hcalm) as Hb; destruct (FetchBlob Sum256 d r) as [[body|e|] r1] end; [| |done].
  - unfold bind at 1, try, lift. pose proof (parseSigstoreBundle_safe body) as Hp. destruct (parseSigstoreBundle J body) as [sg|e|]; [by apply (Hgo _ [sg])|by apply (Hgo _ []); rewrite ?app_nil_r|done].
  - by apply (Hgo _ []); rewrite ?app_nil_r.
Qed.

Lemma verifyLoop_accepts pub digest hexDigest sigs s :
  s ∈ sigs -> verifyOne Sum256 VerifyASN1 pub digest hexDigest s = true -> verifyLoop Sum256 VerifyASN1 pub digest hexDigest sigs = Ok tt.
Proof.
  intros Hin Hs. induction sigs as [|s' sigs IH]; [by apply not_elem_of_nil in Hin|]. cbn [verifyLoop].
  apply elem_of_cons in Hin as [->|Hin]; [by rewrite Hs|]. destruct (verifyOne _ _ _ _ _ s'); [done|by apply IH].
Qed.

(** C37. A signature that the key verifies and that is published the way cosign
    publishes it (base64 in the annotation of some layer of the manifest at the
    signature tag) makes Verify accept, whatever the other layers of that manifest are:
    other signatures, valid or malformed, bundles that can be fetched or not, or layers
    of neither kind. *)
Theorem cosign_signed_accepted pub ref manifestDigest tag raw ct m l sig (r r1 : Registry T) :
  calm -> SigTag manifestDigest = Ok tag -> FetchManifestRaw tag r = (Ok (raw, ct), r1) -> parseSigManifest J raw = Ok m ->
  l ∈ sm_Layers m -> sl_Annotations l !! CosignSignatureAnnotation = Some (EncodeToString sig) -> sig <> [] ->
  VerifyASN1 pub (Sum256 (CanonicalPayload (ref_Host ref ++ str "/" ++ ref_Repo ref) manifestDigest)) sig = true ->
  exists r', Verify Sum256 VerifyASN1 J (Some (mkCosignVerifier (Some pub))) ref manifestDigest r = (Ok tt, r').
Proof.
  intros Hcalm Htag Hf Hm Hl Ha Hne Hv. unfold Verify, candidateSigTags. cbn [PubKey]. rewrite Htag. revert Htag. unfold SigTag, SigTagOCI11.
  destruct (ParseDigest manifestDigest) as [[algo hexd]|e|]; [|done..]. cbn [out_bind fst snd]. intros [= Et].
  unfold bind at 1, lift at 1. cbn [fetchTags]. unfold bind at 1 2, try at 1. rewrite Hf. cbn [fst]. unfold ret at 1.
  unfold bind at 1, lift at 1. rewrite Hm. rewrite (proj2 (Z.eqb_neq _ 0)) by (destruct (sm_Layers m); [by apply not_elem_of_nil in Hl|len_lia]).
  cbv zeta. unfold bind at 1, collectSignatures. destruct (collectFrom_finds (sm_Layers m) [] None r1 Hcalm) as (found & err' & r' & -> & Hfound). cbn [app fst].
  assert (mkParsed sigFormatLegacy sig [] [] [] [] ∈ found) as Hin.
  { apply (Hfound l); [done| |]; unfold annotation; rewrite Ha; cbn [default from_option id]; [|apply DecodeString_Encode].
    intros E. pose proof (DecodeString_Encode sig) as Hd. rewrite E in Hd. by injection Hd as <-. }
  rewrite (proj2 (Z.eqb_neq _ 0)) by (destruct found; [by apply not_elem_of_nil in Hin|len_lia]). exists r'.
  unfold lift. by rewrite (verifyLoop_accepts pub _ hexd _ _ Hin Hv).
Qed.
End sound.

(** A key is a byte here, and its signature of a digest is the digest under it. *)
Definition toySign (k : byte) (digest : list byte) : list byte := k :: digest.
Definition toyVerify (k : byte) (digest sig : list byte) : bool := bool_decide (sig = toySign k digest).
Definition toyDigest : list byte := DigestFromBytes toyHash (str "kernel").
Definition sigOf (k : byte) : list byte := toySign k (toyHash (CanonicalPayload (str "ghcr.io/cloud-boot/kernel") toyDigest)).
Definition layerWith (b64 : list byte) : sigLayerDescr := mkSigLayer [] [] 0 {[CosignSignatureAnnotation := b64]}.
Definition toyCosign (layers : list sigLayerDescr) : CosignDecoders :=
  mkCosignDecoders (fun _ => Some (mkSigManifest 2 [] layers)) (fun _ => None) (fun _ => None).
Definition sigMirror : mirror := [(manifestURL toyRef (default [] (match SigTag toyDigest with Ok t => Some t | _ => None end)), okResponse ∅ (str "SIG"))].

Definition bundleLayer : sigLayerDescr := mkSigLayer SigstoreBundleMediaTypeV03 (DigestFromBytes toyHash (str "none")) 0 ∅.
Lemma mirror_calm : @calm mirror _.
Proof. intros url opts t. unfold tGet. cbn. by destruct (list_find _ t) as [[? [? ?]]|]. Qed.

Lemma cosign_signed_accepted_witness :
  exists r', Verify toyHash toyVerify (toyCosign [layerWith (str "!!"); bundleLayer; layerWith (EncodeToString (sigOf x01)); layerWith (EncodeToString (sigOf x07))])
    (Some (mkCosignVerifier (Some x07))) toyRef toyDigest (NewRegistryWithTransport sigMirror None toyRef) = (Ok tt, r').
Proof.
  eapply (cosign_signed_accepted toyHash toyVerify _ x07 toyRef toyDigest _ (str "SIG") [] _ (layerWith (EncodeToString (sigOf x07))) (sigOf x07)).
  - exact mirror_calm.
  - vm_compute. reflexivity.
  - vm_compute. reflexivity.
  - reflexivity.
  - right. right. right. left.
  - reflexivity.
  - discriminate.
  - vm_compute. reflexivity.
Defined.

Lemma cosign_verify_sound_witness :
  exists r' l s, Verify toyHash toyVerify (toyCosign [layerWith (EncodeToString (sigOf x07))]) (Some (mkCosignVerifier (Some x07))) toyRef toyDigest
      (NewRegistryWithTransport sigMirror None toyRef) = (Ok tt, r') /\
    publishes toyHash (toyCosign [layerWith (EncodeToString (sigOf x07))]) l s /\
    binds toyHash toyVerify (toyCosign [layerWith (EncodeToString (sigOf x07))]) x07 toyRef toyDigest s.
Proof.
  edestruct (cosign_verify_sound toyHash toyVerify (toyCosign [layerWith (EncodeToString (sigOf x07))]) (Some (mkCosignVerifier (Some x07))) toyRef toyDigest
    (NewRegistryWithTransport sigMirror None toyRef)) as (pub & hexd & tag & r1 & r2 & raw & ct & m & l & s & E & _ & _ & _ & _ & _ & Hp & Hb); [vm_compute; reflexivity|].
  injection E as <-. eexists _, l, s. split; [vm_compute; reflexivity|]. split; [exact Hp|exact Hb].
Defined.

(** ** A statement with other subjects *)

(** The DSSE path looks at the first subject of the in-toto statement only, and
    at neither its type nor the payload type: a signature over an attestation
    that lists this manifest first and any other artifact after it is accepted
    as a signature of the image. *)
Definition attestation : list byte := str "statement".
Definition twoSubjects : inTotoStatement :=
  mkStatement (str "sbom") [{[str "sha256" := hexEncode (toyHash (str "kernel"))]}; {[str "sha256" := str "other"]}].
Definition dsseBundle : sigstoreBundle := mkBundle SigstoreBundleMediaTypeV03 None
  (Some (mkEnvelope (EncodeToString attestation) (str "text/plain") [EncodeToString (toySign x07 (toyHash (dssePAE (str "text/plain") attestation)))])).
Definition dsseCosign : CosignDecoders := mkCosignDecoders
  (fun _ => Some (mkSigManifest 2 [] [mkSigLayer SigstoreBundleMediaTypeV03 (DigestFromBytes toyHash (str "BUNDLE")) 6 ∅]))
  (fun _ => Some dsseBundle) (fun _ => Some twoSubjects).

Theorem dsse_other_subjects_accepted :
  let mirror := (blobURL toyRef (DigestFromBytes toyHash (str "BUNDLE")), okResponse ∅ (str "BUNDLE")) :: sigMirror in
  fst (Verify toyHash toyVerify dsseCosign (Some (mkCosignVerifier (Some x07))) toyRef toyDigest (NewRegistryWithTransport mirror None toyRef)) = Ok tt /\
  length (st_Subject twoSubjects) = 2%nat.
Proof. split; [vm_compute; reflexivity|done]. Qed.
