(* ===== verification/BootMenu.v ===== *)
(** * Boot menu

    uefiboard/bootmenu: bootmenu.go (validation of the decoded HCL document) and
    render.go (the frame), and the interactive loop of
    phase2_dhcp_oci_menu.go (indexOfDefault, menuLoop).  The HCL decoder is a
    parameter; the clock and the keyboard are the loop's inputs, one record per
    iteration. *)

From S2P Require Import Prelude GoStr.

(** ** Configuration (bootmenu.go) *)

Record Entry := mkEntry { e_Label : list byte; e_KernelRef : list byte; e_InitrdRef : list byte; e_Cmdline : list byte }.
Record BootConfig := mkConfig { c_Title : list byte; c_Timeout : Z; c_Default : list byte; c_Entries : list Entry }.

(** The labels seen; an error at the first repetition. *)
Fixpoint checkLabels (es : list Entry) (seen : gset (list byte)) : out (gset (list byte)) :=
  match es with
  | [] => Ok seen
  | e :: r => ret_if bool_decide (e_Label e ∈ seen) with ErrDuplicateLabel;; checkLabels r ({[e_Label e]} ∪ seen)
  end.

(** [decode]: hclparse and gohcl's DecodeBody. *)
Definition Parse (decode : list byte -> option BootConfig) (hclBytes : list byte) : out BootConfig :=
  ret_if len hclBytes =? 0 with ErrEmptyInput;;
  match decode hclBytes with
  | None => Err ErrHCL
  | Some cfg =>
      ret_if len (c_Entries cfg) =? 0 with ErrNoEntries;;
      let* seen := checkLabels (c_Entries cfg) ∅ in
      ret_if negb (bool_decide (c_Default cfg = [])) && negb (bool_decide (c_Default cfg ∈ seen)) with ErrDefaultNotFound;;
      Ok cfg
  end.

Fixpoint findEntryIn (es : list Entry) (label : list byte) : option Entry :=
  match es with
  | [] => None
  | e :: r => if decide (e_Label e = label) then Some e else findEntryIn r label
  end.
Definition FindEntry (c : BootConfig) (label : list byte) : option Entry := findEntryIn (c_Entries c) label.

(** ** Frames (render.go) *)

Definition defaultWidth : Z := 80.
Definition minWidth : Z := 20.
Definition newline : byte := x0a.

Definition appendBorder (dst : list byte) (width : Z) : list byte :=
  dst ++ [x2b] ++ repeat x2d (Z.to_nat (width - 2)) ++ [x2b; newline].

Definition appendTextLine (dst : list byte) (width : Z) (text : list byte) : out (list byte) :=
  let inner := width - 4 in
  let inner := if inner <? 4 then 4 else inner in
  let* text := if inner <? len text then let* t := sliceTo text (inner - 3) in Ok (t ++ str "...") else Ok text in
  Ok (dst ++ [x7c; x20] ++ text ++ repeat x20 (Z.to_nat (inner - len text)) ++ [x20; x7c; newline]).

(** [r_Out]: whether a sink is set. *)
Record Renderer := mkRenderer { r_Out : bool; r_Width : Z; r_painted : bool }.

Fixpoint renderEntries (buf : list byte) (w sel i : Z) (es : list Entry) : out (list byte) :=
  match es with
  | [] => Ok buf
  | e :: r =>
      let prefix := if i =? sel then str "> " else str "  " in
      let* buf := appendTextLine buf w (prefix ++ e_Label e) in
      renderEntries buf w sel (i + 1) r
  end.

Definition ESC : byte := x1b.
Definition home : list byte := ESC :: str "[H" ++ ESC :: str "[2J".
Definition hideCursor : list byte := ESC :: str "[?25l".

(** The bytes of the frame. *)
Definition frame (r : Renderer) (cfg : BootConfig) (selected countdown : Z) : out (list byte) :=
  let w := if r_Width r <? minWidth then defaultWidth else r_Width r in
  let buf := home ++ (if r_painted r then [] else hideCursor) in
  let title := if bool_decide (c_Title cfg = []) then str "cloud-boot" else c_Title cfg in
  let buf := appendBorder buf w in
  let* buf := appendTextLine buf w title in
  let buf := appendBorder buf w in
  let sel := if selected <? 0 then 0 else selected in
  let sel := if len (c_Entries cfg) <=? sel then len (c_Entries cfg) - 1 else sel in
  let* buf := renderEntries buf w sel 0 (c_Entries cfg) in
  let buf := appendBorder buf w in
  let* buf := appendTextLine buf w
    (if 0 <? countdown then str "Auto-boot in " ++ Itoa countdown ++ str "s -- press any key to stay"
     else str "Use Up/Down to select; Enter to boot; ESC to halt") in
  Ok (appendBorder buf w).

(** The frame written to the sink, and the renderer afterwards. *)
Definition Render (r : Renderer) (cfg : BootConfig) (selected countdown : Z) : out (list byte) * Renderer :=
  if negb (r_Out r) then (Err ErrNoSink, r)
  else (frame r cfg selected countdown, mkRenderer (r_Out r) (r_Width r) true).

(** ** The loop (phase2_dhcp_oci_menu.go) *)

Fixpoint indexFrom (es : list Entry) (label : list byte) (i : Z) : Z :=
  match es with
  | [] => 0
  | e :: r => if decide (e_Label e = label) then i else indexFrom r label (i + 1)
  end.
Definition indexOfDefault (cfg : BootConfig) : Z :=
  if bool_decide (c_Default cfg = []) then 0 else indexFrom (c_Entries cfg) (c_Default cfg) 0.

Record Keystroke := mkKey { ScanCode : Z; UnicodeChar : Z }.
Definition ScanCodeUp : Z := 1.
Definition ScanCodeDown : Z := 2.
Definition ScanCodeHome : Z := 5.
Definition ScanCodeEnd : Z := 6.
Definition ScanCodeESC : Z := 0x17.
Definition UnicodeCharEnter : Z := 0x0D.

(** What one iteration reads: the clock (nanoseconds) for the countdown, the
    keyboard, and the clock again for the deadline. *)
Record tick := mkTick { t_until : Z; t_key : Keystroke + error; t_now : Z }.
Record menuState := mkMenu { m_selected : Z; m_armed : bool }.
Inductive outcome := Dispatched (e : Entry) | Halted.

Definition second : Z := 1000000000.

(** The countdown shown. *)
Definition countdownOf (deadline : Z) (s : menuState) (t : tick) : Z :=
  if m_armed s then Z.max 0 (Z.quot (deadline - t_until t) second) else 0.

(** [cfg.Entries[selected]] *)
Definition entryAt (cfg : BootConfig) (i : Z) : out Entry :=
  if (0 <=? i) && (i <? len (c_Entries cfg)) then
    match c_Entries cfg !! Z.to_nat i with Some e => Ok e | None => Panic end
  else Panic.

Definition menuIter (cfg : BootConfig) (deadline : Z) (s : menuState) (t : tick) : out (menuState + outcome) :=
  let n := len (c_Entries cfg) in
  let sel := m_selected s in
  match t_key t with
  | inr ErrNoKey | inr ErrNoConIn =>
      if m_armed s && (deadline <? t_now t) then let* e := entryAt cfg sel in Ok (inr (Dispatched e)) else Ok (inl s)
  | inr _ => Ok (inl s)
  | inl k =>
      if ScanCode k =? ScanCodeUp then Ok (inl (mkMenu (if 0 <? sel then sel - 1 else sel) false))
      else if ScanCode k =? ScanCodeDown then Ok (inl (mkMenu (if sel <? n - 1 then sel + 1 else sel) false))
      else if ScanCode k =? ScanCodeHome then Ok (inl (mkMenu 0 false))
      else if ScanCode k =? ScanCodeEnd then Ok (inl (mkMenu (n - 1) false))
      else if UnicodeChar k =? UnicodeCharEnter then let* e := entryAt cfg sel in Ok (inr (Dispatched e))
      else if ScanCode k =? ScanCodeESC then Ok (inr Halted)
      else Ok (inl (mkMenu sel false))
  end.

(** The loop over the inputs it has read: how it ended, or the state it polls
    in; with the selections and countdowns drawn. *)
Fixpoint menuTicks (cfg : BootConfig) (deadline : Z) (s : menuState) (ts : list tick) : out (menuState + outcome) * list (Z * Z) :=
  match ts with
  | [] => (Ok (inl s), [])
  | t :: r =>
      let drawn := (m_selected s, countdownOf deadline s t) in
      match menuIter cfg deadline s t with
      | Ok (inl s') => let '(o, ds) := menuTicks cfg deadline s' r in (o, drawn :: ds)
      | o => (o, [drawn])
      end
  end.

Definition armedAtStart (cfg : BootConfig) : bool := (0 <? c_Timeout cfg) && negb (bool_decide (c_Default cfg = [])).
(** [deadline.Add(time.Duration(cfg.Timeout) * time.Second)] *)
Definition deadlineOf (cfg : BootConfig) (start : Z) : Z :=
  if armedAtStart cfg then start + s64 (c_Timeout cfg * second) else start.

Definition menuLoop (cfg : BootConfig) (startSelected start : Z) (ts : list tick) : out (menuState + outcome) * list (Z * Z) :=
  if len (c_Entries cfg) =? 0 then (Ok (inr Halted), [])
  else
    let selected := if (startSelected <? 0) || (len (c_Entries cfg) <=? startSelected) then 0 else startSelected in
    menuTicks cfg (deadlineOf cfg start) (mkMenu selected (armedAtStart cfg)) ts.

(** ** Validation *)

Lemma checkLabels_ok es seen seen' :
  checkLabels es seen = Ok seen' <-> NoDup (e_Label <$> es) /\ (forall e, e ∈ es -> e_Label e ∉ seen) /\ seen' = list_to_set (e_Label <$> es) ∪ seen.
Proof.
  revert seen. induction es as [|e es IH]; intros seen; cbn [checkLabels fmap list_fmap list_to_set].
  - split; [intros [= <-]|intros (_ & _ & ->); by rewrite union_empty_l_L].
    split; [constructor|]. split; [by intros ? ?%not_elem_of_nil|by rewrite union_empty_l_L].
  - case_bool_decide as Hin.
    + split; [done|]. intros (_ & Hn & _). destruct (Hn e); [left|done].
    + rewrite IH, NoDup_cons.
      replace (list_to_set (e_Label <$> es) ∪ ({[e_Label e]} ∪ seen)) with ({[e_Label e]} ∪ list_to_set (e_Label <$> es) ∪ seen)
        by (by rewrite (union_comm_L {[e_Label e]} (list_to_set _)), <- union_assoc_L). split.
      * intros (Hnd & Hn & ->). split_and!; [|done| |done].
        -- intros (e' & E & He')%list_elem_of_fmap. apply (Hn e' He'). apply elem_of_union. left. by apply elem_of_singleton.
        -- intros e' [->|He']%elem_of_cons; [done|]. intros Hs. apply (Hn e' He'). by apply elem_of_union_r.
      * intros ([Hne Hnd] & Hn & ->). split_and!; [done| |done]. intros e' He' [E%elem_of_singleton|Hs]%elem_of_union.
        -- apply Hne. apply list_elem_of_fmap. by exists e'.
        -- apply (Hn e'); [by right|done].
Qed.

(** Parse accepts a document exactly when it is not empty, it decodes, it has an
    entry, no label occurs twice and the default, if there is one, is the label
    of an entry; and it returns what was decoded. *)
Lemma Parse_spec decode b cfg :
  Parse decode b = Ok cfg <->
  b <> [] /\ decode b = Some cfg /\ c_Entries cfg <> [] /\ NoDup (e_Label <$> c_Entries cfg) /\
  (c_Default cfg = [] \/ c_Default cfg ∈ e_Label <$> c_Entries cfg).
Proof.
  unfold Parse. assert (forall A (l : list A), (len l =? 0) = bool_decide (l = [])) as Hl.
  { intros A l. destruct l; [done|]. rewrite bool_decide_eq_false_2 by done. rewrite len_cons. pose_lens. apply Z.eqb_neq. pose proof (len_nonneg l). lia. }
  rewrite Hl. case_bool_decide as Hb; [by split; [|intros []]|]. destruct (decode b) as [c|]; [|by split; [|intros (_ & ? & _)]].
  rewrite Hl. case_bool_decide as He; [split; [done|intros (_ & [= ->] & ? & _); done]|].
  destruct (checkLabels (c_Entries c) ∅) as [seen|e|] eqn:Ec; cbn [out_bind].
  - apply checkLabels_ok in Ec as (Hnd & _ & ->). rewrite union_empty_r_L. 
    assert (c_Default c ∈ (list_to_set (e_Label <$> c_Entries c) : gset (list byte)) <-> c_Default c ∈ e_Label <$> c_Entries c) as Hset by apply elem_of_list_to_set.
    destruct (decide (c_Default c = [])) as [Hd|Hd]; [rewrite (bool_decide_eq_true_2 _ Hd)|rewrite (bool_decide_eq_false_2 _ Hd)]; cbn [negb andb].
    + split; [intros [= <-]; split_and!; auto|by intros (_ & [= ->] & _)].
    + case_bool_decide as Hin; cbn [negb]; (split; [|intros (_ & [= ->] & _ & _ & Hor)]); [intros [= <-]; split_and!; try done; right; by apply Hset|done|done|tauto].
  - split; [done|]. intros (_ & [= ->] & _ & Hnd & _). enough (checkLabels (c_Entries cfg) ∅ = Ok (list_to_set (e_Label <$> c_Entries cfg) ∪ ∅)) by congruence.
    apply checkLabels_ok. split_and!; [done|set_solver|done].
  - split; [done|]. intros (_ & [= ->] & _ & Hnd & _). enough (checkLabels (c_Entries cfg) ∅ = Ok (list_to_set (e_Label <$> c_Entries cfg) ∪ ∅)) by congruence.
    apply checkLabels_ok. split_and!; [done|set_solver|done].
Qed.

(** The entry the menu starts on is the default. *)
Lemma indexFrom_spec es label i :
  label ∈ e_Label <$> es ->
  exists k e, indexFrom es label i = i + Z.of_nat k /\ es !! k = Some e /\ e_Label e = label.
Proof.
  revert i. induction es as [|e es IH]; intros i; cbn; [by intros ?%not_elem_of_nil|]. intros Hin. destruct (decide (e_Label e = label)) as [E|E].
  - exists 0%nat, e. split_and!; [lia|done|done].
  - apply elem_of_cons in Hin as [->|Hin]; [done|]. destruct (IH (i + 1) Hin) as (k & e' & -> & Hk & He). exists (S k), e'. split_and!; [lia|done|done].
Qed.

Lemma findEntryIn_spec es label e : NoDup (e_Label <$> es) -> e ∈ es -> e_Label e = label -> findEntryIn es label = Some e.
Proof.
  intros Hnd Hin He. induction es as [|x es IH]; [by apply not_elem_of_nil in Hin|]. cbn in *. apply NoDup_cons in Hnd as [Hx Hnd].
  destruct (decide (e_Label x = label)) as [E|E].
  - apply elem_of_cons in Hin as [->|Hin]; [done|]. exfalso. apply Hx. apply list_elem_of_fmap. exists e. split; [congruence|done].
  - apply elem_of_cons in Hin as [->|Hin]; [done|]. by apply IH.
Qed.

(** ** Frames *)

(** A line of the frame: a full-width border, or a text between bars, cut with
    an ellipsis or padded to the width. *)
Definition border (w : Z) : list byte := [x2b] ++ repeat x2d (Z.to_nat (w - 2)) ++ [x2b].
Definition fitted (w : Z) (text : list byte) : list byte :=
  if w <? len text then take (Z.to_nat (w - 3)) text ++ str "..." else text ++ repeat x20 (Z.to_nat (w - len text)).
Definition textLine (w : Z) (text : list byte) : list byte := [x7c; x20] ++ fitted (w - 4) text ++ [x20; x7c].

Lemma len_repeat (b : byte) n : len (repeat b n) = Z.of_nat n.
Proof. unfold len. by rewrite repeat_length. Qed.
Lemma len_border w : 2 <= w -> len (border w) = w.
Proof. intros Hw. unfold border. rewrite !len_app, len_repeat. change (len [x2b]) with 1. lia. Qed.
Lemma len_textLine w t : 8 <= w -> len (textLine w t) = w.
Proof.
  intros Hw. unfold textLine, fitted. rewrite !len_app. change (len [x7c; x20]) with 2. change (len [x20; x7c]) with 2.
  destruct (Z.ltb_spec (w - 4) (len t)); rewrite len_app; [rewrite len_take; change (len (str "...")) with 3|rewrite len_repeat]; lia.
Qed.

Lemma appendBorder_line dst w : appendBorder dst w = dst ++ border w ++ [newline].
Proof. unfold appendBorder, border. by rewrite <- !app_assoc. Qed.
Lemma appendTextLine_line dst w t : 8 <= w -> appendTextLine dst w t = Ok (dst ++ textLine w t ++ [newline]).
Proof.
  intros Hw. unfold appendTextLine, textLine, fitted. cbv zeta. rewrite (proj2 (Z.ltb_ge (w - 4) 4)) by lia.
  destruct (Z.ltb_spec (w - 4) (len t)) as [Hlt|Hge].
  - rewrite sliceTo_len by lia. cbn [out_bind]. f_equal. set (x := take _ t ++ str "..."). assert (len x = w - 4) as Hx.
    { unfold x. rewrite len_app, len_take. change (len (str "...")) with 3. lia. }
    rewrite Hx, Z.sub_diag. cbn [Z.to_nat repeat app]. by rewrite <- !app_assoc.
  - cbn [out_bind]. f_equal. by rewrite <- !app_assoc.
Qed.

Definition entryLine (w sel : Z) (ie : Z * Entry) : list byte :=
  textLine w ((if fst ie =? sel then str "> " else str "  ") ++ e_Label (snd ie)).
Fixpoint numbered (i : Z) (es : list Entry) : list (Z * Entry) :=
  match es with [] => [] | e :: r => (i, e) :: numbered (i + 1) r end.
Definition asLines (ls : list (list byte)) : list byte := concat ((fun l => l ++ [newline]) <$> ls).

Lemma asLines_cons l ls : asLines (l :: ls) = l ++ [newline] ++ asLines ls.
Proof. unfold asLines. cbn [fmap list_fmap concat]. by rewrite <- app_assoc. Qed.
Lemma asLines_app xs ys : asLines (xs ++ ys) = asLines xs ++ asLines ys.
Proof. unfold asLines. by rewrite fmap_app, concat_app. Qed.

Lemma renderEntries_lines buf w sel i es :
  8 <= w -> renderEntries buf w sel i es = Ok (buf ++ asLines (entryLine w sel <$> numbered i es)).
Proof.
  intros Hw. revert buf i. induction es as [|e es IH]; intros buf i; cbn [renderEntries numbered].
  - unfold asLines. cbn. by rewrite app_nil_r.
  - rewrite appendTextLine_line by done. cbn [out_bind]. rewrite IH. unfold asLines. cbn [fmap list_fmap concat]. by rewrite <- !app_assoc.
Qed.

Lemma numbered_lookup i es k e : es !! k = Some e -> numbered i es !! k = Some (i + Z.of_nat k, e).
Proof.
  revert i k. induction es as [|x es IH]; intros i [|k]; cbn; [done..| |].
  - intros [= ->]. do 2 f_equal. lia.
  - intros Hk. etransitivity; [exact (IH (i + 1) k Hk)|]. do 2 f_equal. lia.
Qed.
Lemma length_numbered i es : length (numbered i es) = length es.
Proof. revert i. induction es as [|x es IH]; intros i; cbn; [done|by rewrite IH]. Qed.

(** Every frame is the screen prologue and then a rectangle: one line per entry
    and six more, each exactly as wide as the menu however long the title and
    the labels are; the entry the (clamped) selection points at, and no other,
    carries the cursor. *)
Theorem menu_frame_shape r cfg selected countdown :
  let w := if r_Width r <? minWidth then defaultWidth else r_Width r in
  let n := len (c_Entries cfg) in
  let sel := Z.max (-1) (Z.min (n - 1) (Z.max 0 selected)) in
  exists ls, frame r cfg selected countdown = Ok (home ++ (if r_painted r then [] else hideCursor) ++ asLines ls) /\
    Forall (fun l => len l = w) ls /\ length ls = (length (c_Entries cfg) + 6)%nat /\
    forall k e, c_Entries cfg !! k = Some e ->
      ls !! (k + 3)%nat = Some (textLine w ((if Z.of_nat k =? sel then str "> " else str "  ") ++ e_Label e)).
Proof.
  intros w n sel. assert (20 <= w) as Hw by (unfold w, minWidth, defaultWidth; destruct (Z.ltb_spec (r_Width r) 20); lia).
  unfold frame. cbv zeta. fold w. fold n.
  set (title := if bool_decide (c_Title cfg = []) then _ else _). set (foot := if 0 <? countdown then _ else _).
  replace (if n <=? (if selected <? 0 then 0 else selected) then n - 1 else if selected <? 0 then 0 else selected) with sel.
  2: { unfold sel. pose proof (len_nonneg (c_Entries cfg)) as Hn0. fold n in Hn0. destruct (Z.ltb_spec selected 0); case Z.leb_spec; lia. }
  rewrite appendTextLine_line by lia. cbn [out_bind]. rewrite renderEntries_lines by lia. cbn [out_bind].
  rewrite appendTextLine_line by lia. cbn [out_bind]. rewrite !appendBorder_line.
  exists ([border w; textLine w title; border w] ++ (entryLine w sel <$> numbered 0 (c_Entries cfg)) ++ [border w; textLine w foot; border w]).
  split_and!.
  - f_equal. rewrite !asLines_app, !asLines_cons. change (asLines []) with (@nil byte). by rewrite !app_nil_r, <- !app_assoc.
  - rewrite !Forall_app. split_and!; [|apply Forall_fmap, Forall_forall; intros; by apply len_textLine; lia|];
      repeat (constructor; [first [apply len_border; lia|apply len_textLine; lia]|]); constructor.
  - rewrite !length_app, length_fmap, length_numbered. cbn. lia.
  - intros k e Hk. rewrite lookup_app_r by (cbn; lia). replace (k + 3 - length _)%nat with k by (cbn; lia).
    rewrite lookup_app_l by (rewrite length_fmap, length_numbered; by eapply lookup_lt_Some).
    rewrite list_lookup_fmap, (numbered_lookup 0 _ _ _ Hk). done.
Qed.

(** ** The loop *)

Definition pressed (t : tick) : option Keystroke := match t_key t with inl k => Some k | inr _ => None end.

(** Where the keys read so far put the cursor of a menu of [n] entries. *)
Definition moveBy (n sel : Z) (k : Keystroke) : Z :=
  if ScanCode k =? ScanCodeUp then Z.max 0 (sel - 1)
  else if ScanCode k =? ScanCodeDown then Z.min (n - 1) (sel + 1)
  else if ScanCode k =? ScanCodeHome then 0
  else if ScanCode k =? ScanCodeEnd then n - 1
  else sel.
Definition cursor (n sel : Z) (ks : list Keystroke) : Z := foldl (moveBy n) sel ks.

Definition isMove (k : Keystroke) : bool :=
  (ScanCode k =? ScanCodeUp) || (ScanCode k =? ScanCodeDown) || (ScanCode k =? ScanCodeHome) || (ScanCode k =? ScanCodeEnd).
Definition isEnter (k : Keystroke) : bool := negb (isMove k) && (UnicodeChar k =? UnicodeCharEnter).
Definition isEscape (k : Keystroke) : bool := negb (isMove k) && negb (UnicodeChar k =? UnicodeCharEnter) && (ScanCode k =? ScanCodeESC).

Lemma entryAt_in cfg i : 0 <= i < len (c_Entries cfg) -> exists e, entryAt cfg i = Ok e /\ c_Entries cfg !! Z.to_nat i = Some e.
Proof.
  intros Hi. unfold entryAt. rewrite (proj2 (Z.leb_le _ _)), (proj2 (Z.ltb_lt _ _)) by lia. cbn [andb].
  destruct (lookup_lt_is_Some_2 (c_Entries cfg) (Z.to_nat i)) as [e E]; [unfold len in Hi; lia|]. exists e. by rewrite E.
Qed.

(** One iteration: it ends the loop in one of two ways, or moves the cursor. *)
Lemma menuIter_spec cfg dl s t :
  0 <= m_selected s < len (c_Entries cfg) ->
  match menuIter cfg dl s t with
  | Ok (inl s') =>
      m_selected s' = default (m_selected s) (moveBy (len (c_Entries cfg)) (m_selected s) <$> pressed t) /\
      0 <= m_selected s' < len (c_Entries cfg) /\ m_armed s' = match pressed t with Some _ => false | None => m_armed s end
  | Ok (inr (Dispatched e)) =>
      c_Entries cfg !! Z.to_nat (m_selected s) = Some e /\
      ((m_armed s = true /\ pressed t = None /\ dl < t_now t) \/ exists k, pressed t = Some k /\ isEnter k = true)
  | Ok (inr Halted) => exists k, pressed t = Some k /\ isEscape k = true
  | _ => False
  end.
Proof.
  intros Hs. unfold menuIter, pressed, moveBy, isEnter, isEscape, isMove. destruct (entryAt_in cfg (m_selected s) Hs) as (e & -> & He).
  destruct (t_key t) as [k|err].
  - cbn [fmap option_fmap option_map default]. destruct (ScanCode k =? ScanCodeUp) eqn:E1; cbn [orb negb andb out_bind];
      [destruct (Z.ltb_spec 0 (m_selected s)); cbn; lia|].
    destruct (ScanCode k =? ScanCodeDown) eqn:E2; cbn [orb negb andb]; [destruct (Z.ltb_spec (m_selected s) (len (c_Entries cfg) - 1)); cbn; lia|].
    destruct (ScanCode k =? ScanCodeHome) eqn:E3; cbn [orb negb andb]; [cbn; lia|].
    destruct (ScanCode k =? ScanCodeEnd) eqn:E4; cbn [orb negb andb]; [cbn; lia|].
    destruct (UnicodeChar k =? UnicodeCharEnter) eqn:E5.
    { split; [done|]. right. exists k. by rewrite E1, E2, E3, E4, E5. }
    destruct (ScanCode k =? ScanCodeESC) eqn:E6; [|by cbn]. exists k. by rewrite E1, E2, E3, E4, E5, E6.
  - assert (forall b : bool, match (if m_armed s && b then let* e := Ok e in Ok (inr (Dispatched e)) else Ok (inl s)) with
      | Ok (inl s') => m_selected s' = m_selected s /\ 0 <= m_selected s' < len (c_Entries cfg) /\ m_armed s' = m_armed s
      | Ok (inr (Dispatched e)) => c_Entries cfg !! Z.to_nat (m_selected s) = Some e /\ m_armed s = true /\ b = true
      | _ => False end) as Haux.
    { intros b. destruct (m_armed s) eqn:Ea, b; cbn; rewrite ?Ea; done. }
    specialize (Haux (dl <? t_now t)). assert (match (Ok (inl s) : out (menuState + outcome)) with Ok (inl s') =>
      m_selected s' = m_selected s /\ 0 <= m_selected s' < len (c_Entries cfg) /\ m_armed s' = m_armed s | _ => False end) as Hstay by done.
    destruct err; try exact Hstay; (destruct (if m_armed s && _ then _ else _) as [[s'|[e'|]]| |]; try done);
      destruct Haux as (H1 & H2 & H3); (split; [done|]); (left; split_and!; [done|done|lia]).
Qed.

Lemma menuTicks_spec cfg dl ts : forall s,
  0 <= m_selected s < len (c_Entries cfg) ->
  match fst (menuTicks cfg dl s ts) with
  | Ok (inl s') =>
      m_selected s' = cursor (len (c_Entries cfg)) (m_selected s) (omap pressed ts) /\ 0 <= m_selected s' < len (c_Entries cfg) /\
      (omap pressed ts = [] -> m_armed s' = m_armed s /\ forall t, t ∈ ts -> m_armed s = true -> t_key t = inr ErrNoKey -> t_now t <= dl)
  | Ok (inr (Dispatched e)) => exists pre t rest, ts = pre ++ t :: rest /\
      c_Entries cfg !! Z.to_nat (cursor (len (c_Entries cfg)) (m_selected s) (omap pressed pre)) = Some e /\
      ((m_armed s = true /\ omap pressed pre = [] /\ pressed t = None /\ dl < t_now t) \/ exists k, pressed t = Some k /\ isEnter k = true)
  | Ok (inr Halted) => exists pre t rest k, ts = pre ++ t :: rest /\ pressed t = Some k /\ isEscape k = true
  | _ => False
  end.
Proof.
  induction ts as [|t ts IH]; intros s Hs; cbn [menuTicks fst].
  { split; [done|]. split; [done|]. intros _. split; [done|]. by intros ? ?%not_elem_of_nil. }
  pose proof (menuIter_spec cfg dl s t Hs) as Hi. assert (forall e, t_key t = inr ErrNoKey -> m_armed s = true -> dl < t_now t -> menuIter cfg dl s t <> Ok (inl e)) as Hfire.
  { intros e Ek Ea Et. unfold menuIter. rewrite Ek, Ea, (proj2 (Z.ltb_lt _ _) Et). cbn [andb]. by destruct (entryAt_in cfg _ Hs) as (e' & -> & _). }
  destruct (menuIter cfg dl s t) as [[s'|[e|]]| |]; [| | |done|done].
  - destruct Hi as (Hsel & Hr & Harm). specialize (IH s' Hr). cbn [omap list_omap].
    destruct (menuTicks cfg dl s' ts) as [o ds]. cbn [fst] in *. destruct (pressed t) as [k|] eqn:Ep; cbn in Hsel; rewrite Hsel in IH.
    + destruct o as [[s2|[e|]]| |]; try done.
      * destruct IH as (H1 & H2 & H3). by split_and!; [exact H1|lia|lia|].
      * destruct IH as (pre & t' & rest & -> & He & Hor). exists (t :: pre), t', rest. split; [done|]. cbn [omap list_omap]. rewrite Ep. split; [done|].
        destruct Hor as [(Ha & _)|Hk]; [congruence|by right].
      * destruct IH as (pre & t' & rest & k' & -> & Hk). by exists (t :: pre), t', rest, k'.
    + destruct o as [[s2|[e|]]| |]; try done.
      * destruct IH as (H1 & H2 & H3). split; [done|]. split; [done|]. intros E. destruct (H3 E) as [H4 H5]. split; [congruence|].
        intros t' [->|Ht']%elem_of_cons Ha Ek; [|by apply H5; [|congruence|]]. destruct (Z.le_gt_cases (t_now t) dl); [done|]. by destruct (Hfire s' Ek Ha).
      * destruct IH as (pre & t' & rest & -> & He & Hor). exists (t :: pre), t', rest. split; [done|]. cbn [omap list_omap]. rewrite Ep. split; [done|].
        destruct Hor as [(Ha & H1 & H2 & H3)|Hk]; [left; split_and!; congruence|by right].
      * destruct IH as (pre & t' & rest & k' & -> & Hk). by exists (t :: pre), t', rest, k'.
  - exists [], t, ts. split; [done|]. cbn. destruct Hi as [He Hor]. split; [done|]. destruct Hor as [(Ha & H1 & H2)|Hk]; [by left|by right].
  - destruct Hi as (k & Hp & Hk). by exists [], t, ts, k.
Qed.

(** C30. The interactive loop started on the default entry of a menu Parse accepts,
    whatever keys and clock values it reads: it never indexes outside the menu;
    it boots an entry only on Enter, and then the one the keys before moved the
    cursor to, or, when no key was pressed at all, the default entry, once the
    deadline has passed and only if a timeout and a default were configured; it
    halts only on ESC.  While it polls with no key pressed, no poll that found
    the keyboard idle came after the deadline of an armed menu. *)
Theorem menu_loop_spec decode b cfg start ts :
  Parse decode b = Ok cfg ->
  let n := len (c_Entries cfg) in
  let first := indexOfDefault cfg in
  match fst (menuLoop cfg first start ts) with
  | Ok (inl s) =>
      m_selected s = cursor n first (omap pressed ts) /\ 0 <= m_selected s < n /\
      (omap pressed ts = [] -> armedAtStart cfg = true ->
       forall t, t ∈ ts -> t_key t = inr ErrNoKey -> t_now t <= start + s64 (c_Timeout cfg * second))
  | Ok (inr (Dispatched e)) => exists pre t rest, ts = pre ++ t :: rest /\
      ((omap pressed pre = [] /\ pressed t = None /\ 0 < c_Timeout cfg /\ c_Default cfg <> [] /\
        FindEntry cfg (c_Default cfg) = Some e /\ start + s64 (c_Timeout cfg * second) < t_now t) \/
       exists k, pressed t = Some k /\ isEnter k = true /\ c_Entries cfg !! Z.to_nat (cursor n first (omap pressed pre)) = Some e)
  | Ok (inr Halted) => exists pre t rest k, ts = pre ++ t :: rest /\ pressed t = Some k /\ isEscape k = true
  | _ => False
  end.
Proof.
  intros Hp n first. apply Parse_spec in Hp as (_ & _ & Hne & Hnd & Hdef).
  assert (0 < n) as Hn by (unfold n; destruct (c_Entries cfg); [done|rewrite len_cons; pose_lens; pose proof (len_nonneg l); lia]).
  assert (0 <= first < n /\ (c_Default cfg <> [] -> exists e, c_Entries cfg !! Z.to_nat first = Some e /\ FindEntry cfg (c_Default cfg) = Some e)) as [Hf Hd].
  { unfold first, indexOfDefault. case_bool_decide as Ed; [split; [lia|done]|]. destruct Hdef as [?|Hdef]; [done|].
    destruct (indexFrom_spec (c_Entries cfg) (c_Default cfg) 0 Hdef) as (k & e & -> & Hk & He). pose proof (lookup_lt_Some _ _ _ Hk) as Hlt.
    split; [unfold n, len; lia|]. intros _. exists e. rewrite Z.add_0_l, Nat2Z.id. split; [done|]. apply findEntryIn_spec; [done|by eapply list_elem_of_lookup_2|done]. }
  unfold menuLoop. rewrite (proj2 (Z.eqb_neq _ 0)) by (fold n; lia). cbv zeta. rewrite (proj2 (Z.ltb_ge first 0)), (proj2 (Z.leb_gt _ first)) by (fold n; lia). cbn [orb].
  pose proof (menuTicks_spec cfg (deadlineOf cfg start) ts (mkMenu first (armedAtStart cfg)) Hf) as H. unfold deadlineOf in *.
  destruct (fst (menuTicks _ _ _ ts)) as [[s|[e|]]| |]; [| |done|done|done]; cbn [m_selected m_armed] in H; fold n in H.
  - destruct H as (H1 & H2 & H3). split_and!; [done|lia|lia|]. intros E Ha t Ht Ek. rewrite Ha in H3. by apply (proj2 (H3 E)).
  - destruct H as (pre & t & rest & -> & He & Hor). exists pre, t, rest. split; [done|].
    destruct Hor as [(Ha & Hk & Hpt & Ht)|(k & Hpt & Hk)]; [left|right; by exists k]. rewrite Ha in Ht.
    unfold armedAtStart in Ha. apply andb_true_iff in Ha as [Ht0 Hd0]. apply negb_true_iff, bool_decide_eq_false in Hd0.
    destruct (Hd Hd0) as (e' & He' & Hfe). rewrite Hk in He. cbn in He. split_and!; [done|done|lia|done| |done]. congruence.
Qed.

Definition demoConfig : BootConfig := mkConfig (str "menu") 10 (str "b")
  [mkEntry (str "a") [] [] []; mkEntry (str "b") [] [] []; mkEntry (str "c") [] [] []].

Lemma menu_loop_spec_witness :
  Parse (fun _ => Some demoConfig) (str "x") = Ok demoConfig /\
  fst (menuLoop demoConfig (indexOfDefault demoConfig) 0
         [mkTick 0 (inr ErrNoKey) 0; mkTick 0 (inl (mkKey ScanCodeDown 0)) 0; mkTick 0 (inr ErrNoKey) (11 * second)])
    = Ok (inl (mkMenu 2 false)) /\
  exists pre t rest, [mkTick 0 (inr ErrNoKey) (11 * second)] = pre ++ t :: rest /\ 0 < c_Timeout demoConfig.
Proof.
  assert (Parse (fun _ => Some demoConfig) (str "x") = Ok demoConfig) as Hp by (vm_compute; reflexivity).
  split; [exact Hp|]. split; [vm_compute; reflexivity|].
  pose proof (menu_loop_spec (fun _ => Some demoConfig) (str "x") demoConfig 0 [mkTick 0 (inr ErrNoKey) (11 * second)] Hp) as H.
  assert (fst (menuLoop demoConfig (indexOfDefault demoConfig) 0 [mkTick 0 (inr ErrNoKey) (11 * second)]) = Ok (inr (Dispatched (mkEntry (str "b") [] [] [])))) as E by (vm_compute; reflexivity).
  cbv zeta in H. rewrite E in H. destruct H as (pre & t & rest & E' & [(_ & _ & Ht & _)|(k & Hk & _)]).
  - exists pre, t, rest. split; [exact E'|exact Ht].
  - exists pre, t, rest. split; [exact E'|]. reflexivity.
Defined.
