(* ===== verification/ArMember.v ===== *)
(** * Debian package members

    cmd/cloudboot-oci-extract: arFindMember (the ar container of a .deb),
    validateEFIStub and the reference splitters hostOf, repoOf, tagOf. *)

From S2P Require Import Prelude GoStr LittleEndian.

(** ** References *)

Definition hostOf (ref : list byte) : out (list byte) :=
  let i := Index ref (str "/") in if 0 <=? i then sliceTo ref i else Ok ref.
Definition repoOf (ref : list byte) : out (list byte) :=
  let i := Index ref (str "/") in
  let* r := if 0 <=? i then sliceFrom ref (i + 1) else Ok ref in
  let i := LastIndexByte r x3a in
  if 0 <=? i then sliceTo r i else Ok r.
Definition tagOf (ref : list byte) : out (list byte) :=
  let slash := Index ref (str "/") in
  let i := LastIndexByte ref x3a in
  if slash <? i then sliceFrom ref (i + 1) else Ok (str "latest").

(** ** Archives *)

(** [strings.TrimRight(s, cutset)] *)
Definition TrimRight (s cut : list byte) : list byte :=
  rev ((fix go (s : list byte) := match s with b :: r => if bool_decide (b ∈ cut) then go r else s | [] => [] end) (rev s)).

Definition isDigit (b : byte) : bool := (48 <=? b2z b) && (b2z b <=? 57).
Fixpoint digitRun (s : list byte) : list byte :=
  match s with b :: r => if isDigit b then b :: digitRun r else [] | [] => [] end.
(** [fmt.Sscanf(s, "%d", &n)]: an optional sign and the digits after it; what
    follows is left unread. *)
Definition scanInt (s : list byte) : option Z :=
  let s := trimLeft s in
  match s with
  | [] => None
  | b :: r => if (b2z b =? 43) || (b2z b =? 45) then Atoi (b :: digitRun r) else Atoi (digitRun s)
  end.

Definition arMagic : list byte := str "!<arch>" ++ [x0a].
Definition memberMagic : list byte := [x60; x0a].

(** The loop at offset [off]; [None] when the fuel runs out. *)
Fixpoint arLoop (fuel : nat) (b prefix : list byte) (off : Z) : option (out (list byte * list byte)) :=
  match fuel with
  | O => None
  | S f =>
      if len b <? off + 60 then Some (Err ErrNotFound)
      else
        match slice b off (off + 16), slice b (off + 48) (off + 58), slice b (off + 58) (off + 60) with
        | Ok name, Ok size, Ok fmagic =>
            let nameField := TrimRight name (str " /") in
            if negb (bool_decide (fmagic = memberMagic)) then Some (Err ErrCorruptInput)
            else
              match scanInt (TrimSpace size) with
              | None => Some (Err ErrCorruptInput)
              | Some size =>
                  let dataStart := off + 60 in
                  if len b <? dataStart + size then Some (Err ErrTruncated)
                  else if HasPrefix nameField prefix then
                    Some (let* data := slice b dataStart (dataStart + size) in Ok (data, nameField))
                  else
                    let off := dataStart + size in
                    arLoop f b prefix (if Z.rem off 2 =? 1 then off + 1 else off)
              end
        | _, _, _ => Some Panic
        end
  end.
Definition arFindMember (fuel : nat) (b prefix : list byte) : option (out (list byte * list byte)) :=
  if (len b <? 8) || negb (bool_decide (take 8 b = arMagic)) then Some (Err ErrCorruptInput) else arLoop fuel b prefix 8.

(** ** EFI stubs *)

Definition validateEFIStub (b : list byte) (want : Z) : out unit :=
  ret_if len b <? 0x40 with ErrTruncated;;
  let* m := idx b 0 in
  let* z := idx b 1 in
  ret_if negb (m =? 0x4D) || negb (z =? 0x5A) with ErrCorruptInput;;
  let* w := slice b 0x3C 0x40 in
  let* peOff := leU32 w in
  ret_if (peOff <? 0) || (len b <? peOff + 6) with ErrTruncated;;
  let* sig := slice b peOff (peOff + 4) in
  ret_if negb (bool_decide (sig = str "PE" ++ [x00; x00])) with ErrCorruptInput;;
  let* lo := idx b (peOff + 4) in
  let* hi := idx b (peOff + 5) in
  ret_if negb (Z.lor lo (Z.shiftl hi 8) =? want) with ErrNotFound;;
  Ok tt.

(** ** Well-formed archives *)

(** A member as ar writes it: the name, with nothing after it the way dpkg has it or
    with GNU ar's slash, padded with spaces; 32 bytes of date, owner and mode; the
    decimal size padded; the data; and a byte of padding after an odd length.  GNU
    ar's symbol table and its table of long names are members without a name, with
    one slash and with two; a member with a long name is called by its number in
    that table, after a slash. *)
Record member := mkMember { mb_name : list byte; mb_end : list byte; mb_meta : list byte; mb_data : list byte }.
Definition padTo (n : nat) (s : list byte) : list byte := s ++ repeat x20 (n - length s).
Definition encMember (x : member) : list byte :=
  padTo 16 (mb_name x ++ mb_end x) ++ mb_meta x ++ padTo 10 (FormatUint (len (mb_data x)) 10) ++ memberMagic ++ mb_data x ++
  (if Z.rem (len (mb_data x)) 2 =? 1 then [x0a] else []).
Definition wfMember (x : member) : Prop :=
  (length (mb_name x ++ mb_end x) <= 16)%nat /\ (forall b, last (mb_name x) = Some b -> b <> x20 /\ b <> x2f) /\
  (mb_end x = [] \/ mb_end x = str "/" \/ mb_name x = [] /\ mb_end x = str "//") /\ len (mb_meta x) = 32 /\ len (mb_data x) < 10 ^ 10.
Definition encAr (xs : list member) : list byte := arMagic ++ concat (encMember <$> xs).

Lemma TrimRight_end s t cut :
  Forall (fun b => b ∈ cut) t -> (forall b, last s = Some b -> b ∉ cut) -> TrimRight (s ++ t) cut = s.
Proof.
  intros Ht Hs. unfold TrimRight. rewrite rev_app_distr. induction t as [|b t IH] using rev_ind.
  - cbn [rev app]. destruct s as [|c s _] using rev_ind; [done|]. rewrite rev_unit. specialize (Hs c (last_snoc _ _)).
    rewrite bool_decide_eq_false_2 by done. by rewrite <- rev_unit, rev_involutive.
  - apply Forall_app in Ht as [Ht Hb]. apply Forall_cons in Hb as [Hb _]. rewrite rev_unit. cbn [app]. rewrite bool_decide_eq_true_2 by done. by apply IH.
Qed.
(** What is after the name in its field. *)
Lemma TrimRight_name x n : wfMember x -> TrimRight ((mb_name x ++ mb_end x) ++ repeat x20 n) (str " /") = mb_name x.
Proof.
  intros (_ & Hl & He & _). rewrite <- app_assoc. apply TrimRight_end.
  - apply Forall_app. split; [|apply Forall_forall; intros b Hb%list_elem_of_In%repeat_spec; subst b; vm_compute; left].
    destruct He as [->|[->|[_ ->]]]; repeat constructor.
  - intros b Hb. destruct (Hl b Hb) as [H1 H2]. change (str " /") with [x20; x2f]. rewrite !elem_of_cons, elem_of_nil. tauto.
Qed.

Lemma digitRun_all s : Forall (fun b => isDigit b = true) s -> forall n, digitRun (s ++ repeat x20 n) = s.
Proof. intros Hs n. induction Hs as [|b s Hb _ IH]; [by destruct n|]. cbn. by rewrite Hb, IH. Qed.

Lemma FormatUint_digits v : Forall (fun b => isDigit b = true) (FormatUint v 10).
Proof.
  unfold FormatUint. assert (Forall (fun b => isDigit b = true) []) as Hacc by constructor. revert Hacc.
  generalize (@nil byte). revert v. generalize 64%nat. induction n as [|n IH]; intros v acc Hacc; cbn [formatDigits]; [done|].
  pose proof (Z.mod_pos_bound v 10 ltac:(lia)).
  assert (Forall (fun b => isDigit b = true) (digitChar (v mod 10) :: acc)).
  { constructor; [|done]. unfold isDigit, digitChar. rewrite b2z_z2b. rewrite (proj2 (Z.ltb_lt _ _)), Z.mod_small by lia. rewrite (proj2 (Z.leb_le _ _)), (proj2 (Z.leb_le _ _)) by lia. done. }
  destruct (v / 10 =? 0); auto.
Qed.

Lemma formatDigits_length fuel : forall k v acc, (0 < k)%nat -> 0 <= v < 10 ^ Z.of_nat k -> (length (formatDigits fuel 10 v acc) <= k + length acc)%nat.
Proof.
  induction fuel as [|f IH]; intros k v acc Hk Hv; cbn [formatDigits]; [lia|]. destruct (Z.eqb_spec (v / 10) 0) as [E|E]; [cbn; lia|].
  destruct k as [|k]; [lia|]. rewrite Nat2Z.inj_succ, Z.pow_succ_r in Hv by lia.
  assert (0 <= v / 10 < 10 ^ Z.of_nat k) as Hd by (split; [apply Z.div_pos; lia|apply Z.div_lt_upper_bound; lia]).
  destruct k as [|k]; [change (10 ^ Z.of_nat 0) with 1 in Hd; lia|]. specialize (IH (S k) (v / 10) (digitChar (v mod 10) :: acc) ltac:(lia) Hd). cbn in IH |- *. lia.
Qed.

Lemma spaces_blank k : Forall (fun b => isSpace b = true) (repeat x20 k).
Proof. induction k as [|k IH]; [constructor|]. cbn [repeat]. constructor; [reflexivity|exact IH]. Qed.

Lemma scanInt_size n : 0 <= n < 10 ^ 10 -> (length (FormatUint n 10) <= 10)%nat /\ scanInt (TrimSpace (padTo 10 (FormatUint n 10))) = Some n.
Proof.
  intros Hn. split; [pose proof (formatDigits_length 64 10 n [] ltac:(lia) Hn); cbn in *; unfold FormatUint; lia|]. unfold padTo.
  rewrite TrimSpace_hex; [|apply FormatUint_hex; lia|apply spaces_blank].
  pose proof (FormatUint_digits n) as Hd. pose proof (Atoi_FormatUint n ltac:(lia)) as Ha. unfold scanInt.
  rewrite trimLeft_id. 2: { intros b r E. rewrite E in Hd. apply Forall_cons in Hd as [Hb _]. revert Hb. unfold isDigit, isSpace. blia; try lia; done. }
  pose proof (digitRun_all _ Hd 0) as Hr. rewrite app_nil_r in Hr. destruct (FormatUint n 10) as [|b r]; [done|].
  apply Forall_cons in Hd as [Hb _]. unfold isDigit in Hb. rewrite !(proj2 (Z.eqb_neq _ _)) by lia. cbn [orb]. by rewrite Hr.
Qed.

Lemma len_padTo n s : (length s <= n)%nat -> len (padTo n s) = Z.of_nat n.
Proof. intros Hs. unfold padTo. rewrite len_app. unfold len. rewrite repeat_length. lia. Qed.

(** The first member whose name starts with the prefix. *)
Fixpoint firstMember (prefix : list byte) (xs : list member) : out (list byte * list byte) :=
  match xs with
  | [] => Err ErrNotFound
  | x :: r => if HasPrefix (mb_name x) prefix then Ok (mb_data x, mb_name x) else firstMember prefix r
  end.

Lemma len_encMember x : wfMember x -> len (encMember x) = 60 + len (mb_data x) + Z.rem (len (mb_data x)) 2.
Proof.
  intros (Hn & _ & _ & Hm & Hd). pose proof (len_nonneg (mb_data x)). destruct (scanInt_size (len (mb_data x)) ltac:(lia)) as [Hs _].
  unfold encMember. rewrite !len_app, !len_padTo, Hm by done. change (len memberMagic) with 2.
  rewrite Z.rem_mod_nonneg by lia. pose proof (Z.mod_pos_bound (len (mb_data x)) 2). destruct (Z.eqb_spec (len (mb_data x) mod 2) 1) as [E|E]; [rewrite E|]; [change (len [x0a]) with 1|change (len []) with 0]; lia.
Qed.

Lemma arLoop_members xs prefix : forall k pre,
  Forall wfMember xs -> (length xs < k)%nat -> Z.rem (len pre) 2 = 0 ->
  arLoop k (pre ++ concat (encMember <$> xs)) prefix (len pre) = Some (firstMember prefix xs).
Proof.
  induction xs as [|x xs IH]; intros [|k] pre Hxs Hk Hev; [cbn in Hk; lia| |cbn in Hk; lia|]; cbn [arLoop fmap list_fmap concat].
  { rewrite app_nil_r, (proj2 (Z.ltb_lt _ _)) by lia. done. }
  apply Forall_cons in Hxs as [Hx Hxs]. pose proof (len_encMember x Hx) as Hl. pose proof Hx as (Hn & _ & _ & Hm & Hd). pose proof (len_nonneg (mb_data x)) as Hd0.
  pose proof (len_nonneg pre) as Hp0. set (tail := concat (encMember <$> xs)) in *. pose proof (len_nonneg tail).
  rewrite Z.rem_mod_nonneg in Hl by lia. pose proof (Z.mod_pos_bound (len (mb_data x)) 2 ltac:(lia)) as Hmod.
  rewrite (proj2 (Z.ltb_ge _ _)) by (rewrite !len_app; lia). destruct (scanInt_size (len (mb_data x)) ltac:(lia)) as [Hs Hscan].
  set (sz := padTo 10 _) in Hscan. assert (len sz = 10) as Hsz by (by apply len_padTo). set (nm := padTo 16 (mb_name x ++ mb_end x)). assert (len nm = 16) as Hnm by (by apply len_padTo).
  set (pad := if Z.rem (len (mb_data x)) 2 =? 1 then [x0a] else []).
  assert (forall lo hi a w, (exists c, encMember x ++ tail = a ++ w ++ c) -> lo = len pre + len a -> hi = lo + len w -> slice (pre ++ encMember x ++ tail) lo hi = Ok w) as Hsl.
  { intros lo hi a w [c ->] -> ->. rewrite app_assoc. apply slice_app_at; rewrite len_app; lia. }
  assert (encMember x ++ tail = nm ++ mb_meta x ++ sz ++ memberMagic ++ mb_data x ++ pad ++ tail) as Ee by (unfold encMember, sz, nm, pad; by rewrite <- !app_assoc).
  rewrite (Hsl (len pre) (len pre + 16) [] nm) by (first [by rewrite Ee; eexists|rewrite ?len_nil; lia]).
  rewrite (Hsl (len pre + 48) (len pre + 58) (nm ++ mb_meta x) sz) by (first [by rewrite Ee; eexists; rewrite <- !app_assoc|rewrite ?len_app; lia]).
  rewrite (Hsl (len pre + 58) (len pre + 60) (nm ++ mb_meta x ++ sz) memberMagic) by (first [by rewrite Ee; eexists; rewrite <- !app_assoc|rewrite ?len_app; change (len memberMagic) with 2; lia]).
  cbv zeta. rewrite bool_decide_eq_true_2 by done. cbn [negb]. rewrite Hscan. unfold nm, padTo. rewrite TrimRight_name by done.
  rewrite (proj2 (Z.ltb_ge _ _)) by (rewrite !len_app, Hl; lia). cbn [firstMember]. destruct (HasPrefix (mb_name x) prefix).
  - rewrite (Hsl (len pre + 60) (len pre + 60 + len (mb_data x)) (nm ++ mb_meta x ++ sz ++ memberMagic) (mb_data x))
      by (first [by rewrite Ee; eexists; rewrite <- !app_assoc|rewrite ?len_app; change (len memberMagic) with 2; lia]). done.
  - assert ((if Z.rem (len pre + 60 + len (mb_data x)) 2 =? 1 then len pre + 60 + len (mb_data x) + 1 else len pre + 60 + len (mb_data x)) = len (pre ++ encMember x)) as ->.
    { rewrite len_app, Hl. rewrite Z.rem_mod_nonneg in Hev |- * by lia.
      replace (len pre + 60 + len (mb_data x)) with (len (mb_data x) + (30 + len pre / 2) * 2) by (pose proof (Z.div_mod (len pre) 2); lia).
      rewrite Z.mod_add by lia. pose proof (Z.div_mod (len pre) 2). destruct (Z.eqb_spec (len (mb_data x) mod 2) 1); lia. }
    rewrite app_assoc. apply IH; [done|cbn in Hk; lia|]. rewrite len_app, Hl. rewrite Z.rem_mod_nonneg in Hev |- * by lia.
    replace (len pre + (60 + len (mb_data x) + len (mb_data x) mod 2)) with (len pre + (30 + len (mb_data x) / 2 + len (mb_data x) mod 2) * 2) by (pose proof (Z.div_mod (len (mb_data x)) 2); lia).
    by rewrite Z.mod_add.
Qed.

(** C38. In an archive as dpkg or GNU ar writes it, with members of even and odd sizes
    and names with or without a closing slash, the search ends after at most one
    step per member and returns the data and the name of the first member whose name
    starts with the prefix, or reports that there is none. *)
Theorem ar_member_found xs prefix :
  Forall wfMember xs -> arFindMember (S (length xs)) (encAr xs) prefix = Some (firstMember prefix xs).
Proof.
  intros Hxs. unfold arFindMember, encAr. rewrite (proj2 (Z.ltb_ge _ 8)) by (rewrite len_app; change (len arMagic) with 8; pose_lens; pose proof (len_nonneg (concat (encMember <$> xs))); lia).
  change (take 8 (arMagic ++ concat (encMember <$> xs))) with arMagic. rewrite bool_decide_eq_true_2 by done. cbn [negb orb].
  change 8 with (len arMagic). apply arLoop_members; [done|lia|done].
Qed.

Definition demoDeb : list member :=
  [mkMember [] (str "/") (repeat x30 32) (str "symbols"); mkMember (str "debian-binary") [] (repeat x30 32) (str "2.0" ++ [x0a]);
   mkMember (str "control.tar.gz") (str "/") (repeat x30 32) (str "odd"); mkMember (str "data.tar.xz") (str "/") (repeat x30 32) (str "kernel")].
Lemma ar_member_found_witness : arFindMember 5 (encAr demoDeb) (str "data.tar.") = Some (Ok (str "kernel", str "data.tar.xz")).
Proof.
  apply (ar_member_found demoDeb (str "data.tar.")).
  repeat (apply Forall_cons; split; [split; [vm_compute; lia|split; [intros b [= <-]; split; discriminate || intros b; discriminate|split; [|split; reflexivity]]]|]);
    [right; left; reflexivity|left; reflexivity|right; left; reflexivity|right; left; reflexivity|apply Forall_nil_2].
Defined.

(** A member header whose size field holds a negative number is accepted, and
    the search goes back over the same header for ever: no number of iterations
    is enough. *)
Definition evilDeb : list byte := arMagic ++ padTo 16 (str "x") ++ repeat x30 32 ++ padTo 10 (str "-60") ++ memberMagic.
Theorem ar_negative_size_hangs fuel : arFindMember fuel evilDeb (str "data.tar.") = None.
Proof.
  unfold arFindMember. assert ((len evilDeb <? 8) || negb (bool_decide (take 8 evilDeb = arMagic)) = false) as -> by (vm_compute; reflexivity).
  assert (forall f, arLoop (S f) evilDeb (str "data.tar.") 8 = arLoop f evilDeb (str "data.tar.") 8) as Hstep.
  { intros f. cbn [arLoop]. assert ((len evilDeb <? 8 + 60) = false) as -> by (vm_compute; reflexivity).
    assert (slice evilDeb 8 (8 + 16) = Ok (padTo 16 (str "x"))) as -> by (vm_compute; reflexivity).
    assert (slice evilDeb (8 + 48) (8 + 58) = Ok (padTo 10 (str "-60"))) as -> by (vm_compute; reflexivity).
    assert (slice evilDeb (8 + 58) (8 + 60) = Ok memberMagic) as -> by (vm_compute; reflexivity).
    cbv zeta. rewrite bool_decide_eq_true_2 by done. cbn [negb].
    assert (scanInt (TrimSpace (padTo 10 (str "-60"))) = Some (-60)) as -> by (vm_compute; reflexivity).
    change (8 + 60 + -60) with 8. assert ((len evilDeb <? 8) = false) as -> by (vm_compute; reflexivity).
    assert (HasPrefix (TrimRight (padTo 16 (str "x")) (str " /")) (str "data.tar.") = false) as -> by (vm_compute; reflexivity). reflexivity. }
  induction fuel as [|f IH]; [reflexivity|by rewrite Hstep].
Qed.
