(* ===== verification/PackStub.v ===== *)
(** * The self-extracting stub

    cmd/efipackstub: findPayloadOnDisk, hasPayloadMagic, trimNUL, the header
    checks of run and decodePayload, as functions of the file's bytes; StubBoot.v
    has the stub as a program over the firmware.  A slice of the file is where it
    begins and its bytes, since the compressed bytes are read again later.  The
    three decompressors are parameters. *)

From S2P Require Import Prelude GoStr LittleEndian.

Definition payloadMagic : list byte := str "CBP0".
Definition payloadHeaderSize : Z := 24.
Definition algoFlat : list byte := str "FLAT".
Definition algoLZFSE : list byte := str "LZFS".
Definition algoLZ4 : list byte := str "LZ4 ".
Definition efiPageSize : Z := 4096.

(** [binary.LittleEndian.Uint16(b[off:])] and [Uint32]. *)
Definition le16At (b : list byte) (off : Z) : out Z :=
  let* s := sliceFrom b off in
  match s with b0 :: b1 :: _ => Ok (Z.lor (b2z b0) (Z.shiftl (b2z b1) 8)) | _ => Panic end.
Definition le32At (b : list byte) (off : Z) : out Z := let* s := sliceFrom b off in leU32 s.

Fixpoint trimNUL (b : list byte) : list byte :=
  match b with [] => [] | c :: r => if decide (c = x00) then [] else c :: trimNUL r end.
Definition hasPayloadMagic (b : list byte) : bool := if len b <? 4 then false else bool_decide (take 4 b = payloadMagic).

Definition payloadName : list byte := str ".payload".

(** The loop over the section table. *)
Fixpoint sectionLoop (k : nat) (pe : list byte) (off : Z) : out (option (Z * list byte)) :=
  match k with
  | O => Ok None
  | S k =>
      let* nameBuf := slice pe off (off + 8) in
      if negb (bool_decide (trimNUL nameBuf = payloadName)) then sectionLoop k pe (off + 40)
      else
        let* rsize := le32At pe (off + 16) in
        let* foff := le32At pe (off + 20) in
        if rsize =? 0 then Ok None
        else if len pe <? foff + rsize then Ok None
        else
          let* body := slice pe foff (u32 (foff + rsize)) in
          if negb (hasPayloadMagic body) then Ok None else Ok (Some (foff, body))
  end.

Definition findPayloadOnDisk (pe : list byte) : out (option (Z * list byte)) :=
  if len pe <? 0x40 then Ok None
  else
    let* m := idx pe 0 in
    let* z := idx pe 1 in
    if negb (m =? 0x4D) || negb (z =? 0x5A) then Ok None
    else
      let* elfanew := le32At pe 0x3C in
      if len pe <? elfanew + 4 + 20 then Ok None
      else
        let* sig := slice pe elfanew (u32 (elfanew + 4)) in
        if negb (bool_decide (sig = str "PE" ++ [x00; x00])) then Ok None
        else
          let coffOff := elfanew + 4 in
          let* numSections := le16At pe (coffOff + 2) in
          let* sizeOfOpt := le16At pe (coffOff + 16) in
          let secTableStart := coffOff + 20 + sizeOfOpt in
          if len pe <? secTableStart + numSections * 40 then Ok None
          else sectionLoop (Z.to_nat numSections) pe secTableStart.

(** The checks of run: the algorithm, where the compressed bytes begin in the file
    and how many they are, and the uncompressed size, or [None] for EFI_ABORTED. *)
Definition stubHeader (pe : list byte) : out (option (list byte * Z * Z * Z)) :=
  let* p := findPayloadOnDisk pe in
  match p with
  | None => Ok None
  | Some (foff, payload) =>
      if len payload <? payloadHeaderSize then Ok None
      else
        let* magic := slice payload 0 4 in
        if negb (bool_decide (magic = payloadMagic)) then Ok None
        else
          let* algo := slice payload 4 8 in
          if negb (bool_decide (algo = algoFlat) || bool_decide (algo = algoLZ4) || bool_decide (algo = algoLZFSE)) then Ok None
          else
            let* u := slice payload 8 16 in let* uncompressedSize := leU64 u in
            let* c := slice payload 16 24 in let* compressedSize := leU64 c in
            if len payload - payloadHeaderSize <? compressedSize then Ok None
            else if uncompressedSize =? 0 then Ok None
            else
              let* compressed := slice payload payloadHeaderSize (payloadHeaderSize + s64 compressedSize) in
              Ok (Some (algo, foff + payloadHeaderSize, len compressed, uncompressedSize))
  end.

Section stub.
(** What compress/flate delivers of a stream before it stops, and whether it stops
    with io.EOF; lz4.DecompressBlock, given the length of the destination; and
    lzfse.Decompress. *)
Variable flate : list byte -> list byte * bool.
Variable lz4 : list byte -> Z -> option (list byte).
Variable lzfse : list byte -> option (list byte).

(** decodePayload into a buffer of [n] bytes that reports success: the bytes the
    buffer holds afterwards. *)
Definition decodesTo (algo compressed : list byte) (n : Z) (img : list byte) : Prop :=
  len img = n /\
  (algo = algoFlat /\ flate compressed = (img, true) \/ algo = algoLZ4 /\ lz4 compressed n = Some img \/
   algo = algoLZFSE /\ lzfse compressed = Some img).
End stub.

(** ** The payload of a file *)

(** The headers of a PE file, its section table, and the first section of the name:
    an image of [n] bytes, packed by [algo] into the [size] bytes at [off]. *)
Definition payloadAt (pe algo : list byte) (off size n : Z) : Prop :=
  let e := littleEndian (bytesAt pe 0x3C 4) in
  let row i := e + 24 + littleEndian (bytesAt pe (e + 20) 2) + 40 * i in
  bytesAt pe 0 2 = str "MZ" /\ bytesAt pe e 4 = str "PE" ++ [x00; x00] /\
  exists i, 0 <= i < littleEndian (bytesAt pe (e + 6) 2) /\
    bytesAt pe (row i) 8 = str ".payload" /\ (forall j, 0 <= j < i -> bytesAt pe (row j) 8 <> str ".payload") /\
    let start := littleEndian (bytesAt pe (row i + 20) 4) in
    let held := littleEndian (bytesAt pe (row i + 16) 4) in
    start + held <= len pe /\ bytesAt pe start 4 = str "CBP0" /\ bytesAt pe (start + 4) 4 = algo /\
    n = littleEndian (bytesAt pe (start + 8) 8) /\ size = littleEndian (bytesAt pe (start + 16) 8) /\
    off = start + 24 /\ 24 + size <= held.

Lemma le32At_ok b off : 0 <= off -> off + 4 <= len b ->
  le32At b off = Ok (littleEndian (bytesAt b off 4)) /\ 0 <= littleEndian (bytesAt b off 4) < 2 ^ 32.
Proof.
  intros Ho Hb. unfold le32At. rewrite sliceFrom_len by lia. cbn [out_bind]. split.
  - rewrite leU32_value; [done|]. rewrite length_drop. unfold len in Hb. lia.
  - pose proof (littleEndian_range (bytesAt b off 4)) as Hr. rewrite length_bytesAt in Hr by lia. exact Hr.
Qed.
Lemma le16At_ok b off : 0 <= off -> off + 2 <= len b ->
  le16At b off = Ok (littleEndian (bytesAt b off 2)) /\ 0 <= littleEndian (bytesAt b off 2) < 2 ^ 16.
Proof.
  intros Ho Hb. unfold le16At. rewrite sliceFrom_len by lia. cbn [out_bind]. split.
  - unfold bytesAt. assert (2 <= len (drop (Z.to_nat off) b)) as Hs by (rewrite len_drop; lia). destruct (drop _ b) as [|b0 [|b1 s]]; [exfalso; vm_compute in Hs; by apply Hs..|].
    pose proof (b2z_range b0). pose proof (b2z_range b1). rewrite (lor_above _ _ 8) by lia. change (Z.to_nat 2) with 2%nat. cbn [take]. rewrite take_0. cbn [littleEndian foldr]. f_equal. lia.
  - pose proof (littleEndian_range (bytesAt b off 2)) as Hr. rewrite length_bytesAt in Hr by lia. exact Hr.
Qed.
Lemma le64_read b : len b = 8 -> leU64 b = Ok (littleEndian b) /\ 0 <= littleEndian b < 2 ^ 64.
Proof.
  intros Hb. split; [|pose proof (littleEndian_range b) as Hr; rewrite Hb in Hr; exact Hr].
  assert (length b = 8%nat) as Hl by (unfold len in Hb; lia). rewrite leU64_value by lia. by rewrite firstn_all2 by lia.
Qed.

Lemma trimNUL_prefix b : exists r, b = trimNUL b ++ r.
Proof. induction b as [|c b [r IH]]; cbn [trimNUL]; [by exists []|]. destruct (decide _); [by eexists|]. exists r. cbn [app]. by rewrite <- IH. Qed.
Lemma trimNUL_name b : len b = 8 -> bool_decide (trimNUL b = payloadName) = bool_decide (b = str ".payload").
Proof.
  intros Hb. apply bool_decide_ext. split; [|by intros ->]. intros E. destruct (trimNUL_prefix b) as [r Hr]. rewrite E in Hr. rewrite Hr, len_app in Hb.
  change (len payloadName) with 8 in Hb. destruct r; [by rewrite app_nil_r in Hr|]. rewrite len_cons in Hb. pose proof (len_nonneg r). lia.
Qed.
Lemma hasPayloadMagic_take b : hasPayloadMagic b = true -> 4 <= len b /\ take 4 b = str "CBP0".
Proof. unfold hasPayloadMagic. destruct (Z.ltb_spec (len b) 4); [done|]. by intros ?%bool_decide_eq_true. Qed.

(** The first row of the name, from row [i] on. *)
Lemma sectionLoop_spec pe row0 k : forall i, len pe < 2 ^ 32 -> 0 <= row0 -> 0 <= i -> row0 + 40 * (i + Z.of_nat k) <= len pe ->
  exists r, sectionLoop k pe (row0 + 40 * i) = Ok r /\ forall start body, r = Some (start, body) ->
    exists j, i <= j < i + Z.of_nat k /\ bytesAt pe (row0 + 40 * j) 8 = str ".payload" /\
      (forall j', i <= j' < j -> bytesAt pe (row0 + 40 * j') 8 <> str ".payload") /\
      start = littleEndian (bytesAt pe (row0 + 40 * j + 20) 4) /\ 0 <= start /\
      start + littleEndian (bytesAt pe (row0 + 40 * j + 16) 4) <= len pe /\
      body = bytesAt pe start (littleEndian (bytesAt pe (row0 + 40 * j + 16) 4)) /\ hasPayloadMagic body = true.
Proof.
  induction k as [|k IH]; intros i Hpe H0 Hi Hk; cbn [sectionLoop]; [by eexists|]. rewrite slice_bytesAt by lia. cbn [out_bind].
  replace (row0 + 40 * i + 8 - (row0 + 40 * i)) with 8 by lia. rewrite trimNUL_name by (apply length_bytesAt; lia). case_bool_decide as En; cbn [negb].
  - destruct (le32At_ok pe (row0 + 40 * i + 16)) as [-> Hrs]; [lia|lia|]. cbn [out_bind]. destruct (le32At_ok pe (row0 + 40 * i + 20)) as [-> Hfo]; [lia|lia|]. cbn [out_bind].
    set (rs := littleEndian _) in *. set (fo := littleEndian (bytesAt _ (_ + 20) _)) in *. destruct (Z.eqb_spec rs 0); [by eexists|]. destruct (Z.ltb_spec (len pe) (fo + rs)); [by eexists|].
    unfold u32. rewrite Z.mod_small by lia. rewrite slice_bytesAt by lia. cbn [out_bind]. replace (fo + rs - fo) with rs by lia.
    destruct (hasPayloadMagic _) eqn:Em; cbn [negb]; (eexists; split; [reflexivity|]); [|done]. intros ? ? [= <- <-]. exists i. fold rs. split_and!; try done; lia.
  - replace (row0 + 40 * i + 40) with (row0 + 40 * (i + 1)) by lia. destruct (IH (i + 1)) as (r & Er & Hr); [lia..|]. exists r. split; [done|]. intros start body E.
    destruct (Hr start body E) as (j & Hj & Hn & Hbefore & Hrest). exists j. split; [lia|]. split; [done|]. split; [|done]. intros j' Hj'.
    destruct (Z.eq_dec j' i) as [->|]; [done|]. apply Hbefore. lia.
Qed.

Lemma first_two b : 2 <= len b -> (let* m := idx b 0 in let* z := idx b 1 in Ok (negb (m =? 0x4D) || negb (z =? 0x5A))) =
  Ok (negb (bool_decide (bytesAt b 0 2 = str "MZ"))).
Proof.
  intros Hb. rewrite !idx_ok by lia. cbn [out_bind]. destruct b as [|x [|y b]]; [exfalso; vm_compute in Hb; by apply Hb..|]. f_equal.
  change (nth (Z.to_nat 0) (x :: y :: b) x00) with x. change (nth (Z.to_nat 1) (x :: y :: b) x00) with y. change (bytesAt (x :: y :: b) 0 2) with [x; y].
  destruct (Z.eqb_spec (b2z x) 77) as [Ex|Ex]; cbn [negb orb]; [|rewrite bool_decide_eq_false_2; [done|intros [= -> ->]; by apply Ex]].
  destruct (Z.eqb_spec (b2z y) 90) as [Ey|Ey]; cbn [negb orb]; [|rewrite bool_decide_eq_false_2; [done|intros [= -> ->]; by apply Ey]].
  rewrite bool_decide_eq_true_2; [done|]. assert (x = x4d) as -> by by apply b2z_inj. assert (y = x5a) as -> by by apply b2z_inj. done.
Qed.

(** The headers, and the section that findPayloadOnDisk finds. *)
Lemma findPayload_spec pe : len pe < 2 ^ 32 ->
  exists r, findPayloadOnDisk pe = Ok r /\ forall start body, r = Some (start, body) ->
    let e := littleEndian (bytesAt pe 0x3C 4) in
    let row i := e + 24 + littleEndian (bytesAt pe (e + 20) 2) + 40 * i in
    bytesAt pe 0 2 = str "MZ" /\ bytesAt pe e 4 = str "PE" ++ [x00; x00] /\
    exists j, 0 <= j < littleEndian (bytesAt pe (e + 6) 2) /\ bytesAt pe (row j) 8 = str ".payload" /\
      (forall j', 0 <= j' < j -> bytesAt pe (row j') 8 <> str ".payload") /\
      start = littleEndian (bytesAt pe (row j + 20) 4) /\ 0 <= start /\
      start + littleEndian (bytesAt pe (row j + 16) 4) <= len pe /\
      body = bytesAt pe start (littleEndian (bytesAt pe (row j + 16) 4)) /\ hasPayloadMagic body = true.
Proof.
  intros Hpe. unfold findPayloadOnDisk. destruct (Z.ltb_spec (len pe) 0x40); [by eexists|]. pose proof (first_two pe ltac:(lia)) as Hmz.
  rewrite !idx_ok in * by lia. cbn [out_bind] in *. injection Hmz as ->. case_bool_decide as Emz; cbn [negb]; [|by eexists].
  destruct (le32At_ok pe 0x3C) as [-> He]; [lia|lia|]. cbn [out_bind]. set (e := littleEndian (bytesAt pe 0x3C 4)) in *.
  destruct (Z.ltb_spec (len pe) (e + 4 + 20)); [by eexists|]. unfold u32. rewrite Z.mod_small by lia. rewrite slice_bytesAt by lia. cbn [out_bind].
  replace (e + 4 - e) with 4 by lia. case_bool_decide as Esig; cbn [negb]; [|by eexists]. cbv zeta. destruct (le16At_ok pe (e + 4 + 2)) as [-> Hns]; [lia|lia|]. cbn [out_bind].
  destruct (le16At_ok pe (e + 4 + 16)) as [-> Hso]; [lia|lia|]. cbn [out_bind]. replace (e + 4 + 2) with (e + 6) in * by lia. replace (e + 4 + 16) with (e + 20) in * by lia.
  set (ns := littleEndian (bytesAt pe (e + 6) 2)) in *. set (so := littleEndian (bytesAt pe (e + 20) 2)) in *.
  destruct (Z.ltb_spec (len pe) (e + 4 + 20 + so + ns * 40)); [by eexists|]. replace (e + 4 + 20 + so) with (e + 24 + so + 40 * 0) by lia.
  destruct (sectionLoop_spec pe (e + 24 + so) (Z.to_nat ns) 0) as (r & Er & Hr); [lia..|]. exists r. split; [done|]. intros start body E.
  destruct (Hr start body E) as (j & Hj & Hrest). split; [done|]. split; [done|]. exists j. split; [lia|exact Hrest].
Qed.

(** Whatever bytes the stub finds in its own file (below 4 GiB), the search and the
    checks stay inside them: they abort, or they come up with the payload that the
    headers of the file declare, of an image that is not empty. *)
Theorem packed_header_safe pe :
  len pe < 2 ^ 32 ->
  match stubHeader pe with
  | Ok None => True
  | Ok (Some (algo, off, size, n)) => payloadAt pe algo off size n /\ 0 < n < 2 ^ 64 /\ 0 <= off /\ 0 <= size /\ off + size <= len pe
  | Err _ | Panic => False
  end.
Proof.
  intros Hpe. unfold stubHeader. destruct (findPayload_spec pe Hpe) as (r & -> & Hr). cbn [out_bind]. destruct r as [[start body]|]; [|done].
  destruct (Hr start body eq_refl) as (Hmz & Hsig & j & Hj & Hname & Hfirst & Es & Hs0 & Hfit & Eb & Hmagic). clear Hr.
  set (held := littleEndian (bytesAt _ (_ + 16) _)) in *. destruct (hasPayloadMagic_take _ Hmagic) as [H4 Hm].
  assert (0 <= held) by apply littleEndian_range. assert (len body = held) as Hlen by (rewrite Eb; apply length_bytesAt; lia).
  unfold payloadHeaderSize. destruct (Z.ltb_spec (len body) 24) as [|H24]; [done|]. rewrite !slice_bytesAt by lia. cbn [out_bind]. rewrite !Z.sub_0_r.
  assert (forall o k, 0 <= o -> 0 <= k -> o + k <= held -> bytesAt body o k = bytesAt pe (start + o) k) as Hin by (intros o k Ho Hk Hok; rewrite Eb; apply bytesAt_inner; lia).
  case_bool_decide; cbn [negb]; [|done]. destruct (negb _) eqn:Ealgo; [done|].
  change (16 - 8) with 8. change (24 - 16) with 8. change (8 - 4) with 4. rewrite !Hin by lia.
  destruct (le64_read (bytesAt pe (start + 8) 8)) as [-> Hn]; [apply length_bytesAt; lia|]. cbn [out_bind].
  destruct (le64_read (bytesAt pe (start + 16) 8)) as [-> Hk]; [apply length_bytesAt; lia|]. cbn [out_bind].
  set (n := littleEndian (bytesAt pe (start + 8) 8)) in *. set (size := littleEndian (bytesAt pe (start + 16) 8)) in *.
  destruct (Z.ltb_spec (len body - 24) size) as [|Hsz]; [done|]. destruct (Z.eqb_spec n 0); [done|].
  assert (s64 size = size) as -> by (unfold s64; rewrite Z.mod_small by lia; lia). rewrite slice_bytesAt by lia. cbn [out_bind].
  replace (24 + size - 24) with size by lia. rewrite length_bytesAt by lia. split; [|lia]. unfold payloadAt. cbv zeta. split; [done|]. split; [done|].
  exists j. split; [done|]. split; [done|]. split; [done|]. rewrite <- Es. fold held. split; [done|]. split; [|split_and!; try done; lia].
  rewrite <- (Z.add_0_r start), <- Hin by lia. exact Hm.
Qed.

(** A stub image with one section, the payload, at offset 128. *)
Definition demoPE (payload : list byte) : list byte :=
  str "MZ" ++ make 58 ++ take 4 (le64 64) ++ (str "PE" ++ [x00; x00]) ++ [x64; x86; x01; x00] ++ make 16 ++
  payloadName ++ make 8 ++ take 4 (le64 (len payload)) ++ take 4 (le64 128) ++ make 16 ++ payload.
Definition demoPayload (n : Z) (body : list byte) : list byte := payloadMagic ++ algoLZ4 ++ le64 n ++ le64 (len body) ++ body.
(** A decompressor for the demonstration: every byte stands for two of it. *)
Definition twice (b : list byte) : option (list byte) := Some (concat ((fun c => [c; c]) <$> b)).

Lemma packed_header_safe_witness :
  let pe := demoPE (demoPayload 6 (str "abc")) in
  stubHeader pe = Ok (Some (algoLZ4, 152, 3, 6)) /\ payloadAt pe (str "LZ4 ") 152 3 6 /\ bytesAt pe 152 3 = str "abc".
Proof.
  cbv zeta. assert (stubHeader (demoPE (demoPayload 6 (str "abc"))) = Ok (Some (algoLZ4, 152, 3, 6))) as E by (vm_compute; reflexivity).
  split; [exact E|]. split; [|vm_compute; reflexivity]. pose proof (packed_header_safe (demoPE (demoPayload 6 (str "abc"))) ltac:(vm_compute; reflexivity)) as H.
  rewrite E in H. exact (proj1 H).
Defined.
