(* ===== verification/BlkRing.v ===== *)
(** * The block-device log

    uefiboard/blkprintk.go (the ring and its disk frame), blkprintk_tamago.go
    (Flush, BlkPrintk), and the host tool cmd/blkprintk-recover that reads the
    frame back.  The ring is proved against a plain log of the bytes printed. *)

From S2P Require Import Prelude Effects LittleEndian.

Definition BlkRingCapacity : Z := 32 * 1024.
Definition BlkRingHeaderSize : Z := 16.
Definition BlkRingPayloadCapacity : Z := BlkRingCapacity - BlkRingHeaderSize.
Definition BlkSentinel : byte := x04.
Definition BlkAutoFlushBytes : Z := 4096.
(** cloudboot-M1.6 and two zero bytes *)
Definition BlkPrintkScratchMagic : list byte :=
  [x63; x6c; x6f; x75; x64; x62; x6f; x6f; x74; x2d; x4d; x31; x2e; x36; x00; x00].

(** ** The ring *)

Record BlkRingBuffer := mkRing {
  r_payload : list byte;
  r_head : Z;
  r_total : Z;
  r_writeCount : Z;
  r_blockIO : Z;
  r_mediaID : Z;
  r_lba : Z;
  r_blockSize : Z;
  r_pendingAutoFlush : Z
}.

Definition NewBlkRingBuffer : BlkRingBuffer := mkRing (make BlkRingPayloadCapacity) 0 0 0 0 0 0 0 0.

Definition BindBlockIO (blockIO mediaID blockSize lba : Z) (r : BlkRingBuffer) : out BlkRingBuffer :=
  ret_if (blockSize =? 0) || negb (BlkRingCapacity mod blockSize =? 0) with ErrBufferSizeMismatch;;
  Ok (mkRing (r_payload r) (r_head r) (r_total r) (r_writeCount r) blockIO mediaID lba blockSize (r_pendingAutoFlush r)).

Definition IsBound (r : BlkRingBuffer) : bool := negb (r_blockIO r =? 0).
Definition Wrapped (r : BlkRingBuffer) : bool := BlkRingPayloadCapacity <? r_total r.

(** [copy(out[lo:hi], src)] is [copyAt out lo hi src]. *)
Definition PayloadBytes (r : BlkRingBuffer) : out (list byte) :=
  let n := if BlkRingPayloadCapacity <? r_total r then BlkRingPayloadCapacity else r_total r in
  let outb := make n in
  if negb (Wrapped r) then
    let* src := sliceTo (r_payload r) (r_head r) in
    Ok (copy outb src)
  else
    let first := BlkRingPayloadCapacity - r_head r in
    let* src := sliceFrom (r_payload r) (r_head r) in
    let* outb := copyAt outb 0 first src in
    let* src := sliceTo (r_payload r) (r_head r) in
    copyAt outb first (len outb) src.

Definition Append (b : byte) (r : BlkRingBuffer) : out BlkRingBuffer :=
  let* p := setAt (r_payload r) (r_head r) (b2z b) in
  let h := r_head r + 1 in
  let h := if h =? BlkRingPayloadCapacity then 0 else h in
  Ok (mkRing p h (u64 (r_total r + 1)) (r_writeCount r) (r_blockIO r) (r_mediaID r) (r_lba r) (r_blockSize r)
    (r_pendingAutoFlush r + 1)).

Fixpoint AppendString (s : list byte) (r : BlkRingBuffer) : out BlkRingBuffer :=
  match s with
  | [] => Ok r
  | b :: s => let* r := Append b r in AppendString s r
  end.

Definition AutoFlushReady (r : BlkRingBuffer) : bool := BlkAutoFlushBytes <=? r_pendingAutoFlush r.
Definition ResetAutoFlush (r : BlkRingBuffer) : BlkRingBuffer :=
  mkRing (r_payload r) (r_head r) (r_total r) (r_writeCount r) (r_blockIO r) (r_mediaID r) (r_lba r) (r_blockSize r) 0.
Definition IncrementWriteCount (r : BlkRingBuffer) : BlkRingBuffer :=
  mkRing (r_payload r) (r_head r) (r_total r) (u64 (r_writeCount r + 1)) (r_blockIO r) (r_mediaID r) (r_lba r) (r_blockSize r)
    (r_pendingAutoFlush r).

Definition Serialize (r : BlkRingBuffer) : out (list byte) :=
  let outb := make BlkRingCapacity in
  let* outb := putLE64At outb 0 (r_writeCount r) in
  let* payload := PayloadBytes r in
  let* outb := putLE64At outb 8 (len payload) in
  copyAt outb BlkRingHeaderSize (len outb) payload.

Definition DecodeBlkRingFrame (frame : list byte) : out (Z * list byte) :=
  ret_if len frame <? BlkRingHeaderSize with ErrBlkFrameShortHeader;;
  let* w := slice frame 0 8 in
  let* writeCount := leU64 w in
  let* w := slice frame 8 16 in
  let* n := leU64 w in
  ret_if BlkRingPayloadCapacity <? n with ErrBlkFramePayloadTooBig;;
  ret_if len frame <? BlkRingHeaderSize + n with ErrBlkFrameShortPayload;;
  let* p := slice frame BlkRingHeaderSize (BlkRingHeaderSize + n) in
  Ok (writeCount, copy (make n) p).

(** ** The recovery tool (cmd/blkprintk-recover) *)

(** magicAtOffset0, which is also phase2_blkprintk.go's matchesScratchMagic. *)
Definition magicAtOffset0 (frame : list byte) : bool :=
  if len frame <? len BlkPrintkScratchMagic then false
  else bool_decide (take (length BlkPrintkScratchMagic) frame = BlkPrintkScratchMagic).

(** runStreams on the bytes of the disk image: the counter and what goes to
    standard output.  io.ReadFull fails on a short image. *)
Definition recover (image : list byte) : out (Z * list byte) :=
  ret_if len image <? BlkRingCapacity with ErrUnexpectedEOF;;
  let frame := take (Z.to_nat BlkRingCapacity) image in
  ret_if magicAtOffset0 frame with ErrProbeNotRun;;
  DecodeBlkRingFrame frame.

(** ** Flushing *)

(** The firmware's block device: WriteBlocks and FlushBlocks. *)
Class BlockDev (D : Type) := {
  BlockIOWriteBlocks : Z -> Z -> Z -> list byte -> M D unit;
  BlockIOFlushBlocks : Z -> M D unit
}.

Section flush.
Context {D : Type} `{BlockDev D}.
Abbreviation SinkM A := (M (BlkRingBuffer * D) A).

Definition onDev {A} (m : M D A) : SinkM A := zoom snd (fun d s => (fst s, d)) m.
Definition updRing (f : BlkRingBuffer -> BlkRingBuffer) : SinkM unit := modify (fun s => (f (fst s), snd s)).

Definition Flush : SinkM unit :=
  r <- gets fst ;;
  throw_if negb (IsBound r) with ErrNoBlockIOSink;;
  updRing IncrementWriteCount ;;;
  r <- gets fst ;;
  frame <- lift (Serialize r) ;;
  onDev (BlockIOWriteBlocks (r_blockIO r) (r_mediaID r) (r_lba r) frame) ;;;
  onDev (BlockIOFlushBlocks (r_blockIO r)) ;;;
  updRing ResetAutoFlush.

Definition BlkPrintk (b : byte) : SinkM unit :=
  r <- gets fst ;;
  r <- lift (Append b r) ;;
  updRing (fun _ => r) ;;;
  if decide (b = BlkSentinel) then ignore Flush
  else if AutoFlushReady r then ignore Flush else ret tt.

(** A run of prints. *)
Fixpoint printks (s : list byte) : SinkM unit :=
  match s with
  | [] => ret tt
  | b :: s => BlkPrintk b ;;; printks s
  end.
End flush.

(** ** The ring against the log *)

(** The newest bytes of the log that fit. *)
Definition newest (log : list byte) : list byte := drop (length log - Z.to_nat BlkRingPayloadCapacity) log.

(** The ring holds the log: below capacity the log is the front of the array;
    from then on the array, read from the head and around, ends the log. *)
Definition ringOf (r : BlkRingBuffer) (log : list byte) : Prop :=
  r_total r = len log /\
  exists pre post, r_payload r = pre ++ post /\ r_head r = len pre /\ post <> [] /\
    len pre + len post = BlkRingPayloadCapacity /\
    (len log < BlkRingPayloadCapacity -> pre = log) /\ (len log = BlkRingPayloadCapacity -> pre = []) /\
    (BlkRingPayloadCapacity <= len log -> exists old, log = old ++ post ++ pre).

Lemma cap_pos : 0 < BlkRingPayloadCapacity.
Proof. done. Qed.

Lemma setAt_at pre x post v : setAt (pre ++ x :: post) (len pre) v = Ok (pre ++ z2b v :: post).
Proof.
  unfold setAt. rewrite (proj2 (Z.leb_le _ _)), (proj2 (Z.ltb_lt _ _)) by len_lia. cbn [andb]. f_equal.
  unfold len. rewrite Nat2Z.id, take_app_length. f_equal. f_equal.
  rewrite drop_app_ge by lia. replace (length pre + 1 - length pre)%nat with 1%nat by lia. done.
Qed.

Lemma NewBlkRingBuffer_of : ringOf NewBlkRingBuffer [].
Proof.
  split; [done|]. exists [], (make BlkRingPayloadCapacity).
  split_and!; [done|done|intros E; by apply (f_equal length) in E|done|done|done|]. cbn. pose proof cap_pos. unfold len. cbn. lia.
Qed.

Lemma Append_of b r log :
  ringOf r log -> len log + 1 < 2 ^ 64 ->
  exists r', Append b r = Ok r' /\ ringOf r' (log ++ [b]) /\
    r_writeCount r' = r_writeCount r /\ r_blockIO r' = r_blockIO r /\ r_mediaID r' = r_mediaID r /\ r_lba r' = r_lba r /\
    r_pendingAutoFlush r' = r_pendingAutoFlush r + 1.
Proof.
  intros (Ht & pre & post & Ep & Eh & Hne & Hcap & Hlt & Heq & Hge) Hlog. destruct post as [|x post]; [done|].
  unfold Append. rewrite Ep, Eh, setAt_at, z2b_b2z. cbn [out_bind]. eexists. split; [reflexivity|].
  split; [|done]. split; [cbn; rewrite Ht; unfold u64; rewrite Z.mod_small; len_lia|]. cbn [r_payload r_head].
  rewrite len_cons in Hcap. destruct post as [|y post].
  - exists [], (pre ++ [b]). rewrite len_app. change (len [b]) with 1. change (len (@nil byte)) with 0 in *.
    rewrite (proj2 (Z.eqb_eq _ _)) by lia. split_and!; [done|done|by destruct pre|lia| |done|].
    + rewrite len_app. change (len [b]) with 1. intros Hl. rewrite (Hlt ltac:(lia)) in *. lia.
    + rewrite len_app. change (len [b]) with 1. intros Hl. destruct (Z.lt_ge_cases (len log) BlkRingPayloadCapacity) as [Hs|Hs].
      * exists []. cbn. rewrite app_nil_r. by rewrite (Hlt Hs).
      * destruct (Hge Hs) as [old ->]. exists (old ++ [x]). by rewrite app_nil_r, <- !app_assoc.
  - exists (pre ++ [b]), (y :: post). rewrite len_app. change (len [b]) with 1. rewrite !len_cons in *. pose_lens.
    rewrite (proj2 (Z.eqb_neq _ _)) by lia. split_and!; [by rewrite <- app_assoc|done|done|lia| | |].
    + rewrite len_app. change (len [b]) with 1. intros Hl. by rewrite Hlt by lia.
    + rewrite len_app. change (len [b]) with 1. intros Hl. rewrite (Hlt ltac:(lia)) in *. lia.
    + rewrite len_app. change (len [b]) with 1. intros Hl. destruct (Z.lt_ge_cases (len log) BlkRingPayloadCapacity) as [Hs|Hs].
      * rewrite (Hlt Hs) in *. lia.
      * destruct (Hge Hs) as [old ->]. exists (old ++ [x]). by rewrite <- !app_assoc.
Qed.

Lemma AppendString_of s r log :
  ringOf r log -> len log + len s < 2 ^ 64 ->
  exists r', AppendString s r = Ok r' /\ ringOf r' (log ++ s) /\ r_writeCount r' = r_writeCount r.
Proof.
  revert r log. induction s as [|b s IH]; intros r log Hr Hl; cbn [AppendString].
  { exists r. by rewrite app_nil_r. }
  rewrite len_cons in Hl. pose_lens. destruct (Append_of b r log Hr ltac:(lia)) as (r1 & -> & Hr1 & Hc & _). cbn [out_bind].
  destruct (IH r1 (log ++ [b]) Hr1) as (r' & E & Hr' & Hc'); [rewrite len_app; change (len [b]) with 1; lia|].
  exists r'. rewrite <- app_assoc in Hr'. split_and!; [done|done|congruence].
Qed.

(** What the ring reports: the newest bytes of the log; exactly at capacity the
    head is back at the front of the array and the report is all zeros. *)
Definition reported (log : list byte) : list byte :=
  if decide (len log = BlkRingPayloadCapacity) then make BlkRingPayloadCapacity else newest log.

Lemma newest_short log : len log <= BlkRingPayloadCapacity -> newest log = log.
Proof. intros Hl. unfold newest. unfold len in Hl. by replace (length log - Z.to_nat BlkRingPayloadCapacity)%nat with 0%nat by lia. Qed.
Lemma newest_app old l : len l = BlkRingPayloadCapacity -> newest (old ++ l) = l.
Proof. intros Hl. unfold newest. rewrite length_app, drop_app_length'; [done|]. unfold len in Hl. lia. Qed.

Lemma make_app a b : 0 <= a -> 0 <= b -> make (a + b) = make a ++ make b.
Proof. intros. unfold make. rewrite Z2Nat.inj_add by done. apply repeat_app. Qed.

Lemma copyAt_front src rest n :
  len src = n -> copyAt (make (n + rest)) 0 n src = Ok (src ++ make rest) \/ rest < 0.
Proof.
  intros <-. destruct (Z.lt_ge_cases rest 0); [by right|left]. rewrite make_app by (pose_lens; lia).
  rewrite copyAt_app_l by (rewrite len_make; lia). unfold copyAt. rewrite slice_full by (rewrite len_make; pose_lens; lia).
  cbn [out_bind]. rewrite copy_make. cbn. rewrite drop_ge, app_nil_r; [done|]. unfold make. rewrite repeat_length. lia.
Qed.

Lemma PayloadBytes_of r log : ringOf r log -> PayloadBytes r = Ok (reported log).
Proof.
  intros (Ht & pre & post & Ep & Eh & Hne & Hcap & Hlt & Heq & Hge). unfold PayloadBytes, Wrapped, reported. rewrite Ht, Ep, Eh.
  pose_lens. destruct (Z.ltb_spec BlkRingPayloadCapacity (len log)) as [Hw|Hw]; cbn [negb].
  - rewrite sliceFrom_app, sliceTo_app by done. cbn [out_bind]. rewrite decide_False by lia.
    destruct (Hge ltac:(lia)) as [old ->]. rewrite newest_app by (rewrite len_app; lia).
    replace BlkRingPayloadCapacity with (len post + len pre) by lia.
    replace (len post + len pre - len pre) with (len post) by lia.
    destruct (copyAt_front post (len pre) (len post) eq_refl) as [->|]; [|lia]. cbn [out_bind]. by apply copyAt_tail.
  - rewrite sliceTo_app by done. cbn [out_bind]. destruct (decide (len log = BlkRingPayloadCapacity)) as [E|E].
    + by rewrite E, (Heq E).
    + rewrite (Hlt ltac:(lia)), copy_make, newest_short by lia. done.
Qed.

Lemma reported_newest log :
  len (reported log) = Z.min BlkRingPayloadCapacity (len log) /\
  (len log <> BlkRingPayloadCapacity -> exists lost, log = lost ++ reported log) /\
  (len log = BlkRingPayloadCapacity -> reported log = make BlkRingPayloadCapacity).
Proof.
  pose proof cap_pos. pose proof (len_nonneg log). unfold reported, newest. destruct (decide _) as [E|E]; [rewrite len_make; split_and!; (done || lia)|]. split.
  - unfold len in *. rewrite length_drop. lia.
  - split; [|done]. intros _. eexists. symmetry. apply take_drop.
Qed.
Lemma reported_len log : 0 <= len (reported log) <= BlkRingPayloadCapacity.
Proof.
  pose proof cap_pos. unfold reported. destruct (decide _); [rewrite len_make; lia|].
  unfold newest, len. rewrite length_drop. lia.
Qed.

(** ** The disk frame *)

Definition frameOf (writeCount : Z) (payload : list byte) : list byte :=
  le64 writeCount ++ le64 (len payload) ++ payload ++ make (BlkRingPayloadCapacity - len payload).

Lemma frameOf_len wc p : len p <= BlkRingPayloadCapacity -> len (frameOf wc p) = BlkRingCapacity.
Proof. intros Hp. unfold frameOf. rewrite !len_app, !len_le64, len_make. unfold BlkRingPayloadCapacity, BlkRingHeaderSize in *. pose_lens. lia. Qed.

Lemma Serialize_of r log : ringOf r log -> Serialize r = Ok (frameOf (r_writeCount r) (reported log)).
Proof.
  intros Hr. unfold Serialize. pose proof (reported_len log) as Hl.
  assert (make BlkRingCapacity = make 8 ++ make 8 ++ make (len (reported log) + (BlkRingPayloadCapacity - len (reported log)))) as ->.
  { rewrite <- !make_app by lia. f_equal. unfold BlkRingPayloadCapacity, BlkRingHeaderSize. lia. }
  rewrite putLE64At_front by done. cbn [out_bind].
  rewrite (PayloadBytes_of r log Hr). cbn [out_bind].
  change 8 with (len (le64 (r_writeCount r))) at 1. rewrite putLE64At_app by done. cbn [out_bind]. rewrite app_assoc.
  unfold frameOf. rewrite copyAt_within by (try done; lia). by rewrite <- app_assoc.
Qed.

(** A frame decodes to what was put into it. *)
Lemma Decode_frameOf wc p :
  0 <= wc < 2 ^ 64 -> len p <= BlkRingPayloadCapacity -> DecodeBlkRingFrame (frameOf wc p) = Ok (wc, p).
Proof.
  intros Hwc Hp. unfold DecodeBlkRingFrame. rewrite frameOf_len by done. unfold frameOf.
  change (BlkRingCapacity <? BlkRingHeaderSize) with false. cbv iota.
  change (slice (le64 wc ++ ?x) 0 8) with (sliceTo (le64 wc ++ x) 8). rewrite sliceTo_app by done. cbn [out_bind].
  rewrite <- (app_nil_r (le64 wc)) at 1. rewrite leU64_le64. cbn [out_bind].
  rewrite (slice_app_at (le64 wc) (le64 (len p))) by done. cbn [out_bind].
  rewrite <- (app_nil_r (le64 (len p))) at 1. rewrite leU64_le64. cbn [out_bind]. pose proof (len_nonneg p).
  unfold u64. rewrite !Z.mod_small by (try lia; unfold BlkRingPayloadCapacity, BlkRingCapacity, BlkRingHeaderSize in *; lia).
  rewrite (proj2 (Z.ltb_ge _ _)) by done. rewrite (proj2 (Z.ltb_ge _ _)) by (unfold BlkRingPayloadCapacity, BlkRingHeaderSize in *; lia).
  rewrite app_assoc. rewrite (slice_app_at (le64 wc ++ le64 (len p)) p) by done. cbn [out_bind]. by rewrite copy_make.
Qed.

(** The counter never looks like the scratch magic. *)
Lemma frame_not_magic wc p : 0 <= wc < 2 ^ 62 -> magicAtOffset0 (frameOf wc p) = false.
Proof.
  intros Hwc. unfold magicAtOffset0. destruct (_ <? _); [done|]. apply bool_decide_eq_false. intros E.
  apply (f_equal leU64) in E. change (take (length BlkPrintkScratchMagic) (frameOf wc p)) with
    (le64 wc ++ take 8 (le64 (len p) ++ p ++ make (BlkRingPayloadCapacity - len p))) in E.
  rewrite leU64_le64 in E. vm_compute (leU64 BlkPrintkScratchMagic) in E. injection E as E.
  unfold u64 in E. rewrite Z.mod_small in E by lia. lia.
Qed.

Lemma recover_frameOf wc p rest :
  0 <= wc < 2 ^ 62 -> len p <= BlkRingPayloadCapacity -> recover (frameOf wc p ++ rest) = Ok (wc, p).
Proof.
  intros Hwc Hp. unfold recover. pose proof (frameOf_len wc p Hp) as Hl. rewrite len_app, Hl.
  rewrite (proj2 (Z.ltb_ge _ _)) by (pose_lens; lia).
  rewrite take_app_length' by (unfold len in Hl; lia). rewrite frame_not_magic by done. apply Decode_frameOf; [lia|done].
Qed.

(** The ring refines the log: after any number of appended bytes, what it
    reports, and what a frame of it decodes to, are the newest bytes of the log
    that fit, oldest first; except exactly at capacity. *)
Theorem ring_refines_log log :
  len log < 2 ^ 64 ->
  exists r, AppendString log NewBlkRingBuffer = Ok r /\ r_total r = len log /\
    (len log <> BlkRingPayloadCapacity ->
     PayloadBytes r = Ok (newest log) /\
     exists frame, Serialize r = Ok frame /\ len frame = BlkRingCapacity /\ DecodeBlkRingFrame frame = Ok (0, newest log)).
Proof.
  intros Hl. destruct (AppendString_of log NewBlkRingBuffer [] NewBlkRingBuffer_of) as (r & E & Hr & Hc); [exact Hl|].
  exists r. split; [done|]. split; [by destruct Hr|]. intros Hne. cbn [app] in Hr.
  assert (reported log = newest log) as Er by (unfold reported; by rewrite decide_False).
  rewrite (PayloadBytes_of r log Hr), (Serialize_of r log Hr), Er, Hc. split; [done|]. eexists. split; [reflexivity|].
  pose proof (reported_len log) as Hrl. rewrite Er in Hrl. split; [apply frameOf_len; lia|apply Decode_frameOf; [done|lia]].
Qed.

Lemma ring_refines_log_witness :
  exists r, AppendString (str "uefi: ok") NewBlkRingBuffer = Ok r /\ PayloadBytes r = Ok (str "uefi: ok").
Proof.
  destruct (ring_refines_log (str "uefi: ok") ltac:(vm_compute; reflexivity)) as (r & E & _ & H).
  exists r. split; [exact E|]. destruct (H ltac:(vm_compute; discriminate)) as [Hp _]. exact Hp.
Defined.

(** A ring filled exactly to capacity reports as many zero bytes as it holds
    bytes of output: none of them are lost yet, and none are reported. *)
Theorem ring_full_reports_zeros log :
  len log = BlkRingPayloadCapacity ->
  exists r, AppendString log NewBlkRingBuffer = Ok r /\ Wrapped r = false /\ r_payload r = log /\
    PayloadBytes r = Ok (make BlkRingPayloadCapacity).
Proof.
  intros Hl. destruct (AppendString_of log NewBlkRingBuffer [] NewBlkRingBuffer_of) as (r & E & Hr & _);
    [rewrite Hl; vm_compute; reflexivity|].
  exists r. cbn [app] in Hr. rewrite (PayloadBytes_of r log Hr). unfold reported. rewrite decide_True by done.
  destruct Hr as (Ht & pre & post & Ep & _ & _ & Hcap & _ & Heq & Hge). split_and!; [done| | |done].
  - unfold Wrapped. rewrite Ht, Hl. apply Z.ltb_irrefl.
  - rewrite Ep. rewrite (Heq Hl) in *. destruct (Hge ltac:(lia)) as [old ->]. rewrite app_nil_r in *.
    rewrite len_app in Hl. change (len (@nil byte)) with 0 in Hcap. destruct old; [done|]. rewrite len_cons in Hl. pose_lens. lia.
Qed.

Definition fullLog : list byte := repeat x58 (Z.to_nat BlkRingPayloadCapacity).
Lemma ring_full_reports_zeros_witness :
  len fullLog = BlkRingPayloadCapacity /\
  exists r, AppendString fullLog NewBlkRingBuffer = Ok r /\ r_payload r = fullLog /\ PayloadBytes r = Ok (make BlkRingPayloadCapacity).
Proof.
  assert (len fullLog = BlkRingPayloadCapacity) as Hl by (unfold fullLog, len; rewrite repeat_length; apply Z2Nat.id; vm_compute; discriminate).
  split; [exact Hl|]. destruct (ring_full_reports_zeros fullLog Hl) as (r & E & _ & Hp & H).
  exists r. split; [exact E|]. split; [exact Hp|exact H].
Defined.

(** ** From print to recovery *)

(** A device that takes the writes: a frame written at block 0 is at the front
    of the image, and a flush does not change it. *)
Class ReliableDev (D : Type) `{BlockDev D} := {
  bd_image : D -> list byte;
  bd_write io m frame d : io <> 0 -> len frame = BlkRingCapacity ->
    exists d' rest, BlockIOWriteBlocks io m 0 frame d = (Ok tt, d') /\ bd_image d' = frame ++ rest;
  bd_flush io d : io <> 0 -> exists d', BlockIOFlushBlocks io d = (Ok tt, d') /\ bd_image d' = bd_image d
}.

(** A disk image in memory. *)
Definition RamDisk : Type := list byte.
#[global] Instance ram_dev : BlockDev RamDisk := {
  BlockIOWriteBlocks _ _ lba b d :=
    (Ok tt, take (Z.to_nat (lba * 512)) d ++ b ++ drop (Z.to_nat (lba * 512) + length b) d);
  BlockIOFlushBlocks _ d := (Ok tt, d)
}.
#[global] Instance ram_reliable : ReliableDev RamDisk.
Proof.
  refine {| bd_image d := d |}.
  - intros io m frame d _ _. cbn. by eexists _, _.
  - intros io d _. by exists d.
Defined.

Section recovery.
Context {D : Type} `{ReliableDev D}.

(** The ring is bound to block 0 and holds the log. *)
Definition sinkOf (r : BlkRingBuffer) (log : list byte) : Prop := ringOf r log /\ r_blockIO r <> 0 /\ r_lba r = 0.

Lemma Flush_of r (d : D) log :
  sinkOf r log -> 0 <= r_writeCount r -> r_writeCount r + 1 < 2 ^ 62 ->
  exists r' d', Flush (r, d) = (Ok tt, (r', d')) /\ sinkOf r' log /\ r_writeCount r' = r_writeCount r + 1 /\
    r_pendingAutoFlush r' = 0 /\ recover (bd_image d') = Ok (r_writeCount r + 1, reported log).
Proof.
  intros (Hr & Hio & Hlba) Hwc Hlt. unfold Flush, onDev, updRing. mrun. unfold IsBound.
  rewrite (proj2 (Z.eqb_neq _ _)) by done. cbn [negb fst snd].
  assert (ringOf (IncrementWriteCount r) log) as Hri by exact Hr.
  rewrite (Serialize_of _ log Hri). cbn [r_writeCount IncrementWriteCount r_blockIO r_mediaID r_lba].
  unfold u64. rewrite Z.mod_small by lia. pose proof (reported_len log) as Hrl.
  destruct (bd_write (r_blockIO r) (r_mediaID r) (frameOf (r_writeCount r + 1) (reported log)) d Hio) as (d1 & rest & Ew & Ei);
    [apply frameOf_len; lia|].
  unfold zoom. cbn [fst snd]. rewrite Hlba, Ew. destruct (bd_flush (r_blockIO r) d1 Hio) as (d2 & Ef & Ei2). cbn [fst snd]. rewrite Ef.
  eexists _, d2. split; [reflexivity|]. split; [done|]. cbn [fst r_writeCount ResetAutoFlush r_pendingAutoFlush IncrementWriteCount].
  unfold u64. rewrite Z.mod_small by lia. split; [done|]. split; [done|]. rewrite Ei2, Ei. apply recover_frameOf; lia.
Qed.

(** What has been flushed, [p], and what is pending, [q]. *)
Definition flushedTo (r : BlkRingBuffer) (d : D) (log : list byte) : Prop :=
  sinkOf r log /\ 0 <= r_writeCount r <= len log /\
  exists p q, log = p ++ q /\ r_pendingAutoFlush r = len q /\ len q < BlkAutoFlushBytes /\ BlkSentinel ∉ q /\
    ((p = [] /\ r_writeCount r = 0) \/ (0 < r_writeCount r /\ recover (bd_image d) = Ok (r_writeCount r, reported p))).

Lemma BlkPrintk_of b r (d : D) log :
  flushedTo r d log -> len log + 1 < 2 ^ 62 ->
  exists r' d', BlkPrintk b (r, d) = (Ok tt, (r', d')) /\ flushedTo r' d' (log ++ [b]).
Proof.
  intros ((Hr & Hio & Hlba) & Hwc & p & q & -> & Hp & Hq & Hs & Hrec) Hl.
  destruct (Append_of b r (p ++ q) Hr ltac:(lia)) as (r1 & E & Hr1 & Ec & Eio & _ & Elba & Ep).
  assert (sinkOf r1 ((p ++ q) ++ [b])) as Hs1 by (split; [done|]; rewrite Eio, Elba; done).
  assert (exists r' d', ignore Flush (r1, d) = (Ok tt, (r', d')) /\ flushedTo r' d' ((p ++ q) ++ [b])) as Hflush.
  { destruct (Flush_of r1 d _ Hs1) as (r2 & d2 & Ef & Hs2 & Hwc2 & Hp2 & Hrec2); [lia..|]. exists r2, d2. split.
    { unfold ignore, bind, try. by rewrite Ef. }
    split; [done|]. split; [rewrite len_app; change (len [b]) with 1; lia|]. exists ((p ++ q) ++ [b]), [].
    rewrite app_nil_r, Hp2. split_and!; [done|done|done|apply not_elem_of_nil|]. right. rewrite Hwc2. split; [lia|done]. }
  unfold BlkPrintk. unfold bind at 1 2 3, gets, lift. cbn [fst]. rewrite E. unfold updRing, modify. cbn [fst snd].
  destruct (decide (b = BlkSentinel)) as [|Hb]; [exact Hflush|]. unfold AutoFlushReady.
  destruct (Z.leb_spec BlkAutoFlushBytes (r_pendingAutoFlush r1)); [exact Hflush|].
  exists r1, d. split; [done|]. split; [done|]. split; [rewrite len_app; change (len [b]) with 1; lia|].
  exists p, (q ++ [b]). rewrite len_app. change (len [b]) with 1. rewrite app_assoc, Ep, Ec. split_and!; [done|lia|lia| |done].
  rewrite elem_of_app, list_elem_of_singleton. intros [?|?]; [done|]. by symmetry in H2.
Qed.

Lemma printks_of s r (d : D) log :
  flushedTo r d log -> len log + len s < 2 ^ 62 ->
  exists r' d', printks s (r, d) = (Ok tt, (r', d')) /\ flushedTo r' d' (log ++ s).
Proof.
  revert r d log. induction s as [|b s IH]; intros r d log Hf Hl; cbn [printks].
  { exists r, d. by rewrite app_nil_r. }
  rewrite len_cons in Hl. pose_lens. destruct (BlkPrintk_of b r d log Hf ltac:(lia)) as (r1 & d1 & E & Hf1).
  destruct (IH r1 d1 (log ++ [b]) Hf1) as (r2 & d2 & E2 & Hf2); [rewrite len_app; change (len [b]) with 1; lia|].
  exists r2, d2. rewrite <- app_assoc in Hf2. split; [|done]. unfold bind. by rewrite E.
Qed.

(** C24. What is printed through a bound ring on a device that takes its writes
    can be recovered from the disk image.  The output is split into what was flushed,
    [p], and at most the last 4095 bytes, with no sentinel among them.  Once anything
    was flushed, the tool returns a number of flushes and the newest bytes of [p], as
    many as the ring holds; except when [p] fills the ring exactly: then what comes
    back is zeros in place of the output, which is a defect of the ring. *)
Theorem blk_log_recoverable io mediaID blockSize (d : D) s :
  io <> 0 -> blockSize <> 0 -> BlkRingCapacity mod blockSize = 0 -> len s < 2 ^ 62 ->
  exists r r' d', BindBlockIO io mediaID blockSize 0 NewBlkRingBuffer = Ok r /\
    printks s (r, d) = (Ok tt, (r', d')) /\
    exists p q, s = p ++ q /\ len q < BlkAutoFlushBytes /\ BlkSentinel ∉ q /\
      (p <> [] -> exists wc payload, 0 < wc <= len s /\ recover (bd_image d') = Ok (wc, payload) /\
         len payload = Z.min BlkRingPayloadCapacity (len p) /\
         (len p <> BlkRingPayloadCapacity -> exists lost, p = lost ++ payload) /\
         (len p = BlkRingPayloadCapacity -> payload = make BlkRingPayloadCapacity)).
Proof.
  intros Hio Hbs Hdiv Hl. unfold BindBlockIO. rewrite (proj2 (Z.eqb_neq _ _)), Hdiv by done. cbn [orb negb Z.eqb].
  eexists. assert (flushedTo (mkRing (make BlkRingPayloadCapacity) 0 0 0 io mediaID 0 blockSize 0) d []) as Hnew.
  { split; [split; [exact NewBlkRingBuffer_of|done]|]. split; [done|]. exists [], []. split_and!; try done; [apply not_elem_of_nil|by left]. }
  destruct (printks_of s _ d [] Hnew Hl) as (r' & d' & E & _ & Hwc & p & q & Hs & _ & Hq & Hn & Hrec). cbn [app] in *.
  exists r', d'. split; [reflexivity|]. split; [exact E|]. exists p, q. split_and!; try done. intros Hp.
  destruct Hrec as [[? _]|[Hpos Hrec]]; [done|]. exists (r_writeCount r'), (reported p). split; [lia|]. split; [done|]. apply reported_newest.
Qed.
End recovery.

(** Seven bytes, the sixth the sentinel, on a two-block disk. *)
Lemma blk_log_recoverable_witness :
  exists r r' d', BindBlockIO 1 0 512 0 NewBlkRingBuffer = Ok r /\
    printks (str "probe" ++ [BlkSentinel] ++ str "!") (r, make 1024) = (Ok tt, (r', d')) /\
    exists p q, str "probe" ++ [BlkSentinel] ++ str "!" = p ++ q /\ BlkSentinel ∉ q /\ p <> [] /\
      exists wc payload, recover (bd_image d') = Ok (wc, payload) /\ exists lost, p = lost ++ payload.
Proof.
  destruct (blk_log_recoverable (D := RamDisk) 1 0 512 (make 1024) (str "probe" ++ [BlkSentinel] ++ str "!")
    ltac:(discriminate) ltac:(discriminate) ltac:(reflexivity) ltac:(vm_compute; reflexivity))
    as (r & r' & d' & E1 & E2 & p & q & E3 & _ & Hs & Hp).
  exists r, r', d'. split; [exact E1|]. split; [exact E2|]. exists p, q. split; [exact E3|]. split; [exact Hs|].
  assert (p <> []) as Hne. { intros ->. apply Hs. cbn [app] in E3. rewrite <- E3. apply elem_of_app. right. left. }
  split; [exact Hne|]. destruct (Hp Hne) as (wc & payload & _ & Hr & _ & Hn & _). exists wc, payload. split; [exact Hr|]. apply Hn.
  intros E. assert (len p <= 7) as Hl. { pose proof (len_nonneg q). assert (len (str "probe" ++ [BlkSentinel] ++ str "!") = 7) as E7 by reflexivity. rewrite E3, len_app in E7. lia. }
  rewrite E in Hl. unfold BlkRingPayloadCapacity in Hl. vm_compute in Hl. by destruct Hl.
Defined.
