(* ===== verification/MemMap.v ===== *)
(** * The firmware memory map

    uefiboard: memorymap.go (the descriptor parser, hexU64) and GetMemoryMap of
    memorymap_tamago.go.  The firmware's GetMemoryMap is a parameter: a stateful
    call that is given the size of the buffer and answers with a status, the
    out-parameters and the bytes it wrote. *)

From S2P Require Import Prelude Effects GoStr LittleEndian.

Definition efiMemoryDescriptorSize : Z := 40.
Definition EfiPageSize : Z := 4096.
Definition efiSuccess : Z := 0.
Definition efiBufferTooSmall : Z := 0x8000000000000005.

Record MemoryDescriptor := mkDesc { md_Type : Z; md_PhysicalStart : Z; md_VirtualStart : Z; md_NumberOfPages : Z; md_Attribute : Z }.
Record MemoryMap := mkMemoryMap { mm_Descriptors : list MemoryDescriptor; mm_MapKey : Z; mm_DescriptorSize : Z; mm_DescriptorVersion : Z }.

(** ** Parsing (memorymap.go) *)

(** The loop at index [i] with [k] descriptors to go. *)
Fixpoint parseFrom (buf : list byte) (descriptorSize : Z) (k : nat) (i : Z) : out (list MemoryDescriptor) :=
  match k with
  | O => Ok []
  | S k =>
      let base := i * descriptorSize in
      if len buf <? base + efiMemoryDescriptorSize then Ok []
      else
        let* b0 := slice buf base (base + 4) in let* ty := leU32 b0 in
        let* b1 := slice buf (base + 8) (base + 16) in let* ps := leU64 b1 in
        let* b2 := slice buf (base + 16) (base + 24) in let* vs := leU64 b2 in
        let* b3 := slice buf (base + 24) (base + 32) in let* np := leU64 b3 in
        let* b4 := slice buf (base + 32) (base + 40) in let* at_ := leU64 b4 in
        let* r := parseFrom buf descriptorSize k (i + 1) in
        Ok (mkDesc ty ps vs np at_ :: r)
  end.

Definition parseMemoryMap (buf : list byte) (descriptorSize : Z) : out (list MemoryDescriptor) :=
  if (len buf =? 0) || (descriptorSize =? 0) then Ok []
  else if descriptorSize <? efiMemoryDescriptorSize then Ok []
  else parseFrom buf descriptorSize (Z.to_nat (len buf / descriptorSize)) 0.

(** The digits of hexU64, right to left. *)
Fixpoint hexLoop (fuel : nat) (v : Z) (buf : list byte) : list byte :=
  match fuel with
  | O => buf
  | S f => if v =? 0 then buf else hexLoop f (Z.shiftr v 4) (digitChar (Z.land v 15) :: buf)
  end.
Definition hexU64 (v : Z) : list byte := if v =? 0 then str "0x0" else str "0x" ++ hexLoop 16 v [].

(** ** The call (memorymap_tamago.go) *)

(** The firmware's answer: its status, *MemoryMapSize, *MapKey, *DescriptorSize
    and *DescriptorVersion after the call, and the bytes it put into the buffer. *)
Record fwAnswer := mkAnswer { fw_status : Z; fw_size : Z; fw_key : Z; fw_descSize : Z; fw_descVer : Z; fw_bytes : list byte }.

Section getmap.
Context {F : Type}.
(** gBS->GetMemoryMap with *MemoryMapSize on entry. *)
Variable fwGetMemoryMap : Z -> M F fwAnswer.

Fixpoint mapAttempts (attempts : nat) (bufSize : Z) : M F MemoryMap :=
  match attempts with
  | O => throw ErrMapTooSmall
  | S k =>
      a <- fwGetMemoryMap bufSize ;;
      if fw_status a =? efiSuccess then
        let buf := copy (make bufSize) (fw_bytes a) in
        used <- lift (sliceTo buf (fw_size a)) ;;
        descs <- lift (parseMemoryMap used (fw_descSize a)) ;;
        ret (mkMemoryMap descs (fw_key a) (fw_descSize a) (fw_descVer a))
      else if fw_status a =? efiBufferTooSmall then mapAttempts k (u64 (fw_size a + 4 * fw_descSize a))
      else throw (ErrEFI (fw_status a))
  end.

Definition GetMemoryMap (bs : Z) : M F MemoryMap :=
  throw_if bs =? 0 with ErrNoBootServices;;
  p <- fwGetMemoryMap 0 ;;
  throw_if negb (fw_status p =? efiBufferTooSmall) && negb (fw_status p =? efiSuccess) with ErrEFI (fw_status p);;
  if fw_size p =? 0 then ret (mkMemoryMap [] (fw_key p) (fw_descSize p) (fw_descVer p))
  else
    let descSize := if fw_descSize p =? 0 then efiMemoryDescriptorSize else fw_descSize p in
    mapAttempts 4 (u64 (fw_size p + 4 * descSize)).
End getmap.

(** ** Layout *)

Definition wfDesc (d : MemoryDescriptor) : Prop :=
  0 <= md_Type d < 2 ^ 32 /\ 0 <= md_PhysicalStart d < 2 ^ 64 /\ 0 <= md_VirtualStart d < 2 ^ 64 /\
  0 <= md_NumberOfPages d < 2 ^ 64 /\ 0 <= md_Attribute d < 2 ^ 64.

(** EFI_MEMORY_DESCRIPTOR as the firmware lays it out: 40 bytes, then bytes of
    its own up to the stride. *)
Definition encodeDesc (d : MemoryDescriptor) (pad tail : list byte) : list byte :=
  take 4 (le64 (md_Type d)) ++ pad ++ le64 (md_PhysicalStart d) ++ le64 (md_VirtualStart d) ++ le64 (md_NumberOfPages d) ++ le64 (md_Attribute d) ++ tail.

Lemma leU64_exact v : 0 <= v < 2 ^ 64 -> leU64 (le64 v) = Ok v.
Proof. intros Hv. rewrite <- (app_nil_r (le64 v)), leU64_le64. unfold u64. by rewrite Z.mod_small. Qed.

(** A buffer of descriptors with their firmware-private bytes. *)
Definition layout (stride : Z) (ds : list (MemoryDescriptor * (list byte * list byte))) : list byte :=
  concat ((fun d => encodeDesc (fst d) (fst (snd d)) (snd (snd d))) <$> ds).
Definition wfLayout (stride : Z) (d : MemoryDescriptor * (list byte * list byte)) : Prop :=
  wfDesc (fst d) /\ len (fst (snd d)) = 4 /\ len (snd (snd d)) = stride - efiMemoryDescriptorSize.

Lemma len_encodeDesc stride d : wfLayout stride d -> len (encodeDesc (fst d) (fst (snd d)) (snd (snd d))) = stride.
Proof. intros (_ & Hp & Ht). unfold encodeDesc. rewrite !len_app, !len_le64, Hp, Ht, len_take, len_le64. unfold efiMemoryDescriptorSize. lia. Qed.

Lemma parseFrom_layout stride ds rest pre :
  efiMemoryDescriptorSize <= stride -> Forall (wfLayout stride) ds -> forall i, len pre = i * stride ->
  parseFrom (pre ++ layout stride ds ++ rest) stride (length ds) i = Ok (fst <$> ds).
Proof.
  intros Hst Hds. revert pre. induction Hds as [|d ds Hd Hds IH]; intros pre i Hpre; cbn [length parseFrom layout fmap list_fmap concat]; [done|].
  cbv zeta. fold (layout stride ds). pose proof (len_encodeDesc stride d Hd) as Hl. rewrite <- !app_assoc.
  set (e := encodeDesc _ _ _) in *. rewrite (proj2 (Z.ltb_ge _ _)) by (rewrite !len_app; unfold efiMemoryDescriptorSize in *; pose_lens; pose proof (len_nonneg (layout stride ds)); pose proof (len_nonneg rest); lia).
  pose proof Hd as ((Ht & Hps & Hvs & Hnp & Hat) & Hpad & Htail). set (r := layout stride ds ++ rest).
  assert (forall lo hi a m, (exists c, e ++ r = a ++ m ++ c) -> lo = len pre + len a -> hi = lo + len m -> slice (pre ++ e ++ r) lo hi = Ok m) as Hsl.
  { intros lo hi a m [c ->] -> ->. rewrite app_assoc. apply slice_app_at; rewrite len_app; lia. }
  assert (IHr : parseFrom (pre ++ e ++ r) stride (length ds) (i + 1) = Ok (fst <$> ds)).
  { rewrite app_assoc. apply IH. rewrite len_app, Hl, Hpre. lia. }
  revert Hsl IHr. unfold e, encodeDesc. set (d0 := fst d) in *. set (pad := fst (snd d)) in *. set (tl := snd (snd d)) in *. rewrite <- !app_assoc.
  set (w0 := take 4 (le64 (md_Type d0))). assert (len w0 = 4) as Hw0 by done. intros Hsl IHr. clear IH.
  rewrite (Hsl _ _ [] w0) by (first [by eexists|rewrite ?len_nil; lia]). cbn [out_bind]. rewrite (leU32_le64 _ Ht : leU32 w0 = _). cbn [out_bind].
  rewrite (Hsl _ _ (w0 ++ pad) (le64 (md_PhysicalStart d0))) by (first [by eexists; rewrite <- !app_assoc|rewrite !len_app, ?len_le64; lia|rewrite len_le64; lia]).
  cbn [out_bind]. rewrite leU64_exact by done. cbn [out_bind].
  rewrite (Hsl _ _ (w0 ++ pad ++ le64 (md_PhysicalStart d0)) (le64 (md_VirtualStart d0))) by (first [by eexists; rewrite <- !app_assoc|rewrite !len_app, ?len_le64; lia|rewrite len_le64; lia]).
  cbn [out_bind]. rewrite leU64_exact by done. cbn [out_bind].
  rewrite (Hsl _ _ (w0 ++ pad ++ le64 (md_PhysicalStart d0) ++ le64 (md_VirtualStart d0)) (le64 (md_NumberOfPages d0))) by (first [by eexists; rewrite <- !app_assoc|rewrite !len_app, ?len_le64; lia|rewrite len_le64; lia]).
  cbn [out_bind]. rewrite leU64_exact by done. cbn [out_bind].
  rewrite (Hsl _ _ (w0 ++ pad ++ le64 (md_PhysicalStart d0) ++ le64 (md_VirtualStart d0) ++ le64 (md_NumberOfPages d0)) (le64 (md_Attribute d0))) by (first [by eexists; rewrite <- !app_assoc|rewrite !len_app, ?len_le64; lia|rewrite len_le64; lia]).
  cbn [out_bind]. rewrite leU64_exact by done. cbn [out_bind]. rewrite IHr. cbn [out_bind]. by destruct d as [[] ?].
Qed.

Lemma parseMemoryMap_layout stride ds rest :
  efiMemoryDescriptorSize <= stride -> Forall (wfLayout stride) ds -> len rest < stride -> ds <> [] ->
  parseMemoryMap (layout stride ds ++ rest) stride = Ok (fst <$> ds).
Proof.
  intros Hst Hds Hr Hne. unfold parseMemoryMap. unfold efiMemoryDescriptorSize in *.
  assert (len (layout stride ds) = Z.of_nat (length ds) * stride) as Hl.
  { clear Hne Hr. induction Hds as [|d ds Hd Hds IH]; [done|]. unfold layout in *. cbn [fmap list_fmap concat]. rewrite len_app, IH, (len_encodeDesc stride) by done. cbn [length]. lia. }
  assert (1 <= Z.of_nat (length ds)) by (destruct ds; [done|cbn; lia]). pose proof (len_nonneg rest).
  rewrite !(proj2 (Z.eqb_neq _ 0)), (proj2 (Z.ltb_ge _ _)) by (rewrite ?len_app; nia). cbn [orb].
  rewrite len_app, Hl, Z.add_comm, Z.div_add, Z.div_small, Z.add_0_l, Nat2Z.id by lia.
  apply (parseFrom_layout stride ds rest []); [done|done|]. by rewrite len_nil.
Qed.

(** ** The protocol *)

Section calls.
Context {F : Type}.
Variable fwGetMemoryMap : Z -> M F fwAnswer.

(** The firmware keeps to the specification: it does not fault, a successful
    call used no more than the buffer it was given. *)
Definition sane (f : Z -> M F fwAnswer) : Prop :=
  forall n s, 0 <= n -> exists a s', f n s = (Ok a, s') /\ 0 <= fw_size a /\ (fw_status a = efiSuccess -> fw_size a <= n).

Lemma parseFrom_safe buf sz k i : 0 <= i -> efiMemoryDescriptorSize <= sz -> exists ds, parseFrom buf sz k i = Ok ds.
Proof.
  unfold efiMemoryDescriptorSize. intros Hi Hs. revert i Hi. induction k as [|k IH]; intros i Hi; cbn [parseFrom]; [by eexists|]. cbv zeta.
  unfold efiMemoryDescriptorSize. destruct (Z.ltb_spec (len buf) (i * sz + 40)) as [|Hle]; [by eexists|].
  assert (forall lo, 0 <= lo <= 32 -> exists v, (let* b := slice buf (i * sz + lo) (i * sz + (lo + 8)) in leU64 b) = Ok v) as H64.
  { intros lo Hlo. rewrite slice_ok by nia. cbn [out_bind]. set (b := take _ _). assert (len b = 8) as Hb by (unfold b; rewrite len_take, len_drop; nia).
    destruct b as [|b0 [|b1 [|b2 [|b3 [|b4 [|b5 [|b6 [|b7 b]]]]]]]]; try discriminate Hb. by eexists. }
  assert (exists v, (let* b := slice buf (i * sz) (i * sz + 4) in leU32 b) = Ok v) as [v0 E0].
  { rewrite slice_ok by nia. cbn [out_bind]. set (b := take _ _). assert (len b = 4) as Hb by (unfold b; rewrite len_take, len_drop; nia).
    destruct b as [|b0 [|b1 [|b2 [|b3 b]]]]; try discriminate Hb. by eexists. }
  destruct (H64 8 ltac:(lia)) as [v1 E1], (H64 16 ltac:(lia)) as [v2 E2], (H64 24 ltac:(lia)) as [v3 E3], (H64 32 ltac:(lia)) as [v4 E4].
  change (8 + 8) with 16 in E1. change (16 + 8) with 24 in E2. change (24 + 8) with 32 in E3. change (32 + 8) with 40 in E4.
  destruct (IH (i + 1) ltac:(lia)) as [r Er].
  assert (forall A B C (m : out A) (f : A -> out B) (g : B -> out C), (let* b := m in let* v := f b in g v) = (let* v := (let* b := m in f b) in g v)) as Hassoc by (by intros ? ? ? []).
  rewrite Hassoc, E0. cbn [out_bind]. rewrite Hassoc, E1. cbn [out_bind]. rewrite Hassoc, E2. cbn [out_bind]. rewrite Hassoc, E3. cbn [out_bind]. rewrite Hassoc, E4. cbn [out_bind].
  rewrite Er. by eexists.
Qed.
Lemma parseMemoryMap_safe buf sz : exists ds, parseMemoryMap buf sz = Ok ds.
Proof.
  unfold parseMemoryMap. destruct (_ || _); [by eexists|]. destruct (Z.ltb_spec sz efiMemoryDescriptorSize); [by eexists|]. by apply parseFrom_safe.
Qed.

Lemma mapAttempts_safe k n s : sane fwGetMemoryMap -> 0 <= n -> fst (mapAttempts fwGetMemoryMap k n s) <> Panic.
Proof.
  intros Hs. revert n s. induction k as [|k IH]; intros n s Hn; cbn [mapAttempts]; [done|].
  destruct (Hs n s Hn) as (a & s' & Ea & Hz & Hle). unfold bind at 1. rewrite Ea. destruct (Z.eqb_spec (fw_status a) efiSuccess) as [E|E].
  - cbv zeta. specialize (Hle E). unfold bind, lift. rewrite sliceTo_len.
    + destruct (parseMemoryMap_safe (take (Z.to_nat (fw_size a)) (copy (make n) (fw_bytes a))) (fw_descSize a)) as [ds ->]. done.
    + unfold copy. rewrite len_app, len_take, len_drop, len_make. pose proof (len_nonneg (fw_bytes a)).
      assert (Z.of_nat (length (make n)) = n) as Hm by (change (Z.of_nat (length (make n))) with (len (make n)); rewrite len_make; lia).
      unfold len in *. lia.
  - destruct (_ =? _); [|done]. apply IH. unfold u64. apply Z.mod_pos_bound. lia.
Qed.

(** The sizing call and four attempts, never more: with a firmware that does not
    overrun its own buffer the call ends in a map or an error, and no read
    leaves the buffer. *)
Theorem get_memory_map_total bs s : sane fwGetMemoryMap -> fst (GetMemoryMap fwGetMemoryMap bs s) <> Panic.
Proof.
  intros Hs. unfold GetMemoryMap. destruct (bs =? 0); [done|]. destruct (Hs 0 s ltac:(lia)) as (p & s' & Ep & Hz & _).
  unfold bind at 1. rewrite Ep. destruct (_ && _); [done|]. destruct (_ =? 0); [done|]. apply mapAttempts_safe; [done|].
  unfold u64. apply Z.mod_pos_bound. lia.
Qed.

(** A firmware with the map [L]: a buffer that is too small is told the size, one
    that is large enough is filled. *)
Definition serves (L : list byte) (stride key ver : Z) : Prop :=
  forall n s, fwGetMemoryMap n s =
    (Ok (if n <? len L then mkAnswer efiBufferTooSmall (len L) key stride ver [] else mkAnswer efiSuccess (len L) key stride ver L), s).

End calls.

Definition demoDescs : list (MemoryDescriptor * (list byte * list byte)) :=
  [(mkDesc 7 0x100000 0 256 15, ([x00; x00; x00; x00], make 8)); (mkDesc 3 0x200000 0 16 15, ([xff; xff; xff; xff], make 8))].
Definition demoFirmware (n : Z) : M unit fwAnswer := fun s =>
  let L := layout 48 demoDescs in
  (Ok (if n <? len L then mkAnswer efiBufferTooSmall (len L) 9 48 1 [] else mkAnswer efiSuccess (len L) 9 48 1 L), s).


Lemma get_memory_map_total_witness : fst (GetMemoryMap demoFirmware 1 tt) <> Panic.
Proof.
  apply (get_memory_map_total demoFirmware 1 tt). intros n s Hn. eexists _, _. split; [reflexivity|].
  destruct (Z.ltb_spec n (len (layout 48 demoDescs))); cbn [fw_size fw_status]; (split; [apply len_nonneg|]); [discriminate|done].
Defined.
