(* ===== verification/Memory.v ===== *)
(** * Firmware-visible memory

    The byte-addressed memory that the UEFI callbacks read and write through raw
    pointers (unsafe.Pointer), with 64-bit wrap-around of address arithmetic.
    An access to an unmapped address is a fault, modelled as a panic. *)

From S2P Require Import Prelude LittleEndian.

Abbreviation memory := (gmap Z byte).

Definition load (m : memory) (a : Z) : out byte :=
  match m !! a with Some b => Ok b | None => Panic end.
Definition store (m : memory) (a : Z) (b : byte) : out memory :=
  match m !! a with Some _ => Ok (<[a := b]> m) | None => Panic end.

(** The bytes from pointer [p] on. *)
Fixpoint loadBytes (m : memory) (p : Z) (n : nat) : out (list byte) :=
  match n with
  | O => Ok []
  | S n => let* b := load m (u64 p) in let* bs := loadBytes m (p + 1) n in Ok (b :: bs)
  end.
Fixpoint storeBytes (m : memory) (p : Z) (bs : list byte) : out memory :=
  match bs with
  | [] => Ok m
  | b :: bs => let* m := store m (u64 p) b in storeBytes m (p + 1) bs
  end.

(** The word behind a uint64 pointer. *)
Definition loadU64 (m : memory) (p : Z) : out Z := let* bs := loadBytes m p 8 in leU64 bs.
Definition storeU64 (m : memory) (p v : Z) : out memory := storeBytes m p (le64 v).

(** ** Regions *)

(** The region of [n] bytes at [p] is mapped and does not wrap. *)
Definition mapped (m : memory) (p n : Z) : Prop :=
  0 <= p /\ p + n <= 2 ^ 64 /\ forall i, 0 <= i < n -> is_Some (m !! (p + i)).

(** The bytes at [p]. *)
Definition holds (m : memory) (p : Z) (bs : list byte) : Prop :=
  0 <= p /\ p + len bs <= 2 ^ 64 /\ forall i b, bs !! i = Some b -> m !! (p + Z.of_nat i) = Some b.

(** The two memories agree outside the region of [n] bytes at [p]. *)
Definition sameOutside (p n : Z) (m m' : memory) : Prop :=
  forall a, ~ (p <= a < p + n) -> m' !! a = m !! a.

Lemma holds_mapped m p bs : holds m p bs -> mapped m p (len bs).
Proof.
  intros (Hp & Hw & Hb). split; [done|]. split; [done|]. intros i Hi.
  destruct (lookup_lt_is_Some_2 bs (Z.to_nat i)) as [b E]; [unfold len in Hi; lia|].
  exists b. specialize (Hb _ _ E). by rewrite Z2Nat.id in Hb by lia.
Qed.

Lemma holds_cons m p b bs : holds m p (b :: bs) <-> 0 <= p < 2 ^ 64 /\ m !! p = Some b /\ holds m (p + 1) bs.
Proof.
  unfold holds. rewrite len_cons. pose proof (len_nonneg bs). split.
  - intros (Hp & Hw & Hb). split; [lia|]. split; [by rewrite <- (Hb 0%nat b eq_refl), Z.add_0_r|].
    split; [lia|]. split; [lia|]. intros i c Hc. rewrite <- (Hb (S i) c Hc). f_equal. lia.
  - intros (Hp & Hb & _ & Hw & Hbs). split; [lia|]. split; [lia|]. intros [|i] c Hc.
    + injection Hc as <-. by rewrite Z.add_0_r.
    + rewrite <- (Hbs i c Hc). f_equal. lia.
Qed.
Lemma holds_nil m p : 0 <= p <= 2 ^ 64 -> holds m p [].
Proof. intros Hp. split; [lia|]. split; [unfold len; cbn; lia|]. by intros [|]. Qed.

Lemma holds_app m p x y : holds m p (x ++ y) <-> holds m p x /\ holds m (p + len x) y.
Proof.
  revert p. induction x as [|b x IH]; intros p; cbn [app].
  - change (len (@nil byte)) with 0. rewrite Z.add_0_r. split; [|tauto]. intros Hy. split; [|done]. apply holds_nil.
    destruct Hy as (? & ? & _). pose proof (len_nonneg y). lia.
  - rewrite !holds_cons, IH, len_cons. replace (p + 1 + len x) with (p + (1 + len x)) by lia. tauto.
Qed.

Lemma loadBytes_holds m p bs : holds m p bs -> loadBytes m p (length bs) = Ok bs.
Proof.
  revert p. induction bs as [|b bs IH]; intros p Hh; [done|]. apply holds_cons in Hh as (Hp & Hb & Hh).
  cbn [length loadBytes]. unfold load, u64. rewrite Z.mod_small, Hb by done. cbn [out_bind]. by rewrite IH.
Qed.

(** A load reads its own region only. *)
Lemma loadBytes_ext m m' p n :
  0 <= p -> p + Z.of_nat n <= 2 ^ 64 -> (forall x, p <= x < p + Z.of_nat n -> m' !! x = m !! x) -> loadBytes m' p n = loadBytes m p n.
Proof.
  revert p. induction n as [|n IH]; intros p Hp Hn Hx; [done|]. cbn [loadBytes]. unfold load, u64. rewrite Z.mod_small by lia.
  rewrite Hx by lia. rewrite (IH (p + 1)) by (try lia; intros x ?; apply Hx; lia). done.
Qed.

Lemma mapped_cons m p n : 0 < n -> mapped m p n -> 0 <= p < 2 ^ 64 /\ is_Some (m !! p) /\ mapped m (p + 1) (n - 1).
Proof.
  intros Hn (Hp & Hw & Hm). split; [lia|]. split; [by rewrite <- (Z.add_0_r p); apply Hm; lia|].
  split; [lia|]. split; [lia|]. intros i Hi. replace (p + 1 + i) with (p + (i + 1)) by lia. apply Hm. lia.
Qed.

Lemma mapped_insert m p n a b : mapped m p n -> mapped (<[a := b]> m) p n.
Proof. intros (Hp & Hw & Hm). split; [done|]. split; [done|]. intros i Hi. rewrite lookup_insert_is_Some'. auto. Qed.

Lemma sameOutside_trans p n m1 m2 m3 : sameOutside p n m1 m2 -> sameOutside p n m2 m3 -> sameOutside p n m1 m3.
Proof. intros H1 H2 a Ha. by rewrite (H2 a Ha), (H1 a Ha). Qed.

(** A store into a mapped region succeeds, leaves the bytes there and touches
    nothing else. *)
Lemma storeBytes_mapped m p bs :
  mapped m p (len bs) -> exists m', storeBytes m p bs = Ok m' /\ holds m' p bs /\ sameOutside p (len bs) m m'.
Proof.
  revert m p. induction bs as [|b bs IH]; intros m p Hm; cbn [storeBytes].
  { exists m. split; [done|]. split; [|done]. destruct Hm as (? & ? & _). change (len (@nil byte)) with 0 in *. apply holds_nil. lia. }
  rewrite len_cons in *. pose proof (len_nonneg bs). apply mapped_cons in Hm as (Hp & [c Hc] & Hm); [|lia].
  unfold store, u64. rewrite Z.mod_small, Hc by done. cbn [out_bind]. replace (1 + len bs - 1) with (len bs) in Hm by lia.
  destruct (IH (<[p := b]> m) (p + 1) (mapped_insert _ _ _ _ _ Hm)) as (m' & -> & Hh & Hs). exists m'. split; [done|].
  split.
  - apply holds_cons. split; [done|]. split; [|done]. rewrite Hs by lia. apply lookup_insert_eq.
  - intros a Ha. rewrite Hs by lia. apply lookup_insert_ne. lia.
Qed.

Lemma storeU64_mapped m p v :
  mapped m p 8 -> exists m', storeU64 m p v = Ok m' /\ holds m' p (le64 v) /\ sameOutside p 8 m m'.
Proof. apply (storeBytes_mapped m p (le64 v)). Qed.

Lemma loadU64_holds m p v : holds m p (le64 v) -> loadU64 m p = Ok (u64 v).
Proof.
  intros Hh. unfold loadU64. change 8%nat with (length (le64 v)). rewrite loadBytes_holds by done. cbn [out_bind].
  rewrite <- (app_nil_r (le64 v)). apply leU64_le64.
Qed.

(** What a load found is there. *)
Lemma loadBytes_inv m p n bs : 0 <= p -> p + Z.of_nat n <= 2 ^ 64 -> loadBytes m p n = Ok bs -> holds m p bs /\ len bs = Z.of_nat n.
Proof.
  revert p bs. induction n as [|n IH]; intros p bs Hp Hn; cbn [loadBytes].
  - intros [= <-]. split; [apply holds_nil; lia|done].
  - unfold load, u64. rewrite Z.mod_small by lia. destruct (m !! p) as [b|] eqn:Eb; cbn [out_bind]; [|done].
    destruct (loadBytes m (p + 1) n) as [r|e|] eqn:Er; cbn [out_bind]; [|done|done]. intros [= <-].
    destruct (IH (p + 1) r) as [Hh Hl]; [lia|lia|done|]. rewrite len_cons. split; [|lia]. apply holds_cons. split; [lia|done].
Qed.
Lemma loadU64_inv m p v : 0 <= p -> p + 8 <= 2 ^ 64 -> loadU64 m p = Ok v -> holds m p (le64 v).
Proof.
  intros Hp Hw. unfold loadU64. destruct (loadBytes m p 8) as [bs|e|] eqn:E; cbn [out_bind]; [|done|done]. intros Hv.
  apply loadBytes_inv in E as [Hh Hl]; [|lia|lia]. by rewrite (leU64_inv bs v Hl Hv).
Qed.

(** A region apart from a change keeps its bytes. *)
Lemma holds_outside p n m m' q bs :
  sameOutside p n m m' -> q + len bs <= p \/ p + n <= q -> holds m q bs -> holds m' q bs.
Proof.
  intros Hs Hd (Hq & Hw & Hb). split; [done|]. split; [done|]. intros i b E. rewrite Hs; [by apply Hb|].
  apply lookup_lt_Some in E. unfold len in *. lia.
Qed.
Lemma mapped_outside p n m m' q k :
  sameOutside p n m m' -> q + k <= p \/ p + n <= q -> mapped m q k -> mapped m' q k.
Proof. intros Hs Hd (Hq & Hw & Hb). split; [done|]. split; [done|]. intros i Hi. rewrite Hs by lia. by apply Hb. Qed.

Lemma mapped_sub m p n q k : mapped m p n -> p <= q -> q + k <= p + n -> mapped m q k.
Proof.
  intros (Hp & Hw & Hm) Hq Hk. split; [lia|]. split; [lia|]. intros i Hi. replace (q + i) with (p + (q + i - p)) by lia. apply Hm. lia.
Qed.

(** A write unmaps nothing. *)
Lemma mapped_written m m' p bs q k : holds m' p bs -> sameOutside p (len bs) m m' -> mapped m q k -> mapped m' q k.
Proof.
  intros Hh Ho (Hq & Hw & Hm). split; [done|]. split; [done|]. intros i Hi.
  destruct (decide (p <= q + i < p + len bs)) as [Hin|Hout]; [|rewrite Ho by done; by apply Hm].
  apply holds_mapped in Hh as (_ & _ & Hh). replace (q + i) with (p + (q + i - p)) by lia. apply Hh. lia.
Qed.

(** Deciding that a small region is mapped. *)
Definition mappedb (m : memory) (p n : Z) : bool :=
  (0 <=? p) && (p + n <=? 2 ^ 64) && forallb (fun i => bool_decide (is_Some (m !! (p + Z.of_nat i)))) (seq 0 (Z.to_nat n)).
Lemma mappedb_ok m p n : mappedb m p n = true -> mapped m p n.
Proof.
  unfold mappedb. rewrite !andb_true_iff, forallb_forall. intros [[Hp Hn] Hall]. split; [lia|]. split; [lia|]. intros i Hi.
  specialize (Hall (Z.to_nat i)). rewrite Z2Nat.id in Hall by lia. eapply bool_decide_eq_true_1, Hall. apply in_seq. lia.
Qed.

(** ** Allocations *)

(** A Go allocation at [p]. *)
Fixpoint allocAt (m : memory) (p : Z) (bs : list byte) : memory :=
  match bs with [] => m | b :: bs => allocAt (<[p := b]> m) (p + 1) bs end.

Lemma allocAt_outside m p bs a : ~ (p <= a < p + len bs) -> allocAt m p bs !! a = m !! a.
Proof.
  revert m p. induction bs as [|b bs IH]; intros m p Ha; [done|]. rewrite len_cons in Ha. pose proof (len_nonneg bs). cbn [allocAt].
  rewrite IH by lia. apply lookup_insert_ne. lia.
Qed.
Lemma allocAt_holds m p bs : 0 <= p -> p + len bs <= 2 ^ 64 -> holds (allocAt m p bs) p bs.
Proof.
  revert m p. induction bs as [|b bs IH]; intros m p Hp Hw; [apply holds_nil; change (len (@nil byte)) with 0 in Hw; lia|].
  rewrite len_cons in Hw. pose proof (len_nonneg bs). cbn [allocAt]. apply holds_cons. split; [lia|]. split; [|apply IH; lia].
  rewrite allocAt_outside by lia. apply lookup_insert_eq.
Qed.
Lemma allocAt_keeps m p bs q x : holds m q x -> q + len x <= p \/ p + len bs <= q -> holds (allocAt m p bs) q x.
Proof. intros Hh Hd. eapply holds_outside; [|exact Hd|exact Hh]. intros a Ha. by apply allocAt_outside. Qed.
