(* ===== verification/Utf8.v ===== *)
(** * Runes

    The language's strings as sequences of runes: string([]rune), the conversion
    the other way, and [for _, r := range s], with the replacement of malformed
    sequences; and the UTF-16 command line of uefiboard/load_options.go. *)

From S2P Require Import Prelude.

Definition RuneError : Z := 0xFFFD.
(** A Unicode scalar value. *)
Definition validRune (r : Z) : bool := ((0 <=? r) && (r <? 0xD800)) || ((0xDFFF <? r) && (r <=? 0x10FFFF)).

Definition cont (r k : Z) : byte := z2b (Z.lor 0x80 (Z.land (Z.shiftr r k) 0x3F)).

Definition encodeRune (r : Z) : list byte :=
  let r := if validRune r then r else RuneError in
  if r <=? 0x7F then [z2b r]
  else if r <=? 0x7FF then [z2b (Z.lor 0xC0 (Z.shiftr r 6)); cont r 0]
  else if r <=? 0xFFFF then [z2b (Z.lor 0xE0 (Z.shiftr r 12)); cont r 6; cont r 0]
  else [z2b (Z.lor 0xF0 (Z.shiftr r 18)); cont r 12; cont r 6; cont r 0].

(** string([]rune) *)
Definition ofRunes (rs : list Z) : list byte := concat (encodeRune <$> rs).

(** The range of the second byte of a sequence, and its length. *)
Definition accept (b0 : Z) : option (Z * Z * nat) :=
  if (0xC2 <=? b0) && (b0 <=? 0xDF) then Some (0x80, 0xBF, 2%nat)
  else if b0 =? 0xE0 then Some (0xA0, 0xBF, 3%nat)
  else if b0 =? 0xED then Some (0x80, 0x9F, 3%nat)
  else if (0xE1 <=? b0) && (b0 <=? 0xEF) then Some (0x80, 0xBF, 3%nat)
  else if b0 =? 0xF0 then Some (0x90, 0xBF, 4%nat)
  else if (0xF1 <=? b0) && (b0 <=? 0xF3) then Some (0x80, 0xBF, 4%nat)
  else if b0 =? 0xF4 then Some (0x80, 0x8F, 4%nat)
  else None.
Definition isCont (b : byte) : bool := (0x80 <=? b2z b) && (b2z b <=? 0xBF).
Definition low6 (b : byte) : Z := Z.land (b2z b) 0x3F.

(** utf8.DecodeRune: the rune at the front and its width. *)
Definition decodeRune (s : list byte) : Z * nat :=
  match s with
  | [] => (RuneError, O)
  | b0 :: r =>
      if b2z b0 <? 0x80 then (b2z b0, 1%nat)
      else
        match accept (b2z b0), r with
        | Some (lo, hi, n), b1 :: r =>
            if negb ((lo <=? b2z b1) && (b2z b1 <=? hi)) then (RuneError, 1%nat)
            else
              match n, r with
              | 2%nat, _ => (Z.lor (Z.shiftl (Z.land (b2z b0) 0x1F) 6) (low6 b1), 2%nat)
              | 3%nat, b2 :: _ =>
                  if isCont b2 then (Z.lor (Z.lor (Z.shiftl (Z.land (b2z b0) 0x0F) 12) (Z.shiftl (low6 b1) 6)) (low6 b2), 3%nat)
                  else (RuneError, 1%nat)
              | 4%nat, b2 :: b3 :: _ =>
                  if isCont b2 && isCont b3
                  then (Z.lor (Z.lor (Z.lor (Z.shiftl (Z.land (b2z b0) 0x07) 18) (Z.shiftl (low6 b1) 12)) (Z.shiftl (low6 b2) 6)) (low6 b3), 4%nat)
                  else (RuneError, 1%nat)
              | _, _ => (RuneError, 1%nat)
              end
        | _, _ => (RuneError, 1%nat)
        end
  end.

Fixpoint runesFrom (fuel : nat) (s : list byte) : list Z :=
  match fuel, s with
  | O, _ | _, [] => []
  | S f, _ => let '(r, w) := decodeRune s in r :: runesFrom f (drop w s)
  end.
(** []rune(s), and the runes of [for _, r := range s]; every rune takes at least
    one byte. *)
Definition runes (s : list byte) : list Z := runesFrom (length s) s.

(** ** Round trip *)

Lemma cont_val r k : 0 <= r -> 0 <= k -> b2z (cont r k) = 128 + (r / 2 ^ k) mod 64.
Proof.
  intros Hr Hk. unfold cont. rewrite Z.shiftr_div_pow2 by done. change 0x3F with (Z.ones 6). rewrite Z.land_ones by lia.
  change (2 ^ 6) with 64. pose proof (Z.mod_pos_bound (r / 2 ^ k) 64 ltac:(lia)) as Hx. revert Hx.
  generalize ((r / 2 ^ k) mod 64). intros x Hx. change 0x80 with (Z.shiftl 1 7).
  rewrite lor_add_disjoint by (change (2 ^ 7) with 128; lia). change (1 * 2 ^ 7) with 128. rewrite b2z_z2b, Z.mod_small by lia. reflexivity.
Qed.
Lemma low6_cont r k : 0 <= r -> 0 <= k -> low6 (cont r k) = (r / 2 ^ k) mod 64.
Proof.
  intros Hr Hk. unfold low6. rewrite cont_val by done. change 0x3F with (Z.ones 6). rewrite Z.land_ones by lia. change (2 ^ 6) with 64.
  rewrite Z.add_mod, Z.mod_mod by lia. change (128 mod 64) with 0. by rewrite Z.add_0_l, Z.mod_mod by lia.
Qed.
Lemma isCont_cont r k : 0 <= r -> 0 <= k -> isCont (cont r k) = true.
Proof. intros Hr Hk. unfold isCont. rewrite cont_val by done. pose proof (Z.mod_pos_bound (r / 2 ^ k) 64 ltac:(lia)). lia. Qed.

(** A lead byte: the tag bits [t] above [k] payload bits. *)
Lemma lead_val t k x : 0 <= k -> 0 <= x < 2 ^ k -> t * 2 ^ k + x < 256 -> 0 <= t ->
  b2z (z2b (Z.lor (Z.shiftl t k) x)) = t * 2 ^ k + x /\ Z.land (t * 2 ^ k + x) (Z.ones k) = x.
Proof.
  intros Hk Hx Hs Ht. rewrite lor_add_disjoint by done. split; [rewrite b2z_z2b, Z.mod_small; [done|nia]|].
  rewrite Z.land_ones by done. rewrite Z.add_comm, Z.mod_add by lia. by apply Z.mod_small.
Qed.

Lemma decode_encode r rest : validRune r = true -> decodeRune (encodeRune r ++ rest) = (r, length (encodeRune r)).
Proof.
  intros Hv. unfold encodeRune. rewrite Hv. assert (0 <= r <= 0x10FFFF /\ (r < 0xD800 \/ 0xDFFF < r)) as [Hr Hsur] by (unfold validRune in Hv; lia).
  clear Hv. destruct (Z.leb_spec r 0x7F); [|destruct (Z.leb_spec r 0x7FF); [|destruct (Z.leb_spec r 0xFFFF)]]; cbn [app length decodeRune].
  - rewrite b2z_z2b, Z.mod_small by lia. by rewrite (proj2 (Z.ltb_lt _ _)) by lia.
  - rewrite Z.shiftr_div_pow2 by lia. destruct (lead_val 6 5 (r / 2 ^ 6)) as [E1 E2]; [lia|split; [apply Z.div_pos; lia|apply Z.div_lt_upper_bound; lia]| |lia|].
    { assert (r / 2 ^ 6 < 32) by (apply Z.div_lt_upper_bound; lia). lia. }
    change (Z.shiftl 6 5) with 0xC0 in E1. change (Z.ones 5) with 0x1F in E2. rewrite E1.
    assert (2 <= r / 2 ^ 6 < 32) by (split; [apply Z.div_le_lower_bound; lia|apply Z.div_lt_upper_bound; lia]).
    rewrite (proj2 (Z.ltb_ge _ _)) by lia. unfold accept.
    replace ((0xC2 <=? 6 * 2 ^ 5 + r / 2 ^ 6) && (6 * 2 ^ 5 + r / 2 ^ 6 <=? 0xDF)) with true by lia.
    pose proof (isCont_cont r 0 ltac:(lia) ltac:(lia)) as Hc. unfold isCont in Hc. rewrite Hc. cbn [negb]. f_equal.
    rewrite E2, low6_cont by lia. change (2 ^ 0) with 1. rewrite Z.div_1_r.
    rewrite lor_add_disjoint by (try lia; apply Z.mod_pos_bound; lia). change (2 ^ 6) with 64. pose proof (Z.div_mod r 64). lia.
  - rewrite Z.shiftr_div_pow2 by lia. assert (0 <= r / 2 ^ 12 < 16) by (split; [apply Z.div_pos; lia|apply Z.div_lt_upper_bound; lia]).
    destruct (lead_val 14 4 (r / 2 ^ 12)) as [E1 E2]; [lia|lia|lia|lia|].
    change (Z.shiftl 14 4) with 0xE0 in E1. change (Z.ones 4) with 0x0F in E2. rewrite E1.
    rewrite (proj2 (Z.ltb_ge _ _)) by lia.
    assert (exists lo hi, accept (14 * 2 ^ 4 + r / 2 ^ 12) = Some (lo, hi, 3%nat) /\ (lo <=? b2z (cont r 6)) && (b2z (cont r 6) <=? hi) = true) as (lo & hi & Ea & Hb).
    { rewrite cont_val by lia. change (2 ^ 6) with 64. change (2 ^ 12) with 4096 in *. change (2 ^ 4) with 16.
      unfold accept. repeat match goal with |- context [if ?c then _ else _] => destruct c eqn:? end; try lia;
        eexists _, _; (split; [reflexivity|]); Z.to_euclidean_division_equations; lia. }
    rewrite Ea, Hb. cbn [negb]. rewrite isCont_cont by lia. f_equal. rewrite E2, !low6_cont by lia.
    change (2 ^ 0) with 1. rewrite Z.div_1_r. pose proof (Z.mod_pos_bound r 64 ltac:(lia)). pose proof (Z.mod_pos_bound (r / 2 ^ 6) 64 ltac:(lia)).
    change (Z.shiftl (r / 2 ^ 12) 12) with (Z.shiftl (r / 2 ^ 12) (6 + 6)). rewrite <- Z.shiftl_shiftl, <- Z.shiftl_lor by lia.
    rewrite (lor_add_disjoint (r / 2 ^ 12)) by lia. rewrite lor_add_disjoint by lia. change (2 ^ 6) with 64. change (2 ^ 12) with 4096. 
    Z.to_euclidean_division_equations; lia.
  - rewrite Z.shiftr_div_pow2 by lia. assert (0 <= r / 2 ^ 18 < 5) by (split; [apply Z.div_pos; lia|apply Z.div_lt_upper_bound; lia]).
    destruct (lead_val 30 3 (r / 2 ^ 18)) as [E1 E2]; [lia|lia|lia|lia|].
    change (Z.shiftl 30 3) with 0xF0 in E1. change (Z.ones 3) with 0x07 in E2. rewrite E1.
    rewrite (proj2 (Z.ltb_ge _ _)) by lia.
    assert (exists lo hi, accept (30 * 2 ^ 3 + r / 2 ^ 18) = Some (lo, hi, 4%nat) /\ (lo <=? b2z (cont r 12)) && (b2z (cont r 12) <=? hi) = true) as (lo & hi & Ea & Hb).
    { rewrite cont_val by lia. change (2 ^ 12) with 4096. change (2 ^ 18) with 262144 in *. change (2 ^ 3) with 8.
      unfold accept. repeat match goal with |- context [if ?c then _ else _] => destruct c eqn:? end; try lia;
        eexists _, _; (split; [reflexivity|]); Z.to_euclidean_division_equations; lia. }
    rewrite Ea, Hb. cbn [negb]. rewrite !isCont_cont by lia. cbn [andb]. f_equal. rewrite E2, !low6_cont by lia.
    change (2 ^ 0) with 1. rewrite Z.div_1_r. pose proof (Z.mod_pos_bound r 64 ltac:(lia)).
    pose proof (Z.mod_pos_bound (r / 2 ^ 6) 64 ltac:(lia)). pose proof (Z.mod_pos_bound (r / 2 ^ 12) 64 ltac:(lia)).
    change (Z.shiftl (r / 2 ^ 18) 18) with (Z.shiftl (r / 2 ^ 18) (6 + 12)).
    change (Z.shiftl ((r / 2 ^ 12) mod 64) 12) with (Z.shiftl ((r / 2 ^ 12) mod 64) (0 + 12)).
    rewrite <- (Z.shiftl_shiftl (r / 2 ^ 18)), <- (Z.shiftl_shiftl ((r / 2 ^ 12) mod 64)), Z.shiftl_0_r, <- Z.shiftl_lor by lia.
    rewrite (lor_add_disjoint (r / 2 ^ 18)) by lia.
    change (Z.shiftl (r / 2 ^ 18 * 2 ^ 6 + (r / 2 ^ 12) mod 64) 12) with (Z.shiftl (r / 2 ^ 18 * 2 ^ 6 + (r / 2 ^ 12) mod 64) (6 + 6)).
    rewrite <- Z.shiftl_shiftl, <- Z.shiftl_lor by lia. rewrite (lor_add_disjoint (r / 2 ^ 18 * 2 ^ 6 + _)) by lia.
    rewrite lor_add_disjoint by lia. change (2 ^ 6) with 64. change (2 ^ 12) with 4096. change (2 ^ 18) with 262144.
    Z.to_euclidean_division_equations; lia.
Qed.

Lemma encodeRune_ne r : encodeRune r <> [].
Proof. unfold encodeRune. cbv zeta. repeat (destruct (_ : bool)); discriminate. Qed.

(** Encoding and decoding a sequence of scalar values gives it back. *)
Lemma runes_ofRunes rs : Forall (fun r => validRune r = true) rs -> runes (ofRunes rs) = rs.
Proof.
  intros Hv. unfold runes. assert (forall fuel, (length (ofRunes rs) <= fuel)%nat -> runesFrom fuel (ofRunes rs) = rs) as H; [|by apply H].
  induction Hv as [|r rs Hr _ IH]; intros fuel Hf.
  { by destruct fuel. }
  unfold ofRunes in *. cbn [fmap list_fmap concat] in *. rewrite length_app in Hf. pose proof (encodeRune_ne r) as Hne.
  destruct fuel as [|fuel]; [destruct (encodeRune r); [done|cbn in Hf; lia]|].
  cbn [runesFrom]. destruct (encodeRune r ++ concat (encodeRune <$> rs)) as [|c t] eqn:E; [by apply app_eq_nil in E as [? _]|].
  rewrite <- E, decode_encode by done. rewrite drop_app_length. f_equal. apply IH. destruct (encodeRune r); [done|]. cbn in Hf. lia.
Qed.

(** ** Decoded runes are scalar values *)

Lemma low6_range b : 0 <= low6 b < 64.
Proof. unfold low6. change 0x3F with (Z.ones 6). rewrite Z.land_ones by lia. apply Z.mod_pos_bound. lia. Qed.
Lemma low6_val b : 128 <= b2z b < 192 -> low6 b = b2z b - 128.
Proof.
  intros Hb. unfold low6. change 0x3F with (Z.ones 6). rewrite Z.land_ones by lia. change (2 ^ 6) with 64.
  Z.to_euclidean_division_equations; lia.
Qed.
Lemma land_ones_sub b k t : 0 <= k -> t * 2 ^ k <= b < t * 2 ^ k + 2 ^ k -> Z.land b (Z.ones k) = b - t * 2 ^ k.
Proof.
  intros Hk Hb. rewrite Z.land_ones by done. symmetry. apply (Z.mod_unique_pos _ _ t); lia.
Qed.

Lemma decodeRune_valid s : s <> [] -> validRune (fst (decodeRune s)) = true.
Proof.
  destruct s as [|b0 r]; [done|]. intros _. cbn [decodeRune]. pose proof (b2z_range b0).
  destruct (Z.ltb_spec (b2z b0) 0x80); [cbn; unfold validRune; lia|].
  destruct (accept (b2z b0)) as [[[lo hi] n]|] eqn:Ea; [|done]. destruct r as [|b1 r]; [done|].
  destruct ((lo <=? b2z b1) && (b2z b1 <=? hi)) eqn:Hb1; cbn [negb]; [|done].
  assert (128 <= b2z b1 < 192) as Hc1.
  { revert Ea. unfold accept. repeat match goal with |- context [if ?c then _ else _] => destruct c eqn:? end; try done; intros [= <- <- _]; lia. }
  pose proof (low6_val b1 Hc1) as L1. destruct n as [|[|[|[|[|n]]]]]; try done.
  - assert (0xC2 <= b2z b0 <= 0xDF) as Hb0.
    { revert Ea. unfold accept. repeat match goal with |- context [if ?c then _ else _] => destruct c eqn:? end; try done; lia. }
    cbn [fst]. change 0x1F with (Z.ones 5). rewrite (land_ones_sub (b2z b0) 5 6) by lia. rewrite lor_add_disjoint by (try lia; apply low6_range).
    pose proof (low6_range b1). unfold validRune. lia.
  - destruct r as [|b2 r]; [done|]. destruct (isCont b2) eqn:H2; [|done]. cbn [fst]. pose proof (low6_range b2). pose proof (low6_range b1).
    assert (0xE0 <= b2z b0 <= 0xEF) as Hb0.
    { revert Ea. unfold accept. repeat match goal with |- context [if ?c then _ else _] => destruct c eqn:? end; try done; lia. }
    change 0x0F with (Z.ones 4). rewrite (land_ones_sub (b2z b0) 4 14) by lia.
    change (Z.shiftl (b2z b0 - 14 * 2 ^ 4) 12) with (Z.shiftl (b2z b0 - 14 * 2 ^ 4) (6 + 6)). rewrite <- Z.shiftl_shiftl, <- Z.shiftl_lor by lia.
    rewrite (lor_add_disjoint (b2z b0 - _)) by lia. rewrite lor_add_disjoint by lia. rewrite L1 in *. unfold validRune.
    revert Ea. unfold accept. repeat match goal with |- context [if ?c then Some _ else _] => destruct c eqn:? end; intros [= <- <-]; lia.
  - destruct r as [|b2 [|b3 r]]; [done|done|]. destruct (isCont b2 && isCont b3) eqn:H2; [|done]. cbn [fst].
    pose proof (low6_range b2). pose proof (low6_range b1). pose proof (low6_range b3).
    assert (0xF0 <= b2z b0 <= 0xF4) as Hb0.
    { revert Ea. unfold accept. repeat match goal with |- context [if ?c then _ else _] => destruct c eqn:? end; try done; lia. }
    change 0x07 with (Z.ones 3). rewrite (land_ones_sub (b2z b0) 3 30) by lia. set (x := b2z b0 - 30 * 2 ^ 3).
    change (Z.shiftl x 18) with (Z.shiftl x (6 + 12)). change (Z.shiftl (low6 b1) 12) with (Z.shiftl (low6 b1) (0 + 12)).
    rewrite <- (Z.shiftl_shiftl x), <- (Z.shiftl_shiftl (low6 b1)), Z.shiftl_0_r, <- Z.shiftl_lor by lia.
    rewrite (lor_add_disjoint x) by lia.
    change (Z.shiftl (x * 2 ^ 6 + low6 b1) 12) with (Z.shiftl (x * 2 ^ 6 + low6 b1) (6 + 6)).
    rewrite <- Z.shiftl_shiftl, <- Z.shiftl_lor by lia. rewrite (lor_add_disjoint (x * 2 ^ 6 + _)) by lia. rewrite lor_add_disjoint by lia.
    rewrite L1 in *. unfold x, validRune.
    revert Ea. unfold accept. repeat match goal with |- context [if ?c then Some _ else _] => destruct c eqn:? end; intros [= <- <-]; lia.
Qed.

Lemma runes_valid s : Forall (fun r => validRune r = true) (runes s).
Proof.
  unfold runes. generalize (length s). intros fuel. revert s. induction fuel as [|f IH]; intros s; cbn [runesFrom]; [destruct s; constructor|].
  destruct s as [|c s]; [constructor|]. pose proof (decodeRune_valid (c :: s) ltac:(done)) as Hv.
  destruct (decodeRune (c :: s)) as [r w]. by constructor.
Qed.

(** ** The command line (load_options.go) *)

Definition u16le (v : Z) : list byte := [z2b (Z.land v 0xFF); z2b (Z.land (Z.shiftr v 8) 0xFF)].

Definition utf16Rune (r : Z) : list byte :=
  if (r <? 0x10000) && ((r <? 0xD800) || (0xDFFF <? r)) then u16le r
  else if (0x10000 <=? r) && (r <=? 0x10FFFF) then
    let r := r - 0x10000 in
    u16le (0xD800 + Z.shiftr r 10) ++ u16le (0xDC00 + Z.land r 0x3FF)
  else [xfd; xff].

Definition utf16LECmdline (s : list byte) : list byte := concat (utf16Rune <$> runes s) ++ [x00; x00].

(** A reader of UTF-16 little-endian text: the scalar values. *)
Fixpoint utf16Decode (fuel : nat) (b : list byte) : option (list Z) :=
  match fuel, b with
  | _, [] => Some []
  | S f, b0 :: b1 :: r =>
      let w := b2z b0 + 256 * b2z b1 in
      if (w <? 0xD800) || (0xDFFF <? w) then option_map (cons w) (utf16Decode f r)
      else if w <? 0xDC00 then
        match r with
        | c0 :: c1 :: r =>
            let v := b2z c0 + 256 * b2z c1 in
            if (0xDC00 <=? v) && (v <=? 0xDFFF)
            then option_map (cons (0x10000 + (w - 0xD800) * 1024 + (v - 0xDC00))) (utf16Decode f r)
            else None
        | _ => None
        end
      else None
  | _, _ => None
  end.

Lemma u16le_val v : 0 <= v < 2 ^ 16 -> exists b0 b1, u16le v = [b0; b1] /\ b2z b0 + 256 * b2z b1 = v.
Proof.
  intros Hv. eexists _, _. split; [reflexivity|]. change 0xFF with (Z.ones 8). rewrite !Z.land_ones, Z.shiftr_div_pow2 by lia.
  change (2 ^ 8) with 256. rewrite !b2z_z2b, !Z.mod_mod by lia. change (2 ^ 16) with 65536 in Hv. Z.to_euclidean_division_equations; lia.
Qed.

Lemma utf16Rune_decode r f rest :
  validRune r = true -> utf16Decode (S f) (utf16Rune r ++ rest) = option_map (cons r) (utf16Decode f rest).
Proof.
  intros Hv. assert (0 <= r <= 0x10FFFF /\ (r < 0xD800 \/ 0xDFFF < r)) as [Hr Hs] by (unfold validRune in Hv; lia).
  unfold utf16Rune. destruct ((r <? 0x10000) && ((r <? 0xD800) || (0xDFFF <? r))) eqn:E.
  - destruct (u16le_val r) as (b0 & b1 & -> & Ev); [lia|]. cbn [app utf16Decode]. rewrite Ev.
    by replace ((r <? 0xD800) || (0xDFFF <? r)) with true by lia.
  - replace ((0x10000 <=? r) && (r <=? 0x10FFFF)) with true by lia. cbv zeta.
    rewrite Z.shiftr_div_pow2 by lia. change 0x3FF with (Z.ones 10). rewrite Z.land_ones by lia. change (2 ^ 10) with 1024.
    assert (0 <= (r - 0x10000) / 1024 < 1024) by (Z.to_euclidean_division_equations; lia).
    pose proof (Z.mod_pos_bound (r - 0x10000) 1024 ltac:(lia)).
    destruct (u16le_val (0xD800 + (r - 0x10000) / 1024)) as (b0 & b1 & -> & E1); [lia|].
    destruct (u16le_val (0xDC00 + (r - 0x10000) mod 1024)) as (c0 & c1 & -> & E2); [lia|].
    cbn [app utf16Decode]. rewrite E1, E2. match goal with |- context [if ?c then _ else _] => replace c with false by lia end.
    match goal with |- context [if ?c then _ else _] => replace c with true by lia end.
    match goal with |- context [if ?c then _ else _] => replace c with true by lia end.
    f_equal. f_equal. pose proof (Z.div_mod (r - 0x10000) 1024). lia.
Qed.

(** The command line handed to a loaded image is the UTF-16 form of the string,
    rune for rune, with one terminating zero: a reader gets back the runes of
    the string, supplementary planes included, malformed input as U+FFFD. *)
Theorem cmdline_utf16_roundtrip s :
  exists fuel, utf16Decode fuel (utf16LECmdline s) = Some (runes s ++ [0]) /\ Z.even (len (utf16LECmdline s)) = true.
Proof.
  pose proof (runes_valid s) as Hv. unfold utf16LECmdline. exists (length (runes s) + 1)%nat. split.
  - induction Hv as [|r rs Hr _ IH]; [done|]. cbn [fmap list_fmap concat length Nat.add]. rewrite <- app_assoc, utf16Rune_decode by done.
    by rewrite IH.
  - rewrite len_app, Z.even_add. change (Z.even (len [x00; x00])) with true. generalize (runes s). intros rs.
    induction rs as [|r rs IH]; [done|]. cbn [fmap list_fmap concat]. rewrite len_app, Z.even_add.
    assert (Z.even (len (utf16Rune r)) = true) as ->; [|by destruct (Z.even _)]. unfold utf16Rune.
    by repeat match goal with |- context [if ?c then _ else _] => destruct c end.
Qed.
