(* ===== verification/BootServices.v ===== *)
(** * Boot services

    uefiboard: the wrappers of gBS that load and start images and allocate
    memory (loadimage_tamago.go, alloc_pages.go, install_config_table_tamago.go,
    protocols_tamago.go, load_options_tamago.go, inherit_device_handle.go) and
    UninstallAllRNG of rng_protocol_tamago.go.  The firmware is a type class: a
    call is given its arguments and the memory, and answers.  What the UEFI
    specification promises about it is a second class, for the theorems that
    need it. *)

From S2P Require Import Prelude Effects GoStr LittleEndian MemMap Memory Utf8.

(** ** The firmware *)

(** [bsProtocol] is a call of a slot of another protocol: what its pointer arguments
    point to, as words, and the arguments that are numbers. *)
Inductive bootCall :=
| bsAllocatePages (allocateType memoryType pages address : Z)
| bsAllocatePool (memoryType size : Z)
| bsHandleProtocol (handle : Z) (guid : list byte)
| bsLocateHandleBuffer (searchType : Z) (guid : list byte)
| bsInstallProtocolInterface (handle : Z) (guid : list byte) (interfaceType interface : Z)
| bsUninstallProtocolInterface (handle : Z) (guid : list byte) (interface : Z)
| bsInstallMultipleProtocolInterfaces (handle : Z) (interfaces : list (list byte * Z))
| bsUninstallMultipleProtocolInterfaces (handle : Z) (interfaces : list (list byte * Z))
| bsConnectController (controller : Z) (recursive : bool)
| bsDisconnectController (controller : Z)
| bsPciIO (pciIO slot : Z) (args : list Z)
| bsProtocol (this slot : Z) (data args : list Z)
| bsInstallConfigurationTable (guid : list byte) (table : Z)
| bsLoadImage (bootPolicy parent : Z) (devicePath source : list byte)
| bsStartImage (handle : Z)
| bsUnloadImage (handle : Z)
| bsExit (handle status : Z).

(** EFI_STATUS, the out-parameter of the call, and the count of
    LocateHandleBuffer. *)
Record bootAnswer := mkBootAnswer { ba_status : Z; ba_out : Z; ba_count : Z }.

Class Firmware (F : Type) := { fwStep : bootCall -> memory -> F -> bootAnswer * memory * F }.

(** The firmware's state, the memory, the boot-services table that the system
    table points to (0 when it is gone), the image's own handle, and the calls
    made so far with the memory each was given. *)
Record Machine (F : Type) := mkMachine {
  mc_fw : F; mc_mem : memory; mc_bs : Z; mc_image : Z;
  mc_calls : list (bootCall * memory * bootAnswer)
}.
Arguments mkMachine {F}. Arguments mc_fw {F}. Arguments mc_mem {F}. Arguments mc_bs {F}. Arguments mc_image {F}. Arguments mc_calls {F}.

Definition efiInvalidParameter : Z := 0x8000000000000002.
Definition EFIAllocateAnyPages : Z := 0.
Definition EFIAllocateMaxAddress : Z := 1.
Definition EfiLoaderData : Z := 2.
Definition EfiBootServicesData : Z := 4.

(** EFIGUID values in memory: Data1 to Data3 little-endian, Data4 as it is. *)
Definition EFILoadedImageProtocolGUID : list byte :=
  [xa1; x31; x1b; x5b; x62; x95; xd2; x11; x8e; x3f; x00; xa0; xc9; x69; x72; x3b].
Definition EFIRngProtocolGUID : list byte :=
  [xa5; xbc; x52; x31; xde; xea; x3d; x43; x86; x2e; xc0; x1c; xdc; x29; x1f; x44].
Definition DTBGUIDBytes : list byte :=
  [xd5; x21; xb6; xb1; x9c; xf1; xa5; x41; x83; x0b; xd9; x15; x2c; x69; xaa; xe0].

Definition efiLoadedImageDeviceHandle : Z := 24.
Definition efiLoadedImageFilePath : Z := 32.
Definition efiLoadedImageLoadOptionsSize : Z := 48.
Definition efiLoadedImageLoadOptions : Z := 56.

(** ** Slices over firmware memory *)

(** unsafe.Slice of [n] bytes at [p]: the language panics on a negative length and
    on a region that wraps, a null pointer included. *)
Definition unsafeSlice (p n : Z) : out unit := if (n <? 0) || (u64 (- p) <? n) then Panic else Ok tt.

Section calls.
Context {F : Type} `{Firmware F}.

Definition efiCall (c : bootCall) : M (Machine F) bootAnswer := fun s =>
  let '(a, m, f) := fwStep c (mc_mem s) (mc_fw s) in
  (Ok a, mkMachine f m (mc_bs s) (mc_image s) (mc_calls s ++ [(c, mc_mem s, a)])).

Definition readMem {A} (r : memory -> out A) : M (Machine F) A := fun s => (r (mc_mem s), s).
(** A write; a fault leaves the memory as it was. *)
Definition writeMem (w : memory -> out memory) : M (Machine F) unit := fun s =>
  match w (mc_mem s) with
  | Ok m => (Ok tt, mkMachine (mc_fw s) m (mc_bs s) (mc_image s) (mc_calls s))
  | Err e => (Err e, s)
  | Panic => (Panic, s)
  end.

(** [copy(unsafe.Slice(p, n), bs)] for [n = len(bs)]. *)
Definition copyTo (p : Z) (bs : list byte) : M (Machine F) unit :=
  lift (unsafeSlice p (len bs)) ;;; writeMem (fun m => storeBytes m p bs).
(** The bytes of the slice of [n] at [p]. *)
Definition sliceBytes (p n : Z) : M (Machine F) (list byte) :=
  lift (unsafeSlice p n) ;;; readMem (fun m => loadBytes m p (Z.to_nat n)).

(** [if status != efiSuccess { return &EFIError{status, op} }] *)
Definition success (a : bootAnswer) : M (Machine F) unit :=
  throw_if negb (ba_status a =? efiSuccess) with ErrEFI (ba_status a);; ret tt.

(** [bs := getBootServices(); if bs == 0 { return ErrNoBootServices }] *)
Definition needBootServices : M (Machine F) unit :=
  bs <- gets mc_bs ;; throw_if bs =? 0 with ErrNoBootServices;; ret tt.

(** ** Memory (alloc_pages.go, install_config_table_tamago.go) *)

Definition AllocatePages (memoryType count : Z) : M (Machine F) Z :=
  needBootServices ;;;
  if count =? 0 then ret 0
  else
    a <- efiCall (bsAllocatePages EFIAllocateAnyPages memoryType count 0) ;;
    success a ;;; ret (ba_out a).

Definition AllocatePagesBelow (memoryType count maxAddr : Z) : M (Machine F) Z :=
  needBootServices ;;;
  if count =? 0 then ret 0
  else
    a <- efiCall (bsAllocatePages EFIAllocateMaxAddress memoryType count maxAddr) ;;
    success a ;;; ret (ba_out a).

Definition AllocatePool (memoryType size : Z) : M (Machine F) Z :=
  needBootServices ;;;
  if size =? 0 then ret 0
  else
    a <- efiCall (bsAllocatePool memoryType size) ;;
    success a ;;;
    throw_if ba_out a =? 0 with ErrEFI efiInvalidParameter;;
    ret (ba_out a).

(** ** Protocols (protocols_tamago.go) *)

Definition HandleProtocol (handle : Z) (guid : list byte) : M (Machine F) Z :=
  needBootServices ;;;
  a <- efiCall (bsHandleProtocol handle guid) ;;
  success a ;;; ret (ba_out a).

(** The words of the firmware's array. *)
Fixpoint readHandles (m : memory) (p : Z) (n : nat) : out (list Z) :=
  match n with
  | O => Ok []
  | S n => let* h := loadU64 m p in let* hs := readHandles m (p + 8) n in Ok (h :: hs)
  end.

Definition LocateHandleBuffer (guid : list byte) : M (Machine F) (list Z) :=
  needBootServices ;;;
  a <- efiCall (bsLocateHandleBuffer 2 guid) ;;
  success a ;;;
  if (ba_count a =? 0) || (ba_out a =? 0) then ret []
  else
    lift (unsafeSlice (ba_out a) (8 * ba_count a)) ;;;
    readMem (fun m => readHandles m (ba_out a) (Z.to_nat (ba_count a))).

(** ** Images (loadimage_tamago.go) *)

(** The source is the slice's contents when the firmware is called. *)
Definition LoadImage (src : list byte) : M (Machine F) Z :=
  throw_if len src =? 0 with ErrLoadImageNoSource;;
  needBootServices ;;;
  image <- gets mc_image ;;
  throw_if image =? 0 with ErrNoBootServices;;
  a <- efiCall (bsLoadImage 0 image [] src) ;;
  success a ;;; ret (ba_out a).

(** The status, and the error that goes with it. *)
Definition StartImage (h : Z) : M (Machine F) (Z * option error) :=
  bs <- gets mc_bs ;;
  if bs =? 0 then ret (0, Some ErrNoBootServices)
  else
    a <- efiCall (bsStartImage h) ;;
    ret (ba_status a, if ba_status a =? efiSuccess then None else Some (ErrEFI (ba_status a))).

(** It is the error that returns: a firmware that takes the call does not. *)
Definition ExitImage (handle exitStatus : Z) : M (Machine F) unit :=
  needBootServices ;;;
  a <- efiCall (bsExit handle exitStatus) ;;
  throw (ErrEFI (ba_status a)).

Definition UnloadImage (h : Z) : M (Machine F) unit :=
  needBootServices ;;;
  a <- efiCall (bsUnloadImage h) ;;
  success a.

(** ** Load options and the device handle (load_options_tamago.go,
    inherit_device_handle.go) *)

Definition SetLoadOptions (handle : Z) (cmdline : list byte) : M (Machine F) unit :=
  throw_if handle =? 0 with ErrNilHandle;;
  throw_if bool_decide (cmdline = []) with ErrEmptyCmdline;;
  needBootServices ;;;
  lip <- HandleProtocol handle EFILoadedImageProtocolGUID ;;
  throw_if lip =? 0 with ErrEFI efiInvalidParameter;;
  let enc := utf16LECmdline cmdline in
  throw_if len enc <? 2 with ErrEmptyCmdline;;
  a <- efiCall (bsAllocatePool EfiLoaderData (len enc)) ;;
  success a ;;;
  let poolPtr := ba_out a in
  throw_if poolPtr =? 0 with ErrEFI efiInvalidParameter;;
  copyTo poolPtr enc ;;;
  writeMem (fun m => storeBytes m (lip + efiLoadedImageLoadOptionsSize) (take 4 (le64 (len enc)))) ;;;
  writeMem (fun m => storeU64 m (lip + efiLoadedImageLoadOptions) poolPtr).

Definition InheritParentDeviceHandle (childHandle : Z) : M (Machine F) unit :=
  throw_if childHandle =? 0 with ErrNilHandle;;
  image <- gets mc_image ;;
  throw_if image =? 0 with ErrNoBootServices;;
  parentLIP <- HandleProtocol image EFILoadedImageProtocolGUID ;;
  throw_if parentLIP =? 0 with ErrEFI efiInvalidParameter;;
  childLIP <- HandleProtocol childHandle EFILoadedImageProtocolGUID ;;
  throw_if childLIP =? 0 with ErrEFI efiInvalidParameter;;
  parentDH <- readMem (fun m => loadU64 m (parentLIP + efiLoadedImageDeviceHandle)) ;;
  parentFP <- readMem (fun m => loadU64 m (parentLIP + efiLoadedImageFilePath)) ;;
  writeMem (fun m => storeU64 m (childLIP + efiLoadedImageDeviceHandle) parentDH) ;;;
  writeMem (fun m => storeU64 m (childLIP + efiLoadedImageFilePath) parentFP).

(** ** Configuration tables (install_config_table_tamago.go) *)

Definition InstallConfigurationTable (guid : list byte) (table : Z) : M (Machine F) unit :=
  needBootServices ;;;
  a <- efiCall (bsInstallConfigurationTable guid table) ;;
  success a.

Definition PublishDTB (dtb : list byte) : M (Machine F) unit :=
  throw_if len dtb =? 0 with ErrDTBEmpty;;
  poolPtr <- AllocatePool EfiBootServicesData (len dtb) ;;
  copyTo poolPtr dtb ;;;
  InstallConfigurationTable DTBGUIDBytes poolPtr.

(** ** Removing the firmware's RNG (rng_protocol_tamago.go) *)

Fixpoint yankFrom (handles : list Z) (yanked : Z) : M (Machine F) Z :=
  match handles with
  | [] => ret yanked
  | h :: hs =>
      iface <- try (HandleProtocol h EFIRngProtocolGUID) ;;
      match iface with
      | inr _ => yankFrom hs yanked
      | inl iface =>
          a <- efiCall (bsUninstallProtocolInterface h EFIRngProtocolGUID iface) ;;
          yankFrom hs (if ba_status a =? efiSuccess then yanked + 1 else yanked)
      end
  end.

Definition UninstallAllRNG : M (Machine F) Z :=
  bs <- gets mc_bs ;;
  if bs =? 0 then ret 0
  else
    handles <- try (LocateHandleBuffer EFIRngProtocolGUID) ;;
    match handles with
    | inr _ => ret 0
    | inl hs => yankFrom hs 0
    end.
End calls.

(** ** What the specification promises *)

(** The region a successful allocation hands out. *)
Definition granted (c : bootCall) (a : bootAnswer) : option (Z * Z) :=
  if negb (ba_status a =? efiSuccess) then None
  else match c with
       | bsAllocatePages _ _ n _ => Some (ba_out a, n * EfiPageSize)
       | bsAllocatePool _ n => Some (ba_out a, n)
       | _ => None
       end.

(** Calls that run no foreign image, touch no device, which may write to memory by
    itself, and are given no buffer of the caller to write to. *)
Definition quietCall (c : bootCall) : bool :=
  match c with bsStartImage _ | bsUnloadImage _ | bsPciIO _ _ _ | bsProtocol _ _ _ _ | bsExit _ _ => false | _ => true end.

(** Calls that leave the loaded-image structures alone. *)
Definition keepsImages (c : bootCall) : bool :=
  match c with bsHandleProtocol _ _ | bsAllocatePool _ _ => true | _ => false end.

Definition within (p n x : Z) : Prop := p <= x < p + n.
Definition lipSize : Z := 96.

(** UEFI 2.10, sections 7.2 (memory services), 7.3.7 (HandleProtocol) and 9.1
    (the loaded-image protocol): memory handed to the caller stays its own and
    is handed out once; an image has one loaded-image structure, apart from
    that memory and from those of other images. *)
Class FirmwareOk (F : Type) `{Firmware F} := {
  owned : F -> Z -> Prop;
  isImage : Z -> Prop;
  lipOf : Z -> Z;
  fw_keeps c m f a m' f' : fwStep c m f = (a, m', f') -> quietCall c = true ->
    forall x, owned f x -> owned f' x /\ m' !! x = m !! x;
  fw_grants c m f a m' f' p n : fwStep c m f = (a, m', f') -> granted c a = Some (p, n) ->
    mapped m' p n /\ forall x, within p n x -> owned f' x /\ ~ owned f x;
  fw_image h m f a m' f' : fwStep (bsHandleProtocol h EFILoadedImageProtocolGUID) m f = (a, m', f') ->
    ba_status a = efiSuccess -> ba_out a <> 0 -> isImage h /\ ba_out a = lipOf h /\ mapped m' (lipOf h) lipSize;
  fw_images_kept c m f a m' f' h : fwStep c m f = (a, m', f') -> keepsImages c = true -> isImage h ->
    forall x, within (lipOf h) lipSize x -> m' !! x = m !! x;
  images_apart f h x : isImage h -> within (lipOf h) lipSize x -> ~ owned f x;
  images_disjoint h h' x : isImage h -> isImage h' -> within (lipOf h) lipSize x -> within (lipOf h') lipSize x -> h = h'
}.

(** ** The calls a wrapper makes *)

(** The calls made are extended, and by no StartImage. *)
Definition isStart (c : bootCall) : bool := match c with bsStartImage _ => true | _ => false end.
Definition noStart {F} (s s' : Machine F) : Prop :=
  exists new, mc_calls s' = mc_calls s ++ new /\ Forall (fun e => isStart (fst (fst e)) = false) new.

#[global] Instance noStart_preorder {F} : PreOrder (@noStart F).
Proof.
  split.
  - intros s. exists []. by rewrite app_nil_r.
  - intros a b c (n1 & H1 & F1) (n2 & H2 & F2). exists (n1 ++ n2). rewrite H2, H1, app_assoc. split; [done|by apply Forall_app].
Qed.

Section noStart.
Context {F : Type} `{Firmware F}.

Lemma efiCall_moves c : isStart c = false -> moves noStart (@efiCall F _ c).
Proof.
  intros Hc s. unfold efiCall. destruct (fwStep _ _ _) as [[a m] f]. cbn. exists [(c, mc_mem s, a)]. split; [done|]. by repeat constructor.
Qed.
Lemma readMem_moves {A} (r : memory -> out A) : moves noStart (@readMem F A r).
Proof. intros s. reflexivity. Qed.
Lemma writeMem_moves w : moves noStart (@writeMem F w).
Proof. intros s. unfold writeMem. destruct (w (mc_mem s)); cbn; [|reflexivity..]. exists []. by rewrite app_nil_r. Qed.
End noStart.
#[export] Hint Resolve readMem_moves writeMem_moves : gomove.
#[export] Hint Extern 1 (moves noStart (efiCall _)) => (apply efiCall_moves; reflexivity) : gomove.

Section wrappers.
Context {F : Type} `{Firmware F}.
Notation quietly m := (moves (@noStart F) m).

Lemma needBootServices_moves : quietly needBootServices.
Proof. unfold needBootServices. go_move. Qed.
Hint Resolve needBootServices_moves : gomove.
Lemma success_moves a : quietly (success a).
Proof. unfold success. go_move. Qed.
Hint Resolve success_moves : gomove.
Lemma copyTo_moves p bs : quietly (copyTo p bs).
Proof. unfold copyTo. go_move. Qed.
Hint Resolve copyTo_moves : gomove.
Lemma sliceBytes_moves p n : quietly (sliceBytes p n).
Proof. unfold sliceBytes. go_move. Qed.
Lemma AllocatePages_moves t n : quietly (AllocatePages t n).
Proof. unfold AllocatePages. go_move. Qed.
Lemma AllocatePool_moves t n : quietly (AllocatePool t n).
Proof. unfold AllocatePool. go_move. Qed.
Hint Resolve AllocatePool_moves : gomove.
Lemma HandleProtocol_moves h g : quietly (HandleProtocol h g).
Proof. unfold HandleProtocol. go_move. Qed.
Hint Resolve HandleProtocol_moves : gomove.
Lemma LocateHandleBuffer_moves g : quietly (LocateHandleBuffer g).
Proof. unfold LocateHandleBuffer. go_move. Qed.
Hint Resolve LocateHandleBuffer_moves : gomove.
Lemma LoadImage_moves src : quietly (LoadImage src).
Proof. unfold LoadImage. go_move. Qed.
Lemma SetLoadOptions_moves h c : quietly (SetLoadOptions h c).
Proof. unfold SetLoadOptions, storeU64. cbv zeta. go_move. Qed.
Lemma Inherit_moves h : quietly (InheritParentDeviceHandle h).
Proof. unfold InheritParentDeviceHandle. go_move. Qed.
Lemma PublishDTB_moves d : quietly (PublishDTB d).
Proof. unfold PublishDTB, InstallConfigurationTable. go_move. Qed.
Lemma yankFrom_moves hs n : quietly (yankFrom hs n).
Proof. revert n. induction hs as [|h hs IH]; intros n; cbn [yankFrom]; go_move. Qed.
Hint Resolve yankFrom_moves : gomove.
Lemma UninstallAllRNG_moves : quietly UninstallAllRNG.
Proof. unfold UninstallAllRNG. go_move. Qed.
Lemma UnloadImage_moves h : quietly (UnloadImage h).
Proof. unfold UnloadImage. go_move. Qed.
End wrappers.
#[export] Hint Resolve needBootServices_moves success_moves copyTo_moves sliceBytes_moves AllocatePages_moves AllocatePool_moves
  HandleProtocol_moves LocateHandleBuffer_moves LoadImage_moves SetLoadOptions_moves Inherit_moves PublishDTB_moves
  UninstallAllRNG_moves UnloadImage_moves : gomove.

(** The calls made are extended by calls of one kind. *)
Definition calling (P : bootCall -> Prop) {F} (s s' : Machine F) : Prop :=
  exists new, mc_calls s' = mc_calls s ++ new /\ Forall (fun e => P (fst (fst e))) new.
#[global] Instance calling_preorder P {F} : PreOrder (@calling P F).
Proof.
  split; [intros s; exists []; by rewrite app_nil_r|]. intros a b c (n1 & H1 & F1) (n2 & H2 & F2). exists (n1 ++ n2).
  rewrite H2, H1, app_assoc. split; [done|by apply Forall_app].
Qed.
Section calling.
Context {F : Type} `{Firmware F} (P : bootCall -> Prop).
Lemma efiCall_calling c : P c -> moves (calling P) (efiCall c).
Proof. intros Hc s. unfold efiCall. destruct (fwStep _ _ _) as [[a m] f]. eexists [_]. split; [reflexivity|]. by repeat constructor. Qed.
Lemma readMem_calling {A} (r : memory -> out A) : moves (calling P) (@readMem F A r).
Proof. intros s. reflexivity. Qed.
Hint Resolve readMem_calling : gomove.
Lemma needBootServices_calling : moves (calling P) (@needBootServices F).
Proof. unfold needBootServices. go_move. Qed.
Lemma success_calling a : moves (calling P) (@success F a).
Proof. unfold success. go_move. Qed.
Hint Resolve needBootServices_calling success_calling efiCall_calling : gomove.
Lemma HandleProtocol_calling h guid : P (bsHandleProtocol h guid) -> moves (calling P) (HandleProtocol h guid).
Proof. unfold HandleProtocol. go_move. Qed.
Lemma LocateHandleBuffer_calling guid : P (bsLocateHandleBuffer 2 guid) -> moves (calling P) (LocateHandleBuffer guid).
Proof. unfold LocateHandleBuffer. go_move. Qed.
End calling.
#[export] Hint Resolve readMem_calling needBootServices_calling success_calling efiCall_calling HandleProtocol_calling LocateHandleBuffer_calling : gomove.

(** ** Memory across a call *)

Definition withMem {F} (m : memory) (s : Machine F) : Machine F := mkMachine (mc_fw s) m (mc_bs s) (mc_image s) (mc_calls s).

(** [make([]byte, n)] at an address [p] that the Go heap has: it panics for more than
    the heap can hold. *)
Definition goMake {F} (heapMax p n : Z) : M (Machine F) unit :=
  if heapMax <? n then lift Panic else modify (fun s => withMem (allocAt (mc_mem s) p (make n)) s).
Lemma goMake_ok {F} heapMax p n (s s' : Machine F) :
  goMake heapMax p n s = (Ok tt, s') -> s' = withMem (allocAt (mc_mem s) p (make n)) s.
Proof. unfold goMake. destruct (heapMax <? n); [done|]. unfold modify. by intros [= <-]. Qed.

Section memory.
Context {F : Type} `{FirmwareOk F}.

(** What the caller owns stays its own, with its contents. *)
Definition spared (s s' : Machine F) : Prop :=
  forall x, owned (mc_fw s) x -> owned (mc_fw s') x /\ mc_mem s' !! x = mc_mem s !! x.

#[global] Instance spared_preorder : PreOrder spared.
Proof.
  split; [by intros s x Hx|]. intros a b c H1 H2 x Hx. destruct (H1 x Hx) as [Hb <-]. by apply H2.
Qed.

(** A write outside what the caller owned. *)
Lemma spared_write (s s1 s2 : Machine F) p n m' :
  spared s s1 -> s2 = withMem m' s1 -> sameOutside p n (mc_mem s1) m' -> (forall x, within p n x -> ~ owned (mc_fw s) x) -> spared s s2.
Proof.
  intros Hs -> Ho Hn x Hx. destruct (Hs x Hx) as [Hx1 <-]. split; [done|]. cbn. apply Ho. intros Hw. by apply (Hn x).
Qed.

(** Bytes that the caller owns. *)
Definition keeps_own (s : Machine F) (p : Z) (bs : list byte) : Prop :=
  holds (mc_mem s) p bs /\ forall x, within p (len bs) x -> owned (mc_fw s) x.
Lemma spared_own (s s' : Machine F) p bs : spared s s' -> keeps_own s p bs -> keeps_own s' p bs.
Proof.
  intros Hs [(Hp & Hw & Hb) Ho]. split; [|intros x Hx; by apply Hs, Ho]. split; [done|]. split; [done|]. intros i b E.
  rewrite <- (Hb i b E). apply Hs, Ho. apply lookup_lt_Some in E. unfold within, len. lia.
Qed.

Lemma efiCall_spared c : quietCall c = true -> moves spared (@efiCall F _ c).
Proof. intros Hc s. unfold efiCall. destruct (fwStep _ _ _) as [[a m] f] eqn:E. cbn. intros x. cbn. by eapply fw_keeps. Qed.
Lemma readMem_spared {A} (r : memory -> out A) : moves spared (readMem r).
Proof. intros s. reflexivity. Qed.

(** A copy into mapped memory. *)
Lemma copyTo_run p bs (s : Machine F) :
  mapped (mc_mem s) p (len bs) ->
  copyTo p bs s = (Panic, s) \/
  exists m', copyTo p bs s = (Ok tt, withMem m' s) /\ holds m' p bs /\ sameOutside p (len bs) (mc_mem s) m'.
Proof.
  intros Hm. destruct (storeBytes_mapped _ _ _ Hm) as (m' & E & Hh & Ho). unfold copyTo, bind, lift, writeMem. rewrite E.
  destruct (unsafeSlice p (len bs)) as [[]|e|] eqn:Eu; [right; by exists m'| |by left].
  unfold unsafeSlice in Eu. by destruct (_ || _).
Qed.

Lemma sliceBytes_spared p n : moves spared (sliceBytes p n).
Proof. intros s. unfold sliceBytes, bind, lift, readMem. destruct (unsafeSlice p n); reflexivity. Qed.
Lemma sliceBytes_own p bs (s : Machine F) n x s' :
  keeps_own s p bs -> sliceBytes p n s = (Ok x, s') -> 0 <= n <= len bs -> x = take (Z.to_nat n) bs /\ s' = s.
Proof.
  intros [Hh _] Hr Hn. unfold sliceBytes in Hr. apply bind_ok in Hr as ([] & s1 & [_ ->]%lift_ok & Hr). unfold readMem in Hr.
  injection Hr as Hr <-. split; [|done]. rewrite <- (take_drop (Z.to_nat n) bs) in Hh. apply holds_app in Hh as [Hh _].
  apply loadBytes_holds in Hh. rewrite length_take, Nat.min_l in Hh by (unfold len in Hn; lia). congruence.
Qed.

(** A store into mapped memory. *)
Lemma writeMem_run p bs (s : Machine F) :
  mapped (mc_mem s) p (len bs) ->
  exists m', writeMem (fun m => storeBytes m p bs) s = (Ok tt, withMem m' s) /\ holds m' p bs /\ sameOutside p (len bs) (mc_mem s) m'.
Proof.
  intros Hm. destruct (storeBytes_mapped _ _ _ Hm) as (m' & E & Hh & Ho). exists m'. unfold writeMem. by rewrite E.
Qed.

Lemma success_ok a (s : Machine F) u s' : success a s = (Ok u, s') -> ba_status a = efiSuccess /\ s' = s.
Proof. unfold success. intros [Hs [_ ->]%ret_ok]%guard_ok. split; [lia|done]. Qed.

Lemma needBootServices_ok (s : Machine F) u s' : needBootServices s = (Ok u, s') -> s' = s /\ mc_bs s <> 0.
Proof. unfold needBootServices. intros (bs & s1 & [= <- <-] & [Hb [_ ->]%ret_ok]%guard_ok)%bind_ok. split; [done|lia]. Qed.

(** An allocation by one call. *)
Lemma grant_ok c (s : Machine F) a s1 p n :
  efiCall c s = (Ok a, s1) -> granted c a = Some (p, n) -> quietCall c = true ->
  spared s s1 /\ mapped (mc_mem s1) p n /\ forall x, within p n x -> owned (mc_fw s1) x /\ ~ owned (mc_fw s) x.
Proof.
  intros Hc Hg Hq. pose proof (efiCall_spared c Hq s) as Hs. rewrite Hc in Hs. split; [done|]. unfold efiCall in Hc.
  destruct (fwStep _ _ _) as [[a' m] f] eqn:E. injection Hc as -> <-. cbn. by eapply fw_grants.
Qed.

Lemma AllocatePool_ok t n (s : Machine F) p s1 :
  AllocatePool t n s = (Ok p, s1) -> n <> 0 ->
  p <> 0 /\ spared s s1 /\ mapped (mc_mem s1) p n /\ forall x, within p n x -> owned (mc_fw s1) x /\ ~ owned (mc_fw s) x.
Proof.
  unfold AllocatePool. intros ([] & s0 & [-> _]%needBootServices_ok & Hk)%bind_ok Hn. rewrite (proj2 (Z.eqb_neq n 0)) in Hk by done.
  apply bind_ok in Hk as (a & s2 & Ha & Hk). apply bind_ok in Hk as ([] & s3 & [Hst ->]%success_ok & Hk).
  apply guard_ok in Hk as [Hp [-> ->]%ret_ok]. split; [lia|]. eapply grant_ok; [exact Ha| |done]. unfold granted. by rewrite Hst.
Qed.

Lemma AllocatePages_ok t n (s : Machine F) p s1 :
  AllocatePages t n s = (Ok p, s1) -> n <> 0 ->
  spared s s1 /\ mapped (mc_mem s1) p (n * EfiPageSize) /\
  forall x, within p (n * EfiPageSize) x -> owned (mc_fw s1) x /\ ~ owned (mc_fw s) x.
Proof.
  unfold AllocatePages. intros ([] & s0 & [-> _]%needBootServices_ok & Hk)%bind_ok Hn. rewrite (proj2 (Z.eqb_neq n 0)) in Hk by done.
  apply bind_ok in Hk as (a & s2 & Ha & Hk). apply bind_ok in Hk as ([] & s3 & [Hst ->]%success_ok & Hk).
  apply ret_ok in Hk as [-> ->]. eapply grant_ok; [exact Ha| |done]. unfold granted. by rewrite Hst.
Qed.
End memory.
#[export] Hint Resolve readMem_spared sliceBytes_spared : gomove.
#[export] Hint Extern 1 (moves spared (efiCall _)) => (apply efiCall_spared; reflexivity) : gomove.

(** ** What the wrappers do *)

Section wrapped.
Context {F : Type} `{FirmwareOk F}.
Notation spares m := (moves (@spared F _ _) m).

Lemma needBootServices_spared : spares needBootServices.
Proof. unfold needBootServices. go_move. Qed.
Hint Resolve needBootServices_spared : gomove.
Lemma success_spared a : spares (success a).
Proof. unfold success. go_move. Qed.
Hint Resolve success_spared : gomove.
Lemma HandleProtocol_spared h g : spares (HandleProtocol h g).
Proof. unfold HandleProtocol. go_move. Qed.
Hint Resolve HandleProtocol_spared : gomove.
Lemma LocateHandleBuffer_spared g : spares (LocateHandleBuffer g).
Proof. unfold LocateHandleBuffer. go_move. Qed.
Hint Resolve LocateHandleBuffer_spared : gomove.
Lemma LoadImage_spared src : spares (LoadImage src).
Proof. unfold LoadImage. go_move. Qed.
Lemma InstallConfigurationTable_spared g t : spares (InstallConfigurationTable g t).
Proof. unfold InstallConfigurationTable. go_move. Qed.
Lemma AllocatePool_spared t n : spares (AllocatePool t n).
Proof. unfold AllocatePool. go_move. Qed.
Lemma yankFrom_spared hs n : spares (yankFrom hs n).
Proof. revert n. induction hs as [|h hs IH]; intros n; cbn [yankFrom]; go_move. Qed.
Hint Resolve yankFrom_spared : gomove.
Lemma UninstallAllRNG_spared : spares UninstallAllRNG.
Proof. unfold UninstallAllRNG. go_move. Qed.

(** The copy goes to memory that was just handed out. *)
Lemma PublishDTB_spared d : spares (PublishDTB d).
Proof.
  intros s. unfold PublishDTB. destruct (Z.eqb_spec (len d) 0) as [|Hd]; [reflexivity|]. unfold bind at 1.
  pose proof (AllocatePool_spared EfiBootServicesData (len d) s) as Hs.
  destruct (AllocatePool _ _ s) as [[p|e|] s1] eqn:Ea; cbn [snd] in *; [|done|done].
  apply AllocatePool_ok in Ea as (_ & _ & Hm & Hx); [|done]. unfold bind.
  destruct (copyTo_run p d s1 Hm) as [->|(m' & -> & _ & Ho)]; [done|].
  assert (spared s (withMem m' s1)) as Hs'. { eapply spared_write; [done..|]. intros x Hw. by apply Hx. }
  etransitivity; [exact Hs'|]. apply InstallConfigurationTable_spared.
Qed.

Lemma LoadImage_ok src (s : Machine F) h s' :
  LoadImage src s = (Ok h, s') ->
  exists m a, mc_calls s' = mc_calls s ++ [(bsLoadImage 0 (mc_image s) [] src, m, a)] /\ ba_status a = efiSuccess /\ ba_out a = h.
Proof.
  unfold LoadImage. intros [_ ([] & s0 & [-> _]%needBootServices_ok & Hk)%bind_ok]%guard_ok.
  apply bind_ok in Hk as (image & s1 & [= <- <-] & [_ (a & s2 & Ha & Hk)%bind_ok]%guard_ok).
  apply bind_ok in Hk as ([] & s3 & [Hst ->]%success_ok & [-> ->]%ret_ok). unfold efiCall in Ha.
  destruct (fwStep _ _ _) as [[a' m] f]. injection Ha as -> <-. by exists (mc_mem s), a.
Qed.

(** The structure of an image, as a successful HandleProtocol gives it. *)
Lemma HandleImage_ok h (s : Machine F) v s1 :
  HandleProtocol h EFILoadedImageProtocolGUID s = (Ok v, s1) -> v <> 0 ->
  isImage h /\ v = lipOf h /\ mapped (mc_mem s1) (lipOf h) lipSize /\
  forall h', isImage h' -> forall x, within (lipOf h') lipSize x -> mc_mem s1 !! x = mc_mem s !! x.
Proof.
  unfold HandleProtocol. intros ([] & s0 & [-> _]%needBootServices_ok & Hk)%bind_ok Hv.
  apply bind_ok in Hk as (a & s2 & Ha & Hk). apply bind_ok in Hk as ([] & s3 & [Hst ->]%success_ok & [-> ->]%ret_ok).
  unfold efiCall in Ha. destruct (fwStep _ _ _) as [[a' m] f] eqn:E. injection Ha as -> <-. cbn.
  destruct (fw_image _ _ _ _ _ _ E Hst Hv) as (Hi & -> & Hm). split_and!; [done..|]. intros h' Hi' x Hx. by eapply fw_images_kept.
Qed.

(** A write into an image's structure spares what the caller owned. *)
Lemma image_write_spared h (s s1 : Machine F) p n m' :
  isImage h -> spared s s1 -> sameOutside p n (mc_mem s1) m' -> lipOf h <= p -> p + n <= lipOf h + lipSize ->
  spared s (withMem m' s1).
Proof.
  intros Hi Hs Ho Hp Hn. eapply spared_write; [done|done|exact Ho|]. intros x Hx. eapply images_apart; [done|]. unfold within in *. lia.
Qed.

(** The load options of image [h] in memory: their size, the pointer, and the
    command line in memory the image may free. *)
Definition loadOptions (m : memory) (h : Z) (cmdline : list byte) : Prop :=
  exists pool, holds m (lipOf h + efiLoadedImageLoadOptionsSize) (take 4 (le64 (len (utf16LECmdline cmdline)))) /\
    holds m (lipOf h + efiLoadedImageLoadOptions) (le64 pool) /\ holds m pool (utf16LECmdline cmdline).

(** SetLoadOptions that reports success. *)
Lemma SetLoadOptions_ok h cmdline (s s' : Machine F) :
  SetLoadOptions h cmdline s = (Ok tt, s') ->
  spared s s' /\ isImage h /\ exists pool,
    holds (mc_mem s') (lipOf h + efiLoadedImageLoadOptionsSize) (take 4 (le64 (len (utf16LECmdline cmdline)))) /\
    holds (mc_mem s') (lipOf h + efiLoadedImageLoadOptions) (le64 pool) /\ holds (mc_mem s') pool (utf16LECmdline cmdline) /\
    forall x, within pool (len (utf16LECmdline cmdline)) x -> owned (mc_fw s') x.
Proof.
  unfold SetLoadOptions. set (enc := utf16LECmdline cmdline). intros [_ [_ ([] & s0 & [-> _]%needBootServices_ok & Hk)%bind_ok]%guard_ok]%guard_ok.
  apply bind_ok in Hk as (lip & s1 & Hh & [Hlip [Hge (a & s2 & Ha & Hk)%bind_ok]%guard_ok]%guard_ok).
  pose proof (HandleProtocol_spared h EFILoadedImageProtocolGUID s) as Hs1. rewrite Hh in Hs1. cbn [snd] in Hs1.
  apply HandleImage_ok in Hh as (Hi & -> & Hm1 & _); [|lia].
  apply bind_ok in Hk as ([] & s3 & [Hst ->]%success_ok & [Hp0 ([] & s3 & Hc & Hk)%bind_ok]%guard_ok). set (pool := ba_out a) in *.
  destruct (grant_ok _ _ _ _ pool (len enc) Ha) as (Hs2 & Hmp & Hown); [unfold granted; by rewrite Hst|done|].
  assert (mapped (mc_mem s2) (lipOf h) lipSize) as Hm2.
  { destruct Hm1 as (? & ? & Hm1). split; [done|]. split; [done|]. intros i Hj. unfold efiCall in Ha.
    destruct (fwStep _ _ _) as [[a' m] f] eqn:E. injection Ha as -> <-. cbn.
    rewrite (fw_images_kept _ _ _ _ _ _ _ E eq_refl Hi) by (unfold within; lia). by apply Hm1. }
  destruct (copyTo_run pool enc s2 Hmp) as [E|(m3 & E & Hh3 & Ho3)]; rewrite E in Hc; [done|]. injection Hc as <-.
  assert (spared s s2) as Hs02 by by transitivity s1.
  assert (spared s (withMem m3 s2)) as Hs3.
  { eapply spared_write; [exact Hs02|done|exact Ho3|]. intros x Hx Ho. eapply Hown; [exact Hx|]. by apply Hs1. }
  assert (forall x, within pool (len enc) x -> ~ within (lipOf h) lipSize x) as Hapart.
  { intros x Hx Hl. eapply images_apart; [exact Hi|exact Hl|]. by apply Hown. }
  assert (forall q k, lipOf h <= q -> q + k <= lipOf h + lipSize -> 0 < k -> 0 < len enc -> pool + len enc <= q \/ q + k <= pool) as Hdis.
  { intros q k Hq1 Hq2 Hk0 He. destruct (Z_lt_le_dec q (pool + len enc)) as [Hl|]; [|lia]. destruct (Z_lt_le_dec pool (q + k)) as [Hr|]; [|lia].
    exfalso. apply (Hapart (Z.max q pool)); unfold within; lia. }
  assert (0 < len enc) as Henc by (clear -Hge; lia). unfold lipSize, efiLoadedImageLoadOptionsSize, efiLoadedImageLoadOptions in *.
  pose proof (mapped_written _ _ _ _ _ _ Hh3 Ho3 Hm2) as Hm3.
  apply bind_ok in Hk as ([] & s4 & Hw1 & Hw2).
  destruct (writeMem_run (lipOf h + 48) (take 4 (le64 (len enc))) (withMem m3 s2)) as (m4 & E4 & Hh4 & Ho4).
  { eapply mapped_sub; [exact Hm3|lia|change (len _) with 4; lia]. }
  rewrite E4 in Hw1. injection Hw1 as <-. change (len (take 4 _)) with 4 in Ho4.
  destruct (writeMem_run (lipOf h + 56) (le64 pool) (withMem m4 (withMem m3 s2))) as (m5 & E5 & Hh5 & Ho5).
  { eapply mapped_sub; [by eapply mapped_written|lia|rewrite len_le64; lia]. }
  unfold storeU64 in Hw2. rewrite E5 in Hw2. injection Hw2 as <-. rewrite len_le64 in Ho5. cbn [withMem mc_mem mc_fw] in *.
  split; [|split; [done|]].
  - eapply image_write_spared; [exact Hi| |exact Ho5|unfold lipSize; lia..]. eapply image_write_spared; [exact Hi|exact Hs3|exact Ho4|unfold lipSize; lia..].
  - exists pool. split; [eapply holds_outside; [exact Ho5| |exact Hh4]; change (len (take 4 _)) with 4; lia|]. split; [done|]. split.
    + destruct (Hdis (lipOf h + 48) 4) as [?|?]; [lia..| |]; (destruct (Hdis (lipOf h + 56) 8) as [?|?]; [lia..| |]);
        (eapply holds_outside; [exact Ho5| |eapply holds_outside; [exact Ho4| |exact Hh3]]; lia).
    + intros x Hx. by apply Hown.
Qed.

(** InheritParentDeviceHandle that reports success: the image's device handle
    and file path are those of the parent, and its load options are as they
    were. *)
Lemma Inherit_ok h (s s' : Machine F) :
  InheritParentDeviceHandle h s = (Ok tt, s') ->
  spared s s' /\ isImage h /\ (forall x, within (lipOf h + 40) 56 x -> mc_mem s' !! x = mc_mem s !! x) /\
  exists d, len d = 16 /\ holds (mc_mem s') (lipOf h + efiLoadedImageDeviceHandle) d /\
    holds (mc_mem s') (lipOf (mc_image s) + efiLoadedImageDeviceHandle) d.
Proof.
  unfold InheritParentDeviceHandle. intros [_ (image & s0 & [= <- <-] & [_ (pl & s1 & Hp & [Hpl Hk]%guard_ok)%bind_ok]%guard_ok)%bind_ok]%guard_ok.
  apply bind_ok in Hk as (cl & s2 & Hc & [Hcl (dh & s3 & Hdh & Hk)%bind_ok]%guard_ok). apply bind_ok in Hk as (fp & s4 & Hfp & Hk).
  injection Hdh as Hdh <-. injection Hfp as Hfp <-. apply bind_ok in Hk as ([] & s3 & Hw1 & Hw2).
  pose proof (HandleProtocol_spared (mc_image s) EFILoadedImageProtocolGUID s) as Hs1. rewrite Hp in Hs1.
  pose proof (HandleProtocol_spared h EFILoadedImageProtocolGUID s1) as Hs2. rewrite Hc in Hs2. cbn [snd] in *.
  apply HandleImage_ok in Hp as (Hpi & -> & (Hp0 & Hp1 & _) & Hk1); [|lia]. apply HandleImage_ok in Hc as (Hi & -> & Hm & Hk2); [|lia].
  unfold storeU64, lipSize, efiLoadedImageDeviceHandle, efiLoadedImageFilePath in *.
  apply loadU64_inv in Hdh; [|lia..]. apply loadU64_inv in Hfp; [|lia..].
  destruct (writeMem_run (lipOf h + 24) (le64 dh) s2) as (m3 & E3 & Hh3 & Ho3).
  { eapply mapped_sub; [exact Hm|lia|rewrite len_le64; lia]. }
  rewrite E3 in Hw1. injection Hw1 as <-.
  destruct (writeMem_run (lipOf h + 32) (le64 fp) (withMem m3 s2)) as (m4 & E4 & Hh4 & Ho4).
  { eapply (mapped_sub _ (lipOf h) 96); [by eapply mapped_written|lia|rewrite len_le64; lia]. }
  rewrite E4 in Hw2. injection Hw2 as <-. rewrite len_le64 in Ho3, Ho4. cbn [withMem mc_mem mc_fw] in *.
  assert (holds m4 (lipOf h + 24) (le64 dh ++ le64 fp)) as Hd.
  { apply holds_app. rewrite len_le64. split; [eapply holds_outside; [exact Ho4|rewrite len_le64; lia|exact Hh3]|by rewrite <- Z.add_assoc]. }
  split_and!; [|done| |].
  - eapply image_write_spared; [exact Hi| |exact Ho4|unfold lipSize; lia..]. eapply image_write_spared; [exact Hi|by transitivity s1|exact Ho3|unfold lipSize; lia..].
  - intros x Hx. unfold within in Hx. rewrite Ho4, Ho3 by lia. rewrite (Hk2 h Hi) by (unfold within; lia). apply (Hk1 h Hi). unfold within. lia.
  - exists (le64 dh ++ le64 fp). split; [done|]. split; [done|]. destruct (decide (h = mc_image s)) as [<-|Hne]; [done|].
    assert (forall x, within (lipOf (mc_image s)) 96 x -> m4 !! x = mc_mem s2 !! x) as Hsame.
    { intros x Hx. assert (~ within (lipOf h) 96 x) by (intros Hx'; by apply Hne, (images_disjoint h (mc_image s) x)). unfold within in *. rewrite Ho4, Ho3 by lia. done. }
    assert (forall k bs, 0 <= k -> k + len bs <= 96 -> holds (mc_mem s2) (lipOf (mc_image s) + k) bs -> holds m4 (lipOf (mc_image s) + k) bs) as Hf.
    { intros k bs Hk0 Hk8 (? & ? & Hb). split; [done|]. split; [done|]. intros i b E. rewrite Hsame; [by apply Hb|].
      apply lookup_lt_Some in E. unfold within, len in *. lia. }
    apply holds_app. rewrite len_le64. rewrite <- Z.add_assoc. split; apply Hf; rewrite ?len_le64; (done || lia).
Qed.

(** No wrapper changes who the caller is. *)
Lemma efiCall_image c : frames mc_image (@efiCall F _ c).
Proof. intros s. unfold efiCall. by destruct (fwStep _ _ _) as [[a m] f]. Qed.
Lemma writeMem_image w : frames mc_image (@writeMem F w).
Proof. intros s. unfold writeMem. by destruct (w (mc_mem s)). Qed.
Lemma readMem_image {A} (r : memory -> out A) : frames mc_image (@readMem F A r).
Proof. done. Qed.
Hint Resolve efiCall_image writeMem_image readMem_image : goframe.
Lemma SetLoadOptions_image h c : frames mc_image (@SetLoadOptions F _ h c).
Proof.
  unfold SetLoadOptions, HandleProtocol, needBootServices, success, copyTo. cbv zeta. go_frame.
Qed.
Lemma LoadImage_image src : frames mc_image (@LoadImage F _ src).
Proof. unfold LoadImage, needBootServices, success. go_frame. Qed.
End wrapped.
#[export] Hint Resolve needBootServices_spared success_spared HandleProtocol_spared LoadImage_spared UninstallAllRNG_spared PublishDTB_spared : gomove.

(** ** A firmware for demonstrations *)

(** A bump allocator above 1 MiB, two images (the caller's, 1, and the one it
    loads, 2) whose structures lie below it, and success for the rest. *)
Record toyFw := mkToy { tf_next : Z }.
Definition toyBase : Z := 0x100000.
Definition toyAlloc (n : Z) (m : memory) (f : toyFw) : bootAnswer * memory * toyFw :=
  if (toyBase <=? tf_next f) && (0 <=? n) && (tf_next f + n <=? 2 ^ 64)
  then (mkBootAnswer efiSuccess (tf_next f) 0, allocAt m (tf_next f) (make n), mkToy (tf_next f + n))
  else (mkBootAnswer 0x8000000000000009 0 0, m, f).
Definition toyLip (h : Z) : Z := h * 0x1000.
#[global] Instance toy_firmware : Firmware toyFw := {
  fwStep c m f :=
    match c with
    | bsAllocatePages _ _ n _ => toyAlloc (n * EfiPageSize) m f
    | bsAllocatePool _ n => toyAlloc n m f
    | bsHandleProtocol h g =>
        if bool_decide (g = EFILoadedImageProtocolGUID) && ((h =? 1) || (h =? 2)) && mappedb m (toyLip h) lipSize
        then (mkBootAnswer efiSuccess (toyLip h) 0, m, f) else (mkBootAnswer 0x800000000000000E 0 0, m, f)
    | bsLocateHandleBuffer _ _ => (mkBootAnswer 0x800000000000000E 0 0, m, f)
    | bsLoadImage _ _ _ _ => (mkBootAnswer efiSuccess 2 0, m, f)
    | _ => (mkBootAnswer efiSuccess 0 0, m, f)
    end
}.

Lemma toyAlloc_ok n m f a m' f' :
  toyAlloc n m f = (a, m', f') ->
  (a = mkBootAnswer 0x8000000000000009 0 0 /\ m' = m /\ f' = f) \/
  (a = mkBootAnswer efiSuccess (tf_next f) 0 /\ m' = allocAt m (tf_next f) (make n) /\ f' = mkToy (tf_next f + n) /\
   toyBase <= tf_next f /\ 0 <= n /\ tf_next f + n <= 2 ^ 64).
Proof.
  unfold toyAlloc. destruct (_ && _) eqn:E; intros [= <- <- <-]; [right|by left].
  split_and!; try done; lia.
Qed.

#[global] Program Instance toy_firmware_ok : FirmwareOk toyFw := {
  owned f x := toyBase <= x < tf_next f;
  isImage h := h = 1 \/ h = 2;
  lipOf := toyLip
}.
Next Obligation.
  intros c m f a m' f' E Hq x Hx. cbn [fwStep toy_firmware] in E.
  assert (forall n, toyAlloc n m f = (a, m', f') -> toyBase <= x < tf_next f' /\ m' !! x = m !! x) as Hal.
  { intros n [(_ & -> & ->)|(_ & -> & -> & _ & Hn & _)]%toyAlloc_ok; [done|]. cbn [tf_next]. unfold toyBase in *. split; [lia|]. apply allocAt_outside. rewrite len_make by lia. lia. }
  destruct c; try discriminate Hq; try (by injection E as <- <- <-); try by eapply Hal. destruct (_ && _); by injection E as <- <- <-.
Qed.
Next Obligation.
  intros c m f a m' f' p n E Hg. cbn [fwStep toy_firmware] in E. unfold granted in Hg. destruct (negb _) eqn:Es; [done|].
  assert (forall k, toyAlloc k m f = (a, m', f') -> (p, n) = (ba_out a, k) ->
    mapped m' p n /\ forall x, within p n x -> toyBase <= x < tf_next f' /\ ~ toyBase <= x < tf_next f) as Hal.
  { intros k [(-> & _)|(-> & -> & -> & Hb & Hn & Hw)]%toyAlloc_ok [= -> ->]; [by vm_compute in Es|]. cbn [ba_out tf_next]. split; [|unfold within; lia].
    pose proof (holds_mapped _ _ _ (allocAt_holds m (tf_next f) (make k) ltac:(unfold toyBase in *; lia) ltac:(rewrite len_make; lia))) as Hm.
    by rewrite len_make, Z.max_r in Hm by lia. }
  destruct c; try done; injection Hg as <- <-; by eapply Hal.
Qed.
Next Obligation.
  intros h m f a m' f' E Hs Ho. cbn [fwStep toy_firmware] in E. destruct (_ && _) eqn:Eg; injection E as <- <- <-; [|done].
  apply andb_true_iff in Eg as [Eg Hm]. cbn [ba_out]. split; [lia|]. split; [done|]. by apply mappedb_ok.
Qed.
Next Obligation.
  intros c m f a m' f' h E Hk Hi x Hx. cbn [fwStep toy_firmware] in E.
  destruct c; try discriminate Hk; [|destruct (_ && _); by injection E as <- <- <-].
  apply toyAlloc_ok in E as [(_ & -> & _)|(_ & -> & _ & Hb & Hn & _)]; [done|]. apply allocAt_outside. unfold within, toyLip, lipSize, toyBase in *. lia.
Qed.
Next Obligation. intros f h x Hi Hx. unfold within, toyLip, lipSize, toyBase in *. lia. Qed.
Next Obligation. intros h h' x Hi Hi' Hx Hx'. unfold within, toyLip, lipSize in *. lia. Qed.

Definition toyMachine : Machine toyFw := mkMachine (mkToy toyBase) (allocAt (allocAt ∅ (toyLip 1) (make 96)) (toyLip 2) (make 96)) 1 1 [].
