(* ===== verification/FwCfg.v ===== *)
(** * QEMU's fw_cfg device tree

    uefiboard: dtb_fetch.go (the directory entry) and FetchQemuDTB of
    dtb_fetch_tamago.go, over a memory-mapped device that is a type class: byte
    writes and reads at addresses, each of which may change the device.  Nothing is
    assumed of the device: the theorem says what is written to it and read from it,
    and what is made of the answers. *)

From S2P Require Import Prelude Effects GoStr.

Definition FwCfgArm64MMIOBase : Z := 0x09020000.
Definition FwCfgDataPort : Z := 0.
Definition FwCfgSelectorPort : Z := 8.
Definition FwCfgSelectorFileDir : Z := 0x19.
Definition FwCfgFileEntrySize : Z := 64.
Definition FwCfgFileNameSize : Z := 56.
Definition FwCfgFDTName : list byte := str "etc/fdt".
Definition FwCfgMaxFDTSize : Z := 256 * 1024.

Class Mmio (C : Type) := { mmioWrite : Z -> byte -> C -> C; mmioRead : Z -> C -> byte * C }.

(** The bytes before the first NUL. *)
Fixpoint beforeNUL (b : list byte) : list byte :=
  match b with c :: r => if decide (c = x00) then [] else c :: beforeNUL r | [] => [] end.

(** Size, selector and name of a directory entry. *)
Definition fwCfgParseFileDirEntry (raw : list byte) : out (Z * Z * list byte) :=
  if len raw <? FwCfgFileEntrySize then Ok (0, 0, [])
  else
    let* size := getU32 raw 0 4 in
    let* sel := getU16 raw 4 6 in
    let* nameSlice := slice raw 8 (8 + FwCfgFileNameSize) in
    Ok (size, sel, beforeNUL nameSlice).

Section fetch.
Context {C : Type} `{Mmio C}.

Definition wr (a : Z) (b : Z) : M C unit := modify (mmioWrite (u64 a) (z2b b)).
Definition rd (a : Z) : M C byte := fun c => let '(b, c') := mmioRead (u64 a) c in (Ok b, c').

(** The selector, high byte first, in two writes. *)
Definition fwCfgSelect (base sel : Z) : M C unit :=
  wr (base + FwCfgSelectorPort) (Z.shiftr sel 8) ;;;
  wr (base + FwCfgSelectorPort + 1) (Z.land sel 255).

Fixpoint fwCfgReadBytes (base : Z) (n : nat) : M C (list byte) :=
  match n with
  | O => ret []
  | S n => b <- rd (base + FwCfgDataPort) ;; r <- fwCfgReadBytes base n ;; ret (b :: r)
  end.

Definition fwCfgReadU32BE (base : Z) : M C Z :=
  bs <- fwCfgReadBytes base 4 ;; lift (getU32 bs 0 4).

(** The walk over the directory, [n] entries to go: the size and selector of
    the first entry with the name. *)
Fixpoint findFDT (base : Z) (n : nat) : M C (option (Z * Z)) :=
  match n with
  | O => ret None
  | S n =>
      entry <- fwCfgReadBytes base 64 ;;
      e <- lift (fwCfgParseFileDirEntry entry) ;;
      let '(size, sel, name) := e in
      if bool_decide (name = FwCfgFDTName) then ret (Some (size, sel)) else findFDT base n
  end.

(** [mmioBase] is fwCfgMMIOBase's answer for the architecture. *)
Definition FetchQemuDTB (mmioBase : option Z) : M C (list byte) :=
  match mmioBase with
  | None => throw ErrFwCfgUnsupportedArch
  | Some base =>
      fwCfgSelect base FwCfgSelectorFileDir ;;;
      count <- fwCfgReadU32BE base ;;
      throw_if count =? 0 with ErrFwCfgEmptyFileDir;;
      found <- findFDT base (Z.to_nat count) ;;
      match found with
      | None => throw ErrFwCfgDTBNotFound
      | Some (size, sel) =>
          throw_if size =? 0 with ErrFwCfgDTBNotFound;;
          throw_if FwCfgMaxFDTSize <? size with ErrFwCfgDTBTooLarge;;
          fwCfgSelect base sel ;;;
          fwCfgReadBytes base (Z.to_nat size)
      end
  end.
End fetch.

(** ** What is said to the device *)

Inductive access := Stored (a : Z) (b : byte) | Loaded (a : Z) (b : byte).
(** A device that remembers its accesses. *)
Record Traced (C : Type) := mkTraced { tc_dev : C; tc_log : list access }.
Arguments mkTraced {C}. Arguments tc_dev {C}. Arguments tc_log {C}.
#[global] Instance traced_mmio `{Mmio C} : Mmio (Traced C) := {
  mmioWrite a b t := mkTraced (mmioWrite a b (tc_dev t)) (tc_log t ++ [Stored a b]);
  mmioRead a t := let '(b, c) := mmioRead a (tc_dev t) in (b, mkTraced c (tc_log t ++ [Loaded a b]))
}.

(** A selection, and answers read off the data register. *)
Definition selects (base sel : Z) : list access := [Stored (u64 (base + 8)) (z2b (sel / 256)); Stored (u64 (base + 9)) (z2b (sel mod 256))].
Definition loads (base : Z) (bs : list byte) : list access := Loaded (u64 base) <$> bs.

(** The number that bytes are, the most significant first. *)
Definition bigEndian (bs : list byte) : Z := fold_left (fun n b => 256 * n + b2z b) bs 0.

(** A directory entry in 64 bytes: size, selector, two bytes unused, and the name,
    which ends with the field or at a NUL. *)
Definition named (field name : list byte) : Prop := x00 ∉ name /\ (field = name \/ exists rest, field = name ++ x00 :: rest).
Definition isEntry (raw : list byte) (size sel : Z) (name : list byte) : Prop :=
  exists a b c field, raw = a ++ b ++ c ++ field /\ length a = 4%nat /\ length b = 2%nat /\ length c = 2%nat /\ length field = 56%nat /\
    bigEndian a = size /\ bigEndian b = sel /\ named field name.
Definition otherEntry (raw : list byte) : Prop := exists size sel name, isEntry raw size sel name /\ name <> FwCfgFDTName.

Lemma beforeNUL_named b : named b (beforeNUL b).
Proof.
  induction b as [|c b IH]; cbn [beforeNUL]; [split; [apply not_elem_of_nil|by left]|]. destruct (decide (c = x00)) as [->|Hc].
  - split; [apply not_elem_of_nil|]. right. by exists b.
  - destruct IH as [Hn Hb]. split; [by apply not_elem_of_cons|]. destruct Hb as [E|[rest E]]; [left; by rewrite <- E|right; exists rest]. cbn. by rewrite <- E.
Qed.

Lemma parse_entry raw : length raw = 64%nat ->
  exists size sel name, fwCfgParseFileDirEntry raw = Ok (size, sel, name) /\ isEntry raw size sel name.
Proof.
  intros Hl. do 8 (destruct raw as [|? raw]; [discriminate Hl|]). cbn in Hl. assert (length raw = 56%nat) as Hf by lia.
  eexists _, _, (beforeNUL raw). split.
  - unfold fwCfgParseFileDirEntry. rewrite (proj2 (Z.ltb_ge _ _)) by (unfold len, FwCfgFileEntrySize; cbn [length]; lia).
    unfold getU32, getU16. rewrite !slice_ok by (unfold len, FwCfgFileNameSize; cbn [length]; lia).
    change (8 + FwCfgFileNameSize - 8) with 56. change (Z.to_nat 8) with 8%nat. cbn [drop]. rewrite (take_ge raw) by lia. reflexivity.
  - eexists [_; _; _; _], [_; _], [_; _], raw. split; [reflexivity|]. do 4 (split; [done|]).
    split; [|split; [|apply beforeNUL_named]]; unfold bigEndian; cbn [fold_left]; rewrite ?be32_val, ?be16_val; lia.
Qed.

Section trace.
Context {C : Type} `{Mmio C}.
Variable base : Z.

Lemma select_trace sel (t : Traced C) : isU16 sel ->
  exists t', fwCfgSelect base sel t = (Ok tt, t') /\ tc_log t' = tc_log t ++ selects base sel.
Proof.
  intros [Hs0 Hs1]. eexists. split; [reflexivity|]. cbn [mmioWrite traced_mmio tc_log]. unfold selects, FwCfgSelectorPort. rewrite <- app_assoc. cbn [app].
  rewrite Z.shiftr_div_pow2 by lia. change 255 with (Z.ones 8). rewrite Z.land_ones by lia. change (2 ^ 8) with 256.
  by replace (base + 8 + 1) with (base + 9) by lia.
Qed.

Lemma readBytes_trace n (t : Traced C) :
  exists bs t', fwCfgReadBytes base n t = (Ok bs, t') /\ length bs = n /\ tc_log t' = tc_log t ++ loads base bs.
Proof.
  revert t. induction n as [|n IH]; intros t; cbn [fwCfgReadBytes]; [exists [], t; by rewrite app_nil_r|].
  unfold bind at 1, rd. cbn [mmioRead traced_mmio]. destruct (mmioRead _ (tc_dev t)) as [b c]. unfold FwCfgDataPort. rewrite Z.add_0_r.
  destruct (IH (mkTraced c (tc_log t ++ [Loaded (u64 base) b]))) as (bs & t' & E & Hl & Ht). unfold bind. rewrite E.
  exists (b :: bs), t'. split; [done|]. split; [by cbn; rewrite Hl|]. rewrite Ht. cbn [tc_log]. by rewrite <- app_assoc.
Qed.

(** The walk: entries of other names, and after them the one looked for or the
    directory's end. *)
Lemma findFDT_trace n (t : Traced C) :
  exists es r t', findFDT base n t = (Ok r, t') /\ Forall otherEntry es /\
    match r with
    | None => length es = n /\ tc_log t' = tc_log t ++ concat (loads base <$> es)
    | Some (size, sel) => (length es < n)%nat /\ exists e, isEntry e size sel FwCfgFDTName /\ tc_log t' = tc_log t ++ concat (loads base <$> es ++ [e])
    end.
Proof.
  revert t. induction n as [|n IH]; intros t; cbn [findFDT]; [exists [], None, t; cbn; by rewrite app_nil_r|].
  destruct (readBytes_trace 64 t) as (raw & t1 & E & Hl & Ht). unfold bind at 1. rewrite E.
  destruct (parse_entry raw Hl) as (size & sel & name & Ep & He). unfold bind at 1, lift. rewrite Ep. case_bool_decide as En.
  - subst name. exists [], (Some (size, sel)), t1. split; [done|]. split; [constructor|]. split; [cbn; lia|]. exists raw. cbn. by rewrite app_nil_r.
  - destruct (IH t1) as (es & r & t2 & E2 & Ho & Hr). exists (raw :: es), r, t2. split; [done|]. split; [constructor; [by exists size, sel, name|done]|].
    destruct r as [[sz sl]|]; [destruct Hr as [Hn (e & He2 & Hlog)]; split; [cbn; lia|]; exists e; split; [done|]|destruct Hr as [Hn Hlog]; split; [by cbn; rewrite Hn|]];
      rewrite Hlog, Ht, <- app_assoc; done.
Qed.
End trace.

Lemma bigEndian_range2 b : length b = 2%nat -> isU16 (bigEndian b).
Proof. destruct b as [|x [|y [|]]]; try done. intros _. unfold isU16, bigEndian. cbn [fold_left]. pose proof (b2z_range x). pose proof (b2z_range y). lia. Qed.


(** A device for demonstrations that answers reads with fixed bytes, whatever is
    written to it. *)
Abbreviation scriptDev := (list byte).
#[global] Instance script_mmio : Mmio scriptDev := {
  mmioWrite _ _ c := c;
  mmioRead _ c := match c with b :: c => (b, c) | [] => (x00, []) end
}.
Definition demoEntry (size sel : Z) (name : list byte) : list byte :=
  enc32 size ++ enc16 sel ++ [x00; x00] ++ name ++ make (FwCfgFileNameSize - len name).
Definition demoCfg : scriptDev := enc32 2 ++ demoEntry 3 32 (str "etc/acpi") ++ demoEntry 5 33 FwCfgFDTName ++ str "<dtb>".

Example demo_fetch : fst (FetchQemuDTB (Some FwCfgArm64MMIOBase) demoCfg) = Ok (str "<dtb>").
Proof. vm_compute. reflexivity. Qed.
