(* ===== verification/BootEntry.v ===== *)
(** * From the menu to the kernel

    phase2_dhcp_oci_menu.go: fetching the menu, bootEntry and
    streamExtractVmlinuzMenu, over the registry client, the menu, the boot
    services and the device tree.  gzip and tar are a parameter: the entries
    that a layer decodes to. *)

From S2P Require Import Prelude Effects NetIP GoStr LittleEndian Memory MemMap Utf8 Http OciRef OciFetch HttpStream HttpTransport OciStream BootMenu BootServices FwCfg.

Definition dhcpOCIMenuMaxBlobSize : Z := 1 * 1024 * 1024.
Definition dhcpOCIMenuMaxLayerSize : Z := 64 * 1024 * 1024.
Definition dhcpOCIMenuVmlinuzName : list byte := str "boot/vmlinuz".

(** An entry of a tar stream: its header, the bytes its body yields, and how
    reading the body fails when they are too few. *)
Record tarEntry := mkTar { te_Typeflag : byte; te_Name : list byte; te_Size : Z; te_Data : list byte; te_Err : option error }.
(** gzip.NewReader's error, or the entries with how the stream ends ([None] is
    io.EOF). *)
Abbreviation tarGz := (list tarEntry * option error + error)%type.

Definition TypeReg : byte := x30.
Definition TypeRegA : byte := x00.
Definition isRegular (h : tarEntry) : bool := bool_decide (te_Typeflag h = TypeReg) || bool_decide (te_Typeflag h = TypeRegA).
Definition stripDot (name : list byte) : list byte :=
  match name with c :: d :: r => if bool_decide (c = x2e) && bool_decide (d = x2f) then r else name | _ => name end.

Record BootSt (T F C : Type) := mkBoot { bt_reg : Registry T; bt_mach : Machine F; bt_cfg : C }.
Arguments mkBoot {T F C}. Arguments bt_reg {T F C}. Arguments bt_mach {T F C}. Arguments bt_cfg {T F C}.

Section boot.
Context {T F C : Type} `{Transport T} `{Firmware F} `{Mmio C}.
Variable Sum256 : list byte -> list byte.
Variable J : Decoders.
Variable X : StreamTransport T.
Variable readTarGz : list byte -> tarGz.
Variable hclDecode : list byte -> option BootConfig.
Variable goarch : list byte.
Variable mmioBase : option Z.
Variable EmbeddedArm64VirtDTB : list byte.

Notation BootM := (M (BootSt T F C)).
Definition onReg {A} (m : M (Registry T) A) : BootM A := zoom bt_reg (fun r s => mkBoot r (bt_mach s) (bt_cfg s)) m.
Definition onMach {A} (m : M (Machine F) A) : BootM A := zoom bt_mach (fun x s => mkBoot (bt_reg s) x (bt_cfg s)) m.
Definition onCfg {A} (m : M C A) : BootM A := zoom bt_cfg (fun c s => mkBoot (bt_reg s) (bt_mach s) c) m.

(** [reg := oci.NewRegistry(s, dns, ref)] with its timeouts. *)
Definition newRegistry (dns : IP) (ref : Ref) (requestTimeout : Z) : BootM unit :=
  modify (fun s => mkBoot (mkRegistry (reg_Transport (bt_reg s)) (Some dns) ref (15 * second) (requestTimeout * second) [])
                     (bt_mach s) (bt_cfg s)).

(** The manifest behind a reference: through the index when there is one. *)
Definition fetchManifest (ref : Ref) : BootM Manifest :=
  i <- onReg (FetchManifestRaw (ref_Reference ref)) ;;
  let '(rawIndex, contentType) := i in
  rawManifest <-
    (if IsIndex J rawIndex contentType then
       idx <- lift (ParseIndex J rawIndex) ;;
       picked <- lift (PickPlatform idx (str "linux") goarch) ;;
       m <- onReg (FetchManifestRaw (d_Digest picked)) ;;
       ret (fst m)
     else ret rawIndex) ;;
  lift (ParseManifest J rawManifest).

(** Its first layer. *)
Definition layerZero (refString : list byte) (dns : IP) (requestTimeout : Z) : BootM Descriptor :=
  ref <- lift (ParseRef refString) ;;
  newRegistry dns ref requestTimeout ;;;
  onReg Authenticate ;;;
  m <- fetchManifest ref ;;
  match m_Layers m with
  | [] => throw ErrNoLayers
  | layer :: _ => ret layer
  end.

(** The same, when it is not too large. *)
Definition firstLayer (refString : list byte) (dns : IP) (requestTimeout maxSize : Z) : BootM Descriptor :=
  layer <- layerZero refString dns requestTimeout ;;
  throw_if maxSize <? d_Size layer with ErrLayerTooBig;; ret layer.

(** [var buf bytes.Buffer; reg.FetchBlobStream(desc, &buf)]: the buffer. *)
Definition streamToBuffer (desc : Descriptor) : BootM (list byte) := fun s =>
  let '(o, (r, buf)) := FetchBlobStream Sum256 (Some X) desc (bt_reg s, []) in
  (match o with
   | Ok (_, None) => Ok buf
   | Ok (_, Some e) | Err e => Err e
   | Panic => Panic
   end, mkBoot r (bt_mach s) (bt_cfg s)).

(** ** The kernel (streamExtractVmlinuzMenu) *)

(** The walk over the entries; the result is a slice of firmware memory. *)
Fixpoint extractFrom (entries : list tarEntry) (fin : option error) (name : list byte) : BootM (Z * Z) :=
  match entries with
  | [] => throw (default ErrVmlinuzNotFound fin)
  | h :: r =>
      if negb (isRegular h) then extractFrom r fin name
      else if negb (bool_decide (stripDot (te_Name h) = name)) then extractFrom r fin name
      else
        let sz := te_Size h in
        throw_if sz <=? 0 with ErrVmlinuzEmpty;;
        let pages := u64 (Z.quot (s64 (sz + EfiPageSize - 1)) EfiPageSize) in
        addr <- onMach (AllocatePages EfiLoaderData pages) ;;
        lift (unsafeSlice addr sz) ;;;
        onMach (writeMem (fun m => storeBytes m addr (take (Z.to_nat sz) (te_Data h)))) ;;;
        throw_if len (te_Data h) <? sz with default (if len (te_Data h) =? 0 then ErrEOF else ErrUnexpectedEOF) (te_Err h);;
        ret (addr, sz)
  end.

Definition streamExtractVmlinuzMenu (desc : Descriptor) (name : list byte) : BootM (Z * Z) :=
  buf <- streamToBuffer desc ;;
  match readTarGz buf with
  | inr gerr => throw gerr
  | inl (entries, fin) => extractFrom entries fin name
  end.

(** ** bootEntry *)

(** The device tree, fetched or embedded; publishing it may fail. *)
Definition publishTree : BootM unit :=
  fwCfgDTB <- try (onCfg (FetchQemuDTB mmioBase)) ;;
  let publishedDTB :=
    match fwCfgDTB with
    | inl dtb => if 0 <? len dtb then dtb else EmbeddedArm64VirtDTB
    | inr _ => EmbeddedArm64VirtDTB
    end in
  if 0 <? len publishedDTB then ignore (onMach (PublishDTB publishedDTB)) else ret tt.

(** [len(vmlinuz) < 2 || vmlinuz[0] != 'M' || vmlinuz[1] != 'Z'] *)
Definition checkMZ (v : Z * Z) : BootM unit :=
  throw_if snd v <? 2 with ErrNotPE;;
  mz <- onMach (sliceBytes (fst v) 2) ;;
  throw_if negb (bool_decide (mz = str "MZ")) with ErrNotPE;; ret tt.

(** The kernel in memory, and what is set up for it. *)
Definition prepareKernel (klayer : Descriptor) : BootM (list byte) :=
  vmlinuz <- streamExtractVmlinuzMenu klayer dhcpOCIMenuVmlinuzName ;;
  checkMZ vmlinuz ;;;
  publishTree ;;;
  onMach UninstallAllRNG ;;;
  onMach (sliceBytes (fst vmlinuz) (snd vmlinuz)).

Definition loadKernel (entry : Entry) (vmlinuz : list byte) : BootM Z :=
  handle <- onMach (LoadImage vmlinuz) ;;
  (if bool_decide (e_Cmdline entry = []) then ret tt else onMach (SetLoadOptions handle (e_Cmdline entry))) ;;;
  onMach (InheritParentDeviceHandle handle) ;;;
  ret handle.

(** Everything before StartImage: the handle of the loaded image. *)
Definition bootPrepare (entry : Entry) (dns : IP) : BootM Z :=
  klayer <- firstLayer (e_KernelRef entry) dns 120 dhcpOCIMenuMaxLayerSize ;;
  vmlinuz <- prepareKernel klayer ;;
  loadKernel entry vmlinuz.

Definition bootLaunch (handle : Z) : BootM unit :=
  r <- onMach (StartImage handle) ;;
  if negb (fst r =? 0) then ignore (onMach (UnloadImage handle)) else ret tt.

(** An error is the printed reason of an early return. *)
Definition bootEntry (entry : Entry) (dns : IP) : BootM unit :=
  handle <- bootPrepare entry dns ;; bootLaunch handle.

(** ** The menu (runDHCPOCIMenuProbe, from the lease on) *)

Definition fetchMenu (bootfileName : list byte) (dns : IP) : BootM BootConfig :=
  target <- firstLayer bootfileName dns 60 dhcpOCIMenuMaxBlobSize ;;
  buf <- streamToBuffer target ;;
  lift (Parse hclDecode buf).

(** The menu on the inputs [ts] read from [start] on, and the entry it
    dispatches. *)
Definition runMenu (bootfileName : list byte) (dns : IP) (start : Z) (ts : list tick) : BootM unit :=
  cfg <- fetchMenu bootfileName dns ;;
  o <- lift (fst (menuLoop cfg (indexOfDefault cfg) start ts)) ;;
  match o with
  | inr (Dispatched entry) => bootEntry entry dns
  | _ => ret tt
  end.
End boot.

(** ** What stays as it was *)

(** A relation of machines, on the states of the boot. *)
Definition machRel {T F C} (R : Machine F -> Machine F -> Prop) (s s' : BootSt T F C) : Prop := R (bt_mach s) (bt_mach s').
#[global] Instance machRel_preorder {T F C} R `{!PreOrder R} : PreOrder (@machRel T F C R).
Proof. split; [intros s; unfold machRel; reflexivity|]. intros a b c. unfold machRel. intros. by etransitivity. Qed.

Section rel.
Context {T F C : Type} `{Transport T} `{Firmware F} `{Mmio C} (R : Machine F -> Machine F -> Prop) `{!PreOrder R}.

Lemma onMach_moves {A} (m : M (Machine F) A) : moves R m -> moves (machRel R) (@onMach T F C A m).
Proof. intros Hm s. unfold onMach, zoom, machRel. specialize (Hm (bt_mach s)). by destruct (m (bt_mach s)). Qed.
Lemma onReg_moves {A} (m : M (Registry T) A) : moves (machRel R) (@onReg T F C A m).
Proof. intros s. unfold onReg, zoom, machRel. destruct (m (bt_reg s)). cbn. reflexivity. Qed.
Lemma onCfg_moves {A} (m : M C A) : moves (machRel R) (@onCfg T F C A m).
Proof. intros s. unfold onCfg, zoom, machRel. destruct (m (bt_cfg s)). cbn. reflexivity. Qed.
Lemma newRegistry_moves dns ref t : moves (machRel R) (@newRegistry T F C dns ref t).
Proof. intros s. unfold newRegistry, modify, machRel. cbn. reflexivity. Qed.
Lemma streamToBuffer_moves Sum256 X desc : moves (machRel R) (@streamToBuffer T F C Sum256 X desc).
Proof. intros s. unfold streamToBuffer, machRel. destruct (FetchBlobStream _ _ _ _) as [o [r b]]. cbn. reflexivity. Qed.
End rel.
#[export] Hint Resolve onReg_moves onCfg_moves newRegistry_moves streamToBuffer_moves : gomove.
#[export] Hint Extern 2 (moves (machRel _) (onMach _)) => apply onMach_moves : gomove.
#[export] Hint Extern 1 (PreOrder _) => apply _ : gomove.

Section props.
Context {T F C : Type} `{Transport T} `{FirmwareOk F} `{Mmio C}.
Variable Sum256 : list byte -> list byte.
Variable J : Decoders.
Variable X : StreamTransport T.
Context `{!StreamSound X}.
Variable readTarGz : list byte -> tarGz.
Variable hclDecode : list byte -> option BootConfig.
Variable goarch : list byte.
Variable mmioBase : option Z.
Variable EmbeddedArm64VirtDTB : list byte.
Notation St := (BootSt T F C).
Notation quietly m := (moves (@machRel T F C noStart) m).
Notation spares m := (moves (@machRel T F C spared) m).

Lemma layerZero_moves R `{!PreOrder R} a b c : moves (@machRel T F C R) (layerZero J goarch a b c).
Proof. unfold layerZero, fetchManifest. go_move. Qed.
Hint Resolve layerZero_moves : gomove.
Lemma firstLayer_moves R `{!PreOrder R} a b c d : moves (@machRel T F C R) (firstLayer J goarch a b c d).
Proof. unfold firstLayer. go_move. Qed.
Hint Resolve firstLayer_moves : gomove.
Lemma extractFrom_moves es fin name : quietly (extractFrom es fin name).
Proof. induction es as [|e es IH]; cbn [extractFrom]; cbv zeta; go_move. Qed.
Hint Resolve extractFrom_moves : gomove.
Lemma publishTree_moves : quietly (publishTree mmioBase EmbeddedArm64VirtDTB).
Proof. unfold publishTree. cbv zeta. go_move. Qed.
Lemma publishTree_spares : spares (publishTree mmioBase EmbeddedArm64VirtDTB).
Proof. unfold publishTree. cbv zeta. go_move. Qed.
Lemma checkMZ_moves R `{!PreOrder R} v : (forall p n, moves R (sliceBytes p n)) -> moves (@machRel T F C R) (checkMZ v).
Proof. intros Hs. unfold checkMZ. go_move. Qed.
Notation prepare := (prepareKernel Sum256 X readTarGz mmioBase EmbeddedArm64VirtDTB).
Lemma prepareKernel_moves l : quietly (prepare l).
Proof.
  unfold prepareKernel, streamExtractVmlinuzMenu. pose proof publishTree_moves. go_move; try (apply checkMZ_moves; [apply _|intros]); go_move.
Qed.
Hint Resolve prepareKernel_moves : gomove.
Lemma loadKernel_moves e v : quietly (loadKernel e v).
Proof. unfold loadKernel. go_move. Qed.
Hint Resolve loadKernel_moves : gomove.
Lemma bootPrepare_moves e dns : quietly (bootPrepare Sum256 J X readTarGz goarch mmioBase EmbeddedArm64VirtDTB e dns).
Proof. unfold bootPrepare. go_move. Qed.

(** ** What a successful step gives *)

Lemma onMach_ok {A} (m : M (Machine F) A) (s : St) a s' :
  onMach m s = (Ok a, s') -> m (bt_mach s) = (Ok a, bt_mach s').
Proof. unfold onMach, zoom. destruct (m (bt_mach s)) as [o x]. by intros [= -> <-]. Qed.
Lemma onReg_ok {A} (m : M (Registry T) A) (s : St) a s' : onReg m s = (Ok a, s') -> m (bt_reg s) = (Ok a, bt_reg s').
Proof. unfold onReg, zoom. destruct (m (bt_reg s)) as [o x]. by intros [= -> <-]. Qed.

(** A blob out of the registry: the one that the streaming client wrote, which
    matches the descriptor's digest and size. *)
Definition downloaded (r : Registry T) (desc : Descriptor) (blob : list byte) (r' : Registry T) : Prop :=
  blobOf Sum256 desc blob /\ exists n, FetchBlobStream Sum256 (Some X) desc (r, []) = (Ok (n, None), (r', blob)).

Lemma streamToBuffer_ok desc (s : St) buf s' :
  streamToBuffer Sum256 X desc s = (Ok buf, s') -> downloaded (bt_reg s) desc buf (bt_reg s') /\ bt_mach s' = bt_mach s.
Proof.
  unfold streamToBuffer. destruct (FetchBlobStream _ _ _ _) as [o [r w]] eqn:E0. pose proof E0 as E. revert E0. unfold FetchBlobStream.
  destruct (ParseDigest (d_Digest desc)) as [d|e|]; [|by intros [= <- <- <-]..]. intros E0.
  destruct o as [[n [e|]]|e|]; [done| |done|done]. intros [= <- <-]. split; [|done]. split; [|by exists n].
  apply bind_ok in E0 as (r0 & s1 & [= <- <-] & Hk).
  eapply (streamFrom_ok X Sum256 id (fun w1 => w1 = [])) in Hk as (w1 & body & -> & Hb & _ & Ho); [| |done].
  - cbn in Hb. by apply wrote_append in Hb as ->.
  - intros x y -> Hy. cbn in Hy. by apply wrote_append in Hy.
Qed.

(** The registry client [r] asks its registry for the manifest [name] of its
    reference, with its name server, its timeouts and its token, and is answered
    with [raw] of type [ct]. *)
Definition answersManifest (r : Registry T) (name raw ct : list byte) (r' : Registry T) : Prop :=
  exists resp t',
    tGet (ref_Scheme (reg_Ref r) ++ str "://" ++ ref_Host (reg_Ref r) ++ str "/v2/" ++ ref_Repo (reg_Ref r) ++ str "/manifests/" ++ name)
      (mkGetOptions (reg_DNS r) (reg_DialTimeout r) (reg_RequestTimeout r)
         ((str "Accept: " ++ ManifestAcceptHeader) :: (if bool_decide (reg_bearer r = []) then [] else [str "Authorization: Bearer " ++ reg_bearer r])))
      (reg_Transport r) = (Ok resp, t') /\
    StatusCode resp = 200 /\ Body resp = raw /\ default [] (Headers resp !! str "content-type") = ct /\ r' = setTransport t' r.

Lemma FetchManifestRaw_ok name (r : Registry T) raw ct r' : FetchManifestRaw name r = (Ok (raw, ct), r') -> answersManifest r name raw ct r'.
Proof.
  unfold FetchManifestRaw, httpGet. intros (ref & s0 & [= <- <-] & (b & s1 & [= <- <-] & Hk)%bind_ok)%bind_ok. cbv zeta in Hk.
  apply bind_ok in Hk as (resp & s2 & (x & s3 & [= <- <-] & Hg)%bind_ok & [Hst [[= -> ->] ->]%ret_ok]%guard_ok).
  revert Hg. unfold zoom. destruct (tGet _ _ _) as [o t'] eqn:E. intros [= -> <-]. exists resp, t'.
  unfold manifestURL, baseURL in E. rewrite <- !app_assoc in E. split_and!; [exact E|lia|done..].
Qed.

(** The manifest that an index names for a platform: the first one for linux on
    this architecture. *)
Definition indexNames (idx : OciIndex) (d : Descriptor) : Prop :=
  let fits d := exists p, d_Platform d = Some p /\ OS p = str "linux" /\ Architecture p = goarch in
  exists pre post, i_Manifests idx = pre ++ d :: post /\ fits d /\ Forall (fun d' => ~ fits d') pre.

Lemma PickPlatform_ok idx d : PickPlatform idx (str "linux") goarch = Ok d -> indexNames idx d.
Proof.
  unfold PickPlatform, indexNames. induction (i_Manifests idx) as [|m ms IH]; cbn [pickFrom]; [done|].
  assert (forall m, platformMatches (str "linux") goarch m = true <-> exists p, d_Platform m = Some p /\ OS p = str "linux" /\ Architecture p = goarch) as Hm.
  { clear. intros m. unfold platformMatches. destruct (d_Platform m) as [p|]; [|split; [done|by intros (? & ? & _)]].
    rewrite andb_true_iff, !bool_decide_eq_true. split; [by exists p|by intros (? & [= <-] & ?)]. }
  destruct (platformMatches _ _ m) eqn:E.
  - intros [= <-]. exists [], ms. split; [done|]. split; [by apply Hm|constructor].
  - intros (pre & post & -> & Hd & Hpre)%IH. exists (m :: pre), post. split; [done|]. split; [done|]. constructor; [|done].
    intros Hf. apply Hm in Hf. congruence.
Qed.

(** The first layer of the manifest of a reference, as its registry served it to a
    client that starts on transport [t]: the client authenticates, asks for the
    manifest of the reference, and, when an index is the answer, for the manifest
    that the index names for this architecture. *)
Definition servedLayer (t : T) (dns : IP) (timeout : Z) (refString : list byte) (layer : Descriptor) (r' : Registry T) : Prop :=
  exists ref r1 r2 raw ct raw' m more,
    ParseRef refString = Ok ref /\
    Authenticate (mkRegistry t (Some dns) ref (15 * second) (timeout * second) []) = (Ok tt, r1) /\ reg_Ref r1 = ref /\
    answersManifest r1 (ref_Reference ref) raw ct r2 /\
    (if IsIndex J raw ct then
       exists idx d ct', ParseIndex J raw = Ok idx /\ indexNames idx d /\ answersManifest r2 (d_Digest d) raw' ct' r'
     else raw' = raw /\ r' = r2) /\
    ParseManifest J raw' = Ok m /\ m_Layers m = layer :: more.

Lemma layerZero_ok refString dns t (s : St) layer s' :
  layerZero J goarch refString dns t s = (Ok layer, s') -> servedLayer (reg_Transport (bt_reg s)) dns t refString layer (bt_reg s').
Proof.
  unfold layerZero. intros (ref & s0 & [Hp ->]%lift_ok & ([] & s1 & [= <-] & ([] & s2 & Ha & Hk)%bind_ok)%bind_ok)%bind_ok.
  apply onReg_ok in Ha. cbn [bt_reg] in Ha. set (r0 := mkRegistry _ _ _ _ _ _) in Ha. pose proof (Authenticate_ref r0) as Hr. rewrite Ha in Hr. cbn [snd] in Hr.
  apply bind_ok in Hk as (m & s3 & Hm & Hk). unfold fetchManifest in Hm. apply bind_ok in Hm as ([raw ct] & s4 & Hi%onReg_ok%FetchManifestRaw_ok & Hm).
  destruct (m_Layers m) as [|l more] eqn:El; [done|]. apply ret_ok in Hk as [-> ->].
  exists ref, (bt_reg s2), (bt_reg s4), raw, ct. destruct (IsIndex J raw ct).
  - apply bind_ok in Hm as (raw2 & s5 & Hm & [Hpm ->]%lift_ok). apply bind_ok in Hm as (idx & s6 & [Hidx ->]%lift_ok & Hm).
    apply bind_ok in Hm as (picked & s6 & [Hpick ->]%lift_ok & Hm). apply bind_ok in Hm as ([raw3 ct3] & s6 & H3%onReg_ok%FetchManifestRaw_ok & [-> ->]%ret_ok).
    exists raw3, m, more. split_and!; try done. exists idx, picked, ct3. split_and!; [done| |done]. by apply PickPlatform_ok.
  - apply bind_ok in Hm as (raw2 & s5 & [-> ->]%ret_ok & [Hpm ->]%lift_ok). exists raw, m, more. by split_and!.
Qed.

(** The same, when the layer is no larger than allowed. *)
Definition namedLayer (t : T) (dns : IP) (timeout : Z) (refString : list byte) (maxSize : Z) (layer : Descriptor) (r' : Registry T) : Prop :=
  servedLayer t dns timeout refString layer r' /\ d_Size layer <= maxSize.

Lemma firstLayer_ok refString dns t maxSize (s : St) layer s' :
  firstLayer J goarch refString dns t maxSize s = (Ok layer, s') ->
  namedLayer (reg_Transport (bt_reg s)) dns t refString maxSize layer (bt_reg s').
Proof.
  unfold firstLayer. intros (l & s1 & Hl%layerZero_ok & [Hsz [-> ->]%ret_ok]%guard_ok)%bind_ok. split; [done|lia].
Qed.

(** A file of a tar stream: the first regular entry of the name. *)
Definition fileIn (entries : list tarEntry) (name file : list byte) : Prop :=
  exists pre h post, entries = pre ++ h :: post /\
    Forall (fun h' => ~ (isRegular h' = true /\ stripDot (te_Name h') = name)) pre /\
    isRegular h = true /\ stripDot (te_Name h) = name /\ 0 < te_Size h /\ len file = te_Size h /\ file = take (Z.to_nat (te_Size h)) (te_Data h).

Lemma unsafeSlice_ok p n : unsafeSlice p n = Ok tt -> 0 <= n <= u64 (- p).
Proof. unfold unsafeSlice. destruct (Z.ltb_spec n 0), (Z.ltb_spec (u64 (- p)) n); cbn; try done. Qed.

(** The pages asked for hold the file. *)
Lemma pages_enough sz p : 0 < sz ->
  let pages := u64 (Z.quot (s64 (sz + EfiPageSize - 1)) EfiPageSize) in
  (pages = 0 -> p = 0) -> (pages <> 0 -> 0 <= p /\ p + pages * EfiPageSize <= 2 ^ 64) -> sz <= u64 (- p) ->
  pages <> 0 /\ sz <= pages * EfiPageSize.
Proof.
  intros Hsz pages Hz Hn Hu. assert (pages <> 0) as Hp. { intros E. rewrite (Hz E) in Hu. change (u64 (- 0)) with 0 in Hu. lia. }
  split; [done|]. destruct (Hn Hp) as [Hp0 Hp1]. assert (sz < 2 ^ 64) as Hlt by (unfold u64 in Hu; pose proof (Z.mod_pos_bound (- p) (2 ^ 64)); lia).
  clear Hz Hn Hu. unfold pages, EfiPageSize, u64, s64 in *. clear pages. change (2 ^ 64) with 18446744073709551616 in *. change (2 ^ 63) with 9223372036854775808 in *.
  Z.to_euclidean_division_equations. lia.
Qed.

Lemma extractFrom_ok entries fin name (s : St) p n s' :
  extractFrom entries fin name s = (Ok (p, n), s') ->
  exists file, fileIn entries name file /\ len file = n /\ holds (mc_mem (bt_mach s')) p file /\
    forall x, within p n x -> owned (mc_fw (bt_mach s')) x.
Proof.
  revert s. induction entries as [|h r IH]; intros s; cbn [extractFrom]; [done|].
  assert (~ (isRegular h = true /\ stripDot (te_Name h) = name) -> extractFrom r fin name s = (Ok (p, n), s') ->
    exists file, fileIn (h :: r) name file /\ len file = n /\ holds (mc_mem (bt_mach s')) p file /\
      forall x, within p n x -> owned (mc_fw (bt_mach s')) x) as Hskip.
  { intros Hh (file & (pre & h' & post & -> & Hpre & Hf) & Hrest)%IH. exists file. split; [|done].
    exists (h :: pre), h', post. split; [done|]. split; [by constructor|done]. }
  destruct (isRegular h) eqn:Er; cbn [negb]; [|apply Hskip; by intros [? _]].
  case_bool_decide as En; cbn [negb]; [|apply Hskip; by intros [_ ?]]. clear IH Hskip. cbv zeta. set (sz := te_Size h).
  intros [Hsz (addr & s1 & Ha & Hk)%bind_ok]%guard_ok. apply onMach_ok in Ha. apply bind_ok in Hk as ([] & s2 & [Hu ->]%lift_ok & Hk).
  apply unsafeSlice_ok in Hu as [_ Hu]. apply bind_ok in Hk as ([] & s2 & Hw & [Hlen [[= -> ->] ->]%ret_ok]%guard_ok). apply onMach_ok in Hw.
  destruct (pages_enough sz addr) as [Hp Hfit]; [lia| | |exact Hu|].
  { intros E. rewrite E in Ha. unfold AllocatePages in Ha. apply bind_ok in Ha as ([] & ? & _ & [? _]%ret_ok). done. }
  { intros E. apply AllocatePages_ok in Ha as (_ & (? & ? & _) & _); [|done]. split; [done|]. unfold EfiPageSize in *. lia. }
  apply AllocatePages_ok in Ha as (_ & Hm & Hown); [|done]. set (file := take (Z.to_nat sz) (te_Data h)) in *.
  assert (len file = sz) as Hfile by (unfold file, len in *; rewrite length_take; lia).
  destruct (writeMem_run addr file (bt_mach s1)) as (m' & E & Hh & Ho); [eapply mapped_sub; [exact Hm|lia|lia]|].
  rewrite E in Hw. injection Hw as Hw. exists file. split; [|split; [done|]].
  - exists [], h, r. split_and!; [done|constructor|done..|lia|done|done].
  - rewrite <- Hw. cbn [withMem mc_mem mc_fw]. split; [done|]. intros x Hx. apply Hown. unfold within in *. lia.
Qed.

(** ** What is started *)

(** The kernel that image [h] was loaded from, when it is started in memory [m]
    after the calls [pre]: the file boot/vmlinuz of the blob that was downloaded,
    from transport [t] on, for the first layer of the manifest of the entry's
    kernel reference; and what the image finds in its loaded-image structure. *)
Definition readyToStart (t : T) (dns : IP) (entry : Entry) (pre : list (bootCall * memory * bootAnswer)) (h : Z) (m : memory) : Prop :=
  exists layer r blob r' entries fin kernel image m0 a0 dev,
    namedLayer t dns 120 (e_KernelRef entry) dhcpOCIMenuMaxLayerSize layer r /\ downloaded r layer blob r' /\
    readTarGz blob = inl (entries, fin) /\ fileIn entries dhcpOCIMenuVmlinuzName kernel /\ take 2 kernel = str "MZ" /\
    (bsLoadImage 0 image [] kernel, m0, a0) ∈ pre /\ ba_status a0 = efiSuccess /\ ba_out a0 = h /\
    (e_Cmdline entry <> [] -> loadOptions m h (e_Cmdline entry)) /\
    len dev = 16 /\ holds m (lipOf image + efiLoadedImageDeviceHandle) dev /\ holds m (lipOf h + efiLoadedImageDeviceHandle) dev.

(** The command line survives the copy of the device handle. *)
Lemma options_inherited h cmdline (x0 x1 x2 : Machine F) :
  SetLoadOptions h cmdline x0 = (Ok tt, x1) -> InheritParentDeviceHandle h x1 = (Ok tt, x2) -> loadOptions (mc_mem x2) h cmdline.
Proof.
  intros (_ & _ & pool & Hsz & Hptr & Henc & Hown)%SetLoadOptions_ok (Hs & _ & Hk & _)%Inherit_ok. exists pool.
  assert (forall k bs, 40 <= k -> k + len bs <= 96 -> holds (mc_mem x1) (lipOf h + k) bs -> holds (mc_mem x2) (lipOf h + k) bs) as Hf.
  { intros k bs Hk0 Hk1 (Hp & Hw & Hb). split; [done|]. split; [done|]. intros i b E. rewrite Hk; [by apply Hb|].
    apply lookup_lt_Some in E. unfold within, len in *. lia. }
  split; [|split]; [by apply Hf..|]. by eapply (spared_own _ _ _ _ Hs).
Qed.

Lemma publishTree_own v (s : St) o s' p bs :
  publishTree mmioBase EmbeddedArm64VirtDTB s = (o, s') -> v = s -> keeps_own (bt_mach s) p bs -> keeps_own (bt_mach s') p bs.
Proof. intros Hp -> Ho. eapply spared_own; [|done]. pose proof (publishTree_spares s) as Hs. by rewrite Hp in Hs. Qed.

(** What is handed to LoadImage. *)
Lemma prepareKernel_ok layer (s s' : St) src :
  prepare layer s = (Ok src, s') ->
  exists blob r' entries fin, downloaded (bt_reg s) layer blob r' /\ readTarGz blob = inl (entries, fin) /\
    fileIn entries dhcpOCIMenuVmlinuzName src /\ take 2 src = str "MZ".
Proof.
  unfold prepareKernel. intros ([p n] & s2 & Hx & Hp)%bind_ok. unfold streamExtractVmlinuzMenu in Hx.
  apply bind_ok in Hx as (blob & s1 & [Hblob _]%streamToBuffer_ok & Hx).
  destruct (readTarGz blob) as [[entries fin]|e] eqn:Etar; [|done]. apply extractFrom_ok in Hx as (kernel & Hfile & Hn & Hown).
  assert (keeps_own (bt_mach s2) p kernel) as Ho by (rewrite <- Hn in Hown; by destruct Hown). clear Hown. cbn [fst snd] in Hp.
  apply bind_ok in Hp as ([] & s3 & Hmz & Hp). unfold checkMZ in Hmz. cbn [fst snd] in Hmz.
  apply guard_ok in Hmz as [Htwo (mz & s4 & Hr%onMach_ok & [Hmz [_ ->]%ret_ok]%guard_ok)%bind_ok].
  destruct (sliceBytes_own p kernel _ 2 _ _ Ho Hr) as [-> E3]; [lia|].
  assert (keeps_own (bt_mach s4) p kernel) as Ho4 by by rewrite E3.
  apply bind_ok in Hp as ([] & s5 & Ht & Hp). pose proof (moves_step _ _ _ _ _ Ht publishTree_spares) as Hs5.
  apply bind_ok in Hp as (k & s6 & Hy%onMach_ok & Hsrc%onMach_ok). pose proof (moves_step _ _ _ _ _ Hy UninstallAllRNG_spared) as Hs6.
  eapply spared_own in Ho4; [|exact Hs5]. eapply spared_own in Ho4; [|exact Hs6].
  destruct (sliceBytes_own p kernel _ n _ _ Ho4 Hsrc) as [-> E7]; [pose proof (len_nonneg kernel); lia|].
  rewrite <- Hn. unfold len. rewrite Nat2Z.id, take_ge by done. exists blob, (bt_reg s1), entries, fin. split_and!; [done..|].
  apply negb_false_iff, bool_decide_eq_true in Hmz. exact Hmz.
Qed.

Lemma loadKernel_ok entry kernel (s s' : St) h :
  loadKernel entry kernel s = (Ok h, s') ->
  exists new image m0 a0 dev, mc_calls (bt_mach s') = mc_calls (bt_mach s) ++ (bsLoadImage 0 image [] kernel, m0, a0) :: new /\
    ba_status a0 = efiSuccess /\ ba_out a0 = h /\
    (e_Cmdline entry <> [] -> loadOptions (mc_mem (bt_mach s')) h (e_Cmdline entry)) /\
    len dev = 16 /\ holds (mc_mem (bt_mach s')) (lipOf image + efiLoadedImageDeviceHandle) dev /\
    holds (mc_mem (bt_mach s')) (lipOf h + efiLoadedImageDeviceHandle) dev.
Proof.
  unfold loadKernel. intros (h' & s1 & Hl%onMach_ok & Hp)%bind_ok. pose proof (LoadImage_image kernel (bt_mach s)) as Himg.
  rewrite Hl in Himg. cbn [snd] in Himg. apply LoadImage_ok in Hl as (m0 & a0 & Hcalls & Hst & Hout).
  apply bind_ok in Hp as ([] & s2 & Ho & Hp). apply bind_ok in Hp as ([] & s3 & Hi%onMach_ok & [-> ->]%ret_ok).
  pose proof (moves_step _ _ _ _ _ Hi (Inherit_moves h')) as (n2 & En2 & _).
  assert (exists n1, mc_calls (bt_mach s2) = mc_calls (bt_mach s1) ++ n1 /\ mc_image (bt_mach s2) = mc_image (bt_mach s1) /\
    (e_Cmdline entry <> [] -> loadOptions (mc_mem (bt_mach s3)) h' (e_Cmdline entry))) as (n1 & En1 & Himg2 & Hopt).
  { case_bool_decide as Ec.
    - apply ret_ok in Ho as [_ ->]. exists []. by rewrite app_nil_r.
    - apply onMach_ok in Ho. pose proof (moves_step _ _ _ _ _ Ho (SetLoadOptions_moves _ _)) as (n1 & En1 & _). exists n1.
      pose proof (SetLoadOptions_image h' (e_Cmdline entry) (bt_mach s1)) as Hi1. rewrite Ho in Hi1. split; [done|]. split; [done|]. intros _.
      by eapply options_inherited. }
  apply Inherit_ok in Hi as (_ & _ & _ & dev & Hd & Hd1 & Hd2).
  exists (n1 ++ n2), (mc_image (bt_mach s)), m0, a0, dev. rewrite Himg2, Himg in Hd2. split_and!; [|done..].
  by rewrite En2, En1, Hcalls, <- !app_assoc.
Qed.

Lemma bootPrepare_ok entry dns (s : St) h s' :
  bootPrepare Sum256 J X readTarGz goarch mmioBase EmbeddedArm64VirtDTB entry dns s = (Ok h, s') ->
  exists pre, mc_calls (bt_mach s') = mc_calls (bt_mach s) ++ pre /\ Forall (fun e => isStart (fst (fst e)) = false) pre /\
    readyToStart (reg_Transport (bt_reg s)) dns entry pre h (mc_mem (bt_mach s')).
Proof.
  intros Hp. pose proof (moves_step _ _ _ _ _ Hp (bootPrepare_moves _ _)) as (pre & Epre & Fpre). exists pre. split; [done|]. split; [done|].
  unfold bootPrepare in Hp. apply bind_ok in Hp as (layer & s1 & Hl & Hp).
  pose proof (moves_step (machRel noStart) _ _ _ _ Hl (firstLayer_moves noStart _ _ _ _)) as (n1 & En1 & _).
  apply firstLayer_ok in Hl. apply bind_ok in Hp as (kernel & s2 & Hk & Hp).
  pose proof (moves_step _ _ _ _ _ Hk (prepareKernel_moves _)) as (n2 & En2 & _).
  apply prepareKernel_ok in Hk as (blob & r' & entries & fin & Hblob & Htar & Hfile & Hmz).
  apply loadKernel_ok in Hp as (new & image & m0 & a0 & dev & En3 & Hrest).
  exists layer, (bt_reg s1), blob, r', entries, fin, kernel, image, m0, a0, dev. destruct Hrest as (Hst & Hout & Hrest). split_and!; try done; try apply Hrest.
  rewrite En3, En2, En1, <- !app_assoc in Epre. apply app_inv_head in Epre as <-. set_solver.
Qed.

Definition quiet (calls : list (bootCall * memory * bootAnswer)) : Prop := Forall (fun e => isStart (fst (fst e)) = false) calls.

(** Starting the image: nothing once the boot services are gone, else one call
    in the memory as it is; then whatever follows, if it starts nothing. *)
Lemma start_calls {B} h (k : Z * option error -> M St B) (s : St) r s' :
  (forall x, quietly (k x)) -> (x <- onMach (StartImage h) ;; k x) s = (r, s') ->
  exists new, mc_calls (bt_mach s') = mc_calls (bt_mach s) ++ new /\
    (quiet new \/ exists a post, new = (bsStartImage h, mc_mem (bt_mach s), a) :: post /\ quiet post).
Proof.
  intros Hq. unfold bind at 1, onMach at 1, zoom, StartImage, bind at 1, gets. destruct (mc_bs (bt_mach s) =? 0) eqn:Eb.
  - unfold ret. intros Hk. destruct (moves_step (machRel noStart) _ _ _ _ Hk (Hq _)) as (post & Epost & Fpost). exists post. split; [exact Epost|by left].
  - unfold bind at 1, efiCall, ret at 1. destruct (fwStep (bsStartImage h) _ _) as [[a m] f]. cbv beta iota.
    set (s1 := mkBoot _ _ _). intros Hk. destruct (moves_step (machRel noStart) _ _ _ _ Hk (Hq _)) as (post & Epost & Fpost).
    exists ((bsStartImage h, mc_mem (bt_mach s), a) :: post). rewrite Epost. cbn [bt_mach s1 mc_calls]. rewrite <- app_assoc.
    split; [done|]. right. by exists a, post.
Qed.

Lemma bootLaunch_calls h (s : St) r s' :
  bootLaunch h s = (r, s') ->
  exists new, mc_calls (bt_mach s') = mc_calls (bt_mach s) ++ new /\
    (quiet new \/ exists a post, new = (bsStartImage h, mc_mem (bt_mach s), a) :: post /\ quiet post).
Proof. intros (new & En & Hn)%start_calls; [by exists new|]. intros x. go_move. Qed.

Lemma bootEntry_calls entry dns (s : St) r s' :
  bootEntry Sum256 J X readTarGz goarch mmioBase EmbeddedArm64VirtDTB entry dns s = (r, s') ->
  exists new, mc_calls (bt_mach s') = mc_calls (bt_mach s) ++ new /\
    (quiet new \/ exists pre h m a post, new = pre ++ (bsStartImage h, m, a) :: post /\ quiet pre /\ quiet post /\
      readyToStart (reg_Transport (bt_reg s)) dns entry pre h m).
Proof.
  unfold bootEntry, bind. destruct (bootPrepare _ _ _ _ _ _ _ entry dns s) as [[h|e|] s1] eqn:Ep.
  - intros (new & En & Hnew)%bootLaunch_calls. apply bootPrepare_ok in Ep as (pre & Epre & Fpre & Hready). exists (pre ++ new).
    rewrite En, Epre, app_assoc. split; [done|]. destruct Hnew as [Hq|(a & post & -> & Fpost)]; [left; by apply Forall_app|].
    right. by exists pre, h, (mc_mem (bt_mach s1)), a, post.
  - intros [= _ <-]. destruct (moves_step _ _ _ _ _ Ep (bootPrepare_moves _ _)) as (pre & Epre & Fpre). exists pre. by split; [|left].
  - intros [= _ <-]. destruct (moves_step _ _ _ _ _ Ep (bootPrepare_moves _ _)) as (pre & Epre & Fpre). exists pre. by split; [|left].
Qed.

(** C4. From the lease to the kernel.  Whatever the registry serves, the user types
    and the firmware answers, at most one image is started; and then it was
    loaded from the file boot/vmlinuz, an MZ image, of a blob that matches the
    first layer of the manifest of the kernel reference of the entry that the
    menu dispatched; the menu was parsed from a blob that matches the first layer
    of the manifest of the bootfile name.  Each manifest is what the reference's
    own registry answered to the request for exactly that reference, or, when
    that is an index, for the first manifest that the index lists for linux on
    this architecture, the kernel's requests following the menu's.  And the image
    finds the entry's command line and the parent's boot device in its
    loaded-image structure, although the device tree was published and the
    firmware's random generators removed in between. *)
Theorem menu_boots_verified_kernel bootfileName dns start ts (s : St) r s' :
  runMenu Sum256 J X readTarGz hclDecode goarch mmioBase EmbeddedArm64VirtDTB bootfileName dns start ts s = (r, s') ->
  exists new, mc_calls (bt_mach s') = mc_calls (bt_mach s) ++ new /\
    (quiet new \/
     exists pre h m a post layer r1 blob r2 cfg entry,
       new = pre ++ (bsStartImage h, m, a) :: post /\ quiet pre /\ quiet post /\
       namedLayer (reg_Transport (bt_reg s)) dns 60 bootfileName dhcpOCIMenuMaxBlobSize layer r1 /\ downloaded r1 layer blob r2 /\
       Parse hclDecode blob = Ok cfg /\ fst (menuLoop cfg (indexOfDefault cfg) start ts) = Ok (inr (Dispatched entry)) /\
       readyToStart (reg_Transport r2) dns entry pre h m).
Proof.
  assert (quietly (fetchMenu Sum256 J X hclDecode goarch bootfileName dns)) as Hm by (unfold fetchMenu; go_move).
  unfold runMenu. intros Hr. unfold bind at 1 in Hr. destruct (fetchMenu _ _ _ _ _ _ _ s) as [[cfg|e|] s1] eqn:Ef;
    pose proof (moves_step _ _ _ _ _ Ef Hm) as (n1 & En1 & Fn1); [|injection Hr as _ <-; exists n1; by split; [|left]..].
  unfold bind, lift in Hr. destruct (fst (menuLoop _ _ _ _)) as [[ms|[entry|]]|e|] eqn:Eo;
    try (injection Hr as _ <-; exists n1; by split; [|left]).
  apply bootEntry_calls in Hr as (n2 & En2 & Hn2). exists (n1 ++ n2). rewrite En2, En1, app_assoc. split; [done|].
  destruct Hn2 as [Fn2|(pre & h & m & a & post & -> & Fpre & Fpost & Hready)]; [left; by apply Forall_app|]. right.
  unfold fetchMenu in Ef. apply bind_ok in Ef as (layer & s0 & Hl%firstLayer_ok & Ef).
  apply bind_ok in Ef as (blob & s2 & [Hblob _]%streamToBuffer_ok & [Hp ->]%lift_ok).
  exists (n1 ++ pre), h, m, a, post, layer, (bt_reg s0), blob, (bt_reg s2), cfg, entry. rewrite <- app_assoc. split_and!; try done; [by apply Forall_app|].
  destruct Hready as (l & rl & b & r'' & es & fin & k & im & m0 & a0 & dev & Hready). exists l, rl, b, r'', es, fin, k, im, m0, a0, dev.
  split_and!; try apply Hready. apply elem_of_app. right. apply Hready.
Qed.
End props.

(** ** A boot *)

(** A streaming registry: the body of the response whose URL is asked for. *)
Definition mirrorStream : StreamTransport mirror := {|
  tGetStream W _ url opts := fun s =>
    match list_find (fun e => fst e = url) (fst s) with
    | None => (Ok (mkStreamResult 404 0 ∅ None), s)
    | Some (_, (_, resp)) =>
        if (300 <=? StatusCode resp) && (StatusCode resp <? 400) then (Ok (mkStreamResult (StatusCode resp) 0 (Headers resp) None), s)
        else
          match wrWrite (Body resp) (snd s) with
          | (Ok (n, e), w) => (Ok (mkStreamResult (StatusCode resp) n (Headers resp) e), (fst s, w))
          | (Err e, w) => (Err e, (fst s, w))
          | (Panic, w) => (Panic, (fst s, w))
          end
    end
|}.
#[global] Instance mirrorStream_sound : StreamSound mirrorStream.
Proof.
  split. intros W ? ? url opts t w res t' w'. cbn [tGetStream mirrorStream fst snd].
  destruct (list_find _ t) as [[i [u resp]]|].
  - destruct (_ && _) eqn:Er.
    + intros [= <- <- <-] _. exists []. split_and!; [done|constructor|done].
    + destruct (wrWrite (Body resp) w) as [[[n e]|e|] w1] eqn:Ew; [|done|done]. intros [= <- <- <-]. cbn. intros ->.
      pose proof (write_full _ _ _ _ Ew) as ->. exists (Body resp). split_and!; [done|rewrite <- (app_nil_r (Body resp)); by eapply wrote_cons; [exact Ew|constructor]|]. cbn [sr_status]. intros Hs. lia.
  - intros [= <- <- <-] _. exists []. split_and!; [done|constructor|done].
Qed.

Definition bootConfig : BootConfig := mkConfig (str "boot") 5 (str "linux")
  [mkEntry (str "linux") (str "http://h/kernel:v1") [] (str "console=ttyS0")].
Definition bootDecoders : Decoders := mkDecoders (fun _ => None)
  (fun raw => Some (mkManifest 2 MediaTypeOCIManifest (toyDesc [] None)
     [toyDesc (if bool_decide (raw = str "M-menu") then str "menu-blob" else str "kernel-blob") None]))
  (fun _ => Some ([], [])).
Definition bootMirror : mirror :=
  [(str "http://h/v2/menu/manifests/v1", okResponse ∅ (str "M-menu"));
   (str "http://h/v2/menu/blobs/" ++ DigestFromBytes toyHash (str "menu-blob"), okResponse ∅ (str "menu-blob"));
   (str "http://h/v2/kernel/manifests/v1", okResponse ∅ (str "M-kernel"));
   (str "http://h/v2/kernel/blobs/" ++ DigestFromBytes toyHash (str "kernel-blob"), okResponse ∅ (str "kernel-blob"))].
Definition bootTar (b : list byte) : tarGz :=
  inl ([mkTar TypeReg (str "./boot/config") 2 (str "x=") None; mkTar TypeReg (str "./boot/vmlinuz") 6 (str "MZ-kernel") None], None).
Definition bootStart : BootSt mirror toyFw scriptDev :=
  mkBoot (NewRegistryWithTransport bootMirror None toyRef) toyMachine demoCfg.
Definition bootRun : out unit * BootSt mirror toyFw scriptDev :=
  runMenu toyHash bootDecoders mirrorStream bootTar (fun _ => Some bootConfig) (str "arm64") (Some FwCfgArm64MMIOBase) []
    (str "http://h/menu:v1") [x0a; x00; x00; x01] 0 [mkTick 0 (inl (mkKey 0 UnicodeCharEnter)) 0] bootStart.

Definition bootedEntry : Entry := mkEntry (str "linux") (str "http://h/kernel:v1") [] (str "console=ttyS0").

Lemma menu_boots_verified_kernel_witness :
  exists r s' pre h m a post entry t, bootRun = (r, s') /\ mc_calls (bt_mach s') = pre ++ (bsStartImage h, m, a) :: post /\
    entry ∈ c_Entries bootConfig /\
    @readyToStart mirror toyFw _ _ _ toyHash bootDecoders mirrorStream bootTar (str "arm64") t [x0a; x00; x00; x01] entry pre h m.
Proof.
  assert (existsb (fun e => isStart (fst (fst e))) (mc_calls (bt_mach (snd bootRun))) = true) as Hb by (vm_compute; reflexivity).
  destruct bootRun as [r s'] eqn:E. cbn [snd] in Hb.
  destruct (menu_boots_verified_kernel toyHash bootDecoders mirrorStream bootTar (fun _ => Some bootConfig) (str "arm64") (Some FwCfgArm64MMIOBase) []
    (str "http://h/menu:v1") [x0a; x00; x00; x01] 0 [mkTick 0 (inl (mkKey 0 UnicodeCharEnter)) 0] bootStart r s' E) as (new & En & Hnew).
  cbn [bootStart bt_mach toyMachine mc_calls app] in En. destruct Hnew as [Hq|Hnew].
  - exfalso. rewrite En in Hb. apply existsb_exists in Hb as (x & Hin & Hx). apply list_elem_of_In in Hin.
    eapply Forall_forall in Hq; [|exact Hin]. rewrite Hx in Hq. discriminate Hq.
  - destruct Hnew as (pre & h & m & a & post & layer & r1 & blob & r2 & cfg & entry & Hn & _ & _ & _ & _ & Hp & Ho & Hr).
    exists r, s', pre, h, m, a, post, entry, (reg_Transport r2). split; [reflexivity|]. split; [by rewrite En, Hn|]. split; [|exact Hr].
    assert (cfg = bootConfig) as ->. { unfold Parse in Hp. destruct (len blob =? 0); [discriminate Hp|]. vm_compute in Hp. by injection Hp as <-. }
    vm_compute in Ho. injection Ho as <-. left.
Defined.

(** A manifest picked from an index is not compared with the digest it was
    picked by (FetchArtifact of the registry client does compare): a registry
    that answers with another document still boots its kernel. *)
Definition evilIndex : OciIndex := mkOciIndex 2 MediaTypeOCIIndex [toyDesc (str "M-kernel") (toyPlatform "arm64")].
Definition evilDecoders : Decoders := mkDecoders (fun _ => Some evilIndex) (jsonManifest bootDecoders) (fun _ => Some ([], [])).
Definition evilMirror : mirror :=
  [(str "http://h/v2/menu/manifests/v1", okResponse ∅ (str "M-menu"));
   (str "http://h/v2/menu/blobs/" ++ DigestFromBytes toyHash (str "menu-blob"), okResponse ∅ (str "menu-blob"));
   (str "http://h/v2/kernel/manifests/v1", okResponse {[str "content-type" := MediaTypeOCIIndex]} (str "IDX"));
   (str "http://h/v2/kernel/manifests/" ++ DigestFromBytes toyHash (str "M-kernel"), okResponse ∅ (str "M-evil"));
   (str "http://h/v2/kernel/blobs/" ++ DigestFromBytes toyHash (str "kernel-blob"), okResponse ∅ (str "kernel-blob"))].

Lemma picked_manifest_unchecked :
  VerifyDigest toyHash (DigestFromBytes toyHash (str "M-kernel")) (str "M-evil") = Err ErrDigestMismatch /\
  existsb (fun e => isStart (fst (fst e))) (mc_calls (bt_mach (snd (
    runMenu toyHash evilDecoders mirrorStream bootTar (fun _ => Some bootConfig) (str "arm64") (Some FwCfgArm64MMIOBase) []
      (str "http://h/menu:v1") [x0a; x00; x00; x01] 0 [mkTick 0 (inl (mkKey 0 UnicodeCharEnter)) 0]
      (mkBoot (NewRegistryWithTransport evilMirror None toyRef) toyMachine demoCfg : BootSt mirror toyFw scriptDev))))) = true.
Proof. split; vm_compute; reflexivity. Qed.
