(* ===== verification/KernelBoot.v ===== *)
(** * The kernel-boot program

    src/phase2_oci_kernel_boot.go and kernelboot_<arch>.go: the dispatch over
    its three modes, the self-test with its in-process transport (mode B), the
    boot of a layer as it is (mode A) and of a kernel out of a layer (mode C,
    which shares its steps with bootEntry), over the registry client, the boot
    services and the device tree; and uefiboard/dtb_probe.go.  The network
    bring-up is the registry the state starts with.  This is the build without
    the tag phase2_tpm_measure, in which measurePhase2 is the no-op of
    phase2_tpm_measure_stub.go; MeasuredBoot.v has the one of the build with it. *)

From S2P Require Import Prelude Effects NetIP GoStr LittleEndian Memory MemMap Utf8 Http OciRef OciFetch HttpStream HttpTransport OciStream BootMenu BootServices FwCfg BootEntry.

Definition kernelBootSelfTestRef : list byte := str "https://localhost.m81-selftest.invalid/cloud-boot/chained:latest".
Definition kernelBootMaxLayerSize : Z := 64 * 1024 * 1024.
Definition kernelBootVmlinuzName : list byte := str "boot/vmlinuz".

(** The per-architecture constants. *)
Record kernelBootConfig := mkKernelBoot { kernelBootTargetRef : list byte; kernelBootCmdline : list byte }.
Definition kernelBoot_amd64 : kernelBootConfig := mkKernelBoot []
  (str "console=ttyS0,115200 earlyprintk=ttyS0,115200 keep_bootcon printk.time=y root=/dev/ram0 rdinit=/init initrd=\initrd.gz loglevel=8 panic=10").
Definition kernelBoot_arm64 : kernelBootConfig := mkKernelBoot (str "https://ttl.sh/cloudboot-vmlinuz-arm64:24h")
  (str "console=ttyAMA0,115200 earlycon=pl011,mmio32,0x9000000 keep_bootcon earlyprintk=keep printk.time=y root=/dev/ram0 rdinit=/init initrd=\initrd.gz loglevel=8 panic=10").
Definition kernelBoot_loong64 : kernelBootConfig := mkKernelBoot (str "https://ttl.sh/cloudboot-vmlinuz-loong64:24h")
  (str "console=ttyS0,115200 root=/dev/ram0 rdinit=/init initrd=\initrd.gz loglevel=8 panic=10").
Definition kernelBoot_riscv64 : kernelBootConfig := mkKernelBoot (str "https://ttl.sh/cloudboot-vmlinuz-riscv64:24h")
  (str "console=hvc0 earlycon=sbi root=/dev/ram0 rdinit=/init initrd=\initrd.gz loglevel=8 panic=10").

(** ** Printing an address *)

Definition hexDigits : list byte := str "0123456789abcdef".
(** The digits put before [acc]; sixteen are enough for 64 bits. *)
Fixpoint hexFrom (fuel : nat) (v : Z) (acc : list byte) : list byte :=
  match fuel with
  | O => acc
  | S f => if v =? 0 then acc else hexFrom f (Z.shiftr v 4) (nth (Z.to_nat (Z.land v 0xF)) hexDigits x00 :: acc)
  end.
Definition hexUintptrKernelBoot (v : Z) : list byte :=
  if v =? 0 then str "0x0" else str "0x" ++ hexFrom 16 v [].

(** ** The configuration table (dtb_probe.go, dtb_probe_tamago.go) *)

Record EFIGUID := mkGUID { Data1 : Z; Data2 : Z; Data3 : Z; Data4 : list byte }.
Definition EFIDTBTableGUID : EFIGUID := mkGUID 0xb1b621d5 0xf19c 0x41a5 [x83; x0b; xd9; x15; x2c; x69; xaa; xe0].
Definition efiSTNumberOfTableEntries : Z := 104.
Definition efiSTConfigurationTable : Z := 112.
Definition efiConfigurationTableEntrySize : Z := 24.

Definition guidsEqual (a b : EFIGUID) : bool :=
  (Data1 a =? Data1 b) && (Data2 a =? Data2 b) && (Data3 a =? Data3 b) && bool_decide (Data4 a = Data4 b).

(** The struct behind a pointer to its 16 bytes. *)
Definition guidOf (b : list byte) : out EFIGUID :=
  match b with
  | [a0; a1; a2; a3; b0; b1; c0; c1; d0; d1; d2; d3; d4; d5; d6; d7] =>
      let* w := leU32 [a0; a1; a2; a3] in
      Ok (mkGUID w (Z.lor (b2z b0) (Z.shiftl (b2z b1) 8)) (Z.lor (b2z c0) (Z.shiftl (b2z c1) 8)) [d0; d1; d2; d3; d4; d5; d6; d7])
  | _ => Panic
  end.

Record DTBProbeResult := mkProbe {
  SystemTablePresent : bool; NumberOfTableEntries : Z; DTBFound : bool; DTBVendorTable : Z; AllGUIDs : list EFIGUID
}.

(** The walk, [n] entries left from address [entry] on. *)
Fixpoint probeFrom (n : nat) (m : memory) (entry : Z) (r : DTBProbeResult) : out DTBProbeResult :=
  match n with
  | O => Ok r
  | S n =>
      let* b := loadBytes m entry 16 in
      let* g := guidOf b in
      let r := mkProbe (SystemTablePresent r) (NumberOfTableEntries r) (DTBFound r) (DTBVendorTable r) (AllGUIDs r ++ [g]) in
      let* r :=
        if guidsEqual g EFIDTBTableGUID then
          let* vt := loadU64 m (u64 (entry + 16)) in
          Ok (mkProbe (SystemTablePresent r) (NumberOfTableEntries r) true vt (AllGUIDs r))
        else Ok r in
      probeFrom n m (u64 (entry + efiConfigurationTableEntrySize)) r
  end.
Definition ProbeDTBConfigurationTable (systemTable : Z) (m : memory) : out DTBProbeResult :=
  if systemTable =? 0 then Ok (mkProbe false 0 false 0 [])
  else
    let* n := loadU64 m (u64 (systemTable + efiSTNumberOfTableEntries)) in
    let* cfgTbl := loadU64 m (u64 (systemTable + efiSTConfigurationTable)) in
    let r := mkProbe true n false 0 [] in
    if (n =? 0) || (cfgTbl =? 0) then Ok r else probeFrom (Z.to_nat n) m cfgTbl r.

(** ** The in-process transport *)

Record kernelBootSelfTestTransport := mkSelfTest { st_blobURL : list byte; st_body : list byte }.
Definition newKernelBootSelfTestTransport (ref : Ref) (digest body : list byte) : kernelBootSelfTestTransport :=
  mkSelfTest (ref_Scheme ref ++ str "://" ++ ref_Host ref ++ str "/v2/" ++ ref_Repo ref ++ str "/blobs/" ++ digest) body.

#[global] Instance selftest_transport : Transport kernelBootSelfTestTransport := {
  tGet url opts := ret (mkResponse 404 (str "HTTP/1.1 404 Not Found (kernelboot selftest)") ∅ (str "kernelboot selftest: Get not supported"))
}.
Definition selfTestStream : StreamTransport kernelBootSelfTestTransport := {|
  tGetStream W _ url opts :=
    t <- gets fst ;;
    if negb (bool_decide (url = st_blobURL t)) then ret (mkStreamResult 404 0 ∅ None)
    else
      w <- zoom snd (fun w x => (fst x, w)) (wrWrite (st_body t)) ;;
      match snd w with
      | Some werr => ret (mkStreamResult 500 (fst w) ∅ (Some werr))
      | None => ret (mkStreamResult 200 (fst w) {[str "content-type" := str "application/octet-stream"]} None)
      end
|}.

(** ** The program *)

(** phase2_tpm_measure_stub.go *)
Definition measurePhase2 {S A} (vmlinuz : A) (cmdline : list byte) : M S unit := ret tt.

Section boot.
Context {T F C : Type} `{Transport T} `{Firmware F} `{Mmio C}.
Variable Sum256 : list byte -> list byte.
Variable J : Decoders.
Variable X : StreamTransport T.
Variable readTarGz : list byte -> tarGz.
Variable goarch : list byte.
Variable mmioBase : option Z.
Variable EmbeddedArm64VirtDTB : list byte.
Variable systemTable : Z.
Notation BootM := (M (BootSt T F C)).

(** [payload[0] == 'M' && payload[1] == 'Z'] of a Go slice. *)
Definition isMZ (payload : list byte) : bool := (2 <=? len payload) && bool_decide (take 2 payload = str "MZ").

(** An error is the printed reason of an early return. *)
Definition bootStreamedPayload (cmdline payload : list byte) : BootM unit :=
  throw_if negb (isMZ payload) with ErrNotPE;;
  measurePhase2 payload cmdline ;;;
  handle <- onMach (LoadImage payload) ;;
  bootLaunch handle.

(** Mode A, from the lease on. *)
Definition runKernelBootRealRegistry (cfg : kernelBootConfig) (dns : IP) : BootM unit :=
  target <- layerZero J goarch (kernelBootTargetRef cfg) dns 120 ;;
  buf <- streamToBuffer Sum256 X target ;;
  bootStreamedPayload (kernelBootCmdline cfg) buf.

(** The walk of extractVmlinuzFromTarGz, into the Go heap. *)
Fixpoint readAllFrom (entries : list tarEntry) (fin : option error) (name : list byte) : out (list byte) :=
  match entries with
  | [] => Err (default ErrVmlinuzNotFound fin)
  | h :: r =>
      if negb (isRegular h) then readAllFrom r fin name
      else if negb (bool_decide (stripDot (te_Name h) = name)) then readAllFrom r fin name
      else match te_Err h with Some rerr => Err rerr | None => Ok (te_Data h) end
  end.
Definition extractVmlinuzFromTarGz (layer name : list byte) : out (list byte) :=
  match readTarGz layer with inr gerr => Err gerr | inl (entries, fin) => readAllFrom entries fin name end.

(** The same steps as streamExtractVmlinuzMenu, in firmware pages. *)
Definition streamExtractVmlinuz (desc : Descriptor) (name : list byte) : BootM (Z * Z) :=
  buf <- streamToBuffer Sum256 X desc ;;
  match readTarGz buf with
  | inr gerr => throw gerr
  | inl (entries, fin) => extractFrom entries fin name
  end.

(** Mode C, from the lease on. *)
Definition runKernelBootLinuxKernel (cfg : kernelBootConfig) (dns : IP) : BootM unit :=
  target <- firstLayer J goarch (kernelBootTargetRef cfg) dns 120 kernelBootMaxLayerSize ;;
  vmlinuz <- streamExtractVmlinuz target kernelBootVmlinuzName ;;
  checkMZ vmlinuz ;;;
  measurePhase2 vmlinuz (kernelBootCmdline cfg) ;;;
  publishTree mmioBase EmbeddedArm64VirtDTB ;;;
  onMach UninstallAllRNG ;;;
  src <- onMach (sliceBytes (fst vmlinuz) (snd vmlinuz)) ;;
  handle <- onMach (LoadImage src) ;;
  onMach (SetLoadOptions handle (kernelBootCmdline cfg)) ;;;
  onMach (InheritParentDeviceHandle handle) ;;;
  onMach (readMem (ProbeDTBConfigurationTable systemTable)) ;;;
  bootLaunch handle.
End boot.

Section dispatch.
Context {T F C : Type} `{Transport T} `{Firmware F} `{Mmio C}.
Variable Sum256 : list byte -> list byte.
Variable J : Decoders.
Variable X : StreamTransport T.
Variable readTarGz : list byte -> tarGz.
Variable goarch : list byte.
Variable mmioBase : option Z.
Variable EmbeddedArm64VirtDTB : list byte.
Variable systemTable : Z.
(** embed_chained.Decompress *)
Variable chained : out (list byte).

(** Mode B. *)
Definition runKernelBootSelfTest (cfg : kernelBootConfig) : M (BootSt kernelBootSelfTestTransport F C) unit :=
  payload <- lift chained ;;
  throw_if negb (isMZ payload) with ErrNotPE;;
  let desc := mkDescriptor (str "application/vnd.cloud-boot.efi.v1") (DigestFromBytes Sum256 payload) (len payload) None in
  ref <- lift (ParseRef kernelBootSelfTestRef) ;;
  let mt := newKernelBootSelfTestTransport ref (d_Digest desc) payload in
  modify (fun s => mkBoot (NewRegistryWithTransport mt None ref) (bt_mach s) (bt_cfg s)) ;;;
  buf <- streamToBuffer Sum256 selfTestStream desc ;;
  bootStreamedPayload (kernelBootCmdline cfg) buf.

(** The self-test with a registry of its own. *)
Definition selfTestMode (cfg : kernelBootConfig) : M (BootSt T F C) unit := fun s =>
  let ref := reg_Ref (bt_reg s) in
  let '(o, s') := runKernelBootSelfTest cfg (mkBoot (NewRegistryWithTransport (mkSelfTest [] []) None ref) (bt_mach s) (bt_cfg s)) in
  (o, mkBoot (bt_reg s) (bt_mach s') (bt_cfg s')).

Definition runOCIKernelBootProbe (cfg : kernelBootConfig) (dns : IP) : M (BootSt T F C) unit :=
  if bool_decide (kernelBootTargetRef cfg = []) then selfTestMode cfg
  else if bool_decide (kernelBootCmdline cfg = []) then runKernelBootRealRegistry Sum256 J X goarch cfg dns
  else runKernelBootLinuxKernel Sum256 J X readTarGz goarch mmioBase EmbeddedArm64VirtDTB systemTable cfg dns.
End dispatch.

(** ** Addresses *)

(** The value of a string of hexadecimal digits, read after [v]. *)
Definition hexValue (s : list byte) (v : option Z) : option Z :=
  fold_left (fun v c => match v, digitVal c with Some v, Some d => Some (v * 16 + d) | _, _ => None end) s v.

Lemma hexDigits_val d : 0 <= d < 16 -> digitVal (nth (Z.to_nat d) hexDigits x00) = Some d.
Proof.
  intros Hd. assert (Forall (fun k => digitVal (nth (Z.to_nat k) hexDigits x00) = Some k) (seqZ 0 16)) as Hall by (vm_compute; repeat constructor).
  eapply Forall_forall in Hall; [exact Hall|]. apply elem_of_seqZ. lia.
Qed.

Lemma hexFrom_value fuel : forall v acc, 0 <= v < 16 ^ Z.of_nat fuel -> hexValue (hexFrom fuel v acc) (Some 0) = hexValue acc (Some v).
Proof.
  induction fuel as [|f IH]; intros v acc Hv; cbn [hexFrom]; [by replace v with 0 by lia|].
  destruct (Z.eqb_spec v 0) as [->|Hne]; [done|]. rewrite Nat2Z.inj_succ, Z.pow_succ_r in Hv by lia.
  change 0xF with (Z.ones 4). rewrite Z.land_ones, Z.shiftr_div_pow2 by lia. change (2 ^ 4) with 16.
  rewrite IH by (Z.to_euclidean_division_equations; lia). unfold hexValue. cbn [fold_left].
  rewrite hexDigits_val by (apply Z.mod_pos_bound; lia). do 2 f_equal. pose proof (Z.div_mod v 16). lia.
Qed.

(** The text printed for an address reads back as the address. *)
Lemma hexUintptr_reads v : 0 <= v < 2 ^ 64 ->
  exists digits, hexUintptrKernelBoot v = str "0x" ++ digits /\ digits <> [] /\ hexValue digits (Some 0) = Some v.
Proof.
  intros Hv. unfold hexUintptrKernelBoot. destruct (Z.eqb_spec v 0) as [->|Hne]; [by exists (str "0")|].
  exists (hexFrom 16 v []). split; [done|]. pose proof (hexFrom_value 16 v [] ltac:(change (16 ^ Z.of_nat 16) with (2 ^ 64); lia)) as E.
  split; [|exact E]. intros E0. rewrite E0 in E. cbn in E. congruence.
Qed.

(** ** The table *)

Definition encTable (t : list byte * Z) : list byte := fst t ++ le64 (snd t).

Lemma guidOf_ok b : len b = 16 -> exists g, guidOf b = Ok g.
Proof.
  intros Hb. do 16 (destruct b as [|? b]; [discriminate Hb|]). destruct b as [|? b]; [|rewrite !len_cons in Hb; pose proof (len_nonneg b); lia].
  cbn [guidOf leU32 out_bind]. by eexists.
Qed.

Lemma lor8_val a b : Z.lor (b2z a) (Z.shiftl (b2z b) 8) = b2z a + b2z b * 256.
Proof. pose proof (b2z_range a). by rewrite lor_above by lia. Qed.
Lemma leU32_val a b c d : leU32 [a; b; c; d] = Ok (b2z a + b2z b * 2 ^ 8 + b2z c * 2 ^ 16 + b2z d * 2 ^ 24).
Proof.
  pose proof (b2z_range a). pose proof (b2z_range b). pose proof (b2z_range c). cbn [leU32]. f_equal.
  rewrite (lor_above _ _ 8) by lia. rewrite (lor_above _ _ 16) by lia. by rewrite (lor_above _ _ 24) by lia.
Qed.

(** The fields are equal exactly when the bytes are. *)
Lemma guidsEqual_bytes a b g h : guidOf a = Ok g -> guidOf b = Ok h -> guidsEqual g h = bool_decide (a = b).
Proof.
  intros Ha Hb. apply eq_bool_prop_intro. rewrite !Is_true_true, bool_decide_eq_true. unfold guidsEqual. rewrite !andb_true_iff, !Z.eqb_eq, bool_decide_eq_true.
  split; [|intros ->; rewrite Ha in Hb; by injection Hb as <-].
  revert Ha Hb. unfold guidOf.
  destruct a as [|a0 [|a1 [|a2 [|a3 [|a4 [|a5 [|a6 [|a7 [|a8 [|a9 [|a10 [|a11 [|a12 [|a13 [|a14 [|a15 [|? ?]]]]]]]]]]]]]]]]]; try discriminate.
  destruct b as [|b0 [|b1 [|b2 [|b3 [|b4 [|b5 [|b6 [|b7 [|b8 [|b9 [|b10 [|b11 [|b12 [|b13 [|b14 [|b15 [|? ?]]]]]]]]]]]]]]]]]; try discriminate.
  rewrite !leU32_val, !lor8_val. cbn [out_bind]. intros [= <-] [= <-]. cbn [Data1 Data2 Data3 Data4]. intros [[[E1 E2] E3] E4].
  pose proof (b2z_range a0). pose proof (b2z_range a1). pose proof (b2z_range a2). pose proof (b2z_range a3). pose proof (b2z_range a4).
  pose proof (b2z_range a5). pose proof (b2z_range a6). pose proof (b2z_range a7). pose proof (b2z_range b0). pose proof (b2z_range b1).
  pose proof (b2z_range b2). pose proof (b2z_range b3). pose proof (b2z_range b4). pose proof (b2z_range b5). pose proof (b2z_range b6). pose proof (b2z_range b7).
  injection E4 as -> -> -> -> -> -> -> ->.
  repeat (f_equal; [apply b2z_inj; lia|]). f_equal. apply b2z_inj. lia.
Qed.

(** The pointer of the last entry that carries the device tree's identifier. *)
Definition dtbIn (ts : list (list byte * Z)) : option Z := snd <$> last (filter (fun t => fst t = DTBGUIDBytes) ts).

Lemma dtbIn_cons t ts : dtbIn (t :: ts) = match dtbIn ts with Some v => Some v | None => if decide (fst t = DTBGUIDBytes) then Some (snd t) else None end.
Proof.
  unfold dtbIn. rewrite filter_cons. destruct (decide _) as [E|E]; [|by destruct (last _)].
  rewrite last_cons. by destruct (last (filter _ ts)).
Qed.

Lemma probeFrom_spec m ts : forall entry r,
  0 <= entry -> entry + len (concat (encTable <$> ts)) < 2 ^ 64 -> holds m entry (concat (encTable <$> ts)) -> Forall (fun t => len (fst t) = 16 /\ 0 <= snd t < 2 ^ 64) ts ->
  exists gs, Forall2 (fun t g => guidOf (fst t) = Ok g) ts gs /\
    probeFrom (length ts) m entry r = Ok (mkProbe (SystemTablePresent r) (NumberOfTableEntries r)
      (DTBFound r || bool_decide (is_Some (dtbIn ts))) (default (DTBVendorTable r) (dtbIn ts)) (AllGUIDs r ++ gs)).
Proof.
  induction ts as [|[gb vt] ts IH]; intros entry r He Hend Hm Hwf.
  { exists []. split; [done|]. cbn [length probeFrom]. rewrite orb_false_r, app_nil_r. by destruct r. }
  apply Forall_cons in Hwf as [[Hg Hv] Hwf]. cbn [fst snd] in Hg, Hv. cbn [fmap list_fmap concat] in Hm, Hend. apply holds_app in Hm as [Ht Hm].
  unfold encTable in Ht at 1, Hm at 1, Hend at 1. cbn [fst snd] in Ht, Hm, Hend. rewrite !len_app, Hg, len_le64 in Hend. rewrite len_app, Hg, len_le64 in Hm. apply holds_app in Ht as [Hgb Hvt]. rewrite Hg in Hvt.
  destruct (guidOf_ok gb Hg) as (g & Eg). cbn [length probeFrom].
  assert (loadBytes m entry 16 = Ok gb) as ->. { pose proof (loadBytes_holds _ _ _ Hgb) as E. replace (length gb) with 16%nat in E by (unfold len in Hg; lia). exact E. }
  cbn [out_bind]. rewrite Eg. cbn [out_bind]. cbv zeta. assert (guidOf DTBGUIDBytes = Ok EFIDTBTableGUID) as Ed by (vm_compute; reflexivity).
  rewrite (guidsEqual_bytes _ _ _ _ Eg Ed). pose proof Hm as (_ & Hw & _). pose proof (len_nonneg (concat (encTable <$> ts))).
  unfold efiConfigurationTableEntrySize. rewrite !u64_small by lia. change (16 + 8) with 24 in Hm.
  set (r1 := mkProbe _ _ _ _ (AllGUIDs r ++ [g])). set (r2 := if decide (gb = DTBGUIDBytes) then mkProbe (SystemTablePresent r) (NumberOfTableEntries r) true vt (AllGUIDs r ++ [g]) else r1).
  assert ((if bool_decide (gb = DTBGUIDBytes) then let* vt := loadU64 m (entry + 16) in Ok (mkProbe (SystemTablePresent r1) (NumberOfTableEntries r1) true vt (AllGUIDs r1)) else Ok r1) = Ok r2) as ->.
  { unfold r2. rewrite (loadU64_holds _ _ _ Hvt), u64_small by lia. cbn [out_bind]. destruct (decide _) as [E|E]; [by rewrite bool_decide_eq_true_2|by rewrite bool_decide_eq_false_2]. }
  cbn [out_bind]. destruct (IH (entry + 24) r2) as (gs & Hgs & ->); [lia|lia|done|done|]. exists (g :: gs). split; [by constructor|].
  f_equal. rewrite dtbIn_cons. cbn [fst snd]. unfold r2, r1. destruct (decide (gb = DTBGUIDBytes)); cbn [SystemTablePresent NumberOfTableEntries DTBFound DTBVendorTable AllGUIDs]; rewrite <- app_assoc; cbn [app];
    destruct (dtbIn ts) as [v|]; cbn [default]; f_equal; rewrite ?orb_true_r, ?orb_false_r; done.
Qed.

(** The probe lists every identifier of the firmware's table in order, reports a
    device tree exactly when one is there, and its address: that of the last
    entry, when there are several. *)
Lemma probe_spec m st cfgTbl ts :
  0 < st -> 0 < cfgTbl -> cfgTbl + len (concat (encTable <$> ts)) < 2 ^ 64 -> holds m (st + efiSTNumberOfTableEntries) (le64 (len ts) ++ le64 cfgTbl) ->
  holds m cfgTbl (concat (encTable <$> ts)) -> Forall (fun t => len (fst t) = 16 /\ 0 <= snd t < 2 ^ 64) ts ->
  exists gs, Forall2 (fun t g => guidOf (fst t) = Ok g) ts gs /\
    ProbeDTBConfigurationTable st m = Ok (mkProbe true (len ts) (bool_decide (is_Some (dtbIn ts))) (default 0 (dtbIn ts)) gs).
Proof.
  intros Hst Hc Hn Hh Ht Hwf. pose proof Hh as (_ & Hw & _). rewrite len_app, !len_le64 in Hw. apply holds_app in Hh as [Hh1 Hh2]. rewrite len_le64 in Hh2.
  unfold ProbeDTBConfigurationTable. rewrite (proj2 (Z.eqb_neq st 0)) by lia. unfold efiSTNumberOfTableEntries, efiSTConfigurationTable in *. rewrite !u64_small by lia.
  rewrite (loadU64_holds _ _ _ Hh1). cbn [out_bind]. replace (st + 112) with (st + 104 + 8) by lia. rewrite (loadU64_holds _ _ _ Hh2). cbn [out_bind].
  assert (24 * len ts <= len (concat (encTable <$> ts))) as Hcount.
  { clear -Hwf. induction Hwf as [|t ts' [Hg _] _ IH]; [done|]. cbn [fmap list_fmap concat]. unfold encTable at 1. rewrite !len_app, Hg, len_le64, len_cons. lia. }
  pose proof (len_nonneg ts). rewrite (u64_small (len ts)), (u64_small cfgTbl) by lia.
  destruct ts as [|t ts'] eqn:Ets; [exists []; by split|]. rewrite <- Ets in *.
  rewrite (proj2 (Z.eqb_neq (len ts) 0)), (proj2 (Z.eqb_neq cfgTbl 0)) by (rewrite ?Ets, ?len_cons; pose proof (len_nonneg ts'); lia).
  cbn [orb]. unfold len at 1. rewrite Nat2Z.id. destruct (probeFrom_spec m ts cfgTbl (mkProbe true (len ts) false 0 [])) as (gs & Hgs & ->); [lia|done..|].
  by exists gs.
Qed.

(** ** The self-test *)

(** The in-process transport serves its body in one write. *)
Lemma self_get {W} `{Writer W} (t : kernelBootSelfTestTransport) dns ref w w' opts :
  wrWrite (st_body t) w = (Ok (len (st_body t), None), w') ->
  exists hs, tGetStream (StreamTransport := selfTestStream) (st_blobURL t) opts (reg_Transport (NewRegistryWithTransport t dns ref), w) =
    (Ok (mkStreamResult 200 (len (st_body t)) hs None), (t, w')).
Proof.
  intros E. cbn [tGetStream selfTestStream NewRegistryWithTransport reg_Transport]. unfold bind at 1, gets. cbn [fst].
  rewrite bool_decide_eq_true_2 by done. cbn [negb]. unfold bind, zoom. cbn [snd fst]. rewrite E. cbn [snd fst]. by eexists.
Qed.

Section selftest.
Context {T F C : Type} `{Transport T} `{Firmware F} `{Mmio C}.
Variable Sum256 : list byte -> list byte.
Hypothesis sum_len : forall b, len (Sum256 b) = 32.

Definition chainedDesc (payload : list byte) : Descriptor :=
  mkDescriptor (str "application/vnd.cloud-boot.efi.v1") (DigestFromBytes Sum256 payload) (len payload) None.

(** The streaming client accepts the descriptor's blob from it. *)
Lemma self_stream payload ref :
  exists r', FetchBlobStream Sum256 (Some selfTestStream) (chainedDesc payload)
    (NewRegistryWithTransport (newKernelBootSelfTestTransport ref (d_Digest (chainedDesc payload)) payload) None ref, [])
    = (Ok (len payload, None), (r', payload)).
Proof.
  unfold FetchBlobStream. set (d := d_Digest (chainedDesc payload)). set (t := newKernelBootSelfTestTransport ref d payload).
  assert (ParseDigest d = Ok (str "sha256", hexEncode (Sum256 payload))) as Ed by by apply ParseDigest_computed.
  rewrite Ed. unfold bind at 1, gets. cbn [fst]. change (reg_Ref (NewRegistryWithTransport t None ref)) with ref.
  replace (blobURL ref d) with (st_blobURL t) by (unfold blobURL, baseURL; cbn [st_blobURL t newKernelBootSelfTestTransport]; by rewrite <- !app_assoc).
  unfold maxBlobRedirects. cbn [streamFrom]. unfold bind at 1, modify. cbn [fst snd id].
  unfold bind at 1, hashedGet. cbn [fst snd reg_DNS reg_DialTimeout reg_RequestTimeout reg_bearer NewRegistryWithTransport].
  destruct (self_get t None ref ([], mkHasher []) (payload, mkHasher payload) (mkGetOptions None 0 0 (authHeader []))) as (hs & E).
  { cbn [st_body t newKernelBootSelfTestTransport]. unfold wrWrite, multi_writer, bind, zoom, ret, wrWrite, append_writer, hasher_writer. cbn [fst snd h_data app].
    by rewrite Z.eqb_refl. }
  rewrite E. cbn [fst snd sr_err sr_status sr_written h_data]. change (isRedirect 200) with false. cbv iota.
  unfold lift, checkStream. cbn [sr_status sr_written]. change (negb (200 =? 200)) with false. cbv iota.
  cbn [st_body t newKernelBootSelfTestTransport d_Size chainedDesc]. rewrite Z.eqb_refl, andb_false_r. fold d. rewrite Ed. cbn [out_bind snd].
  unfold EqualFold. rewrite bool_decide_eq_true_2 by done. cbn [negb]. by eexists.
Qed.

(** The self-test hands the program that it chains, byte for byte, to what the
    other modes boot with. *)
Lemma self_test_payload payload cfg (s : BootSt kernelBootSelfTestTransport F C) :
  isMZ payload = true ->
  exists r', runKernelBootSelfTest Sum256 (Ok payload) cfg s = bootStreamedPayload (kernelBootCmdline cfg) payload (mkBoot r' (bt_mach s) (bt_cfg s)).
Proof.
  intros Hmz. unfold runKernelBootSelfTest. unfold bind at 1, lift at 1. rewrite Hmz. cbn [negb]. fold (chainedDesc payload). cbv zeta.
  destruct (ParseRef kernelBootSelfTestRef) as [ref|e|] eqn:Eref; [|vm_compute in Eref; discriminate Eref..].
  unfold bind at 1, lift at 1. cbv beta iota. unfold bind at 1, modify. unfold bind at 1, streamToBuffer. cbn [bt_reg bt_mach bt_cfg].
  destruct (self_stream payload ref) as (r' & ->). cbv beta iota. by exists r'.
Qed.
End selftest.

(** ** Calls that start an image *)

(** A kernel as the firmware is handed it. *)
Definition loadedFrom (kernel : list byte) (pre : list (bootCall * memory * bootAnswer)) (h : Z) : Prop :=
  exists image m0 a0, (bsLoadImage 0 image [] kernel, m0, a0) ∈ pre /\ ba_status a0 = efiSuccess /\ ba_out a0 = h.

(** Calls that start at most one image, and the promise [P] about it. *)
Definition startsOnly (P : list (bootCall * memory * bootAnswer) -> Z -> memory -> Prop) (new : list (bootCall * memory * bootAnswer)) : Prop :=
  quiet new \/ exists pre h m a post, new = pre ++ (bsStartImage h, m, a) :: post /\ quiet pre /\ quiet post /\ P pre h m.

Lemma startsOnly_pre P pre new :
  quiet pre -> startsOnly (fun p => P (pre ++ p)) new -> startsOnly P (pre ++ new).
Proof.
  intros Hq [Hn|(p & h & m & a & post & -> & Hp & Hpost & HP)]; [left; by apply Forall_app|].
  right. exists (pre ++ p), h, m, a, post. rewrite <- app_assoc. split_and!; [done|by apply Forall_app|done..].
Qed.
Lemma startsOnly_mono (P Q : list (bootCall * memory * bootAnswer) -> Z -> memory -> Prop) new : (forall p h m, P p h m -> Q p h m) -> startsOnly P new -> startsOnly Q new.
Proof. intros HPQ [Hn|(p & h & m & a & post & -> & Hp & Hpost & HP)]; [by left|]. right. exists p, h, m, a, post. auto. Qed.

(** A step that starts nothing, and then the rest. *)
Lemma startsOnly_bind {F S A B} (view : S -> Machine F) (m : M S A) (k : A -> M S B) (P : list (bootCall * memory * bootAnswer) -> Z -> memory -> Prop) s r s' :
  moves (fun x y => noStart (view x) (view y)) m ->
  (forall a s1 pre, m s = (Ok a, s1) -> mc_calls (view s1) = mc_calls (view s) ++ pre -> quiet pre ->
     forall r s', k a s1 = (r, s') -> exists new, mc_calls (view s') = mc_calls (view s1) ++ new /\ startsOnly (fun p => P (pre ++ p)) new) ->
  bind m k s = (r, s') ->
  exists new, mc_calls (view s') = mc_calls (view s) ++ new /\ startsOnly P new.
Proof.
  intros Hm Hk. specialize (Hm s). unfold bind. destruct (m s) as [[a|e|] s1] eqn:E; cbn [snd] in Hm; destruct Hm as (pre & Epre & Fpre).
  - intros Er. destruct (Hk a s1 pre eq_refl Epre Fpre _ _ Er) as (new & En & Hn). exists (pre ++ new). rewrite En, Epre, app_assoc.
    split; [done|]. by apply startsOnly_pre.
  - intros [= _ <-]. exists pre. by split; [|left].
  - intros [= _ <-]. exists pre. by split; [|left].
Qed.

Lemma launch_starts {T F C} `{Transport T} `{Firmware F} `{Mmio C} h P (s : BootSt T F C) r s' :
  bootLaunch h s = (r, s') -> P [] h (mc_mem (bt_mach s)) ->
  exists new, mc_calls (bt_mach s') = mc_calls (bt_mach s) ++ new /\ startsOnly P new.
Proof.
  intros (new & En & Hn)%bootLaunch_calls HP. exists new. split; [done|]. destruct Hn as [Hn|(a & post & -> & Hq)]; [by left|].
  right. exists [], h, (mc_mem (bt_mach s)), a, post. split_and!; [done|constructor|done|done].
Qed.
(** A payload that is in the Go heap. *)
Definition payloadReady (payload : list byte) (pre : list (bootCall * memory * bootAnswer)) (h : Z) (_ : memory) : Prop :=
  loadedFrom payload pre h /\ take 2 payload = str "MZ".

Lemma bootStreamed_starts {T F C} `{Transport T} `{Firmware F} `{Mmio C} cmdline payload (s : BootSt T F C) r s' :
  bootStreamedPayload cmdline payload s = (r, s') ->
  exists new, mc_calls (bt_mach s') = mc_calls (bt_mach s) ++ new /\ startsOnly (payloadReady payload) new.
Proof.
  unfold bootStreamedPayload. destruct (isMZ payload) eqn:Emz; cbn [negb];
    [|intros [= _ <-]; exists []; rewrite app_nil_r; split; [done|left; constructor]].
  change (measurePhase2 payload cmdline) with (@ret (BootSt T F C) unit tt). rewrite bind_ret.
  intros Hr. eapply (startsOnly_bind bt_mach); [|clear r s' Hr|exact Hr]; [apply onMach_moves, LoadImage_moves|].
  intros h s1 pre Hl%onMach_ok Epre _ r s' Hb%(launch_starts _ (fun p => payloadReady payload (pre ++ p))); [done|].
  rewrite app_nil_r. apply LoadImage_ok in Hl as (m & a & Ec & Hst & Hout). rewrite Ec in Epre. apply app_inv_head in Epre as <-.
  apply andb_true_iff in Emz as [_ Emz%bool_decide_eq_true]. split; [|done]. exists (mc_image (bt_mach s)), m, a. split_and!; [by left|done..].
Qed.

(** ** What the program boots *)

Section program.
Context {T F C : Type} `{Transport T} `{FirmwareOk F} `{Mmio C}.
Variable Sum256 : list byte -> list byte.
Hypothesis sum_len : forall b, len (Sum256 b) = 32.
Variable J : Decoders.
Variable X : StreamTransport T.
Context `{!StreamSound X}.
Variable readTarGz : list byte -> tarGz.
Variable goarch : list byte.
Variable mmioBase : option Z.
Variable EmbeddedArm64VirtDTB : list byte.
Variable systemTable : Z.
Variable chained : out (list byte).
Notation St := (BootSt T F C).

(** The entry of a boot menu with the same kernel and command line. *)
Definition cfgEntry (cfg : kernelBootConfig) : Entry := mkEntry [] (kernelBootTargetRef cfg) [] (kernelBootCmdline cfg).
Notation prepareEntry := (bootPrepare Sum256 J X readTarGz goarch mmioBase EmbeddedArm64VirtDTB).
Notation linuxKernel := (runKernelBootLinuxKernel Sum256 J X readTarGz goarch mmioBase EmbeddedArm64VirtDTB systemTable).

Lemma linuxKernel_eq cfg dns (s : St) : kernelBootCmdline cfg <> [] ->
  linuxKernel cfg dns s = (h <- prepareEntry (cfgEntry cfg) dns ;; onMach (readMem (ProbeDTBConfigurationTable systemTable)) ;;; bootLaunch h) s.
Proof.
  intros Hc. unfold runKernelBootLinuxKernel, bootPrepare, prepareKernel, loadKernel, cfgEntry. cbn [e_KernelRef e_Cmdline]. rewrite bool_decide_eq_false_2 by done.
  rewrite bind_assoc. apply bind_ext. intros layer s1. rewrite !bind_assoc. apply bind_ext. intros v s2.
  rewrite bind_assoc. apply bind_ext. intros [] s3. change (measurePhase2 v (kernelBootCmdline cfg)) with (@ret St unit tt). rewrite bind_ret.
  rewrite bind_assoc. apply bind_ext. intros [] s4. rewrite bind_assoc. apply bind_ext. intros n s5. apply bind_ext. intros k s6.
  rewrite bind_assoc. apply bind_ext. intros h s7. rewrite bind_assoc. apply bind_ext. intros [] s8. rewrite bind_assoc. apply bind_ext. intros [] s9.
  by rewrite bind_ret.
Qed.

Definition served := @servedLayer T _ J goarch.
Definition ready := @readyToStart T F _ _ _ Sum256 J X readTarGz goarch.

Lemma selfTest_starts cfg (s : BootSt kernelBootSelfTestTransport F C) r s' :
  runKernelBootSelfTest Sum256 chained cfg s = (r, s') ->
  exists new, mc_calls (bt_mach s') = mc_calls (bt_mach s) ++ new /\
    startsOnly (fun pre h m => exists payload, chained = Ok payload /\ payloadReady payload pre h m) new.
Proof.
  assert (forall x : BootSt kernelBootSelfTestTransport F C, x = s -> exists new, mc_calls (bt_mach x) = mc_calls (bt_mach s) ++ new /\
    startsOnly (fun pre h m => exists payload, chained = Ok payload /\ payloadReady payload pre h m) new) as Hnone.
  { intros x ->. exists []. rewrite app_nil_r. split; [done|]. left. constructor. }
  destruct chained as [payload|e|] eqn:Ec; [|intros [= _ <-]; by apply Hnone..]. destruct (isMZ payload) eqn:Emz.
  - destruct (self_test_payload Sum256 sum_len payload cfg s Emz) as (r' & ->). intros (new & En & Hn)%bootStreamed_starts.
    exists new. split; [done|]. eapply startsOnly_mono; [|exact Hn]. intros p h m Hp. by exists payload.
  - unfold runKernelBootSelfTest. unfold bind at 1, lift at 1. rewrite Emz. cbn [negb]. intros [= _ <-]. by apply Hnone.
Qed.

Lemma realRegistry_starts cfg dns (s : St) r s' :
  runKernelBootRealRegistry Sum256 J X goarch cfg dns s = (r, s') ->
  exists new, mc_calls (bt_mach s') = mc_calls (bt_mach s) ++ new /\
    startsOnly (fun pre h m => exists layer r kernel r', served (reg_Transport (bt_reg s)) dns 120 (kernelBootTargetRef cfg) layer r /\
      downloaded Sum256 X r layer kernel r' /\ payloadReady kernel pre h m) new.
Proof.
  unfold runKernelBootRealRegistry. intros Hr. eapply (startsOnly_bind bt_mach); [|clear r s' Hr|exact Hr]; [apply layerZero_moves; apply _|].
  intros layer s1 pre Hl _ Hq r s' Hr. apply layerZero_ok in Hl.
  eapply (startsOnly_bind bt_mach); [|clear r s' Hr|exact Hr]; [apply streamToBuffer_moves; apply _|].
  intros kernel s2 pre2 Hb _ Hq2 r s' (new & En & Hn)%bootStreamed_starts. apply (streamToBuffer_ok Sum256 X) in Hb as [Hb _].
  exists new. split; [done|]. eapply startsOnly_mono; [|exact Hn]. intros p h m [(image & m0 & a0 & Hin & Hrest) Hmz].
  exists layer, (bt_reg s1), kernel, (bt_reg s2). split_and!; [done..|]. split; [|done]. exists image, m0, a0. split; [set_solver|done].
Qed.

Lemma linuxKernel_starts cfg dns (s : St) r s' :
  kernelBootCmdline cfg <> [] -> linuxKernel cfg dns s = (r, s') ->
  exists new, mc_calls (bt_mach s') = mc_calls (bt_mach s) ++ new /\ startsOnly (ready (reg_Transport (bt_reg s)) dns (cfgEntry cfg)) new.
Proof.
  intros Hc. rewrite linuxKernel_eq by done. intros Hr. eapply (startsOnly_bind bt_mach); [|clear r s' Hr|exact Hr]; [apply bootPrepare_moves|].
  intros h s1 pre Hp Epre _ r s' Hr. apply (bootPrepare_ok Sum256 J X readTarGz (fun _ => None)) in Hp as (pre' & E & _ & Hready). rewrite E in Epre. apply app_inv_head in Epre as ->.
  eapply (startsOnly_bind bt_mach); [|clear r s' Hr|exact Hr]; [intros x; unfold onMach, zoom, readMem; cbn; reflexivity|].
  intros p s2 pre2 Hread E2 _ r s' Hb. assert (s2 = s1) as -> by (revert Hread; unfold onMach, zoom, readMem; intros [= _ <-]; by destruct s1).
  assert (pre2 = []) as -> by (rewrite <- (app_nil_r (mc_calls (bt_mach s1))) in E2 at 1; by apply app_inv_head in E2).
  eapply launch_starts; [exact Hb|]. rewrite !app_nil_r. exact Hready.
Qed.
(** C5. Whatever the registry serves and the firmware answers, the kernel-boot
    program starts at most one image, and it is one that the firmware loaded
    from a kernel with the MZ signature: without a target reference, the
    embedded program, byte for byte; with one and no command line, the whole of
    a blob that matches the first layer served for the reference; with both,
    the file boot/vmlinuz of such a blob, and then the image finds the command
    line and the parent's boot device in its loaded-image structure, although
    the device tree was published and the firmware's random generators removed
    in between. *)
Theorem kernel_boot_starts cfg dns (s : St) r s' :
  runOCIKernelBootProbe Sum256 J X readTarGz goarch mmioBase EmbeddedArm64VirtDTB systemTable chained cfg dns s = (r, s') ->
  exists new, mc_calls (bt_mach s') = mc_calls (bt_mach s) ++ new /\
    startsOnly (fun pre h m =>
      if bool_decide (kernelBootTargetRef cfg = []) then exists payload, chained = Ok payload /\ payloadReady payload pre h m
      else if bool_decide (kernelBootCmdline cfg = []) then
        exists layer r kernel r', served (reg_Transport (bt_reg s)) dns 120 (kernelBootTargetRef cfg) layer r /\
          downloaded Sum256 X r layer kernel r' /\ payloadReady kernel pre h m
      else ready (reg_Transport (bt_reg s)) dns (cfgEntry cfg) pre h m) new.
Proof.
  unfold runOCIKernelBootProbe. case_bool_decide as Et; [|case_bool_decide as Ec].
  - unfold selfTestMode. destruct (runKernelBootSelfTest _ _ _ _) as [o x] eqn:E. intros [= _ <-]. apply selfTest_starts in E. exact E.
  - apply realRegistry_starts.
  - by apply linuxKernel_starts.
Qed.

(** A build without a target reference boots with neither network nor
    registry: whatever state they are in, when the firmware accepts the embedded
    program it is started, as the image that exactly its bytes were loaded from,
    and unloaded if it returns an error; nothing else is asked of the firmware,
    and the program ends well. *)
Theorem self_test_boots cfg dns payload (s : St) a m f a2 m2 f2 :
  kernelBootTargetRef cfg = [] -> chained = Ok payload -> isMZ payload = true ->
  mc_bs (bt_mach s) <> 0 -> mc_image (bt_mach s) <> 0 ->
  fwStep (bsLoadImage 0 (mc_image (bt_mach s)) [] payload) (mc_mem (bt_mach s)) (mc_fw (bt_mach s)) = (a, m, f) -> ba_status a = efiSuccess ->
  fwStep (bsStartImage (ba_out a)) m f = (a2, m2, f2) ->
  exists s', runOCIKernelBootProbe Sum256 J X readTarGz goarch mmioBase EmbeddedArm64VirtDTB systemTable chained cfg dns s = (Ok tt, s') /\
    bt_reg s' = bt_reg s /\ bt_cfg s' = bt_cfg s /\
    mc_calls (bt_mach s') = mc_calls (bt_mach s) ++
      [(bsLoadImage 0 (mc_image (bt_mach s)) [] payload, mc_mem (bt_mach s), a); (bsStartImage (ba_out a), m, a2)] ++
      (if ba_status a2 =? 0 then [] else [(bsUnloadImage (ba_out a), m2, fst (fst (fwStep (bsUnloadImage (ba_out a)) m2 f2)))]).
Proof.
  intros Ht -> Hmz Hbs Himg El Hst Es. unfold runOCIKernelBootProbe, selfTestMode. rewrite bool_decide_eq_true_2 by done. cbv zeta.
  destruct (self_test_payload Sum256 sum_len payload cfg (mkBoot (NewRegistryWithTransport (mkSelfTest [] []) None (reg_Ref (bt_reg s))) (bt_mach s) (bt_cfg s)) Hmz) as (r' & ->).
  cbn [bt_mach bt_cfg]. unfold bootStreamedPayload. rewrite Hmz. cbn [negb]. change (measurePhase2 payload (kernelBootCmdline cfg)) with (@ret (BootSt kernelBootSelfTestTransport F C) unit tt).
  rewrite bind_ret. destruct (bt_mach s) as [fw mem bs image calls] eqn:Em. cbn [mc_bs mc_image mc_mem mc_fw mc_calls] in *.
  assert (LoadImage payload (mkMachine fw mem bs image calls) =
    (Ok (ba_out a), mkMachine f m bs image (calls ++ [(bsLoadImage 0 image [] payload, mem, a)]))) as Eload.
  { unfold LoadImage, needBootServices, success, bind, gets, efiCall, ret. assert (len payload =? 0 = false) as -> by (apply andb_true_iff in Hmz as [? _]; lia).
    cbn [mc_bs mc_image mc_mem mc_fw mc_calls]. rewrite !(proj2 (Z.eqb_neq _ 0)) by done. cbn. rewrite El. rewrite Hst. done. }
  unfold bind at 1, onMach at 1, zoom. cbn [bt_mach]. rewrite Eload. cbv beta iota.
  unfold bootLaunch, bind at 1, onMach at 1, zoom, StartImage, bind at 1, gets. cbn [bt_mach mc_bs]. rewrite (proj2 (Z.eqb_neq bs 0)) by done.
  unfold bind at 1, efiCall. cbn [mc_mem mc_fw mc_calls mc_bs mc_image]. rewrite Es. cbn [ret fst].
  destruct (Z.eqb_spec (ba_status a2) 0) as [E2|E2]; cbn [negb].
  - eexists. split; [reflexivity|]. cbn. by rewrite <- app_assoc.
  - unfold ignore, Effects.try, onMach, zoom, UnloadImage, needBootServices, success, bind, gets, efiCall, ret. cbn [bt_mach mc_bs mc_mem mc_fw mc_calls mc_image].
    rewrite (proj2 (Z.eqb_neq bs 0)) by done. cbn [mc_mem mc_fw].
    destruct (fwStep (bsUnloadImage (ba_out a)) m2 f2) as [[a3 m3] f3] eqn:E3.
    destruct (ba_status a3 =? efiSuccess); cbn; (eexists; split; [reflexivity|]); cbn; by rewrite <- !app_assoc.
Qed.
End program.

(** ** The builds *)

(** Which mode each build runs: the self-test on amd64, a kernel from ttl.sh on
    the others. *)
Lemma arch_modes :
  kernelBootTargetRef kernelBoot_amd64 = [] /\
  Forall (fun cfg => kernelBootCmdline cfg <> [] /\ exists ref, ParseRef (kernelBootTargetRef cfg) = Ok ref /\ ref_Host ref = str "ttl.sh" /\ ref_Reference ref = str "24h")
    [kernelBoot_arm64; kernelBoot_loong64; kernelBoot_riscv64].
Proof. split; [done|]. repeat (apply Forall_cons; split; [split; [done|eexists; split; [vm_compute; reflexivity|done]]|]). constructor. Qed.

(** What extractVmlinuzFromTarGz reads: the first regular file of the name. *)
Lemma extractVmlinuz_file readTarGz layer entries fin name data :
  readTarGz layer = inl (entries, fin) -> extractVmlinuzFromTarGz readTarGz layer name = Ok data ->
  exists pre h post, entries = pre ++ h :: post /\ Forall (fun h' => ~ (isRegular h' = true /\ stripDot (te_Name h') = name)) pre /\
    isRegular h = true /\ stripDot (te_Name h) = name /\ te_Err h = None /\ data = te_Data h.
Proof.
  unfold extractVmlinuzFromTarGz. intros ->. induction entries as [|h r IH]; cbn [readAllFrom]; [done|].
  assert (~ (isRegular h = true /\ stripDot (te_Name h) = name) -> readAllFrom r fin name = Ok data ->
    exists pre h' post, h :: r = pre ++ h' :: post /\ Forall (fun h' => ~ (isRegular h' = true /\ stripDot (te_Name h') = name)) pre /\
      isRegular h' = true /\ stripDot (te_Name h') = name /\ te_Err h' = None /\ data = te_Data h') as Hskip.
  { intros Hn (pre & h' & post & -> & Hpre & Hrest)%IH. exists (h :: pre), h', post. split; [done|]. by split; [constructor|]. }
  destruct (isRegular h) eqn:Er; cbn [negb]; [|apply Hskip; by intros [? _]].
  case_bool_decide as En; cbn [negb]; [|apply Hskip; by intros [_ ?]]. destruct (te_Err h) eqn:Ee; [done|]. intros [= <-].
  exists [], h, r. by split_and!.
Qed.

Definition kernelRun (cfg : kernelBootConfig) : out unit * BootSt mirror toyFw scriptDev :=
  runOCIKernelBootProbe toyHash bootDecoders mirrorStream bootTar (str "arm64") (Some FwCfgArm64MMIOBase) [] 0 (Ok (str "MZ-chained"))
    cfg [x0a; x00; x00; x01] bootStart.
Definition menuKernel : kernelBootConfig := mkKernelBoot (str "http://h/kernel:v1") (str "console=ttyS0").
Definition started (calls : list (bootCall * memory * bootAnswer)) : bool := existsb (fun e => isStart (fst (fst e))) calls.

Lemma quiet_not_started calls : quiet calls -> started calls = false.
Proof.
  unfold started. induction 1 as [|x l Hx _ IH]; [done|]. cbn [existsb]. by rewrite Hx.
Qed.

Lemma kernel_boot_starts_witness :
  exists r s' pre h m a post, kernelRun menuKernel = (r, s') /\ mc_calls (bt_mach s') = pre ++ (bsStartImage h, m, a) :: post /\
    @ready mirror toyFw _ _ _ toyHash bootDecoders mirrorStream bootTar (str "arm64") bootMirror [x0a; x00; x00; x01] (cfgEntry menuKernel) pre h m.
Proof.
  assert (started (mc_calls (bt_mach (snd (kernelRun menuKernel)))) = true) as Hb by (vm_compute; reflexivity).
  destruct (kernelRun menuKernel) as [r s'] eqn:E. cbn [snd] in Hb.
  destruct (kernel_boot_starts toyHash toyHash_len bootDecoders mirrorStream bootTar (str "arm64") (Some FwCfgArm64MMIOBase) [] 0 (Ok (str "MZ-chained"))
    menuKernel [x0a; x00; x00; x01] bootStart r s' E) as (new & En & Hnew).
  cbn [bootStart bt_mach toyMachine mc_calls app] in En. destruct Hnew as [Hq|(pre & h & m & a & post & Hn & _ & _ & Hr)].
  - exfalso. apply quiet_not_started in Hq. rewrite En in Hb. congruence.
  - exists r, s', pre, h, m, a, post. split; [reflexivity|]. split; [by rewrite En, Hn|]. exact Hr.
Defined.

Lemma self_test_boots_witness :
  exists s' m, kernelRun kernelBoot_amd64 = (Ok tt, s') /\
    mc_calls (bt_mach s') = [(bsLoadImage 0 1 [] (str "MZ-chained"), mc_mem toyMachine, mkBootAnswer efiSuccess 2 0); (bsStartImage 2, m, mkBootAnswer efiSuccess 0 0)].
Proof.
  destruct (self_test_boots toyHash toyHash_len bootDecoders mirrorStream bootTar (str "arm64") (Some FwCfgArm64MMIOBase) [] 0 (Ok (str "MZ-chained"))
    kernelBoot_amd64 [x0a; x00; x00; x01] (str "MZ-chained") bootStart (mkBootAnswer efiSuccess 2 0) (mc_mem toyMachine) (mc_fw toyMachine)
    (mkBootAnswer efiSuccess 0 0) (mc_mem toyMachine) (mc_fw toyMachine)) as (s' & E & _ & _ & Hc); try done.
  exists s', (mc_mem toyMachine). split; [exact E|]. rewrite Hc. done.
Defined.
