(* ===== verification/EventLog.v ===== *)
(** * The firmware's TPM event log

    uefiboard/tcg2_protocol_tamago.go: GetEventLog, which the firmware answers
    with addresses, and the walk over the last entry that finds where the log
    ends; GetCapability and LocateTCG2.  The answers of the firmware are
    arguments. *)

From S2P Require Import Prelude LittleEndian MemMap Memory Utf8 BootServices.

Definition tcg2CapSize : Z := 36.
Definition tcg2CapSizeOffset : Z := 0.
Definition tcg2CapMaxResponseOffset : Z := 20.
Definition efiStatusErrorBit : Z := 2 ^ 63.
Definition efiStatusNotFound : Z := 0x0E.

(** Digest widths by TPM_ALG_ID. *)
Definition tcg2DigestSize (algID : Z) : option Z :=
  if algID =? 0x0004 then Some 20
  else if algID =? 0x000B then Some 32
  else if algID =? 0x000C then Some 48
  else if algID =? 0x000D then Some 64
  else if algID =? 0x0012 then Some 32
  else None.

Section reads.
Variable m : memory.

Definition readFirmwareBytes (addr n : Z) : out (list byte) :=
  if n <=? 0 then Ok []
  else let* _ := unsafeSlice addr n in loadBytes m addr (Z.to_nat n).

Definition readFirmwareU16LE (addr : Z) : out Z :=
  let* _ := unsafeSlice addr 2 in
  let* b := loadBytes m addr 2 in
  match b with b0 :: b1 :: _ => Ok (Z.lor (b2z b0) (Z.shiftl (b2z b1) 8)) | _ => Panic end.
Definition readFirmwareU32LE (addr : Z) : out Z :=
  let* _ := unsafeSlice addr 4 in
  let* b := loadBytes m addr 4 in
  leU32 b.

(** The digests of an entry, [count] of them from [off] on: where they end. *)
Fixpoint skipDigests (count : nat) (off : Z) : out Z :=
  match count with
  | O => Ok off
  | S count =>
      let* algID := readFirmwareU16LE off in
      let off := u64 (off + 2) in
      match tcg2DigestSize algID with
      | None => Err (ErrEFI (Z.lor efiStatusErrorBit 0x02))
      | Some ds => skipDigests count (u64 (off + ds))
      end
  end.

Definition legacyPrefix : Z := 4 + 4 + 20.

Definition tcg2EntrySize (location entry : Z) : out Z :=
  if entry =? location then
    let* eventSize := readFirmwareU32LE (u64 (entry + legacyPrefix)) in
    Ok (u64 (legacyPrefix + 4 + eventSize))
  else
    let off := u64 (entry + 8) in
    let* count := readFirmwareU32LE off in
    let off := u64 (off + 4) in
    let* off := skipDigests (Z.to_nat count) off in
    let* eventSize := readFirmwareU32LE off in
    let off := u64 (off + 4) in
    let off := u64 (off + eventSize) in
    Ok (u64 (off - entry)).

(** The firmware's status and out-parameters. *)
Record logAnswer := mkLogAnswer { la_status : Z; la_location : Z; la_lastEntry : Z; la_truncated : Z }.

(** Log, truncated flag and error. *)
Definition GetEventLog (a : logAnswer) : out (list byte * bool * option error) :=
  if negb (Z.land (la_status a) efiStatusErrorBit =? 0) then Ok ([], false, Some (ErrEFI (la_status a)))
  else
    let truncated := negb (la_truncated a =? 0) in
    if la_location a =? 0 then Ok ([], truncated, None)
    else
      match tcg2EntrySize (la_location a) (la_lastEntry a) with
      | Err perr => Ok ([], truncated, Some perr)
      | Panic => Panic
      | Ok lastSize =>
          let total := u64 (u64 (la_lastEntry a - la_location a) + lastSize) in
          let* log := readFirmwareBytes (la_location a) (s64 total) in
          Ok (log, truncated, None)
      end.
End reads.

(** The capability query: [fill] is what the firmware makes of the buffer. *)
Definition GetCapability (status : Z) (fill : list byte -> list byte) : out Z :=
  let* buf := setAt (make tcg2CapSize) tcg2CapSizeOffset tcg2CapSize in
  let buf := copy buf (fill buf) in
  if negb (Z.land status efiStatusErrorBit =? 0) then Ok 0
  else
    let* lo := idx buf tcg2CapMaxResponseOffset in
    let* hi := idx buf (tcg2CapMaxResponseOffset + 1) in
    Ok (Z.lor lo (Z.shiftl hi 8)).

(** LocateProtocol's answer: no TPM is no error. *)
Definition LocateTCG2 (r : Z + error) : out Z :=
  match r with
  | inl proto => Ok proto
  | inr (ErrEFI status as e) =>
      if Z.ldiff status efiStatusErrorBit =? efiStatusNotFound then Ok 0 else Err e
  | inr e => Err e
  end.

(** ** The log in memory *)

(** TCG_PCR_EVENT, the header of the log, and TCG_PCR_EVENT2. *)
Record pcrHeader := mkHeader { ph_fixed : list byte; ph_event : list byte }.
Record pcrEvent := mkEvent { pe_fixed : list byte; pe_digests : list (Z * list byte); pe_event : list byte }.
Definition encHeader (h : pcrHeader) : list byte := ph_fixed h ++ le32 (len (ph_event h)) ++ ph_event h.
Definition encDigests (ds : list (Z * list byte)) : list byte := concat ((fun d => le16 (fst d) ++ snd d) <$> ds).
Definition encEvent (e : pcrEvent) : list byte :=
  pe_fixed e ++ le32 (len (pe_digests e)) ++ encDigests (pe_digests e) ++ le32 (len (pe_event e)) ++ pe_event e.
Definition wfHeader (h : pcrHeader) : Prop := len (ph_fixed h) = legacyPrefix /\ len (ph_event h) < 2 ^ 32.
(** The banks of the specification: SHA-1, SHA-256, SHA-384, SHA-512 and SM3-256,
    by the TPM's algorithm numbers, with their digests' widths in bytes. *)
Definition banks : list (Z * Z) := [(0x0004, 20); (0x000B, 32); (0x000C, 48); (0x000D, 64); (0x0012, 32)].
Definition wfDigest (d : Z * list byte) : Prop := (fst d, len (snd d)) ∈ banks.
Definition wfEvent (e : pcrEvent) : Prop :=
  len (pe_fixed e) = 8 /\ len (pe_digests e) < 2 ^ 32 /\ Forall wfDigest (pe_digests e) /\ len (pe_event e) < 2 ^ 32.
Definition encLog (h : pcrHeader) (es : list pcrEvent) : list byte := encHeader h ++ concat (encEvent <$> es).

(** The address of the last entry. *)
Definition lastEntryOf (location : Z) (h : pcrHeader) (es : list pcrEvent) : Z :=
  match last es with None => location | Some e => location + len (encLog h es) - len (encEvent e) end.

Lemma holds_region m p bs : p <> 0 -> holds m p bs -> unsafeSlice p (len bs) = Ok tt /\ loadBytes m p (length bs) = Ok bs.
Proof.
  intros Hp Hh. split; [|by apply loadBytes_holds]. destruct Hh as (Hp0 & Hw & _). unfold unsafeSlice. pose proof (len_nonneg bs).
  assert (len bs <= u64 (- p) \/ len bs = 0) as Hu.
  { destruct (Z.eq_dec (len bs) 0); [by right|left]. unfold u64. rewrite Z.mod_opp_l_nz; rewrite ?Z.mod_small; lia. }
  destruct (Z.ltb_spec (len bs) 0), (Z.ltb_spec (u64 (- p)) (len bs)); cbn; try done; try lia.
  destruct Hu as [|E]; [lia|]. pose proof (Z.mod_pos_bound (- p) (2 ^ 64) ltac:(lia)). unfold u64 in *. lia.
Qed.

Lemma readU32_holds m p v : p <> 0 -> 0 <= v < 2 ^ 32 -> holds m p (le32 v) -> readFirmwareU32LE m p = Ok v.
Proof.
  intros Hp Hv Hh. destruct (holds_region m p _ Hp Hh) as [Hu Hl]. unfold readFirmwareU32LE.
  change (unsafeSlice p 4) with (unsafeSlice p (len (le32 v))). rewrite Hu. cbn [out_bind].
  change (loadBytes m p 4) with (loadBytes m p (length (le32 v))). rewrite Hl. cbn [out_bind]. by apply leU32_le64.
Qed.
Lemma readU16_holds m p v : p <> 0 -> 0 <= v < 2 ^ 16 -> holds m p (le16 v) -> readFirmwareU16LE m p = Ok v.
Proof.
  intros Hp Hv Hh. destruct (holds_region m p _ Hp Hh) as [Hu Hl]. unfold readFirmwareU16LE.
  change (unsafeSlice p 2) with (unsafeSlice p (len (le16 v))). rewrite Hu. cbn [out_bind].
  change (loadBytes m p 2) with (loadBytes m p (length (le16 v))). rewrite Hl. cbn [out_bind le16 le64 take]. f_equal.
  rewrite lor_above; rewrite ?b2z_z2b, ?Z.shiftr_div_pow2 by lia; [|lia|apply Z.mod_pos_bound; lia]. change (2 ^ 8) with 256. change (2 ^ 16) with 65536 in *.
  Z.to_euclidean_division_equations. lia.
Qed.

Lemma wfDigest_alg d : wfDigest d -> tcg2DigestSize (fst d) = Some (len (snd d)) /\ 0 <= fst d < 2 ^ 16 /\ 0 < len (snd d).
Proof.
  unfold wfDigest, banks. rewrite !elem_of_cons, elem_of_nil. intros Hd.
  repeat (destruct Hd as [[= -> ->]|Hd]; [split; [reflexivity|lia]|]). done.
Qed.

Lemma encDigests_cons d ds : encDigests (d :: ds) = (le16 (fst d) ++ snd d) ++ encDigests ds.
Proof. done. Qed.

(** The digests are walked to their end. *)
Lemma skipDigests_ok m ds rest p :
  0 < p -> Forall wfDigest ds -> rest <> [] -> holds m p (encDigests ds ++ rest) ->
  skipDigests m (length ds) p = Ok (p + len (encDigests ds)).
Proof.
  intros Hp Hds Hr. revert p Hp. induction Hds as [|d ds Hd Hds IH]; intros p Hp Hh; cbn [length skipDigests].
  { change (len (encDigests [])) with 0. by rewrite Z.add_0_r. }
  rewrite encDigests_cons in *. rewrite <- !app_assoc in Hh. apply holds_app in Hh as [Halg Hh]. rewrite len_le16 in Hh.
  apply holds_app in Hh as [Hdig Hh]. destruct (wfDigest_alg d Hd) as (Hsize & Hz & Hl). pose proof Hh as (_ & Hw & _).
  rewrite len_app in Hw. pose proof (len_nonneg (encDigests ds)). assert (0 < len rest) by (destruct rest; [done|rewrite len_cons; pose proof (len_nonneg rest); lia]).
  rewrite (readU16_holds m p (fst d)) by (done || lia). cbn [out_bind]. rewrite Hsize. unfold u64.
  rewrite (Z.mod_small (p + 2)), (Z.mod_small (p + 2 + len (snd d))) by lia. rewrite IH by (done || lia).
  f_equal. rewrite !len_app, len_le16. lia.
Qed.

(** The size of an entry is the length of its encoding. *)
Lemma entrySize_header m location h :
  0 < location -> wfHeader h -> holds m location (encHeader h) -> tcg2EntrySize m location location = Ok (len (encHeader h)).
Proof.
  intros Hp [Hf He] Hh. unfold tcg2EntrySize. rewrite Z.eqb_refl. unfold encHeader in *. apply holds_app in Hh as [_ Hh].
  rewrite Hf in Hh. apply holds_app in Hh as [Hs Hh]. rewrite len_le32 in Hh. destruct Hh as (Hq & Hw & _). pose proof (len_nonneg (ph_event h)).
  unfold u64. rewrite (Z.mod_small (location + legacyPrefix)) by (unfold legacyPrefix in *; lia).
  rewrite (readU32_holds m (location + legacyPrefix) (len (ph_event h))) by (done || unfold legacyPrefix in *; lia). cbn [out_bind].
  rewrite !len_app, len_le32, Hf. rewrite Z.mod_small by (unfold legacyPrefix; lia). f_equal. lia.
Qed.

Lemma entrySize_event m location p e :
  0 < p -> p <> location -> wfEvent e -> holds m p (encEvent e) -> tcg2EntrySize m location p = Ok (len (encEvent e)).
Proof.
  intros Hp Hne (Hf & Hn & Hds & He) Hh. unfold tcg2EntrySize. rewrite (proj2 (Z.eqb_neq _ _) Hne). pose proof Hh as (_ & Hw & _).
  assert (len (encEvent e) = 16 + len (encDigests (pe_digests e)) + len (pe_event e)) as Hlen.
  { unfold encEvent. rewrite !len_app, !len_le32, Hf. lia. }
  pose proof (len_nonneg (encDigests (pe_digests e))). pose proof (len_nonneg (pe_event e)). pose proof (len_nonneg (pe_digests e)).
  unfold encEvent in Hh. apply holds_app in Hh as [_ Hh]. rewrite Hf in Hh. apply holds_app in Hh as [Hc Hh]. rewrite len_le32 in Hh.
  pose proof Hh as Hd. apply holds_app in Hd as [_ Hs]. apply holds_app in Hs as [Hs _]. unfold u64. rewrite (Z.mod_small (p + 8)) by lia.
  rewrite (readU32_holds m (p + 8) (len (pe_digests e))) by (done || lia). cbn [out_bind]. rewrite (Z.mod_small (p + 8 + 4)) by lia.
  replace (Z.to_nat (len (pe_digests e))) with (length (pe_digests e)) by (unfold len; lia).
  rewrite (skipDigests_ok m _ (le32 (len (pe_event e)) ++ pe_event e)) by (done || lia). cbn [out_bind].
  rewrite (readU32_holds m _ (len (pe_event e))) by (done || lia). cbn [out_bind].
  f_equal. rewrite Zplus_mod_idemp_l, Zminus_mod_idemp_l. rewrite Hlen.
  replace (p + 8 + 4 + len (encDigests (pe_digests e)) + 4 + len (pe_event e) - p) with (16 + len (encDigests (pe_digests e)) + len (pe_event e)) by lia.
  apply Z.mod_small. lia.
Qed.

Lemma read_all m p bs : 0 < p -> len bs < 2 ^ 63 -> holds m p bs -> readFirmwareBytes m p (len bs) = Ok bs.
Proof.
  intros Hp Hl Hh. unfold readFirmwareBytes. destruct (Z.leb_spec (len bs) 0) as [Hz|Hz].
  { pose proof (len_nonneg bs). destruct bs as [|b bs]; [done|]. rewrite len_cons in Hz. pose proof (len_nonneg bs). lia. }
  destruct (holds_region m p bs ltac:(lia) Hh) as [-> Hb]. cbn [out_bind]. unfold len. by rewrite Nat2Z.id.
Qed.

Lemma last_entry_size m location h es :
  0 < location -> wfHeader h -> (forall e, last es = Some e -> wfEvent e) -> holds m location (encLog h es) ->
  exists size, tcg2EntrySize m location (lastEntryOf location h es) = Ok size
    /\ lastEntryOf location h es - location + size = len (encLog h es) /\ location <= lastEntryOf location h es /\ 0 <= size.
Proof.
  intros Hp Hh Hes Hm. unfold lastEntryOf. destruct es as [|e es _] using rev_ind.
  { cbn [last]. exists (len (encHeader h)). unfold encLog in *. cbn [fmap list_fmap concat] in *. rewrite app_nil_r in *.
    rewrite (entrySize_header m location h) by done. pose proof (len_nonneg (encHeader h)). split; [done|lia]. }
  rewrite last_snoc in *. specialize (Hes e eq_refl). exists (len (encEvent e)). unfold encLog in *.
  rewrite fmap_app, concat_app in *. cbn [fmap list_fmap concat] in *. rewrite app_nil_r in *. rewrite app_assoc in *.
  apply holds_app in Hm as [_ Hm]. rewrite len_app. set (pre := len (encHeader h ++ concat (encEvent <$> es))) in *.
  assert (32 <= pre) as Hpre.
  { unfold pre, encHeader. rewrite !len_app, len_le32. destruct Hh as [-> _]. unfold legacyPrefix.
    pose proof (len_nonneg (ph_event h)). pose proof (len_nonneg (concat (encEvent <$> es))). lia. }
  pose proof (len_nonneg (encEvent e)). replace (location + (pre + len (encEvent e)) - len (encEvent e)) with (location + pre) by lia.
  split; [|lia]. apply entrySize_event; [lia|lia|done|done].
Qed.

(** C27. The firmware answers with two addresses, the log's start and that of its
    last entry.  The log returned is exactly the entries recorded, to the last
    byte of the last one, whatever digest banks that has: no byte of a log of
    the specification's layout is lost and none behind it is read. *)
Theorem event_log_returned m status location truncated h es :
  Z.land status efiStatusErrorBit = 0 -> 0 < location -> wfHeader h -> (forall e, last es = Some e -> wfEvent e) ->
  len (encLog h es) < 2 ^ 63 -> holds m location (encLog h es) ->
  GetEventLog m (mkLogAnswer status location (lastEntryOf location h es) truncated)
  = Ok (encLog h es, negb (truncated =? 0), None).
Proof.
  intros Hst Hp Hh Hes Hl Hm. unfold GetEventLog. cbn [la_status la_location la_lastEntry la_truncated].
  rewrite Hst, Z.eqb_refl. cbn [negb]. rewrite (proj2 (Z.eqb_neq location 0)) by lia.
  destruct (last_entry_size m location h es Hp Hh Hes Hm) as (size & -> & Hsum & Hle & Hsz).
  unfold u64. rewrite (Z.mod_small (_ - location)) by lia. rewrite Hsum. pose proof (len_nonneg (encLog h es)).
  rewrite Z.mod_small by lia. unfold s64. rewrite Z.mod_small by lia.
  replace (len (encLog h es) + 2 ^ 63 - 2 ^ 63) with (len (encLog h es)) by lia. by rewrite read_all.
Qed.

(** A log of a header and one event of three banks, at an odd address. *)
Definition toyHeader : pcrHeader := mkHeader (z2b <$> replicate 28 0) (z2b <$> [1; 2; 3; 4; 5]).
Definition toyEvent : pcrEvent :=
  mkEvent (z2b <$> [7; 0; 0; 0; 13; 0; 0; 0]) [(4, z2b <$> replicate 20 9); (12, z2b <$> replicate 48 8); (0x12, z2b <$> replicate 32 7)] (z2b <$> [0x2f; 0x6b]).
Definition toyLogMem : memory := allocAt ∅ 4097 (encLog toyHeader [toyEvent]).

Lemma event_log_returned_witness :
  GetEventLog toyLogMem (mkLogAnswer 0 4097 (4097 + 37) 1) = Ok (encLog toyHeader [toyEvent], true, None).
Proof.
  apply (event_log_returned toyLogMem 0 4097 1 toyHeader [toyEvent]); [done|lia|by split| |done|by apply allocAt_holds].
  intros e [= <-]. split; [done|]. split; [done|]. split; [|done].
  repeat (apply Forall_cons; split; [apply (bool_decide_unpack _); vm_compute; exact I|]). apply Forall_nil_2.
Defined.

(** A last entry with a digest of an unknown algorithm is an error, and no log
    comes back: the walk never guesses a width. *)
Lemma unknown_digest m location p fixed algID count tail :
  0 < p -> p <> location -> len fixed = 8 -> 0 < count < 2 ^ 32 -> 0 <= algID < 2 ^ 16 -> tcg2DigestSize algID = None ->
  holds m p (fixed ++ le32 count ++ le16 algID ++ tail) ->
  tcg2EntrySize m location p = Err (ErrEFI (Z.lor efiStatusErrorBit 0x02)).
Proof.
  intros Hp Hne Hf Hc Ha Hu Hm. unfold tcg2EntrySize. rewrite (proj2 (Z.eqb_neq _ _) Hne). pose proof Hm as (_ & Hw & _).
  rewrite !len_app, len_le32, len_le16, Hf in Hw. pose proof (len_nonneg tail). apply holds_app in Hm as [_ Hm]. rewrite Hf in Hm.
  apply holds_app in Hm as [Hcn Hm]. rewrite len_le32 in Hm. apply holds_app in Hm as [Hal _]. unfold u64.
  rewrite (Z.mod_small (p + 8)), (Z.mod_small (p + 8 + 4)) by lia. rewrite (readU32_holds m (p + 8) count) by (done || lia). cbn [out_bind].
  destruct (Z.to_nat count) as [|k] eqn:Ek; [lia|]. cbn [skipDigests]. rewrite (readU16_holds m _ algID) by (done || lia). cbn [out_bind]. by rewrite Hu.
Qed.
