(* ===== verification/MeasuredBoot.v ===== *)
(** * Measured boot

    src/phase2_tpm_measure.go, phase2_tpm_measure_readback.go and
    phase2_tpm_measure_eventlog.go, which a build tag puts in place of the no-op of
    KernelBoot.v: the kernel and its command line are measured into the firmware's
    TPM, the register is read back and the firmware's event log replayed against
    it.  The TPM and its driver (go-tpm2/efitcg2, tpm2) are a type class, the log
    parser, the replay and the policy check (go-tpm2/attest) are parameters.  What
    is printed is the report that the model returns. *)

From stdpp Require Import countable.
From S2P Require Import Prelude Effects GoStr EventLog.

Definition evEFIBootServicesApplication : Z := 0x80000003.
Definition evIPL : Z := 0x0D.
Definition pcrKernelImage : Z := 4.
Definition pcrKernelCmd : Z := 8.

(** What the code reads of attest's events, and the policy it builds. *)
Record Event := mkTcgEvent { ev_PCR : Z; ev_Digests : gmap Z (list byte) }.
Record EventLogPolicy := mkPolicy { restricted : list Z; allowed : list (Z * list byte) }.

Class TPM (P : Type) := {
  tpmLocate : M P Z;
  tpmMeasureToPCR : Z -> Z -> list byte -> list byte -> M P unit;
  tpmPCRRead : list (Z * list Z) -> M P (list (list byte));
  tpmGetEventLog : M P (list byte)
}.

(** The ways validateFirmwareEventLog ends, and what measurePhase2 reports. *)
Inductive replayVerdict :=
| NoReadback
| LogUnavailable (e : error)
| LogUnparsed (e : error)
| ReplayFailed (e : error)
| NoPCR4Events
| ReplayMismatch
| PolicyRejected (e : error)
| ReplayPass (bytes events : Z).
Record measureReport := mkReport { mr_kernel : option error; mr_cmdline : option (option error); mr_verdict : replayVerdict }.
Inductive measured := LocateFailed (e : error) | NoTPM | Measured (r : measureReport).

(** equalBytesTPM *)
Fixpoint sameBytes (a b : list byte) : bool :=
  match a, b with x :: a, y :: b => if decide (x = y) then sameBytes a b else false | _, _ => true end.
Definition equalBytesTPM (a b : list byte) : bool := if negb (len a =? len b) then false else sameBytes a b.

Section measure.
Context {P : Type} `{TPM P}.
Variable algSHA256 : Z.
Variable ParseEventLog : list byte -> list Event + error.
Variable ReplayPCRs : list Event -> Z -> gmap Z (list byte) + error.
Variable Matches : EventLogPolicy -> gmap Z (list byte) -> list byte -> option error.

(** The error a call returns, if any. *)
Definition errOf {A} (m : M P A) : M P (option error) :=
  r <- try m ;; ret (match r with inl _ => None | inr e => Some e end).

Definition readBackPCR4 : M P (option (list byte)) :=
  r <- try (tpmPCRRead [(algSHA256, [pcrKernelImage])]) ;;
  ret (match r with inl (d :: _) => Some d | _ => None end).

(** Every event of the log is put on the allowlist. *)
Fixpoint allowEvents (events : list Event) (p : EventLogPolicy) : EventLogPolicy :=
  match events with
  | [] => p
  | ev :: r =>
      allowEvents r (match ev_Digests ev !! algSHA256 with
                     | Some d => mkPolicy (restricted p) (allowed p ++ [(ev_PCR ev, d)])
                     | None => p
                     end)
  end.
Definition policyFrom (events : list Event) : EventLogPolicy := allowEvents events (mkPolicy [pcrKernelImage] []).

(** What is decided of a log and the register read back. *)
Definition judge (log fwPCR4 : list byte) : replayVerdict :=
  match ParseEventLog log with
  | inr e => LogUnparsed e
  | inl events =>
      match ReplayPCRs events algSHA256 with
      | inr e => ReplayFailed e
      | inl pcrs =>
          match pcrs !! pcrKernelImage with
          | None => NoPCR4Events
          | Some replayed =>
              if negb (equalBytesTPM replayed fwPCR4) then ReplayMismatch
              else
                match Matches (policyFrom events) {[ pcrKernelImage := fwPCR4 ]} log with
                | Some e => PolicyRejected e
                | None => ReplayPass (len log) (len events)
                end
          end
      end
  end.

Definition validateFirmwareEventLog (fwPCR4 : option (list byte)) : M P replayVerdict :=
  match fwPCR4 with
  | None => ret NoReadback
  | Some fwPCR4 =>
      log <- try tpmGetEventLog ;;
      ret (match log with inr e => LogUnavailable e | inl log => judge log fwPCR4 end)
  end.

Definition measurePhase2 (vmlinuz cmdline : list byte) : M P measured :=
  r <- try tpmLocate ;;
  proto <- try (lift (LocateTCG2 r)) ;;
  match proto with
  | inr e => ret (LocateFailed e)
  | inl proto =>
      if proto =? 0 then ret NoTPM
      else
        k <- errOf (tpmMeasureToPCR pcrKernelImage evEFIBootServicesApplication vmlinuz (str "vmlinuz")) ;;
        c <- (if 0 <? len cmdline
              then c <- errOf (tpmMeasureToPCR pcrKernelCmd evIPL cmdline (str "cmdline")) ;; ret (Some c)
              else ret None) ;;
        fwPCR4 <- readBackPCR4 ;;
        v <- validateFirmwareEventLog fwPCR4 ;;
        ret (Measured (mkReport k c v))
  end.
End measure.

(** ** Laws *)

Lemma sameBytes_spec a : forall b, length a = length b -> sameBytes a b = true <-> a = b.
Proof.
  induction a as [|x a IH]; intros [|y b] Hl; cbn [sameBytes]; try done. injection Hl as Hl. destruct (decide (x = y)) as [->|Hn].
  - rewrite IH by done. split; [by intros ->|by intros [= ->]].
  - split; [done|]. by intros [= ? _].
Qed.
Lemma equalBytesTPM_spec a b : equalBytesTPM a b = bool_decide (a = b).
Proof.
  unfold equalBytesTPM. destruct (Z.eqb_spec (len a) (len b)) as [E|E]; cbn [negb].
  - apply Bool.eq_iff_eq_true. rewrite bool_decide_eq_true. apply sameBytes_spec. unfold len in E. lia.
  - symmetry. apply bool_decide_eq_false. by intros ->.
Qed.

Section sound.
Context {P : Type} `{TPM P}.
Variable algSHA256 : Z.
Variable ParseEventLog : list byte -> list Event + error.
Variable ReplayPCRs : list Event -> Z -> gmap Z (list byte) + error.
Variable Matches : EventLogPolicy -> gmap Z (list byte) -> list byte -> option error.

(** A pass is reported only of a log that parses, whose replay gives register 4 the
    value that was read back, and that the policy made from its own events admits
    for that value. *)
Theorem judge_pass_sound log fw n k :
  judge algSHA256 ParseEventLog ReplayPCRs Matches log fw = ReplayPass n k ->
  exists events pcrs, ParseEventLog log = inl events /\ ReplayPCRs events algSHA256 = inl pcrs /\
    pcrs !! pcrKernelImage = Some fw /\ Matches (policyFrom algSHA256 events) {[ pcrKernelImage := fw ]} log = None /\
    n = len log /\ k = len events.
Proof.
  unfold judge. destruct (ParseEventLog log) as [events|]; [|done]. destruct (ReplayPCRs events algSHA256) as [pcrs|] eqn:Er; [|done].
  destruct (pcrs !! pcrKernelImage) as [d|] eqn:Ed; [|done]. rewrite equalBytesTPM_spec. case_bool_decide as E; cbn [negb]; [subst d|done].
  destruct (Matches _ _ _) eqn:Em; [done|]. intros [= <- <-]. by exists events, pcrs.
Qed.

Lemma noErr_ret {S A} (a : A) : noErr (@ret S A a).
Proof. done. Qed.
Lemma noErr_try {S A} (m : M S A) : noErr (try m).
Proof. intros s e. unfold try. by destruct (m s) as [[?|?|] ?]. Qed.
Lemma noErr_bind {S A B} (m : M S A) (k : A -> M S B) : noErr m -> (forall a, noErr (k a)) -> noErr (bind m k).
Proof. intros Hm Hk s e. unfold bind. specialize (Hm s). destruct (m s) as [[a|e'|] s1]; [apply Hk|by destruct (Hm e')|done]. Qed.
Lemma errOf_noErr {A} (m : M P A) : noErr (errOf m).
Proof. apply noErr_bind; [apply noErr_try|]. intros r. apply noErr_ret. Qed.

(** Whatever the TPM answers, measuring is no reason not to boot. *)
Theorem measure_never_fails vmlinuz cmdline : noErr (measurePhase2 algSHA256 ParseEventLog ReplayPCRs Matches vmlinuz cmdline).
Proof.
  unfold measurePhase2. apply noErr_bind; [apply noErr_try|]. intros r. apply noErr_bind; [apply noErr_try|]. intros [proto|e]; [|apply noErr_ret].
  destruct (proto =? 0); [apply noErr_ret|]. apply noErr_bind; [apply errOf_noErr|]. intros k. apply noErr_bind.
  - destruct (0 <? len cmdline); [|apply noErr_ret]. apply noErr_bind; [apply errOf_noErr|]. intros c. apply noErr_ret.
  - intros c. apply noErr_bind; [apply noErr_bind; [apply noErr_try|intros x; apply noErr_ret]|]. intros [fw|]; (apply noErr_bind; [|intros v; apply noErr_ret]).
    + apply noErr_bind; [apply noErr_try|intros x; apply noErr_ret].
    + apply noErr_ret.
Qed.
End sound.

(** The TPM and the library as their documentation has them: extending a register
    hashes the digest of the data into it and logs the event; the log that the
    firmware keeps is the one that was made, parsing gives back its events, and
    replaying them gives back the registers they made out of zero; a policy
    admits a log whose events are on its list and replay to the registers that
    were attested. *)
Class TPMOk (P : Type) `{TPM P} (algSHA256 : Z) (H : list byte -> list byte) (extend : list byte -> list byte -> list byte)
    (ParseEventLog : list byte -> list Event + error) (ReplayPCRs : list Event -> Z -> gmap Z (list byte) + error)
    (Matches : EventLogPolicy -> gmap Z (list byte) -> list byte -> option error) := {
  tpm_ready : P -> Prop;
  tpm_pcr : P -> Z -> list byte;
  tpm_events : P -> list Event;
  tpm_locate s : tpm_ready s -> exists proto s', tpmLocate s = (Ok proto, s') /\ proto <> 0 /\ tpm_ready s' /\
    tpm_pcr s' = tpm_pcr s /\ tpm_events s' = tpm_events s;
  tpm_measure s pcr ty data ev : tpm_ready s -> exists s', tpmMeasureToPCR pcr ty data ev s = (Ok tt, s') /\ tpm_ready s' /\
    (forall p, tpm_pcr s' p = if p =? pcr then extend (tpm_pcr s p) (H data) else tpm_pcr s p) /\
    tpm_events s' = tpm_events s ++ [mkTcgEvent pcr {[ algSHA256 := H data ]}];
  tpm_read s pcr : tpm_ready s -> exists s', tpmPCRRead [(algSHA256, [pcr])] s = (Ok [tpm_pcr s pcr], s') /\ tpm_ready s' /\
    tpm_pcr s' = tpm_pcr s /\ tpm_events s' = tpm_events s;
  tpm_log s : tpm_ready s -> exists log s', tpmGetEventLog s = (Ok log, s') /\ tpm_ready s' /\
    tpm_pcr s' = tpm_pcr s /\ tpm_events s' = tpm_events s /\ ParseEventLog log = inl (tpm_events s);
  tpm_replay es : exists pcrs, ReplayPCRs es algSHA256 = inl pcrs /\
    forall s, tpm_ready s -> tpm_events s = es -> forall p, Exists (fun e => ev_PCR e = p) es -> pcrs !! p = Some (tpm_pcr s p);
  tpm_policy pol attested log es pcrs :
    ParseEventLog log = inl es -> ReplayPCRs es algSHA256 = inl pcrs ->
    (forall p d, attested !! p = Some d -> pcrs !! p = Some d) ->
    (forall e d, e ∈ es -> ev_PCR e ∈ restricted pol -> ev_Digests e !! algSHA256 = Some d -> (ev_PCR e, d) ∈ allowed pol) ->
    Matches pol attested log = None
}.

Section laws.
Variable algSHA256 : Z.

Lemma allowEvents_spec es : forall p,
  restricted (allowEvents algSHA256 es p) = restricted p /\
  forall x, x ∈ allowed (allowEvents algSHA256 es p) <->
    x ∈ allowed p \/ exists e, e ∈ es /\ ev_PCR e = fst x /\ ev_Digests e !! algSHA256 = Some (snd x).
Proof.
  induction es as [|e es IH]; intros p; cbn [allowEvents].
  - split; [done|]. intros x. split; [by left|]. intros [?|(e & He & _)]; [done|by apply not_elem_of_nil in He].
  - destruct (IH (match ev_Digests e !! algSHA256 with Some d => mkPolicy (restricted p) (allowed p ++ [(ev_PCR e, d)]) | None => p end)) as [Hr Ha].
    split; [rewrite Hr; by destruct (ev_Digests e !! algSHA256)|]. intros [pcr d]. rewrite Ha. setoid_rewrite elem_of_cons.
    destruct (ev_Digests e !! algSHA256) as [d'|] eqn:E; cbn [allowed fst snd].
    + rewrite elem_of_app, list_elem_of_singleton. split.
      * intros [[?|[= -> ->]]|(e' & ? & ?)]; [by left|right; exists e; auto|right; exists e'; tauto].
      * intros [?|(e' & [->|?] & Hp & Hd)]; [by left; left| |right; by exists e']. rewrite E in Hd. injection Hd as ->. left. right. by rewrite Hp.
    + split; [intros [?|(e' & ? & ?)]; [by left|right; exists e'; tauto]|]. intros [?|(e' & [->|?] & Hp & Hd)]; [by left| |right; by exists e']. congruence.
Qed.

(** The policy admits every event of the log that it is made from. *)
Lemma policyFrom_admits es e d :
  e ∈ es -> ev_Digests e !! algSHA256 = Some d -> (ev_PCR e, d) ∈ allowed (policyFrom algSHA256 es).
Proof. intros He Hd. apply allowEvents_spec. right. by exists e. Qed.
End laws.

Section attested.
Context {P : Type} `{TPM P} (algSHA256 : Z) (Hash : list byte -> list byte) (extend : list byte -> list byte -> list byte).
Context (ParseEventLog : list byte -> list Event + error) (ReplayPCRs : list Event -> Z -> gmap Z (list byte) + error).
Context (Matches : EventLogPolicy -> gmap Z (list byte) -> list byte -> option error).
Context `{!TPMOk P algSHA256 Hash extend ParseEventLog ReplayPCRs Matches}.

Definition measureEvents (vmlinuz cmdline : list byte) : list Event :=
  mkTcgEvent pcrKernelImage {[ algSHA256 := Hash vmlinuz ]} ::
  if 0 <? len cmdline then [mkTcgEvent pcrKernelCmd {[ algSHA256 := Hash cmdline ]}] else [].
Definition measuredPCRs (old : Z -> list byte) (vmlinuz cmdline : list byte) (p : Z) : list byte :=
  if p =? pcrKernelImage then extend (old p) (Hash vmlinuz)
  else if (p =? pcrKernelCmd) && (0 <? len cmdline) then extend (old p) (Hash cmdline) else old p.

Lemma try_ok {S A} (m : M S A) s a s' : m s = (Ok a, s') -> try m s = (Ok (inl a), s').
Proof. unfold try. by intros ->. Qed.
Lemma errOf_ok {A} (m : M P A) s a s' : m s = (Ok a, s') -> errOf m s = (Ok None, s').
Proof. unfold errOf, bind. intros E. by rewrite (try_ok _ _ _ _ E). Qed.

(** A log that was read back and replays is judged to pass. *)
Lemma judge_pass log s es :
  tpm_ready s -> tpm_events s = es -> ParseEventLog log = inl es -> Exists (fun e => ev_PCR e = pcrKernelImage) es ->
  judge algSHA256 ParseEventLog ReplayPCRs Matches log (tpm_pcr s pcrKernelImage) = ReplayPass (len log) (len es).
Proof.
  intros Hs He Hp Hx. unfold judge. rewrite Hp. destruct (tpm_replay es) as (pcrs & Hr & Hpcr). rewrite Hr.
  pose proof (Hpcr s Hs He _ Hx) as H4. rewrite H4. rewrite equalBytesTPM_spec, bool_decide_eq_true_2 by done. cbn [negb].
  erewrite tpm_policy; [done|exact Hp|exact Hr| |].
  - intros p d Hd. apply lookup_singleton_Some in Hd as [<- <-]. exact H4.
  - intros e d Hin _ Hd. by apply policyFrom_admits.
Qed.

(** C10. On a TPM and an event log that do what their specification says, measured boot
    extends register 4 by the digest of exactly the kernel that is booted and
    register 8 by that of its command line when there is one, leaves every other
    register alone and every measurement in the log, and the replay of the
    firmware's own log against the register read back passes. *)
Theorem measured_boot_attested vmlinuz cmdline s :
  tpm_ready s ->
  exists r s' log, measurePhase2 algSHA256 ParseEventLog ReplayPCRs Matches vmlinuz cmdline s = (Ok (Measured r), s') /\
    mr_kernel r = None /\ mr_cmdline r = (if 0 <? len cmdline then Some None else None) /\
    (forall p, tpm_pcr s' p = measuredPCRs (tpm_pcr s) vmlinuz cmdline p) /\
    tpm_events s' = tpm_events s ++ measureEvents vmlinuz cmdline /\
    ParseEventLog log = inl (tpm_events s') /\ mr_verdict r = ReplayPass (len log) (len (tpm_events s')).
Proof.
  intros Hs. destruct (tpm_locate s Hs) as (proto & s1 & E1 & Hp & Hs1 & P1 & V1).
  destruct (tpm_measure s1 pcrKernelImage evEFIBootServicesApplication vmlinuz (str "vmlinuz") Hs1) as (s2 & E2 & Hs2 & P2 & V2).
  assert (exists s3, (if 0 <? len cmdline
              then c <- errOf (tpmMeasureToPCR pcrKernelCmd evIPL cmdline (str "cmdline")) ;; ret (Some c)
              else ret None) s2 = (Ok (if 0 <? len cmdline then Some None else None), s3) /\ tpm_ready s3 /\
      (forall p, tpm_pcr s3 p = measuredPCRs (tpm_pcr s) vmlinuz cmdline p) /\
      tpm_events s3 = tpm_events s ++ measureEvents vmlinuz cmdline) as (s3 & E3 & Hs3 & P3 & V3).
  { unfold measuredPCRs, measureEvents. destruct (0 <? len cmdline).
    - destruct (tpm_measure s2 pcrKernelCmd evIPL cmdline (str "cmdline") Hs2) as (s3 & E3 & Hs3 & P3 & V3). exists s3.
      unfold bind. rewrite (errOf_ok _ _ _ _ E3). split; [done|]. split; [done|]. split; [|rewrite V3, V2, V1, <- app_assoc; done].
      intros p. rewrite P3, P2, P1. unfold pcrKernelImage, pcrKernelCmd. rewrite andb_true_r. destruct (Z.eqb_spec p 8) as [E8|], (Z.eqb_spec p 4) as [E4|]; try done. lia.
    - exists s2. split; [done|]. split; [done|]. split; [|rewrite V2, V1; done]. intros p. rewrite P2, P1, andb_false_r. done. }
  destruct (tpm_read s3 pcrKernelImage Hs3) as (s4 & E4 & Hs4 & P4 & V4). destruct (tpm_log s4 Hs4) as (log & s5 & E5 & Hs5 & P5 & V5 & L5).
  exists (mkReport None (if 0 <? len cmdline then Some None else None) (judge algSHA256 ParseEventLog ReplayPCRs Matches log (tpm_pcr s3 pcrKernelImage))), s5, log.
  split.
  { unfold measurePhase2, bind at 1. rewrite (try_ok _ _ _ _ E1). unfold bind at 1, lift, LocateTCG2, try at 1. rewrite (proj2 (Z.eqb_neq proto 0)) by done.
    unfold bind at 1. rewrite (errOf_ok _ _ _ _ E2). unfold bind at 1. rewrite E3. unfold readBackPCR4, bind at 1 2. rewrite (try_ok _ _ _ _ E4).
    cbn [ret]. unfold validateFirmwareEventLog, ret, bind. rewrite (try_ok _ _ _ _ E5). done. }
  cbn [mr_kernel mr_cmdline mr_verdict]. rewrite V5, V4, P5, P4. split_and!; [done..| |].
  - by rewrite L5, V4.
  - rewrite <- P4. apply judge_pass; [done|done|by rewrite L5, V4|]. rewrite V3. unfold measureEvents. apply Exists_app. right. by left.
Qed.
End attested.

(** ** A TPM for demonstrations *)

(** Registers of a byte string each, extended by putting the digest behind it, and
    the log as bits of a number. *)
#[local] Instance event_eq_dec : EqDecision Event.
Proof. solve_decision. Defined.
#[local] Instance byte_countable : Countable byte := inj_countable Byte.to_N Byte.of_N Byte.of_to_N.
#[local] Program Instance event_countable : Countable Event :=
  inj_countable' (fun e => (ev_PCR e, ev_Digests e)) (fun p => mkTcgEvent (fst p) (snd p)) _.
Next Obligation. by intros []. Qed.

Fixpoint posBytes (p : positive) : list byte :=
  match p with xH => [] | xO p => x00 :: posBytes p | xI p => x01 :: posBytes p end.
Fixpoint bytesPos (bs : list byte) : positive :=
  match bs with [] => xH | b :: r => if decide (b = x00) then xO (bytesPos r) else xI (bytesPos r) end.
Lemma bytesPos_posBytes p : bytesPos (posBytes p) = p.
Proof. induction p as [p IH|p IH|]; cbn; [by rewrite IH..|done]. Qed.

Record toyTPM := mkToyTPM { tt_events : list Event }.
Definition toySHA : Z := 0x000B.
Definition toyHash (b : list byte) : list byte := take 32 (b ++ make 32).
Definition toyParse (b : list byte) : list Event + error := match decode (bytesPos b) with Some es => inl es | None => inr ErrEOF end.
Definition toyPCR (es : list Event) (p : Z) : list byte :=
  concat ((fun e => if ev_PCR e =? p then default [] (ev_Digests e !! toySHA) else []) <$> es).
Definition toyReplay (es : list Event) (alg : Z) : gmap Z (list byte) + error :=
  inl (list_to_map ((fun e => (ev_PCR e, toyPCR es (ev_PCR e))) <$> es)).
Definition toyMatches (pol : EventLogPolicy) (attested : gmap Z (list byte)) (log : list byte) : option error :=
  match toyParse log with
  | inr e => Some e
  | inl es =>
      if forallb (fun e => negb (bool_decide (ev_PCR e ∈ restricted pol)) ||
           match ev_Digests e !! toySHA with Some d => bool_decide ((ev_PCR e, d) ∈ allowed pol) | None => true end) es
      then None else Some ErrEOF
  end.
#[global] Instance toy_tpm : TPM toyTPM := {
  tpmLocate s := (Ok 1, s);
  tpmMeasureToPCR pcr _ data _ s := (Ok tt, mkToyTPM (tt_events s ++ [mkTcgEvent pcr {[ toySHA := toyHash data ]}]));
  tpmPCRRead sel s := (Ok ((fun p => toyPCR (tt_events s) p) <$> concat (snd <$> sel)), s);
  tpmGetEventLog s := (Ok (posBytes (encode (tt_events s))), s)
}.
#[global] Program Instance toy_tpm_ok : TPMOk toyTPM toySHA toyHash app toyParse toyReplay toyMatches := {
  tpm_ready _ := True; tpm_pcr s := toyPCR (tt_events s); tpm_events := tt_events
}.
Next Obligation. intros s _. by exists 1, s. Qed.
Next Obligation.
  intros s pcr ty data ev _. eexists. split; [reflexivity|]. split; [done|]. split; [|done]. intros p. cbn [tt_events]. unfold toyPCR.
  rewrite fmap_app, concat_app. cbn [fmap list_fmap concat ev_PCR ev_Digests]. rewrite app_nil_r, lookup_singleton_eq. cbn [default].
  rewrite (Z.eqb_sym pcr p). destruct (p =? pcr); [done|by rewrite app_nil_r].
Qed.
Next Obligation. intros s pcr _. by exists s. Qed.
Next Obligation.
  intros s _. exists (posBytes (encode (tt_events s))), s. split_and!; try done. unfold toyParse. by rewrite bytesPos_posBytes, decode_encode.
Qed.
Next Obligation.
  intros es. eexists. split; [reflexivity|]. intros s _ <- p (e & He & <-)%Exists_exists. apply elem_of_list_to_map_1'.
  - intros y (e' & [= E ->] & _)%list_elem_of_fmap. by rewrite E.
  - apply list_elem_of_fmap. by exists e.
Qed.
Next Obligation.
  intros pol attested log es pcrs Hp Hr Ha He. unfold toyMatches. rewrite Hp. assert (forallb _ es = true) as ->; [|done].
  apply forallb_forall. intros e Hin%list_elem_of_In. case_bool_decide as Hres; cbn [negb orb]; [|done].
  destruct (ev_Digests e !! toySHA) as [d|] eqn:Ed; [|done]. apply bool_decide_eq_true. by eapply He.
Qed.

Lemma measured_boot_attested_witness :
  exists r s' log, measurePhase2 toySHA toyParse toyReplay toyMatches (str "kernel") (str "quiet") (mkToyTPM []) = (Ok (Measured r), s') /\
    mr_kernel r = None /\ mr_cmdline r = Some None /\
    (forall p, toyPCR (tt_events s') p = measuredPCRs toyHash app (fun _ => []) (str "kernel") (str "quiet") p) /\
    tt_events s' = [] ++ measureEvents toySHA toyHash (str "kernel") (str "quiet") /\
    toyParse log = inl (tt_events s') /\ mr_verdict r = ReplayPass (len log) (len (tt_events s')).
Proof. exact (measured_boot_attested toySHA toyHash app toyParse toyReplay toyMatches (str "kernel") (str "quiet") (mkToyTPM []) I). Defined.
