(* ===== verification/Rng.v ===== *)
(** * The published random number generator

    uefiboard/rng_protocol.go and rng_protocol_tamago.go: the callbacks GetRNG
    and GetInfo that the firmware and the kernel call, the xorshift64* source
    behind them, and PublishRNG and UnpublishRNG, which keep the registry the
    callbacks look their caller up in. *)

From Stdlib Require Import Znumtheory Zpow_facts.
From S2P Require Import Prelude Effects LittleEndian MemMap Memory BootServices.

Definition rngRegistrySize : Z := 4.
Definition efiNativeInterface : Z := 0.
Definition rngEFISuccess : Z := 0.
Definition rngEFIInvalidParameter : Z := 0x8000000000000002.
Definition rngEFIBufferTooSmall : Z := 0x8000000000000005.
Definition rngEFINotFound : Z := 0x800000000000000E.

(** The registry (0 is a free slot), the generator's state, and the published
    protocols by handle, with their slots. *)
Record RngState := mkRng { rg_registry : list Z; rg_xorshift : Z; rg_published : gmap Z (Z * nat) }.
Definition rngInit : RngState := mkRng (replicate (Z.to_nat rngRegistrySize) 0) 0xa3b195354a39b70d ∅.

(** ** The source *)

Definition xorshiftStep (state : Z) : Z :=
  let state := Z.lxor state (Z.shiftr state 12) in
  let state := Z.lxor state (u64 (Z.shiftl state 25)) in
  Z.lxor state (Z.shiftr state 27).
Definition xorshiftOut (state : Z) : Z := u64 (state * 0x2545F4914F6CDD1D).

(** The loop over [i]; its fuel is one more than the number of words. *)
Fixpoint xorshiftLoop (fuel : nat) (buf n i state : Z) (m : memory) : out (Z * memory) :=
  match fuel with
  | O => Panic
  | S fuel =>
      if i <? n then
        let state := xorshiftStep state in
        let v := xorshiftOut state in
        let limit := if n - i <? 8 then n - i else 8 in
        let* m := storeBytes m (buf + i) (take (Z.to_nat limit) (le64 v)) in
        xorshiftLoop fuel buf n (u64 (i + 8)) state m
      else Ok (state, m)
  end.

(** Answers the count, the state and the memory. *)
Definition readXorshiftTamago (st : RngState) (m : memory) (buf n : Z) : out (Z * RngState * memory) :=
  let* r := xorshiftLoop (S (Z.to_nat ((n + 7) / 8))) buf n 0 (rg_xorshift st) m in
  Ok (n, mkRng (rg_registry st) (fst r) (rg_published st), snd r).

(** ** The callbacks *)

Definition published (st : RngState) (this : Z) : bool :=
  existsb (fun proto => (proto =? this) && negb (proto =? 0)) (rg_registry st).

(** EFI_STATUS, the state and the memory. *)
Definition rngGetRNGGo (st : RngState) (m : memory) (this alg valueLength valuePtr : Z) : out (Z * RngState * memory) :=
  if valueLength =? 0 then Ok (rngEFIInvalidParameter, st, m)
  else if valuePtr =? 0 then Ok (rngEFIInvalidParameter, st, m)
  else if negb (published st this) then Ok (rngEFINotFound, st, m)
  else
    let* r := readXorshiftTamago st m valuePtr valueLength in
    let '(written, st, m) := r in
    if negb (written =? valueLength) then Ok (0x8000000000000007, st, m) else Ok (rngEFISuccess, st, m).

Definition rngRawGUID : list byte :=
  [xd7; x76; x31; xe4; xe8; xb6; x27; x48; xb7; x84; x7f; xfd; xc4; xb6; x85; x61].

Definition rngGetInfoGo (st : RngState) (m : memory) (this listSize listPtr : Z) : out (Z * memory) :=
  if listSize =? 0 then Ok (rngEFIInvalidParameter, m)
  else
    let need := 16 in
    let* have := loadU64 m listSize in
    if (listPtr =? 0) || (have <? need) then
      let* m := storeU64 m listSize need in Ok (rngEFIBufferTooSmall, m)
    else if negb (published st this) then Ok (rngEFINotFound, m)
    else
      let* m := storeBytes m listPtr rngRawGUID in
      let* m := storeU64 m listSize need in
      Ok (rngEFISuccess, m).

(** ** Publishing *)

Section publish.
Context {F : Type} `{Firmware F}.
Abbreviation RngM := (M (RngState * Machine F)).
Definition onRng {A} (m : M RngState A) : RngM A := zoom fst (fun r s => (r, snd s)) m.
Definition onFw {A} (m : M (Machine F) A) : RngM A := zoom snd (fun x s => (fst s, x)) m.

Definition setSlot (slot : nat) (proto : Z) : M RngState unit :=
  modify (fun st => mkRng (<[slot := proto]> (rg_registry st)) (rg_xorshift st) (rg_published st)).
Definition setPublished (f : gmap Z (Z * nat) -> gmap Z (Z * nat)) : M RngState unit :=
  modify (fun st => mkRng (rg_registry st) (rg_xorshift st) (f (rg_published st))).

Definition freeSlot (registry : list Z) : option nat := fst <$> list_find (fun proto => proto = 0) registry.

(** [protocol] is where the EFIRngProtocol is allocated; the trampolines'
    addresses come from assembly. *)
Definition PublishRNG (protocol getRNGPC getInfoPC : Z) : RngM Z :=
  onFw needBootServices ;;;
  handles <- try (onFw (LocateHandleBuffer EFIRngProtocolGUID)) ;;
  match handles with inl hs => onFw (yankFrom hs 0) ;;; ret tt | inr _ => ret tt end ;;;
  onFw (modify (fun s => withMem (allocAt (mc_mem s) protocol (le64 getInfoPC ++ le64 getRNGPC)) s)) ;;;
  slot <- onRng (gets (fun st => freeSlot (rg_registry st))) ;;
  match slot with
  | None => throw ErrRNGRegistryFull
  | Some slot =>
      onRng (setSlot slot protocol) ;;;
      a <- onFw (efiCall (bsInstallProtocolInterface 0 EFIRngProtocolGUID efiNativeInterface protocol)) ;;
      if negb (ba_status a =? efiSuccess) then
        onRng (setSlot slot 0) ;;; throw (ErrEFI (ba_status a))
      else
        onRng (setPublished <[ba_out a := (protocol, slot)]>) ;;;
        ret (ba_out a)
  end.

Definition UnpublishRNG (handle : Z) : RngM unit :=
  throw_if handle =? 0 with ErrRNGNotPublished;;
  state <- onRng (gets (fun st => rg_published st !! handle)) ;;
  match state with
  | None => throw ErrRNGNotPublished
  | Some (protocol, slot) =>
      onFw needBootServices ;;;
      a <- onFw (efiCall (bsUninstallProtocolInterface handle EFIRngProtocolGUID protocol)) ;;
      onFw (success a) ;;;
      (if (Z.of_nat slot <? rngRegistrySize) then onRng (setSlot slot 0) else ret tt) ;;;
      onRng (setPublished (delete handle))
  end.
End publish.

(** ** The stream *)

Fixpoint xorshiftWords (n : nat) (state : Z) : list byte :=
  match n with O => [] | S n => le64 (xorshiftOut (xorshiftStep state)) ++ xorshiftWords n (xorshiftStep state) end.
(** The first [n] bytes after [state]. *)
Definition rngStream (n state : Z) : list byte := take (Z.to_nat n) (xorshiftWords (Z.to_nat ((n + 7) / 8)) state).

(** The generator never leaves the non-zero words, where it has its period. *)
Lemma lxor_shiftr_nonzero x k : 0 < k -> 0 < x -> Z.lxor x (Z.shiftr x k) <> 0.
Proof.
  intros Hk Hx E%Z.lxor_eq. rewrite Z.shiftr_div_pow2 in E by lia. assert (x / 2 ^ k < x); [|lia]. apply Z.div_lt; [done|].
  change 1 with (2 ^ 0). apply Z.pow_lt_mono_r; lia.
Qed.
Lemma lxor_shiftl_nonzero x k : 0 < k -> 0 < x < 2 ^ 64 -> Z.lxor x (u64 (Z.shiftl x k)) <> 0.
Proof.
  intros Hk Hx E%Z.lxor_eq. unfold u64 in E. rewrite Z.shiftl_mul_pow2 in E by lia.
  assert ((2 ^ 64 | x * (2 ^ k - 1))) as Hd.
  { exists (x * 2 ^ k / 2 ^ 64). pose proof (Z.div_mod (x * 2 ^ k) (2 ^ 64) ltac:(lia)). lia. }
  rewrite Z.mul_comm in Hd. apply Z.gauss in Hd.
  - apply Z.divide_pos_le in Hd; lia.
  - apply Zgcd_1_rel_prime, rel_prime_sym, rel_prime_Zpower_r; [lia|]. apply bezout_rel_prime, (Bezout_intro _ _ _ (-1) (2 ^ (k - 1))).
    replace k with (1 + (k - 1)) at 1 by lia. rewrite Z.pow_add_r by lia. lia.
Qed.
Lemma lxor_below a b n : 0 <= n -> 0 <= a < 2 ^ n -> 0 <= b < 2 ^ n -> 0 <= Z.lxor a b < 2 ^ n.
Proof.
  intros Hn Ha Hb. split; [apply Z.lxor_nonneg; lia|]. destruct (Z.eq_dec (Z.lxor a b) 0) as [->|Hne]; [lia|].
  assert (0 <= Z.lxor a b) by (apply Z.lxor_nonneg; lia). apply Z.log2_lt_pow2; [lia|].
  assert (forall z, 0 <= z < 2 ^ n -> 0 < n -> Z.log2 z < n) as Hlog.
  { intros z Hz Hp. destruct (Z.eq_dec z 0) as [->|]; [done|]. apply Z.log2_lt_pow2; lia. }
  assert (0 < n) as Hp. { destruct (Z.eq_dec n 0) as [->|]; [|lia]. change (2 ^ 0) with 1 in *. assert (a = 0) as -> by lia. assert (b = 0) as -> by lia. done. }
  pose proof (Z.log2_lxor a b). pose proof (Hlog a Ha Hp). pose proof (Hlog b Hb Hp). lia.
Qed.
Lemma shiftr_below a k n : 0 <= n -> 0 <= k -> 0 <= a < 2 ^ n -> 0 <= Z.shiftr a k < 2 ^ n.
Proof. intros Hn Hk Ha. rewrite Z.shiftr_div_pow2 by done. pose proof (Z.pow_pos_nonneg 2 k). split; [apply Z.div_pos; lia|]. apply Z.div_lt_upper_bound; nia. Qed.

Lemma xorshiftStep_nonzero s : 0 < s < 2 ^ 64 -> 0 < xorshiftStep s < 2 ^ 64.
Proof.
  intros Hs. unfold xorshiftStep. pose proof (lxor_shiftr_nonzero s 12 ltac:(lia) ltac:(lia)) as N1.
  pose proof (lxor_below s (Z.shiftr s 12) 64 ltac:(lia) ltac:(lia) ltac:(apply shiftr_below; lia)) as B1. set (a := Z.lxor s _) in *.
  pose proof (lxor_shiftl_nonzero a 25 ltac:(lia) ltac:(lia)) as N2.
  pose proof (lxor_below a (u64 (Z.shiftl a 25)) 64 ltac:(lia) ltac:(lia) ltac:(apply Z.mod_pos_bound; lia)) as B2. set (b := Z.lxor a _) in *.
  pose proof (lxor_shiftr_nonzero b 27 ltac:(lia) ltac:(lia)) as N3.
  pose proof (lxor_below b (Z.shiftr b 27) 64 ltac:(lia) ltac:(lia) ltac:(apply shiftr_below; lia)) as B3. lia.
Qed.

Lemma length_words n s : length (xorshiftWords n s) = (8 * n)%nat.
Proof. revert s. induction n as [|n IH]; intros s; [done|]. cbn [xorshiftWords]. rewrite length_app, IH. cbn. lia. Qed.
Lemma len_rngStream n s : 0 <= n -> len (rngStream n s) = n.
Proof.
  intros Hn. unfold rngStream, len. rewrite length_take, length_words. pose proof (Z.div_mod (n + 7) 8 ltac:(lia)).
  pose proof (Z.mod_pos_bound (n + 7) 8 ltac:(lia)). lia.
Qed.

(** The loop, with [k] words left. *)
Lemma xorshiftLoop_ok k fuel buf n i s m :
  (k < fuel)%nat -> 0 <= i -> 8 * (Z.of_nat k - 1) < n - i <= 8 * Z.of_nat k -> n + 8 <= 2 ^ 64 -> mapped m buf n ->
  exists m', xorshiftLoop fuel buf n i s m = Ok (Nat.iter k xorshiftStep s, m')
    /\ (forall j b, take (Z.to_nat (n - i)) (xorshiftWords k s) !! j = Some b -> m' !! (buf + i + Z.of_nat j) = Some b)
    /\ sameOutside (buf + i) (n - i) m m'.
Proof.
  revert fuel i s m. induction k as [|k IH]; intros [|fuel] i s m Hf Hi Hk Hn Hm; [lia| |lia|]; cbn [xorshiftLoop].
  { rewrite (proj2 (Z.ltb_ge i n)) by lia. exists m. split; [done|]. split; [|done]. intros j b. cbn [xorshiftWords]. by rewrite take_nil. }
  rewrite (proj2 (Z.ltb_lt i n)) by lia. set (s1 := xorshiftStep s). set (limit := if n - i <? 8 then n - i else 8).
  assert (limit = Z.min 8 (n - i)) as Hlim by (unfold limit; destruct (Z.ltb_spec (n - i) 8); lia).
  assert (len (take (Z.to_nat limit) (le64 (xorshiftOut s1))) = limit) as Hlen by (unfold len; rewrite length_take; cbn [length le64]; lia).
  destruct (storeBytes_mapped m (buf + i) (take (Z.to_nat limit) (le64 (xorshiftOut s1)))) as (m1 & -> & Hh & Hs).
  { rewrite Hlen. apply (mapped_sub m buf n); [done|lia|lia]. }
  cbn [out_bind]. rewrite Hlen in Hs. unfold u64. rewrite Z.mod_small by lia.
  destruct (IH fuel (i + 8) s1 m1) as (m2 & -> & Hw & Hs2); [lia|lia|lia|done| |].
  { eapply (mapped_written m m1 (buf + i)); [exact Hh|by rewrite Hlen|done]. }
  exists m2. split; [by rewrite Nat.iter_succ_r|]. split.
  - intros j b. cbn [xorshiftWords]. fold s1. rewrite take_app. intros [Hj|[Hj1 Hj]]%lookup_app_Some.
    + rewrite Hs2 by (apply lookup_lt_Some in Hj; rewrite length_take in Hj; cbn [length le64] in Hj; lia).
      destruct Hh as (_ & _ & Hh). apply Hh. apply lookup_take_Some in Hj as [Hj Hlt]. apply lookup_take_Some. split; [done|].
      apply lookup_lt_Some in Hj. cbn [length le64] in Hj. lia.
    + assert (8 <= n - i) as H8.
      { apply lookup_lt_Some in Hj. rewrite !length_take in Hj. cbn [length le64] in *. lia. }
      rewrite length_take in Hj1, Hj. cbn [length le64] in Hj1, Hj. rewrite (Nat.min_r (Z.to_nat (n - i)) 8) in Hj1, Hj by lia.
      replace (buf + i + Z.of_nat j) with (buf + (i + 8) + Z.of_nat (j - 8)) by lia. apply Hw.
      by replace (Z.to_nat (n - (i + 8))) with (Z.to_nat (n - i) - 8)%nat by lia.
  - intros a Ha. rewrite Hs2, Hs; [done|lia|lia].
Qed.

Lemma readXorshift_ok st m buf n :
  0 <= n -> n + 8 <= 2 ^ 64 -> mapped m buf n ->
  exists m', readXorshiftTamago st m buf n
      = Ok (n, mkRng (rg_registry st) (Nat.iter (Z.to_nat ((n + 7) / 8)) xorshiftStep (rg_xorshift st)) (rg_published st), m')
    /\ holds m' buf (rngStream n (rg_xorshift st)) /\ sameOutside buf n m m'.
Proof.
  intros Hn Hw Hm. unfold readXorshiftTamago. pose proof (Z.div_mod (n + 7) 8 ltac:(lia)). pose proof (Z.mod_pos_bound (n + 7) 8 ltac:(lia)).
  destruct (xorshiftLoop_ok (Z.to_nat ((n + 7) / 8)) (S (Z.to_nat ((n + 7) / 8))) buf n 0 (rg_xorshift st) m)
    as (m' & -> & Hh & Hs); [lia|lia|lia|lia|done|]. cbn [out_bind fst snd]. exists m'. rewrite Z.add_0_r, Z.sub_0_r in *.
  split; [done|]. split; [|done]. destruct Hm as (Hp & Hpn & _). split; [done|]. by rewrite len_rngStream.
Qed.

Lemma iter_nonzero k s : 0 < s < 2 ^ 64 -> 0 < Nat.iter k xorshiftStep s < 2 ^ 64.
Proof. intros Hs. induction k as [|k IH]; [done|]. by apply xorshiftStep_nonzero. Qed.

(** ** The registry *)

(** Every published protocol has a slot, a different one for every handle. *)
Definition ownSlots (registry : list Z) (pub : gmap Z (Z * nat)) : Prop :=
  (forall h p k, pub !! h = Some (p, k) -> p <> 0 /\ registry !! k = Some p)
  /\ (forall h h' p p' k, pub !! h = Some (p, k) -> pub !! h' = Some (p', k) -> h = h').
(** The protocols of the registry are distinct, and the published ones in it. *)
Definition rngWf (st : RngState) : Prop :=
  len (rg_registry st) = rngRegistrySize /\ 0 < rg_xorshift st < 2 ^ 64
  /\ (forall i j p, rg_registry st !! i = Some p -> rg_registry st !! j = Some p -> p <> 0 -> i = j)
  /\ ownSlots (rg_registry st) (rg_published st).

Lemma rngInit_wf : rngWf rngInit.
Proof.
  split; [done|]. split; [done|]. split; [|done]. intros i j p Hi _ Hp.
  apply lookup_replicate in Hi as [-> _]. done.
Qed.

Lemma published_iff st this : published st this = true <-> this <> 0 /\ this ∈ rg_registry st.
Proof.
  unfold published. rewrite existsb_exists. split.
  - intros (p & Hp & [Ht Hz]%andb_true_iff). apply list_elem_of_In in Hp. assert (p = this) as -> by lia. split; [lia|done].
  - intros [Hz Hp]. exists this. apply list_elem_of_In in Hp. split; [done|]. apply andb_true_iff. lia.
Qed.

(** The callback. *)
Definition getRngAnswers (st : RngState) (m : memory) (this n ptr : Z) (r : out (Z * RngState * memory)) : Prop :=
  if published st this then
    exists st' m', r = Ok (rngEFISuccess, st', m') /\ holds m' ptr (rngStream n (rg_xorshift st)) /\ sameOutside ptr n m m'
      /\ rg_registry st' = rg_registry st /\ rg_published st' = rg_published st /\ rngWf st'
  else r = Ok (rngEFINotFound, st, m).

(** Asked through a published protocol, the callback fills exactly the caller's
    buffer with the next bytes of the generator, whose state stays a
    non-zero word, and touches no other byte; through any other protocol
    pointer, one unpublished since included, it changes nothing and says
    EFI_NOT_FOUND. *)
Theorem get_rng_spec st m this alg n ptr :
  rngWf st -> 0 < n -> n + 8 <= 2 ^ 64 -> 0 < ptr -> mapped m ptr n ->
  getRngAnswers st m this n ptr (rngGetRNGGo st m this alg n ptr).
Proof.
  intros (Hlen & Hx & Hd & Hp) Hn Hw Hptr Hm. unfold getRngAnswers, rngGetRNGGo. rewrite !(proj2 (Z.eqb_neq _ 0)) by lia.
  destruct (published st this); cbn [negb]; [|done].
  destruct (readXorshift_ok st m ptr n ltac:(lia) Hw Hm) as (m' & -> & Hh & Hs). cbn [out_bind]. rewrite Z.eqb_refl. cbn [negb].
  eexists _, m'. split; [reflexivity|]. do 2 (split; [done|]). split; [done|]. split; [done|]. split; [done|].
  split; [by apply iter_nonzero|done].
Qed.

Lemma get_rng_spec_witness :
  getRngAnswers (mkRng [0; 5; 0; 0] 1 ∅) (allocAt ∅ 9 (make 11)) 5 11 9
    (rngGetRNGGo (mkRng [0; 5; 0; 0] 1 ∅) (allocAt ∅ 9 (make 11)) 5 0 11 9).
Proof.
  apply (get_rng_spec (mkRng [0; 5; 0; 0] 1 ∅) (allocAt ∅ 9 (make 11)) 5 0 11 9); [|lia|lia|lia|by apply mappedb_ok].
  split; [done|]. split; [done|]. split; [|done]. intros i j p Hi Hj Hp.
  destruct i as [|[|[|[|i]]]], j as [|[|[|[|j]]]]; try done; cbn in *; congruence.
Defined.

(** Setting a slot. *)
Lemma elem_set (l : list Z) k old new this :
  l !! k = Some old -> this ∈ <[k := new]> l <-> this = new \/ exists j, j <> k /\ l !! j = Some this.
Proof.
  intros Hk. rewrite list_elem_of_lookup. pose proof (lookup_lt_Some _ _ _ Hk) as Hlt. split.
  - intros [j Hj]. apply list_lookup_insert_Some in Hj as [(<- & -> & _)|[Hne Hj]]; [by left|]. right. eauto.
  - intros [->|(j & Hne & Hj)]; [exists k; by rewrite list_lookup_insert_eq|]. exists j. by rewrite list_lookup_insert_ne.
Qed.

(** The published protocols after a slot is taken, and after it is freed. *)
Lemma published_take st st' k proto this :
  rg_registry st !! k = Some 0 -> rg_registry st' = <[k := proto]> (rg_registry st) -> proto <> 0 ->
  published st' this = (this =? proto) || published st this.
Proof.
  intros Hk Hr Hp. apply Bool.eq_iff_eq_true. rewrite orb_true_iff, !published_iff, Hr, (elem_set _ k 0), Z.eqb_eq by done. split.
  - intros [Hz [->|(j & _ & Hj)]]; [by left|right]. split; [done|by eapply list_elem_of_lookup_2].
  - intros [->|[Hz [j Hj]%list_elem_of_lookup]]; [by split; [|left]|]. split; [done|]. right. exists j. split; [|done]. intros ->. congruence.
Qed.
Lemma published_free st st' k proto this :
  rngWf st -> rg_registry st !! k = Some proto -> proto <> 0 -> rg_registry st' = <[k := 0]> (rg_registry st) ->
  published st' this = negb (this =? proto) && published st this.
Proof.
  intros (_ & _ & Hd & _) Hk Hp Hr. apply Bool.eq_iff_eq_true. rewrite andb_true_iff, negb_true_iff, !published_iff, Hr, (elem_set _ k proto), Z.eqb_neq by done. split.
  - intros [Hz [->|(j & Hne & Hj)]]; [done|]. split; [|split; [done|by eapply list_elem_of_lookup_2]]. intros ->. by specialize (Hd _ _ _ Hj Hk Hp).
  - intros [Hne [Hz [j Hj]%list_elem_of_lookup]]. split; [done|]. right. exists j. split; [|done]. intros ->. congruence.
Qed.

Section lifecycle.
Context {F : Type} `{Firmware F}.
Abbreviation RngS := (RngState * Machine F)%type.

(** The calls that find the interfaces already installed, and take them off. *)
Definition takesOff (c : bootCall) : Prop :=
  match c with
  | bsLocateHandleBuffer _ guid | bsHandleProtocol _ guid | bsUninstallProtocolInterface _ guid _ => guid = EFIRngProtocolGUID
  | _ => False
  end.

(** Such calls leave the registry alone. *)
Abbreviation tookOff := (calling takesOff).
Hint Extern 1 (takesOff _) => reflexivity : gomove.
Lemma yankFrom_tookOff hs n : moves tookOff (yankFrom hs n).
Proof. revert n. induction hs as [|h hs IH]; intros n; cbn [yankFrom]; go_move. Qed.
Hint Resolve yankFrom_tookOff : gomove.

Definition sameRng (s s' : RngS) : Prop := fst s' = fst s /\ tookOff (snd s) (snd s').
#[local] Instance sameRng_preorder : PreOrder sameRng.
Proof. split; [by intros s; split|]. unfold sameRng. intros a b c [-> ?] [-> ?]. split; [done|by etransitivity]. Qed.
Lemma onFw_same {A} (m : M (Machine F) A) : moves tookOff m -> moves sameRng (onFw m).
Proof. intros Hm s. unfold onFw, zoom. specialize (Hm (snd s)). by destruct (m (snd s)). Qed.
Hint Extern 2 (moves sameRng (onFw _)) => (apply onFw_same; go_move) : gomove.

(** How a first call may end. *)
Lemma bind_ends {A B} (P : out B * RngS -> Prop) (m : M RngS A) (k : A -> M RngS B) s :
  moves sameRng m ->
  (forall s', sameRng s s' -> forall r, (forall b, r <> Ok b) -> P (r, s')) ->
  (forall a s', sameRng s s' -> P (k a s')) -> P (bind m k s).
Proof.
  intros Hm Hbad Hk. unfold bind. specialize (Hm s).
  destruct (m s) as [[a|e|] s']; [by apply Hk|by apply Hbad|by apply Hbad].
Qed.

(** What publishing at [protocol] may do, [inst] being its one call that installs. *)
Definition publishOutcome (s : RngS) (protocol getRNGPC getInfoPC : Z) (r : out Z * RngS) : Prop :=
  let st := fst s in let st' := fst (snd r) in
  exists off inst, mc_calls (snd (snd r)) = mc_calls (snd s) ++ off ++ inst /\ Forall (fun e => takesOff (fst (fst e))) off /\ rngWf st' /\
  match fst r with
  | Ok h => exists slot m a, inst = [(bsInstallProtocolInterface 0 EFIRngProtocolGUID efiNativeInterface protocol, m, a)] /\
      ba_status a = efiSuccess /\ h = ba_out a /\ holds m protocol (le64 getInfoPC ++ le64 getRNGPC) /\
      rg_registry st !! slot = Some 0 /\
      st' = mkRng (<[slot := protocol]> (rg_registry st)) (rg_xorshift st) (<[h := (protocol, slot)]> (rg_published st)) /\
      forall this, published st' this = (this =? protocol) || published st this
  | _ => st' = st /\
      (inst = [] \/ exists m a, inst = [(bsInstallProtocolInterface 0 EFIRngProtocolGUID efiNativeInterface protocol, m, a)] /\ ba_status a <> efiSuccess)
  end.
Definition unpublishOutcome (s : RngS) (handle : Z) (r : out unit * RngS) : Prop :=
  let st := fst s in let st' := fst (snd r) in
  exists new, mc_calls (snd (snd r)) = mc_calls (snd s) ++ new /\
  match fst r with
  | Ok _ => rngWf st' /\ exists protocol slot m a, rg_published st !! handle = Some (protocol, slot) /\
      new = [(bsUninstallProtocolInterface handle EFIRngProtocolGUID protocol, m, a)] /\ ba_status a = efiSuccess /\
      st' = mkRng (<[slot := 0]> (rg_registry st)) (rg_xorshift st) (delete handle (rg_published st)) /\
      forall this, published st' this = negb (this =? protocol) && published st this
  | _ => st' = st /\ (new = [] \/ exists protocol m a, new = [(bsUninstallProtocolInterface handle EFIRngProtocolGUID protocol, m, a)] /\ ba_status a <> efiSuccess)
  end.

Lemma freeSlot_some l k : freeSlot l = Some k -> l !! k = Some 0.
Proof. unfold freeSlot. intros ([j x] & (Hk & -> & _)%list_find_Some & ->)%fmap_Some. done. Qed.

(** Taking a slot for a new protocol. *)
Lemma wf_take st k proto published' :
  rngWf st -> rg_registry st !! k = Some 0 -> proto <> 0 -> published st proto = false ->
  ownSlots (<[k := proto]> (rg_registry st)) published' ->
  rngWf (mkRng (<[k := proto]> (rg_registry st)) (rg_xorshift st) published').
Proof.
  intros (Hl & Hx & Hd & _) Hk Hp Hnew Hpub. split; [by unfold len; cbn [rg_registry]; rewrite length_insert|]. split; [done|]. split; [|done].
  assert (forall i, rg_registry st !! i = Some proto -> False) as Hno.
  { intros i Hi. apply not_true_iff_false in Hnew. apply Hnew, published_iff. split; [done|by eapply list_elem_of_lookup_2]. }
  intros i j p Hi Hj Hpz. cbn in Hi, Hj. apply list_lookup_insert_Some in Hi as [(<- & -> & _)|[Hik Hi]], Hj as [(<- & Hpe & _)|[Hjk Hj]];
    [done|by destruct (Hno _ Hj)|subst p; by destruct (Hno _ Hi)|by eapply Hd].
Qed.

(** The new handle's slot was nobody's. *)
Lemma own_take registry pub k handle proto :
  ownSlots registry pub -> registry !! k = Some 0 -> proto <> 0 ->
  ownSlots (<[k := proto]> registry) (<[handle := (proto, k)]> pub).
Proof.
  intros [Hp Hi] Hk Hz. assert (forall h p, pub !! h = Some (p, k) -> False) as Hfree by (intros h p Hh; destruct (Hp h p k Hh); congruence).
  split.
  - intros h p j Hh. apply lookup_insert_Some in Hh as [[<- [= <- <-]]|[_ Hh]].
    + split; [done|]. apply list_lookup_insert_eq. by eapply lookup_lt_Some.
    + destruct (Hp h p j Hh) as [Hpz Hj]. split; [done|]. rewrite list_lookup_insert_ne; [done|]. intros ->. congruence.
  - intros h h' p p' j Hh Hh'. apply lookup_insert_Some in Hh as [[<- [= <- <-]]|[_ Hh]], Hh' as [[<- E1]|[_ Hh']];
      [done|by destruct (Hfree h' p')|injection E1 as -> ->; by destruct (Hfree h p)|by eapply Hi].
Qed.
Lemma own_free registry pub k handle proto :
  ownSlots registry pub -> pub !! handle = Some (proto, k) -> ownSlots (<[k := 0]> registry) (delete handle pub).
Proof.
  intros [Hp Hi] Hk. split.
  - intros h p j Hh. apply lookup_delete_Some in Hh as [Hne Hh]. destruct (Hp h p j Hh) as [Hpz Hj]. split; [done|].
    rewrite list_lookup_insert_ne; [done|]. intros ->. by destruct (Hne (Hi _ _ _ _ _ Hk Hh)).
  - intros h h' p p' j [_ Hh]%lookup_delete_Some [_ Hh']%lookup_delete_Some. by eapply Hi.
Qed.

Lemma publish_outcome protocol getRNGPC getInfoPC (s : RngS) :
  rngWf (fst s) -> 0 < protocol -> protocol + 16 <= 2 ^ 64 -> published (fst s) protocol = false ->
  publishOutcome s protocol getRNGPC getInfoPC (PublishRNG protocol getRNGPC getInfoPC s).
Proof.
  intros Hw Hp Hp64 Hnew. set (st := fst s) in *. unfold PublishRNG.
  assert (forall s', sameRng s s' -> forall r : out Z, (forall b, r <> Ok b) -> publishOutcome s protocol getRNGPC getInfoPC (r, s')) as Hsame.
  { intros s' (Hs & new & Hc & Hf) r Hr. exists new, []. cbn [fst snd]. rewrite Hs, app_nil_r. do 3 (split; [done|]).
    destruct r; [by destruct (Hr a)|by split; [|left]..]. }
  apply bind_ends; [auto with gomove|done|]. intros _ s1 E1.
  apply bind_ends; [go_move|intros; apply Hsame; [by etransitivity|done]|]. intros handles s2 E2'. assert (sameRng s s2) as E2 by by etransitivity.
  apply bind_ends; [go_move|intros; apply Hsame; [by etransitivity|done]|]. intros _ s3 E3'. assert (sameRng s s3) as E3 by by etransitivity. clear s1 s2 E1 E2 E2' E3'.
  destruct s3 as [st3 mc], E3 as (Hst & new & Hc & Hf). cbn [fst snd] in Hst, Hc. subst st3. fold st.
  unfold bind at 1, onFw at 1, zoom at 1, modify. cbn [fst snd]. set (mem := allocAt _ _ _).
  unfold bind, onRng, zoom at 1, gets. cbn [fst snd]. destruct (freeSlot (rg_registry st)) as [k|] eqn:Ek.
  2: { apply (Hsame (st, withMem mem mc)); [|done]. split; [done|]. by exists new. }
  apply freeSlot_some in Ek. unfold onRng, onFw, zoom, setSlot, modify, efiCall. cbn [fst snd].
  destruct (fwStep _ _ _) as [[a m] f]. cbn [fst snd]. exists new. cbn [withMem mc_mem mc_calls mc_fw mc_bs mc_image].
  destruct (Z.eqb_spec (ba_status a) efiSuccess) as [Ea|Ea]; cbn [negb fst snd throw mc_calls setPublished modify ret].
  - (* installed *)
    eexists [_]. rewrite Hc, app_assoc. split; [reflexivity|]. split; [done|]. split.
    + apply (wf_take st k protocol (<[ba_out a := (protocol, k)]> (rg_published st))); try done; [lia|]. apply own_take; [by destruct Hw as (_ & _ & _ & Ho)|done|lia].
    + exists k, mem, a. do 3 (split; [done|]). split; [apply allocAt_holds; [lia|rewrite len_app, !len_le64; lia]|]. split; [done|]. split; [done|].
      intros this. apply (published_take st _ k); (done || lia).
  - (* refused: the slot is free again *)
    assert (<[k := 0]> (<[k := protocol]> (rg_registry st)) = rg_registry st) as Hback by (rewrite list_insert_insert_eq; by apply list_insert_id).
    eexists [_]. rewrite Hc, app_assoc. split; [reflexivity|]. split; [done|]. cbn [rg_registry rg_xorshift rg_published]. rewrite Hback.
    assert (mkRng (rg_registry st) (rg_xorshift st) (rg_published st) = st) as -> by by destruct st.
    split; [done|]. split; [done|]. right. by exists mem, a.
Qed.

Lemma unpublish_outcome handle (s : RngS) :
  rngWf (fst s) -> unpublishOutcome s handle (UnpublishRNG handle s).
Proof.
  intros Hw. pose proof Hw as (Hl & Hx & Hd & Hown). unfold UnpublishRNG.
  assert (forall r : out unit, (forall b, r <> Ok b) -> unpublishOutcome s handle (r, s)) as Hsame.
  { intros r Hr. exists []. cbn [fst snd]. rewrite app_nil_r. split; [done|]. destruct r; [by destruct (Hr a)|by split; [|left]..]. }
  destruct (handle =? 0); [by apply Hsame|]. set (st := fst s) in *.
  unfold bind at 1, onRng at 1, zoom at 1, gets. cbn [fst snd]. fold st.
  replace (st, snd s) with s by (by destruct s). destruct (rg_published st !! handle) as [[proto k]|] eqn:Eh; [|by apply Hsame].
  destruct (proj1 Hown handle proto k Eh) as [Hz Hk].
  unfold bind at 1, onFw at 1, zoom at 1, needBootServices, gets. unfold bind at 1. replace (fst s, snd s) with s by (by destruct s).
  destruct (mc_bs (snd s) =? 0); [destruct s; by apply Hsame|]. cbn [ret].
  replace (fst s, snd s) with s by (by destruct s). unfold bind at 1, onFw at 1, zoom at 1, efiCall. cbn [fst snd].
  destruct (fwStep _ _ _) as [[a m] f]. cbn [fst snd]. unfold bind at 1, onFw at 1, zoom at 1, success. cbn [fst snd].
  destruct (Z.eqb_spec (ba_status a) efiSuccess) as [Ea|Ea]; cbn [negb].
  2: { eexists [_]. cbn [fst snd throw mc_calls]. split; [reflexivity|]. split; [done|]. right. eauto. }
  cbn [ret]. pose proof (lookup_lt_Some _ _ _ Hk) as Hlt. rewrite (proj2 (Z.ltb_lt _ _)) by (unfold len in Hl; lia).
  unfold onRng, setSlot, setPublished, bind, zoom, modify. cbn [fst snd rg_registry rg_xorshift rg_published mc_calls]. fold st.
  eexists [_]. split; [reflexivity|]. split.
  - split; [unfold len; cbn; by rewrite length_insert|]. split; [done|]. split; cbn [rg_registry rg_published].
    + intros i j p Hi Hj Hpz. apply list_lookup_insert_Some in Hi as [(<- & <- & _)|[Hik Hi]]; [done|].
      apply list_lookup_insert_Some in Hj as [(<- & <- & _)|[Hjk Hj]]; [done|]. by eapply Hd.
    + by apply own_free with (proto := proto).
  - exists proto, k, (mc_mem (snd s)), a. do 4 (split; [done|]). intros this. by eapply (published_free st _ k).
Qed.

End lifecycle.

(** A firmware that grants what it is asked. *)
#[local] Instance agreeable : Firmware unit := { fwStep _ m f := (mkBootAnswer efiSuccess 77 0, m, f) }.
Definition agreeableMachine : RngState * Machine unit := (rngInit, mkMachine tt ∅ 1 1 []).

