(* ===== verification/BlockIO.v ===== *)
(** * The published block device

    uefiboard: block_io_publish.go (the registry), block_io_publish_handlers.go
    (the four callbacks firmware makes) and PublishBlockIO / UnpublishBlockIO of
    block_io_publish_tamago.go.  The firmware's answers to the install calls and
    the addresses of Go allocations are arguments. *)

From S2P Require Import Prelude LittleEndian Memory.

Definition BlockIOLogicalBlockSize : Z := 512.
Definition blockIOPublishRegistrySize : nat := 4.

Definition blockIOEFISuccess : Z := 0.
Definition blockIOEFIInvalidParameter : Z := 0x8000000000000002.
Definition blockIOEFINotFound : Z := 0x800000000000000E.
Definition blockIOEFIWriteProtected : Z := 0x8000000000000008.
Definition blockIOEFIBadBufferSize : Z := 0x8000000000000005.

Record EFIBlockIOMedia := mkMedia {
  MediaId : Z; MediaPresent : Z; LogicalPartition : Z; ReadOnly : Z; BlockSize : Z; LastBlock : Z
}.

(** A slot is live when [be_proto] is not zero. *)
Record blockIOPublishEntry := mkEntry {
  be_proto : Z;
  be_media : Z;
  be_body : Z;
  be_size : Z
}.
Definition emptyEntry : blockIOPublishEntry := mkEntry 0 0 0 0.

Record blockIOPublishState := mkPublished { bp_proto : Z; bp_media : EFIBlockIOMedia; bp_slot : nat }.

(** blockIOPublishRegistry and publishedBlockIOs. *)
Record blockIOState := mkBlockIO {
  bio_registry : list blockIOPublishEntry;
  bio_published : gmap Z blockIOPublishState
}.
Definition blockIOInit : blockIOState := mkBlockIO (replicate blockIOPublishRegistrySize emptyEntry) ∅.

(** ** Callbacks *)

Fixpoint blockIOLookup (reg : list blockIOPublishEntry) (this : Z) : option blockIOPublishEntry :=
  match reg with
  | [] => None
  | e :: r => if (be_proto e =? this) && negb (be_proto e =? 0) then Some e else blockIOLookup r this
  end.

Definition blockIOResetGo (reg : list blockIOPublishEntry) (this extended : Z) : Z :=
  match blockIOLookup reg this with None => blockIOEFINotFound | Some _ => blockIOEFISuccess end.

(** The transfer loop, [n] bytes left from index [i]. *)
Fixpoint copyBlocks (m : memory) (dst src : Z) (n : nat) (i : Z) : out memory :=
  match n with
  | O => Ok m
  | S n =>
      let* b := load m (u64 (src + i)) in
      let* m := store m (u64 (dst + i)) b in
      copyBlocks m dst src n (i + 1)
  end.

(** The status and the memory; the arguments are 64-bit words. *)
Definition blockIOReadBlocksGo (reg : list blockIOPublishEntry) (m : memory) (this mediaID lba bufferSize buffer : Z) : out (Z * memory) :=
  match blockIOLookup reg this with
  | None => Ok (blockIOEFINotFound, m)
  | Some ent =>
      if bufferSize =? 0 then Ok (blockIOEFISuccess, m)
      else if negb (bufferSize mod BlockIOLogicalBlockSize =? 0) then Ok (blockIOEFIBadBufferSize, m)
      else if buffer =? 0 then Ok (blockIOEFIInvalidParameter, m)
      else
        let off := u64 (lba * BlockIOLogicalBlockSize) in
        if be_size ent <? off then Ok (blockIOEFIInvalidParameter, m)
        else
          let end_ := u64 (off + bufferSize) in
          if (be_size ent <? end_) || (end_ <? off) then Ok (blockIOEFIInvalidParameter, m)
          else
            let* m := copyBlocks m buffer (be_body ent + off) (Z.to_nat bufferSize) 0 in
            Ok (blockIOEFISuccess, m)
  end.

Definition blockIOWriteBlocksGo (reg : list blockIOPublishEntry) (this mediaID lba bufferSize buffer : Z) : Z :=
  match blockIOLookup reg this with None => blockIOEFINotFound | Some _ => blockIOEFIWriteProtected end.

Definition blockIOFlushBlocksGo (reg : list blockIOPublishEntry) (this : Z) : Z :=
  match blockIOLookup reg this with None => blockIOEFINotFound | Some _ => blockIOEFISuccess end.

(** ** Publishing *)

Definition mediaFor (size : Z) : EFIBlockIOMedia := mkMedia 1 1 0 1 BlockIOLogicalBlockSize (u64 (size / BlockIOLogicalBlockSize - 1)).

(** The first free slot. *)
Fixpoint freeSlot (reg : list blockIOPublishEntry) : option nat :=
  match reg with
  | [] => None
  | e :: r => if be_proto e =? 0 then Some O else option_map S (freeSlot r)
  end.

(** Up to the firmware call: the slot taken, before the firmware can call back.
    [bs] is the boot-services pointer; [proto], [media], [body] the addresses of
    the two structs and of the image. *)
Definition reserveBlockIO (bs proto media body : Z) (image : list byte) (s : blockIOState) : out nat * blockIOState :=
  if len image =? 0 then (Err ErrEmptyBlockImage, s)
  else if negb (len image mod BlockIOLogicalBlockSize =? 0) then (Err ErrBlockIOImageNotAligned, s)
  else if bs =? 0 then (Err ErrNoBootServices, s)
  else
    match freeSlot (bio_registry s) with
    | None => (Err ErrBlockIORegistryFull, s)
    | Some slot => (Ok slot, mkBlockIO (<[slot := mkEntry proto media body (len image)]> (bio_registry s)) (bio_published s))
    end.
(** From the firmware's answer on. *)
Definition installedBlockIO (proto : Z) (image : list byte) (slot : nat) (status handle : Z) (s : blockIOState) : out Z * blockIOState :=
  if negb (status =? 0) then (Err (ErrEFI status), mkBlockIO (<[slot := emptyEntry]> (bio_registry s)) (bio_published s))
  else (Ok handle, mkBlockIO (bio_registry s) (<[handle := mkPublished proto (mediaFor (len image)) slot]> (bio_published s))).
(** [status], [handle]: the firmware's answer. *)
Definition PublishBlockIO (bs proto media body status handle : Z) (image : list byte) (s : blockIOState) : out Z * blockIOState :=
  match reserveBlockIO bs proto media body image s with
  | (Ok slot, s) => installedBlockIO proto image slot status handle s
  | (Err e, s) => (Err e, s)
  | (Panic, s) => (Panic, s)
  end.

Definition UnpublishBlockIO (bs status handle : Z) (s : blockIOState) : out unit * blockIOState :=
  if handle =? 0 then (Err ErrBlockIONotPublished, s)
  else
    match bio_published s !! handle with
    | None => (Err ErrBlockIONotPublished, s)
    | Some st =>
        if bs =? 0 then (Err ErrNoBootServices, s)
        else if negb (status =? 0) then (Err (ErrEFI status), s)
        else (Ok tt, mkBlockIO
                (if Nat.ltb (bp_slot st) blockIOPublishRegistrySize then <[bp_slot st := emptyEntry]> (bio_registry s) else bio_registry s)
                (delete handle (bio_published s)))
    end.

(** ** The registry *)

(** Four slots, live protocols distinct, and every published handle owns a slot
    of its own. *)
Definition bioInv (s : blockIOState) : Prop :=
  length (bio_registry s) = blockIOPublishRegistrySize /\
  (forall i j e f, bio_registry s !! i = Some e -> bio_registry s !! j = Some f ->
     be_proto e = be_proto f -> be_proto e <> 0 -> i = j) /\
  (forall h st, bio_published s !! h = Some st ->
     bp_proto st <> 0 /\ exists e, bio_registry s !! bp_slot st = Some e /\ be_proto e = bp_proto st).

Lemma blockIOLookup_spec reg this i e :
  reg !! i = Some e -> be_proto e = this -> this <> 0 ->
  (forall j f, reg !! j = Some f -> be_proto f = this -> j = i) -> blockIOLookup reg this = Some e.
Proof.
  revert i. induction reg as [|x reg IH]; intros i Hi He Ht Hu; [done|]. cbn. destruct (Z.eqb_spec (be_proto x) this) as [Ex|Ex].
  - rewrite (proj2 (Z.eqb_neq _ _)) by congruence. cbn. assert (0%nat = i) as <- by (eapply Hu; [reflexivity|done]). by injection Hi as ->.
  - cbn. destruct i as [|i]; [by injection Hi as ->|]. eapply IH; eauto. intros j f Hj Hf. specialize (Hu (S j) f Hj Hf). lia.
Qed.

Lemma blockIOLookup_none reg this : (forall i e, reg !! i = Some e -> be_proto e = this -> False) -> blockIOLookup reg this = None.
Proof.
  induction reg as [|x reg IH]; intros Hn; [done|]. cbn. destruct (Z.eqb_spec (be_proto x) this) as [E|E].
  - by destruct (Hn 0%nat x eq_refl E).
  - cbn. apply IH. intros i e Hi He. by apply (Hn (S i) e).
Qed.

Lemma freeSlot_spec reg slot : freeSlot reg = Some slot -> exists e, reg !! slot = Some e /\ be_proto e = 0.
Proof.
  revert slot. induction reg as [|x reg IH]; intros slot; cbn; [done|]. destruct (Z.eqb_spec (be_proto x) 0).
  - intros [= <-]. by exists x.
  - destruct (freeSlot reg) as [k|]; [|done]. cbn. intros [= <-]. cbn. by apply IH.
Qed.

Lemma insert_lookup_cases {A} (l : list A) i x j y : <[i := x]> l !! j = Some y -> (j = i /\ y = x) \/ (j <> i /\ l !! j = Some y).
Proof.
  intros H. destruct (decide (j = i)) as [->|Hne].
  - left. split; [done|]. assert (i < length l)%nat as Hi by (apply lookup_lt_Some in H; by rewrite length_insert in H).
    rewrite list_lookup_insert_eq in H by done. by injection H.
  - right. by rewrite list_lookup_insert_ne in H.
Qed.

(** Publishing and unpublishing, as the program and the firmware may interleave
    them: fresh allocations have addresses of their own, and a successful
    install returns a handle not in use. *)
Inductive bioReach : blockIOState -> Prop :=
| bio_init : bioReach blockIOInit
| bio_publish s bs proto media body status handle image :
    bioReach s -> proto <> 0 -> (forall i e, bio_registry s !! i = Some e -> be_proto e <> proto) ->
    bio_published s !! handle = None ->
    bioReach (snd (PublishBlockIO bs proto media body status handle image s))
| bio_unpublish s bs status handle : bioReach s -> bioReach (snd (UnpublishBlockIO bs status handle s)).

Definition slotsDistinct (s : blockIOState) : Prop :=
  forall h1 h2 a b, bio_published s !! h1 = Some a -> bio_published s !! h2 = Some b -> bp_slot a = bp_slot b -> h1 = h2.

Lemma insert_live_unique (reg : list blockIOPublishEntry) slot x :
  (forall i j e f, reg !! i = Some e -> reg !! j = Some f -> be_proto e = be_proto f -> be_proto e <> 0 -> i = j) ->
  (be_proto x = 0 \/ forall i e, reg !! i = Some e -> be_proto e <> be_proto x) ->
  forall i j e f, <[slot := x]> reg !! i = Some e -> <[slot := x]> reg !! j = Some f -> be_proto e = be_proto f -> be_proto e <> 0 -> i = j.
Proof.
  intros Hu Hx i j e f Hi Hj Heq Hne. apply insert_lookup_cases in Hi as [[-> ->]|[Hi Hi']], Hj as [[-> ->]|[Hj Hj']]; [done| | |eauto].
  - destruct Hx as [?|Hx]; [done|]. by destruct (Hx _ _ Hj').
  - destruct Hx as [Hx|Hx]; [congruence|]. by destruct (Hx _ _ Hi').
Qed.

Lemma Publish_inv bs proto media body status handle image s :
  bioInv s -> slotsDistinct s -> proto <> 0 -> (forall i e, bio_registry s !! i = Some e -> be_proto e <> proto) ->
  bio_published s !! handle = None ->
  bioInv (snd (PublishBlockIO bs proto media body status handle image s)) /\
  slotsDistinct (snd (PublishBlockIO bs proto media body status handle image s)).
Proof.
  intros (Hlen & Hu & Hp) Hd Hne Hfresh Hh. unfold PublishBlockIO, reserveBlockIO, installedBlockIO.
  do 3 (destruct (_ : bool); [done|]). destruct (freeSlot _) as [slot|] eqn:Ef; [|done].
  apply freeSlot_spec in Ef as (e0 & Es & Ez). set (x := mkEntry proto media body (len image)).
  assert (forall h st, bio_published s !! h = Some st -> bp_slot st <> slot) as Hother.
  { intros h st Hst E. destruct (Hp h st Hst) as (Hz & e & He & Hpe). rewrite E, Es in He. congruence. }
  destruct (negb _); cbn [snd bio_registry bio_published].
  - rewrite list_insert_insert_eq. split; [|done]. split; [cbn; by rewrite ?length_insert|]. split; [apply insert_live_unique; [done|by left]|].
    intros h st Hst. destruct (Hp h st Hst) as (Hz & e & He & Hpe). split; [done|]. exists e. split; [|done].
    cbn. rewrite list_lookup_insert_ne; [done|]. intros E. by apply (Hother h st Hst).
  - split; [split; [cbn; by rewrite ?length_insert|]; split|].
    + apply insert_live_unique; [done|by right].
    + cbn. intros h st. rewrite lookup_insert_Some. intros [[<- <-]|[_ Hst]]; cbn.
      * split; [done|]. exists x. split; [|done]. apply list_lookup_insert_eq. by eapply lookup_lt_Some.
      * destruct (Hp h st Hst) as (Hz & e & He & Hpe). split; [done|]. exists e. split; [|done].
        rewrite list_lookup_insert_ne; [done|]. intros E. by apply (Hother h st Hst).
    + intros h1 h2 a b. cbn. rewrite !lookup_insert_Some. intros [[<- <-]|[_ Ha]] [[<- <-]|[_ Hb]]; cbn; [done| | |by eapply Hd].
      * intros E. by destruct (Hother h2 b Hb).
      * intros E. by destruct (Hother h1 a Ha).
Qed.

Lemma Unpublish_inv bs status handle s :
  bioInv s -> slotsDistinct s ->
  bioInv (snd (UnpublishBlockIO bs status handle s)) /\ slotsDistinct (snd (UnpublishBlockIO bs status handle s)).
Proof.
  intros (Hlen & Hu & Hp) Hd. unfold UnpublishBlockIO. destruct (handle =? 0); [done|].
  destruct (bio_published s !! handle) as [st|] eqn:Eh; [|done]. do 2 (destruct (_ : bool); [done|]). cbn [snd].
  destruct (Hp handle st Eh) as (_ & e & He & _). rewrite (proj2 (Nat.ltb_lt _ _)); [|rewrite <- Hlen; by eapply lookup_lt_Some].
  split; [split; [cbn; by rewrite ?length_insert|]; split|].
  - apply insert_live_unique; [done|by left].
  - cbn. intros h st' Hst. apply lookup_delete_Some in Hst as [Hne Hst]. destruct (Hp h st' Hst) as (Hz & e' & He' & Hpe).
    split; [done|]. exists e'. split; [|done]. rewrite list_lookup_insert_ne; [done|]. intros E. apply Hne. by eapply Hd.
  - intros h1 h2 a b. cbn. rewrite !lookup_delete_Some. intros [_ ?] [_ ?]. by eapply Hd.
Qed.

Lemma bioReach_inv s : bioReach s -> bioInv s /\ slotsDistinct s.
Proof.
  induction 1 as [|s bs proto media body status handle image _ [IH1 IH2] ? ? ?|s bs status handle _ [IH1 IH2]].
  - split; [|intros h1 h2 a b Ha; cbn in Ha; by rewrite lookup_empty in Ha]. split; [done|]. split.
    + intros i j e f Hi _ _ Hz. cbn [bio_registry blockIOInit] in Hi. apply lookup_replicate in Hi as [-> _]. done.
    + intros h st Hs. cbn in Hs. by rewrite lookup_empty in Hs.
  - by apply Publish_inv.
  - by apply Unpublish_inv.
Qed.

(** ** Reads *)

Lemma copyBlocks_store m dst src bs i :
  holds m (src + i) bs -> mapped m (dst + i) (len bs) ->
  dst + i + len bs <= src + i \/ src + i + len bs <= dst + i ->
  copyBlocks m dst src (length bs) i = storeBytes m (dst + i) bs.
Proof.
  revert m i. induction bs as [|b bs IH]; intros m i Hs Hd Ho; [done|]. rewrite len_cons in *. pose proof (len_nonneg bs).
  apply holds_cons in Hs as (Hp & Hb & Hs). apply mapped_cons in Hd as (Hq & [c Hc] & Hd); [|lia].
  cbn [length copyBlocks storeBytes]. unfold load, u64. rewrite (Z.mod_small (src + i)), Hb by done. cbn [out_bind].
  unfold store. rewrite Z.mod_small, Hc by done. cbn [out_bind]. replace (dst + i + 1) with (dst + (i + 1)) by lia. apply IH.
  - rewrite Z.add_assoc. eapply (holds_outside (dst + i) 1); [|lia|done]. intros a Ha. apply lookup_insert_ne. lia.
  - rewrite Z.add_assoc. apply mapped_insert. by replace (1 + len bs - 1) with (len bs) in Hd by lia.
  - lia.
Qed.

#[local] Ltac refused := eexists; split; [reflexivity|discriminate].

(** A read of a published image: whole blocks inside it are copied to the
    caller's buffer, and to nothing else; anything else is refused and changes
    nothing. *)
Lemma blockIORead_spec reg m this mediaID ent image lba bufferSize buffer :
  blockIOLookup reg this = Some ent -> be_size ent = len image -> holds m (be_body ent) image ->
  0 <= lba -> lba * 512 < 2 ^ 64 -> 0 < bufferSize < 2 ^ 64 -> buffer <> 0 -> mapped m buffer bufferSize ->
  buffer + bufferSize <= be_body ent \/ be_body ent + len image <= buffer ->
  if decide (bufferSize mod 512 = 0 /\ lba * 512 + bufferSize <= len image) then
    exists m', blockIOReadBlocksGo reg m this mediaID lba bufferSize buffer = Ok (blockIOEFISuccess, m') /\
      holds m' buffer (take (Z.to_nat bufferSize) (drop (Z.to_nat (lba * 512)) image)) /\ sameOutside buffer bufferSize m m'
  else exists status, blockIOReadBlocksGo reg m this mediaID lba bufferSize buffer = Ok (status, m) /\ status <> blockIOEFISuccess.
Proof.
  intros Hl Hsz Hh Hlba Hover Hbs Hb Hm Hdis. unfold blockIOReadBlocksGo. rewrite Hl, Hsz. change BlockIOLogicalBlockSize with 512.
  assert (len image < 2 ^ 64 \/ be_body ent = 0) as Hil by (destruct Hh as (? & ? & _); lia).
  assert (len image <= 2 ^ 64) by (destruct Hh as (? & ? & _); lia).
  rewrite (proj2 (Z.eqb_neq bufferSize 0)) by lia.
  destruct (Z.eqb_spec (bufferSize mod 512) 0) as [Ea|Ea]; cbn [negb]; [|rewrite decide_False by tauto; refused].
  rewrite (proj2 (Z.eqb_neq buffer 0)) by done. cbv zeta.
  assert (u64 (lba * 512) = lba * 512) as -> by (apply Z.mod_small; lia). unfold u64.
  destruct (Z.ltb_spec (len image) (lba * 512)); [rewrite decide_False by lia; refused|].
  destruct (decide (lba * 512 + bufferSize <= len image)) as [Hin|Hin].
  - rewrite decide_True by done.
    assert (lba * 512 + bufferSize < 2 ^ 64 \/ lba * 512 + bufferSize = 2 ^ 64) as [Hlt|Heq] by lia.
    + rewrite Z.mod_small by lia. rewrite (proj2 (Z.ltb_ge _ _)), (proj2 (Z.ltb_ge _ _)) by lia. cbn [orb].
      set (bs := take _ _). assert (len bs = bufferSize) as Hlen by (unfold bs, len in *; rewrite length_take, length_drop; lia).
      replace (Z.to_nat bufferSize) with (length bs) by (unfold len in Hlen; lia).
      assert (holds m (be_body ent + lba * 512) bs) as Hsrc.
      { rewrite <- (take_drop (Z.to_nat (lba * 512)) image), <- (take_drop (Z.to_nat bufferSize) (drop _ image)), !holds_app in Hh.
        destruct Hh as (_ & Hh & _). rewrite len_take in Hh. rewrite Z.min_l in Hh by lia. by rewrite Z2Nat.id in Hh by lia. }
      rewrite copyBlocks_store; rewrite ?Z.add_0_r, ?Hlen; [|done|done|lia].
      destruct (storeBytes_mapped m buffer bs) as (m' & -> & Hh' & Hs'); [by rewrite Hlen|]. rewrite Hlen in Hs'. by exists m'.
    + (* a buffer this large would not leave room for the image *)
      destruct Hm as (? & ? & _). assert (lba * 512 = 0 \/ 0 < lba * 512) by lia. exfalso. destruct Hh as (? & ? & _). lia.
  - rewrite decide_False by tauto. set (e := _ mod _).
    assert (len image < e \/ e < lba * 512) as He.
    { unfold e. destruct (Z.lt_ge_cases (lba * 512 + bufferSize) (2 ^ 64)); [rewrite Z.mod_small by lia; lia|].
      right. rewrite <- (Z.mod_add _ (-1)), Z.mod_small by lia. lia. }
    assert ((len image <? e) || (e <? lba * 512) = true) as -> by lia. refused.
Qed.

Lemma Publish_lookup bs proto media body status handle image s h s' :
  bioInv s -> proto <> 0 -> (forall i e, bio_registry s !! i = Some e -> be_proto e <> proto) ->
  PublishBlockIO bs proto media body status handle image s = (Ok h, s') ->
  h = handle /\ len image mod 512 = 0 /\ 0 < len image /\
  blockIOLookup (bio_registry s') proto = Some (mkEntry proto media body (len image)) /\
  exists st, bio_published s' !! handle = Some st /\ bp_proto st = proto /\ bp_media st = mediaFor (len image).
Proof.
  intros Hi Hne Hfresh. unfold PublishBlockIO, reserveBlockIO, installedBlockIO. destruct (Z.eqb_spec (len image) 0); [done|].
  destruct (Z.eqb_spec (len image mod BlockIOLogicalBlockSize) 0) as [Ea|]; cbn [negb]; [|done]. destruct (bs =? 0); [done|].
  destruct (freeSlot _) as [slot|] eqn:Ef; [|done]. destruct (negb _); [done|]. intros [= <- <-]. cbn [bio_registry bio_published].
  apply freeSlot_spec in Ef as (e0 & Es & Ez). split; [done|]. split; [done|]. split; [pose_lens; lia|]. split.
  - eapply (blockIOLookup_spec _ proto slot); [apply list_lookup_insert_eq; by eapply lookup_lt_Some|done|done|].
    intros j f Hj Hf. apply insert_lookup_cases in Hj as [[-> _]|[_ Hj]]; [done|]. by destruct (Hfresh _ _ Hj).
  - rewrite lookup_insert_eq. by eexists.
Qed.

(** An unpublished protocol is found no more. *)
Lemma Unpublish_lookup bs status handle s st s2 :
  bioInv s -> bio_published s !! handle = Some st -> UnpublishBlockIO bs status handle s = (Ok tt, s2) ->
  bio_published s2 !! handle = None /\ blockIOLookup (bio_registry s2) (bp_proto st) = None.
Proof.
  intros (Hlen & Hu & Hp) Hst. unfold UnpublishBlockIO. rewrite Hst. do 3 (destruct (_ : bool); [done|]). intros [= <-]. cbn [bio_published bio_registry].
  split; [apply lookup_delete_eq|]. destruct (Hp handle st Hst) as (Hz & e1 & He1 & Hpe1).
  rewrite (proj2 (Nat.ltb_lt _ _)) by (rewrite <- Hlen; by eapply lookup_lt_Some).
  apply blockIOLookup_none. intros i e Hi He. apply insert_lookup_cases in Hi as [[_ ->]|[Hni Hi]]; [by symmetry in He|].
  apply Hni. eapply Hu; eauto; congruence.
Qed.

(** C26. A published image is what firmware reads back: through the protocol just
    installed, every run of blocks that the media descriptor announces is returned,
    byte for byte, into the caller's buffer and nowhere else, and a run that reaches
    past the last one is refused and changes nothing; every write is refused as
    write-protected, whatever block and buffer it names; flush and reset succeed.
    Once the handle is unpublished, all four callbacks answer NOT_FOUND to that
    protocol, whatever they are asked, and no memory changes.  Offsets are bytes in
    64 bits: the statement is of block numbers below 2^55. *)
Theorem published_image_readable s bs proto media body status handle image h s' m mediaID buffer n :
  bioReach s -> proto <> 0 -> (forall i e, bio_registry s !! i = Some e -> be_proto e <> proto) ->
  bio_published s !! handle = None -> handle <> 0 -> len image < 2 ^ 63 ->
  PublishBlockIO bs proto media body status handle image s = (Ok h, s') ->
  holds m body image -> 0 < n -> n * 512 < 2 ^ 64 -> mapped m buffer (n * 512) -> buffer <> 0 -> buffer + n * 512 <= body \/ body + len image <= buffer ->
  exists st, bio_published s' !! h = Some st /\ LastBlock (bp_media st) = len image / 512 - 1 /\
  (forall lba, 0 <= lba -> lba + n - 1 <= LastBlock (bp_media st) ->
     exists m', blockIOReadBlocksGo (bio_registry s') m proto mediaID lba (n * 512) buffer = Ok (blockIOEFISuccess, m') /\
       holds m' buffer (take (Z.to_nat (n * 512)) (drop (Z.to_nat (lba * 512)) image)) /\ sameOutside buffer (n * 512) m m') /\
  (forall lba, 0 <= lba < 2 ^ 55 -> LastBlock (bp_media st) < lba + n - 1 ->
     exists e, blockIOReadBlocksGo (bio_registry s') m proto mediaID lba (n * 512) buffer = Ok (e, m) /\ e <> blockIOEFISuccess) /\
  (forall id lba size buf, blockIOWriteBlocksGo (bio_registry s') proto id lba size buf = blockIOEFIWriteProtected) /\
  blockIOFlushBlocksGo (bio_registry s') proto = blockIOEFISuccess /\
  (forall ext, blockIOResetGo (bio_registry s') proto ext = blockIOEFISuccess) /\
  (forall s2, UnpublishBlockIO bs 0 h s' = (Ok tt, s2) -> bio_published s2 !! h = None /\
     (forall m2 id lba size buf, blockIOReadBlocksGo (bio_registry s2) m2 proto id lba size buf = Ok (blockIOEFINotFound, m2)) /\
     (forall id lba size buf, blockIOWriteBlocksGo (bio_registry s2) proto id lba size buf = blockIOEFINotFound) /\
     blockIOFlushBlocksGo (bio_registry s2) proto = blockIOEFINotFound /\
     forall ext, blockIOResetGo (bio_registry s2) proto ext = blockIOEFINotFound).
Proof.
  intros Hreach Hne Hfresh Hh Hh0 Hsmall Hpub Hm Hn Hn64 Hbuf Hb0 Hdis. destruct (bioReach_inv s Hreach) as [Hinv Hsd].
  destruct (Publish_lookup _ _ _ _ _ _ _ _ _ _ Hinv Hne Hfresh Hpub) as (-> & Ha & Hpos & Hl & st & Hst & Hp & Hmed).
  exists st. split; [done|]. rewrite Hmed. cbn [mediaFor LastBlock]. change BlockIOLogicalBlockSize with 512.
  assert (len image = 512 * (len image / 512)) as Hdiv by (rewrite Z.div_exact; [done|lia]).
  assert (u64 (len image / 512 - 1) = len image / 512 - 1) as -> by (apply Z.mod_small; lia).
  pose proof (fun lba => blockIORead_spec (bio_registry s') m proto mediaID _ image lba (n * 512) buffer Hl eq_refl Hm) as Hread.
  cbn [be_body] in Hread. split; [done|]. split_and!.
  - intros lba Hlba Hin. specialize (Hread lba Hlba ltac:(lia) ltac:(lia) Hb0 Hbuf Hdis). by rewrite decide_True in Hread by (split; [apply Z.mod_mul|]; lia).
  - intros lba Hlba Hin. specialize (Hread lba ltac:(lia) ltac:(lia) ltac:(lia) Hb0 Hbuf Hdis). by rewrite decide_False in Hread by lia.
  - intros. unfold blockIOWriteBlocksGo. by rewrite Hl.
  - unfold blockIOFlushBlocksGo. by rewrite Hl.
  - intros. unfold blockIOResetGo. by rewrite Hl.
  - intros s2 Hun. destruct (Publish_inv bs proto media body status handle image s Hinv Hsd Hne Hfresh Hh) as [Hinv' _].
    rewrite Hpub in Hinv'. destruct (Unpublish_lookup _ _ _ _ _ _ Hinv' Hst Hun) as [Hgone Hnone]. rewrite Hp in Hnone.
    unfold blockIOReadBlocksGo, blockIOWriteBlocksGo, blockIOFlushBlocksGo, blockIOResetGo. by rewrite Hnone.
Qed.

(** The byte offset is computed in 64 bits, so an LBA 2^55 too high is not past
    the end of the image: it reads the same blocks. *)
Theorem read_lba_wraps reg m this mediaID lba bufferSize buffer :
  blockIOReadBlocksGo reg m this mediaID (lba + 2 ^ 55) bufferSize buffer
  = blockIOReadBlocksGo reg m this mediaID lba bufferSize buffer.
Proof.
  unfold blockIOReadBlocksGo. assert (u64 ((lba + 2 ^ 55) * BlockIOLogicalBlockSize) = u64 (lba * BlockIOLogicalBlockSize)) as ->; [|done].
  unfold u64, BlockIOLogicalBlockSize. replace ((lba + 2 ^ 55) * 512) with (lba * 512 + 1 * 2 ^ 64) by lia. apply Z.mod_add. lia.
Qed.

(** Two blocks at address 4096, a buffer at 8192. *)
Definition twoBlocks : list byte := repeat x41 512 ++ repeat x42 512.
Definition blockMem : memory :=
  map_union (list_to_map (zip (seqZ 4096 1024) twoBlocks)) (list_to_map (zip (seqZ 8192 512) (make 512))).

Lemma holds_check m p bs : 0 <= p -> p + len bs <= 2 ^ 64 ->
  forallb (fun ib => bool_decide (m !! (p + fst ib) = Some (snd ib))) (zip (seqZ 0 (len bs)) bs) = true -> holds m p bs.
Proof.
  intros Hp Hw Hc. split; [done|]. split; [done|]. intros i b Hb. rewrite forallb_forall in Hc.
  specialize (Hc (Z.of_nat i, b)). rewrite bool_decide_eq_true in Hc. apply Hc. apply list_elem_of_In.
  apply list_elem_of_lookup. exists i. apply lookup_zip_Some. split; [|done].
  apply lookup_seqZ. apply lookup_lt_Some in Hb. unfold len. lia.
Qed.

Lemma published_image_readable_witness :
  exists st s', PublishBlockIO 1 100 200 4096 0 7 twoBlocks blockIOInit = (Ok 7, s') /\ bio_published s' !! 7 = Some st /\
    exists m', blockIOReadBlocksGo (bio_registry s') blockMem 100 1 1 512 8192 = Ok (blockIOEFISuccess, m') /\
      holds m' 8192 (repeat x42 512).
Proof.
  assert (holds blockMem 4096 twoBlocks) as Hh by (apply holds_check; [discriminate|vm_compute; discriminate|vm_compute; reflexivity]).
  assert (mapped blockMem 8192 512) as Hm
    by (apply (holds_mapped blockMem 8192 (make 512)), holds_check; [discriminate|vm_compute; discriminate|vm_compute; reflexivity]).
  pose proof (published_image_readable blockIOInit 1 100 200 4096 0 7 twoBlocks 7 _ blockMem 1 8192 1 bio_init
    ltac:(discriminate)
    ltac:(intros i e Hi; cbn [bio_registry blockIOInit] in Hi; apply lookup_replicate in Hi as [-> _]; discriminate)
    ltac:(reflexivity) ltac:(discriminate) ltac:(vm_compute; reflexivity) ltac:(vm_compute; reflexivity) Hh
    ltac:(reflexivity) ltac:(reflexivity) Hm ltac:(discriminate) ltac:(right; vm_compute; discriminate)) as (st & Hst & Hlast & Hread & _).
  exists st. eexists. split; [vm_compute; reflexivity|]. split; [exact Hst|].
  destruct (Hread 1) as (m' & E & Hm' & _); [discriminate|rewrite Hlast; vm_compute; discriminate|].
  exists m'. split; [exact E|]. vm_compute (take _ _) in Hm'. vm_compute (repeat _ _). exact Hm'.
Defined.
