(* ===== verification/Gpt.v ===== *)
(** * The partition table of a disk image

    src/phase3_ufs_partition.go: findUFSPartitionBytes, which looks the UFS
    partition up in the GPT of a streamed image, and the reader over it. *)

From S2P Require Import Prelude LittleEndian.

Definition freebsdUFSTypeGUID : list byte :=
  [xb6; x7c; x6e; x51; xcf; x6e; xd6; x11; x8f; xf8; x00; x02; x2d; x09; x71; x2b].

Definition gptSector : Z := 512.

(** [rd(buf[lo:hi])] *)
Definition readAt (rd : list byte -> out Z) (buf : list byte) (lo hi : Z) : out Z := let* s := slice buf lo hi in rd s.

(** The bytes of the partition that an entry of the UFS type names. *)
Definition ufsPartition (image entry : list byte) : out (list byte) :=
  let* start := readAt leU64 entry 32 40 in
  let* end_ := readAt leU64 entry 40 48 in
  ret_if end_ <? start with ErrGPT;;
  let startB := s64 (s64 start * gptSector) in
  let endB := s64 (s64 (u64 (end_ + 1)) * gptSector) in
  ret_if (len image <? endB) || (endB <? startB) with ErrGPT;;
  slice image startB endB.

(** The walk over the entries from index [i] on, [n] of them left. *)
Fixpoint findUFSFrom (n : nat) (i : Z) (image : list byte) (partBase size : Z) : out (list byte) :=
  match n with
  | O => Err ErrNoUFSPartition
  | S n =>
      let* entry := slice image (s64 (partBase + i * size)) (s64 (partBase + (i + 1) * size)) in
      let* t := slice entry 0 16 in
      let typ := copy (make 16) t in
      if bool_decide (typ = make 16) then findUFSFrom n (i + 1) image partBase size
      else if negb (bool_decide (typ = freebsdUFSTypeGUID)) then findUFSFrom n (i + 1) image partBase size
      else ufsPartition image entry
  end.

Definition findUFSPartitionBytes (image : list byte) : out (list byte) :=
  ret_if len image <? 1024 with ErrGPT;;
  let* hdr := slice image gptSector (2 * gptSector) in
  let* magic := slice hdr 0 8 in
  ret_if negb (bool_decide (magic = str "EFI PART")) with ErrGPT;;
  let* partEntryLBA := readAt leU64 hdr 72 80 in
  let* partEntryCount := readAt leU32 hdr 80 84 in
  let* partEntrySize := readAt leU32 hdr 84 88 in
  ret_if (partEntrySize <? 128) || (4096 <? partEntrySize) with ErrGPT;;
  ret_if 128 <? partEntryCount with ErrGPT;;
  let partBase := s64 (s64 partEntryLBA * gptSector) in
  ret_if len image <? s64 (partBase + partEntryCount * partEntrySize) with ErrGPT;;
  findUFSFrom (Z.to_nat partEntryCount) 0 image partBase partEntrySize.

(** [sliceReaderAt.ReadAt] with a buffer of [n] bytes: what it holds afterwards
    of the slice, and the error. *)
Definition ReadAt (b : list byte) (n off : Z) : list byte * option error :=
  if (off <? 0) || (len b <=? off) then ([], Some ErrEOF)
  else
    let got := take (Z.to_nat n) (drop (Z.to_nat off) b) in
    (got, if len got <? n then Some ErrEOF else None).

(** ** The table as data *)

Definition range (image : list byte) (off n : Z) : list byte := take (Z.to_nat n) (drop (Z.to_nat off) image).

(** An entry: type, own identifier, first and last block. *)
Record gptEntry := mkGpt { ge_type : list byte; ge_guid : list byte; ge_start : Z; ge_end : Z }.
Definition encGpt (e : gptEntry) : list byte := ge_type e ++ ge_guid e ++ le64 (ge_start e) ++ le64 (ge_end e).
Definition wfGpt (e : gptEntry) : Prop :=
  len (ge_type e) = 16 /\ len (ge_guid e) = 16 /\ 0 <= ge_start e < 2 ^ 64 /\ 0 <= ge_end e < 2 ^ 64.

(** The image carries the table [es] at block [lba], in entries of [size] bytes. *)
Definition gptOn (image : list byte) (lba size : Z) (es : list gptEntry) : Prop :=
  1024 <= len image < 2 ^ 63 /\ 0 <= lba < 2 ^ 54 /\ 128 <= size <= 4096 /\ len es <= 128 /\
  lba * 512 + len es * size <= len image /\
  range image 512 8 = str "EFI PART" /\ range image (512 + 72) 8 = le64 lba /\
  range image (512 + 80) 4 = le32 (len es) /\ range image (512 + 84) 4 = le32 size /\
  Forall wfGpt es /\ forall i e, es !! i = Some e -> range image (lba * 512 + Z.of_nat i * size) 48 = encGpt e.

(** The first entry of the UFS type. *)
Definition ufsEntry (es : list gptEntry) : option gptEntry :=
  snd <$> list_find (fun e => ge_type e = freebsdUFSTypeGUID) es.

(** ** Ranges *)

Lemma len_range image off n : 0 <= off -> 0 <= n -> off + n <= len image -> len (range image off n) = n.
Proof. intros. unfold range. len_lia. Qed.

Lemma slice_range (l : list byte) lo hi : 0 <= lo -> lo <= hi -> hi <= len l -> slice l lo hi = Ok (range l lo (hi - lo)).
Proof. apply slice_ok. Qed.

Lemma range_range image off n lo k :
  0 <= off -> 0 <= lo -> 0 <= k -> lo + k <= n -> range (range image off n) lo k = range image (off + lo) k.
Proof.
  intros. unfold range. rewrite skipn_firstn_comm, take_take, drop_drop. f_equal; [lia|]. f_equal. lia.
Qed.

(** Reading a field of a window of the image. *)
Lemma readAt_range rd image off n lo hi w :
  0 <= off -> 0 <= lo -> lo <= hi -> hi <= n -> off + n <= len image ->
  range image (off + lo) (hi - lo) = w -> readAt rd (range image off n) lo hi = rd w.
Proof.
  intros Ho Hlo Hh Hn Hl <-. unfold readAt. rewrite slice_ok by (rewrite ?len_range; lia). cbn [out_bind].
  rewrite <- (range_range image off n lo) by lia. done.
Qed.

(** ** The walk *)

Section walk.
Variable image : list byte.

Lemma ufsPartition_spec entry off size e :
  entry = range image off size -> 48 <= size -> 0 <= off -> off + size <= len image -> len image < 2 ^ 63 ->
  wfGpt e -> range image off 48 = encGpt e -> ge_start e < 2 ^ 54 -> ge_end e + 1 < 2 ^ 54 ->
  ufsPartition image entry =
    if (ge_end e <? ge_start e) || (len image <? (ge_end e + 1) * 512) then Err ErrGPT
    else Ok (range image (ge_start e * 512) ((ge_end e + 1 - ge_start e) * 512)).
Proof.
  intros -> Hs Ho Hl Hi (Ht & Hg & Hst & Hen) He Hs54 He54.
  assert (range image (off + 32) 8 = le64 (ge_start e)) as E1.
  { rewrite <- (range_range image off 48 32 8), He by lia. unfold encGpt, range. rewrite app_assoc, drop_app_length'; [by rewrite take_app_length'|].
    rewrite length_app. unfold len in *. lia. }
  assert (range image (off + 40) 8 = le64 (ge_end e)) as E2.
  { rewrite <- (range_range image off 48 40 8), He by lia. unfold encGpt, range. rewrite !app_assoc, drop_app_length'; [by rewrite take_ge|].
    rewrite !length_app. unfold len in *. change (length (le64 _)) with 8%nat. lia. }
  unfold ufsPartition.
  rewrite (readAt_range leU64 image off size 32 40 _ Ho ltac:(lia) ltac:(lia) ltac:(lia) Hl E1).
  rewrite <- (app_nil_r (le64 (ge_start e))), leU64_le64. cbn [out_bind].
  rewrite (readAt_range leU64 image off size 40 48 _ Ho ltac:(lia) ltac:(lia) ltac:(lia) Hl E2).
  rewrite <- (app_nil_r (le64 (ge_end e))), leU64_le64. cbn [out_bind]. rewrite !u64_small by lia.
  destruct (Z.ltb_spec (ge_end e) (ge_start e)) as [|Hle]; [done|]. cbn [orb]. unfold gptSector. cbv zeta.
  rewrite (s64_small (ge_start e)), (s64_small (ge_end e + 1)) by lia. rewrite !s64_small by lia.
  destruct (Z.ltb_spec (len image) ((ge_end e + 1) * 512)); [done|]. cbn [orb].
  rewrite (proj2 (Z.ltb_ge _ _)) by lia. rewrite slice_ok by lia. unfold range. do 3 f_equal; lia.
Qed.

Lemma findUFSFrom_spec base size es : forall i,
  0 <= i -> 0 <= base -> 128 <= size -> base + (i + len es) * size <= len image -> len image < 2 ^ 63 -> Forall wfGpt es ->
  (forall k e, es !! k = Some e -> range image (base + (i + Z.of_nat k) * size) 48 = encGpt e) ->
  (forall e, ufsEntry es = Some e -> ge_start e < 2 ^ 54 /\ ge_end e + 1 < 2 ^ 54) ->
  findUFSFrom (length es) i image base size =
    match ufsEntry es with
    | None => Err ErrNoUFSPartition
    | Some e =>
        if (ge_end e <? ge_start e) || (len image <? (ge_end e + 1) * 512) then Err ErrGPT
        else Ok (range image (ge_start e * 512) ((ge_end e + 1 - ge_start e) * 512))
    end.
Proof.
  induction es as [|e es IH]; intros i Hi Hb Hs Hl Hlen Hwf Hr Hu; [done|]. apply Forall_cons in Hwf as [He Hwf].
  rewrite len_cons in Hl. pose proof (len_nonneg es) as Hes. cbn [length findUFSFrom].
  assert (base + (i + 1) * size <= len image) as Hin by nia.
  rewrite !s64_small by nia. rewrite slice_ok by nia. cbn [out_bind].
  replace (base + (i + 1) * size - (base + i * size)) with size by lia. fold (range image (base + i * size) size).
  pose proof (Hr 0%nat e eq_refl) as He0. rewrite Z.add_0_r in He0.
  assert (slice (range image (base + i * size) size) 0 16 = Ok (ge_type e)) as ->.
  { rewrite slice_ok by (rewrite ?len_range; nia). rewrite Z.sub_0_r. fold (range (range image (base + i * size) size) 0 16).
    rewrite range_range by lia. rewrite <- (range_range image (base + i * size) 48 0 16), He0 by nia. unfold range, encGpt. cbn [Z.to_nat]. rewrite drop_0.
    rewrite take_app_length'; [done|]. destruct He as [Ht _]. unfold len in Ht. lia. }
  cbn [out_bind]. destruct He as (Ht & Hrest). assert (copy (make 16) (ge_type e) = ge_type e) as ->.
  { rewrite <- Ht. apply copy_make. }
  assert (findUFSFrom (length es) (i + 1) image base size = match ufsEntry es with
    | None => Err ErrNoUFSPartition
    | Some e => if (ge_end e <? ge_start e) || (len image <? (ge_end e + 1) * 512) then Err ErrGPT
        else Ok (range image (ge_start e * 512) ((ge_end e + 1 - ge_start e) * 512)) end \/ ge_type e = freebsdUFSTypeGUID) as Hnext.
  { destruct (decide (ge_type e = freebsdUFSTypeGUID)) as [|Hne]; [by right|left]. apply IH; [lia|done|done|nia|done|done| |].
    - intros k e' Ek. rewrite <- (Hr (S k) e' Ek). f_equal. lia.
    - intros e' Ee. apply Hu. unfold ufsEntry in *. cbn [list_find]. rewrite decide_False by done.
      destruct (list_find _ es) as [[j x]|]; [|done]. exact Ee. }
  unfold ufsEntry in Hnext |- *. cbn [list_find]. case_bool_decide as E0.
  { destruct Hnext as [->|E]; [|by rewrite E0 in E]. rewrite decide_False by (rewrite E0; done). by destruct (list_find _ es) as [[]|]. }
  case_bool_decide as E1; cbn [negb].
  - rewrite decide_True by done. cbn [fmap option_fmap option_map snd].
    destruct (Hu e) as [Hu1 Hu2]; [unfold ufsEntry; cbn [list_find]; by rewrite decide_True|].
    eapply ufsPartition_spec; [reflexivity|lia|nia|nia|done|by split|exact He0|done|done].
  - destruct Hnext as [->|E]; [|done]. rewrite decide_False by done. by destruct (list_find _ es) as [[]|].
Qed.
End walk.

(** Of an image that carries a partition table the function returns exactly the
    blocks, first to last, of the first partition of the UFS type, and reports
    that there is none exactly when the table has none; a partition that ends
    before it starts or past the image is an error. *)
Theorem find_ufs_spec image lba size es :
  gptOn image lba size es -> (forall e, ufsEntry es = Some e -> ge_start e < 2 ^ 54 /\ ge_end e + 1 < 2 ^ 54) ->
  findUFSPartitionBytes image =
    match ufsEntry es with
    | None => Err ErrNoUFSPartition
    | Some e =>
        if (ge_end e <? ge_start e) || (len image <? (ge_end e + 1) * 512) then Err ErrGPT
        else Ok (range image (ge_start e * 512) ((ge_end e + 1 - ge_start e) * 512))
    end.
Proof.
  intros ([Hl1 Hl2] & Hlba & Hsize & Hcnt & Htab & Hm & El & Ec & Es & Hwf & He) Hu. pose proof (len_nonneg es) as Hes. unfold findUFSPartitionBytes.
  rewrite (proj2 (Z.ltb_ge _ _)) by lia. unfold gptSector at 1 2. rewrite slice_ok by lia. cbn [out_bind].
  change (2 * 512 - 512) with 512. fold (range image 512 512). rewrite slice_ok by (rewrite ?len_range; lia). cbn [out_bind].
  change (8 - 0) with 8. fold (range (range image 512 512) 0 8). rewrite range_range, Z.add_0_r, Hm by lia.
  rewrite bool_decide_eq_true_2 by done. cbn [negb].
  rewrite (readAt_range leU64 image 512 512 72 80 _ ltac:(lia) ltac:(lia) ltac:(lia) ltac:(lia) ltac:(lia) El).
  rewrite <- (app_nil_r (le64 lba)), leU64_le64, u64_small by lia. cbn [out_bind].
  rewrite (readAt_range leU32 image 512 512 80 84 _ ltac:(lia) ltac:(lia) ltac:(lia) ltac:(lia) ltac:(lia) Ec).
  unfold le32 at 1. rewrite leU32_le64 by lia. cbn [out_bind].
  rewrite (readAt_range leU32 image 512 512 84 88 _ ltac:(lia) ltac:(lia) ltac:(lia) ltac:(lia) ltac:(lia) Es).
  unfold le32. rewrite leU32_le64 by lia. cbn [out_bind]. destruct (Z.ltb_spec size 128), (Z.ltb_spec 4096 size); try lia. cbn [orb].
  rewrite (proj2 (Z.ltb_ge 128 _)) by lia. unfold gptSector. rewrite (s64_small lba), (s64_small (lba * 512)) by lia. cbv zeta.
  rewrite s64_small by lia. rewrite (proj2 (Z.ltb_ge _ _)) by lia. unfold len at 1. rewrite Nat2Z.id.
  apply findUFSFrom_spec; try done; try lia.
Qed.

(** A disk of two blocks of data behind a table of one entry. *)
Definition smallDisk (start end_ : Z) : list byte :=
  make 512 ++ (str "EFI PART" ++ make 64 ++ le64 2 ++ le32 1 ++ le32 128 ++ make 424) ++
  (encGpt (mkGpt freebsdUFSTypeGUID (make 16) start end_) ++ make 464) ++ repeat x41 512 ++ repeat x42 512.

Lemma find_ufs_spec_witness :
  findUFSPartitionBytes (smallDisk 3 4) = Ok (repeat x41 512 ++ repeat x42 512) /\
  findUFSPartitionBytes (smallDisk 4 3) = Err ErrGPT /\ findUFSPartitionBytes (smallDisk 3 5) = Err ErrGPT.
Proof.
  assert (forall a b, 0 <= a < 2 ^ 54 -> 0 <= b < 2 ^ 54 - 1 -> len (smallDisk a b) = 2560 ->
    range (smallDisk a b) 512 8 = str "EFI PART" -> range (smallDisk a b) (512 + 72) 8 = le64 2 ->
    range (smallDisk a b) (512 + 80) 4 = le32 1 -> range (smallDisk a b) (512 + 84) 4 = le32 128 ->
    range (smallDisk a b) 1024 48 = encGpt (mkGpt freebsdUFSTypeGUID (make 16) a b) ->
    gptOn (smallDisk a b) 2 128 [mkGpt freebsdUFSTypeGUID (make 16) a b]) as Hon.
  { intros a b Ha Hb El. unfold gptOn. rewrite El. change (len [_]) with 1. intros. split_and!; try done; try lia.
    - constructor; [|constructor]. unfold wfGpt. cbn [ge_type ge_guid ge_start ge_end]. split_and!; try done; lia.
    - intros [|i] e; [|done]. intros [= <-]. done. }
  split_and!.
  - rewrite (find_ufs_spec (smallDisk 3 4) 2 128 [mkGpt freebsdUFSTypeGUID (make 16) 3 4]).
    + vm_compute. reflexivity.
    + apply Hon; [lia|lia|vm_compute; reflexivity..].
    + intros e [= <-]. cbn. lia.
  - rewrite (find_ufs_spec (smallDisk 4 3) 2 128 [mkGpt freebsdUFSTypeGUID (make 16) 4 3]).
    + vm_compute. reflexivity.
    + apply Hon; [lia|lia|vm_compute; reflexivity..].
    + intros e [= <-]. cbn. lia.
  - rewrite (find_ufs_spec (smallDisk 3 5) 2 128 [mkGpt freebsdUFSTypeGUID (make 16) 3 5]).
    + vm_compute. reflexivity.
    + apply Hon; [lia|lia|vm_compute; reflexivity..].
    + intros e [= <-]. cbn. lia.
Defined.

(** Beyond those bounds the multiplication by the block size wraps: the entry of
    a partition at block 2^55 is taken for one at block 0, and one at block 2^54
    makes the slice expression panic. *)
Lemma ufs_lba_wraps :
  findUFSPartitionBytes (smallDisk (2 ^ 55) (2 ^ 55 + 1)) = Ok (range (smallDisk (2 ^ 55) (2 ^ 55 + 1)) 0 1024) /\
  findUFSPartitionBytes (smallDisk (2 ^ 54) (2 ^ 54)) = Panic.
Proof. split; vm_compute; reflexivity. Qed.

(** Reading through the reader is reading the partition: whole buffers inside
    it, the rest of it with io.EOF at its end, and nothing outside. *)
Lemma ReadAt_spec b n off :
  0 <= n -> 0 <= off ->
  ReadAt b n off = (range b off n, if (len b <=? off) || (len b <? off + n) then Some ErrEOF else None).
Proof.
  intros Hn Ho. unfold ReadAt, range. rewrite (proj2 (Z.ltb_ge off 0)) by done. cbn [orb].
  destruct (Z.leb_spec (len b) off) as [Hle|Hgt]; cbn [orb].
  - by rewrite drop_ge, take_nil by (unfold len in *; lia).
  - f_equal. destruct (Z.ltb_spec (len (take (Z.to_nat n) (drop (Z.to_nat off) b))) n), (Z.ltb_spec (len b) (off + n)); try done; len_lia.
Qed.
