(* ===== verification/EspImage.v ===== *)
(** * Building a disk image

    src/internal/livefreebsdboot/buildespimg/main.go: the host tool that puts a
    FAT image, and optionally a UFS image, into a GPT disk image: a protective
    MBR, the partition array and both GPT headers with their checksums.  The
    UFS image comes from a third-party writer and is an argument here (UfsImage.v
    is about how it is filled), as is SHA-256. *)

From S2P Require Import Prelude LittleEndian Utf8 Gpt.

Definition sectorSize : Z := 512.
Definition gptPartEntrySize : Z := 128.
Definition gptPartEntryCount : Z := 128.
Definition gptPartArrayBytes : Z := gptPartEntrySize * gptPartEntryCount.
Definition gptPartArraySector : Z := gptPartArrayBytes / sectorSize.
Definition firstUsableLBA : Z := 1 + 1 + gptPartArraySector.
Definition dataStartLBA : Z := 64.
Definition minUFSBytes : Z := 48 * 1024 * 1024.
Definition ufsHeadroomMult : Z := 0.

Definition efiSystemPartitionGUID : list byte :=
  [x28; x73; x2a; xc1; x1f; xf8; xd2; x11; xba; x4b; x00; xa0; xc9; x3e; xc9; x3b].

(** ** crc32.ChecksumIEEE *)

Definition crcBit (crc : Z) : Z :=
  if Z.odd crc then Z.lxor (Z.shiftr crc 1) 0xEDB88320 else Z.shiftr crc 1.
Definition crcByte (crc : Z) (b : byte) : Z := Nat.iter 8 crcBit (Z.lxor crc (b2z b)).
Definition ChecksumIEEE (bs : list byte) : Z := Z.lxor (fold_left crcByte bs 0xFFFFFFFF) 0xFFFFFFFF.

Example crc32_check : ChecksumIEEE (str "123456789") = 0xCBF43926.
Proof. vm_compute. reflexivity. Qed.

(** ** Writing into slices *)

(** [copy(b[lo:lo+len(w)], w)], and the little-endian puts. *)
Definition put (b : list byte) (lo : Z) (w : list byte) : out (list byte) := copyAt b lo (lo + len w) w.

(** A function that is handed the slice [b[lo:hi]] and writes through it. *)
Definition inWindow (b : list byte) (lo hi : Z) (f : list byte -> out (list byte)) : out (list byte) :=
  let* w := slice b lo hi in
  let* w := f w in
  copyAt b lo hi w.

(** uuidV4FromBytes *)
Definition uuidV4FromBytes (b : list byte) : out (list byte) :=
  let out := copy (make 16) b in
  let* c := idx out 6 in
  let* out := setAt out 6 (Z.lor (Z.land c 0x0F) 0x40) in
  let* c := idx out 8 in
  setAt out 8 (Z.lor (Z.land c 0x3F) 0x80).

(** writePartName from the byte offset [i] on. *)
Fixpoint partNameFrom (fuel : nat) (slot name : list byte) (i : Z) : out (list byte) :=
  match fuel, name with
  | O, _ | _, [] => Ok slot
  | S f, _ =>
      let '(r, w) := decodeRune name in
      if len slot <? i * 2 + 2 then Ok slot
      else
        let* slot := put slot (i * 2) (le16 r) in
        partNameFrom f slot (drop w name) (i + Z.of_nat w)
  end.
Definition writePartName (slot name : list byte) : out (list byte) := partNameFrom (length name) slot name 0.

(** ** The GPT header *)

Record gptHeaderArgs := mkGptArgs {
  ga_myLBA : Z; ga_alternateLBA : Z; ga_firstUsableLBA : Z; ga_lastUsableLBA : Z;
  ga_diskGUID : list byte; ga_partitionEntryLBA : Z; ga_partitionEntryCRC : Z
}.

Definition writeGPTHeader (a : gptHeaderArgs) (hdr : list byte) : out (list byte) :=
  let* hdr := put hdr 0 (str "EFI PART") in
  let* hdr := put hdr 8 (le32 0x00010000) in
  let* hdr := put hdr 12 (le32 92) in
  let* hdr := put hdr 20 (le32 0) in
  let* hdr := put hdr 24 (le64 (ga_myLBA a)) in
  let* hdr := put hdr 32 (le64 (ga_alternateLBA a)) in
  let* hdr := put hdr 40 (le64 (ga_firstUsableLBA a)) in
  let* hdr := put hdr 48 (le64 (ga_lastUsableLBA a)) in
  let* hdr := put hdr 56 (ga_diskGUID a) in
  let* hdr := put hdr 72 (le64 (ga_partitionEntryLBA a)) in
  let* hdr := put hdr 80 (le32 gptPartEntryCount) in
  let* hdr := put hdr 84 (le32 gptPartEntrySize) in
  let* hdr := put hdr 88 (le32 (ga_partitionEntryCRC a)) in
  let* body := sliceTo hdr 92 in
  put hdr 16 (le32 (ChecksumIEEE body)).

(** ** The image (main) *)

(** The size of the UFS partition for a tar of [tarLen] bytes. *)
Definition ufsPartitionSize (tarLen ufsSize : Z) : Z :=
  let ufsLen :=
    if ufsSize =? 0 then
      let want := s64 (tarLen * ufsHeadroomMult) in
      if minUFSBytes <? want then want else minUFSBytes
    else ufsSize in
  let mib := 1024 * 1024 in
  if Z.rem ufsLen mib =? 0 then ufsLen else s64 (ufsLen + (mib - Z.rem ufsLen mib)).

(** [memWriterAt]: the buffer that the UFS writer works on. *)
Definition WriteAt (b p : list byte) (off : Z) : out ((Z * option error) * list byte) :=
  if (off <? 0) || (len b <? s64 (off + len p)) then Ok ((0, Some ErrUFS), b)
  else let* d := sliceFrom b off in Ok ((Z.min (len p) (len d), None), take (Z.to_nat off) b ++ copy d p).

(** One entry of the array. *)
Definition writeEntry (typ guid : list byte) (first lastB : Z) (name : list byte) (e : list byte) : out (list byte) :=
  let* e := put e 0 typ in
  let* e := put e 16 guid in
  let* e := put e 32 (le64 first) in
  let* e := put e 40 (le64 lastB) in
  let* e := put e 48 (le64 0) in
  inWindow e 56 128 (fun slot => writePartName slot name).

Definition writeMBR (totalLBAs : Z) (mbr : list byte) : out (list byte) :=
  let* mbr := put mbr 446 [x00; x00; x02; x00; xee; xff; xff; xff] in
  let* mbr := put mbr (446 + 8) (le32 1) in
  let size32 := u32 (totalLBAs - 1) in
  let size32 := if negb (size32 =? totalLBAs - 1) then 0xFFFFFFFF else size32 in
  let* mbr := put mbr (446 + 12) (le32 size32) in
  put mbr 510 [x55; xaa].

Section main.
Variable Sum256 : list byte -> list byte.

Record diskLayout := mkLayout {
  lo_espStart : Z; lo_espEnd : Z; lo_ufsStart : Z; lo_ufsEnd : Z; lo_total : Z
}.
Definition layoutFor (fat : list byte) (ufsBytes : option (list byte)) : diskLayout :=
  let espStartLBA := dataStartLBA in
  let espEndLBA := u64 (espStartLBA + len fat / sectorSize - 1) in
  let alignSectors := 2 ^ 20 / sectorSize in
  let ufsStartLBA := u64 (u64 (espEndLBA + 1 + alignSectors - 1) / alignSectors * alignSectors) in
  match ufsBytes with
  | None => mkLayout espStartLBA espEndLBA 0 0 (u64 (espEndLBA + 1 + gptPartArraySector + 1))
  | Some u =>
      let ufsEndLBA := u64 (ufsStartLBA + len u / sectorSize - 1) in
      mkLayout espStartLBA espEndLBA ufsStartLBA ufsEndLBA (u64 (ufsEndLBA + 1 + gptPartArraySector + 1))
  end.

(** The partition entries. *)
Definition writeParts (lo : diskLayout) (espGUID : list byte) (ufsBytes : option (list byte)) (parts : list byte) : out (list byte) :=
  let* parts := inWindow parts 0 128 (writeEntry efiSystemPartitionGUID espGUID (lo_espStart lo) (lo_espEnd lo) (str "EFI System")) in
  match ufsBytes with
  | None => Ok parts
  | Some u =>
      let* ufsGUID := uuidV4FromBytes (take 16 (Sum256 u)) in
      inWindow parts gptPartEntrySize (gptPartEntrySize * 2)
        (writeEntry freebsdUFSTypeGUID ufsGUID (lo_ufsStart lo) (lo_ufsEnd lo) (str "FreeBSD-UFS"))
  end.

(** The bytes written to the output file, for the FAT image and the UFS image
    that buildUFSFromTar made, if one was asked for. *)
Definition buildImage (fat : list byte) (ufsBytes : option (list byte)) : out (list byte) :=
  ret_if negb (len fat mod sectorSize =? 0) with ErrNotDiskImage;;
  ret_if len fat / sectorSize =? 0 with ErrNotDiskImage;;
  let dig := Sum256 fat in
  let* diskGUID := uuidV4FromBytes (take 16 dig) in
  let* espGUID := uuidV4FromBytes (drop 16 dig) in
  let lo := layoutFor fat ufsBytes in
  let lastLBA := lo_total lo - 1 in
  let lastUsableLBA := lastLBA - 1 - gptPartArraySector in
  let backupPartArrayLBA := lastLBA - gptPartArraySector in
  let img := make (s64 (lo_total lo * sectorSize)) in
  let* img := inWindow img 0 sectorSize (writeMBR (lo_total lo)) in
  let* img := inWindow img (2 * sectorSize) (2 * sectorSize + gptPartArrayBytes) (writeParts lo espGUID ufsBytes) in
  let* parts := slice img (2 * sectorSize) (2 * sectorSize + gptPartArrayBytes) in
  let partArrCRC := ChecksumIEEE parts in
  let* img := inWindow img sectorSize (2 * sectorSize)
    (writeGPTHeader (mkGptArgs 1 lastLBA firstUsableLBA lastUsableLBA diskGUID 2 partArrCRC)) in
  let* img := copyAt img (lo_espStart lo * sectorSize) (len img) fat in
  let* img := match ufsBytes with None => Ok img | Some u => copyAt img (lo_ufsStart lo * sectorSize) (len img) u end in
  let* parts := slice img (2 * sectorSize) (2 * sectorSize + gptPartArrayBytes) in
  let* img := copyAt img (backupPartArrayLBA * sectorSize) (backupPartArrayLBA * sectorSize + gptPartArrayBytes) parts in
  inWindow img (lastLBA * sectorSize) ((lastLBA + 1) * sectorSize)
    (writeGPTHeader (mkGptArgs lastLBA 1 firstUsableLBA lastUsableLBA diskGUID backupPartArrayLBA partArrCRC)).
End main.

(** ** Windows of a buffer *)

(** [b] with [w] at offset [lo]. *)
Definition splice (b : list byte) (lo : Z) (w : list byte) : list byte :=
  take (Z.to_nat lo) b ++ w ++ drop (Z.to_nat (lo + len w)) b.

Lemma copyAt_splice b lo hi w : 0 <= lo -> lo + len w <= hi -> hi <= len b -> copyAt b lo hi w = Ok (splice b lo w).
Proof.
  intros. pose proof (len_nonneg w). unfold copyAt. rewrite slice_ok by lia. cbn [out_bind]. unfold splice, copy. do 2 f_equal.
  set (d := take (Z.to_nat (hi - lo)) _). assert (length d = Z.to_nat (hi - lo)) as Hd by (unfold d; rewrite length_take, length_drop; unfold len in *; lia).
  rewrite Nat.min_r by (unfold len in *; lia). rewrite firstn_all, <- app_assoc. f_equal.
  transitivity (drop (length w) (drop (Z.to_nat lo) b)); [|rewrite drop_drop; f_equal; unfold len in *; lia].
  rewrite <- (take_drop (Z.to_nat (hi - lo)) (drop (Z.to_nat lo) b)). fold d. rewrite drop_drop.
  rewrite drop_app_le by (unfold len in *; lia). do 2 f_equal. lia.
Qed.
Lemma put_splice b lo w : 0 <= lo -> lo + len w <= len b -> put b lo w = Ok (splice b lo w).
Proof. intros. apply copyAt_splice; lia. Qed.

Lemma len_splice b lo w : 0 <= lo -> lo + len w <= len b -> len (splice b lo w) = len b.
Proof. intros. unfold splice. len_lia. Qed.

Lemma range_splice_same b lo w n : 0 <= lo -> lo <= len b -> n = len w -> range (splice b lo w) lo n = w.
Proof.
  intros Hlo Hb ->. unfold range, splice. rewrite drop_app_length' by (rewrite length_take; unfold len in *; lia).
  rewrite take_app_length'; [done|unfold len; lia].
Qed.
Lemma range_splice_before b lo w off n : 0 <= off -> 0 <= n -> off + n <= lo -> lo <= len b -> range (splice b lo w) off n = range b off n.
Proof.
  intros. unfold range, splice. rewrite drop_app_le, take_app_le by (rewrite ?length_drop, ?length_take; unfold len in *; lia).
  rewrite skipn_firstn_comm, take_take. f_equal. lia.
Qed.
Lemma range_splice_after b lo w off n : 0 <= lo -> lo + len w <= off -> lo + len w <= len b -> range (splice b lo w) off n = range b off n.
Proof.
  intros. pose proof (len_nonneg w). unfold range, splice. rewrite app_assoc, drop_app_ge by (rewrite length_app, length_take; unfold len in *; lia).
  rewrite drop_drop. do 2 f_equal. rewrite length_app, length_take. unfold len in *. lia.
Qed.
Lemma range_splice_in b lo w off n :
  0 <= lo -> lo <= off -> 0 <= n -> off + n <= lo + len w -> lo + len w <= len b -> range (splice b lo w) off n = range w (off - lo) n.
Proof.
  intros. unfold range, splice. rewrite drop_app_ge by (rewrite length_take; unfold len in *; lia).
  rewrite drop_app_le by (rewrite length_take; unfold len in *; lia). rewrite take_app_le; [|rewrite length_drop, length_take; unfold len in *; lia].
  f_equal. f_equal. rewrite length_take. unfold len in *. lia.
Qed.
Lemma range_all b n : n = len b -> range b 0 n = b.
Proof. intros ->. unfold range. cbn [Z.to_nat]. rewrite drop_0. apply take_ge. unfold len. lia. Qed.
Lemma range_make off n k : 0 <= off -> 0 <= n -> off + n <= k -> range (make k) off n = make n.
Proof.
  intros. replace k with (off + (n + (k - off - n))) by lia. rewrite !make_split by lia. unfold range.
  rewrite drop_app_length' by (unfold make; rewrite repeat_length; lia). rewrite take_app_length'; [done|]. unfold make. by rewrite repeat_length.
Qed.

(** A write undone, and a write of what is there. *)
Lemma splice_splice b lo w w' : 0 <= lo -> len w' = len w -> lo + len w <= len b -> splice (splice b lo w) lo w' = splice b lo w'.
Proof.
  intros Hlo Hw Hb. unfold splice at 1 3. rewrite Hw. f_equal.
  - unfold splice. rewrite take_app_le, take_take by (rewrite length_take; unfold len in *; lia). f_equal. lia.
  - f_equal. unfold splice. rewrite app_assoc, drop_app_length'; [done|]. rewrite length_app, length_take. unfold len in *. lia.
Qed.
Lemma splice_id b lo n : 0 <= lo -> 0 <= n -> lo + n <= len b -> splice b lo (range b lo n) = b.
Proof.
  intros. unfold splice. rewrite len_range by done. unfold range. rewrite <- (take_drop (Z.to_nat lo) b) at 4. f_equal.
  rewrite <- (take_drop (Z.to_nat n) (drop (Z.to_nat lo) b)) at 2. f_equal. rewrite drop_drop. f_equal. lia.
Qed.

Lemma inWindow_splice b lo hi f w :
  0 <= lo -> lo <= hi -> hi <= len b -> f (range b lo (hi - lo)) = Ok w -> len w = hi - lo -> inWindow b lo hi f = Ok (splice b lo w).
Proof.
  intros Hlo Hh Hb Hf Hw. unfold inWindow. rewrite slice_ok by done. cbn [out_bind]. unfold range in Hf. rewrite Hf. cbn [out_bind].
  apply copyAt_splice; lia.
Qed.

(** *** Chains of writes *)

Abbreviation write := (Z * list byte)%type.
Definition spl (b : list byte) (w : write) : list byte := splice b (fst w) (snd w).
Definition fits (n : Z) (w : write) : Prop := 0 <= fst w /\ fst w + len (snd w) <= n.
Definition apart (off n : Z) (w : write) : Prop := off + n <= fst w \/ fst w + len (snd w) <= off.

Lemma len_chain ws b : Forall (fits (len b)) ws -> len (fold_left spl ws b) = len b.
Proof.
  revert b. induction ws as [|w ws IH]; intros b Hw; [done|]. apply Forall_cons in Hw as [[Hw1 Hw2] Hw]. cbn [fold_left].
  assert (len (spl b w) = len b) as E by by apply len_splice. rewrite IH; by rewrite E.
Qed.

(** The writes in order, as the routines make them. *)
Lemma puts_chain {A} ws (k : list byte -> out A) b :
  Forall (fits (len b)) ws ->
  fold_right (fun w k b => let* b := put b (fst w) (snd w) in k b) k ws b = k (fold_left spl ws b).
Proof.
  revert b. induction ws as [|w ws IH]; intros b Hw; [done|]. apply Forall_cons in Hw as [[Hw1 Hw2] Hw]. cbn [fold_left fold_right].
  rewrite put_splice by done. cbn [out_bind]. fold (spl b w). apply IH. unfold spl. by rewrite len_splice.
Qed.

Lemma range_chain_apart ws b off n :
  0 <= off -> 0 <= n -> Forall (fits (len b)) ws -> Forall (apart off n) ws -> range (fold_left spl ws b) off n = range b off n.
Proof.
  intros Ho Hn. revert b. induction ws as [|w ws IH]; intros b Hw Ha; [done|]. apply Forall_cons in Hw as [[Hw1 Hw2] Hw]. apply Forall_cons in Ha as [Ha Has].
  cbn [fold_left]. rewrite IH; [|unfold spl; by rewrite len_splice|done]. unfold spl. pose proof (len_nonneg (snd w)).
  destruct Ha; [apply range_splice_before; lia|apply range_splice_after; lia].
Qed.

(** The [i]th write is read back when no later one overlaps it. *)
Lemma range_chain i ws b off w n :
  ws !! i = Some (off, w) -> n = len w -> Forall (fits (len b)) ws -> Forall (apart off n) (drop (S i) ws) ->
  range (fold_left spl ws b) off n = w.
Proof.
  intros Hi -> Hw Ha. rewrite <- (take_drop_middle ws i _ Hi) in Hw |- *. apply Forall_app in Hw as [Hw1 [[Hf1 Hf2] Hw2]%Forall_cons].
  rewrite fold_left_app. cbn [fold_left fst snd] in *. pose proof (len_chain _ _ Hw1) as Hl. pose proof (len_nonneg w).
  change (spl (fold_left spl (take i ws) b) (off, w)) with (splice (fold_left spl (take i ws) b) off w).
  rewrite range_chain_apart; [|done|done| |done].
  - apply range_splice_same; rewrite ?Hl; (done || lia).
  - rewrite len_splice; rewrite ?Hl; done.
Qed.

(** [go_writes]: the side conditions, on a list of writes. *)
Ltac lit_len :=
  repeat match goal with
  | |- context [len (?x :: ?l)] => let v := eval vm_compute in (len (x :: l)) in change (len (x :: l)) with v
  | |- context [len (str ?s)] => let v := eval vm_compute in (len (str s)) in change (len (str s)) with v
  end.
Ltac go_writes :=
  cbn [drop];
  repeat (apply Forall_cons; split; [unfold fits, apart; cbn [fst snd]; rewrite ?len_le32, ?len_le64; lit_len; lia|]); try apply Forall_nil_2.

(** ** The routines, on windows of the right size *)

Lemma len_copy dst src : len (copy dst src) = len dst.
Proof. unfold copy, len. rewrite length_app, length_take, length_drop. lia. Qed.
Lemma setAt_len b i v : 0 <= i < len b -> exists b', setAt b i v = Ok b' /\ len b' = len b.
Proof.
  intros Hi. unfold setAt. rewrite (proj2 (Z.leb_le 0 i)), (proj2 (Z.ltb_lt i _)) by lia. cbn [andb]. eexists. split; [reflexivity|]. len_lia.
Qed.

Lemma range_split b off n m : 0 <= off -> 0 <= n -> 0 <= m -> range b off (n + m) = range b off n ++ range b (off + n) m.
Proof.
  intros. unfold range. rewrite <- (take_drop (Z.to_nat n) (take (Z.to_nat (n + m)) _)), take_take, skipn_firstn_comm, drop_drop.
  f_equal; f_equal; [lia|lia|]. f_equal. lia.
Qed.

Lemma uuid_ok b : exists u, uuidV4FromBytes b = Ok u /\ len u = 16.
Proof.
  unfold uuidV4FromBytes. set (o := copy (make 16) b). assert (len o = 16) as Ho by (unfold o; by rewrite len_copy).
  rewrite idx_ok by lia. cbn [out_bind]. destruct (setAt_len o 6 (Z.lor (Z.land (b2z (nth (Z.to_nat 6) o x00)) 15) 64)) as (o1 & -> & H1); [lia|].
  cbn [out_bind]. rewrite idx_ok by lia. cbn [out_bind]. destruct (setAt_len o1 8 (Z.lor (Z.land (b2z (nth (Z.to_nat 8) o1 x00)) 63) 128)) as (o2 & -> & H2); [lia|].
  exists o2. split; [done|lia].
Qed.

Lemma partName_ok name : forall fuel slot i, 0 <= i -> exists slot', partNameFrom fuel slot name i = Ok slot' /\ len slot' = len slot.
Proof.
  intros fuel. revert name. induction fuel as [|f IH]; intros name slot i Hi; cbn [partNameFrom]; [by eexists|].
  destruct name as [|c name]; [by eexists|]. destruct (decodeRune (c :: name)) as [r w]. destruct (Z.ltb_spec (len slot) (i * 2 + 2)); [by eexists|].
  rewrite put_splice by (rewrite ?len_le16; lia). cbn [out_bind].
  destruct (IH (drop w (c :: name)) (splice slot (i * 2) (le16 r)) (i + Z.of_nat w)) as (s' & -> & Hl); [lia|].
  exists s'. split; [done|]. rewrite Hl. apply len_splice; rewrite ?len_le16; lia.
Qed.


Definition entryWrites (typ guid : list byte) (first lastB : Z) : list write :=
  [(0, typ); (16, guid); (32, le64 first); (40, le64 lastB); (48, le64 0)].
Lemma writeEntry_ok typ guid first lastB name e :
  len typ = 16 -> len guid = 16 -> len e = 128 ->
  exists e', writeEntry typ guid first lastB name e = Ok e' /\ len e' = 128 /\ range e' 0 48 = encGpt (mkGpt typ guid first lastB).
Proof.
  intros Ht Hg He. change (writeEntry typ guid first lastB name e) with
    (fold_right (fun w k b => let* b := put b (fst w) (snd w) in k b)
      (fun e => inWindow e 56 128 (fun slot => writePartName slot name)) (entryWrites typ guid first lastB) e).
  assert (Forall (fits (len e)) (entryWrites typ guid first lastB)) as Hf by (rewrite He; unfold entryWrites; go_writes).
  rewrite puts_chain by done. pose proof (len_chain _ _ Hf) as Hl. rewrite He in Hl. set (e5 := fold_left _ _ _) in *.
  unfold writePartName. destruct (partName_ok name (length name) (range e5 56 (128 - 56)) 0) as (slot & Es & Hs); [lia|].
  rewrite len_range in Hs by lia. rewrite (inWindow_splice e5 56 128 _ slot) by (done || lia).
  eexists. split; [reflexivity|]. split; [rewrite len_splice; lia|]. rewrite range_splice_before by lia.
  change 48 with (16 + (16 + (8 + 8))). rewrite !range_split by lia. unfold encGpt. cbn [ge_type ge_guid ge_start ge_end].
  f_equal; [|f_equal; [|f_equal]].
  - by apply (range_chain 0 _ e); [..|unfold entryWrites; go_writes].
  - by apply (range_chain 1 _ e); [..|unfold entryWrites; go_writes].
  - by apply (range_chain 2 _ e); [..|unfold entryWrites; go_writes].
  - by apply (range_chain 3 _ e); [..|unfold entryWrites; go_writes].
Qed.

(** One protective partition over the whole disk. *)
Definition protects (mbr : list byte) (total : Z) : Prop :=
  range mbr 450 1 = [xee] /\ range mbr 454 4 = le32 1 /\ range mbr 458 4 = le32 (Z.min 0xFFFFFFFF (total - 1)) /\ range mbr 510 2 = [x55; xaa].

Definition mbrWrites (size32 : Z) : list write :=
  [(446, [x00; x00; x02; x00; xee; xff; xff; xff]); (446 + 8, le32 1); (446 + 12, le32 size32); (510, [x55; xaa])].
Lemma mbrWrites_protects total b : len b = 512 ->
  let ws := mbrWrites (Z.min 0xFFFFFFFF (total - 1)) in
  Forall (fits (len b)) ws /\ len (fold_left spl ws b) = 512 /\ protects (fold_left spl ws b) total.
Proof.
  intros Hb ws. assert (Forall (fits (len b)) ws) as Hf by (rewrite Hb; unfold ws, mbrWrites; go_writes). split; [done|].
  split; [by rewrite len_chain|]. split_and!.
  - rewrite <- (range_range _ 446 8 4 1) by lia.
    rewrite (range_chain 0 ws b 446 [x00; x00; x02; x00; xee; xff; xff; xff]); [done..|unfold ws, mbrWrites; go_writes].
  - by apply (range_chain 1 _ b); [..|unfold ws, mbrWrites; go_writes].
  - by apply (range_chain 2 _ b); [..|unfold ws, mbrWrites; go_writes].
  - by apply (range_chain 3 _ b); [..|unfold ws, mbrWrites; go_writes].
Qed.
Lemma writeMBR_ok total mbr : len mbr = 512 -> 0 < total ->
  exists mbr', writeMBR total mbr = Ok mbr' /\ len mbr' = 512 /\ protects mbr' total.
Proof.
  intros Hm Ht. set (size32 := if negb (u32 (total - 1) =? total - 1) then 0xFFFFFFFF else u32 (total - 1)).
  assert (size32 = Z.min 0xFFFFFFFF (total - 1)) as Hs.
  { unfold size32. destruct (Z.eqb_spec (u32 (total - 1)) (total - 1)) as [E|E]; cbn [negb]; [pose proof (u32_range (total - 1)) as Hr; unfold isU32 in Hr; rewrite E in *; lia|].
    destruct (Z.lt_ge_cases (total - 1) (2 ^ 32)) as [Hlt|]; [rewrite u32_small in E by (unfold isU32; lia); lia|lia]. }
  change (writeMBR total mbr) with (let* b := put mbr 446 [x00; x00; x02; x00; xee; xff; xff; xff] in
    let* b := put b (446 + 8) (le32 1) in let* b := put b (446 + 12) (le32 size32) in put b 510 [x55; xaa]).
  rewrite Hs. destruct (mbrWrites_protects total mbr Hm) as (Hf & Hl & Hp).
  exists (fold_left spl (mbrWrites (Z.min 0xFFFFFFFF (total - 1))) mbr). split; [|split; done].
  rewrite <- (puts_chain _ (fun b => Ok b) mbr Hf). cbn [fold_right mbrWrites fst snd]. destruct (put mbr _ _) as [b1| |]; [|done..]. cbn [out_bind].
  destruct (put b1 _ _) as [b2| |]; [|done..]. cbn [out_bind]. destruct (put b2 _ _) as [b3| |]; [|done..]. cbn [out_bind]. by destruct (put b3 _ _).
Qed.

(** A header that the firmware accepts: its checksum is that of its 92 bytes with
    the checksum's own field zero. *)
Definition headerChecks (h : list byte) : Prop :=
  range h 16 4 = le32 (ChecksumIEEE (range h 0 16 ++ make 4 ++ range h 20 72)).

(** The fields of a header. *)
Definition describes (h : list byte) (my alt lastU partLBA crc : Z) (guid : list byte) : Prop :=
  range h 0 8 = str "EFI PART" /\ range h 24 8 = le64 my /\ range h 32 8 = le64 alt /\ range h 40 8 = le64 34 /\ range h 48 8 = le64 lastU /\
  range h 56 16 = guid /\ range h 72 8 = le64 partLBA /\ range h 80 4 = le32 128 /\ range h 84 4 = le32 128 /\ range h 88 4 = le32 crc.

Definition headerWrites (a : gptHeaderArgs) : list write :=
  [(0, str "EFI PART"); (8, le32 0x00010000); (12, le32 92); (20, le32 0); (24, le64 (ga_myLBA a)); (32, le64 (ga_alternateLBA a));
   (40, le64 (ga_firstUsableLBA a)); (48, le64 (ga_lastUsableLBA a)); (56, ga_diskGUID a); (72, le64 (ga_partitionEntryLBA a));
   (80, le32 gptPartEntryCount); (84, le32 gptPartEntrySize); (88, le32 (ga_partitionEntryCRC a))].

Lemma writeGPTHeader_ok a hdr :
  len hdr = 512 -> range hdr 16 4 = make 4 -> len (ga_diskGUID a) = 16 -> ga_firstUsableLBA a = 34 ->
  exists h, writeGPTHeader a hdr = Ok h /\ len h = 512 /\ headerChecks h /\
    describes h (ga_myLBA a) (ga_alternateLBA a) (ga_lastUsableLBA a) (ga_partitionEntryLBA a) (ga_partitionEntryCRC a) (ga_diskGUID a).
Proof.
  intros Hh Hz Hg Hfu. change (writeGPTHeader a hdr) with
    (fold_right (fun w k b => let* b := put b (fst w) (snd w) in k b)
      (fun hdr => let* body := sliceTo hdr 92 in put hdr 16 (le32 (ChecksumIEEE body))) (headerWrites a) hdr).
  assert (Forall (fits (len hdr)) (headerWrites a)) as Hf by (rewrite Hh; unfold headerWrites; go_writes).
  rewrite puts_chain by done. pose proof (len_chain _ _ Hf) as Hl. rewrite Hh in Hl.
  assert (forall i off w n, headerWrites a !! i = Some (off, w) -> n = len w -> Forall (apart off n) (drop (S i) (headerWrites a)) ->
    range (fold_left spl (headerWrites a) hdr) off n = w) as Hr by (intros; by eapply range_chain).
  assert (range (fold_left spl (headerWrites a) hdr) 16 4 = make 4) as Hzero.
  { rewrite range_chain_apart; [done|lia|lia|done|unfold headerWrites; go_writes]. }
  set (hl := fold_left _ _ _) in *.
  assert (take (Z.to_nat (92 - 0)) (drop (Z.to_nat 0) hl) = range hl 0 16 ++ make 4 ++ range hl 20 72) as Ebody.
  { rewrite <- Hzero. fold (range hl 0 (92 - 0)). change (92 - 0) with (16 + (4 + 72)). by rewrite !range_split by lia. }
  unfold sliceTo. rewrite slice_ok by lia. cbn [out_bind]. rewrite Ebody.
  rewrite put_splice by (rewrite ?len_le32; lia). set (crc := ChecksumIEEE _).
  assert (range (splice hl 16 (le32 crc)) 0 16 = range hl 0 16) as E1 by (apply range_splice_before; lia).
  assert (range (splice hl 16 (le32 crc)) 20 72 = range hl 20 72) as E2 by (apply range_splice_after; rewrite ?len_le32; lia).
  assert (forall off n, 20 <= off -> range (splice hl 16 (le32 crc)) off n = range hl off n) as E3 by (intros; apply range_splice_after; rewrite ?len_le32; lia).
  eexists. split; [reflexivity|]. split; [rewrite len_splice; rewrite ?len_le32; lia|]. split.
  - unfold headerChecks. rewrite E1, E2, range_splice_same by (rewrite ?len_le32; lia). done.
  - split; [rewrite range_splice_before by lia; by apply (Hr 0%nat); [..|unfold headerWrites; go_writes]|]. rewrite <- Hfu, !E3 by lia.
    split_and!; [apply (Hr 4%nat)|apply (Hr 5%nat)|apply (Hr 6%nat)|apply (Hr 7%nat)|apply (Hr 8%nat)|apply (Hr 9%nat)|apply (Hr 10%nat)|apply (Hr 11%nat)|apply (Hr 12%nat)];
      done || (unfold headerWrites; go_writes).
Qed.

(** ** The layout *)

Definition zeroGpt : gptEntry := mkGpt (make 16) (make 16) 0 0.

(** The first UFS block: the next multiple of 1 MiB after the FAT image. *)
Definition ufsStart (F : Z) : Z := (F + 64 + 2047) / 2048 * 2048.
Lemma ufsStart_after F : 0 < F -> F + 64 <= ufsStart F < F + 64 + 2048.
Proof. intros. unfold ufsStart. Z.to_euclidean_division_equations. lia. Qed.

Lemma layoutFor_none fat : len fat < 2 ^ 62 ->
  layoutFor fat None = mkLayout 64 (63 + len fat / 512) 0 0 (len fat / 512 + 97).
Proof.
  intros Hf. pose proof (len_nonneg fat). assert (0 <= len fat / 512 < 2 ^ 62) by (Z.to_euclidean_division_equations; lia).
  unfold layoutFor, dataStartLBA, sectorSize. change gptPartArraySector with 32. rewrite (u64_small (64 + len fat / 512 - 1)) by lia. cbv zeta.
  rewrite u64_small by lia. f_equal; lia.
Qed.
Lemma layoutFor_some fat u : len fat + len u < 2 ^ 62 -> 0 < len fat / 512 ->
  let us := ufsStart (len fat / 512) in
  layoutFor fat (Some u) = mkLayout 64 (63 + len fat / 512) us (us + len u / 512 - 1) (us + len u / 512 + 33).
Proof.
  intros Hf HF us. pose proof (len_nonneg fat). pose proof (len_nonneg u). pose proof (ufsStart_after _ HF) as Hus. fold us in Hus.
  assert (len fat / 512 + len u / 512 < 2 ^ 62 /\ 0 <= len u / 512) as [Hs HU] by (Z.to_euclidean_division_equations; lia).
  unfold layoutFor, dataStartLBA, sectorSize. change gptPartArraySector with 32. change (2 ^ 20 / 512) with 2048. cbv zeta.
  rewrite (u64_small (64 + len fat / 512 - 1)) by lia. replace (64 + len fat / 512 - 1 + 1 + 2048 - 1) with (len fat / 512 + 64 + 2047) by lia.
  rewrite (u64_small (len fat / 512 + 64 + 2047)) by lia. fold (ufsStart (len fat / 512)). fold us. rewrite (u64_small us) by lia.
  rewrite (u64_small (us + len u / 512 - 1)) by lia. rewrite u64_small by lia. f_equal; lia.
Qed.

Section image.
Variable Sum256 : list byte -> list byte.

(** The second entry. *)
Definition ufsGpt (guid : list byte) (lo : diskLayout) (u : option (list byte)) : gptEntry :=
  match u with None => zeroGpt | Some _ => mkGpt freebsdUFSTypeGUID guid (lo_ufsStart lo) (lo_ufsEnd lo) end.
Definition espEntries (espGUID ufsGUID : list byte) (lo : diskLayout) (u : option (list byte)) : list gptEntry :=
  mkGpt efiSystemPartitionGUID espGUID (lo_espStart lo) (lo_espEnd lo) :: ufsGpt ufsGUID lo u :: repeat zeroGpt 126.

Lemma writeParts_ok lo espGUID u : len espGUID = 16 ->
  exists ufsGUID p, len ufsGUID = 16 /\ writeParts Sum256 lo espGUID u (make 16384) = Ok p /\ len p = 16384 /\
    forall i e, espEntries espGUID ufsGUID lo u !! i = Some e -> range p (Z.of_nat i * 128) 48 = encGpt e.
Proof.
  intros Hg. unfold writeParts.
  destruct (writeEntry_ok efiSystemPartitionGUID espGUID (lo_espStart lo) (lo_espEnd lo) (str "EFI System") (make 128)) as (e0 & E0 & Hl0 & Hr0); [done..|].
  rewrite (inWindow_splice (make 16384) 0 128 _ e0); [|lia|lia|rewrite len_make; lia|by rewrite range_make by lia|done]. cbn [out_bind].
  set (p0 := splice (make 16384) 0 e0). assert (len p0 = 16384) as Hp0 by (unfold p0; rewrite len_splice; rewrite ?Hl0, ?len_make; lia).
  assert (forall i, 1 <= i -> i < 128 -> range p0 (i * 128) 128 = make 128) as Hz.
  { intros i Hi1 Hi2. unfold p0. rewrite range_splice_after by (rewrite ?Hl0, ?len_make; lia). apply range_make; lia. }
  assert (range p0 0 48 = encGpt (mkGpt efiSystemPartitionGUID espGUID (lo_espStart lo) (lo_espEnd lo))) as He0.
  { unfold p0. rewrite range_splice_in by (rewrite ?Hl0, ?len_make; lia). exact Hr0. }
  assert (forall p i, 1 <= i -> range p (i * 128) 128 = make 128 -> range p (i * 128) 48 = encGpt zeroGpt) as Hzero.
  { intros p i Hi Hr. pose proof (range_range p (i * 128) 128 0 48 ltac:(lia) ltac:(lia) ltac:(lia) ltac:(lia)) as E. rewrite Z.add_0_r, Hr in E. rewrite <- E. by vm_compute. }
  assert (forall p i e, (forall k, 2 <= k -> k < 128 -> range p (k * 128) 128 = make 128) ->
    espEntries espGUID (make 16) lo u !! S (S i) = Some e -> range p (Z.of_nat (S (S i)) * 128) 48 = encGpt e) as Hrest.
  { intros p i e Hk Hi. unfold espEntries in Hi. cbn [lookup list_lookup] in Hi. change (list_lookup i (repeat zeroGpt 126)) with (repeat zeroGpt 126 !! i) in Hi.
    pose proof Hi as Hlt%lookup_lt_Some. rewrite repeat_length in Hlt. apply list_elem_of_lookup_2, list_elem_of_In, repeat_spec in Hi as ->.
    apply Hzero; [lia|]. apply Hk; lia. }
  destruct u as [u|].
  - destruct (uuid_ok (take 16 (Sum256 u))) as (g & -> & Hgu). cbn [out_bind]. exists g.
    destruct (writeEntry_ok freebsdUFSTypeGUID g (lo_ufsStart lo) (lo_ufsEnd lo) (str "FreeBSD-UFS") (make 128)) as (e1 & E1 & Hl1 & Hr1); [done..|].
    unfold gptPartEntrySize. change (128 * 2) with 256.
    rewrite (inWindow_splice p0 128 256 _ e1); [|lia|lia|lia|by rewrite (Hz 1 ltac:(lia) ltac:(lia) : range p0 128 (256 - 128) = _)|done].
    eexists. split; [done|]. split; [reflexivity|]. split; [rewrite len_splice; lia|]. intros [|[|i]] e.
    + intros [= <-]. rewrite range_splice_before by lia. exact He0.
    + intros [= <-]. rewrite range_splice_in by lia. exact Hr1.
    + apply Hrest. intros k Hk1 Hk2. rewrite range_splice_after by lia. apply Hz; lia.
  - exists (make 16), p0. split; [done|]. split; [done|]. split; [done|]. intros [|[|i]] e.
    + intros [= <-]. exact He0.
    + intros [= <-]. apply (Hzero p0 1); [lia|]. apply Hz; lia.
    + apply Hrest. intros k Hk1 Hk2. apply Hz; lia.
Qed.

(** The writes that make the image. *)
Definition imageWrites (fat : list byte) (u : option (list byte)) (lo : diskLayout) (mbr parts h1 h2 : list byte) : list write :=
  [(0, mbr); (1024, parts); (512, h1); (64 * 512, fat)] ++
  (match u with None => [] | Some b => [(lo_ufsStart lo * 512, b)] end) ++
  [((lo_total lo - 33) * 512, parts); ((lo_total lo - 1) * 512, h2)].

(** Room for everything, in order. *)
Definition roomy (fat : list byte) (u : option (list byte)) (lo : diskLayout) : Prop :=
  lo_espStart lo = 64 /\ lo_espEnd lo = 63 + len fat / 512 /\ lo_total lo < 2 ^ 54 /\
  (64 * 512 + len fat <= (lo_total lo - 33) * 512) /\
  match u with
  | None => True
  | Some b => 64 * 512 + len fat <= lo_ufsStart lo * 512 /\ lo_ufsStart lo * 512 + len b <= (lo_total lo - 33) * 512 /\
      lo_ufsEnd lo = lo_ufsStart lo + len b / 512 - 1
  end.

Definition inputsOk (fat : list byte) (u : option (list byte)) : Prop :=
  0 < len fat /\ len fat mod 512 = 0 /\ len fat < 2 ^ 61 /\
  match u with None => True | Some b => 0 < len b < 2 ^ 61 /\ len b mod 512 = 0 end.

Lemma layoutFor_roomy fat u : inputsOk fat u -> roomy fat u (layoutFor fat u).
Proof.
  intros (H1 & H2 & H3 & Hu). assert (512 * (len fat / 512) = len fat) as Hf by (Z.to_euclidean_division_equations; lia). unfold roomy. destruct u as [b|].
  - destruct Hu as [Hb1 Hb2]. assert (512 * (len b / 512) = len b) as Hb by (Z.to_euclidean_division_equations; lia).
    rewrite layoutFor_some by lia. cbn [lo_espStart lo_espEnd lo_total lo_ufsStart lo_ufsEnd].
    pose proof (ufsStart_after (len fat / 512) ltac:(lia)). split_and!; lia.
  - rewrite layoutFor_none by lia. cbn [lo_espStart lo_espEnd lo_total]. split_and!; lia || done.
Qed.

(** The copies as writes. *)
Lemma copyAt_spl b lo hi w : 0 <= lo -> lo + len w <= hi -> hi <= len b -> copyAt b lo hi w = Ok (spl b (lo, w)).
Proof. apply copyAt_splice. Qed.
Lemma inWindow_spl b lo hi f w :
  0 <= lo -> lo <= hi -> hi <= len b -> f (range b lo (hi - lo)) = Ok w -> len w = hi - lo -> inWindow b lo hi f = Ok (spl b (lo, w)).
Proof. apply inWindow_splice. Qed.
Lemma len_spl b lo w : 0 <= lo -> lo + len w <= len b -> len (spl b (lo, w)) = len b.
Proof. apply len_splice. Qed.

(** The optional copy. *)
Lemma copy_optional b off u :
  match u with None => True | Some w => 0 <= off /\ off + len w <= len b end ->
  match u with None => Ok b | Some w => copyAt b off (len b) w end =
  Ok (fold_left spl (match u with None => [] | Some w => [(off, w)] end) b).
Proof. destruct u as [w|]; [|done]. intros [? ?]. rewrite copyAt_spl by lia. reflexivity. Qed.

Lemma chain4 b w1 w2 w3 w4 ws : fold_left spl ([w1; w2; w3; w4] ++ ws) b = fold_left spl ws (spl (spl (spl (spl b w1) w2) w3) w4).
Proof. reflexivity. Qed.

Lemma buildImage_writes fat u : inputsOk fat u ->
  let lo := layoutFor fat u in
  exists espGUID ufsGUID mbr parts h1 h2,
    let ws := imageWrites fat u lo mbr parts h1 h2 in
    buildImage Sum256 fat u = Ok (fold_left spl ws (make (lo_total lo * 512))) /\
    Forall (fits (lo_total lo * 512)) ws /\ len espGUID = 16 /\ len ufsGUID = 16 /\
    len mbr = 512 /\ protects mbr (lo_total lo) /\ len parts = 16384 /\
    (forall i e, espEntries espGUID ufsGUID lo u !! i = Some e -> range parts (Z.of_nat i * 128) 48 = encGpt e) /\
    len h1 = 512 /\ len h2 = 512 /\ headerChecks h1 /\ headerChecks h2 /\
    exists guid, uuidV4FromBytes (take 16 (Sum256 fat)) = Ok guid /\
      describes h1 1 (lo_total lo - 1) (lo_total lo - 34) 2 (ChecksumIEEE parts) guid /\
      describes h2 (lo_total lo - 1) 1 (lo_total lo - 34) (lo_total lo - 33) (ChecksumIEEE parts) guid.
Proof.
  intros Hin lo. pose proof (layoutFor_roomy fat u Hin) as Hroom. fold lo in Hroom. destruct Hin as (Hf1 & Hf2 & Hf3 & Hu).
  destruct Hroom as (Hes & Hee & Ht & Hend & Hur).
  set (T := lo_total lo) in *. set (b0 := make (T * 512)). assert (len b0 = T * 512) as Hb0 by (unfold b0; rewrite len_make; lia).
  destruct (uuid_ok (take 16 (Sum256 fat))) as (dg & Edg & Hdg). destruct (uuid_ok (drop 16 (Sum256 fat))) as (eg & Eeg & Heg).
  destruct (writeMBR_ok T (range b0 0 512)) as (mbr & Em & Hm & Hsig); [rewrite len_range; lia|lia|].
  destruct (writeParts_ok lo eg u Heg) as (ug & parts & Hug & Ep & Hp & Hents).
  set (a1 := mkGptArgs 1 (T - 1) firstUsableLBA (T - 1 - 1 - 32) dg 2 (ChecksumIEEE parts)).
  set (a2 := mkGptArgs (T - 1) 1 firstUsableLBA (T - 1 - 1 - 32) dg (T - 1 - 32) (ChecksumIEEE parts)).
  destruct (writeGPTHeader_ok a1 (make 512)) as (h1 & Eh1 & Hh1 & Hc1 & Hd1); [done..|].
  destruct (writeGPTHeader_ok a2 (make 512)) as (h2 & Eh2 & Hh2 & Hc2 & Hd2); [done..|].
  exists eg, ug, mbr, parts, h1, h2. set (ws := imageWrites fat u lo mbr parts h1 h2).
  assert (Forall (fits (T * 512)) ws) as Hfits.
  { unfold ws, imageWrites. fold T. destruct u as [b|]; cbn [app]; go_writes. }
  split; [|cbn [ga_myLBA ga_alternateLBA ga_lastUsableLBA ga_partitionEntryLBA ga_partitionEntryCRC ga_diskGUID a1 a2] in *;
    replace (T - 33) with (T - 1 - 32) by lia; replace (T - 34) with (T - 1 - 1 - 32) by lia;
    repeat (split; [assumption|]); exists dg; split; [exact Edg|split; [exact Hd1|exact Hd2]]].
  assert (0 < len fat / 512) as HF by (Z.to_euclidean_division_equations; lia).
  unfold buildImage, sectorSize. rewrite Hf2. change (negb (0 =? 0)) with false. rewrite (proj2 (Z.eqb_neq (len fat / 512) 0)) by lia.
  rewrite Edg, Eeg. cbn [out_bind]. fold lo. fold T. cbv zeta. change gptPartArraySector with 32. change gptPartArrayBytes with 16384.
  rewrite s64_small by lia. fold b0. change (2 * 512) with 1024. change (1024 + 16384) with 17408.
  rewrite (inWindow_spl b0 0 512 _ mbr); [|lia..|exact Em|lia]. cbn [out_bind].
  set (b1 := spl b0 (0, mbr)). assert (len b1 = T * 512) as Hb1 by (unfold b1; rewrite len_spl; lia).
  assert (range b1 1024 (17408 - 1024) = make 16384) as Hr1.
  { unfold b1, spl. cbn [fst snd]. rewrite range_splice_after by lia. apply range_make; lia. }
  rewrite (inWindow_spl b1 1024 17408 _ parts); [|lia..|by rewrite Hr1|lia]. cbn [out_bind].
  set (b2 := spl b1 (1024, parts)). assert (len b2 = T * 512) as Hb2 by (unfold b2; rewrite len_spl; lia).
  rewrite slice_range by lia. cbn [out_bind].
  replace (range b2 1024 (17408 - 1024)) with parts by (symmetry; apply range_splice_same; cbn [fst snd]; lia). fold a1.
  assert (range b2 512 (1024 - 512) = make 512) as Hr2.
  { unfold b2, b1, spl. cbn [fst snd]. rewrite range_splice_before, range_splice_after by (rewrite ?len_splice; lia). apply range_make; lia. }
  rewrite (inWindow_spl b2 512 1024 _ h1); [|lia..|by rewrite Hr2|lia]. cbn [out_bind].
  set (b3 := spl b2 (512, h1)). assert (len b3 = T * 512) as Hb3 by (unfold b3; rewrite len_spl; lia).
  rewrite Hes, Hb3, copyAt_spl by lia. cbn [out_bind].
  set (b4 := spl b3 (64 * 512, fat)). assert (len b4 = T * 512) as Hb4 by (unfold b4; rewrite len_spl; lia).
  rewrite (copy_optional b4); [|rewrite Hb4; clear -Hur Ht Hf1; destruct u as [b|]; [lia|exact I]].
  cbn [out_bind]. set (b5 := fold_left spl _ b4).
  assert (b5 = fold_left spl ([(0, mbr); (1024, parts); (512, h1); (64 * 512, fat)] ++ match u with None => [] | Some b => [(lo_ufsStart lo * 512, b)] end) b0)
    as E5 by (rewrite chain4; reflexivity).
  unfold ws, imageWrites in Hfits |- *. rewrite app_assoc in Hfits |- *. apply Forall_app in Hfits as [Hfits5 Hfits7]. rewrite <- Hb0 in Hfits5.
  assert (len b5 = T * 512) as Hb5 by (rewrite E5, len_chain by done; done). fold T. rewrite fold_left_app, <- E5.
  assert (range b5 1024 (17408 - 1024) = parts) as Hparts.
  { rewrite E5. apply (range_chain 1); [done|lia|done|]. cbn [drop app]. destruct u as [b|]; go_writes. }
  rewrite slice_range by lia. cbn [out_bind]. rewrite Hparts.
  rewrite copyAt_spl by lia. cbn [out_bind]. replace (T - 1 - 32) with (T - 33) by lia. cbn [fold_left].
  set (b6 := spl b5 ((T - 33) * 512, parts)). assert (len b6 = T * 512) as Hb6 by (unfold b6; rewrite len_spl; lia).
  assert (range b6 ((T - 1) * 512) ((T - 1 + 1) * 512 - (T - 1) * 512) = make 512) as Hr6.
  { replace ((T - 1 + 1) * 512 - (T - 1) * 512) with 512 by lia. unfold b6, spl. cbn [fst snd]. rewrite range_splice_after by lia. rewrite E5.
    rewrite range_chain_apart; [apply range_make; lia|lia|lia|done|]. destruct u as [b|]; cbn [app]; go_writes. }
  rewrite (inWindow_spl b6 _ _ _ h2); [done|lia..| |lia]. rewrite Hr6. unfold a2 in Eh2. by replace (T - 33) with (T - 1 - 32) by lia.
Qed.

Definition ufsRange (lo : diskLayout) (u : option (list byte)) (img : list byte) : Prop :=
  match u with None => True | Some b => range img (lo_ufsStart lo * 512) (len b) = b end.

(** Where everything is. *)
Lemma imageWrites_ranges fat u lo mbr parts h1 h2 :
  roomy fat u lo -> len mbr = 512 -> len parts = 16384 -> len h1 = 512 -> len h2 = 512 ->
  let ws := imageWrites fat u lo mbr parts h1 h2 in
  Forall (fits (lo_total lo * 512)) ws ->
  let img := fold_left spl ws (make (lo_total lo * 512)) in
  len img = lo_total lo * 512 /\ range img 0 512 = mbr /\ range img 1024 16384 = parts /\ range img 512 512 = h1 /\
  range img (64 * 512) (len fat) = fat /\ range img ((lo_total lo - 33) * 512) 16384 = parts /\
  range img ((lo_total lo - 1) * 512) 512 = h2 /\ ufsRange lo u img.
Proof.
  intros (_ & _ & Ht & Hend & Hur) Hm Hp H1 H2 ws Hfits. pose proof (len_nonneg fat) as Hf0.
  assert (len (make (lo_total lo * 512)) = lo_total lo * 512) as Hb0 by (rewrite len_make; lia). rewrite <- Hb0 in Hfits at 1.
  split; [by rewrite len_chain|]. unfold ws, imageWrites in *. clear ws.
  destruct u as [b|]; cbn [app] in *; [destruct Hur as (Hu1 & Hu2 & _); pose proof (len_nonneg b)|];
    (split_and!; [apply (range_chain 0)|apply (range_chain 1)|apply (range_chain 2)|apply (range_chain 3)| | |]);
    try done; try lia; try (go_writes; fail).
  - apply (range_chain 5); [done|lia|done|]. go_writes.
  - apply (range_chain 6); [done|lia|done|]. go_writes.
  - apply (range_chain 4); [done|done|done|]. go_writes.
  - apply (range_chain 4); [done|lia|done|]. go_writes.
  - apply (range_chain 5); [done|lia|done|]. go_writes.
Qed.

Lemma ufsEntry_esp espGUID ufsGUID lo u :
  ufsEntry (espEntries espGUID ufsGUID lo u) =
    match u with None => None | Some _ => Some (mkGpt freebsdUFSTypeGUID ufsGUID (lo_ufsStart lo) (lo_ufsEnd lo)) end.
Proof.
  unfold ufsEntry, espEntries. cbn [list_find]. rewrite decide_False by done. destruct u as [b|]; cbn [ufsGpt].
  - by rewrite decide_True.
  - rewrite decide_False by done. by vm_compute.
Qed.

Lemma espEntries_wf espGUID ufsGUID fat u lo :
  inputsOk fat u -> roomy fat u lo -> 0 <= lo_ufsStart lo -> len espGUID = 16 -> len ufsGUID = 16 -> Forall wfGpt (espEntries espGUID ufsGUID lo u).
Proof.
  intros (Hf1 & Hf2 & Hf3 & Hu) (Hes & Hee & Ht & Hend & Hur) Hus He Hg.
  assert (512 * (len fat / 512) = len fat) as Hf by (Z.to_euclidean_division_equations; lia).
  unfold espEntries. apply Forall_cons. split; [|apply Forall_cons; split].
  - unfold wfGpt. cbn [ge_type ge_guid ge_start ge_end]. split_and!; [done|done|lia..].
  - unfold wfGpt. destruct u as [b|]; cbn [ufsGpt ge_type ge_guid ge_start ge_end zeroGpt]; [|by vm_compute].
    destruct Hur as (Hu1 & Hu2 & Hue), Hu as [Hb1 Hb2]. assert (512 * (len b / 512) = len b) as Hb by (Z.to_euclidean_division_equations; lia).
    split_and!; [done|done|lia..].
  - apply Forall_forall. intros e He0. apply list_elem_of_In, repeat_spec in He0 as ->. by vm_compute.
Qed.

(** C7. A FAT image, and a UFS image if there is one, of whole blocks give a disk of
    whole blocks: a protective MBR over the whole disk; a table of 128 entries, of
    which the first is the system partition that holds the FAT image, the second
    the UFS image's or empty, and the rest empty; the same table at the disk's end;
    and two headers, in the second and the last block, that check out and say where
    they, each other, their table and the usable blocks are, with the table's checksum
    and one disk GUID, made of the FAT image's hash.  The boot program finds in the
    disk exactly the UFS image, or that there is none. *)
Theorem esp_image_boots fat u :
  inputsOk fat u ->
  exists img es parts guid, buildImage Sum256 fat u = Ok img /\ len img mod 512 = 0 /\ protects (range img 0 512) (len img / 512) /\
    gptOn img 2 128 es /\ es !! 0%nat <> None /\
    (forall e, es !! 0%nat = Some e -> ge_type e = efiSystemPartitionGUID /\ ge_start e = 64 /\
       range img (ge_start e * 512) ((ge_end e + 1 - ge_start e) * 512) = fat) /\
    (u = None -> es !! 1%nat = Some zeroGpt) /\ drop 2 es = repeat zeroGpt 126 /\
    findUFSPartitionBytes img = match u with None => Err ErrNoUFSPartition | Some b => Ok b end /\
    range img 1024 16384 = parts /\ range img (len img - 33 * 512) 16384 = parts /\
    uuidV4FromBytes (take 16 (Sum256 fat)) = Ok guid /\
    (let last := len img / 512 - 1 in
     headerChecks (range img 512 512) /\ describes (range img 512 512) 1 last (last - 33) 2 (ChecksumIEEE parts) guid /\
     headerChecks (range img (last * 512) 512) /\ describes (range img (last * 512) 512) last 1 (last - 33) (last - 32) (ChecksumIEEE parts) guid).
Proof.
  intros Hin. pose proof (layoutFor_roomy fat u Hin) as Hroom.
  destruct (buildImage_writes fat u Hin) as (eg & ug & mbr & parts & h1 & h2 & Hb & Hfits & Heg & Hug & Hm & Hsig & Hp & Hents & Hh1 & Hh2 & Hc1 & Hc2 & guid & Hguid & Hd1 & Hd2).
  pose proof Hd1 as (Hm1 & _ & _ & _ & _ & _ & Hl1 & Hn1 & Hs1 & Hcrc1).
  set (lo := layoutFor fat u) in *. destruct (imageWrites_ranges fat u lo mbr parts h1 h2 Hroom Hm Hp Hh1 Hh2 Hfits) as (Hlen & Rm & Rp & Rh1 & Rfat & Rbp & Rh2 & Rufs).
  set (img := fold_left spl _ _) in *. set (es := espEntries eg ug lo u). set (T := lo_total lo) in *.
  pose proof Hroom as (Hes & Hee & Ht & Hend & Hur). fold T in Ht, Hend, Hur. pose proof Hin as (Hf1 & Hf2 & Hf3 & Hu).
  assert (512 * (len fat / 512) = len fat) as Hf by (Z.to_euclidean_division_equations; lia).
  assert (0 <= lo_ufsStart lo) as Hus. { destruct u as [b|]; [lia|]. unfold lo. rewrite layoutFor_none by lia. done. }
  assert (forall off n, 0 <= off -> 0 <= n -> off + n <= 512 -> range img (512 + off) n = range h1 off n) as Rh.
  { intros off n H1 H2 H3. rewrite <- Rh1, range_range by lia. done. }
  assert (gptOn img 2 128 es) as Hon.
  { unfold gptOn. rewrite Hlen. change (len es) with 128. split_and!; try lia.
    - rewrite <- Hm1. apply (Rh 0 8); lia.
    - rewrite Rh by lia. exact Hl1.
    - rewrite Rh by lia. exact Hn1.
    - rewrite Rh by lia. exact Hs1.
    - by apply (espEntries_wf eg ug fat u lo).
    - intros i e Hi. pose proof Hi as Hlt%lookup_lt_Some. change (length es) with 128%nat in Hlt.
      rewrite <- (Hents i e Hi), <- Rp, range_range by lia. done. }
  exists img, es, parts, guid. split; [done|]. split; [rewrite Hlen; apply Z.mod_mul; lia|]. assert (len img / 512 = T) as HT by (rewrite Hlen; apply Z.div_mul; lia).
  rewrite HT. split; [by rewrite Rm|]. split; [done|]. split; [done|]. split.
  { intros e [= <-]. cbn [ge_type ge_start ge_end]. split; [done|]. split; [done|]. rewrite Hes, Hee. etransitivity; [|exact Rfat]. f_equal. lia. }
  split; [by intros ->|]. split; [done|]. split.
  { rewrite (find_ufs_spec img 2 128 es Hon).
    - unfold es. rewrite ufsEntry_esp. destruct u as [b|]; [|done]. cbn [ge_start ge_end]. destruct Hur as (Hu1 & Hu2 & Hue), Hu as [Hb1 Hb2].
      assert (512 * (len b / 512) = len b) as Hbd by (Z.to_euclidean_division_equations; lia).
      assert (lo_ufsStart lo <= lo_ufsEnd lo /\ (lo_ufsEnd lo + 1) * 512 <= len img) as [Hc1' Hc2'] by (clear -Hue Hbd Hb1 Hu2 Hlen; lia).
      rewrite (proj2 (Z.ltb_ge _ _) Hc1'), (proj2 (Z.ltb_ge _ _) Hc2'). cbn [orb]. f_equal. etransitivity; [|exact Rufs]. f_equal. lia.
    - intros e He. unfold es in He. rewrite ufsEntry_esp in He. destruct u as [b|]; [|done]. apply (inj Some) in He as <-. cbn [ge_start ge_end].
      destruct Hur as (Hu1 & Hu2 & Hue), Hu as [Hb1 Hb2]. assert (512 * (len b / 512) = len b) as Hbd by (Z.to_euclidean_division_equations; lia).
      clear -Hue Hbd Hb1 Hu2 Ht. split; lia. }
  rewrite Hlen. split; [done|]. split; [by replace (T * 512 - 33 * 512) with ((T - 33) * 512) by lia|]. split; [done|].
  cbv zeta. rewrite Rh1, Rh2. replace (T - 1 - 33) with (T - 34) by lia. replace (T - 1 - 32) with (T - 33) by lia. done.
Qed.
End image.

(** A digest for demonstrations. *)
Definition toySum (b : list byte) : list byte := repeat (z2b (len b)) 32.

Lemma esp_image_boots_witness :
  exists img, buildImage toySum (make 512) (Some (repeat x41 1024)) = Ok img /\ range img 450 1 = [xee] /\
    findUFSPartitionBytes img = Ok (repeat x41 1024) /\ headerChecks (range img 512 512).
Proof.
  destruct (esp_image_boots toySum (make 512) (Some (repeat x41 1024))) as (img & es & parts & guid & Hb & _ & Hp & _ & _ & _ & _ & _ & Hu & _ & _ & _ & Hh).
  - split; [reflexivity|]. split; [reflexivity|]. split; [reflexivity|]. split; [split; reflexivity|reflexivity].
  - exists img. split; [exact Hb|]. split; [change (range img (0 + 450) 1 = [xee]); rewrite <- (range_range img 0 512 450 1) by lia; apply Hp|]. split; [exact Hu|apply Hh].
Defined.

(** ** Sizes *)

(** A requested size is rounded up to whole MiB; without one the size is 48 MiB
    whatever the tar holds: the multiplier is zero, although the flag's text
    promises four times the tar's size and the comment twice. *)
Lemma ufsPartitionSize_spec tarLen ufsSize :
  0 <= ufsSize < 2 ^ 62 ->
  ufsPartitionSize tarLen 0 = minUFSBytes /\
  (0 < ufsSize -> ufsPartitionSize tarLen ufsSize mod 2 ^ 20 = 0 /\ ufsSize <= ufsPartitionSize tarLen ufsSize < ufsSize + 2 ^ 20).
Proof.
  intros Hs. split.
  - unfold ufsPartitionSize, ufsHeadroomMult. rewrite Z.mul_0_r. reflexivity.
  - intros Hp. unfold ufsPartitionSize. rewrite (proj2 (Z.eqb_neq ufsSize 0)) by lia. cbv zeta. change (1024 * 1024) with 1048576. change (2 ^ 20) with 1048576.
    rewrite Z.rem_mod_nonneg by lia. destruct (Z.eqb_spec (ufsSize mod 1048576) 0) as [E|E]; [split; lia|].
    rewrite s64_small by (pose proof (Z.mod_pos_bound ufsSize 1048576); lia). split; Z.to_euclidean_division_equations; lia.
Qed.

(** A write inside the buffer is read back, and the rest is as it was. *)
Lemma WriteAt_ok b p off :
  0 <= off -> off + len p <= len b -> len b < 2 ^ 63 ->
  exists b', WriteAt b p off = Ok ((len p, None), b') /\ len b' = len b /\ ReadAt b' (len p) off = (p, if (len b <=? off) then Some ErrEOF else None) /\
    forall o n, 0 <= o -> 0 <= n -> o + n <= off \/ off + len p <= o -> range b' o n = range b o n.
Proof.
  intros Ho Hl Hb. pose proof (len_nonneg p). assert (take (Z.to_nat off) b ++ copy (drop (Z.to_nat off) b) p = splice b off p) as E.
  { unfold splice, copy. f_equal. rewrite Nat.min_r by (rewrite length_drop; unfold len in *; lia). rewrite firstn_all, drop_drop. do 2 f_equal. unfold len. lia. }
  unfold WriteAt. rewrite s64_small by lia. rewrite (proj2 (Z.ltb_ge off 0)), (proj2 (Z.ltb_ge (len b) _)) by lia. cbn [orb].
  unfold sliceFrom. rewrite slice_ok by lia. cbn [out_bind]. rewrite take_ge by (rewrite length_drop; unfold len; lia). rewrite E.
  exists (splice b off p). rewrite Z.min_l, len_splice by len_lia. split; [done|]. split; [done|]. split.
  - rewrite ReadAt_spec, len_splice, range_splice_same by (done || lia). f_equal. rewrite (proj2 (Z.ltb_ge (len b) (off + len p))) by lia. by rewrite orb_false_r.
  - intros o n Ho' Hn [?|?]; [by apply range_splice_before; lia|by apply range_splice_after; lia].
Qed.
