(* ===== verification/WindowsImage.v ===== *)
(** * Building a Windows disk image

    src/internal/livewindowsboot/buildwindowsimg/main.go: the host tool that lays
    a reserved partition, a FAT image and optionally an NTFS image out on a GPT
    disk.  What crypto/rand answers is an argument; its constants and types are
    those of the tool of EspImage.v. *)

From S2P Require Import Prelude LittleEndian Gpt EspImage.

Definition msrSizeMiB : Z := 16.
Definition gptTypeMSR : list byte := [x16; xe3; xc9; xe3; x5c; x0b; xb8; x4d; x81; x7d; xf9; x2d; xf0; x02; x15; xae].
Definition gptTypeESP : list byte := [x28; x73; x2a; xc1; x1f; xf8; xd2; x11; xba; x4b; x00; xa0; xc9; x3e; xc9; x3b].
Definition gptTypeMBD : list byte := [xa2; xa0; xd0; xeb; xe5; xb9; x33; x44; x87; xc0; x68; xb6; xb7; x26; x99; xc7].

Record partition := mkPartition {
  typeGUID : list byte; name : list byte; startLBA : Z; endLBA : Z; bytes : option (list byte)
}.

(** setPartName from the index [i] on. *)
Fixpoint setNameFrom (i : Z) (n slot : list byte) : out (list byte) :=
  match n with
  | [] => Ok slot
  | c :: rest => if i <? 36 then let* slot := setAt slot (i * 2) (b2z c) in setNameFrom (i + 1) rest slot else Ok slot
  end.
Definition setPartName (p : partition) (n : list byte) : out partition :=
  let* slot := setNameFrom 0 n (name p) in
  Ok (mkPartition (typeGUID p) slot (startLBA p) (endLBA p) (bytes p)).

(** ** The partitions (main) *)

(** A file rounded up to whole blocks. *)
Definition padSector (b : list byte) : list byte :=
  if len b mod sectorSize =? 0 then b else b ++ make (sectorSize - len b mod sectorSize).

Definition partitionsFor (fat32In ntfsIn : option (list byte)) (espMiB : Z) : out (list partition) :=
  let msrSectors := msrSizeMiB * 1024 * 1024 / sectorSize in
  let* msr := setPartName (mkPartition gptTypeMSR (make 72) dataStartLBA (dataStartLBA + msrSectors - 1) None) (str "Microsoft reserved partition") in
  let espBytes := padSector <$> fat32In in
  let espSectors := match espBytes with Some b => len b / sectorSize | None => u64 (u64 espMiB * 1024 * 1024) / sectorSize end in
  let espStart := u64 (endLBA msr + 1) in
  let* esp := setPartName (mkPartition gptTypeESP (make 72) espStart (u64 (espStart + espSectors - 1)) espBytes) (str "EFI system partition") in
  match padSector <$> ntfsIn with
  | None => Ok [msr; esp]
  | Some b =>
      let mbdStart := u64 (endLBA esp + 1) in
      let mbdSectors := len b / sectorSize in
      let* mbd := setPartName (mkPartition gptTypeMBD (make 72) mbdStart (u64 (mbdStart + mbdSectors - 1)) (Some b)) (str "Basic data partition") in
      Ok [msr; esp; mbd]
  end.

(** ** The headers *)

Record gptHeaderParams := mkGptParams {
  currentLBA : Z; backupLBA : Z; firstUsable : Z; lastUsable : Z; partEntryLBA : Z;
  partEntryNum : Z; partEntrySize : Z; partArrayCRC : Z; diskGUID : list byte
}.

Definition writeGPTHeader (p : gptHeaderParams) (buf : list byte) : out (list byte) :=
  let* buf := put buf 0 (str "EFI PART") in
  let* buf := put buf 8 (le32 0x00010000) in
  let* buf := put buf 12 (le32 92) in
  let* buf := put buf 24 (le64 (currentLBA p)) in
  let* buf := put buf 32 (le64 (backupLBA p)) in
  let* buf := put buf 40 (le64 (firstUsable p)) in
  let* buf := put buf 48 (le64 (lastUsable p)) in
  let* buf := put buf 56 (diskGUID p) in
  let* buf := put buf 72 (le64 (partEntryLBA p)) in
  let* buf := put buf 80 (le32 (partEntryNum p)) in
  let* buf := put buf 84 (le32 (partEntrySize p)) in
  put buf 88 (le32 (partArrayCRC p)).

Definition fixGPTCRC (buf : list byte) : out (list byte) :=
  let* buf := put buf 16 (le32 0) in
  let* body := sliceTo buf 92 in
  put buf 16 (le32 (ChecksumIEEE body)).

(** ** The image *)

Section write.
(** The 16 bytes that the [k]th read of crypto/rand gives; a failed read panics. *)
Variable random : Z -> option (list byte).

Definition randGUID (k : Z) : out (list byte) :=
  match random k with
  | None => Panic
  | Some g =>
      let* c := idx g 7 in
      let* g := setAt g 7 (Z.lor (Z.land c 0x0F) 0x40) in
      let* c := idx g 8 in
      setAt g 8 (Z.lor (Z.land c 0x3F) 0x80)
  end.

Definition putEntry (p : partition) (k : Z) (entry : list byte) : out (list byte) :=
  let* entry := put entry 0 (typeGUID p) in
  let* uniq := randGUID k in
  let* entry := put entry 16 uniq in
  let* entry := put entry 32 (le64 (startLBA p)) in
  let* entry := put entry 40 (le64 (endLBA p)) in
  put entry 56 (name p).

(** The loop over the entries, from the one with index [i] on. *)
Fixpoint putEntries (i : Z) (parts : list partition) (partArray : list byte) : out (list byte) :=
  match parts with
  | [] => Ok partArray
  | p :: rest =>
      let* partArray := inWindow partArray (i * gptPartEntrySize) ((i + 1) * gptPartEntrySize) (putEntry p i) in
      putEntries (i + 1) rest partArray
  end.

(** The loop over the payloads. *)
Fixpoint copyPayloads (parts : list partition) (img : list byte) : out (list byte) :=
  match parts with
  | [] => Ok img
  | p :: rest =>
      match bytes p with
      | None => copyPayloads rest img
      | Some b => let* img := copyAt img (s64 (s64 (startLBA p) * sectorSize)) (len img) b in copyPayloads rest img
      end
  end.

Definition protectiveMBR (totalSectors : Z) (mbr : list byte) : out (list byte) :=
  let* mbr := put mbr 446 [x00; x00; x02; x00; xee; xff; xff; xff] in
  let* mbr := put mbr (446 + 8) (le32 1) in
  let sz := u64 (totalSectors - 1) in
  let sz := if 0xFFFFFFFF <? sz then 0xFFFFFFFF else sz in
  let* mbr := put mbr (446 + 12) (le32 sz) in
  put mbr 510 [x55; xaa].

Definition writeImage (parts : list partition) : out (list byte) :=
  match last parts with
  | None => Err ErrNoPartitions
  | Some lastPart =>
      let totalSectors := u64 (endLBA lastPart + 1 + 33) in
      let totalBytes := s64 (s64 totalSectors * sectorSize) in
      let* img := if totalBytes <? 0 then Panic else Ok (make totalBytes) in
      let* img := inWindow img 0 sectorSize (protectiveMBR totalSectors) in
      let* img := inWindow img (2 * sectorSize) (2 * sectorSize + gptPartArrayBytes) (putEntries 0 parts) in
      let* partArray := slice img (2 * sectorSize) (2 * sectorSize + gptPartArrayBytes) in
      let crc := ChecksumIEEE partArray in
      let* guid := randGUID (len parts) in
      let* img := inWindow img sectorSize (2 * sectorSize) (fun primaryGPT =>
        let* primaryGPT := writeGPTHeader (mkGptParams 1 (u64 (totalSectors - 1)) firstUsableLBA (u64 (totalSectors - 1 - 33)) 2
          (u32 (len parts)) gptPartEntrySize crc guid) primaryGPT in
        let* primaryGPT := put primaryGPT 80 (le32 gptPartEntryCount) in
        fixGPTCRC primaryGPT) in
      let* img := copyPayloads parts img in
      let backupPartLBA := u64 (totalSectors - 33) in
      let* partArray := slice img (2 * sectorSize) (2 * sectorSize + gptPartArrayBytes) in
      let at_ := s64 (s64 backupPartLBA * sectorSize) in
      let* img := copyAt img at_ (s64 (at_ + gptPartArrayBytes)) partArray in
      let lo := u64 (u64 (totalSectors - 1) * sectorSize) in
      let hi := u64 (totalSectors * sectorSize) in
      let* img := inWindow img lo hi
        (writeGPTHeader (mkGptParams (u64 (totalSectors - 1)) 1 firstUsableLBA (u64 (totalSectors - 1 - 33)) backupPartLBA
          gptPartEntryCount gptPartEntrySize crc (make 16))) in
      let* guid := slice img (sectorSize + 56) (sectorSize + 72) in
      inWindow img lo hi (fun backupGPT => let* backupGPT := copyAt backupGPT 56 72 guid in fixGPTCRC backupGPT)
  end.
End write.

(** The tool: the bytes of the output file. *)
Definition buildWindowsImage (random : Z -> option (list byte)) (fat32In ntfsIn : option (list byte)) (espMiB : Z) : out (list byte) :=
  let* parts := partitionsFor fat32In ntfsIn espMiB in writeImage random parts.

(** ** Layouts *)

(** Partitions that follow each other from block [lba] on, each with the payload
    that fills it, if any. *)
Fixpoint contiguous (lba : Z) (ps : list partition) : Prop :=
  match ps with
  | [] => True
  | p :: rest =>
      startLBA p = lba /\ lba <= endLBA p + 1 /\ len (typeGUID p) = 16 /\ len (name p) = 72 /\
      match bytes p with None => True | Some b => len b = (endLBA p + 1 - lba) * 512 end /\
      contiguous (endLBA p + 1) rest
  end.
Definition endOf (lba : Z) (ps : list partition) : Z := fold_left (fun _ p => endLBA p + 1) ps lba.

Lemma endOf_ge ps : forall lba, contiguous lba ps -> lba <= endOf lba ps.
Proof. induction ps as [|p ps IH]; intros lba Hc; [done|]. destruct Hc as (Hs & He & _ & _ & _ & Hc). apply IH in Hc. cbn [endOf fold_left]. fold (endOf (endLBA p + 1) ps). lia. Qed.
Lemma endOf_last ps lba p : last ps = Some p -> endOf lba ps = endLBA p + 1.
Proof.
  revert lba. induction ps as [|q ps IH]; intros lba Hl; [done|]. cbn [endOf fold_left]. fold (endOf (endLBA q + 1) ps).
  destruct ps as [|q' ps]; [by injection Hl as ->|]. apply IH. exact Hl.
Qed.

Lemma contiguous_lookup ps : forall lba i p, contiguous lba ps -> ps !! i = Some p ->
  lba <= startLBA p <= endLBA p + 1 /\ endLBA p + 1 <= endOf lba ps /\ len (typeGUID p) = 16 /\ len (name p) = 72.
Proof.
  induction ps as [|q ps IH]; intros lba i p Hc Hi; [done|]. destruct Hc as (Hs & He & Ht & Hn & _ & Hc). pose proof (endOf_ge _ _ Hc) as Hge.
  cbn [endOf fold_left]. fold (endOf (endLBA q + 1) ps). destruct i as [|i]; [injection Hi as <-; lia|].
  destruct (IH _ i p Hc Hi) as (H1 & H2 & H3). lia.
Qed.

(** *** The payloads *)

Definition payloads (ps : list partition) : list write :=
  omap (fun p => (fun b => (startLBA p * 512, b)) <$> bytes p) ps.

Lemma payloads_within ps : forall lba, contiguous lba ps ->
  Forall (fun w => lba * 512 <= fst w /\ fst w + len (snd w) <= endOf lba ps * 512) (payloads ps).
Proof.
  induction ps as [|p ps IH]; intros lba Hc; [constructor|]. destruct Hc as (Hs & He & _ & _ & Hb & Hc). pose proof (endOf_ge _ _ Hc) as Hge.
  specialize (IH _ Hc). unfold payloads. cbn [omap list_omap endOf fold_left]. fold (endOf (endLBA p + 1) ps). fold (payloads ps).
  assert (Forall (fun w => lba * 512 <= fst w /\ fst w + len (snd w) <= endOf (endLBA p + 1) ps * 512) (payloads ps)) as Hrest.
  { eapply Forall_impl; [exact IH|]. intros w [H1 H2]. lia. }
  destruct (bytes p) as [b|]; cbn [fmap option_fmap option_map]; [|exact Hrest]. constructor; [cbn [fst snd]; nia|exact Hrest].
Qed.

Lemma payloads_read ps : forall lba img, contiguous lba ps -> 0 <= lba -> endOf lba ps * 512 <= len img ->
  forall i p, ps !! i = Some p ->
  range (fold_left spl (payloads ps) img) (startLBA p * 512) ((endLBA p + 1 - startLBA p) * 512) =
    match bytes p with Some b => b | None => range img (startLBA p * 512) ((endLBA p + 1 - startLBA p) * 512) end.
Proof.
  induction ps as [|q ps IH]; intros lba img Hc Hl Hend i p Hi; [done|]. pose proof Hc as (Hs & He & _ & _ & Hb & Hc').
  pose proof (endOf_ge _ _ Hc') as Hge. cbn [endOf fold_left] in Hend. fold (endOf (endLBA q + 1) ps) in Hend.
  pose proof (payloads_within _ _ Hc') as Hw. unfold payloads. cbn [omap list_omap]. fold (payloads ps).
  assert (forall img', len img' = len img -> range (fold_left spl (payloads ps) img') (lba * 512) ((endLBA q + 1 - lba) * 512) = range img' (lba * 512) ((endLBA q + 1 - lba) * 512)) as Hhead.
  { intros img' El. apply range_chain_apart; [lia|nia|rewrite El|]; (eapply Forall_impl; [exact Hw|]); intros w [H1 H2]; unfold fits, apart; lia. }
  destruct i as [|i].
  - injection Hi as <-. rewrite Hs. destruct (bytes q) as [b|]; cbn [fmap option_fmap option_map fold_left].
    + rewrite Hhead by (unfold spl; cbn [fst snd]; apply len_splice; nia). unfold spl. cbn [fst snd]. apply range_splice_same; nia.
    + by apply Hhead.
  - change (ps !! i = Some p) in Hi. pose proof (contiguous_lookup _ _ _ _ Hc' Hi) as (H1 & H2 & _).
    destruct (bytes q) as [b|]; cbn [fmap option_fmap option_map fold_left]; [|by apply (IH (endLBA q + 1) img Hc' ltac:(lia) ltac:(lia) i)].
    assert (len (spl img (startLBA q * 512, b)) = len img) as El by (unfold spl; cbn [fst snd]; apply len_splice; nia).
    rewrite (IH (endLBA q + 1) _ Hc' ltac:(lia) ltac:(rewrite El; lia) i p Hi). destruct (bytes p); [done|].
    unfold spl. cbn [fst snd]. apply range_splice_after; nia.
Qed.

Lemma copyPayloads_chain ps : forall lba img, contiguous lba ps -> 0 <= lba -> endOf lba ps * 512 <= len img -> len img < 2 ^ 62 ->
  copyPayloads ps img = Ok (fold_left spl (payloads ps) img).
Proof.
  induction ps as [|q ps IH]; intros lba img Hc Hl Hend Hi; [done|]. destruct Hc as (Hs & He & _ & _ & Hb & Hc). pose proof (endOf_ge _ _ Hc) as Hge.
  cbn [endOf fold_left] in Hend. fold (endOf (endLBA q + 1) ps) in Hend. unfold payloads. cbn [omap list_omap copyPayloads]. fold (payloads ps).
  destruct (bytes q) as [b|]; cbn [fmap option_fmap option_map fold_left]; [|apply (IH (endLBA q + 1)); done || lia].
  unfold sectorSize. rewrite (s64_small (startLBA q)), s64_small by lia. rewrite copyAt_spl by nia. cbn [out_bind].
  apply (IH (endLBA q + 1)); [done|lia|..]; unfold spl; cbn [fst snd]; rewrite len_splice; nia.
Qed.

(** ** The table *)

Section table.
Variable random : Z -> option (list byte).
(** crypto/rand answers. *)
Variable randomness : forall k, exists g, random k = Some g /\ len g = 16.

(** The identifier made of the [k]th read. *)
Definition guidOf (k : Z) : list byte := match randGUID random k with Ok g => g | _ => [] end.

Lemma randGUID_ok k : randGUID random k = Ok (guidOf k) /\ len (guidOf k) = 16.
Proof using randomness.
  destruct (randomness k) as (g & Eg & Hg). unfold guidOf, randGUID. rewrite Eg, idx_ok by lia. cbn [out_bind].
  destruct (setAt_len g 7 (Z.lor (Z.land (b2z (nth (Z.to_nat 7) g x00)) 15) 64)) as (g1 & -> & H1); [lia|]. cbn [out_bind]. rewrite idx_ok by lia. cbn [out_bind].
  destruct (setAt_len g1 8 (Z.lor (Z.land (b2z (nth (Z.to_nat 8) g1 x00)) 63) 128)) as (g2 & -> & H2); [lia|]. split; [done|lia].
Qed.

Definition gptOf (k : Z) (p : partition) : gptEntry := mkGpt (typeGUID p) (guidOf k) (startLBA p) (endLBA p).

Definition partWrites (k : Z) (p : partition) : list write :=
  [(0, typeGUID p); (16, guidOf k); (32, le64 (startLBA p)); (40, le64 (endLBA p)); (56, name p)].
Lemma putEntry_ok p k e :
  len (typeGUID p) = 16 -> len (name p) = 72 -> len e = 128 ->
  exists e', putEntry random p k e = Ok e' /\ len e' = 128 /\ range e' 0 48 = encGpt (gptOf k p) /\ range e' 48 8 = range e 48 8 /\ range e' 56 72 = name p.
Proof using randomness.
  intros Ht Hn He. destruct (randGUID_ok k) as [Er Hg]. unfold putEntry. rewrite Er.
  assert (Forall (fits (len e)) (partWrites k p)) as Hf by (rewrite He; unfold partWrites; go_writes).
  pose proof (puts_chain (partWrites k p) (fun b => Ok b) e Hf) as Hp. pose proof (len_chain _ _ Hf) as Hl. rewrite He in Hl.
  exists (fold_left spl (partWrites k p) e). split.
  { rewrite <- Hp. cbn [fold_right partWrites fst snd out_bind]. destruct (put e _ _) as [e1| |]; [|done..]. cbn [out_bind]. destruct (put e1 _ _) as [e2| |]; [|done..]. cbn [out_bind].
    destruct (put e2 _ _) as [e3| |]; [|done..]. cbn [out_bind]. destruct (put e3 _ _) as [e4| |]; [|done..]. cbn [out_bind]. by destruct (put e4 _ _). }
  split; [done|]. split; [|split; [apply range_chain_apart; [lia|lia|done|unfold partWrites; go_writes]|by apply (range_chain 4 _ e); [..|go_writes]]].
  change 48 with (16 + (16 + (8 + 8))). rewrite !range_split by lia. unfold encGpt. cbn [ge_type ge_guid ge_start ge_end gptOf].
  f_equal; [|f_equal; [|f_equal]].
  - by apply (range_chain 0 _ e); [..|unfold partWrites; go_writes].
  - by apply (range_chain 1 _ e); [..|unfold partWrites; go_writes].
  - by apply (range_chain 2 _ e); [..|unfold partWrites; go_writes].
  - by apply (range_chain 3 _ e); [..|unfold partWrites; go_writes].
Qed.

Lemma putEntries_ok ps : forall i arr,
  Forall (fun p => len (typeGUID p) = 16 /\ len (name p) = 72) ps -> 0 <= i -> i + len ps <= 128 -> len arr = 16384 ->
  exists arr', putEntries random i ps arr = Ok arr' /\ len arr' = 16384 /\
    (forall k p, ps !! k = Some p -> let at_ := (i + Z.of_nat k) * 128 in
       range arr' at_ 48 = encGpt (gptOf (i + Z.of_nat k) p) /\ range arr' (at_ + 56) 72 = name p) /\
    forall off n, 0 <= off -> 0 <= n -> off + n <= i * 128 \/ (i + len ps) * 128 <= off /\ off + n <= 16384 -> range arr' off n = range arr off n.
Proof using randomness.
  induction ps as [|p ps IH]; intros i arr Hwf Hi Hn Ha.
  - exists arr. split; [done|]. split; [done|]. split; [intros k q Hq; by rewrite lookup_nil in Hq|done].
  - apply Forall_cons in Hwf as [[Ht Hnm] Hwf]. rewrite len_cons in Hn. pose proof (len_nonneg ps). cbn [putEntries].
    unfold gptPartEntrySize. destruct (putEntry_ok p i (range arr (i * 128) ((i + 1) * 128 - i * 128))) as (e' & Ee & Hle & Hr & _ & Hrn); [done|done|rewrite len_range; lia|].
    rewrite (inWindow_splice arr (i * 128) ((i + 1) * 128) _ e') by (done || lia). cbn [out_bind]. set (arr1 := splice arr (i * 128) e').
    assert (len arr1 = 16384) as Ha1 by (unfold arr1; rewrite len_splice; lia).
    destruct (IH (i + 1) arr1 Hwf ltac:(lia) ltac:(lia) Ha1) as (arr' & -> & Hl' & Hents & Hrest). exists arr'. split; [done|]. split; [done|]. split.
    + intros k q Hq. destruct k as [|k]; cbv zeta.
      * injection Hq as <-. rewrite Z.add_0_r. rewrite !Hrest by lia. unfold arr1. rewrite !range_splice_in by lia.
        rewrite Z.sub_diag. split; [exact Hr|]. by replace (i * 128 + 56 - i * 128) with 56 by lia.
      * change (ps !! k = Some q) in Hq. specialize (Hents k q Hq). cbv zeta in Hents. by replace (i + Z.of_nat (S k)) with (i + 1 + Z.of_nat k) by lia.
    + intros off n Ho Hn0 Hoff. rewrite len_cons in Hoff. rewrite Hrest by lia. unfold arr1.
      destruct Hoff as [?|[? ?]]; [apply range_splice_before; lia|apply range_splice_after; lia].
Qed.

(** ** The headers *)

Definition headerWritesOf (p : gptHeaderParams) : list write :=
  [(0, str "EFI PART"); (8, le32 0x00010000); (12, le32 92); (24, le64 (currentLBA p)); (32, le64 (backupLBA p));
   (40, le64 (firstUsable p)); (48, le64 (lastUsable p)); (56, diskGUID p); (72, le64 (partEntryLBA p));
   (80, le32 (partEntryNum p)); (84, le32 (partEntrySize p)); (88, le32 (partArrayCRC p))].

Lemma writeGPTHeader_chain p buf (k : list byte -> out (list byte)) :
  len buf = 512 -> len (diskGUID p) = 16 ->
  (let* b := writeGPTHeader p buf in k b) = k (fold_left spl (headerWritesOf p) buf) /\ len (fold_left spl (headerWritesOf p) buf) = 512.
Proof.
  intros Hb Hg. assert (Forall (fits (len buf)) (headerWritesOf p)) as Hf by (rewrite Hb; unfold headerWritesOf; go_writes).
  split; [|by rewrite len_chain]. rewrite <- (puts_chain (headerWritesOf p) k buf Hf). unfold writeGPTHeader, headerWritesOf. cbn [fold_right fst snd].
  repeat (match goal with |- context [put ?b ?o ?w] => destruct (put b o w) as [?| |]; [|done..]; cbn [out_bind] end). done.
Qed.

(** What fixGPTCRC leaves: a checked header, the rest as it was. *)
Lemma fixGPTCRC_ok buf : len buf = 512 ->
  exists h, fixGPTCRC buf = Ok h /\ len h = 512 /\ headerChecks h /\
    forall off n, 0 <= off -> 0 <= n -> off + n <= 16 \/ 20 <= off /\ off + n <= 512 -> range h off n = range buf off n.
Proof.
  intros Hb. unfold fixGPTCRC. rewrite put_splice by (rewrite ?len_le32; lia). cbn [out_bind]. set (b1 := splice buf 16 (le32 0)).
  assert (len b1 = 512) as H1 by (unfold b1; rewrite len_splice; rewrite ?len_le32; lia). unfold sliceTo. rewrite slice_range by lia. cbn [out_bind].
  rewrite put_splice by (rewrite ?len_le32; lia). set (crc := ChecksumIEEE _). exists (splice b1 16 (le32 crc)). split; [done|].
  split; [rewrite len_splice; rewrite ?len_le32; lia|].
  assert (forall off n, 0 <= off -> 0 <= n -> off + n <= 16 \/ 20 <= off /\ off + n <= 512 -> range (splice b1 16 (le32 crc)) off n = range b1 off n) as Hout.
  { intros off n Ho Hn [?|[? ?]]; [apply range_splice_before; lia|apply range_splice_after; rewrite ?len_le32; lia]. }
  split.
  - unfold headerChecks. rewrite range_splice_same by (rewrite ?len_le32; lia). rewrite !Hout by lia. unfold crc. do 2 f_equal.
    change (92 - 0) with (16 + (4 + 72)). rewrite !range_split by lia. f_equal. f_equal. unfold b1. by rewrite range_splice_same by (rewrite ?len_le32; lia).
  - intros off n Ho Hn Hoff. rewrite Hout by done. unfold b1. destruct Hoff as [?|[? ?]]; [apply range_splice_before; lia|apply range_splice_after; rewrite ?len_le32; lia].
Qed.

Ltac header_field ws i := by apply (range_chain i _ (make 512)); [..|unfold ws, headerWritesOf, mbrWrites; cbn [app]; go_writes].

Lemma primary_ok my alt lastU partLBA n crc guid : len guid = 16 ->
  exists h, (let* b := writeGPTHeader (mkGptParams my alt firstUsableLBA lastU partLBA n gptPartEntrySize crc guid) (make 512) in
             let* b := put b 80 (le32 gptPartEntryCount) in fixGPTCRC b) = Ok h /\
    len h = 512 /\ headerChecks h /\ describes h my alt lastU partLBA crc guid.
Proof.
  intros Hg. set (p := mkGptParams _ _ _ _ _ _ _ _ _).
  assert (len (diskGUID p) = 16) as Hgp by exact Hg.
  destruct (writeGPTHeader_chain p (make 512) (fun b => let* b := put b 80 (le32 gptPartEntryCount) in fixGPTCRC b) eq_refl Hg) as [-> Hl].
  set (ws := headerWritesOf p ++ [(80, le32 gptPartEntryCount)]).
  assert (Forall (fits (len (make 512))) ws) as Hf by (change (len (make 512)) with 512; unfold ws, headerWritesOf; cbn [app]; go_writes).
  rewrite put_splice by (rewrite ?len_le32; lia). cbn [out_bind].
  assert (splice (fold_left spl (headerWritesOf p) (make 512)) 80 (le32 gptPartEntryCount) = fold_left spl ws (make 512)) as -> by (unfold ws; by rewrite fold_left_app).
  destruct (fixGPTCRC_ok (fold_left spl ws (make 512))) as (h & Eh & Hh & Hc & Hr); [by rewrite len_chain|].
  exists h. split; [done|]. split; [done|]. split; [done|]. unfold describes. rewrite !Hr by lia.
  split_and!; [header_field ws 0%nat|header_field ws 3%nat|header_field ws 4%nat|header_field ws 5%nat|header_field ws 6%nat|header_field ws 7%nat|
    header_field ws 8%nat|header_field ws 12%nat|header_field ws 10%nat|header_field ws 11%nat].
Qed.

Lemma backup_ok my alt lastU partLBA crc guid hdr : len guid = 16 ->
  hdr = fold_left spl (headerWritesOf (mkGptParams my alt firstUsableLBA lastU partLBA gptPartEntryCount gptPartEntrySize crc (make 16))) (make 512) ->
  exists h, (let* b := copyAt hdr 56 72 guid in fixGPTCRC b) = Ok h /\
    len h = 512 /\ headerChecks h /\ describes h my alt lastU partLBA crc guid.
Proof.
  intros Hg ->. set (p := mkGptParams _ _ _ _ _ _ _ _ _). pose proof (proj2 (writeGPTHeader_chain p (make 512) Ok eq_refl eq_refl)) as Hl.
  assert (len (diskGUID p) = 16) as Hgp by reflexivity. set (ws := headerWritesOf p ++ [(56, guid)]).
  assert (Forall (fits (len (make 512))) ws) as Hf by (change (len (make 512)) with 512; unfold ws, headerWritesOf; cbn [app]; go_writes).
  rewrite copyAt_spl by lia. cbn [out_bind].
  assert (spl (fold_left spl (headerWritesOf p) (make 512)) (56, guid) = fold_left spl ws (make 512)) as -> by (unfold ws; by rewrite fold_left_app).
  destruct (fixGPTCRC_ok (fold_left spl ws (make 512))) as (h & Eh & Hh & Hc & Hr); [by rewrite len_chain|].
  exists h. split; [done|]. split; [done|]. split; [done|]. unfold describes. rewrite !Hr by lia.
  split_and!; [header_field ws 0%nat|header_field ws 3%nat|header_field ws 4%nat|header_field ws 5%nat|header_field ws 6%nat|header_field ws 12%nat|
    header_field ws 8%nat|header_field ws 9%nat|header_field ws 10%nat|header_field ws 11%nat].
Qed.

Lemma protectiveMBR_ok total : 0 < total < 2 ^ 64 ->
  exists mbr, protectiveMBR total (make 512) = Ok mbr /\ len mbr = 512 /\ protects mbr total.
Proof.
  intros Ht. unfold protectiveMBR. rewrite u64_small by lia.
  assert ((if 0xFFFFFFFF <? total - 1 then 0xFFFFFFFF else total - 1) = Z.min 0xFFFFFFFF (total - 1)) as -> by (destruct (Z.ltb_spec 0xFFFFFFFF (total - 1)); lia).
  destruct (mbrWrites_protects total (make 512) eq_refl) as (Hf & Hl & Hp). set (ws := mbrWrites _) in *.
  exists (fold_left spl ws (make 512)). split; [|done].
  rewrite <- (puts_chain ws (fun b => Ok b) (make 512) Hf). unfold ws, mbrWrites. cbn [fold_right fst snd].
  repeat (match goal with |- context [put ?b ?o ?w] => destruct (put b o w) as [?| |]; [|done..]; cbn [out_bind] end). done.
Qed.

(** ** The image as writes *)

Definition front (mbr arr h1 : list byte) : list write := [(0, mbr); (1024, arr); (512, h1)].
Definition imageWritesOf (ps : list partition) (total : Z) (mbr arr h1 h2 : list byte) : list write :=
  front mbr arr h1 ++ payloads ps ++ [((total - 33) * 512, arr); ((total - 1) * 512, h2)].

Lemma payloads_fit ps n : contiguous 64 ps -> endOf 64 ps * 512 <= n -> Forall (fits n) (payloads ps).
Proof. intros Hc Hn. eapply Forall_impl; [by apply payloads_within|]. intros w [H1 H2]. unfold fits. lia. Qed.
Lemma payloads_apart ps off n : contiguous 64 ps -> off + n <= 32768 \/ endOf 64 ps * 512 <= off -> Forall (apart off n) (payloads ps).
Proof. intros Hc Hn. eapply Forall_impl; [by apply payloads_within|]. intros w [H1 H2]. unfold apart. lia. Qed.

(** Payloads leave the front and the back alone. *)
Lemma after_payloads ps b off n :
  contiguous 64 ps -> endOf 64 ps * 512 <= len b -> 0 <= off -> 0 <= n -> off + n <= 32768 \/ endOf 64 ps * 512 <= off ->
  range (fold_left spl (payloads ps) b) off n = range b off n.
Proof. intros Hc Hb Ho Hn Hoff. apply range_chain_apart; [done|done|by apply payloads_fit|by apply payloads_apart]. Qed.

(** The back of the disk: the copy of the array, and the second header, written
    twice. *)
Lemma backup_part b total arr crc guid :
  97 <= total < 2 ^ 53 -> len b = total * 512 -> len arr = 16384 -> len guid = 16 ->
  range b (512 + 56) 16 = guid -> range b ((total - 1) * 512) 512 = make 512 ->
  exists h2,
    (let* img := copyAt b ((total - 33) * 512) ((total - 33) * 512 + 16384) arr in
     let* img := inWindow img ((total - 1) * 512) (total * 512)
       (writeGPTHeader (mkGptParams (total - 1) 1 firstUsableLBA (total - 34) (total - 33) gptPartEntryCount gptPartEntrySize crc (make 16))) in
     let* guid := slice img (512 + 56) (512 + 72) in
     inWindow img ((total - 1) * 512) (total * 512) (fun backupGPT => let* backupGPT := copyAt backupGPT 56 72 guid in fixGPTCRC backupGPT)) =
    Ok (spl (spl b ((total - 33) * 512, arr)) ((total - 1) * 512, h2)) /\
    len h2 = 512 /\ headerChecks h2 /\ describes h2 (total - 1) 1 (total - 34) (total - 33) crc guid.
Proof.
  intros Ht Hb Ha Hg Hrg Hz. rewrite copyAt_spl by lia. cbn [out_bind]. set (b1 := spl b _).
  assert (len b1 = total * 512) as Hb1 by (unfold b1; rewrite len_spl; lia).
  set (p := mkGptParams _ _ _ _ _ _ _ _ _). destruct (writeGPTHeader_chain p (make 512) Ok eq_refl eq_refl) as [Ew Hw].
  assert (writeGPTHeader p (make 512) = Ok (fold_left spl (headerWritesOf p) (make 512))) as Ew' by (rewrite <- Ew; by destruct (writeGPTHeader p (make 512))).
  set (w := fold_left spl (headerWritesOf p) (make 512)) in *. clear Ew.
  assert (range b1 ((total - 1) * 512) (total * 512 - (total - 1) * 512) = make 512) as Hr1.
  { unfold b1, spl. cbn [fst snd]. rewrite range_splice_after by lia. by replace (total * 512 - (total - 1) * 512) with 512 by lia. }
  rewrite (inWindow_spl b1 _ _ _ w); [|lia..|by rewrite Hr1|lia]. cbn [out_bind]. set (b2 := spl b1 _).
  assert (len b2 = total * 512) as Hb2 by (unfold b2; rewrite len_spl; lia).
  rewrite slice_range by lia. cbn [out_bind]. assert (range b2 (512 + 56) (512 + 72 - (512 + 56)) = guid) as ->.
  { rewrite <- Hrg. unfold b2, b1, spl. cbn [fst snd]. rewrite !range_splice_before by (rewrite ?len_splice; lia). done. }
  destruct (backup_ok (total - 1) 1 (total - 34) (total - 33) crc guid w Hg eq_refl) as (h2 & E2 & Hh2 & Hc2 & Hd2).
  assert (range b2 ((total - 1) * 512) (total * 512 - (total - 1) * 512) = w) as Hr2 by (unfold b2, spl; cbn [fst snd]; apply range_splice_same; lia).
  exists h2. split; [|exact (conj Hh2 (conj Hc2 Hd2))]. rewrite (inWindow_spl b2 _ _ _ h2); [|lia..|by rewrite Hr2|lia]. f_equal. unfold b2, spl. cbn [fst snd]. apply splice_splice; lia.
Qed.

Lemma writeImage_writes ps :
  contiguous 64 ps -> ps <> [] -> len ps <= 128 -> endOf 64 ps < 2 ^ 50 ->
  let total := endOf 64 ps + 33 in
  exists mbr arr h1 h2,
    writeImage random ps = Ok (fold_left spl (imageWritesOf ps total mbr arr h1 h2) (make (total * 512))) /\
    len mbr = 512 /\ protects mbr total /\ len arr = 16384 /\
    (forall k p, ps !! k = Some p -> range arr (Z.of_nat k * 128) 48 = encGpt (gptOf (Z.of_nat k) p) /\ range arr (Z.of_nat k * 128 + 56) 72 = name p) /\
    (forall off n, len ps * 128 <= off -> 0 <= n -> off + n <= 16384 -> range arr off n = make n) /\
    len h1 = 512 /\ headerChecks h1 /\ describes h1 1 (total - 1) (total - 34) 2 (ChecksumIEEE arr) (guidOf (len ps)) /\
    len h2 = 512 /\ headerChecks h2 /\ describes h2 (total - 1) 1 (total - 34) (total - 33) (ChecksumIEEE arr) (guidOf (len ps)).
Proof using randomness.
  intros Hc Hne Hn Hend total. pose proof (endOf_ge _ _ Hc) as Hge. pose proof (len_nonneg ps) as Hn0.
  destruct (last ps) as [lastPart|] eqn:El; [|by apply last_None in El]. pose proof (endOf_last ps 64 lastPart El) as Elast.
  destruct (protectiveMBR_ok total) as (mbr & Em & Hm & Hprot); [lia|].
  destruct (putEntries_ok ps 0 (make 16384)) as (arr & Ea & Ha & Hents & Hz); [|lia|lia|done|].
  { apply Forall_lookup. intros i p Hi. by apply (contiguous_lookup ps 64 i p). }
  destruct (randGUID_ok (len ps)) as [Eg Hg].
  destruct (primary_ok 1 (total - 1) (total - 34) 2 (len ps) (ChecksumIEEE arr) (guidOf (len ps)) Hg) as (h1 & E1 & Hh1 & Hc1 & Hd1).
  set (b0 := make (total * 512)). assert (len b0 = total * 512) as Hb0 by (unfold b0; rewrite len_make; lia).
  set (b3 := fold_left spl (front mbr arr h1) b0).
  assert (Forall (fits (len b0)) (front mbr arr h1)) as Hff by (rewrite Hb0; unfold front; go_writes).
  assert (len b3 = total * 512) as Hb3 by (unfold b3; rewrite len_chain; done).
  set (b4 := fold_left spl (payloads ps) b3). assert (len b4 = total * 512) as Hb4 by (unfold b4; rewrite len_chain; [done|apply payloads_fit; [done|lia]]).
  assert (range b4 1024 16384 = arr) as Harr.
  { unfold b4. rewrite after_payloads by (assumption || lia). by apply (range_chain 1 _ b0); [..|unfold front; go_writes]. }
  assert (range b4 512 512 = h1) as Hrh1.
  { unfold b4. rewrite after_payloads by (assumption || lia). by apply (range_chain 2 _ b0); [..|unfold front; go_writes]. }
  destruct (backup_part b4 total arr (ChecksumIEEE arr) (guidOf (len ps))) as (h2 & E2 & Hh2 & Hc2 & Hd2); [lia|done|done|done| | |].
  { destruct Hd1 as (_ & _ & _ & _ & _ & Hd & _). rewrite <- Hd, <- Hrh1, range_range by lia. done. }
  { unfold b4. rewrite after_payloads by (assumption || lia). unfold b3. rewrite range_chain_apart; [apply range_make; lia|lia|lia|done|unfold front; go_writes]. }
  exists mbr, arr, h1, h2. split; [|split_and!; try assumption; intros off n H1 H2 H3; rewrite Hz by lia; apply range_make; lia].
  unfold writeImage. rewrite El, Eg, <- Elast. replace (endOf 64 ps + 33) with total by reflexivity. cbv zeta. unfold sectorSize.
  rewrite (u64_small total), (s64_small total), (s64_small (total * 512)) by lia. rewrite (proj2 (Z.ltb_ge (total * 512) 0)) by lia. cbn [out_bind]. fold b0.
  rewrite (inWindow_spl b0 0 512 _ mbr); [|lia..|by (unfold b0; rewrite range_make by lia)|lia]. cbn [out_bind].
  change (2 * 512) with 1024. change gptPartArrayBytes with 16384. change (1024 + 16384) with 17408.
  set (b1 := spl b0 (0, mbr)). assert (len b1 = total * 512) as Hb1 by (unfold b1; rewrite len_spl; lia).
  rewrite (inWindow_spl b1 1024 17408 _ arr); [|lia..| |lia].
  2: { rewrite <- Ea. f_equal. unfold b1, spl. cbn [fst snd]. rewrite range_splice_after by lia. apply range_make; lia. }
  cbn [out_bind]. set (b2 := spl b1 (1024, arr)). assert (len b2 = total * 512) as Hb2 by (unfold b2; rewrite len_spl; lia).
  rewrite slice_range by lia. cbn [out_bind]. replace (range b2 1024 (17408 - 1024)) with arr by (symmetry; apply range_splice_same; cbn [fst snd]; lia).
  rewrite (u64_small (total - 1)), (u64_small (total - 1 - 33)), (u64_small (total - 33)) by lia. unfold u32. rewrite (Z.mod_small (len ps)) by lia.
  replace (total - 1 - 33) with (total - 34) by lia.
  rewrite (inWindow_spl b2 512 1024 _ h1); [|lia..| |lia].
  2: { rewrite <- E1. unfold b2, b1, spl. cbn [fst snd]. rewrite range_splice_before, range_splice_after by (rewrite ?len_splice; lia). unfold b0. by rewrite range_make by lia. }
  cbn [out_bind]. change (spl b2 (512, h1)) with b3. rewrite (copyPayloads_chain ps 64) by (assumption || lia). cbn [out_bind]. fold b4.
  rewrite slice_range by lia. cbn [out_bind]. replace (range b4 1024 (17408 - 1024)) with arr by (symmetry; exact Harr).
  rewrite (s64_small (total - 33)), (s64_small ((total - 33) * 512)), (s64_small ((total - 33) * 512 + 16384)), (u64_small ((total - 1) * 512)), (u64_small (total * 512)) by lia.
  etransitivity; [exact E2|]. unfold imageWritesOf. rewrite !fold_left_app. reflexivity.
Qed.

(** ** The image *)

(** Each partition with its payload, or zeros. *)
Definition contents (p : partition) : list byte :=
  match bytes p with Some b => b | None => make ((endLBA p + 1 - startLBA p) * 512) end.

Definition tableOf (ps : list partition) : list gptEntry :=
  imap (fun k p => gptOf (Z.of_nat k) p) ps ++ repeat zeroGpt (128 - length ps).

Lemma tableOf_lookup ps i e : tableOf ps !! i = Some e ->
  (exists p, ps !! i = Some p /\ e = gptOf (Z.of_nat i) p) \/ (length ps <= i < 128)%nat /\ e = zeroGpt.
Proof.
  unfold tableOf. intros [Hi|[Hlt Hi]]%lookup_app_Some.
  - rewrite list_lookup_imap in Hi. destruct (ps !! i) as [p|]; [|done]. left. exists p. by injection Hi as <-.
  - right. rewrite length_imap in Hlt, Hi. apply lookup_lt_Some in Hi as Hb. rewrite repeat_length in Hb. split; [lia|].
    by apply list_elem_of_lookup_2, list_elem_of_In, repeat_spec in Hi.
Qed.

Lemma tableOf_wf ps : contiguous 64 ps -> endOf 64 ps < 2 ^ 50 -> Forall wfGpt (tableOf ps).
Proof using randomness.
  intros Hc Hend. apply Forall_lookup. intros i e [(p & Hp & ->)|[_ ->]]%tableOf_lookup; [|by vm_compute].
  destruct (contiguous_lookup ps 64 i p Hc Hp) as (H1 & H2 & H3 & H4). unfold wfGpt, gptOf. cbn [ge_type ge_guid ge_start ge_end].
  split; [exact H3|]. split; [apply randGUID_ok|]. lia.
Qed.

Lemma writeImage_ok ps :
  contiguous 64 ps -> ps <> [] -> len ps <= 128 -> endOf 64 ps < 2 ^ 50 ->
  exists img arr, writeImage random ps = Ok img /\ len img = (endOf 64 ps + 33) * 512 /\ protects (range img 0 512) (endOf 64 ps + 33) /\
    gptOn img 2 128 (tableOf ps) /\
    (forall i p, ps !! i = Some p -> range img (startLBA p * 512) ((endLBA p + 1 - startLBA p) * 512) = contents p /\
       range img (1024 + Z.of_nat i * 128 + 56) 72 = name p) /\
    range img 1024 16384 = arr /\ range img (len img - 33 * 512) 16384 = arr /\
    (let h := range img 512 512 in headerChecks h /\ describes h 1 (endOf 64 ps + 32) (endOf 64 ps - 1) 2 (ChecksumIEEE arr) (guidOf (len ps))) /\
    (let h := range img (len img - 512) 512 in
      headerChecks h /\ describes h (endOf 64 ps + 32) 1 (endOf 64 ps - 1) (endOf 64 ps) (ChecksumIEEE arr) (guidOf (len ps))).
Proof using randomness.
  intros Hc Hne Hn Hend. pose proof (endOf_ge _ _ Hc) as Hge. pose proof (len_nonneg ps) as Hn0.
  destruct (writeImage_writes ps Hc Hne Hn Hend) as (mbr & arr & h1 & h2 & Hw & Hm & Hprot & Ha & Hents & Hz & Hh1 & Hc1 & Hd1 & Hh2 & Hc2 & Hd2).
  set (total := endOf 64 ps + 33) in *. set (b0 := make (total * 512)) in *. assert (len b0 = total * 512) as Hb0 by (unfold b0; rewrite len_make; lia).
  set (b3 := fold_left spl (front mbr arr h1) b0).
  assert (Forall (fits (len b0)) (front mbr arr h1)) as Hff by (rewrite Hb0; unfold front; go_writes).
  assert (len b3 = total * 512) as Hb3 by (unfold b3; rewrite len_chain; assumption).
  set (b4 := fold_left spl (payloads ps) b3). assert (len b4 = total * 512) as Hb4 by (unfold b4; rewrite len_chain; [assumption|apply payloads_fit; [assumption|lia]]).
  set (b5 := spl b4 ((total - 33) * 512, arr)). assert (len b5 = total * 512) as Hb5 by (unfold b5; rewrite len_spl; lia).
  set (b6 := spl b5 ((total - 1) * 512, h2)). assert (len b6 = total * 512) as Hb6 by (unfold b6; rewrite len_spl; lia).
  assert (writeImage random ps = Ok b6) as Hw6.
  { rewrite Hw. unfold imageWritesOf. rewrite !fold_left_app. reflexivity. }
  clear Hw.
  assert (forall off n, 0 <= off -> 0 <= n -> off + n <= (total - 33) * 512 -> range b6 off n = range b4 off n) as Hfr.
  { intros off n H1 H2 H3. unfold b6, b5, spl. cbn [fst snd]. rewrite !range_splice_before by (rewrite ?len_splice; lia). reflexivity. }
  assert (forall off n, 0 <= off -> 0 <= n -> off + n <= 17408 -> range b6 off n = range b3 off n) as Hfr3.
  { intros off n H1 H2 H3. rewrite Hfr by lia. unfold b4. rewrite after_payloads by (assumption || lia). reflexivity. }
  assert (range b6 0 512 = mbr) as Rm by (rewrite Hfr3 by lia; apply (range_chain 0 _ b0); [reflexivity|lia|assumption|unfold front; go_writes]).
  assert (range b6 1024 16384 = arr) as Ra by (rewrite Hfr3 by lia; apply (range_chain 1 _ b0); [reflexivity|lia|assumption|unfold front; go_writes]).
  assert (range b6 512 512 = h1) as R1 by (rewrite Hfr3 by lia; apply (range_chain 2 _ b0); [reflexivity|lia|assumption|unfold front; go_writes]).
  assert (range b6 ((total - 33) * 512) 16384 = arr) as Rb.
  { unfold b6, spl. cbn [fst snd]. rewrite range_splice_before by lia. unfold b5, spl. cbn [fst snd]. apply range_splice_same; lia. }
  assert (range b6 ((total - 1) * 512) 512 = h2) as R2 by (unfold b6, spl; cbn [fst snd]; apply range_splice_same; lia).
  assert (forall off n, 0 <= off -> 0 <= n -> off + n <= 512 -> range b6 (512 + off) n = range h1 off n) as Rh.
  { intros off n H1 H2 H3. rewrite <- R1, range_range by lia. reflexivity. }
  assert (forall off n, 0 <= off -> 0 <= n -> off + n <= 16384 -> range b6 (1024 + off) n = range arr off n) as Rarr.
  { intros off n H1 H2 H3. rewrite <- Ra, range_range by lia. reflexivity. }
  assert (len (tableOf ps) = 128) as Hlt.
  { unfold tableOf, len in *. rewrite length_app, length_imap, repeat_length. lia. }
  pose proof Hd1 as (D1 & _ & _ & _ & _ & _ & D7 & D8 & D9 & _).
  exists b6, arr. split; [exact Hw6|]. split; [exact Hb6|]. split; [by rewrite Rm|]. split.
  { unfold gptOn. rewrite Hlt, Hb6. split; [lia|]. split; [lia|]. split; [lia|]. split; [lia|]. split; [lia|].
    split; [rewrite <- D1; apply (Rh 0 8); lia|]. split; [rewrite Rh by lia; exact D7|]. split; [rewrite Rh by lia; exact D8|]. split; [rewrite Rh by lia; exact D9|].
    split; [by apply tableOf_wf|]. intros i e Hi. change (2 * 512) with 1024. pose proof (lookup_lt_Some _ _ _ Hi) as Hb. unfold len in Hlt.
    rewrite Rarr by lia. destruct (tableOf_lookup _ _ _ Hi) as [(p & Hp & ->)|[Hbound ->]]; [apply Hents; exact Hp|].
    rewrite Hz by (unfold len; lia). by vm_compute. }
  split.
  { intros i p Hp. destruct (contiguous_lookup ps 64 i p Hc Hp) as (H1 & H2 & _). pose proof (lookup_lt_Some _ _ _ Hp) as Hb. split.
    - rewrite Hfr by lia. unfold b4. rewrite (payloads_read ps 64 b3) with (i := i) by (assumption || lia). unfold contents.
      destruct (bytes p); [reflexivity|]. unfold b3. rewrite range_chain_apart; [apply range_make; lia|lia|lia|assumption|unfold front; go_writes].
    - rewrite <- Z.add_assoc, Rarr by (unfold len in *; lia). apply Hents. exact Hp. }
  split; [exact Ra|]. rewrite Hb6. replace (total * 512 - 33 * 512) with ((total - 33) * 512) by lia. split; [exact Rb|]. rewrite R1. replace (total * 512 - 512) with ((total - 1) * 512) by lia. rewrite R2.
  replace (total - 1) with (endOf 64 ps + 32) in Hd1, Hd2 by lia. replace (total - 34) with (endOf 64 ps - 1) in Hd1, Hd2 by lia. replace (total - 33) with (endOf 64 ps) in Hd2 by lia.
  split; split; assumption.
Qed.
End table.

(** ** The tool *)

(** A name as UCS-2, in a field of 72 bytes. *)
Definition ucs2Name (n : list byte) : list byte := concat (map (fun c => [c; x00]) n) ++ make (72 - 2 * len n).

Lemma msr_name : setNameFrom 0 (str "Microsoft reserved partition") (make 72) = Ok (ucs2Name (str "Microsoft reserved partition")).
Proof. vm_compute. reflexivity. Qed.
Lemma esp_name : setNameFrom 0 (str "EFI system partition") (make 72) = Ok (ucs2Name (str "EFI system partition")).
Proof. vm_compute. reflexivity. Qed.
Lemma mbd_name : setNameFrom 0 (str "Basic data partition") (make 72) = Ok (ucs2Name (str "Basic data partition")).
Proof. vm_compute. reflexivity. Qed.

Lemma padSector_len b : len b <= len (padSector b) < len b + 512 /\ len (padSector b) = 512 * (len (padSector b) / 512).
Proof.
  pose proof (len_nonneg b). pose proof (Z.mod_pos_bound (len b) 512 ltac:(lia)) as Hm. unfold padSector, sectorSize.
  destruct (Z.eqb_spec (len b mod 512) 0) as [E|E]; [|rewrite len_app, len_make by lia]; split; try lia; Z.to_euclidean_division_equations; lia.
Qed.
Lemma padSector_prefix b : range (padSector b) 0 (len b) = b.
Proof.
  unfold padSector. case_match; [by apply range_all|]. unfold range. cbn [Z.to_nat]. rewrite drop_0. apply take_app_length'. unfold len. lia.
Qed.

(** The partitions of an image: reserved, system, data. *)
Definition espBlocks (fat : option (list byte)) (espMiB : Z) : Z :=
  match fat with Some b => len (padSector b) / 512 | None => espMiB * 2048 end.
Definition layoutOf (fat ntfs : option (list byte)) (espMiB : Z) : list partition :=
  let F := espBlocks fat espMiB in
  [mkPartition gptTypeMSR (ucs2Name (str "Microsoft reserved partition")) 64 (64 + 32768 - 1) None;
   mkPartition gptTypeESP (ucs2Name (str "EFI system partition")) 32832 (32832 + F - 1) (padSector <$> fat)] ++
  match ntfs with
  | None => []
  | Some b => [mkPartition gptTypeMBD (ucs2Name (str "Basic data partition")) (32832 + F) (32832 + F + len (padSector b) / 512 - 1) (Some (padSector b))]
  end.

Definition smallInputs (fat ntfs : option (list byte)) (espMiB : Z) : Prop :=
  match fat with None => 0 < espMiB < 2 ^ 30 | Some b => len b < 2 ^ 56 end /\ match ntfs with None => True | Some b => len b < 2 ^ 56 end.

Lemma espBlocks_bounds fat ntfs espMiB : smallInputs fat ntfs espMiB -> 0 <= espBlocks fat espMiB <= 2 ^ 47.
Proof.
  intros [Hf _]. unfold espBlocks. destruct fat as [b|]; [|lia]. pose proof (padSector_len b) as [H1 H2]. pose proof (len_nonneg b). lia.
Qed.

Lemma partitionsFor_ok fat ntfs espMiB :
  smallInputs fat ntfs espMiB ->
  partitionsFor fat ntfs espMiB = Ok (layoutOf fat ntfs espMiB) /\ contiguous 64 (layoutOf fat ntfs espMiB) /\ endOf 64 (layoutOf fat ntfs espMiB) < 2 ^ 50.
Proof.
  intros Hin. pose proof (espBlocks_bounds fat ntfs espMiB Hin) as HF. destruct Hin as [Hf Hn].
  assert (match padSector <$> fat with Some b => len b / sectorSize | None => u64 (u64 espMiB * 1024 * 1024) / sectorSize end = espBlocks fat espMiB) as EF.
  { unfold espBlocks, sectorSize. destruct fat as [b|]; [done|]. cbn [fmap option_fmap option_map]. rewrite (u64_small espMiB), u64_small by lia.
    Z.to_euclidean_division_equations. lia. }
  assert (match ntfs with None => True | Some b => 0 <= len (padSector b) / 512 <= 2 ^ 47 end) as HM.
  { destruct ntfs as [b|]; [|done]. pose proof (padSector_len b) as [H1 H2]. pose proof (len_nonneg b). lia. }
  split.
  - unfold partitionsFor. rewrite EF. unfold setPartName. cbn [name]. rewrite msr_name, esp_name, mbd_name. cbn [out_bind typeGUID startLBA endLBA bytes].
    change (dataStartLBA + msrSizeMiB * 1024 * 1024 / sectorSize - 1) with 32831. change dataStartLBA with 64. change (32831 + 1) with 32832.
    change (u64 32832) with 32832. rewrite (u64_small (32832 + _ - 1)) by lia. unfold layoutOf. cbv zeta. change (64 + 32768 - 1) with 32831.
    destruct ntfs as [b|]; cbn [fmap option_fmap option_map app]; [|reflexivity]. replace (32832 + espBlocks fat espMiB - 1 + 1) with (32832 + espBlocks fat espMiB) by lia.
    unfold sectorSize. rewrite (u64_small (32832 + espBlocks fat espMiB)), u64_small by lia. reflexivity.
  - assert (len (ucs2Name (str "Microsoft reserved partition")) = 72 /\ len (ucs2Name (str "EFI system partition")) = 72 /\ len (ucs2Name (str "Basic data partition")) = 72)
      as (N1 & N2 & N3) by (vm_compute; done).
    unfold layoutOf. cbv zeta. split.
    + cbn [app contiguous startLBA endLBA typeGUID name bytes]. split; [lia|]. split; [lia|]. split; [reflexivity|]. split; [exact N1|]. split; [exact I|].
      split; [lia|]. split; [lia|]. split; [reflexivity|]. split; [exact N2|]. split.
      { unfold espBlocks in *. destruct fat as [b|]; [|exact I]. cbn [fmap option_fmap option_map]. pose proof (padSector_len b) as [_ H2]. lia. }
      destruct ntfs as [b|]; [|exact I]. cbn [contiguous startLBA endLBA typeGUID name bytes]. split; [lia|]. split; [lia|]. split; [reflexivity|]. split; [exact N3|].
      split; [|exact I]. pose proof (padSector_len b) as [_ H2]. lia.
    + destruct ntfs as [b|]; cbn [app endOf fold_left endLBA]; lia.
Qed.

Lemma tableOf_no_ufs random fat ntfs espMiB : ufsEntry (tableOf random (layoutOf fat ntfs espMiB)) = None.
Proof.
  unfold ufsEntry. assert (list_find (fun e => ge_type e = freebsdUFSTypeGUID) (tableOf random (layoutOf fat ntfs espMiB)) = None) as ->; [|done].
  apply list_find_None, Forall_lookup. intros i e [(p & Hp & ->)|[_ ->]]%tableOf_lookup; [|done]. unfold gptOf. cbn [ge_type].
  assert (Forall (fun p => typeGUID p <> freebsdUFSTypeGUID) (layoutOf fat ntfs espMiB)) as Hall by (destruct ntfs; repeat constructor; discriminate).
  by eapply Forall_lookup_1 in Hall.
Qed.

(** C9. For any FAT and NTFS files the tool makes an image with a protective record
    of the whole disk.  Its table has the reserved partition, the system
    partition and, with an NTFS file, the data partition, one after the other
    from block 64 on, each with its payload, which starts with the bytes of the
    file, or zeros; the rest of the table is empty, and a UFS partition is not
    found in it.  The array's copy is the same, both headers check out and name
    each other and the same disk. *)
Theorem windows_image_laid_out random fat ntfs espMiB :
  (forall k, exists g, random k = Some g /\ len g = 16) -> smallInputs fat ntfs espMiB ->
  let ps := layoutOf fat ntfs espMiB in
  let lastB := endOf 64 ps + 32 in
  exists img arr guid, buildWindowsImage random fat ntfs espMiB = Ok img /\ len img = (lastB + 1) * 512 /\
    protects (range img 0 512) (lastB + 1) /\ contiguous 64 ps /\ gptOn img 2 128 (tableOf random ps) /\
    (forall i p, ps !! i = Some p -> range img (startLBA p * 512) ((endLBA p + 1 - startLBA p) * 512) = contents p /\
       range img (1024 + Z.of_nat i * 128 + 56) 72 = name p /\
       forall file, bytes p = Some (padSector file) -> range img (startLBA p * 512) (len file) = file) /\
    findUFSPartitionBytes img = Err ErrNoUFSPartition /\
    range img 1024 16384 = arr /\ range img ((lastB - 32) * 512) 16384 = arr /\
    (let h := range img 512 512 in headerChecks h /\ describes h 1 lastB (lastB - 33) 2 (ChecksumIEEE arr) guid) /\
    (let h := range img (lastB * 512) 512 in headerChecks h /\ describes h lastB 1 (lastB - 33) (lastB - 32) (ChecksumIEEE arr) guid).
Proof.
  intros Hr Hin ps lastB. destruct (partitionsFor_ok fat ntfs espMiB Hin) as (Ep & Hc & Hend). fold ps in Ep, Hc, Hend.
  assert (len ps <= 128) as Hn by (unfold ps, layoutOf; cbv zeta; destruct ntfs; cbn [app]; unfold len; cbn [length]; lia).
  destruct (writeImage_ok random Hr ps Hc ltac:(discriminate) Hn Hend) as (img & arr & Ew & Hl & Hp & Hon & Hparts & Ha & Hb & H1 & H2).
  pose proof (endOf_ge _ _ Hc) as Hge. exists img, arr, (guidOf random (len ps)).
  unfold buildWindowsImage. rewrite Ep. split; [exact Ew|]. replace (lastB + 1) with (endOf 64 ps + 33) by lia. split; [exact Hl|].
  split; [exact Hp|]. split; [exact Hc|]. split; [exact Hon|]. split.
  { intros i p Hi. destruct (Hparts i p Hi) as [Hc1 Hn1]. split; [exact Hc1|]. split; [exact Hn1|]. intros file Hf.
    unfold contents in Hc1. rewrite Hf in Hc1.
    rewrite <- (padSector_prefix file) at 2. rewrite <- Hc1. destruct (contiguous_lookup ps 64 i p Hc Hi) as (Hs & He & _).
    pose proof (padSector_len file) as [Hf1 Hf2]. pose proof (len_nonneg file) as Hf0. pose proof (f_equal len Hc1) as Hlc. rewrite len_range in Hlc by lia.
    rewrite range_range by lia. f_equal. lia. }
  pose proof (tableOf_no_ufs random fat ntfs espMiB) as Hno. fold ps in Hno.
  split; [rewrite (find_ufs_spec img 2 128 _ Hon); rewrite Hno; [reflexivity|discriminate]|].
  split; [exact Ha|]. replace (lastB - 33) with (endOf 64 ps - 1) by lia. replace (lastB - 32) with (endOf 64 ps) by lia.
  replace (endOf 64 ps * 512) with (len img - 33 * 512) by lia. split; [exact Hb|]. split; [exact H1|]. replace (lastB * 512) with (len img - 512) by lia. exact H2.
Qed.

Lemma windows_image_laid_out_witness :
  exists img, buildWindowsImage (fun k => Some (repeat (z2b k) 16)) (Some (str "FAT32")) (Some (repeat x4e 1000)) 64 = Ok img /\
    range img (32832 * 512) 5 = str "FAT32" /\ range img (32833 * 512) 1000 = repeat x4e 1000 /\ headerChecks (range img 512 512).
Proof.
  destruct (windows_image_laid_out (fun k => Some (repeat (z2b k) 16)) (Some (str "FAT32")) (Some (repeat x4e 1000)) 64)
    as (img & arr & guid & Hb & _ & _ & _ & _ & Hps & _ & _ & _ & [Hh _] & _).
  - intros k. exists (repeat (z2b k) 16). split; reflexivity.
  - split; reflexivity.
  - exists img. split; [exact Hb|]. split; [exact (proj2 (proj2 (Hps 1%nat _ eq_refl)) (str "FAT32") eq_refl)|].
    split; [exact (proj2 (proj2 (Hps 2%nat _ eq_refl)) (repeat x4e 1000) eq_refl)|exact Hh].
Defined.

(** An empty FAT file gives a partition whose last block is before its first. *)
Example empty_fat_entry :
  match partitionsFor (Some []) None 64 with Ok [_; esp] => (startLBA esp, endLBA esp) | _ => (0, 0) end = (32832, 32831).
Proof. vm_compute. reflexivity. Qed.
