(* ===== verification/DevicePath.v ===== *)
(** * Device paths

    uefiboard: devicePathPrefix (sfs_filter.go), devicePathBytes and
    FindSFSChildOf (sfs_filter_tamago.go); a path is a sequence of nodes, each
    with a four-byte header that carries its length, closed by an END node.
    HandleProtocol and LocateHandleBuffer are the firmware's answers, given as
    arguments. *)

From S2P Require Import Prelude GoStr Memory.

Definition devPathTypeEnd : Z := 0x7F.
Definition devPathSubTypeEndWhole : Z := 0xFF.

(** ** Comparing paths (sfs_filter.go) *)

(** The loop over the nodes of [body] at offset [p]: the offset after them when
    [full] has the same bytes. *)
Fixpoint prefixFrom (fuel : nat) (body full : list byte) (p : Z) : out (option Z) :=
  match fuel with
  | O => Ok None
  | S f =>
      if p <? len body then
        if (len body <? p + 4) || (len full <? p + 4) then Ok None
        else
          let* l0 := idx body (p + 2) in
          let* l1 := idx body (p + 3) in
          let ln := Z.lor l0 (Z.shiftl l1 8) in
          if ln <? 4 then Ok None
          else if (len body <? p + ln) || (len full <? p + ln) then Ok None
          else
            let* a := slice body p (p + ln) in
            let* b := slice full p (p + ln) in
            if negb (bool_decide (a = b)) then Ok None else prefixFrom f body full (p + ln)
      else Ok (Some p)
  end.

Definition devicePathPrefix (prefix full : list byte) : out bool :=
  if len prefix <? 4 then Ok false
  else
    let endIdx := len prefix - 4 in
    let* t := idx prefix endIdx in
    let* st := idx prefix (endIdx + 1) in
    if negb (t =? devPathTypeEnd) || negb (st =? devPathSubTypeEndWhole) then Ok false
    else
      let* body := sliceTo prefix endIdx in
      if len full <=? len body then Ok false
      else
        let* r := prefixFrom (S (length body)) body full 0 in
        match r with
        | None => Ok false
        | Some p =>
            if len full <? p + 4 then Ok false
            else
              let* t := idx full p in
              let* st := idx full (p + 1) in
              if (t =? devPathTypeEnd) && (st =? devPathSubTypeEndWhole) then Ok false else Ok true
        end.

(** ** Reading paths (sfs_filter_tamago.go) *)

(** The walk at address [p] with the bytes gathered so far. *)
Fixpoint pathWalk (fuel : nat) (m : memory) (p : Z) (acc : list byte) : out (list byte) :=
  match fuel with
  | O => Err ErrDevicePath
  | S f =>
      if p =? 0 then Err ErrDevicePath
      else
        let* hd := loadBytes m p 4 in
        match hd with
        | [t; st; l0; l1] =>
            let ln := Z.lor (b2z l0) (Z.shiftl (b2z l1) 8) in
            if ln <? 4 then Err ErrDevicePath
            else
              let* seg := loadBytes m p (Z.to_nat ln) in
              let acc := acc ++ seg in
              if (b2z t =? devPathTypeEnd) && (b2z st =? devPathSubTypeEndWhole) then Ok acc
              else if 65536 <? len acc then Err ErrDevicePath
              else pathWalk f m (u64 (p + ln)) acc
        | _ => Panic
        end
  end.

(** At least four bytes a node and a cap of 64 KiB bound the walk. *)
Definition pathFuel : nat := Z.to_nat 16386.

Section firmware.
Variable m : memory.
(** HandleProtocol(handle, DevicePath). *)
Variable devicePathOf : Z -> Z + error.
(** LocateHandleBuffer(SimpleFileSystem). *)
Variable sfsHandles : list Z + error.

Definition devicePathBytes (handle : Z) : out (list byte) :=
  if handle =? 0 then Err ErrDevicePath
  else
    match devicePathOf handle with
    | inr e => Err e
    | inl iface => if iface =? 0 then Err ErrDevicePath else pathWalk pathFuel m iface []
    end.

Fixpoint firstChild (parentDP : list byte) (hs : list Z) : out (Z * list byte) :=
  match hs with
  | [] => Err ErrNoMatchingSFS
  | h :: r =>
      match devicePathBytes h with
      | Ok childDP => let* b := devicePathPrefix parentDP childDP in if b : bool then Ok (h, childDP) else firstChild parentDP r
      | Err _ => firstChild parentDP r
      | Panic => Panic
      end
  end.

Definition FindSFSChildOf (parentHandle : Z) : out (Z * list byte) :=
  if parentHandle =? 0 then Err ErrDevicePath
  else
    let* parentDP := devicePathBytes parentHandle in
    match sfsHandles with
    | inr e => Err e
    | inl hs => firstChild parentDP hs
    end.
End firmware.

(** ** Paths as nodes *)

Record node := mkNode { n_type : byte; n_sub : byte; n_data : list byte }.
Definition isEnd (n : node) : bool := (b2z (n_type n) =? devPathTypeEnd) && (b2z (n_sub n) =? devPathSubTypeEndWhole).
Definition encNode (n : node) : list byte :=
  [n_type n; n_sub n; z2b (4 + len (n_data n)); z2b (Z.shiftr (4 + len (n_data n)) 8)] ++ n_data n.
Definition wfNode (n : node) : Prop := 4 + len (n_data n) < 2 ^ 16 /\ isEnd n = false.
Definition endNode : list byte := [x7f; xff; x04; x00].
Definition encNodes (ns : list node) : list byte := concat (encNode <$> ns).
Definition encPath (ns : list node) : list byte := encNodes ns ++ endNode.

(** A device path: nodes of the size in their headers, the last of them, and no
    other, an END node. *)
Inductive isPath : list byte -> Prop :=
  | path_end l0 l1 data : b2z l0 + 256 * b2z l1 = 4 + len data -> isPath ([x7f; xff; l0; l1] ++ data)
  | path_node t st l0 l1 data rest : ~ (t = x7f /\ st = xff) -> b2z l0 + 256 * b2z l1 = 4 + len data -> isPath rest ->
      isPath ([t; st; l0; l1] ++ data ++ rest).

(** The path that starts at address [p]. *)
Definition readAt (m : memory) (p : Z) (bs : list byte) : Prop := forall i b, bs !! i = Some b -> m !! u64 (p + Z.of_nat i) = Some b.
Definition pathAt (m : memory) (p : Z) (dp : list byte) : Prop := isPath dp /\ readAt m p dp.

(** A path strictly below another: it goes on, with a node that is not END, where
    the other one has its END header. *)
Definition below (prefix full : list byte) : Prop :=
  exists body e0 e1 t st rest, prefix = body ++ [x7f; xff; e0; e1] /\ full = body ++ t :: st :: rest /\ ~ (t = x7f /\ st = xff).

(** [ns] lies strictly above [ms]. *)
Definition strictPrefix (ns ms : list node) : Prop := exists n rest, ms = ns ++ n :: rest.

(** ** Laws *)

Lemma len_encNode n : len (encNode n) = 4 + len (n_data n).
Proof. unfold encNode. by rewrite len_app. Qed.

Lemma nodeLen n : 4 + len (n_data n) < 2 ^ 16 ->
  Z.lor (b2z (z2b (4 + len (n_data n)))) (Z.shiftl (b2z (z2b (Z.shiftr (4 + len (n_data n)) 8))) 8) = 4 + len (n_data n).
Proof.
  intros Hn. pose proof (len_nonneg (n_data n)). set (v := 4 + len (n_data n)) in *. rewrite !b2z_z2b. rewrite Z.lor_comm, lor_add_disjoint by (try apply Z.mod_pos_bound; lia).
  rewrite Z.shiftr_div_pow2 by lia. change (2 ^ 8) with 256. rewrite (Z.mod_small (v / 256)) by (split; [apply Z.div_pos; lia|apply Z.div_lt_upper_bound; lia]).
  pose proof (Z.div_mod v 256). lia.
Qed.

Lemma idx_mid pre l i b : l !! i = Some b -> idx (pre ++ l) (len pre + Z.of_nat i) = Ok (b2z b).
Proof.
  intros Hi. pose proof (lookup_lt_Some _ _ _ Hi). rewrite idx_ok by (rewrite ?len_app; unfold len; lia).
  replace (Z.to_nat (len pre + Z.of_nat i)) with (length pre + i)%nat by (unfold len; lia). rewrite app_nth2_plus.
  by rewrite (nth_lookup_Some l i x00 b Hi).
Qed.

Lemma idx_mid0 pre b l : idx (pre ++ b :: l) (len pre) = Ok (b2z b).
Proof. pose proof (idx_mid pre (b :: l) 0 b eq_refl) as H. by rewrite Z.add_0_r in H. Qed.
Lemma idx_mid1 pre b c l : idx (pre ++ b :: c :: l) (len pre + 1) = Ok (b2z c).
Proof. exact (idx_mid pre (b :: c :: l) 1 c eq_refl). Qed.

(** Whether [x] starts [f]. *)
Definition starts (x f : list byte) : bool := bool_decide (take (length x) f = x).
Lemma starts_app x y f : starts (x ++ y) f = starts x f && starts y (drop (length x) f).
Proof.
  unfold starts. rewrite length_app. rewrite <- (take_take_drop f (length x) (length y)).
  destruct (decide (take (length x) f = x)) as [E|E].
  - rewrite (bool_decide_eq_true_2 _ E). cbn [andb]. rewrite E. apply bool_decide_ext. split; [apply app_inv_head|by intros ->].
  - rewrite (bool_decide_eq_false_2 _ E). cbn [andb]. apply bool_decide_eq_false. intros E'. apply E.
    destruct (Nat.le_gt_cases (length x) (length f)) as [Hl|Hl].
    + apply app_inj_1 in E' as [-> _]; [done|]. rewrite length_take. lia.
    + rewrite drop_ge, take_nil, app_nil_r in E' by lia. rewrite (take_ge _ _) in E' |- * by lia. apply (f_equal length) in E'. rewrite length_app in E'. lia.
Qed.
Lemma starts_short x f : len f < len x -> starts x f = false.
Proof. intros Hl. apply bool_decide_eq_false. intros E. apply (f_equal length) in E. rewrite length_take in E. unfold len in Hl. lia. Qed.

Lemma prefixFrom_spec ns : forall k pre fpre f,
  Forall wfNode ns -> (length ns < k)%nat -> len fpre = len pre ->
  prefixFrom k (pre ++ encNodes ns) (fpre ++ f) (len pre) =
  Ok (if starts (encNodes ns) f then Some (len pre + len (encNodes ns)) else None).
Proof.
  induction ns as [|n ns IH]; intros [|k] pre fpre f Hns Hk Hpre; [cbn in Hk; lia| |cbn in Hk; lia|]; cbn [prefixFrom].
  - cbn. rewrite app_nil_r, Z.ltb_irrefl. unfold starts. cbn. rewrite Z.add_0_r. done.
  - apply Forall_cons in Hns as [[Hn _] Hns]. unfold encNodes in *. cbn [fmap list_fmap concat]. pose proof (len_nonneg (n_data n)). pose proof (len_nonneg (concat (encNode <$> ns))).
    rewrite starts_app. rewrite !len_app, len_encNode. rewrite (proj2 (Z.ltb_lt _ _)) by lia. rewrite (proj2 (Z.ltb_ge _ (len pre + 4))) by lia. cbn [orb].
    rewrite Hpre. destruct (Z.ltb_spec (len pre + len f) (len pre + 4)) as [Hs|Hs].
    { rewrite starts_short by (rewrite len_encNode; lia). done. }
    change (len pre + 2) with (len pre + Z.of_nat 2). rewrite (idx_mid pre _ 2 (z2b (4 + len (n_data n)))) by done. cbn [out_bind].
    change (len pre + 3) with (len pre + Z.of_nat 3). rewrite (idx_mid pre _ 3 (z2b (Z.shiftr (4 + len (n_data n)) 8))) by done. cbn [out_bind].
    rewrite nodeLen by done. rewrite (proj2 (Z.ltb_ge _ 4)) by lia. rewrite (proj2 (Z.ltb_ge _ (len pre + (4 + _)))) by lia. cbn [orb].
    destruct (Z.ltb_spec (len pre + len f) (len pre + (4 + len (n_data n)))) as [Hs'|Hs'].
    { rewrite starts_short by (rewrite len_encNode; lia). done. }
    rewrite slice_app_at by (rewrite ?len_encNode; lia). cbn [out_bind].
    rewrite <- (take_drop (length (encNode n)) f) at 1. assert (len (take (length (encNode n)) f) = 4 + len (n_data n)) as Hlt.
    { rewrite len_take. change (Z.of_nat (length (encNode n))) with (len (encNode n)). rewrite len_encNode. lia. }
    rewrite slice_app_at by lia. cbn [out_bind]. unfold starts at 1. destruct (decide (take (length (encNode n)) f = encNode n)) as [E|E].
    + rewrite (bool_decide_eq_true_2 (encNode n = _)), (bool_decide_eq_true_2 (_ = encNode n)) by done. cbn [negb andb].
      rewrite <- (take_drop (length (encNode n)) f) at 1. rewrite E. rewrite !(app_assoc _ (encNode n)).
      replace (len pre + (4 + len (n_data n))) with (len (pre ++ encNode n)) by (rewrite len_app, len_encNode; done).
      rewrite IH; [|done|cbn in Hk; lia|rewrite !len_app; lia]. rewrite len_app, len_encNode. destruct (starts _ _); [|done]. do 2 f_equal. lia.
    + rewrite (bool_decide_eq_false_2 (encNode n = _)), (bool_decide_eq_false_2 (_ = encNode n)) by congruence. done.
Qed.

(** Paths are told apart by their bytes. *)
Lemma starts_nodes ns ms : Forall wfNode ns -> Forall wfNode ms -> starts (encNodes ns) (encPath ms) = true -> exists ms', ms = ns ++ ms'.
Proof.
  intros Hns. revert ms. induction Hns as [|n ns [Hn He] Hns IH]; intros ms Hms Hs; [by exists ms|].
  unfold encNodes in Hs. cbn [fmap list_fmap concat] in Hs. rewrite starts_app in Hs. apply andb_true_iff in Hs as [H1 H2].
  apply bool_decide_eq_true in H1. destruct Hms as [|m ms [Hm _] Hms].
  - exfalso. unfold encPath, encNodes, encNode, endNode in H1. cbn in H1. injection H1 as E1 E2 _. unfold isEnd in He. rewrite <- E1, <- E2 in He. discriminate He.
  - unfold encPath, encNodes in H1, H2. cbn [fmap list_fmap concat] in H1, H2. rewrite <- app_assoc in H1, H2.
    assert (n = m) as ->.
    { unfold encNode in H1. cbn [app length take] in H1. injection H1 as E1 E2 E3 E4 E5.
      assert (len (n_data n) = len (n_data m)) as El by (pose proof (nodeLen n Hn) as Hn1; pose proof (nodeLen m Hm) as Hm1; rewrite <- E3, <- E4 in Hn1; lia).
      rewrite take_app_le in E5 by (unfold len in El; lia). rewrite take_ge in E5 by (unfold len in El; lia). destruct n, m; cbn in *; congruence. }
    rewrite drop_app_length in H2. destruct (IH ms Hms H2) as [ms' ->]. by exists ms'.
Qed.

Lemma length_encNodes ns : (length ns <= length (encNodes ns))%nat.
Proof. induction ns as [|n ns IH]; [done|]. unfold encNodes in *. cbn [fmap list_fmap concat length]. rewrite length_app. unfold encNode at 1. rewrite length_app. cbn [length]. lia. Qed.

Lemma prefixFrom_safe k : forall body full p, 0 <= p -> exists r, prefixFrom k body full p = Ok r.
Proof.
  induction k as [|k IH]; intros body full p Hp; cbn [prefixFrom]; [by eexists|]. destruct (_ <? _); [|by eexists].
  destruct (Z.ltb_spec (len body) (p + 4)), (Z.ltb_spec (len full) (p + 4)); try by eexists. cbn [orb].
  rewrite !idx_ok by lia. cbn [out_bind]. cbv zeta. set (ln := Z.lor _ _). destruct (Z.ltb_spec ln 4); [by eexists|].
  destruct (Z.ltb_spec (len body) (p + ln)), (Z.ltb_spec (len full) (p + ln)); try by eexists. cbn [orb].
  rewrite !slice_ok by lia. cbn [out_bind]. destruct (negb _); [by eexists|]. apply IH. lia.
Qed.

Lemma prefixFrom_end k : forall body full p q, 0 <= p -> prefixFrom k body full p = Ok (Some q) -> 0 <= q.
Proof.
  induction k as [|k IH]; intros body full p q Hp; cbn [prefixFrom]; [done|]. destruct (_ <? _); [|by intros [= <-]].
  destruct (_ || _); [done|]. destruct (idx body (p + 2)) as [l0| |]; cbn [out_bind]; [|done..]. destruct (idx body (p + 3)) as [l1| |]; cbn [out_bind]; [|done..].
  cbv zeta. destruct (Z.ltb_spec (Z.lor l0 (Z.shiftl l1 8)) 4); [done|]. destruct (_ || _); [done|].
  destruct (slice body _ _); cbn [out_bind]; [|done..]. destruct (slice full _ _); cbn [out_bind]; [|done..]. destruct (negb _); [done|]. apply IH. lia.
Qed.

Lemma prefixFrom_same k : forall body full p q, 0 <= p <= len body -> take (Z.to_nat p) full = take (Z.to_nat p) body ->
  prefixFrom k body full p = Ok (Some q) -> q = len body /\ take (length body) full = body.
Proof.
  induction k as [|k IH]; intros body full p q Hp Ht; cbn [prefixFrom]; [done|]. destruct (Z.ltb_spec p (len body)) as [Hlt|Hge].
  2: { intros [= <-]. assert (p = len body) as -> by lia. split; [done|]. unfold len in Ht. by rewrite Nat2Z.id, firstn_all in Ht. }
  destruct (_ || _); [done|]. destruct (idx body (p + 2)) as [l0| |]; cbn [out_bind]; [|done..]. destruct (idx body (p + 3)) as [l1| |]; cbn [out_bind]; [|done..].
  cbv zeta. set (ln := Z.lor _ _). destruct (Z.ltb_spec ln 4); [done|]. destruct (Z.ltb_spec (len body) (p + ln)), (Z.ltb_spec (len full) (p + ln)); cbn [orb]; try done.
  rewrite !slice_ok by lia. cbn [out_bind]. case_bool_decide as E; cbn [negb]; [|done]. apply IH; [lia|].
  replace (Z.to_nat (p + ln)) with (Z.to_nat p + Z.to_nat ln)%nat in * by lia. rewrite <- !take_take_drop, Ht. f_equal.
  replace (Z.to_nat (p + ln - p)) with (Z.to_nat ln) in E by lia. symmetry. exact E.
Qed.

(** What the comparison accepts lies below. *)
Lemma devicePathPrefix_below prefix full : devicePathPrefix prefix full = Ok true -> below prefix full.
Proof.
  unfold devicePathPrefix. destruct (Z.ltb_spec (len prefix) 4) as [|Hl]; [done|]. cbv zeta.
  assert (exists body b0 b1 b2 b3, prefix = body ++ [b0; b1; b2; b3]) as (body & b0 & b1 & b2 & b3 & ->).
  { exists (take (length prefix - 4) prefix). assert (length (drop (length prefix - 4) prefix) = 4%nat) as E by (rewrite length_drop; unfold len in Hl; lia).
    pose proof (take_drop (length prefix - 4) prefix) as Et. destruct (drop _ prefix) as [|b0 [|b1 [|b2 [|b3 [|? ?]]]]]; try discriminate E. by exists b0, b1, b2, b3. }
  rewrite len_app. change (len [b0; b1; b2; b3]) with 4. rewrite Z.add_simpl_r, idx_mid0. cbn [out_bind]. rewrite idx_mid1. cbn [out_bind].
  destruct (Z.eqb_spec (b2z b0) devPathTypeEnd) as [E0|]; cbn [negb orb]; [|done]. destruct (Z.eqb_spec (b2z b1) devPathSubTypeEndWhole) as [E1|]; cbn [negb]; [|done].
  assert (b0 = x7f) as -> by (apply b2z_inj; exact E0). assert (b1 = xff) as -> by (apply b2z_inj; exact E1).
  rewrite sliceTo_app by done. cbn [out_bind]. destruct (_ <=? _); [done|]. pose proof (len_nonneg body).
  destruct (prefixFrom _ body full 0) as [[q|]|e|] eqn:Ef; cbn [out_bind]; [|done..]. apply prefixFrom_same in Ef as [-> Et]; [|lia|done].
  destruct (Z.ltb_spec (len full) (len body + 4)) as [|Hf]; [done|]. rewrite <- (take_drop (length body) full), Et in Hf |- *. rewrite len_app in Hf.
  destruct (drop (length body) full) as [|t [|st rest]]; [change (len (@nil byte)) with 0 in Hf; lia|change (len [t]) with 1 in Hf; lia|].
  rewrite idx_mid0. cbn [out_bind]. rewrite idx_mid1. cbn [out_bind]. intros Ht. exists body, b2, b3, t, st, rest. split; [done|]. split; [done|].
  intros [-> ->]. discriminate Ht.
Qed.

Lemma loadBytes_read m n : forall p bs, loadBytes m p n = Ok bs -> length bs = n /\ readAt m p bs.
Proof.
  induction n as [|n IH]; intros p bs; cbn [loadBytes]; [intros [= <-]; by split|]. unfold load. destruct (m !! u64 p) as [b|] eqn:Eb; cbn [out_bind]; [|done].
  destruct (loadBytes m (p + 1) n) as [r|e|] eqn:Er; cbn [out_bind]; [|done..]. intros [= <-]. apply IH in Er as [<- Hr]. split; [done|].
  intros [|i] c Hi; cbn [lookup list_lookup] in Hi.
  - injection Hi as <-. by rewrite Z.add_0_r.
  - apply Hr in Hi. rewrite <- Hi. do 2 f_equal. lia.
Qed.

(** What is read from memory is the path there. *)
Lemma pathWalk_ok m fuel : forall p acc dp, pathWalk fuel m p acc = Ok dp -> exists path, dp = acc ++ path /\ pathAt m p path.
Proof.
  induction fuel as [|fuel IH]; intros p acc dp; cbn [pathWalk]; [done|]. destruct (p =? 0); [done|].
  destruct (loadBytes m p 4) as [hd|e|] eqn:Eh; cbn [out_bind]; [|done..]. apply loadBytes_read in Eh as [Hl Hh].
  destruct hd as [|t [|st [|l0 [|l1 [|? ?]]]]]; try discriminate Hl. cbv zeta.
  pose proof (b2z_range l0). pose proof (b2z_range l1).
  rewrite (Z.lor_comm (b2z l0)), lor_add_disjoint by (change (2 ^ 8) with 256; lia).
  set (ln := b2z l1 * 2 ^ 8 + b2z l0). destruct (Z.ltb_spec ln 4) as [|Hln]; [done|].
  destruct (loadBytes m p (Z.to_nat ln)) as [seg|e|] eqn:Es; cbn [out_bind]; [|done..]. apply loadBytes_read in Es as [Hls Hs].
  assert (exists data, seg = [t; st; l0; l1] ++ data) as [data ->].
  { destruct seg as [|a [|b [|c [|d data]]]]; cbn in Hls; try lia. exists data.
    assert (forall i x y, [t; st; l0; l1] !! i = Some x -> (a :: b :: c :: d :: data) !! i = Some y -> x = y) as Hi.
    { intros i x y Hx Hy. apply Hh in Hx. apply Hs in Hy. congruence. }
    rewrite (Hi 0%nat t a), (Hi 1%nat st b), (Hi 2%nat l0 c), (Hi 3%nat l1 d) by done. done. }
  assert (b2z l0 + 256 * b2z l1 = 4 + len data) as Hd by (rewrite length_app in Hls; cbn in Hls; unfold len, ln in *; lia).
  destruct (_ && _) eqn:Eend.
  - intros [= <-]. apply andb_true_iff in Eend as [E0%Z.eqb_eq E1%Z.eqb_eq]. assert (t = x7f) as -> by (apply b2z_inj; exact E0).
    assert (st = xff) as -> by (apply b2z_inj; exact E1). eexists. split; [done|]. split; [by constructor|exact Hs].
  - destruct (_ <? _); [done|]. intros (path & -> & Hp & Hr)%IH. exists ([t; st; l0; l1] ++ data ++ path).
    split; [by rewrite <- !app_assoc|]. split; [constructor; [|done..]; intros [-> ->]; discriminate Eend|].
    intros i b. rewrite (app_assoc _ data path). intros [Hi|[Hge Hi]]%lookup_app_Some; [by apply Hs|]. apply Hr in Hi. rewrite <- Hi. f_equal.
    unfold u64. rewrite Zplus_mod_idemp_l. f_equal. lia.
Qed.

(** On any bytes at all the comparison stays within both paths. *)
Lemma devicePathPrefix_total prefix full : exists b, devicePathPrefix prefix full = Ok b.
Proof.
  unfold devicePathPrefix. destruct (Z.ltb_spec (len prefix) 4); [by eexists|]. cbv zeta. rewrite !idx_ok by lia. cbn [out_bind].
  destruct (_ || _); [by eexists|]. rewrite sliceTo_len by lia. cbn [out_bind]. destruct (_ <=? _); [by eexists|].
  set (body := take _ _). destruct (prefixFrom_safe (S (length body)) body full 0 ltac:(lia)) as [r Er]. rewrite Er. cbn [out_bind].
  destruct r as [p|]; [|by eexists]. pose proof (prefixFrom_end _ _ _ _ _ (Z.le_refl 0) Er). destruct (Z.ltb_spec (len full) (p + 4)); [by eexists|].
  rewrite !idx_ok by lia. cbn [out_bind]. destruct (_ && _); by eexists.
Qed.

Lemma devicePathPrefix_nodes ns ms :
  Forall wfNode ns -> Forall wfNode ms ->
  exists b, devicePathPrefix (encPath ns) (encPath ms) = Ok b /\ (b = true <-> strictPrefix ns ms).
Proof.
  intros Hns Hms.
  assert (len (encPath ns) = len (encNodes ns) + 4) as Hl by (unfold encPath; by rewrite len_app).
  assert (len (encPath ms) = len (encNodes ms) + 4) as Hlm by (unfold encPath; by rewrite len_app). pose proof (len_nonneg (encNodes ns)) as H0.
  unfold devicePathPrefix. cbv zeta. rewrite Hl, (proj2 (Z.ltb_ge _ 4)), Z.add_simpl_r by lia.
  unfold encPath at 1 2. unfold endNode at 1 2. rewrite idx_mid0. cbn [out_bind]. rewrite idx_mid1. cbn [out_bind].
  change (b2z x7f =? devPathTypeEnd) with true. change (b2z xff =? devPathSubTypeEndWhole) with true. cbn [negb orb].
  rewrite (sliceTo_app (encNodes ns) endNode (len (encNodes ns)) eq_refl : sliceTo (encPath ns) _ = _). cbn [out_bind].
  assert (forall n rest, ms = ns ++ n :: rest -> len (encNodes ms) = len (encNodes ns) + len (encNode n) + len (encNodes rest)) as Hsp.
  { intros n rest ->. unfold encNodes. rewrite fmap_app, concat_app. cbn [fmap list_fmap concat]. rewrite !len_app. lia. }
  destruct (Z.leb_spec (len (encPath ms)) (len (encNodes ns))) as [Hle|Hgt].
  { exists false. split; [done|]. split; [done|]. intros (n & rest & E). specialize (Hsp n rest E). pose proof (len_nonneg (encNode n)). pose proof (len_nonneg (encNodes rest)). lia. }
  pose proof (prefixFrom_spec ns (S (length (encNodes ns))) [] [] (encPath ms) Hns) as Hp. cbn [app] in Hp. rewrite len_nil in Hp. rewrite Hp; [|pose proof (length_encNodes ns); lia|done].
  cbn [out_bind]. destruct (starts (encNodes ns) (encPath ms)) eqn:Es.
  - destruct (starts_nodes ns ms Hns Hms Es) as [ms' ->].
    assert (encPath (ns ++ ms') = encNodes ns ++ encPath ms') as Ep by (unfold encPath, encNodes; rewrite fmap_app, concat_app; by rewrite <- app_assoc).
    rewrite Ep, len_app, Z.add_0_l in *. destruct ms' as [|n rest].
    + rewrite (proj2 (Z.ltb_ge _ _)) by (change (len (encPath [])) with 4; lia). change (encPath []) with [x7f; xff; x04; x00].
      rewrite idx_mid0. cbn [out_bind]. rewrite idx_mid1. cbn [out_bind]. exists false. split; [done|]. split; [done|].
      intros (n & rest & E). rewrite app_nil_r in E. apply (f_equal length) in E. rewrite length_app in E. cbn in E. lia.
    + assert (encPath (n :: rest) = n_type n :: n_sub n :: drop 2 (encNode n) ++ encPath rest) as En.
      { unfold encPath, encNodes. cbn [fmap list_fmap concat]. rewrite <- app_assoc. done. }
      rewrite (proj2 (Z.ltb_ge _ _)).
      2: { unfold encPath, encNodes. cbn [fmap list_fmap concat]. rewrite !len_app, len_encNode. pose proof (len_nonneg (n_data n)).
           pose proof (len_nonneg (concat (encNode <$> rest))). pose proof (len_nonneg endNode). lia. }
      rewrite En, idx_mid0. cbn [out_bind]. rewrite idx_mid1. cbn [out_bind].
      apply Forall_app in Hms as [_ Hms]. apply Forall_cons in Hms as [[_ He] _]. unfold isEnd in He. rewrite He. exists true. split; [done|].
      split; [|done]. intros _. by exists n, rest.
  - exists false. split; [done|]. split; [done|]. intros (n & rest & ->). exfalso. apply not_true_iff_false in Es. apply Es.
    apply bool_decide_eq_true. unfold encPath, encNodes. rewrite fmap_app, concat_app, <- app_assoc. apply take_app_length.
Qed.

(** The byte comparison is the comparison of paths: of two well-formed device
    paths the first is reported as a parent of the second exactly when the
    second has all its nodes, in order, and at least one more; equal paths and
    paths that merely share bytes are not.  On bytes that are no device path the
    comparison still returns. *)
Theorem device_path_prefix_spec ns ms :
  Forall wfNode ns -> Forall wfNode ms ->
  (exists b, devicePathPrefix (encPath ns) (encPath ms) = Ok b /\ (b = true <-> strictPrefix ns ms)) /\
  forall prefix full, exists b, devicePathPrefix prefix full = Ok b.
Proof. intros Hns Hms. split; [by apply devicePathPrefix_nodes|apply devicePathPrefix_total]. Qed.

Lemma device_path_prefix_spec_witness :
  let pci := mkNode x02 x01 (make 8) in let part := mkNode x04 x01 (make 38) in
  devicePathPrefix (encPath [pci]) (encPath [pci; part]) = Ok true /\ strictPrefix [pci] [pci; part] /\
  devicePathPrefix (encPath [pci]) (encPath [pci]) = Ok false.
Proof.
  cbv zeta. split; [vm_compute; reflexivity|]. split; [|vm_compute; reflexivity].
  destruct (device_path_prefix_spec [mkNode x02 x01 (make 8)] [mkNode x02 x01 (make 8); mkNode x04 x01 (make 38)]) as [(b & E & H) _].
  - repeat constructor.
  - repeat constructor.
  - apply H. assert (devicePathPrefix (encPath [mkNode x02 x01 (make 8)]) (encPath [mkNode x02 x01 (make 8); mkNode x04 x01 (make 38)]) = Ok true) as E' by (vm_compute; reflexivity).
    congruence.
Defined.

(** ** Paths in memory *)

Lemma pathWalk_nodes m ns : forall fuel p acc,
  Forall wfNode ns -> (length ns < fuel)%nat -> 0 < p -> holds m p (encPath ns) -> len acc + len (encNodes ns) <= 65536 ->
  pathWalk fuel m p acc = Ok (acc ++ encPath ns).
Proof.
  induction ns as [|n ns IH]; intros [|fuel] p acc Hns Hk Hp Hh Hcap; [cbn in Hk; lia| |cbn in Hk; lia|]; cbn [pathWalk].
  - rewrite (proj2 (Z.eqb_neq p 0)) by lia. change (encPath []) with [x7f; xff; x04; x00] in *.
    rewrite (loadBytes_holds m p [x7f; xff; x04; x00] Hh : loadBytes m p 4 = _). cbn [out_bind].
    change (Z.lor (b2z x04) (Z.shiftl (b2z x00) 8)) with 4. change (4 <? 4) with false. cbv iota zeta. change (Z.to_nat 4) with 4%nat.
    rewrite (loadBytes_holds m p [x7f; xff; x04; x00] Hh : loadBytes m p 4 = _). done.
  - apply Forall_cons in Hns as [[Hn He] Hns]. pose proof (len_nonneg (n_data n)) as Hd.
    assert (encPath (n :: ns) = encNode n ++ encPath ns) as Ep by (unfold encPath, encNodes; cbn [fmap list_fmap concat]; by rewrite <- app_assoc).
    rewrite Ep in *. apply holds_app in Hh as [Hh1 Hh2]. rewrite len_encNode in Hh2.
    rewrite (proj2 (Z.eqb_neq p 0)) by lia. pose proof Hh1 as Hh1'. unfold encNode in Hh1'. apply holds_app in Hh1' as [Hhd _].
    rewrite (loadBytes_holds m p _ Hhd : loadBytes m p 4 = _). cbn [out_bind]. rewrite nodeLen by done. cbv zeta.
    rewrite (proj2 (Z.ltb_ge _ 4)) by lia. replace (Z.to_nat (4 + len (n_data n))) with (length (encNode n)).
    2: { pose proof (len_encNode n) as Hl. unfold len in *. lia. }
    rewrite (loadBytes_holds m p _ Hh1). cbn [out_bind]. unfold isEnd in He. rewrite He.
    assert (len (encNodes (n :: ns)) = 4 + len (n_data n) + len (encNodes ns)) as El by (unfold encNodes; cbn [fmap list_fmap concat]; by rewrite len_app, len_encNode).
    pose proof (len_nonneg (encNodes ns)). pose proof (len_nonneg acc). rewrite (proj2 (Z.ltb_ge 65536 _)) by (rewrite len_app, len_encNode; lia).
    assert (u64 (p + (4 + len (n_data n))) = p + (4 + len (n_data n))) as ->.
    { unfold u64. apply Z.mod_small. destruct Hh2 as (_ & Hw & _). unfold encPath in Hw. rewrite len_app in Hw. change (len endNode) with 4 in Hw. lia. }
    rewrite IH; [by rewrite <- app_assoc|done|cbn in Hk; lia|lia|done|]. rewrite len_app, len_encNode. lia.
Qed.

Section child.
Variable m : memory.
Variable devicePathOf : Z -> Z + error.
Variable paths : Z -> option (list node).

(** The firmware publishes the path [paths h] on handle [h], if any. *)
Definition publishes (h : Z) : Prop :=
  h <> 0 /\
  match paths h with
  | Some ns => exists a, devicePathOf h = inl a /\ 0 < a /\ holds m a (encPath ns) /\ Forall wfNode ns /\ len (encNodes ns) <= 65536
  | None => exists e, devicePathOf h = inr e
  end.

Lemma encNodes_count ns : 4 * Z.of_nat (length ns) <= len (encNodes ns).
Proof. induction ns as [|n ns IH]; [done|]. unfold encNodes in *. cbn [fmap list_fmap concat length]. rewrite len_app, len_encNode. pose proof (len_nonneg (n_data n)). lia. Qed.

Lemma devicePathBytes_ok h : publishes h -> devicePathBytes m devicePathOf h = match paths h with Some ns => Ok (encPath ns) | None => match devicePathOf h with inr e => Err e | inl _ => Panic end end.
Proof.
  intros [Hh Hp]. unfold devicePathBytes. rewrite (proj2 (Z.eqb_neq h 0)) by done. destruct (paths h) as [ns|].
  - destruct Hp as (a & -> & Ha & Hho & Hwf & Hl). rewrite (proj2 (Z.eqb_neq a 0)) by lia. apply (pathWalk_nodes m ns pathFuel a []); try done.
    pose proof (encNodes_count ns). unfold pathFuel. lia.
  - by destruct Hp as (e & ->).
Qed.

Lemma firstChild_spec P hs : Forall wfNode P -> Forall publishes hs ->
  match firstChild m devicePathOf (encPath P) hs with
  | Ok (h, dp) => exists pre post ms, hs = pre ++ h :: post /\ paths h = Some ms /\ dp = encPath ms /\ strictPrefix P ms /\
      forall h' ms', h' ∈ pre -> paths h' = Some ms' -> ~ strictPrefix P ms'
  | Err e => e = ErrNoMatchingSFS /\ forall h' ms', h' ∈ hs -> paths h' = Some ms' -> ~ strictPrefix P ms'
  | Panic => False
  end.
Proof.
  intros HP Hhs. induction Hhs as [|h hs Hh Hhs IH]; cbn [firstChild]; [by split; [|intros ? ? ?%not_elem_of_nil]|].
  rewrite (devicePathBytes_ok h Hh). destruct Hh as [_ Hh].
  assert (forall (Hno : forall ms', paths h = Some ms' -> ~ strictPrefix P ms'),
    match firstChild m devicePathOf (encPath P) hs with
    | Ok (h', dp) => exists pre post ms, h :: hs = pre ++ h' :: post /\ paths h' = Some ms /\ dp = encPath ms /\ strictPrefix P ms /\
        forall h'' ms', h'' ∈ pre -> paths h'' = Some ms' -> ~ strictPrefix P ms'
    | Err e => e = ErrNoMatchingSFS /\ forall h' ms', h' ∈ h :: hs -> paths h' = Some ms' -> ~ strictPrefix P ms'
    | Panic => False end) as Hskip.
  { intros Hno. destruct (firstChild m devicePathOf (encPath P) hs) as [[h' dp]|e|]; [| |done].
    - destruct IH as (pre & post & ms & -> & H1 & H2 & H3 & H4). exists (h :: pre), post, ms. split_and!; try done.
      intros h'' ms' [->|Hin]%elem_of_cons; [apply Hno|by apply H4].
    - destruct IH as [-> H1]. split; [done|]. intros h' ms' [->|Hin]%elem_of_cons; [apply Hno|by apply H1]. }
  destruct (paths h) as [ms|] eqn:Ep.
  - destruct Hh as (a & _ & _ & _ & Hwf & _). destruct (devicePathPrefix_nodes P ms HP Hwf) as (b & -> & Hb). cbn [out_bind]. destruct b.
    + exists [], hs, ms. split_and!; try done; [by apply Hb|by intros ? ? ?%not_elem_of_nil].
    + apply Hskip. intros ms' [= <-] Hs. by apply Hb in Hs.
  - destruct Hh as (e & ->). by apply Hskip.
Qed.

(** FindSFSChildOf returns the first file-system handle whose device path lies
    strictly below the parent's, with that path; handles without a device path
    and handles elsewhere (or equal) are passed over; it reports an error
    exactly when there is no such handle. *)
Theorem find_sfs_child_spec parent P hs :
  Forall publishes (parent :: hs) -> paths parent = Some P ->
  match FindSFSChildOf m devicePathOf (inl hs) parent with
  | Ok (h, dp) => exists pre post ms, hs = pre ++ h :: post /\ paths h = Some ms /\ dp = encPath ms /\ strictPrefix P ms /\
      forall h' ms', h' ∈ pre -> paths h' = Some ms' -> ~ strictPrefix P ms'
  | Err e => e = ErrNoMatchingSFS /\ forall h' ms', h' ∈ hs -> paths h' = Some ms' -> ~ strictPrefix P ms'
  | Panic => False
  end.
Proof.
  intros [Hp Hhs]%Forall_cons EP. unfold FindSFSChildOf. pose proof Hp as [Hne HpP]. rewrite (proj2 (Z.eqb_neq parent 0)) by done.
  rewrite (devicePathBytes_ok parent Hp), EP. cbn [out_bind]. rewrite EP in HpP. destruct HpP as (a & _ & _ & _ & Hwf & _). by apply firstChild_spec.
Qed.
End child.

Definition diskPath : list node := [mkNode x02 x01 (make 8)].
Definition partPath : list node := [mkNode x02 x01 (make 8); mkNode x04 x01 (make 38)].
Definition pathMem : memory := allocAt (allocAt ∅ 100 (encPath diskPath)) 200 (encPath partPath).
Definition pathOn (h : Z) : option (list node) := if h =? 1 then Some diskPath else if h =? 3 then Some partPath else None.
Definition pathPtr (h : Z) : Z + error := if h =? 1 then inl 100 else if h =? 3 then inl 200 else inr (ErrOther 2).

Lemma find_sfs_child_spec_witness :
  FindSFSChildOf pathMem pathPtr (inl [1; 2; 3]) 1 = Ok (3, encPath partPath) /\ strictPrefix diskPath partPath.
Proof.
  split; [vm_compute; reflexivity|].
  assert (holds pathMem 100 (encPath diskPath)) as H1 by (apply allocAt_keeps; [apply allocAt_holds; [lia|vm_compute; discriminate]|left; vm_compute; discriminate]).
  assert (holds pathMem 200 (encPath partPath)) as H2 by (apply allocAt_holds; [lia|vm_compute; discriminate]).
  assert (publishes pathMem pathPtr pathOn 1) as P1 by (split; [lia|]; exists 100; split_and!; [done|lia|exact H1|repeat constructor|vm_compute; discriminate]).
  assert (publishes pathMem pathPtr pathOn 2) as P2 by (split; [lia|]; by exists (ErrOther 2)).
  assert (publishes pathMem pathPtr pathOn 3) as P3 by (split; [lia|]; exists 200; split_and!; [done|lia|exact H2|repeat constructor|vm_compute; discriminate]).
  pose proof (find_sfs_child_spec pathMem pathPtr pathOn 1 diskPath [1; 2; 3] (Forall_cons_2 _ _ _ P1 (Forall_cons_2 _ _ _ P1 (Forall_cons_2 _ _ _ P2 (Forall_cons_2 _ _ _ P3 (Forall_nil_2 _))))) eq_refl) as H.
  assert (FindSFSChildOf pathMem pathPtr (inl [1; 2; 3]) 1 = Ok (3, encPath partPath)) as E by (vm_compute; reflexivity).
  rewrite E in H. destruct H as (pre & post & ms & _ & Hp & _ & Hs & _). injection Hp as <-. exact Hs.
Defined.
