(* ===== verification/LoadSfs.v ===== *)
(** * Loading an image from a published volume

    uefiboard: loadimage_sfs_tamago.go (the device path of a file on a volume,
    LoadImageFromSFS), the walk of sfs_filter_tamago.go as calls to the
    firmware, and ConnectController / DisconnectController and the device path
    of block_io_publish_tamago.go. *)

From S2P Require Import Prelude Effects GoStr LittleEndian MemMap Memory Utf8 BootServices DevicePath.

Definition devPathTypeMedia : byte := x04.
Definition devPathSubTypeVendor : byte := x03.
Definition devPathSubTypeFilePath : byte := x04.
Definition efiNotFound : Z := 0x800000000000000E.

(** 09576e91-6d3f-11d2-8e39-00a0c969723b and its siblings, in memory. *)
Definition EFIDevicePathProtocolGUID : list byte :=
  [x91; x6e; x57; x09; x3f; x6d; xd2; x11; x8e; x39; x00; xa0; xc9; x69; x72; x3b].
Definition EFISimpleFileSystemProtocolGUID : list byte :=
  [x22; x5b; x4e; x96; x59; x64; xd2; x11; x8e; x39; x00; xa0; xc9; x69; x72; x3b].
Definition EFIBlockIOProtocolGUID : list byte :=
  [x21; x5b; x4e; x96; x59; x64; xd2; x11; x8e; x39; x00; xa0; xc9; x69; x72; x3b].
Definition blockIOPublishMediaGUID : list byte :=
  [x00; xdb; x0d; xc1; x1a; x7e; x01; x40; x91; xb0; x07; x0c; xb1; xec; x80; xb1].

(** ** The path of a file *)

Definition pathRune (r : Z) : list byte := [z2b r; z2b (Z.shiftr r 8)].

Definition buildFilePathDevicePath (parent efiPath : list byte) : out (list byte) :=
  ret_if len parent <? 4 with ErrDevicePath;;
  let endIdx := len parent - 4 in
  let* t := idx parent endIdx in
  let* st := idx parent (endIdx + 1) in
  ret_if negb (t =? devPathTypeEnd) || negb (st =? devPathSubTypeEndWhole) with ErrDevicePath;;
  ret_if existsb (fun r => 0xFFFF <? r) (runes efiPath) with ErrDevicePath;;
  let ucs2 := concat (pathRune <$> runes efiPath) ++ [x00; x00] in
  let ln := u16 (4 + len ucs2) in
  let node := [devPathTypeMedia; devPathSubTypeFilePath; z2b ln; z2b (Z.shiftr ln 8)] ++ ucs2 in
  let end_ := [z2b devPathTypeEnd; z2b devPathSubTypeEndWhole; x04; x00] in
  let* pre := sliceTo parent endIdx in
  Ok (pre ++ node ++ end_).

Definition buildBlockIOPublishDevicePath : list byte :=
  [devPathTypeMedia; devPathSubTypeVendor; x14; x00] ++ blockIOPublishMediaGUID ++ [z2b devPathTypeEnd; z2b devPathSubTypeEndWhole; x04; x00].

(** ** Calls to the firmware *)

Section calls.
Context {F : Type} `{Firmware F}.

Definition LoadImageFromSFS (sfsParentDevicePath efiPath : list byte) : M (Machine F) Z :=
  needBootServices ;;;
  image <- gets mc_image ;;
  throw_if image =? 0 with ErrNoBootServices;;
  dp <- lift (buildFilePathDevicePath sfsParentDevicePath efiPath) ;;
  a <- efiCall (bsLoadImage 0 image dp []) ;;
  success a ;;; ret (ba_out a).

Definition ConnectController (controllerHandle : Z) : M (Machine F) unit :=
  throw_if controllerHandle =? 0 with ErrZeroHandle;;
  needBootServices ;;;
  a <- efiCall (bsConnectController controllerHandle true) ;;
  success a.

Definition DisconnectController (controllerHandle : Z) : M (Machine F) unit :=
  throw_if controllerHandle =? 0 with ErrZeroHandle;;
  needBootServices ;;;
  a <- efiCall (bsDisconnectController controllerHandle) ;;
  throw_if negb (ba_status a =? efiSuccess) && negb (ba_status a =? efiNotFound) with ErrEFI (ba_status a);; ret tt.

Definition handlePath (handle : Z) : M (Machine F) (list byte) :=
  throw_if handle =? 0 with ErrDevicePath;;
  iface <- HandleProtocol handle EFIDevicePathProtocolGUID ;;
  throw_if iface =? 0 with ErrDevicePath;;
  readMem (fun m => pathWalk pathFuel m iface []).

Fixpoint childAmong (parentDP : list byte) (handles : list Z) : M (Machine F) (Z * list byte) :=
  match handles with
  | [] => throw ErrNoMatchingSFS
  | h :: r =>
      childDP <- try (handlePath h) ;;
      match childDP with
      | inr _ => childAmong parentDP r
      | inl childDP => b <- lift (devicePathPrefix parentDP childDP) ;; if b : bool then ret (h, childDP) else childAmong parentDP r
      end
  end.

Definition SFSChildOf (parentHandle : Z) : M (Machine F) (Z * list byte) :=
  throw_if parentHandle =? 0 with ErrDevicePath;;
  parentDP <- handlePath parentHandle ;;
  sfsHandles <- LocateHandleBuffer EFISimpleFileSystemProtocolGUID ;;
  childAmong parentDP sfsHandles.
End calls.

(** ** The path built *)

(** The node of a file: its path in UCS-2, zero-terminated. *)
Definition fileNode (efiPath : list byte) : node :=
  mkNode devPathTypeMedia devPathSubTypeFilePath (concat (pathRune <$> runes efiPath) ++ [x00; x00]).

Lemma len_pathRunes rs : len (concat (pathRune <$> rs)) = 2 * len rs.
Proof. induction rs as [|r rs IH]; [done|]. cbn [fmap list_fmap concat]. rewrite len_app, IH, len_cons. change (len (pathRune r)) with 2. lia. Qed.

Lemma z2b_u16 v : z2b (u16 v) = z2b v /\ z2b (Z.shiftr (u16 v) 8) = z2b (Z.shiftr v 8).
Proof.
  unfold u16. split; apply b2z_inj; rewrite !b2z_z2b, ?Z.shiftr_div_pow2 by lia;
    change (2 ^ 16) with (256 * 256); change (2 ^ 8) with 256; Z.to_euclidean_division_equations; lia.
Qed.

Lemma concat_same {A B} (f g : A -> list B) l : Forall (fun x => f x = g x) l -> concat (f <$> l) = concat (g <$> l).
Proof. induction 1 as [|x l E _ IH]; [done|]. cbn [fmap list_fmap concat]. by rewrite E, IH. Qed.

(** On the basic plane a rune is one unit of UTF-16. *)
Lemma pathRune_utf16 r : validRune r = true -> r <= 0xFFFF -> pathRune r = utf16Rune r.
Proof.
  intros Hv Hr. unfold utf16Rune. unfold validRune in Hv. replace ((r <? 0x10000) && ((r <? 0xD800) || (0xDFFF <? r))) with true by lia.
  unfold pathRune, u16le. change 0xFF with (Z.ones 8). rewrite !Z.land_ones by lia. change (2 ^ 8) with 256.
  f_equal; [|f_equal]; apply b2z_inj; rewrite !b2z_z2b; by rewrite Z.mod_mod.
Qed.

Lemma fileNode_text efiPath :
  Forall (fun r => r <= 0xFFFF) (runes efiPath) -> n_data (fileNode efiPath) = utf16LECmdline efiPath.
Proof.
  intros Hr. unfold fileNode, utf16LECmdline. cbn [n_data]. f_equal. apply concat_same, Forall_forall. intros r Hin.
  apply pathRune_utf16; [|by eapply Forall_forall in Hr]. pose proof (runes_valid efiPath) as Hv. by eapply Forall_forall in Hv.
Qed.

(** The path of a file below a volume: the volume's, with the file's node, whose
    text reads back as the name and a zero, in front of the END node. *)
Definition filePath (parent efiPath dp : list byte) : Prop :=
  exists body e0 e1 text, parent = body ++ [x7f; xff; e0; e1] /\
    dp = body ++ encNode (mkNode x04 x04 text) ++ [x7f; xff; x04; x00] /\ exists fuel, utf16Decode fuel text = Some (runes efiPath ++ [0]).

Lemma buildPath_ok parent efiPath dp : buildFilePathDevicePath parent efiPath = Ok dp -> filePath parent efiPath dp.
Proof.
  unfold buildFilePathDevicePath. destruct (Z.ltb_spec (len parent) 4) as [|Hl]; [done|]. cbv zeta.
  assert (exists pre b0 b1 b2 b3, parent = pre ++ [b0; b1; b2; b3]) as (pre & b0 & b1 & b2 & b3 & ->).
  { exists (take (length parent - 4) parent). assert (length (drop (length parent - 4) parent) = 4%nat) as E by (rewrite length_drop; unfold len in Hl; lia).
    pose proof (take_drop (length parent - 4) parent) as Et. destruct (drop _ parent) as [|b0 [|b1 [|b2 [|b3 [|? ?]]]]]; try discriminate E. by exists b0, b1, b2, b3. }
  rewrite len_app. change (len [b0; b1; b2; b3]) with 4. rewrite Z.add_simpl_r, idx_mid0. cbn [out_bind]. rewrite idx_mid1. cbn [out_bind].
  destruct (Z.eqb_spec (b2z b0) devPathTypeEnd) as [E0|]; cbn [negb orb]; [|done]. destruct (Z.eqb_spec (b2z b1) devPathSubTypeEndWhole) as [E1|]; cbn [negb]; [|done].
  assert (b0 = x7f) as -> by (apply b2z_inj; exact E0). assert (b1 = xff) as -> by (apply b2z_inj; exact E1).
  destruct (existsb _ _) eqn:Eb; [done|]. rewrite sliceTo_app by done. cbn [out_bind]. intros [= <-].
  assert (Forall (fun r => r <= 0xFFFF) (runes efiPath)) as Hr.
  { apply Forall_forall. intros r Hin. destruct (Z.le_gt_cases r 0xFFFF); [done|]. exfalso. apply not_true_iff_false in Eb. apply Eb.
    apply existsb_exists. exists r. split; [by apply list_elem_of_In|lia]. }
  exists pre, b2, b3, (n_data (fileNode efiPath)). split; [done|]. split.
  - unfold encNode, fileNode. cbn [n_type n_sub n_data]. destruct (z2b_u16 (4 + len (concat (pathRune <$> runes efiPath) ++ [x00; x00]))) as [-> ->]. by rewrite <- !app_assoc.
  - rewrite fileNode_text by done. destruct (cmdline_utf16_roundtrip efiPath) as (fuel & E & _). by exists fuel.
Qed.

Lemma buildPath_at pre efiPath :
  Forall (fun r => r <= 0xFFFF) (runes efiPath) ->
  buildFilePathDevicePath (pre ++ endNode) efiPath = Ok (pre ++ encNode (fileNode efiPath) ++ endNode).
Proof.
  intros Hr. pose proof (len_nonneg pre). unfold buildFilePathDevicePath. rewrite len_app. change (len endNode) with 4.
  rewrite (proj2 (Z.ltb_ge _ _)) by lia. rewrite Z.add_simpl_r. unfold endNode at 1 2. rewrite idx_mid0. cbn [out_bind]. rewrite idx_mid1. cbn [out_bind].
  change (b2z x7f =? devPathTypeEnd) with true. change (b2z xff =? devPathSubTypeEndWhole) with true. cbn [negb orb].
  assert (existsb (fun r => 0xFFFF <? r) (runes efiPath) = false) as ->.
  { apply not_true_iff_false. intros (r & Hin & Hlt)%existsb_exists. apply list_elem_of_In in Hin. eapply Forall_forall in Hr; [|exact Hin]. cbn in Hr. lia. }
  cbv zeta. rewrite sliceTo_app by done. cbn [out_bind]. unfold encNode, fileNode. cbn [n_type n_sub n_data].
  destruct (z2b_u16 (4 + len (concat (pathRune <$> runes efiPath) ++ [x00; x00]))) as [-> ->]. by rewrite <- !app_assoc.
Qed.

(** Below a device path of nodes the path built is that of the file: one more
    node, whose text reads back as the runes of the file name and a zero; and
    the volume is recognised as its parent. *)
Theorem file_path_spec ns efiPath :
  Forall wfNode ns -> Forall (fun r => r <= 0xFFFF) (runes efiPath) -> len (runes efiPath) <= 32762 ->
  exists dp, buildFilePathDevicePath (encPath ns) efiPath = Ok dp /\ dp = encPath (ns ++ [fileNode efiPath]) /\
    wfNode (fileNode efiPath) /\ devicePathPrefix (encPath ns) dp = Ok true /\
    exists fuel, utf16Decode fuel (n_data (fileNode efiPath)) = Some (runes efiPath ++ [0]).
Proof.
  intros Hns Hr Hl. assert (wfNode (fileNode efiPath)) as Hwf.
  { split; [|done]. unfold fileNode. cbn [n_data]. rewrite len_app, len_pathRunes. change (len [x00; x00]) with 2. change (2 ^ 16) with 65536. lia. }
  assert (encPath (ns ++ [fileNode efiPath]) = encNodes ns ++ encNode (fileNode efiPath) ++ endNode) as Ep.
  { unfold encPath, encNodes. rewrite fmap_app, concat_app. cbn [fmap list_fmap concat]. by rewrite app_nil_r, <- app_assoc. }
  eexists. split; [by apply buildPath_at|]. split; [done|]. split; [done|]. split.
  - rewrite <- Ep. destruct (devicePathPrefix_nodes ns (ns ++ [fileNode efiPath])) as (b & -> & Hb); [done|apply Forall_app; split; [done|constructor; [done|constructor]]|].
    f_equal. apply Hb. by eexists _, [].
  - rewrite fileNode_text by done. destruct (cmdline_utf16_roundtrip efiPath) as (fuel & E & _). by exists fuel.
Qed.

Lemma file_path_spec_witness :
  buildFilePathDevicePath (encPath partPath) (str "\EFI\BOOT\BOOTX64.EFI") = Ok (encPath (partPath ++ [fileNode (str "\EFI\BOOT\BOOTX64.EFI")])) /\
  len (n_data (fileNode (str "\EFI\BOOT\BOOTX64.EFI"))) = 44.
Proof.
  split; [|vm_compute; reflexivity]. destruct (file_path_spec partPath (str "\EFI\BOOT\BOOTX64.EFI")) as (dp & E & Edp & _).
  - repeat constructor.
  - apply (bool_decide_unpack (Forall (fun r => r <= 0xFFFF) (runes (str "\EFI\BOOT\BOOTX64.EFI")))). vm_compute. exact I.
  - vm_compute. discriminate.
  - congruence.
Defined.

(** Without that bound the node's 16-bit length wraps: the node of a path of
    32765 characters says it is empty. *)
Lemma path_length_wraps :
  match buildFilePathDevicePath endNode (repeat x61 32765) with Ok dp => bool_decide (take 4 dp = [x04; x04; x00; x00]) | _ => false end = true.
Proof. vm_compute. reflexivity. Qed.

(** A file name off the basic plane, and a parent that is no path, are refused. *)
Lemma file_path_refused parent efiPath :
  Exists (fun r => 0xFFFF < r) (runes efiPath) \/ (forall pre b2 b3, parent <> pre ++ [x7f; xff; b2; b3]) ->
  buildFilePathDevicePath parent efiPath = Err ErrDevicePath.
Proof.
  intros Hbad. unfold buildFilePathDevicePath. destruct (Z.ltb_spec (len parent) 4) as [|Hl]; [done|]. cbv zeta.
  assert (exists pre b0 b1 b2 b3, parent = pre ++ [b0; b1; b2; b3]) as (pre & b0 & b1 & b2 & b3 & ->).
  { exists (take (length parent - 4) parent). assert (length (drop (length parent - 4) parent) = 4%nat) as E by (rewrite length_drop; unfold len in Hl; lia).
    pose proof (take_drop (length parent - 4) parent) as Et. destruct (drop _ parent) as [|b0 [|b1 [|b2 [|b3 [|? ?]]]]]; try discriminate E. by exists b0, b1, b2, b3. }
  rewrite len_app. change (len [b0; b1; b2; b3]) with 4. rewrite Z.add_simpl_r, idx_mid0. cbn [out_bind]. rewrite idx_mid1. cbn [out_bind].
  destruct (Z.eqb_spec (b2z b0) devPathTypeEnd) as [E0|], (Z.eqb_spec (b2z b1) devPathSubTypeEndWhole) as [E1|]; cbn [negb orb]; try done.
  destruct Hbad as [Hbad|Hbad].
  - assert (existsb (fun r => 0xFFFF <? r) (runes efiPath) = true) as ->; [|done].
    apply existsb_exists. apply Exists_exists in Hbad as (r & Hin & Hlt). exists r. split; [by apply list_elem_of_In|]. lia.
  - exfalso. apply (Hbad pre b2 b3). do 2 f_equal; [apply b2z_inj; exact E0|f_equal; apply b2z_inj; exact E1].
Qed.

(** ** What the wrappers do *)

Section wrapped.
Context {F : Type} `{Firmware F}.
Notation quietly m := (moves (@noStart F) m).

Lemma LoadImageFromSFS_moves dp p : quietly (LoadImageFromSFS dp p).
Proof. unfold LoadImageFromSFS. go_move. Qed.
Lemma ConnectController_moves h : quietly (ConnectController h).
Proof. unfold ConnectController. go_move. Qed.
Lemma DisconnectController_moves h : quietly (DisconnectController h).
Proof. unfold DisconnectController. go_move. Qed.
Lemma handlePath_moves h : quietly (handlePath h).
Proof. unfold handlePath. go_move. Qed.
Hint Resolve handlePath_moves : gomove.
Lemma childAmong_moves p hs : quietly (childAmong p hs).
Proof. induction hs as [|h hs IH]; cbn [childAmong]; go_move. Qed.
Hint Resolve childAmong_moves : gomove.
Lemma SFSChildOf_moves h : quietly (SFSChildOf h).
Proof. unfold SFSChildOf. go_move. Qed.

Lemma efiCall_ok c (s s' : Machine F) a : efiCall c s = (Ok a, s') ->
  mc_calls s' = mc_calls s ++ [(c, mc_mem s, a)] /\ mc_bs s' = mc_bs s /\ mc_image s' = mc_image s.
Proof. unfold efiCall. destruct (fwStep _ _ _) as [[a' m] f]. by intros [= <- <-]. Qed.

Lemma success_ok' a (s s' : Machine F) u : success a s = (Ok u, s') -> ba_status a = efiSuccess /\ s' = s.
Proof. unfold success. intros [Hs [_ ->]%ret_ok]%guard_ok. split; [lia|done]. Qed.

Lemma readMem_ok {A} (r : memory -> out A) (s s' : Machine F) a : readMem r s = (Ok a, s') -> r (mc_mem s) = Ok a /\ s' = s.
Proof. unfold readMem. by intros [= -> ->]. Qed.

(** The firmware was given the path of the file, and no bytes. *)
Lemma LoadImageFromSFS_ok sfs p (s s' : Machine F) h :
  LoadImageFromSFS sfs p s = (Ok h, s') ->
  exists dp a, filePath sfs p dp /\ mc_calls s' = mc_calls s ++ [(bsLoadImage 0 (mc_image s) dp [], mc_mem s, a)] /\
    ba_status a = efiSuccess /\ ba_out a = h.
Proof.
  unfold LoadImageFromSFS, needBootServices. intros ([] & s0 & Hb & (image & s1 & [= <- <-] & [_ (dp & s2 & [Hdp%buildPath_ok ->]%lift_ok & Hk)%bind_ok]%guard_ok)%bind_ok)%bind_ok.
  apply bind_ok in Hb as (bs & s3 & [= <- <-] & [_ [_ ->]%ret_ok]%guard_ok).
  apply bind_ok in Hk as (a & s3 & [Hc _]%efiCall_ok & ([] & s4 & [Hst ->]%success_ok' & [-> ->]%ret_ok)%bind_ok). by exists dp, a.
Qed.

(** The path of a handle, by the answer to one call. *)
Lemma handlePath_ok h (s s' : Machine F) dp :
  handlePath h s = (Ok dp, s') ->
  exists a, mc_calls s' = mc_calls s ++ [(bsHandleProtocol h EFIDevicePathProtocolGUID, mc_mem s, a)] /\ ba_status a = efiSuccess /\
    pathAt (mc_mem s') (ba_out a) dp.
Proof.
  unfold handlePath, HandleProtocol, needBootServices. intros [_ (iface & s1 & Hh & [_ [Hp ->]%readMem_ok]%guard_ok)%bind_ok]%guard_ok.
  apply bind_ok in Hh as ([] & s2 & (bs & s3 & [= <- <-] & [_ [_ ->]%ret_ok]%guard_ok)%bind_ok & (a & s4 & [Hc _]%efiCall_ok & ([] & s5 & [Hst ->]%success_ok' & [-> ->]%ret_ok)%bind_ok)%bind_ok).
  apply pathWalk_ok in Hp as (path & -> & Hp). by exists a.
Qed.

(** The memory that the first of the calls made since [s] found, or the memory
    now: nothing but the firmware writes to it. *)
Definition firstMem (calls : list (bootCall * memory * bootAnswer)) (m : memory) : memory :=
  match calls with [] => m | (_, m0, _) :: _ => m0 end.
Definition looked (s s' : Machine F) : Prop :=
  exists new, mc_calls s' = mc_calls s ++ new /\ firstMem new (mc_mem s') = mc_mem s.
#[local] Instance looked_preorder : PreOrder looked.
Proof.
  split; [intros s; exists []; by rewrite app_nil_r|]. intros a b c (n1 & E1 & M1) (n2 & E2 & M2). exists (n1 ++ n2).
  rewrite E2, E1, app_assoc. split; [done|]. destruct n1; cbn in *; [by rewrite M2|done].
Qed.
Lemma efiCall_looked c : moves looked (efiCall c).
Proof. intros s. unfold efiCall. destruct (fwStep _ _ _) as [[a m] f]. by exists [(c, mc_mem s, a)]. Qed.
Lemma readMem_looked {A} (r : memory -> out A) : moves looked (readMem r).
Proof. intros s. exists []. by rewrite app_nil_r. Qed.
Hint Resolve efiCall_looked readMem_looked : gomove.
Lemma handlePath_looked h : moves looked (handlePath h).
Proof. unfold handlePath, HandleProtocol, needBootServices, success. go_move; apply moves_gets; apply _. Qed.
Hint Resolve handlePath_looked : gomove.
Lemma childAmong_looked parentDP hs : moves looked (childAmong parentDP hs).
Proof. induction hs as [|h hs IH]; cbn [childAmong]; go_move. Qed.

(** The child is a handle of the list, and the last one asked: its path lies
    below the parent's. *)
Lemma childAmong_ok parentDP hs (s s' : Machine F) h dp :
  childAmong parentDP hs s = (Ok (h, dp), s') ->
  h ∈ hs /\ below parentDP dp /\ exists mid m a,
    mc_calls s' = mc_calls s ++ mid ++ [(bsHandleProtocol h EFIDevicePathProtocolGUID, m, a)] /\
    firstMem mid m = mc_mem s /\ ba_status a = efiSuccess /\ pathAt (mc_mem s') (ba_out a) dp.
Proof.
  revert s. induction hs as [|x hs IH]; intros s; cbn [childAmong]; [done|]. intros (r & s1 & Ht & Hk)%bind_ok.
  assert (childAmong parentDP hs s1 = (Ok (h, dp), s') -> h ∈ x :: hs /\ below parentDP dp /\ exists mid m a,
    mc_calls s' = mc_calls s ++ mid ++ [(bsHandleProtocol h EFIDevicePathProtocolGUID, m, a)] /\
    firstMem mid m = mc_mem s /\ ba_status a = efiSuccess /\ pathAt (mc_mem s') (ba_out a) dp) as Hnext.
  { intros (Hin & Hb & mid & m & a & Ec & Hm & Hrest)%IH. split; [by right|]. split; [done|].
    assert (looked s s1) as (n1 & E1 & M1). { pose proof (moves_step looked _ _ _ _ Ht (moves_try _ _ (handlePath_looked x))) as Hs. exact Hs. }
    exists (n1 ++ mid), m, a. rewrite Ec, E1, <- !app_assoc. split; [done|]. split; [|done]. rewrite <- M1. destruct n1; [exact Hm|done]. }
  destruct r as [xdp|e]; [|by apply Hnext]. apply bind_ok in Hk as (b & s2 & [Hb ->]%lift_ok & Hk). destruct b; [|by apply Hnext].
  apply ret_ok in Hk as [[= -> ->] ->]. split; [left|]. split; [by apply devicePathPrefix_below|]. unfold try in Ht.
  destruct (handlePath x s) as [[y|e|] s3] eqn:Eh; try discriminate Ht. injection Ht as -> ->.
  apply handlePath_ok in Eh as (a & Ec & Hst & Hp). exists [], (mc_mem s), a. by split_and!.
Qed.

Lemma readHandles_in m h n : forall p hs, readHandles m p n = Ok hs -> h ∈ hs -> exists i, 0 <= i < Z.of_nat n /\ loadU64 m (p + 8 * i) = Ok h.
Proof.
  induction n as [|n IH]; intros p hs; cbn [readHandles]; [by intros [= <-] ?%not_elem_of_nil|]. destruct (loadU64 m p) as [x|e|] eqn:Ex; cbn [out_bind]; [|done..].
  destruct (readHandles m (p + 8) n) as [r|e|] eqn:Er; cbn [out_bind]; [|done..]. intros [= <-] [->|Hin]%elem_of_cons.
  - exists 0. split; [lia|]. by rewrite Z.mul_0_r, Z.add_0_r.
  - destruct (IH _ _ Er Hin) as (i & Hi & E). exists (1 + i). split; [lia|]. rewrite <- E. f_equal. lia.
Qed.

(** A volume [h] of path [dp] below the device [parent], by the calls that the
    search makes: the path of the device, the volumes that the firmware lists,
    and the path of one of them, each read from where the answer points, in the
    memory that the next call finds. *)
Definition volumeBelow (parent h : Z) (dp : list byte) (calls : list (bootCall * memory * bootAnswer)) (m' : memory) : Prop :=
  exists m1 a1 m2 a2 mid m3 a3 parentDP i,
    calls = [(bsHandleProtocol parent EFIDevicePathProtocolGUID, m1, a1); (bsLocateHandleBuffer 2 EFISimpleFileSystemProtocolGUID, m2, a2)] ++
      mid ++ [(bsHandleProtocol h EFIDevicePathProtocolGUID, m3, a3)] /\
    ba_status a1 = efiSuccess /\ pathAt m2 (ba_out a1) parentDP /\
    ba_status a2 = efiSuccess /\ 0 <= i < ba_count a2 /\ loadU64 (firstMem mid m3) (ba_out a2 + 8 * i) = Ok h /\
    ba_status a3 = efiSuccess /\ pathAt m' (ba_out a3) dp /\ below parentDP dp.

Lemma SFSChildOf_ok parent (s s' : Machine F) h dp :
  SFSChildOf parent s = (Ok (h, dp), s') ->
  exists new, mc_calls s' = mc_calls s ++ new /\ volumeBelow parent h dp new (mc_mem s').
Proof.
  unfold SFSChildOf. intros [Hp (parentDP & s1 & Hh & (hs & s2 & Hl & Hk)%bind_ok)%bind_ok]%guard_ok. apply handlePath_ok in Hh as (a1 & E1 & Hst1 & Hp1).
  apply childAmong_ok in Hk as (Hin & Hb & mid & m3 & a3 & E3 & Hm & Hst3 & Hp3).
  unfold LocateHandleBuffer, needBootServices in Hl. apply bind_ok in Hl as ([] & t & Hl0 & Hl). apply bind_ok in Hl0 as (bs & t1 & [= <- <-] & [_ [_ ->]%ret_ok]%guard_ok).
  apply bind_ok in Hl as (a2 & t2 & [E2 _]%efiCall_ok & ([] & t3 & [Hst2 ->]%success_ok' & Hl)%bind_ok).
  destruct (_ || _) eqn:Ez; [apply ret_ok in Hl as [-> _]; by apply not_elem_of_nil in Hin|].
  apply bind_ok in Hl as ([] & t4 & [_ ->]%lift_ok & [Hr ->]%readMem_ok). destruct (readHandles_in _ _ _ _ _ Hr Hin) as (i & Hi & Eh).
  eexists. split; [rewrite E3, E2, E1, <- !app_assoc; reflexivity|]. exists (mc_mem s), a1, (mc_mem s1), a2, mid, m3, a3, parentDP, i.
  split_and!; try done; [lia|lia|]. by rewrite Hm.
Qed.

(** ** The walk refines the comparison of paths *)

(** The firmware answers these two questions by a function, and they change
    nothing of what the walk reads. *)
Variable I : Machine F -> Prop.
Variable m : memory.
Variable devicePathOf : Z -> Z + error.
Variable sfsHandles : list Z + error.
Hypothesis still : forall s, I s -> mc_mem s = m.
Hypothesis answers : forall s h, I s -> exists s', HandleProtocol h EFIDevicePathProtocolGUID s = (ofSum (devicePathOf h), s') /\ I s'.
Hypothesis locates : forall s, I s -> exists s', LocateHandleBuffer EFISimpleFileSystemProtocolGUID s = (ofSum sfsHandles, s') /\ I s'.

Lemma handlePath_refines h s : I s -> exists s', handlePath h s = (devicePathBytes m devicePathOf h, s') /\ I s'.
Proof using still answers.
  intros Hs. unfold handlePath, devicePathBytes. destruct (h =? 0); [by exists s|]. destruct (answers s h Hs) as (s1 & E1 & Hs1).
  unfold bind. rewrite E1. destruct (devicePathOf h) as [iface|e]; cbn [ofSum]; [|by exists s1]. destruct (iface =? 0); [by exists s1|].
  exists s1. unfold readMem. by rewrite still.
Qed.

Lemma childAmong_refines parentDP hs s : I s -> exists s', childAmong parentDP hs s = (firstChild m devicePathOf parentDP hs, s') /\ I s'.
Proof using still answers.
  revert s. induction hs as [|h hs IH]; intros s Hs; cbn [childAmong firstChild]; [by exists s|].
  destruct (handlePath_refines h s Hs) as (s1 & E1 & Hs1). unfold bind at 1, try. rewrite E1.
  destruct (devicePathBytes m devicePathOf h) as [dp|e|]; [|by apply IH|by exists s1].
  unfold bind, lift. destruct (devicePathPrefix parentDP dp) as [[]|e|]; cbn [out_bind]; [by exists s1|by apply IH|by exists s1..].
Qed.

Lemma SFSChildOf_refines parent s : I s -> exists s', SFSChildOf parent s = (FindSFSChildOf m devicePathOf sfsHandles parent, s') /\ I s'.
Proof using still answers locates.
  intros Hs. unfold SFSChildOf, FindSFSChildOf. destruct (parent =? 0); [by exists s|].
  destruct (handlePath_refines parent s Hs) as (s1 & E1 & Hs1). unfold bind. rewrite E1.
  destruct (devicePathBytes m devicePathOf parent) as [dp|e|]; cbn [out_bind]; [|by exists s1..].
  destruct (locates s1 Hs1) as (s2 & -> & Hs2). destruct sfsHandles as [hs|e]; cbn [ofSum]; [by apply childAmong_refines|by exists s2].
Qed.
End wrapped.
#[export] Hint Resolve LoadImageFromSFS_moves ConnectController_moves DisconnectController_moves SFSChildOf_moves : gomove.
