(* ===== verification/VirtioPci.v ===== *)
(** * PCI devices

    uefiboard: pci_io_protocol_tamago.go and pci_mem_io.go (the accessors of
    EFI_PCI_IO_PROTOCOL) and virtio_uefi_transport.go (the adapter that hands them
    to the virtio drivers, with its page allocator); the searches for virtio
    devices of src/phase2_oci_kernel_boot.go, which ten other programs repeat
    under other names, and of phase3_oci_doom_boot.go.  The drivers are
    another module; the numbers they give virtio devices are parameters. *)

From S2P Require Import Prelude Effects LittleEndian Memory MemMap BootServices LoadSfs.

(** The slots of the protocol (pci_io_protocol.go). *)
Definition pciIOMemRead : Z := 16.
Definition pciIOMemWrite : Z := 24.
Definition pciIOPciRead : Z := 48.
Definition pciIOPciWrite : Z := 56.
Definition pciIOAttributes : Z := 120.
Definition pciIOGetBarAttributes : Z := 128.
Definition EFIPciIOWidthUint8 : Z := 0.
Definition EFIPciIOWidthUint16 : Z := 1.
Definition EFIPciIOWidthUint32 : Z := 2.
Definition EFIPciIOWidthUint64 : Z := 3.
Definition EFIPciIOAttributeOpGet : Z := 0.
Definition EFIPciIOAttributeOpEnable : Z := 2.
Definition PCICfgVendorID : Z := 0.
Definition PCICfgDeviceID : Z := 2.
Definition EFIPciIOProtocolGUID : list byte :=
  [x00; xb2; xf5; x4c; xb8; x68; xa5; x4c; x9e; xec; xb2; x3e; x3f; x50; x02; x9a].

Section access.
Context {F : Type} `{Firmware F}.
Notation FwM := (M (Machine F)).

(** ** Accessors: one scalar, in a variable of the width asked for *)

Definition PciIOReadConfig (pciIO width offset : Z) : FwM Z :=
  a <- efiCall (bsPciIO pciIO pciIOPciRead [width; offset; 1]) ;; success a ;;; ret (ba_out a).
Definition PciIOWriteConfig (pciIO width offset value : Z) : FwM unit :=
  a <- efiCall (bsPciIO pciIO pciIOPciWrite [width; offset; 1; value]) ;; success a.
Definition PciIOReadConfigU8 (pciIO offset : Z) : FwM Z := v <- PciIOReadConfig pciIO EFIPciIOWidthUint8 offset ;; ret (u8 v).
Definition PciIOReadConfigU16 (pciIO offset : Z) : FwM Z := v <- PciIOReadConfig pciIO EFIPciIOWidthUint16 offset ;; ret (u16 v).
Definition PciIOReadConfigU32 (pciIO offset : Z) : FwM Z := v <- PciIOReadConfig pciIO EFIPciIOWidthUint32 offset ;; ret (u32 v).

Definition PciIOMemRead (pciIO width bar offset : Z) : FwM Z :=
  a <- efiCall (bsPciIO pciIO pciIOMemRead [width; bar; offset; 1]) ;; success a ;;; ret (ba_out a).
Definition PciIOMemWrite (pciIO width bar offset value : Z) : FwM unit :=
  a <- efiCall (bsPciIO pciIO pciIOMemWrite [width; bar; offset; 1; value]) ;; success a.
Definition PciIOMemRead8 (pciIO bar offset : Z) : FwM Z := v <- PciIOMemRead pciIO EFIPciIOWidthUint8 bar offset ;; ret (u8 v).
Definition PciIOMemRead16 (pciIO bar offset : Z) : FwM Z := v <- PciIOMemRead pciIO EFIPciIOWidthUint16 bar offset ;; ret (u16 v).
Definition PciIOMemRead32 (pciIO bar offset : Z) : FwM Z := v <- PciIOMemRead pciIO EFIPciIOWidthUint32 bar offset ;; ret (u32 v).
Definition PciIOMemRead64 (pciIO bar offset : Z) : FwM Z := v <- PciIOMemRead pciIO EFIPciIOWidthUint64 bar offset ;; ret (u64 v).
Definition PciIOMemWrite8 (pciIO bar offset v : Z) : FwM unit := PciIOMemWrite pciIO EFIPciIOWidthUint8 bar offset (u8 v).
Definition PciIOMemWrite16 (pciIO bar offset v : Z) : FwM unit := PciIOMemWrite pciIO EFIPciIOWidthUint16 bar offset (u16 v).
Definition PciIOMemWrite32 (pciIO bar offset v : Z) : FwM unit := PciIOMemWrite pciIO EFIPciIOWidthUint32 bar offset (u32 v).
Definition PciIOMemWrite64 (pciIO bar offset v : Z) : FwM unit := PciIOMemWrite pciIO EFIPciIOWidthUint64 bar offset (u64 v).

Definition PciIOAttributesGet (pciIO : Z) : FwM Z :=
  a <- efiCall (bsPciIO pciIO pciIOAttributes [EFIPciIOAttributeOpGet; 0]) ;; success a ;;; ret (ba_out a).
Definition PciIOAttributesEnable (pciIO attrs : Z) : FwM unit :=
  a <- efiCall (bsPciIO pciIO pciIOAttributes [EFIPciIOAttributeOpEnable; attrs]) ;; success a.
Definition PciIOGetBarAttributes (pciIO barIndex : Z) : FwM Z :=
  a <- efiCall (bsPciIO pciIO pciIOGetBarAttributes [barIndex]) ;; success a ;;; ret (ba_out a).

(** ** The drivers' page allocator (UEFITransport.AllocatePages) *)

(** The loop that zeroes the slice of [n] bytes at [p]. *)
Definition zeroSlice (p n : Z) : FwM unit := lift (unsafeSlice p n) ;;; writeMem (fun m => storeBytes m p (make n)).

(** The physical address, and the length of the slice over the pages. *)
Definition UEFIAllocatePages (count : Z) : FwM (Z * Z) :=
  throw_if count <=? 0 with ErrAllocReturnedZero;;
  phys <- AllocatePages EfiBootServicesData (u64 count) ;;
  throw_if phys =? 0 with ErrAllocReturnedZero;;
  let n := u64 (u64 count * EfiPageSize) in
  zeroSlice phys (s64 n) ;;;
  ret (phys, s64 n).

(** The one chunk of the transmit probe (virtio_net_uefi.go): its physical and its
    virtual address. *)
Definition AllocDMABuffer (size : Z) : FwM (Z * Z) :=
  throw_if size =? 0 with ErrAllocReturnedZero;;
  let pages := u64 (size + EfiPageSize - 1) / EfiPageSize in
  phys <- AllocatePages EfiBootServicesData pages ;;
  throw_if phys =? 0 with ErrAllocReturnedZero;;
  zeroSlice phys (s64 (u64 (pages * EfiPageSize))) ;;;
  ret (phys, phys).

(** ** Searches *)

Variable VirtioPCIVendorID : Z.
Variable VirtioPCIDeviceIDModernNet : Z.

(** The interface of a handle and its vendor number; [None] where the source
    goes on with the next handle. *)
Definition pciVendor (h : Z) : FwM (option (Z * Z)) :=
  iface <- try (HandleProtocol h EFIPciIOProtocolGUID) ;;
  match iface with
  | inr _ => ret None
  | inl iface =>
      vid <- try (PciIOReadConfigU16 iface PCICfgVendorID) ;;
      ret (match vid with inl vid => Some (iface, vid) | inr _ => None end)
  end.

Fixpoint virtioNetAmong (handles : list Z) : FwM Z :=
  match handles with
  | [] => ret 0
  | h :: r =>
      v <- pciVendor h ;;
      match v with
      | None => virtioNetAmong r
      | Some (iface, vid) =>
          did <- try (PciIOReadConfigU16 iface PCICfgDeviceID) ;;
          match did with
          | inr _ => virtioNetAmong r
          | inl did =>
              if (vid =? VirtioPCIVendorID) && (did =? VirtioPCIDeviceIDModernNet) then ret iface else virtioNetAmong r
          end
      end
  end.
Definition locateVirtioNet : FwM Z :=
  handles <- try (LocateHandleBuffer EFIPciIOProtocolGUID) ;;
  match handles with inr _ => ret 0 | inl handles => virtioNetAmong handles end.

(** The first display, sound card and input device. *)
Record doomDevices := mkDoom { gpuPCI : Z; sndPCI : Z; inPCI : Z }.
Definition doomDevice (did iface : Z) (d : doomDevices) : doomDevices :=
  if did =? 0x1050 then (if gpuPCI d =? 0 then mkDoom iface (sndPCI d) (inPCI d) else d)
  else if did =? 0x1059 then (if sndPCI d =? 0 then mkDoom (gpuPCI d) iface (inPCI d) else d)
  else if did =? 0x1052 then (if inPCI d =? 0 then mkDoom (gpuPCI d) (sndPCI d) iface else d)
  else d.
Fixpoint doomAmong (handles : list Z) (d : doomDevices) : FwM doomDevices :=
  match handles with
  | [] => ret d
  | h :: r =>
      v <- pciVendor h ;;
      match v with
      | None => doomAmong r d
      | Some (iface, vid) =>
          if negb (vid =? VirtioPCIVendorID) then doomAmong r d
          else
            did <- try (PciIOReadConfigU16 iface PCICfgDeviceID) ;;
            match did with inr _ => doomAmong r d | inl did => doomAmong r (doomDevice did iface d) end
      end
  end.
Definition findVirtioDOOMDevices (handles : list Z) : FwM doomDevices := doomAmong handles (mkDoom 0 0 0).

(** Firmware drivers taken off every virtio handle; the number of handles freed. *)
Fixpoint detachFrom (handles : list Z) (detached : Z) : FwM Z :=
  match handles with
  | [] => ret detached
  | h :: r =>
      v <- pciVendor h ;;
      match v with
      | None => detachFrom r detached
      | Some (_, vid) =>
          if negb (vid =? VirtioPCIVendorID) then detachFrom r detached
          else
            e <- try (DisconnectController h) ;;
            match e with inr _ => detachFrom r detached | inl _ => detachFrom r (detached + 1) end
      end
  end.
Definition preDetachVirtioHandles (handles : list Z) : FwM Z := detachFrom handles 0.

(** What runOCIDOOMBootProbe does before the drivers take over: the number of
    handles freed, and the devices. *)
Definition locateDOOMDevices : FwM (Z * doomDevices) :=
  handles <- LocateHandleBuffer EFIPciIOProtocolGUID ;;
  detached <- preDetachVirtioHandles handles ;;
  devices <- findVirtioDOOMDevices handles ;;
  ret (detached, devices).
End access.
Arguments PciIOReadConfig {F _}. Arguments PciIOReadConfigU16 {F _}.

(** ** Pages for devices *)

Section pages.
Context {F : Type} `{FirmwareOk F}.
Notation spares m := (moves (@spared F _ _) m).

Lemma AllocatePages_spared t n : spares (AllocatePages t n).
Proof. unfold AllocatePages. go_move. Qed.

(** Zeroing a region that was just handed out: it does not fault, and what the
    caller owned before is as it was. *)
Lemma zeroSlice_fresh (s s1 : Machine F) p n :
  spared s s1 -> mapped (mc_mem s1) p n -> (forall x, within p n x -> ~ owned (mc_fw s) x) -> 0 <= n -> p <> 0 ->
  exists m', zeroSlice p n s1 = (Ok tt, withMem m' s1) /\ holds m' p (make n) /\ spared s (withMem m' s1).
Proof.
  intros Hs Hm Hn Hn0 Hp. assert (len (make n) = n) as El by (rewrite len_make; lia).
  destruct (writeMem_run p (make n) s1) as (m' & E & Hh & Ho); [by rewrite El|]. rewrite El in Ho. destruct Hm as (Hp0 & Hpn & _).
  exists m'. split; [|split; [done|by eapply spared_write]]. unfold zeroSlice, bind, lift.
  replace (unsafeSlice p n) with (Ok tt); [done|]. unfold unsafeSlice, u64.
  assert (- p mod 2 ^ 64 = 2 ^ 64 - p \/ n = 0) as Hu by (destruct (Z.eq_dec n 0); [by right|left]; rewrite Z.mod_opp_l_nz, Z.mod_small by (rewrite ?Z.mod_small; lia); lia).
  pose proof (Z.mod_pos_bound (- p) (2 ^ 64)). by replace ((n <? 0) || (- p mod 2 ^ 64 <? n)) with false by lia.
Qed.

(** A call that hands out [pages] pages, zeroed, or nothing at all. *)
Definition zeroedPages (pages : Z) (p : Z) (s s' : Machine F) : Prop :=
  p <> 0 /\ holds (mc_mem s') p (make (pages * EfiPageSize)) /\
  (forall x, within p (pages * EfiPageSize) x -> owned (mc_fw s') x /\ ~ owned (mc_fw s) x) /\ spared s s'.

Lemma zeroPages_run pages (s : Machine F) :
  0 < pages < 2 ^ 51 ->
  match (phys <- AllocatePages EfiBootServicesData pages ;; throw_if phys =? 0 with ErrAllocReturnedZero;;
         zeroSlice phys (pages * EfiPageSize) ;;; ret phys) s with
  | (Ok p, s') => zeroedPages pages p s s'
  | (Err _, s') => spared s s'
  | (Panic, _) => False
  end.
Proof.
  intros Hp. unfold bind at 1. pose proof (AllocatePages_spared EfiBootServicesData pages s) as Hs.
  destruct (AllocatePages _ _ s) as [[p|e|] s1] eqn:Ea; cbn [snd] in Hs; [|done|].
  - apply AllocatePages_ok in Ea as (_ & Hm & Hx); [|lia]. destruct (Z.eqb_spec p 0) as [|Hp0]; [done|].
    destruct (zeroSlice_fresh s s1 p (pages * EfiPageSize) Hs Hm) as (m' & E & Hh & Hs'); [intros x Hw; by apply Hx|unfold EfiPageSize; lia|done|].
    unfold bind. rewrite E. split; [done|]. split; [done|]. split; [done|done].
  - clear -Ea. unfold AllocatePages, needBootServices, success, efiCall, bind, gets, ret, throw in Ea.
    destruct (mc_bs s =? 0); [done|]. destruct (pages =? 0); [done|]. destruct (fwStep _ _ _) as [[a m] f]. by destruct (negb _).
Qed.

(** What the virtio drivers are given for their queues: an allocation of pages
    never faults; it fails and changes nothing of the caller's, or its slice is
    the whole of so many pages, zeroed, that were nobody's before. *)
Theorem dma_pages_zeroed count (s : Machine F) :
  0 < count < 2 ^ 51 ->
  match UEFIAllocatePages count s with
  | (Ok (p, n), s') => n = count * EfiPageSize /\ zeroedPages count p s s'
  | (Err _, s') => spared s s'
  | (Panic, _) => False
  end.
Proof.
  intros Hc. pose proof (zeroPages_run count s Hc) as Hz. unfold UEFIAllocatePages. rewrite (u64_small count) by lia.
  rewrite (u64_small (count * EfiPageSize)), s64_small by (unfold EfiPageSize; lia).
  rewrite (proj2 (Z.leb_gt count 0)) by lia. unfold bind in *. destruct (AllocatePages _ _ s) as [[p|e|] s1]; [|done..].
  destruct (p =? 0); [done|]. destruct (zeroSlice p _ s1) as [[[]|e|] s2]; done.
Qed.

(** The transmit probe's buffer: the fewest pages that hold it. *)
Lemma AllocDMABuffer_spec size (s : Machine F) :
  0 < size < 2 ^ 60 ->
  match AllocDMABuffer size s with
  | (Ok (p, q), s') => q = p /\ exists pages, size <= pages * EfiPageSize < size + EfiPageSize /\ zeroedPages pages p s s'
  | (Err _, s') => spared s s'
  | (Panic, _) => False
  end.
Proof.
  intros Hc. set (pages := (size + EfiPageSize - 1) / EfiPageSize). assert (size <= pages * EfiPageSize < size + EfiPageSize) as Hr.
  { unfold pages, EfiPageSize. Z.to_euclidean_division_equations. lia. }
  assert (0 < pages < 2 ^ 51) as Hp by (unfold EfiPageSize in Hr; lia).
  pose proof (zeroPages_run pages s Hp) as Hz. unfold AllocDMABuffer. rewrite (u64_small (_ - 1)) by (unfold EfiPageSize; lia). cbv zeta. fold pages.
  rewrite (u64_small (pages * EfiPageSize)), s64_small by (unfold EfiPageSize; lia).
  rewrite (proj2 (Z.eqb_neq size 0)) by lia. unfold bind in *. destruct (AllocatePages _ _ s) as [[p|e|] s1]; [|done..].
  destruct (p =? 0); [done|]. destruct (zeroSlice p _ s1) as [[[]|e|] s2]; [|done..]. split; [done|]. by exists pages.
Qed.
End pages.

(** ** Searches *)

(** What the firmware says of the PCI handles: their interfaces, and the words of
    the configuration space behind each. *)
Record pciBus := mkBus { interfaceOf : Z -> Z + error; configWord : Z -> Z -> Z + error }.

Section bus.
Variable B : pciBus.
Variable vendor : Z.

(** Whether a handle is a virtio device, and the interface of the handle when it
    is the virtio device with this number. *)
Definition isVirtio (h : Z) : bool :=
  match interfaceOf B h with
  | inl i => match configWord B i PCICfgVendorID with inl v => v =? vendor | inr _ => false end
  | inr _ => false
  end.
Definition virtioDevice (did h : Z) : option Z :=
  match interfaceOf B h with
  | inl i =>
      match configWord B i PCICfgVendorID, configWord B i PCICfgDeviceID with
      | inl v, inl d => if (v =? vendor) && (d =? did) then Some i else None
      | _, _ => None
      end
  | inr _ => None
  end.
(** The first of them; 0 when there is none. *)
Definition firstDevice (did : Z) (handles : list Z) : Z := hd 0 (omap (virtioDevice did) handles).
(** The first with an interface that is not null. *)
Definition firstUsable (did : Z) (handles : list Z) : Z := hd 0 (filter (fun i => i <> 0) (omap (virtioDevice did) handles)).

Lemma firstUsable_snoc did h hs :
  firstUsable did (hs ++ [h]) = if firstUsable did hs =? 0 then from_option id 0 (virtioDevice did h) else firstUsable did hs.
Proof.
  unfold firstUsable. rewrite omap_app, filter_app. destruct (filter _ (omap (virtioDevice did) hs)) as [|x l] eqn:E; cbn [app hd].
  - cbn [Z.eqb]. cbn [omap list_omap]. destruct (virtioDevice did h) as [i|]; [|done]. cbn [from_option id]. rewrite filter_cons. case_decide; [done|]. cbn. lia.
  - assert (x <> 0) as Hx; [|by rewrite (proj2 (Z.eqb_neq x 0))].
    assert (x ∈ filter (fun i => i <> 0) (omap (virtioDevice did) hs)) as Hin by (rewrite E; left). apply list_elem_of_filter in Hin as [Hx _]. exact Hx.
Qed.
End bus.

(** The handles that DisconnectController was called on, with the answers. *)
Definition disconnected (calls : list (bootCall * memory * bootAnswer)) : list (Z * Z) :=
  omap (fun e => match fst (fst e) with bsDisconnectController h => Some (h, ba_status (snd e)) | _ => None end) calls.
Lemma disconnected_app a b : disconnected (a ++ b) = disconnected a ++ disconnected b.
Proof. apply omap_app. Qed.
Definition freed (d : Z * Z) : bool := (snd d =? efiSuccess) || (snd d =? efiNotFound).

Section search.
Context {F : Type} `{Firmware F}.
Variable VirtioPCIVendorID VirtioPCIDeviceIDModernNet : Z.

(** The firmware answers about the bus as [B] says, through [I]: neither the
    questions nor taking a driver off a device change that. *)
Variable B : pciBus.
Variable handles : list Z.
Variable I : Machine F -> Prop.
Hypothesis booting : forall s, I s -> mc_bs s <> 0.
Hypothesis interfaces : forall s h, I s -> exists s', HandleProtocol h EFIPciIOProtocolGUID s = (ofSum (interfaceOf B h), s') /\ I s' /\ disconnected (mc_calls s') = disconnected (mc_calls s).
Hypothesis words : forall s i o, I s -> exists s', PciIOReadConfigU16 i o s = (ofSum (configWord B i o), s') /\ I s' /\ disconnected (mc_calls s') = disconnected (mc_calls s).
Hypothesis buffers : forall s, I s -> exists s', LocateHandleBuffer EFIPciIOProtocolGUID s = (Ok handles, s') /\ I s' /\ disconnected (mc_calls s') = disconnected (mc_calls s).
Hypothesis disconnects : forall s h a s', I s -> efiCall (bsDisconnectController h) s = (Ok a, s') -> I s'.

Definition same (s s' : Machine F) : Prop := I s' /\ disconnected (mc_calls s') = disconnected (mc_calls s).

(** The question for a device's number, and the calls of the two phases: taking
    drivers off asks no such question, and searching takes nothing off. *)
Definition asksNumber (c : bootCall) : bool :=
  match c with bsPciIO _ slot (_ :: offset :: _) => (slot =? pciIOPciRead) && (offset =? PCICfgDeviceID) | _ => false end.
Definition detaching (c : bootCall) : Prop := asksNumber c = false.
Definition searching (c : bootCall) : Prop := match c with bsDisconnectController _ => False | _ => True end.
Hint Extern 1 (detaching _) => reflexivity : gomove.
Hint Extern 1 (searching _) => exact Logic.I : gomove.

Lemma pciVendor_calling (P : bootCall -> Prop) h :
  (forall g, P (bsHandleProtocol h g)) -> (forall i, P (bsPciIO i pciIOPciRead [EFIPciIOWidthUint16; PCICfgVendorID; 1])) -> moves (calling P) (pciVendor h).
Proof. intros H1 H2. unfold pciVendor, PciIOReadConfigU16, PciIOReadConfig. go_move. Qed.
Lemma detachFrom_calling hs d : moves (calling detaching) (detachFrom VirtioPCIVendorID hs d).
Proof.
  revert d. induction hs as [|h hs IH]; intros d; cbn [detachFrom]; [go_move|]. apply moves_bind; [apply _|by apply pciVendor_calling|].
  unfold DisconnectController. go_move.
Qed.
Lemma doomAmong_calling hs d : moves (calling searching) (doomAmong VirtioPCIVendorID hs d).
Proof.
  revert d. induction hs as [|h hs IH]; intros d; cbn [doomAmong]; [go_move|]. apply moves_bind; [apply _|by apply pciVendor_calling|].
  unfold PciIOReadConfigU16, PciIOReadConfig. go_move.
Qed.

(** Both questions of a search, in one step. *)
Lemma pciVendor_run h s : I s ->
  exists s', pciVendor h s = (Ok (match interfaceOf B h with
      | inl i => match configWord B i PCICfgVendorID with inl v => Some (i, v) | inr _ => None end
      | inr _ => None end), s') /\ same s s'.
Proof using interfaces words.
  intros Hs. unfold pciVendor, bind, try. destruct (interfaces s h Hs) as (s1 & -> & Hs1 & E1).
  destruct (interfaceOf B h) as [i|e]; cbn [ofSum]; [|by exists s1].
  destruct (words s1 i PCICfgVendorID Hs1) as (s2 & -> & Hs2 & E2). exists s2. split; [by destruct (configWord _ _ _)|]. split; [done|congruence].
Qed.

Lemma same_trans a b c : same a b -> same b c -> same a c.
Proof. intros [_ E1] [Hc E2]. split; [done|congruence]. Qed.

Lemma virtioNetAmong_run hs s : I s ->
  exists s', virtioNetAmong VirtioPCIVendorID VirtioPCIDeviceIDModernNet hs s = (Ok (firstDevice B VirtioPCIVendorID VirtioPCIDeviceIDModernNet hs), s') /\ same s s'.
Proof using interfaces words.
  revert s. induction hs as [|h hs IH]; intros s Hs; cbn [virtioNetAmong]; [by exists s|].
  destruct (pciVendor_run h s Hs) as (s1 & E1 & Hs1). unfold bind at 1. rewrite E1. unfold firstDevice. cbn [omap list_omap]. unfold virtioDevice.
  destruct (interfaceOf B h) as [i|e]; [|destruct (IH s1) as (s2 & ? & ?); [apply Hs1|exists s2; split; [done|by eapply same_trans]]].
  destruct (configWord B i PCICfgVendorID) as [v|e]; [|destruct (IH s1) as (s2 & ? & ?); [apply Hs1|exists s2; split; [done|by eapply same_trans]]].
  unfold bind, try. destruct (words s1 i PCICfgDeviceID (proj1 Hs1)) as (s2 & -> & Hs2).
  assert (same s s2) as Hss2 by (by eapply same_trans). destruct (configWord B i PCICfgDeviceID) as [d|e]; cbn [ofSum].
  - destruct (_ && _); [by exists s2|]. destruct (IH s2) as (s3 & ? & ?); [apply Hs2|]. exists s3. split; [done|by eapply same_trans].
  - destruct (IH s2) as (s3 & ? & ?); [apply Hs2|]. exists s3. split; [done|by eapply same_trans].
Qed.

(** A handle whose firmware driver is to be taken off. *)
Definition detachable (h : Z) : bool := negb (h =? 0) && isVirtio B VirtioPCIVendorID h.

(** DisconnectController makes one call, and reports its answer. *)
Lemma DisconnectController_run h s : I s -> h <> 0 ->
  exists s' st, try (DisconnectController h) s = (Ok (if freed (h, st) then inl tt else inr (ErrEFI st)), s') /\ I s' /\
    disconnected (mc_calls s') = disconnected (mc_calls s) ++ [(h, st)].
Proof using booting disconnects.
  intros Hs Hh. destruct (efiCall (bsDisconnectController h) s) as [o s1] eqn:E. assert (exists a, o = Ok a) as [a ->].
  { unfold efiCall in E. destruct (fwStep _ _ _) as [[a m] f]. injection E as <- <-. by exists a. }
  exists s1, (ba_status a). pose proof (disconnects _ _ _ _ Hs E) as Hs1. apply efiCall_ok in E as E'. destruct E' as (Ec & _ & _).
  split; [|split; [done|by rewrite Ec, disconnected_app]]. unfold try, DisconnectController, needBootServices, gets, id, throw, ret.
  rewrite (proj2 (Z.eqb_neq h 0)) by done. unfold bind at 1 2. cbv beta iota. rewrite (proj2 (Z.eqb_neq (mc_bs s) 0)) by (by apply booting).
  unfold bind. rewrite E. unfold freed. cbn [snd]. destruct (ba_status a =? efiSuccess), (ba_status a =? efiNotFound); reflexivity.
Qed.

Lemma detachFrom_run hs d s : I s ->
  exists s' new, detachFrom VirtioPCIVendorID hs d s = (Ok (d + len (filter freed new)), s') /\ I s' /\
    disconnected (mc_calls s') = disconnected (mc_calls s) ++ new /\ fst <$> new = filter detachable hs.
Proof using interfaces words booting disconnects.
  revert d s. induction hs as [|h hs IH]; intros d s Hs.
  { exists s, []. split; [by rewrite Z.add_0_r|]. split; [done|]. by rewrite app_nil_r. }
  cbn [detachFrom]. destruct (pciVendor_run h s Hs) as (s1 & E1 & [Hs1 Ed1]). unfold bind at 1. rewrite E1.
  assert (detachable h = false -> exists s' new, detachFrom VirtioPCIVendorID hs d s1 = (Ok (d + len (filter freed new)), s') /\ I s' /\
    disconnected (mc_calls s') = disconnected (mc_calls s) ++ new /\ fst <$> new = filter detachable (h :: hs)) as Hskip.
  { intros Hh. destruct (IH d s1 Hs1) as (s2 & new & E2 & Hs2 & Ed2 & Hn). exists s2, new. rewrite Ed2, Ed1, filter_cons_False; [done|rewrite Hh; by intros []]. }
  change (detachable h) with (negb (h =? 0) && isVirtio B VirtioPCIVendorID h) in Hskip. unfold isVirtio in Hskip at 1. destruct (interfaceOf B h) as [i|e] eqn:Ei; [|apply Hskip; lia].
  destruct (configWord B i PCICfgVendorID) as [v|e] eqn:Ev; [|apply Hskip; lia].
  destruct (v =? VirtioPCIVendorID) eqn:Hv; cbn [negb]; [|apply Hskip; lia]. clear Hskip. destruct (Z.eq_dec h 0) as [->|Hh].
  - unfold bind, try, DisconnectController. cbn [Z.eqb]. unfold throw. destruct (IH d s1 Hs1) as (s2 & new & E2 & Hs2 & Ed2 & Hn). exists s2, new.
    rewrite Ed2, Ed1, filter_cons_False; [done|by intros []].
  - destruct (DisconnectController_run h s1 Hs1 Hh) as (s2 & st & E2 & Hs2 & Ed2). unfold bind. rewrite E2.
    assert (detachable h) as Hd by (unfold detachable, isVirtio; rewrite Ei, Ev, Hv, (proj2 (Z.eqb_neq h 0)) by done; done).
    rewrite filter_cons_True by done. destruct (freed (h, st)) eqn:Ef.
    + destruct (IH (d + 1) s2 Hs2) as (s3 & new & E3 & Hs3 & Ed3 & Hn). exists s3, ((h, st) :: new). rewrite filter_cons_True, len_cons by (by rewrite Ef).
      split; [rewrite E3; do 2 f_equal; lia|]. split; [done|]. rewrite Ed3, Ed2, Ed1, <- app_assoc. split; [done|]. cbn. by rewrite Hn.
    + destruct (IH d s2 Hs2) as (s3 & new & E3 & Hs3 & Ed3 & Hn). exists s3, ((h, st) :: new). rewrite filter_cons_False by (rewrite Ef; by intros []).
      split; [done|]. split; [done|]. rewrite Ed3, Ed2, Ed1, <- app_assoc. split; [done|]. cbn. by rewrite Hn.
Qed.

(** What the loop has found once it is past [pre]. *)
Definition doomFirst (pre : list Z) : doomDevices :=
  mkDoom (firstUsable B VirtioPCIVendorID 0x1050 pre) (firstUsable B VirtioPCIVendorID 0x1059 pre) (firstUsable B VirtioPCIVendorID 0x1052 pre).

Lemma doomFirst_snoc pre h :
  doomFirst (pre ++ [h]) =
  match interfaceOf B h with
  | inl i =>
      match configWord B i PCICfgVendorID, configWord B i PCICfgDeviceID with
      | inl v, inl d => if v =? VirtioPCIVendorID then doomDevice d i (doomFirst pre) else doomFirst pre
      | _, _ => doomFirst pre
      end
  | inr _ => doomFirst pre
  end.
Proof.
  unfold doomFirst. rewrite !firstUsable_snoc. unfold virtioDevice, doomDevice. cbn [gpuPCI sndPCI inPCI].
  assert (forall x : Z, (if x =? 0 then 0 else x) = x) as E0 by (intros x; destruct (Z.eqb_spec x 0); lia).
  destruct (interfaceOf B h) as [i|e]; cbn [from_option id]; [|by rewrite !E0].
  destruct (configWord B i PCICfgVendorID) as [v|e], (configWord B i PCICfgDeviceID) as [d|e']; cbn [from_option id]; try by rewrite !E0.
  destruct (v =? VirtioPCIVendorID); cbn [andb from_option id]; [|by rewrite !E0].
  destruct (Z.eqb_spec d 0x1050) as [->|]; [cbn -[firstUsable]; rewrite !E0; by destruct (_ =? 0)|].
  destruct (Z.eqb_spec d 0x1059) as [->|]; [cbn -[firstUsable]; rewrite !E0; by destruct (firstUsable B _ 0x1059 pre =? 0)|].
  destruct (Z.eqb_spec d 0x1052) as [->|]; cbn [from_option id]; rewrite !E0; [by destruct (firstUsable B _ 0x1052 pre =? 0)|done].
Qed.

Lemma doomAmong_run hs pre s : I s ->
  exists s', doomAmong VirtioPCIVendorID hs (doomFirst pre) s = (Ok (doomFirst (pre ++ hs)), s') /\ same s s'.
Proof using interfaces words.
  revert pre s. induction hs as [|h hs IH]; intros pre s Hs; cbn [doomAmong]; [rewrite app_nil_r; by exists s|].
  destruct (pciVendor_run h s Hs) as (s1 & E1 & Hs1). unfold bind at 1. rewrite E1. rewrite (cons_middle h pre hs), app_assoc.
  assert (forall s2 d, same s s2 -> doomFirst (pre ++ [h]) = d ->
    exists s', doomAmong VirtioPCIVendorID hs d s2 = (Ok (doomFirst ((pre ++ [h]) ++ hs)), s') /\ same s s') as Hgo.
  { intros s2 d Hs2 <-. destruct (IH (pre ++ [h]) s2) as (s3 & ? & ?); [apply Hs2|]. exists s3. split; [done|by eapply same_trans]. }
  rewrite doomFirst_snoc in Hgo. destruct (interfaceOf B h) as [i|e]; [|by apply Hgo].
  destruct (configWord B i PCICfgVendorID) as [v|e]; [|by apply Hgo]. destruct (v =? VirtioPCIVendorID); cbn [negb].
  2:{ apply Hgo; [done|]. by destruct (configWord _ _ _). }
  unfold bind, try. destruct (words s1 i PCICfgDeviceID (proj1 Hs1)) as (s2 & -> & Hs2).
  assert (same s s2) as Hss2 by (by eapply same_trans). destruct (configWord B i PCICfgDeviceID) as [d|e]; cbn [ofSum]; by apply Hgo.
Qed.

(** C36. The network card is the interface of the first PCI handle with the numbers of
    a modern virtio network device (where that is null it reads as none), whatever the
    handles before it answer, and the search disturbs no driver.  The display, sound
    card and input device are searched in two phases: first firmware drivers are taken
    off every virtio handle, in order, and off no other, with no question for a
    device's number; then, with no driver touched any more, each device is the first of
    its number whose interface is not null.  The count is that of the removals that
    succeeded or found no driver. *)
Theorem virtio_devices_located s :
  I s ->
  (exists s', locateVirtioNet VirtioPCIVendorID VirtioPCIDeviceIDModernNet s = (Ok (firstDevice B VirtioPCIVendorID VirtioPCIDeviceIDModernNet handles), s') /\
    disconnected (mc_calls s') = disconnected (mc_calls s)) /\
  exists s' pre post, locateDOOMDevices VirtioPCIVendorID s = (Ok (len (filter freed (disconnected pre)), doomFirst handles), s') /\
    mc_calls s' = mc_calls s ++ pre ++ post /\ fst <$> disconnected pre = filter detachable handles /\
    Forall (fun e => asksNumber (fst (fst e)) = false) pre /\ disconnected post = [].
Proof using interfaces words booting disconnects buffers.
  intros Hs. destruct (buffers s Hs) as (s1 & E1 & Hs1 & Ed1). split.
  - destruct (virtioNetAmong_run handles s1 Hs1) as (s2 & E2 & Hs2 & Ed2). exists s2. split; [|congruence].
    unfold locateVirtioNet, bind, try. by rewrite E1.
  - destruct (detachFrom_run handles 0 s1 Hs1) as (s2 & new & E2 & Hs2 & Ed2 & Hn). destruct (doomAmong_run handles [] s2 Hs2) as (s3 & E3 & Hs3 & Ed3).
    assert (calling detaching s s1) as (n1 & L1 & P1) by (eapply moves_step; [exact E1|go_move]).
    assert (calling detaching s1 s2) as (n2 & L2 & P2) by (eapply moves_step; [exact E2|apply detachFrom_calling]).
    assert (calling searching s2 s3) as (post & L3 & _) by (eapply moves_step; [exact E3|apply doomAmong_calling]).
    assert (disconnected n1 = [] /\ disconnected n2 = new /\ disconnected post = []) as (D1 & D2 & D3).
    { rewrite L1, disconnected_app in Ed1. rewrite L2, disconnected_app in Ed2. rewrite L3, disconnected_app in Ed3.
      split; [|split]; [by apply (app_inv_head (disconnected (mc_calls s))); rewrite app_nil_r|by eapply app_inv_head|by apply (app_inv_head (disconnected (mc_calls s2))); rewrite app_nil_r]. }
    exists s3, (n1 ++ n2), post. rewrite disconnected_app, D1, D2. cbn [app]. split_and!; [|by rewrite L3, L2, L1, !app_assoc|done|by apply Forall_app|done].
    unfold locateDOOMDevices, preDetachVirtioHandles, findVirtioDOOMDevices, bind. rewrite E1, E2. change (mkDoom 0 0 0) with (doomFirst []). by rewrite E3.
Qed.
End search.
#[export] Hint Resolve AllocatePages_spared : gomove.

(** ** A bus *)

(** A firmware that answers from a bus: handles 1 to 5, of which 2 is no PCI
    device; 3 is held by a driver that does not let go. *)
Record busFw := mkBusFw { bf_bus : unit }.
Definition demoBus : pciBus :=
  mkBus (fun h => if (h =? 2) || negb ((1 <=? h) && (h <=? 5)) then inr (ErrEFI efiNotFound) else inl (0x100 * h))
    (fun i o =>
       if o =? PCICfgVendorID then (if i =? 0x100 then inl 0x8086 else inl 0x1AF4)
       else if i =? 0x300 then inl 0x1050 else if i =? 0x400 then inl 0x1041 else if i =? 0x500 then inl 0x1041 else inr (ErrEFI efiNotFound)).
Definition ofBus (r : Z + error) : bootAnswer :=
  match r with inl v => mkBootAnswer efiSuccess v 0 | inr _ => mkBootAnswer efiNotFound 0 0 end.
#[global] Instance bus_firmware : Firmware busFw := {
  fwStep c m f :=
    (match c with
     | bsHandleProtocol h _ => ofBus (interfaceOf demoBus h)
     | bsPciIO i _ (_ :: o :: _) => ofBus (configWord demoBus i o)
     | bsLocateHandleBuffer _ _ => mkBootAnswer efiSuccess 0x8000 5
     | bsDisconnectController h => if h =? 3 then mkBootAnswer efiInvalidParameter 0 0 else mkBootAnswer efiSuccess 0 0
     | _ => mkBootAnswer efiSuccess 0 0
     end, m, f)
}.
Definition busMem : memory := allocAt ∅ 0x8000 (concat (le64 <$> [1; 2; 3; 4; 5])).
Definition busStart : Machine busFw := mkMachine (mkBusFw tt) busMem 1 1 [].
Definition busOk (s : Machine busFw) : Prop := mc_mem s = busMem /\ mc_bs s = 1.

Lemma bus_interfaces s h : busOk s ->
  exists s', HandleProtocol h EFIPciIOProtocolGUID s = (ofSum (interfaceOf demoBus h), s') /\ busOk s' /\ disconnected (mc_calls s') = disconnected (mc_calls s).
Proof.
  intros [Hm Hb]. unfold HandleProtocol, needBootServices, success, gets, bind, efiCall, ret, throw, id. rewrite Hb. cbn [Z.eqb fwStep bus_firmware].
  destruct (interfaceOf demoBus h) as [i|e] eqn:E; cbn [ofBus ba_status ba_out].
  - eexists. split; [reflexivity|]. split; [done|]. cbn [mc_calls]. by rewrite disconnected_app, app_nil_r.
  - eexists. split; [unfold interfaceOf, demoBus in E; destruct (_ || _); [injection E as <-; reflexivity|done]|]. split; [done|]. cbn [mc_calls]. by rewrite disconnected_app, app_nil_r.
Qed.

Lemma bus_words s i o : busOk s ->
  exists s', PciIOReadConfigU16 i o s = (ofSum (configWord demoBus i o), s') /\ busOk s' /\ disconnected (mc_calls s') = disconnected (mc_calls s).
Proof.
  intros [Hm Hb]. unfold PciIOReadConfigU16, PciIOReadConfig, success, bind, efiCall, ret, throw. cbn [fwStep bus_firmware].
  destruct (configWord demoBus i o) as [v|e] eqn:E; cbn [ofBus ba_status ba_out].
  - cbn [ofSum]. assert (u16 v = v) as Eu.
    { unfold configWord, demoBus in E. destruct (o =? _); repeat (destruct (i =? _)); try discriminate E; by injection E as <-. }
    eexists. split; [cbn [Z.eqb negb efiSuccess]; by rewrite Eu|]. split; [done|]. cbn [mc_calls]. by rewrite disconnected_app, app_nil_r.
  - assert (e = ErrEFI efiNotFound) as -> by (unfold configWord, demoBus in E; destruct (o =? _); repeat (destruct (i =? _)); try discriminate E; by injection E as <-).
    eexists. split; [reflexivity|]. split; [done|]. cbn [mc_calls]. by rewrite disconnected_app, app_nil_r.
Qed.

Lemma bus_handles : readHandles busMem 0x8000 5 = Ok [1; 2; 3; 4; 5].
Proof. vm_compute. reflexivity. Qed.
Lemma bus_buffers s : busOk s ->
  exists s', LocateHandleBuffer EFIPciIOProtocolGUID s = (Ok [1; 2; 3; 4; 5], s') /\ busOk s' /\ disconnected (mc_calls s') = disconnected (mc_calls s).
Proof.
  intros [Hm Hb]. unfold LocateHandleBuffer, needBootServices, success, gets, bind, efiCall, ret, throw, id, lift, readMem. rewrite Hb. cbn [Z.eqb fwStep bus_firmware ba_status ba_out ba_count mc_mem].
  rewrite Hm. change (negb (efiSuccess =? efiSuccess)) with false. change (unsafeSlice 0x8000 (8 * 5)) with (Ok tt). change (Z.to_nat 5) with 5%nat.
  cbn [orb mc_mem]. rewrite bus_handles. eexists. split; [reflexivity|]. split; [split; [reflexivity|exact Hb]|].
  cbn [mc_calls]. rewrite disconnected_app. apply app_nil_r.
Qed.

Lemma bus_disconnects s h a s' : busOk s -> efiCall (bsDisconnectController h) s = (Ok a, s') -> busOk s'.
Proof. intros [Hm Hb]. unfold efiCall. cbn [fwStep bus_firmware]. intros [= _ <-]. done. Qed.

Lemma bus_freed : disconnected (mc_calls (snd (locateDOOMDevices 0x1AF4 busStart))) = [(3, efiInvalidParameter); (4, efiSuccess); (5, efiSuccess)].
Proof. vm_compute. reflexivity. Qed.

(** The card is the one behind handle 4; the driver of handle 3 stays, and the
    display behind it is used all the same. *)
Lemma virtio_devices_located_witness :
  (exists s', locateVirtioNet 0x1AF4 0x1041 busStart = (Ok 0x400, s') /\ disconnected (mc_calls s') = []) /\
  exists s' pre post, locateDOOMDevices 0x1AF4 busStart = (Ok (2, mkDoom 0x300 0 0), s') /\
    mc_calls s' = pre ++ post /\ fst <$> disconnected pre = [3; 4; 5] /\ disconnected post = [].
Proof.
  destruct (virtio_devices_located 0x1AF4 0x1041 demoBus [1; 2; 3; 4; 5] busOk (fun s Hs => ltac:(by rewrite (proj2 Hs))) bus_interfaces bus_words bus_buffers bus_disconnects busStart (conj eq_refl eq_refl))
    as [(s1 & E1 & D1) (s2 & pre & post & E2 & L & Hn & _ & Hp)].
  assert (firstDevice demoBus 0x1AF4 0x1041 [1; 2; 3; 4; 5] = 0x400) as V1 by (vm_compute; reflexivity). rewrite V1 in E1.
  assert (doomFirst 0x1AF4 demoBus [1; 2; 3; 4; 5] = mkDoom 0x300 0 0) as V2 by (vm_compute; reflexivity). rewrite V2 in E2.
  split; [exists s1; split; [exact E1|exact D1]|]. exists s2, pre, post. split; [|split; [exact L|split; [exact Hn|exact Hp]]]. clear E1 D1 V1 V2 s1.
  assert (snd (locateDOOMDevices 0x1AF4 busStart) = s2) as <- by (rewrite E2; reflexivity). clear Hn. pose proof bus_freed as Hf. rewrite L in Hf.
  change (mc_calls busStart) with (@nil (bootCall * memory * bootAnswer)) in Hf. cbn [app] in Hf. rewrite disconnected_app, Hp, app_nil_r in Hf. rewrite Hf in E2. exact E2.
Defined.

Lemma toy_allocates : match UEFIAllocatePages 2 toyMachine with (Ok _, _) => true | _ => false end = true.
Proof. vm_compute. reflexivity. Qed.
Lemma dma_pages_zeroed_witness : exists p s', UEFIAllocatePages 2 toyMachine = (Ok (p, 2 * EfiPageSize), s') /\ zeroedPages 2 p toyMachine s'.
Proof.
  generalize (dma_pages_zeroed 2 toyMachine ltac:(lia)), toy_allocates.
  destruct (UEFIAllocatePages 2 toyMachine) as [[[p n]|e|] s']; [|discriminate..]. intros [-> H] _. by exists p, s'.
Defined.
