(* ===== verification/NetUp.v ===== *)
(** * Bringing up the network

    What every network program under src/ does first (phase2_oci_kernel_boot.go
    and phase2_dhcp_oci_menu.go among them, under other names): the first virtio
    network card is opened, a stack is started over it, and the lease of a DHCP
    server becomes its address and default route; then the embedded root certificates
    are parsed.  The card's driver is another module, so opening it is a parameter, as
    is crypto/x509's parser. *)

From S2P Require Import Prelude Effects NetIP Ethernet IPv4 Udp Arp TcpConn Stack StackTcp Provenance Dhcp GoStr Tls MemMap Memory BootServices VirtioPci.

Section up.
Context {L : Type} `{Link L}.
Notation StM := (M (Stack L)).

(** From [s.Start()] to the registry: the lease. *)
Definition bringUp : StM DHCP4Lease :=
  Start ;;;
  lease <- DHCP4Acquire ;;
  throw_if bool_decide (lease_DNS lease = []) with ErrNoDNSServer;;
  SetIPv4Address (lease_IP lease) (default [] (lease_Mask lease)) ;;;
  match lease_Gateway lease with
  | Some gw => SetDefaultGateway (Some gw)
  | None => ret tt
  end ;;;
  ret lease.

(** The whole of it, over the firmware: the stack, and the DNS server for the
    registry client. *)
Definition networkUp {F} `{Firmware F} {R} (VirtioPCIVendorID VirtioPCIDeviceIDModernNet : Z) (OpenVirtioNet : Z -> M (Machine F) L)
  (appendCertsFromPEM : list byte -> option R) (embeddedCABundlePEM : list byte)
  : M (Machine F) (Stack L * IP) :=
  pciIO <- locateVirtioNet VirtioPCIVendorID VirtioPCIDeviceIDModernNet ;;
  throw_if pciIO =? 0 with ErrNoVirtioNet;;
  link <- OpenVirtioNet pciIO ;;
  let '(r, s) := bringUp (New link) in
  lease <- lift r ;;
  lift (NewRootCAs appendCertsFromPEM embeddedCABundlePEM) ;;;
  ret (s, match lease_DNS lease with dns :: _ => dns | [] => [] end).
End up.

(** ** The route *)

Section route.
Context {L : Type} `{Link L}.
Notation keepsRoute m := (frames (@st_route L) m).

(** What keeps the state of the connections apart keeps the route. *)
Lemma frames_route {A} (m : M (Stack L) A) : frames connState m -> keepsRoute m.
Proof. intros Hm s. specialize (Hm s). unfold connState in Hm. congruence. Qed.

Lemma onConn_route {A} p (m : M (TCP4Conn * Stack L) A) : frames (fun x => st_route (snd x)) m -> keepsRoute (onConn p m).
Proof.
  intros Hm s. unfold onConn. destruct (st_tcp s !! p) as [c|]; [|done]. specialize (Hm (c, s)). by destruct (m (c, s)) as [r [c' s']].
Qed.

Lemma deliver_route h payload : frames (fun x : TCP4Conn * Stack L => st_route (snd x)) (deliverSegment h payload).
Proof.
  intros x. pose proof (deliverSegment_frames connState h payload sendSegmentSt_frame x) as Hf. unfold connState in Hf. congruence.
Qed.

Lemma handleTCP4_route h body : keepsRoute (handleTCP4 h body).
Proof. unfold handleTCP4, derefTCP. go_frame. apply onConn_route, deliver_route. Qed.
Lemma handleUDP4_route h body : keepsRoute (handleUDP4 h body).
Proof. unfold handleUDP4, deliverUDP, derefUDP, storeUDP. go_frame. Qed.
Lemma handleICMP_route h body : keepsRoute (handleICMP h body).
Proof. unfold handleICMP. go_frame; apply frames_route; auto with goframe. Qed.
Hint Resolve handleTCP4_route handleUDP4_route handleICMP_route : goframe.

Lemma rxLoopIter_route : keepsRoute rxLoopIter.
Proof. unfold rxLoopIter, dispatch, handleARP, handleIPv4, onStLink, onArp. go_frame. Qed.
Hint Resolve rxLoopIter_route : goframe.

Lemma ReadFrom_route p buf : keepsRoute (ReadFrom p buf).
Proof. unfold ReadFrom, derefUDP. go_frame. apply frames_pump; [|go_frame]. unfold readFromIter, derefUDP, storeUDP. go_frame. Qed.
Lemma WriteTo_route p payload dst port : keepsRoute (WriteTo p payload dst port).
Proof. unfold WriteTo, derefUDP. go_frame. apply frames_route. auto with goframe. Qed.
Hint Resolve ReadFrom_route WriteTo_route : goframe.

Lemma waitFor_route p xid ty : keepsRoute (dhcp4WaitFor p xid ty).
Proof. apply frames_pump; [|go_frame]. unfold waitForIter. go_frame. Qed.
Hint Resolve waitFor_route : goframe.

(** A lease is acquired without touching the route. *)
Lemma DHCP4Acquire_route : keepsRoute DHCP4Acquire.
Proof.
  unfold DHCP4Acquire, dhcp4Acquire, withUDP, dhcp4Exchange, OpenUDP4, CloseUDP, releaseUDP4, derefUDP, storeUDP. cbv zeta. go_frame.
  intros s. reflexivity.
Qed.
End route.

(** ** What is up *)

(** The stack is configured as the lease says. *)
Definition configured {L} (l : DHCP4Lease) (s : Stack L) : Prop :=
  exists addr mask, To4 (lease_IP l) = Some addr /\ lease_Mask l = Some mask /\ len mask = 4 /\
    st_route s = mkRouteTable (Some addr) (Some mask) (lease_Gateway l ≫= To4).

Section configured.
Context {L : Type} `{Link L}.
Implicit Types s : Stack (Logged L).

Lemma ports_route s0 s r : portsAsBefore s0 s -> portsAsBefore s0 (set_route r s).
Proof. intros (Hs & Hu & Ht). split; [by apply set_route_inv|done]. Qed.

Lemma SetIPv4Address_run s addr mask :
  (exists e, SetIPv4Address addr mask s = (Err e, s)) \/
  exists a4, To4 addr = Some a4 /\ len mask = 4 /\
    SetIPv4Address addr mask s = (Ok tt, set_route (mkRouteTable (Some a4) (Some mask) (rt_Gateway (st_route s))) s).
Proof.
  unfold SetIPv4Address, SetLocal. mrun. unfold id. destruct (st_closed s); [left; by eexists|]. mrun.
  destruct (To4 addr) as [a4|]; [|left; by eexists]. destruct (Z.eqb_spec (len mask) 4) as [Hl|]; [|left; by eexists]. right. by exists a4.
Qed.

Lemma SetDefaultGateway_run s gw :
  (exists e, SetDefaultGateway (Some gw) s = (Err e, s)) \/
  SetDefaultGateway (Some gw) s = (Ok tt, set_route (mkRouteTable (rt_Local (st_route s)) (rt_Mask (st_route s)) (To4 gw)) s).
Proof.
  unfold SetDefaultGateway, SetGateway. mrun. unfold id. destruct (st_closed s); [left; by eexists|]. mrun.
  destruct (To4 gw) as [g4|]; [by right|left; by eexists].
Qed.

(** A stack that came up, or did not: the second without a port open either. *)
Lemma network_up_leads (link : Logged L) :
  leads (fun l s' => portsAsBefore (New link) s' /\ ackHeard (New link) dhcp4XIDSeedDefault l s' /\ lease_DNS l <> [] /\ configured l s')
    (fun _ s' => portsAsBefore (New link) s') (bringUp (New link)).
Proof.
  unfold bringUp. unfold bind at 1. set (s0 := set_run true false (New link)).
  change (Start (New link)) with (@Ok unit tt, s0). cbv beta iota.
  assert (stackInv s0) as Hs0 by (by apply set_run_inv, New_inv).
  pose proof (DHCP4Acquire_route s0) as Hroute. pose proof (dhcp4Acquire_leads s0 dhcp4XIDSeedDefault Hs0) as Hd. fold (@DHCP4Acquire (Logged L) _) in Hd.
  unfold bind at 1. destruct (DHCP4Acquire s0) as [[l|e|] s1]; cbn [snd] in Hroute; [|exact Hd|done]. destruct Hd as [Hp Hack].
  assert (portsAsBefore (New link) s1) as Hp1 by exact Hp. assert (ackHeard (New link) dhcp4XIDSeedDefault l s1) as Hack1 by exact Hack.
  case_bool_decide as Hdns; [exact Hp1|].
  assert (st_route s1 = emptyRoute) as Hr0 by (rewrite Hroute; reflexivity). unfold bind at 1.
  destruct (SetIPv4Address_run s1 (lease_IP l) (default [] (lease_Mask l))) as [[e ->]|(a4 & Ha & Hm & ->)]; [exact Hp1|].
  assert (exists mask, lease_Mask l = Some mask /\ len mask = 4) as (mask & Emask & Hmask).
  { destruct (lease_Mask l) as [mask|]; [by exists mask|discriminate Hm]. }
  set (s2 := set_route _ s1). assert (portsAsBefore (New link) s2) as Hp2 by (by apply ports_route).
  assert (st_route s2 = mkRouteTable (Some a4) (Some mask) None) as Hr2 by (unfold s2; rewrite Hr0, Emask; reflexivity).
  unfold bind. destruct (lease_Gateway l) as [gw|] eqn:Egw.
  - destruct (SetDefaultGateway_run s2 gw) as [[e ->]|E]; [exact Hp2|]. rewrite E, Hr2.
    split; [by apply ports_route|]. split; [exact Hack1|]. split; [exact Hdns|]. exists a4, mask. by rewrite Egw.
  - split; [exact Hp2|]. split; [exact Hack1|]. split; [exact Hdns|]. exists a4, mask. by rewrite Egw.
Qed.
End configured.

(** A server's reply with a name server added to the options of [replyFrame]. *)
Definition upFrame (ty : Z) : list byte :=
  let opts := marshalDHCP4Options [mkOpt 53 [z2b ty]; mkOpt 54 ipB; mkOpt 1 mask24; mkOpt 3 ipB; mkOpt 6 ipB] in
  match buildDHCP4Message sampleXID sampleMAC opts with
  | Ok req =>
      match MarshalUDP4 ipB bcastIP 67 68 ([x02] ++ take 15 (drop 1 req) ++ ipA ++ drop 20 req) with
      | Ok d => match MarshalIPv4 ipB bcastIP IPProtoUDP 1 d with
                | Ok pkt => eth_layout BroadcastMAC sampleMAC EtherTypeIPv4 pkt
                | _ => []
                end
      | _ => []
      end
  | _ => []
  end.
Definition upLink : Logged ScriptLink := mkLogged (mkScriptLink sampleMAC [make 60; upFrame dhcp4MsgOffer; upFrame dhcp4MsgAck] []) [].
Abbreviation upRun := (bringUp (New upLink)).

Example upRun_lease : (match fst upRun with Ok l => Some (lease_IP l, lease_DNS l) | _ => None end, st_route (snd upRun)) =
  (Some (ipA, [ipB]), mkRouteTable (Some ipA) (Some mask24) (Some ipB)).
Proof. vm_compute. reflexivity. Qed.

(** C35. Over any link, here wrapped in a recorder: a stack that came up has the
    address, the mask and the default route of a lease that one ACK of this
    client's exchange, heard after the start, gives, and that lease names a DNS
    server; it has no port open.  When no such lease comes, or it lacks the
    mask or the server, the start fails, with no port open either; it never
    panics.  And what the programs go on with is a stack that came up so, over
    the card of the first virtio network device, and the first DNS server of its
    lease, once the embedded root certificates are parsed. *)
Theorem network_up_from_lease {L F R} `{Link L} `{Firmware F} V D (open : Z -> M (Machine F) (Logged L))
  (appendCertsFromPEM : list byte -> option R) bundle (m m' : Machine F) s dns :
  networkUp V D open appendCertsFromPEM bundle m = (Ok (s, dns), m') ->
  (forall link : Logged L,
    leads (fun l s' => portsAsBefore (New link) s' /\ ackHeard (New link) dhcp4XIDSeedDefault l s' /\ lease_DNS l <> [] /\ configured l s')
      (fun _ s' => portsAsBefore (New link) s') (bringUp (New link))) /\
  exists pciIO m1 link l, locateVirtioNet V D m = (Ok pciIO, m1) /\ pciIO <> 0 /\ open pciIO m1 = (Ok link, m') /\
    bringUp (New link) = (Ok l, s) /\ head (lease_DNS l) = Some dns /\ exists pool, appendCertsFromPEM bundle = Some pool.
Proof.
  intros Hup. split; [apply network_up_leads|]. revert Hup.
  unfold networkUp. intros (pciIO & m1 & Hloc & [Hne (link & m2 & Ho & Hk)%bind_ok]%guard_ok)%bind_ok.
  destruct (bringUp (New link)) as [r s2] eqn:E. pose proof (network_up_leads link) as Hl. rewrite E in Hl.
  apply bind_ok in Hk as (l & m3 & [-> ->]%lift_ok & (pool & m4 & [Hca ->]%lift_ok & [[= <- ->] ->]%ret_ok)%bind_ok).
  destruct Hl as (Hp & _ & Hd & Hc). exists pciIO, m1, link, l. split; [exact Hloc|]. split; [lia|]. split; [exact Ho|]. split; [exact E|].
  split; [by destruct (lease_DNS l)|]. unfold NewRootCAs in Hca. destruct (appendCertsFromPEM bundle) as [p|]; [by exists p|done].
Qed.

(** The network of the demonstration bus. *)
Abbreviation netRun := (networkUp 0x1AF4 0x1041 (fun _ : Z => @ret (Machine busFw) _ upLink) (fun b => Some b) (str "roots") busStart).
Example netRun_dns : option_map snd (match fst netRun with Ok x => Some x | _ => None end) = Some ipB.
Proof. vm_compute. reflexivity. Qed.

Lemma network_up_from_lease_witness :
  exists s l m', netRun = (Ok (s, ipB), m') /\ bringUp (New upLink) = (Ok l, s) /\ configured l s.
Proof.
  pose proof netRun_dns as E. pose proof (network_up_from_lease 0x1AF4 0x1041 (fun _ : Z => @ret (Machine busFw) _ upLink) (fun b => Some b) (str "roots") busStart) as Hn.
  revert E Hn. generalize netRun. intros [[[s dns]|e|] m'] E Hn; [|discriminate E|discriminate E]. cbn [fst option_map snd] in E. injection E as ->.
  destruct (Hn m' s ipB eq_refl) as (Hall & pciIO & m1 & link & l & _ & _ & [= <- _] & Hup & _).
  exists s, l, m'. split; [reflexivity|]. split; [exact Hup|]. specialize (Hall upLink). rewrite Hup in Hall. apply Hall.
Defined.
