(* ===== verification/SfsPath.v ===== *)
(** * Paths of the published file system

    sfsJoinPath and sfsBaseName of uefiboard/sfs_publish_handlers.go, and the
    fact that no name, however it climbs, leaves the volume. *)

From S2P Require Import Prelude GoStr.

Definition pslash : byte := x2f.
Definition backslash : byte := x5c.
Definition dot : list byte := str ".".
Definition dotdot : list byte := str "..".

(** strings.ReplaceAll of backslashes by slashes. *)
Definition normSeps (name : list byte) : list byte := (fun c => if decide (c = backslash) then pslash else c) <$> name.

(** One component of the name against the stack of components so far. *)
Definition joinStep (stack : list (list byte)) (p : list byte) : list (list byte) :=
  if decide (p = [] \/ p = dot) then stack
  else if decide (p = dotdot) then removelast stack
  else stack ++ [p].

Definition sfsJoinPath (cur name : list byte) : list byte :=
  let inn := normSeps name in
  let stack := if HasPrefix inn [pslash] then []
               else List.filter (fun p => negb (bool_decide (p = []))) (Split pslash (TrimPrefix cur [pslash])) in
  let stack := foldl joinStep stack (Split pslash inn) in
  if len stack =? 0 then [pslash] else [pslash] ++ Join stack [pslash].

Definition sfsBaseName (path : list byte) : out (list byte) :=
  if bool_decide (path = []) || bool_decide (path = [pslash]) then Ok []
  else
    let i := LastIndexByte path pslash in
    if 0 <=? i then sliceFrom path (i + 1) else Ok path.

(** ** Clean paths *)

(** A component that names an entry of its directory. *)
Definition cleanComp (p : list byte) : Prop := p <> [] /\ p <> dot /\ p <> dotdot /\ pslash ∉ p.
#[global] Instance cleanComp_dec p : Decision (cleanComp p).
Proof. unfold cleanComp. apply _. Defined.

(** The absolute path of a stack of components. *)
Definition pathOf (comps : list (list byte)) : list byte := [pslash] ++ Join comps [pslash].
Definition cleanPath (s : list byte) : Prop := exists comps, Forall cleanComp comps /\ s = pathOf comps.

Lemma Forall_removelast {A} (P : A -> Prop) l : Forall P l -> Forall P (removelast l).
Proof.
  induction 1 as [|x l Hx Hl IH]; [constructor|]. cbn. destruct l; [constructor|]. by constructor.
Qed.

Lemma joinStep_clean stack p : Forall cleanComp stack -> pslash ∉ p -> Forall cleanComp (joinStep stack p).
Proof.
  intros Hs Hp. unfold joinStep. destruct (decide _) as [|Hn]; [done|]. destruct (decide _); [by apply Forall_removelast|].
  apply Forall_app. split; [done|]. constructor; [|constructor]. split_and!; [tauto|tauto|done|done].
Qed.

Lemma foldl_joinStep_clean ps stack :
  Forall cleanComp stack -> Forall (fun p => pslash ∉ p) ps -> Forall cleanComp (foldl joinStep stack ps).
Proof. intros Hs Hp. revert stack Hs. induction Hp as [|p ps Hp _ IH]; intros stack Hs; cbn; [done|]. by apply IH, joinStep_clean. Qed.

(** The stack a clean directory seeds is its own components. *)
Lemma seed_clean comps :
  Forall cleanComp comps ->
  List.filter (fun p => negb (bool_decide (p = []))) (Split pslash (TrimPrefix (pathOf comps) [pslash])) = comps.
Proof.
  intros Hc. assert (TrimPrefix (pathOf comps) [pslash] = Join comps [pslash]) as ->.
  { unfold TrimPrefix, pathOf. by rewrite HasPrefix_app. }
  destruct comps as [|p comps]; [done|]. rewrite Split_Join; [|done|by eapply Forall_impl; [exact Hc|]; intros ? (_ & _ & _ & ?)].
  induction Hc as [|q qs (Hq & _) _ IH]; [done|]. cbn. rewrite bool_decide_eq_false_2 by done. cbn. by f_equal.
Qed.

(** Resolving a name: components in order, dots skipped, two dots popping. *)
Lemma sfsJoinPath_spec comps name :
  Forall cleanComp comps ->
  sfsJoinPath (pathOf comps) name
  = pathOf (foldl joinStep (if HasPrefix (normSeps name) [pslash] then [] else comps) (Split pslash (normSeps name))).
Proof.
  intros Hc. unfold sfsJoinPath. rewrite seed_clean by done. cbv zeta. destruct (Z.eqb_spec (len (foldl joinStep (if HasPrefix (normSeps name) [pslash] then [] else comps) (Split pslash (normSeps name)))) 0) as [E|E]; [|done].
  destruct (foldl _ _ _); [done|]. revert E. len_lia.
Qed.

Lemma Split_norm_seps name : Forall (fun p => pslash ∉ p) (Split pslash (normSeps name)).
Proof. apply Split_sep. Qed.

Lemma sfsJoinPath_clean cur name : cleanPath cur -> cleanPath (sfsJoinPath cur name).
Proof.
  intros (comps & Hc & ->). rewrite sfsJoinPath_spec by done. eexists. split; [|reflexivity].
  apply foldl_joinStep_clean; [|apply Split_norm_seps]. by destruct (HasPrefix _ _).
Qed.

Lemma foldl_joinStep_id ps stack : Forall cleanComp ps -> foldl joinStep stack ps = stack ++ ps.
Proof.
  intros Hp. revert stack. induction Hp as [|p ps (H1 & H2 & H3 & _) _ IH]; intros stack; cbn; [by rewrite app_nil_r|].
  rewrite IH. unfold joinStep. rewrite decide_False by tauto. rewrite decide_False by done. by rewrite <- app_assoc.
Qed.

Lemma normSeps_id s : backslash ∉ s -> normSeps s = s.
Proof.
  unfold normSeps. induction s as [|c s IH]; [done|]. rewrite not_elem_of_cons. intros [Hc Hs]. cbn. rewrite decide_False by done. f_equal. by apply IH.
Qed.

(** Paths are resolved inside the volume and each in one way: from a clean
    directory every name gives a clean absolute path; the relative name of a
    descendant gives that descendant; the absolute path of an entry gives that
    entry from wherever it is opened; and the parent of an entry is reached by
    two dots, the root being its own parent. *)
Theorem sfs_path_confined comps more name :
  Forall cleanComp comps -> Forall cleanComp more -> backslash ∉ Join more [pslash] -> backslash ∉ pathOf comps ->
  cleanPath (sfsJoinPath (pathOf comps) name) /\
  sfsJoinPath (pathOf comps) (Join more [pslash]) = pathOf (comps ++ more) /\
  sfsJoinPath (pathOf more) (pathOf comps) = pathOf comps /\
  sfsJoinPath (pathOf comps) dotdot = pathOf (removelast comps).
Proof.
  intros Hc Hm Hbm Hbc. split; [apply sfsJoinPath_clean; by exists comps|]. rewrite !sfsJoinPath_spec by done.
  rewrite (normSeps_id (Join more [pslash])), (normSeps_id (pathOf comps)) by done. split_and!.
  - destruct more as [|p more].
    { cbn. unfold joinStep. rewrite decide_True by (by left). by rewrite app_nil_r. }
    rewrite Split_Join; [|done|by eapply Forall_impl; [exact Hm|]; intros ? (_ & _ & _ & ?)].
    assert (HasPrefix (Join (p :: more) [pslash]) [pslash] = false) as ->; [|by rewrite foldl_joinStep_id].
    apply Forall_cons in Hm as [(Hp & _ & _ & Hs) _]. destruct p as [|c p]; [done|].
    rewrite not_elem_of_cons in Hs. destruct Hs as [Hs _]. unfold HasPrefix. apply bool_decide_eq_false.
    destruct more; cbn; intros [= E]; by symmetry in E.
  - assert (HasPrefix (pathOf comps) [pslash] = true) as -> by apply HasPrefix_app.
    assert (Split pslash (pathOf comps) = [] :: Split pslash (Join comps [pslash])) as ->.
    { unfold pathOf. apply (Split_app pslash []). apply not_elem_of_nil. }
    cbn [foldl]. unfold joinStep at 2. rewrite decide_True by (by left). destruct comps as [|p comps]; [done|].
    rewrite Split_Join; [|done|by eapply Forall_impl; [exact Hc|]; intros ? (_ & _ & _ & ?)]. by rewrite foldl_joinStep_id.
  - done.
Qed.

Lemma sfs_path_confined_witness :
  sfsJoinPath (str "/boot/kernel") ([backslash] ++ str "EFI" ++ [backslash] ++ str ".." ++ [backslash] ++ str "../../etc") = str "/etc" /\
  cleanPath (sfsJoinPath (str "/boot/kernel") (str "../../../..")) /\
  sfsJoinPath (str "/boot") (str "kernel/kernel") = str "/boot/kernel/kernel".
Proof.
  split; [vm_compute; reflexivity|]. split.
  - refine (proj1 (sfs_path_confined [str "boot"; str "kernel"] [] (str "../../../..") _ _ _ _));
      apply (bool_decide_unpack _); vm_compute; reflexivity.
  - refine (proj1 (proj2 (sfs_path_confined [str "boot"] [str "kernel"; str "kernel"] [] _ _ _ _)));
      apply (bool_decide_unpack _); vm_compute; reflexivity.
Defined.

(** The base name of a clean path is its last component. *)
Lemma sfsBaseName_clean comps :
  Forall cleanComp comps -> sfsBaseName (pathOf comps) = Ok (default [] (last comps)).
Proof.
  intros Hc. destruct comps as [|p comps _] using rev_ind; [done|]. rewrite last_snoc. cbn [default].
  apply Forall_app in Hc as [Hc Hp]. apply Forall_singleton in Hp as (Hne & _ & _ & Hs).
  assert (exists pre, pathOf (comps ++ [p]) = pre ++ pslash :: p) as [pre ->].
  { unfold pathOf. clear. induction comps as [|q comps IH]; [by exists []|]. destruct IH as [pre E]. cbn [app] in *.
    exists (pslash :: q ++ pre). destruct (comps ++ [p]) as [|r rest] eqn:Er; [by destruct comps|].
    rewrite Join_cons. cbn. f_equal. rewrite <- app_assoc. f_equal. exact E. }
  unfold sfsBaseName. rewrite LastIndexByte_app by done. rewrite bool_decide_eq_false_2 by (by destruct pre).
  rewrite bool_decide_eq_false_2.
  - cbn [orb]. rewrite (proj2 (Z.leb_le _ _)) by (pose_lens; lia). rewrite cons_middle, app_assoc, sliceFrom_app by len_lia. done.
  - intros E. destruct pre as [|c pre]; [by injection E|]. injection E as _ E. by destruct pre.
Qed.
