(* ===== verification/UfsImage.v ===== *)
(** * Filling a UFS image

    src/internal/livefreebsdboot/buildespimg/main.go, buildUFSFromTar: the entries
    of a tar archive are sorted by depth and copied into a fresh file system, their
    directories made first.  The tar reader and the UFS writer are third-party: the
    reader's entries are an argument, and the writer is a type class, any answers
    to any operations. *)

From Stdlib Require Import Sorting.Sorted.
From S2P Require Import Prelude Effects GoStr SfsPath BootEntry EspImage.

(** ** Paths (strings.Trim, path.Dir) *)

Fixpoint dropSlashes (s : list byte) : list byte :=
  match s with c :: r => if decide (c = pslash) then dropSlashes r else s | [] => [] end.
Definition trimSlashes (s : list byte) : list byte := rev (dropSlashes (rev (dropSlashes s))).

(** path.Clean of a rooted path: the components in order, dots skipped, two dots
    popping. *)
Definition cleanRooted (s : list byte) : list byte := pathOf (foldl joinStep [] (Split pslash s)).
(** path.Dir of a rooted path: what is before the last slash, cleaned. *)
Definition pathDir (p : list byte) : list byte := cleanRooted (take (Z.to_nat (LastIndexByte p pslash + 1)) p).

(** ** The writer *)

Inductive ufsOp := opMkDir (p : list byte) (perm : Z) | opWriteFile (p body : list byte) (perm : Z) | opSymlink (target p : list byte).

Class UFSWriter (W : Type) := {
  ufsMkfs : list byte -> Z -> Z -> W + error;
  ufsDo : ufsOp -> M W unit;
  ufsBuffer : W -> list byte
}.

(** An entry of the archive: what BootEntry.v reads of one, its mode and the target
    of a link. *)
Record ufsTarEntry := mkUfsEntry { ue_tar : tarEntry; ue_Mode : Z; ue_Linkname : list byte }.
(** 0o755, 0o644 and 0o7777. *)
Definition dirPerm : Z := 0x1ED.
Definition filePerm : Z := 0x1A4.
Definition permMask : Z := 0xFFF.
Definition TypeSymlink : byte := x32.
Definition TypeDir : byte := x35.
(** The first pass: every entry with its body, or the error of the reader or of a
    body. *)
Fixpoint collect (entries : list ufsTarEntry) (fin : option error) : out (list (ufsTarEntry * list byte)) :=
  match entries with
  | [] => match fin with None => Ok [] | Some e => Err e end
  | e :: r =>
      let* body := if isRegular (ue_tar e) then match te_Err (ue_tar e) with None => Ok (te_Data (ue_tar e)) | Some er => Err er end else Ok [] in
      let* rest := collect r fin in
      Ok ((e, body) :: rest)
  end.

(** sort.SliceStable by the number of slashes inside the trimmed name. *)
Definition entryName (e : ufsTarEntry * list byte) : list byte := trimSlashes (te_Name (ue_tar (fst e))).
Definition depth (e : ufsTarEntry * list byte) : nat := length (List.filter (fun c => bool_decide (c = pslash)) (entryName e)).
Fixpoint insertEntry (e : ufsTarEntry * list byte) (l : list (ufsTarEntry * list byte)) : list (ufsTarEntry * list byte) :=
  match l with [] => [e] | x :: r => if (depth e <=? depth x)%nat then e :: l else x :: insertEntry e r end.
Definition sortEntries (l : list (ufsTarEntry * list byte)) : list (ufsTarEntry * list byte) := foldr insertEntry [] l.

(** The writer and mkdirCache. *)
Record ufsState (W : Type) := mkUfsState { us_fs : W; us_cache : list (list byte) }.
Arguments mkUfsState {W}. Arguments us_fs {W}. Arguments us_cache {W}.

Section build.
Context {W : Type} `{UFSWriter W}.
Variable errText : error -> list byte.
Notation UfsM := (M (ufsState W)).

Definition doOp (o : ufsOp) : UfsM unit := zoom us_fs (fun fs s => mkUfsState fs (us_cache s)) (ufsDo o).

(** [strings.Contains(err.Error(), "exists")] *)
Definition saysExists (e : error) : bool := bool_decide (is_Some (cutStr (str "exists") (errText e))).

Fixpoint ensureParents (fuel : nat) (p : list byte) : UfsM unit :=
  match fuel with
  | O => lift Panic
  | S fuel =>
      let p := [pslash] ++ trimSlashes p in
      cache <- gets us_cache ;;
      if bool_decide (p ∈ cache) then ret tt
      else
        let parent := pathDir p in
        (if negb (bool_decide (parent = [pslash])) && negb (bool_decide (parent = dot)) then ensureParents fuel parent else ret tt) ;;;
        r <- try (doOp (opMkDir p dirPerm)) ;;
        throw_if match r with inl _ => false | inr e => negb (saysExists e) end with match r with inl _ => ErrUFS | inr e => e end;;
        modify (fun s => mkUfsState (us_fs s) (p :: us_cache s))
  end.
(** Fuel for a path: each parent is shorter. *)
Definition ensureDirs (p : list byte) : UfsM unit := ensureParents (length p + 4) p.

Definition writeTarEntry (e : ufsTarEntry * list byte) : UfsM unit :=
  let name := [pslash] ++ entryName e in
  let t := te_Typeflag (ue_tar (fst e)) in
  if bool_decide (name = [pslash]) then ret tt
  else if bool_decide (t = TypeDir) then ensureDirs name
  else if isRegular (ue_tar (fst e)) then
    ensureDirs (pathDir name) ;;;
    let perm := Z.land (ue_Mode (fst e)) permMask in
    let perm := if perm =? 0 then filePerm else perm in
    doOp (opWriteFile name (snd e) perm)
  else if bool_decide (t = TypeSymlink) then
    ensureDirs (pathDir name) ;;;
    doOp (opSymlink (ue_Linkname (fst e)) name)
  else ret tt.

Fixpoint writeEntries (es : list (ufsTarEntry * list byte)) : UfsM unit :=
  match es with [] => ret tt | e :: r => writeTarEntry e ;;; writeEntries r end.

(** The image is the buffer that the writer worked on, of [size] zero bytes at the
    start. *)
Definition buildUFSFromTar (entries : list ufsTarEntry) (fin : option error) (size : Z) : out (list byte) :=
  if size <? 0 then Panic
  else
    match ufsMkfs (make size) size 32768 with
    | inr e => Err e
    | inl fs =>
        let* es := collect entries fin in
        match writeEntries (sortEntries es) (mkUfsState fs [[pslash]; []]) with
        | (Ok tt, s) => Ok (ufsBuffer (us_fs s))
        | (Err e, _) => Err e
        | (Panic, _) => Panic
        end
    end.
End build.

(** ** A writer that remembers *)

Record Recorded (W : Type) := mkRec { rec_fs : W; rec_ops : list (ufsOp * option error) }.
Arguments mkRec {W}. Arguments rec_fs {W}. Arguments rec_ops {W}.
#[global] Instance recorded_writer {W} `{UFSWriter W} : UFSWriter (Recorded W) := {
  ufsMkfs b size bs := match ufsMkfs b size bs with inl w => inl (mkRec w []) | inr e => inr e end;
  ufsDo o w :=
    match ufsDo o (rec_fs w) with
    | (Ok _, fs) => (Ok tt, mkRec fs (rec_ops w ++ [(o, None)]))
    | (Err e, fs) => (Err e, mkRec fs (rec_ops w ++ [(o, Some e)]))
    | (Panic, fs) => (Panic, mkRec fs (rec_ops w))
    end;
  ufsBuffer w := ufsBuffer (rec_fs w)
}.

(** A writer for demonstrations: every directory exists once, files need theirs. *)
Record toyUFS := mkToyUFS { tu_dirs : list (list byte); tu_files : list (list byte * list byte) }.
#[global] Instance toy_ufs : UFSWriter toyUFS := {
  ufsMkfs _ _ _ := inl (mkToyUFS [[pslash]] []);
  ufsDo o w :=
    match o with
    | opMkDir p _ => if bool_decide (p ∈ tu_dirs w) then (Err ErrUFS, w)
                     else if bool_decide (pathDir p ∈ tu_dirs w) then (Ok tt, mkToyUFS (p :: tu_dirs w) (tu_files w)) else (Err ErrEOF, w)
    | opWriteFile p b _ | opSymlink b p => if bool_decide (pathDir p ∈ tu_dirs w) then (Ok tt, mkToyUFS (tu_dirs w) (tu_files w ++ [(p, b)])) else (Err ErrEOF, w)
    end;
  ufsBuffer w := concat ((fun f => fst f ++ snd f) <$> tu_files w)
}.
Definition toyText (e : error) : list byte := match e with ErrUFS => str "file exists" | _ => [] end.
Definition toyEntry (t : byte) (name body : list byte) : ufsTarEntry := mkUfsEntry (mkTar t name (len body) body None) 0 [].
Definition toyTar : list ufsTarEntry :=
  [toyEntry TypeReg (str "boot/kernel/kernel") (str "K"); toyEntry TypeDir (str "boot/") []; toyEntry TypeReg (str "boot/loader.efi") (str "L")].
Example toy_build : buildUFSFromTar (W := toyUFS) toyText toyTar None 512 = Ok (str "/boot/loader.efiL/boot/kernel/kernelK").
Proof. vm_compute. reflexivity. Qed.
Example pathDir_ex : pathDir (str "/a/b/../c//d") = str "/a/c".
Proof. vm_compute. reflexivity. Qed.

(** ** Paths *)

(** A path of components, written as the join of an empty one and them. *)
Lemma pathOf_join cs : cs <> [] -> pathOf cs = Join ([] :: cs) [pslash].
Proof. by destruct cs. Qed.

Lemma foldl_clean cs : forall st, Forall cleanComp cs -> foldl joinStep st cs = st ++ cs.
Proof.
  induction cs as [|c cs IH]; intros st Hc; cbn [foldl]; [by rewrite app_nil_r|]. apply Forall_cons in Hc as [(H1 & H2 & H3 & _) Hc].
  rewrite IH by done. unfold joinStep. rewrite decide_False by tauto. rewrite decide_False by done. by rewrite <- app_assoc.
Qed.

Lemma clean_nosep cs : Forall cleanComp cs -> Forall (fun p => pslash ∉ p) cs.
Proof. intros Hc. eapply Forall_impl; [exact Hc|]. by intros ? (_ & _ & _ & ?). Qed.

(** The directory of a clean path is that of its components but the last. *)
Lemma pathDir_snoc cs c : Forall cleanComp cs -> cleanComp c -> pathDir (pathOf (cs ++ [c])) = pathOf cs.
Proof.
  intros Hcs Hc. rewrite pathOf_join by by destruct cs. change ([] :: cs ++ [c]) with (([] :: cs) ++ [c]). rewrite Join_snoc by done.
  unfold pathDir. cbn [app]. rewrite LastIndexByte_app by apply Hc. set (x := Join _ _).
  replace (take (Z.to_nat (len x + 1)) (x ++ pslash :: c)) with (x ++ [pslash]).
  2: { change (pslash :: c) with ([pslash] ++ c). rewrite app_assoc. rewrite take_app_length'; [done|]. rewrite length_app. cbn [length]. unfold len. lia. }
  unfold cleanRooted, x. replace (Join ([] :: cs) [pslash] ++ [pslash]) with (Join (([] :: cs) ++ [[]]) [pslash]) by (rewrite Join_snoc by done; by rewrite app_nil_r).
  rewrite Split_Join; [|done|].
  - rewrite foldl_app. cbn [foldl]. change (joinStep [] []) with (@nil (list byte)). rewrite foldl_clean by done. cbn [app]. done.
  - apply Forall_app. split; [|by constructor; [apply not_elem_of_nil|]]. constructor; [apply not_elem_of_nil|by apply clean_nosep].
Qed.

(** The directory of any path is clean. *)
Lemma pathDir_clean p : exists cs, Forall cleanComp cs /\ pathDir p = pathOf cs /\ (length cs <= length p + 1)%nat.
Proof.
  exists (foldl joinStep [] (Split pslash (take (Z.to_nat (LastIndexByte p pslash + 1)) p))). split; [|split; [done|]].
  - apply foldl_joinStep_clean; [done|apply Split_sep].
  - set (q := take _ p). assert (length q <= length p)%nat by (unfold q; rewrite length_take; lia).
    assert (forall l st, length (foldl joinStep st l) <= length st + length l)%nat as Hf.
    { induction l as [|x l IH]; intros st; cbn [foldl length]; [lia|]. specialize (IH (joinStep st x)).
      assert (length (joinStep st x) <= S (length st))%nat; [|lia]. unfold joinStep. destruct (decide _); [lia|]. destruct (decide _).
      - pose proof (removelast_firstn_len st) as E. rewrite E, length_firstn. lia.
      - rewrite length_app. cbn. lia. }
    assert (length (Split pslash q) <= S (length q))%nat as Hs.
    { clear. induction q as [|b q IH]; cbn [Split length]; [lia|]. destruct (decide _); cbn [length]; [lia|]. destruct (Split pslash q); cbn [length] in *; lia. }
    specialize (Hf (Split pslash q) []). cbn [length] in Hf. lia.
Qed.

Lemma dropSlashes_id x : (forall y, x <> pslash :: y) -> dropSlashes x = x.
Proof. destruct x as [|b x]; [done|]. intros Hn. cbn. rewrite decide_False; [done|]. intros ->. by apply (Hn x). Qed.

(** Trimming and rooting leaves a clean path alone. *)
Lemma trim_pathOf cs : Forall cleanComp cs -> [pslash] ++ trimSlashes (pathOf cs) = pathOf cs.
Proof.
  intros Hc. destruct cs as [|c0 cs0] eqn:E; [done|]. rewrite <- E in *. unfold pathOf at 2. f_equal. unfold trimSlashes, pathOf. cbn [app dropSlashes].
  rewrite decide_True by done. rewrite (dropSlashes_id (Join cs [pslash])).
  - rewrite dropSlashes_id, rev_involutive; [done|]. destruct cs as [|c cs _] using rev_ind; [done|]. apply Forall_app in Hc as [_ Hc]. apply Forall_cons in Hc as [(Hne & _ & _ & Hs) _].
    assert (exists x, Join (cs ++ [c]) [pslash] = x ++ c) as [x ->].
    { destruct cs as [|d cs]; [by exists []|]. rewrite Join_snoc by done. rewrite app_assoc. by eexists. }
    destruct c as [|b c _] using rev_ind; [done|]. rewrite app_assoc, rev_app_distr. cbn. intros y [= -> _]. apply Hs. apply elem_of_app. right. by left.
  - subst cs. apply Forall_cons in Hc as [(Hne & _ & _ & Hs) _]. destruct c0 as [|b c0]; [done|]. intros y Hy.
    assert (b = pslash) as ->; [|apply Hs; by left]. destruct cs0; cbn in Hy; by injection Hy.
Qed.

(** ** Sorting *)

(** How deep a name lies: the slashes in it. *)
Fixpoint slashes (w : list byte) : nat :=
  match w with [] => 0 | c :: r => (if decide (c = pslash) then 1 else 0) + slashes r end.
Lemma depth_slashes e : depth e = slashes (entryName e).
Proof.
  unfold depth. generalize (entryName e). intros w. induction w as [|c w IH]; [done|]. cbn [List.filter slashes]. destruct (decide (c = pslash)) as [E|E].
  - rewrite bool_decide_eq_true_2 by done. cbn [length]. by rewrite IH.
  - rewrite bool_decide_eq_false_2 by done. exact IH.
Qed.

Definition sameDepth (k : nat) (e : ufsTarEntry * list byte) : bool := (depth e =? k)%nat.
(** A stable sort: the same entries, by depth, those of one depth in their order. *)
Definition stablySorted (l l' : list (ufsTarEntry * list byte)) : Prop :=
  l ≡ₚ l' /\ Sorted (fun a b => (slashes (entryName a) <= slashes (entryName b))%nat) l' /\
  forall k, filter (fun e => slashes (entryName e) = k) l' = filter (fun e => slashes (entryName e) = k) l.

Lemma insertEntry_spec e l :
  Sorted (fun a b => (depth a <= depth b)%nat) l ->
  e :: l ≡ₚ insertEntry e l /\ Sorted (fun a b => (depth a <= depth b)%nat) (insertEntry e l) /\
  forall k, List.filter (sameDepth k) (insertEntry e l) = List.filter (sameDepth k) (e :: l).
Proof.
  induction l as [|x l IH]; intros Hs; cbn [insertEntry]; [repeat constructor|]. destruct (Nat.leb_spec (depth e) (depth x)) as [Hle|Hlt].
  - split; [done|]. split; [|done]. constructor; [done|]. by constructor.
  - inversion Hs as [|? ? Hsl Hx]; subst. destruct (IH Hsl) as (Hp & Hso & Hf). split; [rewrite <- Hp; by apply Permutation_swap|]. split.
    + constructor; [done|]. destruct l as [|y l]; cbn [insertEntry]; [constructor; lia|]. inversion Hx; subst. destruct (Nat.leb_spec (depth e) (depth y)); constructor; lia.
    + intros k. cbn [List.filter]. rewrite Hf. cbn [List.filter]. destruct (sameDepth k x) eqn:Ex, (sameDepth k e) eqn:Ee; try done. apply Nat.eqb_eq in Ex, Ee. lia.
Qed.
Lemma sortEntries_spec l : l ≡ₚ sortEntries l /\ Sorted (fun a b => (depth a <= depth b)%nat) (sortEntries l) /\
  forall k, List.filter (sameDepth k) (sortEntries l) = List.filter (sameDepth k) l.
Proof.
  induction l as [|e l (Hp & Hs & Hf)]; [by repeat constructor|]. cbn [sortEntries foldr]. destruct (insertEntry_spec e (sortEntries l) Hs) as (Hp' & Hs' & Hf').
  split; [rewrite <- Hp'; by constructor|]. split; [done|]. intros k. unfold sortEntries in *. rewrite Hf'. cbn [List.filter]. by rewrite Hf.
Qed.

Lemma filter_sameDepth k l : filter (fun e => slashes (entryName e) = k) l = List.filter (sameDepth k) l.
Proof.
  induction l as [|e l IH]; [done|]. rewrite filter_cons. cbn [List.filter]. unfold sameDepth at 1. rewrite depth_slashes, IH.
  destruct (Nat.eqb_spec (slashes (entryName e)) k), (decide (slashes (entryName e) = k)); done.
Qed.
Lemma sortEntries_stable l : stablySorted l (sortEntries l).
Proof.
  destruct (sortEntries_spec l) as (Hp & Hs & Hf). split; [done|]. split; [|intros k; rewrite !filter_sameDepth; apply Hf].
  clear -Hs. induction Hs as [|x l' _ IH Hx]; [constructor|]. constructor; [done|]. destruct Hx as [|y l'' Hx]; constructor. by rewrite <- !depth_slashes.
Qed.

(** ** Names and directories *)

(** A name without the slashes around it. *)
Definition trimmed (w t : list byte) : Prop :=
  exists a b, w = a ++ t ++ b /\ Forall (eq pslash) (a ++ b) /\ (forall x, t <> pslash :: x) /\ (forall x, t <> x ++ [pslash]).

Lemma dropSlashes_split w : exists k, w = k ++ dropSlashes w /\ Forall (eq pslash) k /\ forall x, dropSlashes w <> pslash :: x.
Proof.
  induction w as [|c w (k & E & Hk & Hx)]; [by exists []|]. cbn [dropSlashes]. destruct (decide (c = pslash)) as [->|Hc].
  - exists (pslash :: k). split; [cbn; by f_equal|]. split; [by constructor|done].
  - exists []. split; [done|]. split; [constructor|]. by intros x [= -> _].
Qed.
Lemma trimSlashes_spec w : trimmed w (trimSlashes w).
Proof.
  unfold trimSlashes. destruct (dropSlashes_split w) as (a & Ea & Ha & Hxa). set (u := dropSlashes w) in *.
  destruct (dropSlashes_split (rev u)) as (b & Eb & Hb & Hxb). set (t := dropSlashes (rev u)) in *.
  assert (u = rev t ++ rev b) as Eu by (rewrite <- rev_app_distr, <- Eb; by rewrite rev_involutive).
  exists a, (rev b). split; [by rewrite <- Eu|]. split; [|split].
  - apply Forall_app. split; [done|]. apply Forall_rev. exact Hb.
  - intros x Ex. apply (Hxa (x ++ rev b)). rewrite Eu, Ex. done.
  - intros x Ex. apply (Hxb (rev x)). rewrite <- (rev_involutive t), Ex, rev_app_distr. done.
Qed.

(** From the directory [stack], the deepest component in front, down a path. *)
Fixpoint descend (stack comps : list (list byte)) : list (list byte) :=
  match comps with
  | [] => stack
  | c :: r =>
      if decide (c = [] \/ c = str ".") then descend stack r
      else if decide (c = str "..") then descend (tail stack) r else descend (c :: stack) r
  end.
(** The directory that a path names something in: that of everything before its
    last slash. *)
Definition dirOf (p d : list byte) : Prop :=
  exists front c, p = front ++ pslash :: c /\ pslash ∉ c /\ d = [pslash] ++ Join (rev (descend [] (Split pslash front))) [pslash].

Lemma foldl_descend cs : forall st, foldl joinStep (rev st) cs = rev (descend st cs).
Proof.
  induction cs as [|c cs IH]; intros st; [done|]. cbn [foldl descend]. unfold joinStep at 2.
  change (str ".") with dot. change (str "..") with dotdot. destruct (decide (c = [] \/ c = dot)); [apply IH|]. destruct (decide (c = dotdot)).
  - rewrite <- IH. f_equal. destruct st as [|x st]; [done|]. cbn [rev tail]. by rewrite removelast_last.
  - exact (IH (c :: st)).
Qed.
Lemma Split_snoc c x : Split c (x ++ [c]) = Split c x ++ [[]].
Proof.
  induction x as [|b x IH]; cbn [app Split]; [by rewrite decide_True|]. destruct (decide (b = c)); [by rewrite IH|]. rewrite IH.
  destruct (Split c x) eqn:E; [|done]. destruct x as [|y x]; cbn [Split] in E; [done|]. destruct (decide _); [done|]. by destruct (Split c x).
Qed.
Lemma last_slash p : pslash ∈ p -> exists front c, p = front ++ pslash :: c /\ pslash ∉ c.
Proof.
  induction p as [|b p IH]; [by intros ?%not_elem_of_nil|]. intros Hin. destruct (decide (pslash ∈ p)) as [Hp|Hp].
  - destruct (IH Hp) as (f & c & -> & Hc). by exists (b :: f), c.
  - apply elem_of_cons in Hin as [<-|?]; [|done]. by exists [], p.
Qed.
Lemma pathDir_dirOf p : pslash ∈ p -> dirOf p (pathDir p).
Proof.
  intros (front & c & -> & Hc)%last_slash. exists front, c. split; [done|]. split; [done|]. unfold pathDir. rewrite LastIndexByte_app by done.
  replace (take (Z.to_nat (len front + 1)) (front ++ pslash :: c)) with (front ++ [pslash]).
  2: { change (pslash :: c) with ([pslash] ++ c). rewrite app_assoc. rewrite take_app_length'; [done|]. rewrite length_app. cbn [length]. unfold len. lia. }
  unfold cleanRooted, pathOf. rewrite Split_snoc, foldl_app, <- (foldl_descend _ []). done.
Qed.

(** ** Directories before what is in them *)

Abbreviation ufsLog := (list (ufsOp * option error)).
Definition opPath (o : ufsOp) : list byte := match o with opMkDir p _ | opWriteFile p _ _ | opSymlink _ p => p end.

Section log.
Variable errText : error -> list byte.

(** The directory is the root, or it was made or was there. *)
Definition made (l : ufsLog) (d : list byte) : Prop :=
  d = [pslash] \/ exists r, (opMkDir d 493, r) ∈ l /\ forall e, r = Some e -> exists a b, errText e = a ++ str "exists" ++ b.
(** Every operation comes after the one that makes its directory. *)
Definition parented (l : ufsLog) : Prop :=
  forall pre x post, l = pre ++ x :: post -> exists d, dirOf (opPath (fst x)) d /\ made pre d.

(** The files and links among the operations, and those of an entry. *)
Definition isMkDir (x : ufsOp * option error) : bool := match fst x with opMkDir _ _ => true | _ => false end.
Definition contents (l : ufsLog) : ufsLog := List.filter (fun x => negb (isMkDir x)) l.
Definition entryOps (e : ufsTarEntry * list byte) : ufsLog :=
  let name := str "/" ++ entryName e in
  let flag := te_Typeflag (ue_tar (fst e)) in
  let perm := ue_Mode (fst e) mod 4096 in
  if bool_decide (entryName e = []) then []
  else if bool_decide (flag = x30 \/ flag = x00) then [(opWriteFile name (snd e) (if perm =? 0 then 420 else perm), None)]
  else if bool_decide (flag = x32) then [(opSymlink (ue_Linkname (fst e)) name, None)]
  else [].
(** The entries with the bodies that were read: those of regular files. *)
Definition bodiesOf (entries : list ufsTarEntry) (es : list (ufsTarEntry * list byte)) : Prop :=
  Forall2 (fun x e => fst e = x /\
    if decide (te_Typeflag (ue_tar x) = x30 \/ te_Typeflag (ue_tar x) = x00) then te_Err (ue_tar x) = None /\ snd e = te_Data (ue_tar x) else snd e = [])
    entries es.

Lemma made_app l k d : made l d -> made (l ++ k) d.
Proof. intros [?|(r & Hr & He)]; [by left|right]. exists r. split; [apply elem_of_app; by left|done]. Qed.

Lemma parented_snoc l x d : parented l -> dirOf (opPath (fst x)) d -> made l d -> parented (l ++ [x]).
Proof.
  intros Hl Hd Hx pre y post E. destruct post as [|z post _] using rev_ind.
  - apply app_inj_tail in E as [-> ->]. by exists d.
  - change (pre ++ y :: post ++ [z]) with (pre ++ (y :: post) ++ [z]) in E. rewrite app_assoc in E. apply app_inj_tail in E as [-> _]. by eapply Hl.
Qed.
End log.

(** The writer's operations, in order, each with its outcome. *)
Inductive ran {V} `{UFSWriter V} (fs0 : V) : ufsLog -> V -> Prop :=
  | ran_nil : ran fs0 [] fs0
  | ran_ok l fs o fs' : ran fs0 l fs -> ufsDo o fs = (Ok tt, fs') -> ran fs0 (l ++ [(o, None)]) fs'
  | ran_err l fs o e fs' : ran fs0 l fs -> ufsDo o fs = (Err e, fs') -> ran fs0 (l ++ [(o, Some e)]) fs'.

Lemma saysExists_spec errText e : saysExists errText e = true -> exists a b, errText e = a ++ str "exists" ++ b.
Proof. unfold saysExists. intros [[a b] E]%bool_decide_eq_true. exists a, b. by apply cutStr_Some in E. Qed.

Lemma bodies_collected entries fin es : collect entries fin = Ok es -> fin = None /\ bodiesOf entries es.
Proof.
  revert es. induction entries as [|x entries IH]; intros es; cbn [collect]; [destruct fin; [done|]; intros [= <-]; split; [done|constructor]|].
  assert (isRegular (ue_tar x) = bool_decide (te_Typeflag (ue_tar x) = x30 \/ te_Typeflag (ue_tar x) = x00)) as Er.
  { unfold isRegular, TypeReg, TypeRegA. by rewrite bool_decide_or. }
  rewrite Er. destruct (bool_decide _) eqn:Eb; [apply bool_decide_eq_true_1 in Eb; destruct (te_Err (ue_tar x)) eqn:Ee; [done|]|apply bool_decide_eq_false_1 in Eb];
    cbn [out_bind]; destruct (collect entries fin) as [rest|e|]; cbn [out_bind]; try done; intros [= <-]; destruct (IH rest eq_refl) as [Hf Hb];
    (split; [done|]; constructor; [split; [done|]|done]).
  - by rewrite decide_True.
  - by rewrite decide_False.
Qed.

Section builds.
Context {V : Type} `{UFSWriter V}.
Variable errText : error -> list byte.
Variable fs0 : V.
Implicit Types s : ufsState (Recorded V).
Notation ops s := (rec_ops (us_fs s)).

(** What holds between two entries: directories before their contents, and the
    cache names what is there. *)
Definition built s : Prop :=
  (parented errText (ops s) /\ ran fs0 (ops s) (rec_fs (us_fs s))) /\ forall d, d ∈ us_cache s -> d = [] \/ made errText (ops s) d.
(** A step that makes directories only. *)
Definition onlyDirs s s' : Prop := exists k, ops s' = ops s ++ k /\ contents k = [].

#[local] Instance onlyDirs_preorder : PreOrder onlyDirs.
Proof.
  split; [intros s; exists []; by rewrite app_nil_r|]. intros a b c (k1 & E1 & F1) (k2 & E2 & F2). exists (k1 ++ k2).
  rewrite E2, E1, app_assoc. split; [done|]. unfold contents in *. rewrite List.filter_app. by rewrite F1, F2.
Qed.
Lemma onlyDirs_made s s' d : onlyDirs s s' -> made errText (ops s) d -> made errText (ops s') d.
Proof. intros (k & -> & _). apply made_app. Qed.

Lemma doOp_run o s r s' :
  doOp o s = (r, s') ->
  us_cache s' = us_cache s /\ (r = Panic \/ (ran fs0 (ops s) (rec_fs (us_fs s)) -> ran fs0 (ops s') (rec_fs (us_fs s'))) /\
    ((r = Ok tt /\ ops s' = ops s ++ [(o, None)]) \/ exists e, r = Err e /\ ops s' = ops s ++ [(o, Some e)])).
Proof.
  unfold doOp, zoom. cbn [ufsDo recorded_writer]. destruct (ufsDo o (rec_fs (us_fs s))) as [[[]|e|] fs] eqn:E; intros [= <- <-]; cbn; (split; [done|]).
  - right. split; [intros Hr; by eapply ran_ok|]. left. done.
  - right. split; [intros Hr; by eapply ran_err|]. right. by exists e.
  - by left.
Qed.

Lemma ensureParents_ok fuel : forall p s s',
  built s -> ensureParents errText fuel p s = (Ok tt, s') ->
  built s' /\ onlyDirs s s' /\ made errText (ops s') ([pslash] ++ trimSlashes p).
Proof.
  induction fuel as [|fuel IH]; intros p s s' Hb Hr; [done|]. cbn [ensureParents] in Hr. set (q := [pslash] ++ trimSlashes p) in *.
  apply bind_ok in Hr as (cache & s1 & [= <- <-] & Hr). case_bool_decide as Hin.
  { apply ret_ok in Hr as [_ ->]. split; [done|]. split; [reflexivity|]. destruct Hb as [_ Hc]. by destruct (Hc q Hin) as [Hq|]. }
  apply bind_ok in Hr as ([] & s1 & Hpar & Hr). destruct (pathDir_clean q) as (cs & Hcs & Hdir & _).
  assert (built s1 /\ onlyDirs s s1 /\ made errText (ops s1) (pathDir q)) as (Hb1 & Ho1 & Hm1).
  { destruct (_ && _) eqn:Eg in Hpar.
    - apply IH in Hpar as (H1 & H2 & H3); [|done]. rewrite Hdir, trim_pathOf in H3 by done. by rewrite Hdir.
    - apply ret_ok in Hpar as [_ ->]. split; [done|]. split; [reflexivity|]. apply andb_false_iff in Eg as [Eg|Eg]; apply negb_false_iff, bool_decide_eq_true_1 in Eg; [by left|].
      rewrite Hdir in Eg. by unfold pathOf in Eg. }
  apply bind_ok in Hr as (r & s2 & Ht & Hr). apply guard_ok in Hr as [Hok Hr]. unfold modify in Hr. injection Hr as <-.
  unfold try in Ht. destruct (doOp _ s1) as [o s3] eqn:Ed. pose proof (doOp_run _ _ _ _ Ed) as (Hcache & Hrun).
  assert (ran fs0 (ops s2) (rec_fs (us_fs s2)) /\ exists x, ops s2 = ops s1 ++ [(opMkDir q dirPerm, x)] /\ us_cache s2 = us_cache s1 /\
    forall e, x = Some e -> exists a b, errText e = a ++ str "exists" ++ b) as (Hran & x & Hops & Hca & Hx).
  { destruct Hrun as [->|[Hran [[-> Hops]|(e & -> & Hops)]]]; [done| |]; injection Ht as <- <-; (split; [apply Hran, Hb1|]); [by exists None|exists (Some e); split_and!; [done..|]].
    intros ? [= <-]. apply saysExists_spec. by apply negb_false_iff in Hok. }
  assert (made errText (ops s2) q) as Hq. { right. exists x. split; [rewrite Hops; apply elem_of_app; right; by left|done]. }
  split; [|split].
  - split; cbn [us_fs us_cache].
    + split; [|exact Hran]. rewrite Hops. eapply parented_snoc; [apply Hb1| |exact Hm1]. apply pathDir_dirOf. unfold q. by left.
    + intros d [->|Hd]%elem_of_cons; [by right|]. rewrite Hca in Hd. destruct Hb1 as [_ Hc]. destruct (Hc d Hd) as [?|?]; [by left|right]. rewrite Hops. by apply made_app.
  - transitivity s1; [done|]. exists [(opMkDir q dirPerm, x)]. by split.
  - done.
Qed.

Lemma ensureDirs_clean p s s' :
  built s -> ensureDirs errText (pathDir p) s = (Ok tt, s') -> built s' /\ onlyDirs s s' /\ made errText (ops s') (pathDir p).
Proof.
  intros Hb Hr. apply ensureParents_ok in Hr as (H1 & H2 & H3); [|done]. destruct (pathDir_clean p) as (cs & Hcs & E & _). rewrite E, trim_pathOf in H3 by done. by rewrite E.
Qed.

(** A file or link in a directory that is there. *)
Lemma doOp_content o s s' :
  built s -> doOp o s = (Ok tt, s') -> made errText (ops s) (pathDir (opPath o)) -> pslash ∈ opPath o -> isMkDir (o, None) = false ->
  built s' /\ contents (ops s') = contents (ops s) ++ [(o, None)] /\ exists k, ops s' = ops s ++ k.
Proof.
  intros [[Hp Hran] Hc] Hr Hm Hsl Hk. apply doOp_run in Hr as (Hca & [|[Hr [(_ & Hops)|(e & ? & _)]]]); [done| |done]. split; [|split; [|by eexists]].
  - split; [split; [|by apply Hr]; rewrite Hops; eapply parented_snoc; [done|by apply pathDir_dirOf|exact Hm]|]. intros d Hd. rewrite Hca in Hd. destruct (Hc d Hd) as [?|?]; [by left|right]. rewrite Hops. by apply made_app.
  - rewrite Hops. unfold contents. rewrite List.filter_app. cbn [List.filter]. by rewrite Hk.
Qed.

Lemma onlyDirs_contents s s' : onlyDirs s s' -> contents (ops s') = contents (ops s).
Proof. intros (k & -> & E). unfold contents in *. rewrite List.filter_app, E. by rewrite app_nil_r. Qed.

(** The directory that an entry asks for. *)
Definition asksDir (e : ufsTarEntry * list byte) : Prop := te_Typeflag (ue_tar (fst e)) = TypeDir /\ entryName e <> [].

Lemma trim_name e : [pslash] ++ trimSlashes ([pslash] ++ entryName e) = [pslash] ++ entryName e.
Proof.
  f_equal. unfold entryName. generalize (te_Name (ue_tar (fst e))). intros w. unfold trimSlashes at 1. cbn [app dropSlashes]. rewrite decide_True by done.
  assert (forall (w y : list byte), dropSlashes w <> pslash :: y) as Hd. { clear. induction w as [|c w IH]; intros y; cbn; [done|]. destruct (decide _) as [|Hn]; [apply IH|]. intros [= -> _]. by apply Hn. }
  assert (forall w : list byte, exists k, w = k ++ dropSlashes w) as Hsuf.
  { clear. induction w as [|c w [k IH]]; [by exists []|]. cbn. destruct (decide _); [exists (c :: k); cbn; by f_equal|by exists []]. }
  unfold trimSlashes. destruct (Hsuf (rev (dropSlashes w))) as [k Ek]. set (t := dropSlashes (rev (dropSlashes w))) in *.
  rewrite (dropSlashes_id (rev t)).
  - rewrite rev_involutive, (dropSlashes_id t); [done|]. intros y. unfold t. apply Hd.
  - intros y Ey. apply (f_equal (@rev byte)) in Ek. rewrite rev_involutive, rev_app_distr, Ey in Ek. by apply Hd in Ek.
Qed.

Lemma writeTarEntry_ok e s s' :
  built s -> writeTarEntry errText e s = (Ok tt, s') ->
  built s' /\ contents (ops s') = contents (ops s) ++ entryOps e /\ (exists k, ops s' = ops s ++ k) /\
  (asksDir e -> made errText (ops s') ([pslash] ++ entryName e)).
Proof.
  intros Hb Hr. unfold writeTarEntry in Hr. cbv zeta in Hr. unfold entryOps, asksDir. cbv zeta. set (name := [pslash] ++ entryName e) in *. set (t := te_Typeflag _) in *.
  assert (bool_decide (name = [pslash]) = bool_decide (entryName e = [])) as En.
  { apply bool_decide_ext. unfold name. cbn. split; [by intros [= ->]|by intros ->]. }
  rewrite En in Hr. destruct (bool_decide (entryName e = [])) eqn:Hn; [apply bool_decide_eq_true_1 in Hn|apply bool_decide_eq_false_1 in Hn].
  { apply ret_ok in Hr as [_ ->]. rewrite app_nil_r. split_and!; [done|done|exists []; by rewrite app_nil_r|]. by intros [_ ?]. }
  change (bool_decide (t = TypeSymlink)) with (bool_decide (t = x32)) in Hr.
  assert (isRegular (ue_tar (fst e)) = bool_decide (t = x30 \/ t = x00)) as Er by (unfold isRegular, TypeReg, TypeRegA; by rewrite bool_decide_or).
  rewrite Er in Hr. destruct (bool_decide (t = TypeDir)) eqn:Ht; [apply bool_decide_eq_true_1 in Ht|apply bool_decide_eq_false_1 in Ht].
  { rewrite (bool_decide_eq_false_2 (t = x30 \/ _)), (bool_decide_eq_false_2 (t = x32)) by (rewrite Ht; by intuition).
    apply ensureParents_ok in Hr as (H1 & H2 & H3); [|done]. split; [done|]. split; [by rewrite app_nil_r; apply onlyDirs_contents|]. split; [destruct H2 as (k & -> & _); by exists k|].
    intros _. unfold name in H3. by rewrite trim_name in H3. }
  assert (forall o s1, (ensureDirs errText (pathDir name) ;;; doOp o) s = (Ok tt, s1) -> opPath o = name -> isMkDir (o, None) = false ->
    built s1 /\ contents (ops s1) = contents (ops s) ++ [(o, None)] /\ (exists k, ops s1 = ops s ++ k)) as Hstep.
  { intros o s1 ([] & s2 & Hd & Ho)%bind_ok Hp Hk. apply ensureDirs_clean in Hd as (H1 & H2 & H3); [|done].
    apply doOp_content in Ho as (H4 & H5 & [k Hk']); [|done|by rewrite Hp|rewrite Hp; unfold name; by left|done]. rewrite H5, (onlyDirs_contents _ _ H2). split; [done|]. split; [done|].
    destruct H2 as (k2 & E2 & _). exists (k2 ++ k). by rewrite Hk', E2, app_assoc. }
  destruct (bool_decide (t = x30 \/ t = x00)); [|destruct (bool_decide (t = x32))].
  - change permMask with (Z.ones 12) in Hr. rewrite Z.land_ones in Hr by done. apply Hstep in Hr as (H1 & H2 & H3); [|done..]. split_and!; [done..|]. by intros [? _].
  - apply Hstep in Hr as (H1 & H2 & H3); [|done..]. split_and!; [done..|]. by intros [? _].
  - apply ret_ok in Hr as [_ ->]. rewrite app_nil_r. split_and!; [done|done|exists []; by rewrite app_nil_r|]. by intros [? _].
Qed.

Lemma writeEntries_ok es : forall s s',
  built s -> writeEntries errText es s = (Ok tt, s') ->
  built s' /\ contents (ops s') = contents (ops s) ++ concat (entryOps <$> es) /\ (exists k, ops s' = ops s ++ k) /\
  forall e, e ∈ es -> asksDir e -> made errText (ops s') ([pslash] ++ entryName e).
Proof.
  induction es as [|e es IH]; intros s s' Hb Hr; cbn [writeEntries] in Hr.
  { apply ret_ok in Hr as [_ ->]. cbn. rewrite app_nil_r. split_and!; [done|done|exists []; by rewrite app_nil_r|]. intros e He. by apply not_elem_of_nil in He. }
  apply bind_ok in Hr as ([] & s1 & He & Hr). apply writeTarEntry_ok in He as (H1 & H2 & [k1 H3] & H4); [|done]. apply IH in Hr as (H5 & H6 & [k2 H7] & H8); [|done].
  split; [done|]. split; [by rewrite H6, H2, <- app_assoc|]. split; [exists (k1 ++ k2); by rewrite H7, H3, app_assoc|].
  intros x [->|Hx]%elem_of_cons Ha; [|by apply H8]. rewrite H7. by apply made_app, H4.
Qed.

End builds.

(** C8. Whatever the writer answers, an image that is returned is the buffer of the
    writer at the end of a run that started from a fresh file system of the size
    asked for, with blocks of 32 KiB, and in which every regular file and symbolic
    link of the archive, and nothing else, was written once, under its name, with
    its contents and permissions, in the order of a stable sort by depth; every
    directory of the archive was made or was there already; and each file, link
    and directory came after the directory that it is in. *)
Theorem ufs_image_populated {V} `{UFSWriter V} errText entries fin size img :
  buildUFSFromTar (W := Recorded V) errText entries fin size = Ok img ->
  exists es sorted fs0 log fs,
    fin = None /\ bodiesOf entries es /\ stablySorted es sorted /\
    ufsMkfs (make size) size 32768 = inl fs0 /\ ran fs0 log fs /\ img = ufsBuffer fs /\
    (forall e, e ∈ es -> trimmed (te_Name (ue_tar (fst e))) (entryName e)) /\
    contents log = concat (entryOps <$> sorted) /\ parented errText log /\
    forall e, e ∈ es -> te_Typeflag (ue_tar (fst e)) = x35 -> entryName e <> [] -> made errText log (str "/" ++ entryName e).
Proof.
  unfold buildUFSFromTar. destruct (size <? 0); [done|]. destruct (ufsMkfs _ _ _) as [fs|e] eqn:Em; [|done].
  destruct (collect entries fin) as [es|e|] eqn:Ec; [|done..]. cbn [out_bind]. destruct (writeEntries _ _ _) as [[[]|e|] s] eqn:Ew; [|done..]. intros [= <-].
  cbn [ufsMkfs recorded_writer] in Em. destruct (ufsMkfs (make size) size 32768) as [fs0|] eqn:Em0; [|done]. injection Em as <-.
  apply (writeEntries_ok errText fs0) in Ew as ([[H1 Hran] _] & H2 & _ & H4).
  - apply bodies_collected in Ec as [-> Hbodies]. exists es, (sortEntries es), fs0, (rec_ops (us_fs s)), (rec_fs (us_fs s)).
    split_and!; [done|done|apply sortEntries_stable|done|done|done|intros x _; apply trimSlashes_spec|by rewrite H2|done|].
    intros x Hx Hd Hn. apply H4; [|done]. destruct (sortEntries_stable es) as [Hp _]. by rewrite <- Hp.
  - split; cbn [us_fs us_cache rec_ops rec_fs]; [split; [by intros [|] ? ?|constructor]|].
    intros d [->|[->|Hd]%elem_of_cons]%elem_of_cons; [right; by left|by left|by apply not_elem_of_nil in Hd].
Qed.

(** ** Termination *)

Section total.
Context {V : Type} `{UFSWriter V}.
Variable errText : error -> list byte.
Hypothesis quiet : forall o fs, fst (ufsDo (W := V) o fs) <> Panic.
Implicit Types w : ufsState V.

Definition returns {S A} (m : M S A) : Prop := forall s, fst (m s) <> Panic.
Lemma returns_bind {S A B} (m : M S A) (k : A -> M S B) : returns m -> (forall a, returns (k a)) -> returns (bind m k).
Proof. intros Hm Hk s. unfold bind. specialize (Hm s). destruct (m s) as [[a|e|] s1]; [apply Hk|done|done]. Qed.
Lemma returns_ret {S A} (a : A) : returns (@ret S A a).
Proof. done. Qed.
Lemma doOp_returns o : returns (doOp (W := V) o).
Proof. intros w. unfold doOp, zoom. pose proof (quiet o (us_fs w)) as Hq. by destruct (ufsDo o (us_fs w)) as [[|e|] fs]. Qed.

(** One level: the parent, and the directory. *)
Lemma ensureParents_step fuel p :
  (forall w, pathDir ([pslash] ++ trimSlashes p) <> [pslash] -> fst (ensureParents (W := V) errText fuel (pathDir ([pslash] ++ trimSlashes p)) w) <> Panic) ->
  returns (ensureParents (W := V) errText (S fuel) p).
Proof.
  intros Hp. cbn [ensureParents]. apply returns_bind; [done|]. intros cache. destruct (bool_decide _); [apply returns_ret|].
  apply returns_bind; [|intros _; apply returns_bind].
  - case_bool_decide; cbn [negb andb]; [apply returns_ret|]. destruct (negb _); [|apply returns_ret]. intros w. by apply Hp.
  - intros w. unfold try. pose proof (doOp_returns (opMkDir ([pslash] ++ trimSlashes p) dirPerm) w) as Hq. by destruct (doOp _ w) as [[?|?|] ?].
  - intros r. destruct (match r with inl _ => false | inr _ => _ end); [by destruct r|]. done.
Qed.

Lemma ensureParents_returns cs : forall fuel, Forall cleanComp cs -> (length cs < fuel)%nat -> returns (ensureParents (W := V) errText fuel (pathOf cs)).
Proof.
  induction cs as [|c cs IH] using rev_ind; intros [|fuel] Hc Hf; try (cbn in Hf; lia); apply ensureParents_step; rewrite trim_pathOf by done.
  - intros w Hne. exfalso. apply Hne. vm_compute. reflexivity.
  - apply Forall_app in Hc as [Hcs Hc]. apply Forall_cons in Hc as [Hc _]. rewrite pathDir_snoc by done. intros w _.
    apply IH; [done|]. rewrite length_app in Hf. cbn in Hf. lia.
Qed.

Lemma ensureDirs_returns p : returns (ensureDirs (W := V) errText p).
Proof.
  unfold ensureDirs. replace (length p + 4)%nat with (S (length p + 3)) by lia. apply ensureParents_step. intros w _.
  destruct (pathDir_clean ([pslash] ++ trimSlashes p)) as (cs & Hcs & -> & Hl). apply ensureParents_returns; [done|].
  assert (forall x : list byte, length (dropSlashes x) <= length x)%nat as Hd. { induction x as [|c x IH]; cbn; [lia|]. destruct (decide _); cbn; lia. }
  assert (length (trimSlashes p) <= length p)%nat as Ht. { unfold trimSlashes. rewrite length_rev. etransitivity; [apply Hd|]. rewrite length_rev. apply Hd. }
  rewrite length_app in Hl. cbn in Hl. lia.
Qed.

Lemma writeTarEntry_returns e : returns (writeTarEntry (W := V) errText e).
Proof.
  unfold writeTarEntry. cbv zeta. destruct (bool_decide _); [apply returns_ret|]. destruct (bool_decide _); [apply ensureDirs_returns|].
  destruct (isRegular _); [|destruct (bool_decide _); [|apply returns_ret]]; (apply returns_bind; [apply ensureDirs_returns|intros _; apply doOp_returns]).
Qed.
Lemma writeEntries_returns es : returns (writeEntries (W := V) errText es).
Proof. induction es as [|e es IH]; [apply returns_ret|]. apply returns_bind; [apply writeTarEntry_returns|done]. Qed.

Lemma collect_returns entries fin : collect entries fin <> Panic.
Proof.
  induction entries as [|e r IH]; cbn [collect]; [by destruct fin|]. destruct (isRegular (ue_tar e)); [destruct (te_Err (ue_tar e)); [done|]|];
    cbn [out_bind]; by destruct (collect r fin).
Qed.

(** With a writer that returns, so does the tool, whatever the names in the
    archive: the walk up to the root ends within the fuel. *)
Theorem ufs_build_returns entries fin size : 0 <= size -> buildUFSFromTar (W := V) errText entries fin size <> Panic.
Proof.
  intros Hs. unfold buildUFSFromTar. rewrite (proj2 (Z.ltb_ge size 0)) by done. destruct (ufsMkfs _ _ _) as [fs|e]; [|done].
  pose proof (collect_returns entries fin). destruct (collect entries fin) as [es|e|]; [|done..]. cbn [out_bind].
  pose proof (writeEntries_returns (sortEntries es) (mkUfsState fs [[pslash]; []])) as Hw. by destruct (writeEntries _ _ _) as [[[]|e|] s].
Qed.
End total.

(** The toy archive: its kernel is listed before its directory. *)
Lemma ufs_image_populated_witness :
  buildUFSFromTar (W := Recorded toyUFS) toyText toyTar None 512 = Ok (str "/boot/loader.efiL/boot/kernel/kernelK") /\
  exists es sorted log fs, bodiesOf toyTar es /\ stablySorted es sorted /\ ran (mkToyUFS [[pslash]] []) log fs /\
    str "/boot/loader.efiL/boot/kernel/kernelK" = ufsBuffer (W := toyUFS) fs /\ contents log = concat (entryOps <$> sorted).
Proof.
  assert (buildUFSFromTar (W := Recorded toyUFS) toyText toyTar None 512 = Ok (str "/boot/loader.efiL/boot/kernel/kernelK")) as E by (vm_compute; reflexivity).
  split; [exact E|]. destruct (ufs_image_populated toyText toyTar None 512 _ E) as (es & sorted & fs0 & log & fs & _ & Hb & Hs & Hm & Hr & Hi & _ & Hc & _).
  injection Hm as <-. by exists es, sorted, log, fs.
Defined.
