(* ===== verification/Sfs.v ===== *)
(** * The published file system

    uefiboard: sfs_publish.go (registries), sfs_publish_handlers.go (the eleven
    callbacks of EFI_SIMPLE_FILE_SYSTEM_PROTOCOL and EFI_FILE_PROTOCOL) and
    PublishSFS / UnpublishSFS of sfs_publish_tamago.go.  The backing file system
    (a third-party interface) is a record of functions of the path; addresses of
    Go allocations and the firmware's answers are arguments. *)

From S2P Require Import Prelude Effects GoStr LittleEndian Memory Utf8 SfsPath.

(** ** Constants (sfs_publish.go) *)

Definition sfsEFISuccess : Z := 0.
Definition sfsEFIInvalidParameter : Z := 0x8000000000000002.
Definition sfsEFIUnsupported : Z := 0x8000000000000003.
Definition sfsEFIBufferTooSmall : Z := 0x8000000000000005.
Definition sfsEFIDeviceError : Z := 0x8000000000000007.
Definition sfsEFIWriteProtected : Z := 0x8000000000000008.
Definition sfsEFIOutOfResources : Z := 0x8000000000000009.
Definition sfsEFINotFound : Z := 0x800000000000000E.
Definition sfsEFIWarnDeleteFailure : Z := 2.

Definition sfsPublishedRevision : Z := 0x00010000.
Definition sfsFilePublishedRevision : Z := 0x00010000.
Definition sfsFileAttrReadOnly : Z := 1.
Definition sfsFileAttrDirectory : Z := 0x10.
Definition sfsFileModeRead : Z := 1.
Definition sfsFileModeWrite : Z := 2.
Definition sfsFileModeCreate : Z := 0x8000000000000000.
Definition sfsPositionEnd : Z := 0xFFFFFFFFFFFFFFFF.
Definition sfsPublishRegistrySize : nat := 4.
Definition sfsFileHandleRegistrySize : nat := 32.
Definition sfsFileInfoHeaderSize : Z := 80.

(** EFI_FILE_INFO_GUID in memory: 09576e92-6d3f-11d2-8e39-00a0c969723b. *)
Definition EFIFileInfoGUID : list byte :=
  [x92; x6e; x57; x09; x3f; x6d; xd2; x11; x8e; x39; x00; xa0; xc9; x69; x72; x3b].

(** ** State *)

(** An entry of ListDir, and the answers of Stat, ListDir and ReadFile; [None]
    for an error. *)
Record dirEntry := mkDirEntry { de_Name : list byte; de_Inode : Z; de_FileType : Z }.
Record fileStat := mkStat { st_Mode : Z; st_Size : Z }.
Record Filesystem := mkFilesystem {
  fsStat : list byte -> option fileStat;
  fsListDir : list byte -> option (list dirEntry);
  fsReadFile : list byte -> option (list byte)
}.

Record sfsPublishEntry := mkSfs { sp_proto : Z; sp_rootFileProto : Z; sp_fs : option Filesystem }.
Definition emptySfs : sfsPublishEntry := mkSfs 0 0 None.

Record dirEntryCached := mkCached { dc_name : list byte; dc_inode : Z; dc_isDir : bool; dc_size : Z; dc_mode : Z }.

Record sfsFileHandleEntry := mkHandle {
  fh_proto : Z;
  fh_owner : Z;
  fh_path : list byte;
  fh_isDir : bool;
  fh_pos : Z;
  fh_body : option (list byte);
  fh_bodyErr : bool;
  fh_dirents : option (list dirEntryCached);
  fh_direntI : nat
}.
Definition emptyHandle : sfsFileHandleEntry := mkHandle 0 0 [] false 0 None false None 0.

Definition setPos (p : Z) (f : sfsFileHandleEntry) : sfsFileHandleEntry :=
  mkHandle (fh_proto f) (fh_owner f) (fh_path f) (fh_isDir f) p (fh_body f) (fh_bodyErr f) (fh_dirents f) (fh_direntI f).
Definition setBody (b : option (list byte)) (e : bool) (f : sfsFileHandleEntry) : sfsFileHandleEntry :=
  mkHandle (fh_proto f) (fh_owner f) (fh_path f) (fh_isDir f) (fh_pos f) b e (fh_dirents f) (fh_direntI f).
Definition setDirents (d : option (list dirEntryCached)) (i : nat) (f : sfsFileHandleEntry) : sfsFileHandleEntry :=
  mkHandle (fh_proto f) (fh_owner f) (fh_path f) (fh_isDir f) (fh_pos f) (fh_body f) (fh_bodyErr f) d i.

(** Memory, the two registries, the installed volumes and the trampoline table. *)
Record World := mkWorld {
  w_mem : memory;
  w_sfs : list sfsPublishEntry;
  w_files : list sfsFileHandleEntry;
  w_published : gmap Z (Z * nat);
  w_vtable : list Z;
  w_openVolumePC : Z
}.
Definition setMem (m : memory) (w : World) : World := mkWorld m (w_sfs w) (w_files w) (w_published w) (w_vtable w) (w_openVolumePC w).
Definition setFiles (fs : list sfsFileHandleEntry) (w : World) : World := mkWorld (w_mem w) (w_sfs w) fs (w_published w) (w_vtable w) (w_openVolumePC w).
Definition setSfs (ss : list sfsPublishEntry) (w : World) : World := mkWorld (w_mem w) ss (w_files w) (w_published w) (w_vtable w) (w_openVolumePC w).

Abbreviation SfsM A := (M World A).

(** Reads and writes through pointers. *)
Definition peek {A} (f : memory -> out A) : SfsM A := m <- gets w_mem ;; lift (f m).
Definition poke (f : memory -> out memory) : SfsM unit := m <- gets w_mem ;; m <- lift (f m) ;; modify (setMem m).

(** The entry at a registry index, as the code's slot pointer sees it. *)
Definition updFile (i : nat) (f : sfsFileHandleEntry -> sfsFileHandleEntry) : SfsM unit :=
  modify (fun w => setFiles (alter f i (w_files w)) w).

(** ** Registry lookups *)

Fixpoint findFrom {A} (live : A -> Z) (this : Z) (l : list A) (i : nat) : option (A * nat) :=
  match l with
  | [] => None
  | e :: r => if (live e =? this) && negb (live e =? 0) then Some (e, i) else findFrom live this r (S i)
  end.
Definition sfsPublishLookup (this : Z) : SfsM (option (sfsPublishEntry * nat)) :=
  w <- gets id ;; ret (findFrom sp_proto this (w_sfs w) 0).
Definition sfsFileHandleLookup (this : Z) : SfsM (option (sfsFileHandleEntry * nat)) :=
  w <- gets id ;; ret (findFrom fh_proto this (w_files w) 0).

Fixpoint freeFrom {A} (live : A -> Z) (l : list A) (i : nat) : option nat :=
  match l with
  | [] => None
  | e :: r => if live e =? 0 then Some i else freeFrom live r (S i)
  end.
Definition sfsAllocFileHandle : SfsM (option nat) := w <- gets id ;; ret (freeFrom fh_proto (w_files w) 0).

(** ** UCS-2 *)

(** The words of a string up to its terminator, at most [n]. *)
Fixpoint readWords (m : memory) (p : Z) (n : nat) : out (list Z) :=
  match n with
  | O => Ok []
  | S n =>
      let* bs := loadBytes m p 2 in
      match bs with
      | [b0; b1] =>
          let w := Z.lor (b2z b0) (Z.shiftl (b2z b1) 8) in
          if w =? 0 then Ok []
          else
            let* ws := readWords m (p + 2) n in
            Ok ((if (0xD800 <=? w) && (w <=? 0xDFFF) then 63 else w) :: ws)
      | _ => Panic
      end
  end.
Definition sfsReadUCS2 (m : memory) (p : Z) : out (list byte) :=
  if p =? 0 then Ok [] else let* ws := readWords m p (Z.to_nat 65536) in Ok (ofRunes ws).

Definition ucs2Rune (r : Z) : list byte := let r := if 0xFFFF <? r then 63 else r in [z2b r; z2b (Z.shiftr r 8)].

(** The bytes sfsWriteUCS2 puts into a destination of [n] bytes. *)
Fixpoint ucs2Fill (rs : list Z) (n : Z) : list byte :=
  match rs with
  | [] => if 2 <=? n then [x00; x00] else []
  | r :: rs => if n <? 2 then [] else ucs2Rune r ++ ucs2Fill rs (n - 2)
  end.
Definition sfsWriteUCS2 (s dst : list byte) : list byte :=
  let b := ucs2Fill (runes s) (len dst) in b ++ drop (length b) dst.

(** ** EFI_FILE_INFO *)

Definition sfsFileInfoSizeForName (name : list byte) : Z := sfsFileInfoHeaderSize + 2 * (len (runes name) + 1).

(** The destination after marshalling; [None] when it is too short. *)
Definition sfsWriteFileInfo (dst name : list byte) (size attr : Z) : out (option (list byte)) :=
  let total := sfsFileInfoSizeForName name in
  if len dst <? total then Ok None
  else
    let dst := make total ++ drop (Z.to_nat total) dst in
    let* dst := putLE64At dst 0 total in
    let* dst := putLE64At dst 8 size in
    let* dst := putLE64At dst 16 size in
    let* dst := putLE64At dst 72 attr in
    let* tail := slice dst sfsFileInfoHeaderSize total in
    let* dst := copyAt dst sfsFileInfoHeaderSize total (sfsWriteUCS2 name tail) in
    Ok (Some dst).

(** ** Backing file system *)

Definition isDirMode (mode : Z) : bool := Z.land mode 0xF000 =? 0x4000.

Definition cacheEntry (fs : Filesystem) (path : list byte) (e : dirEntry) : dirEntryCached :=
  match fsStat fs (sfsJoinPath path (de_Name e)) with
  | Some st => mkCached (de_Name e) (de_Inode e) (isDirMode (st_Mode st)) (st_Size st) (st_Mode st)
  | None => mkCached (de_Name e) (de_Inode e) (de_FileType e =? 4) 0 0
  end.
Definition isDots (name : list byte) : bool := bool_decide (name = dot) || bool_decide (name = dotdot).

(** The entries sfsLoadDirents caches. *)
Definition loadDirents (fs : Filesystem) (path : list byte) : option (list dirEntryCached) :=
  option_map (fun es => cacheEntry fs path <$> List.filter (fun e => negb (isDots (de_Name e))) es) (fsListDir fs path).
Definition sfsLoadDirents (i : nat) (fs : Filesystem) (path : list byte) : SfsM bool :=
  match loadDirents fs path with
  | None => ret false
  | Some cached => updFile i (setDirents (Some cached) 0) ;;; ret true
  end.

(** ** Callbacks *)

Definition sfsOpenVolumeGo (this outRoot : Z) : SfsM Z :=
  ent <- sfsPublishLookup this ;;
  match ent with
  | None => ret sfsEFINotFound
  | Some (ent, _) =>
      if outRoot =? 0 then ret sfsEFIInvalidParameter
      else poke (fun m => storeU64 m outRoot (sp_rootFileProto ent)) ;;; ret sfsEFISuccess
  end.

(** The bytes of a fresh EFIFileProtocolPublished. *)
Definition vtableBytes (w : World) : list byte := le64 sfsFilePublishedRevision ++ concat (le64 <$> w_vtable w).
Definition newProto (proto : Z) : SfsM unit := modify (fun w => setMem (allocAt (w_mem w) proto (vtableBytes w)) w).

(** A fresh EFISimpleFileSystemProtocolPublished. *)
Definition newVolume (proto : Z) : SfsM unit :=
  modify (fun w => setMem (allocAt (w_mem w) proto (le64 sfsPublishedRevision ++ le64 (w_openVolumePC w))) w).

(** [proto] is the address of the new protocol structure. *)
Definition sfsFileOpenGo (proto this outNew fileName openMode attributes : Z) : SfsM Z :=
  parent <- sfsFileHandleLookup this ;;
  match parent with
  | None => ret sfsEFINotFound
  | Some (parent, _) =>
      owner <- sfsPublishLookup (fh_owner parent) ;;
      match owner with
      | None => ret sfsEFINotFound
      | Some (owner, _) =>
          if outNew =? 0 then ret sfsEFIInvalidParameter
          else if negb (Z.land openMode sfsFileModeWrite =? 0) || negb (Z.land openMode sfsFileModeCreate =? 0)
          then ret sfsEFIWriteProtected
          else if Z.land openMode sfsFileModeRead =? 0 then ret sfsEFIInvalidParameter
          else
            name <- peek (fun m => sfsReadUCS2 m fileName) ;;
            if bool_decide (name = []) then ret sfsEFIInvalidParameter
            else
              let full := sfsJoinPath (fh_path parent) name in
              match sp_fs owner with
              | None => lift Panic
              | Some fs =>
                  match fsStat fs full with
                  | None => ret sfsEFINotFound
                  | Some st =>
                      slot <- sfsAllocFileHandle ;;
                      match slot with
                      | None => ret sfsEFIOutOfResources
                      | Some slot =>
                          newProto proto ;;;
                          updFile slot (fun _ => mkHandle proto (fh_owner parent) full (isDirMode (st_Mode st)) 0 None false None 0) ;;;
                          poke (fun m => storeU64 m outNew proto) ;;;
                          ret sfsEFISuccess
                      end
                  end
              end
      end
  end.

Definition sfsFileCloseGo (this : Z) : SfsM Z :=
  slot <- sfsFileHandleLookup this ;;
  match slot with
  | None => ret sfsEFISuccess
  | Some (slot, idx) =>
      owner <- sfsPublishLookup (fh_owner slot) ;;
      let root := match owner with Some (o, _) => sp_rootFileProto o | None => 0 end in
      if negb (root =? 0) && (fh_proto slot =? root) then ret sfsEFISuccess
      else updFile idx (fun _ => emptyHandle) ;;; ret sfsEFISuccess
  end.

Definition sfsFileDeleteGo (this : Z) : SfsM Z :=
  slot <- sfsFileHandleLookup this ;;
  match slot with
  | None => ret sfsEFINotFound
  | Some _ => sfsFileCloseGo this ;;; ret sfsEFIWarnDeleteFailure
  end.

(** The lazily loaded body: a failure is remembered. *)
Definition loadBody (idx : nat) (slot : sfsFileHandleEntry) (fs : Filesystem) : SfsM (option (list byte)) :=
  match fh_body slot with
  | Some b => ret (if fh_bodyErr slot then None else Some b)
  | None =>
      if fh_bodyErr slot then ret None
      else
        match fsReadFile fs (fh_path slot) with
        | None => updFile idx (setBody None true) ;;; ret None
        | Some b => updFile idx (setBody (Some b) false) ;;; ret (Some b)
        end
  end.

(** Marshals one EFI_FILE_INFO into the caller's buffer of [need] bytes. *)
Definition putInfo (bufferSize buffer : Z) (name : list byte) (size attr : Z) (done_ : SfsM unit) : SfsM Z :=
  let need := sfsFileInfoSizeForName name in
  dst <- peek (fun m => loadBytes m buffer (Z.to_nat need)) ;;
  info <- lift (sfsWriteFileInfo dst name size attr) ;;
  match info with
  | None => ret sfsEFIDeviceError
  | Some bytes =>
      poke (fun m => storeBytes m buffer bytes) ;;;
      poke (fun m => storeU64 m bufferSize need) ;;;
      done_ ;;; ret sfsEFISuccess
  end.

Definition attrOf (isDir : bool) : Z := if isDir then Z.lor sfsFileAttrReadOnly sfsFileAttrDirectory else sfsFileAttrReadOnly.

(** The directory half of Read, with the entries loaded. *)
Definition readDirent (idx : nat) (slot : sfsFileHandleEntry) (dirents : list dirEntryCached) (i : nat) (bs bufferSize buffer : Z) : SfsM Z :=
  match dirents !! i with
  | None => poke (fun m => storeU64 m bufferSize 0) ;;; ret sfsEFISuccess
  | Some e =>
      let need := sfsFileInfoSizeForName (dc_name e) in
      if bs <? need then poke (fun m => storeU64 m bufferSize need) ;;; ret sfsEFIBufferTooSmall
      else if buffer =? 0 then ret sfsEFIInvalidParameter
      else putInfo bufferSize buffer (dc_name e) (dc_size e) (attrOf (dc_isDir e))
             (updFile idx (setDirents (Some dirents) (S i)))
  end.

(** The regular-file half of Read, with the body loaded. *)
Definition readFile (idx : nat) (slot : sfsFileHandleEntry) (body : list byte) (bs bufferSize buffer : Z) : SfsM Z :=
  let remaining := if fh_pos slot <? len body then len body - fh_pos slot else 0 in
  let want := if remaining <? bs then remaining else bs in
  if want =? 0 then poke (fun m => storeU64 m bufferSize 0) ;;; ret sfsEFISuccess
  else if buffer =? 0 then ret sfsEFIInvalidParameter
  else
    src <- lift (slice body (fh_pos slot) (fh_pos slot + want)) ;;
    poke (fun m => storeBytes m buffer src) ;;;
    updFile idx (setPos (fh_pos slot + want)) ;;;
    poke (fun m => storeU64 m bufferSize want) ;;;
    ret sfsEFISuccess.

Definition sfsFileReadGo (this bufferSize buffer : Z) : SfsM Z :=
  slot <- sfsFileHandleLookup this ;;
  match slot with
  | None => ret sfsEFINotFound
  | Some (slot, idx) =>
      if bufferSize =? 0 then ret sfsEFIInvalidParameter
      else
        owner <- sfsPublishLookup (fh_owner slot) ;;
        match owner with
        | None => ret sfsEFINotFound
        | Some (owner, _) =>
            bs <- peek (fun m => loadU64 m bufferSize) ;;
            match sp_fs owner with
            | None => lift Panic
            | Some fs =>
                if fh_isDir slot then
                  match fh_dirents slot with
                  | Some dirents => readDirent idx slot dirents (fh_direntI slot) bs bufferSize buffer
                  | None =>
                      ok <- sfsLoadDirents idx fs (fh_path slot) ;;
                      if ok : bool then
                        match loadDirents fs (fh_path slot) with
                        | None => lift Panic
                        | Some dirents => readDirent idx slot dirents 0 bs bufferSize buffer
                        end
                      else ret sfsEFIDeviceError
                  end
                else
                  b <- loadBody idx slot fs ;;
                  match b with
                  | None => ret sfsEFIDeviceError
                  | Some body => readFile idx slot body bs bufferSize buffer
                  end
            end
        end
  end.

Definition known (this status : Z) : SfsM Z :=
  slot <- sfsFileHandleLookup this ;;
  match slot with None => ret sfsEFINotFound | Some _ => ret status end.
Definition sfsFileWriteGo (this bufferSize buffer : Z) : SfsM Z := known this sfsEFIWriteProtected.
Definition sfsFileSetInfoGo (this typeGUID bufferSize buffer : Z) : SfsM Z := known this sfsEFIWriteProtected.
Definition sfsFileFlushGo (this : Z) : SfsM Z := known this sfsEFISuccess.

Definition sfsFileGetPositionGo (this outPos : Z) : SfsM Z :=
  slot <- sfsFileHandleLookup this ;;
  match slot with
  | None => ret sfsEFINotFound
  | Some (slot, _) =>
      if fh_isDir slot then ret sfsEFIUnsupported
      else if outPos =? 0 then ret sfsEFIInvalidParameter
      else poke (fun m => storeU64 m outPos (fh_pos slot)) ;;; ret sfsEFISuccess
  end.

Definition sfsFileSetPositionGo (this pos : Z) : SfsM Z :=
  slot <- sfsFileHandleLookup this ;;
  match slot with
  | None => ret sfsEFINotFound
  | Some (slot, idx) =>
      if fh_isDir slot then
        if negb (pos =? 0) then ret sfsEFIUnsupported
        else updFile idx (fun f => setDirents (fh_dirents f) 0 f) ;;; ret sfsEFISuccess
      else
        owner <- sfsPublishLookup (fh_owner slot) ;;
        match owner with
        | None => ret sfsEFINotFound
        | Some (owner, _) =>
            if pos =? sfsPositionEnd then
              match sp_fs owner with
              | None => lift Panic
              | Some fs =>
                  b <- loadBody idx slot fs ;;
                  match b with
                  | None => ret sfsEFIDeviceError
                  | Some body => updFile idx (setPos (len body)) ;;; ret sfsEFISuccess
                  end
              end
            else updFile idx (setPos pos) ;;; ret sfsEFISuccess
        end
  end.

Definition infoSize (fs : Filesystem) (slot : sfsFileHandleEntry) : Z :=
  if fh_isDir slot then 0
  else match fsStat fs (fh_path slot) with
       | Some st => st_Size st
       | None => match fh_body slot with Some b => len b | None => 0 end
       end.

Definition sfsFileGetInfoGo (this typeGUID bufferSize buffer : Z) : SfsM Z :=
  slot <- sfsFileHandleLookup this ;;
  match slot with
  | None => ret sfsEFINotFound
  | Some (slot, _) =>
      if (typeGUID =? 0) || (bufferSize =? 0) then ret sfsEFIInvalidParameter
      else
        g <- peek (fun m => loadBytes m typeGUID 16) ;;
        if negb (bool_decide (g = EFIFileInfoGUID)) then ret sfsEFIUnsupported
        else
          owner <- sfsPublishLookup (fh_owner slot) ;;
          match owner with
          | None => ret sfsEFINotFound
          | Some (owner, _) =>
              match sp_fs owner with
              | None => lift Panic
              | Some fs =>
                  name <- lift (sfsBaseName (fh_path slot)) ;;
                  let need := sfsFileInfoSizeForName name in
                  have <- peek (fun m => loadU64 m bufferSize) ;;
                  if have <? need then poke (fun m => storeU64 m bufferSize need) ;;; ret sfsEFIBufferTooSmall
                  else if buffer =? 0 then ret sfsEFIInvalidParameter
                  else putInfo bufferSize buffer name (infoSize fs slot) (attrOf (fh_isDir slot)) (ret tt)
              end
          end
  end.

(** ** Publishing (sfs_publish_tamago.go) *)

(** Up to the firmware call; [rootProto], [protocol]: addresses of the two
    structures.  The slots taken, before the firmware can call back. *)
Definition reserveSFS (bs rootProto protocol : Z) (fs : option Filesystem) : SfsM (nat * nat) :=
  match fs with
  | None => throw ErrSFSNilFilesystem
  | Some fs =>
      throw_if bs =? 0 with ErrNoBootServices;;
      newProto rootProto ;;;
      newVolume protocol ;;;
      w <- gets id ;;
      match freeFrom sp_proto (w_sfs w) 0 with
      | None => throw ErrSFSRegistryFull
      | Some slot =>
          modify (fun w => setSfs (<[slot := mkSfs protocol rootProto (Some fs)]> (w_sfs w)) w) ;;;
          rootSlot <- sfsAllocFileHandle ;;
          match rootSlot with
          | None =>
              modify (fun w => setSfs (<[slot := emptySfs]> (w_sfs w)) w) ;;;
              throw ErrSFSHandleRegistryFull
          | Some rootSlot =>
              updFile rootSlot (fun _ => mkHandle rootProto protocol [pslash] true 0 None false None 0) ;;;
              ret (slot, rootSlot)
          end
      end
  end.
(** From the firmware's answer on. *)
Definition installedSFS (protocol : Z) (slots : nat * nat) (status hOut : Z) : SfsM Z :=
  if negb (status =? 0) then
    modify (fun w => setSfs (<[fst slots := emptySfs]> (w_sfs w)) w) ;;;
    updFile (snd slots) (fun _ => emptyHandle) ;;;
    throw (ErrEFI status)
  else
    modify (fun w => mkWorld (w_mem w) (w_sfs w) (w_files w) (<[hOut := (protocol, fst slots)]> (w_published w)) (w_vtable w) (w_openVolumePC w)) ;;;
    ret hOut.
(** [status] and [hOut]: the firmware's answer. *)
Definition PublishSFS (bs rootProto protocol status hOut : Z) (fs : option Filesystem) : SfsM Z :=
  slots <- reserveSFS bs rootProto protocol fs ;; installedSFS protocol slots status hOut.


Definition UnpublishSFS (bs status handle : Z) : SfsM unit :=
  throw_if handle =? 0 with ErrSFSNotPublished;;
  w <- gets id ;;
  match w_published w !! handle with
  | None => throw ErrSFSNotPublished
  | Some (protocol, slot) =>
      throw_if bs =? 0 with ErrNoBootServices;;
      throw_if negb (status =? 0) with ErrEFI status;;
      (if Nat.ltb slot sfsPublishRegistrySize then modify (fun w => setSfs (<[slot := emptySfs]> (w_sfs w)) w) else ret tt) ;;;
      modify (fun w => setFiles ((fun f => if fh_owner f =? protocol then emptyHandle else f) <$> w_files w) w) ;;;
      modify (fun w => mkWorld (w_mem w) (w_sfs w) (w_files w) (delete handle (w_published w)) (w_vtable w) (w_openVolumePC w))
  end.
