(* ===== verification/SfsProps.v ===== *)
(** * Properties of the published file system

    The registry invariant over every sequence of callbacks, reads of files and
    directories against the backing file system, and what the callbacks may
    touch in memory. *)

From S2P Require Import Prelude Effects GoStr LittleEndian Memory Utf8 SfsPath Sfs.

(** ** Registries *)

Section registry.
Context {A : Type} (live : A -> Z).

(** Live keys occur once. *)
Definition uniqueLive (l : list A) : Prop :=
  forall i j e f, l !! i = Some e -> l !! j = Some f -> live e = live f -> live e <> 0 -> i = j.

Lemma findFrom_Some this l k e i : findFrom live this l k = Some (e, i) -> (k <= i)%nat /\ l !! (i - k)%nat = Some e /\ live e = this /\ this <> 0.
Proof.
  revert k. induction l as [|x l IH]; intros k; cbn; [done|]. destruct (Z.eqb_spec (live x) this) as [E|E]; cbn.
  - destruct (Z.eqb_spec (live x) 0) as [Z0|Z0]; cbn; [|intros [= <- <-]; rewrite Nat.sub_diag; cbn; split_and!; [lia|done|done|congruence]].
    intros (? & Hi & ? & ?)%IH. replace (i - k)%nat with (S (i - S k))%nat by lia. cbn. split_and!; [lia|done..].
  - intros (? & Hi & ? & ?)%IH. replace (i - k)%nat with (S (i - S k))%nat by lia. cbn. split_and!; [lia|done..].
Qed.

Lemma findFrom_unique this l i e :
  uniqueLive l -> l !! i = Some e -> live e = this -> this <> 0 -> findFrom live this l 0 = Some (e, i).
Proof.
  intros Hu Hi He Ht. destruct (findFrom live this l 0) as [[f j]|] eqn:E.
  - apply findFrom_Some in E as (_ & Hj & Hf & _). rewrite Nat.sub_0_r in Hj.
    assert (i = j) as <- by (eapply (Hu i j e f); congruence). congruence.
  - exfalso. revert E. generalize 0%nat. revert i Hi. clear Hu. induction l as [|x l IH]; intros i Hi k; [done|]. cbn.
    destruct (Z.eqb_spec (live x) this) as [Ex|Ex]; cbn.
    + rewrite (proj2 (Z.eqb_neq _ _)) by congruence. done.
    + destruct i as [|i]; [by injection Hi as ->|]. by apply (IH i).
Qed.

Lemma freeFrom_Some l k i : freeFrom live l k = Some i -> (k <= i)%nat /\ exists e, l !! (i - k)%nat = Some e /\ live e = 0.
Proof.
  revert k. induction l as [|x l IH]; intros k; cbn; [done|]. destruct (Z.eqb_spec (live x) 0).
  - intros [= <-]. rewrite Nat.sub_diag. split; [lia|]. by exists x.
  - intros (? & e & Hi & ?)%IH. replace (i - k)%nat with (S (i - S k))%nat by lia. split; [lia|]. by exists e.
Qed.

(** Overwriting a slot with a fresh key, or clearing it. *)
Lemma uniqueLive_insert l i x :
  uniqueLive l -> live x = 0 \/ (forall j e, l !! j = Some e -> live e = live x -> j = i) -> uniqueLive (<[i := x]> l).
Proof.
  intros Hu Hx a b e f Ha Hb Heq Hne.
  assert (forall k y, <[i := x]> l !! k = Some y -> (k = i /\ y = x) \/ (k <> i /\ l !! k = Some y)) as Hc.
  { intros k y Hk. destruct (decide (k = i)) as [->|Hki].
    - left. split; [done|]. apply list_lookup_insert_Some in Hk as [(_ & -> & _)|[? _]]; done.
    - right. by rewrite list_lookup_insert_ne in Hk. }
  apply Hc in Ha as [[-> ->]|[Hai Ha]], Hb as [[-> ->]|[Hbi Hb]]; [done| | |by eapply Hu].
  - destruct Hx as [?|Hx]; [done|]. by rewrite (Hx b f Hb) in Hbi by done.
  - destruct Hx as [Hx|Hx]; [congruence|]. by rewrite (Hx a e Ha) in Hai.
Qed.
End registry.

(** An update in place. *)
Lemma alter_cases {A} (g : A -> A) (i : nat) (l : list A) : alter g i l = match l !! i with Some f => <[i := g f]> l | None => l end.
Proof.
  revert i. induction l as [|x l IH]; intros [|i]; [done|done|done|]. change (alter g (S i) (x :: l)) with (x :: alter g i l).
  rewrite IH. cbn. by destruct (l !! i).
Qed.

(** ** The invariant *)

(** The volume a handle belongs to, and its file system. *)
Definition ownedBy (ss : list sfsPublishEntry) (f : sfsFileHandleEntry) (fs : Filesystem) : Prop :=
  exists j e, ss !! j = Some e /\ sp_proto e = fh_owner f /\ fh_owner f <> 0 /\ sp_fs e = Some fs.

(** What is cached is what the file system answers. *)
Definition coherent (fs : Filesystem) (f : sfsFileHandleEntry) : Prop :=
  (forall b, fh_body f = Some b -> fh_bodyErr f = false /\ fsReadFile fs (fh_path f) = Some b) /\
  (forall d, fh_dirents f = Some d -> loadDirents fs (fh_path f) = Some d).

Definition handleOk (ss : list sfsPublishEntry) (f : sfsFileHandleEntry) : Prop :=
  cleanPath (fh_path f) /\ exists fs, ownedBy ss f fs /\ coherent fs f.

(** The volume's root handle is open. *)
Definition rootOk (files : list sfsFileHandleEntry) (e : sfsPublishEntry) : Prop :=
  sp_rootFileProto e <> 0 /\ exists i f, files !! i = Some f /\ fh_proto f = sp_rootFileProto e /\
    fh_owner f = sp_proto e /\ fh_path f = [pslash] /\ fh_isDir f = true.

Record regInv (ss : list sfsPublishEntry) (files : list sfsFileHandleEntry) : Prop := mkRegInv {
  ri_files : length files = sfsFileHandleRegistrySize;
  ri_sfs : length ss = sfsPublishRegistrySize;
  ri_ufiles : uniqueLive fh_proto files;
  ri_usfs : uniqueLive sp_proto ss;
  ri_handles i f : files !! i = Some f -> fh_proto f <> 0 -> handleOk ss f;
  ri_roots j e : ss !! j = Some e -> sp_proto e <> 0 -> rootOk files e
}.
Definition sfsInv (w : World) : Prop := regInv (w_sfs w) (w_files w).

(** An update of a handle that keeps what identifies it. *)
Definition sameFile (f g : sfsFileHandleEntry) : Prop :=
  fh_proto g = fh_proto f /\ fh_owner g = fh_owner f /\ fh_path g = fh_path f /\ fh_isDir g = fh_isDir f.

Lemma regInv_alter ss files g idx :
  regInv ss files ->
  (forall f, files !! idx = Some f -> sameFile f (g f) /\ forall fs, ownedBy ss f fs -> coherent fs f -> coherent fs (g f)) ->
  regInv ss (alter g idx files).
Proof.
  intros [H1 H2 H3 H4 H5 H6] Hg. destruct (files !! idx) as [f0|] eqn:E0; [|by rewrite alter_cases, E0].
  destruct (Hg f0 eq_refl) as [(S1 & S2 & S3 & S4) Hco].
  rewrite alter_cases, E0. split; [by rewrite length_insert|done| |done| |].
  - apply uniqueLive_insert; [done|]. destruct (Z.eq_dec (fh_proto (g f0)) 0); [by left|right]. intros j e Hj He. eapply (H3 j idx e f0); congruence.
  - intros i f Hi Hl. apply list_lookup_insert_Some in Hi as [(<- & <- & _)|[Hne Hi]]; [|by eapply H5].
    destruct (H5 idx f0 E0) as (Hc & fs & Ho & Hcoh); [congruence|]. split; [congruence|]. exists fs. split; [|by apply Hco].
    unfold ownedBy in *. by rewrite S2.
  - intros j e Hj Hl. destruct (H6 j e Hj Hl) as (Hr & i & f & Hi & F1 & F2 & F3 & F4). split; [done|].
    destruct (decide (i = idx)) as [->|Hne].
    + exists idx, (g f0). rewrite list_lookup_insert_eq by (by eapply lookup_lt_Some). assert (f = f0) as -> by congruence. split; [done|]. split_and!; congruence.
    + exists i, f. by rewrite list_lookup_insert_ne.
Qed.

(** ** Running callbacks *)

Lemma peek_ok {A} (f : memory -> out A) w a w' : peek f w = (Ok a, w') -> f (w_mem w) = Ok a /\ w' = w.
Proof. unfold peek. intros (m & w1 & [= <- <-] & [? ->]%lift_ok)%bind_ok. done. Qed.
Lemma poke_ok f w a w' : poke f w = (Ok a, w') -> exists m, f (w_mem w) = Ok m /\ w' = setMem m w.
Proof.
  unfold poke. intros (m & w1 & [= <- <-] & Hk)%bind_ok. apply bind_ok in Hk as (m' & w2 & [Hm ->]%lift_ok & [= _ <-]). by exists m'.
Qed.
Lemma updFile_ok i g w a w' : updFile i g w = (Ok a, w') -> w' = setFiles (alter g i (w_files w)) w.
Proof. by intros [= _ <-]. Qed.
Lemma fileLookup_ok this w r w' : sfsFileHandleLookup this w = (Ok r, w') -> w' = w /\ r = findFrom fh_proto this (w_files w) 0.
Proof. by intros [= <- <-]. Qed.
Lemma sfsLookup_ok this w r w' : sfsPublishLookup this w = (Ok r, w') -> w' = w /\ r = findFrom sp_proto this (w_sfs w) 0.
Proof. by intros [= <- <-]. Qed.
Lemma alloc_ok w r w' : sfsAllocFileHandle w = (Ok r, w') -> w' = w /\ r = freeFrom fh_proto (w_files w) 0.
Proof. by intros [= <- <-]. Qed.

(** Takes a successful run apart, one call at a time. *)
Ltac run H :=
  lazymatch type of H with
  | bind (peek _) _ _ = _ => apply bind_ok in H as (? & ? & [? ->]%peek_ok & H)
  | bind (poke _) _ _ = _ => apply bind_ok in H as (? & ? & (? & ? & ->)%poke_ok & H)
  | bind (updFile _ _) _ _ = _ => apply bind_ok in H as (? & ? & ->%updFile_ok & H)
  | bind (sfsFileHandleLookup _) _ _ = _ => apply bind_ok in H as (? & ? & [-> ->]%fileLookup_ok & H)
  | bind (sfsPublishLookup _) _ _ = _ => apply bind_ok in H as (? & ? & [-> ->]%sfsLookup_ok & H)
  | bind sfsAllocFileHandle _ _ = _ => apply bind_ok in H as (? & ? & [-> ->]%alloc_ok & H)
  | bind (lift _) _ _ = _ => apply bind_ok in H as (? & ? & [? ->]%lift_ok & H)
  | ret _ _ = _ => apply ret_ok in H as [-> ->]
  end.

(** A file handle found by its protocol address, and its volume. *)
Lemma inv_found w this f i :
  sfsInv w -> findFrom fh_proto this (w_files w) 0 = Some (f, i) ->
  w_files w !! i = Some f /\ fh_proto f = this /\ this <> 0 /\ handleOk (w_sfs w) f.
Proof.
  intros Hi Hf. apply findFrom_Some in Hf as (_ & Hl & Hp & Ht). rewrite Nat.sub_0_r in Hl. split_and!; try done.
  eapply (ri_handles _ _ Hi); [done|congruence].
Qed.
Lemma inv_owner w f e j fs :
  sfsInv w -> findFrom sp_proto (fh_owner f) (w_sfs w) 0 = Some (e, j) -> ownedBy (w_sfs w) f fs -> sp_fs e = Some fs.
Proof.
  intros Hi He (k & e' & Hk & Hp & Hz & Hfs). rewrite (findFrom_unique sp_proto (fh_owner f) (w_sfs w) k e') in He; [by injection He as -> _| |done..].
  apply (ri_usfs _ _ Hi).
Qed.

Lemma inv_volume w f fs fs' : sfsInv w -> ownedBy (w_sfs w) f fs -> ownedBy (w_sfs w) f fs' -> fs = fs'.
Proof.
  intros Hi (j & e & He & Hp & Hz & Hfs) (j' & e' & He' & Hp' & _ & Hfs').
  assert (j = j') as <- by (eapply (ri_usfs _ _ Hi j j' e e'); congruence). congruence.
Qed.

Lemma inv_setMem m w : sfsInv w -> sfsInv (setMem m w).
Proof. done. Qed.
Lemma inv_updFile g i w :
  sfsInv w ->
  (forall f, w_files w !! i = Some f -> sameFile f (g f) /\ forall fs, ownedBy (w_sfs w) f fs -> coherent fs f -> coherent fs (g f)) ->
  sfsInv (setFiles (alter g i (w_files w)) w).
Proof. apply regInv_alter. Qed.

Lemma setPos_same p f : sameFile f (setPos p f) /\ forall fs, coherent fs f -> coherent fs (setPos p f).
Proof. done. Qed.

(** Loading a body keeps the invariant and returns what the file system has. *)
Lemma loadBody_ok idx slot fs w b w' :
  sfsInv w -> w_files w !! idx = Some slot -> ownedBy (w_sfs w) slot fs -> coherent fs slot ->
  loadBody idx slot fs w = (Ok b, w') ->
  sfsInv w' /\ w_mem w' = w_mem w /\ w_sfs w' = w_sfs w /\ (forall c, b = Some c -> fsReadFile fs (fh_path slot) = Some c) /\
  exists slot', w_files w' = <[idx := slot']> (w_files w) /\ sameFile slot slot' /\ fh_pos slot' = fh_pos slot /\ coherent fs slot'.
Proof.
  intros Hi Hs Ho Hc Hr. unfold loadBody in Hr.
  assert (forall (Hw : w' = w), exists slot', w_files w' = <[idx := slot']> (w_files w) /\ sameFile slot slot' /\ fh_pos slot' = fh_pos slot /\ coherent fs slot') as Hnop.
  { intros ->. exists slot. by rewrite list_insert_id. }
  destruct (fh_body slot) as [c|] eqn:Eb.
  { destruct (proj1 Hc c Eb) as [Ee Ef]. rewrite Ee in Hr. run Hr. split_and!; try done; [by intros ? [= <-]|by apply Hnop]. }
  destruct (fh_bodyErr slot) eqn:Ee; [run Hr; split_and!; try done; by apply Hnop|].
  assert (forall b' e', (forall c, b' = Some c -> e' = false /\ fsReadFile fs (fh_path slot) = Some c) ->
    sfsInv (setFiles (alter (setBody b' e') idx (w_files w)) w) /\
    exists slot', w_files (setFiles (alter (setBody b' e') idx (w_files w)) w) = <[idx := slot']> (w_files w) /\
      sameFile slot slot' /\ fh_pos slot' = fh_pos slot /\ coherent fs slot') as Hupd.
  { intros b' e' Hb. split.
    - apply inv_updFile; [done|]. intros f Hf. assert (f = slot) as -> by congruence. split; [done|]. intros fs' Ho' [_ Hd]. split; [|done].
      cbn. intros c Hc'. destruct (Hb c Hc'). split; [done|]. 
      by rewrite (inv_volume w slot fs' fs Hi Ho' Ho).
    - exists (setBody b' e' slot). cbn. rewrite alter_cases, Hs. split_and!; try done. split; [done|apply Hc]. }
  destruct (fsReadFile fs (fh_path slot)) as [c|] eqn:Er; run Hr; run Hr.
  - destruct (Hupd (Some c) false) as [H1 H2]; [by intros ? [= <-]|]. by split_and!.
  - destruct (Hupd None true) as [H1 H2]; [done|]. by split_and!.
Qed.

(** ** The invariant is kept *)

Lemma readFile_inv idx slot body bs bufferSize buffer w st w' :
  sfsInv w -> readFile idx slot body bs bufferSize buffer w = (Ok st, w') -> sfsInv w'.
Proof.
  intros Hi Hr. unfold readFile in Hr. cbv zeta in Hr. destruct (_ =? 0); [by do 2 run Hr|]. destruct (buffer =? 0); [by run Hr|].
  do 5 run Hr. apply inv_setMem. apply (inv_updFile _ _ (setMem _ w)); [done|]. intros f _. split; [apply setPos_same|].
  intros fs _. apply setPos_same.
Qed.

Lemma putInfo_ok bufferSize buffer name size attr done_ w st w' (I : World -> Prop) :
  (forall m, I (setMem m w)) -> (forall m w2, done_ (setMem m w) = (Ok tt, w2) -> I w2) -> I w ->
  putInfo bufferSize buffer name size attr done_ w = (Ok st, w') -> I w'.
Proof.
  intros HI Hd Hw Hr. unfold putInfo in Hr. cbv zeta in Hr. do 2 run Hr. destruct x0 as [bytes|]; [|by run Hr].
  do 2 run Hr. apply bind_ok in Hr as ([] & w1 & Hdo & Hr). run Hr. by eapply Hd.
Qed.

Lemma readDirent_inv idx slot dirents i bs bufferSize buffer w st w' :
  sfsInv w -> (exists f d, w_files w !! idx = Some f /\ fh_dirents f = Some d /\ d = dirents) ->
  readDirent idx slot dirents i bs bufferSize buffer w = (Ok st, w') -> sfsInv w'.
Proof.
  intros Hi (f & d & Hf & Hd & ->) Hr. unfold readDirent in Hr. destruct (dirents !! i) as [e|]; [|by do 2 run Hr]. cbv zeta in Hr.
  destruct (_ <? _); [by do 2 run Hr|]. destruct (_ =? 0); [by run Hr|].
  eapply (putInfo_ok _ _ _ _ _ _ w st w' sfsInv); [done| |done|exact Hr]. intros m w2 ->%updFile_ok.
  apply (inv_updFile _ _ (setMem m w)); [done|]. intros g Hg. cbn in Hg. assert (g = f) as -> by congruence. split; [done|].
  intros fs _ [Hb Hdd]. split; [done|]. cbn. intros ? [= <-]. by apply Hdd.
Qed.

Lemma Read_inv this bufferSize buffer w st w' : sfsInv w -> sfsFileReadGo this bufferSize buffer w = (Ok st, w') -> sfsInv w'.
Proof.
  intros Hi Hr. unfold sfsFileReadGo in Hr. run Hr. destruct (findFrom fh_proto this (w_files w) 0) as [[slot idx]|] eqn:Ef; [|by run Hr].
  destruct (inv_found w this slot idx Hi Ef) as (Hs & Hp & Ht & _ & fs & Ho & Hc).
  destruct (bufferSize =? 0); [by run Hr|]. run Hr. destruct (findFrom sp_proto (fh_owner slot) (w_sfs w) 0) as [[e j]|] eqn:Ee; [|by run Hr].
  run Hr. rewrite (inv_owner w slot e j fs Hi Ee Ho) in Hr. destruct (fh_isDir slot).
  - destruct (fh_dirents slot) as [d|] eqn:Ed; [by eapply readDirent_inv; [exact Hi| |exact Hr]; exists slot, d|].
    apply bind_ok in Hr as (ok & w1 & Hload & Hr). unfold sfsLoadDirents in Hload. destruct (loadDirents fs (fh_path slot)) as [d|] eqn:El.
    + run Hload. run Hload. eapply readDirent_inv; [| |exact Hr].
      * apply inv_updFile; [done|]. intros f Hf. assert (f = slot) as -> by congruence. split; [done|]. intros fs' Ho' [Hb _]. split; [done|].
        cbn. intros ? [= <-]. by rewrite (inv_volume w slot fs' fs Hi Ho' Ho).
      * cbn. rewrite alter_cases, Hs, list_lookup_insert_eq by (by eapply lookup_lt_Some). by eexists _, _.
    + run Hload. by run Hr.
  - apply bind_ok in Hr as (b & w1 & Hload & Hr). destruct (loadBody_ok _ _ _ _ _ _ Hi Hs Ho Hc Hload) as (Hi1 & _).
    destruct b; [by eapply readFile_inv|by run Hr].
Qed.

(** Clearing a handle that is not the root of its volume. *)
Lemma inv_clear w i f :
  sfsInv w -> w_files w !! i = Some f ->
  (forall j e, w_sfs w !! j = Some e -> sp_proto e <> 0 -> sp_proto e = fh_owner f -> sp_rootFileProto e <> fh_proto f) ->
  sfsInv (setFiles (<[i := emptyHandle]> (w_files w)) w).
Proof.
  intros [H1 H2 H3 H4 H5 H6] Hf Hroot. split; cbn; [by rewrite length_insert|done|apply uniqueLive_insert; [done|by left]|done| |].
  - intros k g Hk Hl. apply list_lookup_insert_Some in Hk as [(_ & <- & _)|[_ Hk]]; [done|by eapply H5].
  - intros j e Hj Hl. destruct (H6 j e Hj Hl) as (Hr & k & g & Hk & G1 & G2 & G3 & G4). split; [done|].
    destruct (decide (k = i)) as [->|Hne].
    + assert (g = f) as -> by congruence. exfalso. by apply (Hroot j e Hj Hl); congruence.
    + exists k, g. by rewrite list_lookup_insert_ne.
Qed.

Lemma Close_inv this w st w' : sfsInv w -> sfsFileCloseGo this w = (Ok st, w') -> sfsInv w' /\ st = sfsEFISuccess.
Proof.
  intros Hi Hr. unfold sfsFileCloseGo in Hr. run Hr. destruct (findFrom fh_proto this (w_files w) 0) as [[slot idx]|] eqn:Ef; [|by run Hr].
  destruct (inv_found w this slot idx Hi Ef) as (Hs & Hp & Ht & _ & fs & Ho & Hc). run Hr.
  destruct Ho as (k & e & Hk & Hpe & Hz & Hfs). pose proof (ri_usfs _ _ Hi) as Hu.
  rewrite (findFrom_unique sp_proto (fh_owner slot) (w_sfs w) k e Hu Hk Hpe Hz) in Hr. cbv zeta in Hr.
  destruct (negb _ && _) eqn:Eroot; [by run Hr|]. run Hr. run Hr. split; [|done].
  rewrite alter_cases, Hs. apply (inv_clear w idx slot); [done|done|]. intros j e' Hj Hl Hp' Hr'.
  assert (j = k) as -> by (eapply (Hu j k e' e); congruence). assert (e' = e) as -> by congruence.
  destruct (ri_roots _ _ Hi k e Hj Hl) as [Hr0 _]. lia.
Qed.

Lemma Open_inv proto this outNew fileName openMode attributes w st w' :
  sfsInv w -> proto <> 0 -> (forall i f, w_files w !! i = Some f -> fh_proto f <> proto) ->
  sfsFileOpenGo proto this outNew fileName openMode attributes w = (Ok st, w') -> sfsInv w'.
Proof.
  intros Hi Hne Hfresh Hr. unfold sfsFileOpenGo in Hr. run Hr. destruct (findFrom fh_proto this (w_files w) 0) as [[parent idx]|] eqn:Ef; [|by run Hr].
  destruct (inv_found w this parent idx Hi Ef) as (Hs & Hp & Ht & Hclean & fs & Ho & _). run Hr.
  destruct (findFrom sp_proto (fh_owner parent) (w_sfs w) 0) as [[e j]|] eqn:Ee; [|by run Hr].
  do 3 (destruct (_ : bool); [by run Hr|]). run Hr. destruct (bool_decide _); [by run Hr|]. cbv zeta in Hr.
  rewrite (inv_owner w parent e j fs Hi Ee Ho) in Hr. destruct (fsStat fs _) as [stt|]; [|by run Hr].
  run Hr. destruct (freeFrom fh_proto (w_files w) 0) as [slot|] eqn:Efree; [|by run Hr].
  apply freeFrom_Some in Efree as (_ & old & Hold & Hz). rewrite Nat.sub_0_r in Hold.
  apply bind_ok in Hr as ([] & w1 & [= <-] & Hr). do 3 run Hr. apply inv_setMem. cbn [w_files setMem]. rewrite alter_cases, Hold.
  set (h := mkHandle _ _ _ _ _ _ _ _ _). destruct Hi as [H1 H2 H3 H4 H5 H6]. split; cbn; [by rewrite length_insert|done| |done| |].
  - apply uniqueLive_insert; [done|]. right. intros k g Hk Hg. by destruct (Hfresh k g Hk).
  - intros k g Hk Hl. apply list_lookup_insert_Some in Hk as [(_ & <- & _)|[_ Hk]]; [|by eapply H5].
    split; [by apply sfsJoinPath_clean|]. exists fs. split; [exact Ho|]. by split.
  - intros k g Hk Hl. destruct (H6 k g Hk Hl) as (Hr & i & f & Hi & F1 & F2 & F3 & F4). split; [done|]. exists i, f.
    rewrite list_lookup_insert_ne; [done|]. intros ->. congruence.
Qed.

Lemma SetPosition_inv this pos w st w' : sfsInv w -> sfsFileSetPositionGo this pos w = (Ok st, w') -> sfsInv w'.
Proof.
  intros Hi Hr. unfold sfsFileSetPositionGo in Hr. run Hr. destruct (findFrom fh_proto this (w_files w) 0) as [[slot idx]|] eqn:Ef; [|by run Hr].
  destruct (inv_found w this slot idx Hi Ef) as (Hs & Hp & Ht & _ & fs & Ho & Hc). destruct (fh_isDir slot).
  - destruct (negb _); [by run Hr|]. run Hr. run Hr. apply inv_updFile; [done|]. intros f _. split; [done|]. intros fs' _ [Hb Hd]. by split.
  - run Hr. destruct (findFrom sp_proto (fh_owner slot) (w_sfs w) 0) as [[e j]|] eqn:Ee; [|by run Hr]. destruct (pos =? sfsPositionEnd).
    + rewrite (inv_owner w slot e j fs Hi Ee Ho) in Hr. apply bind_ok in Hr as (b & w1 & Hload & Hr).
      destruct (loadBody_ok _ _ _ _ _ _ Hi Hs Ho Hc Hload) as (Hi1 & _). destruct b; [|by run Hr]. run Hr. run Hr.
      apply inv_updFile; [done|]. intros f _. split; [apply setPos_same|]. intros fs' _. apply setPos_same.
    + run Hr. run Hr. apply inv_updFile; [done|]. intros f _. split; [apply setPos_same|]. intros fs' _. apply setPos_same.
Qed.

(** Callbacks that only answer. *)
Lemma GetInfo_inv this typeGUID bufferSize buffer w st w' : sfsInv w -> sfsFileGetInfoGo this typeGUID bufferSize buffer w = (Ok st, w') -> sfsInv w'.
Proof.
  intros Hi Hr. unfold sfsFileGetInfoGo in Hr. run Hr. destruct (findFrom _ _ _ _) as [[slot idx]|]; [|by run Hr].
  destruct (_ || _); [by run Hr|]. run Hr. destruct (negb _); [by run Hr|]. run Hr. destruct (findFrom _ _ _ _) as [[e j]|]; [|by run Hr].
  destruct (sp_fs e); [|done]. do 2 run Hr. destruct (_ <? _); [by do 2 run Hr|]. destruct (_ =? 0); [by run Hr|].
  eapply (putInfo_ok _ _ _ _ _ _ w st w' sfsInv); [done| |done|exact Hr]. by intros m w2 [_ ->]%ret_ok.
Qed.
Lemma GetPosition_inv this outPos w st w' : sfsInv w -> sfsFileGetPositionGo this outPos w = (Ok st, w') -> sfsInv w'.
Proof.
  intros Hi Hr. unfold sfsFileGetPositionGo in Hr. run Hr. destruct (findFrom _ _ _ _) as [[slot idx]|]; [|by run Hr].
  do 2 (destruct (_ : bool); [by run Hr|]). by do 2 run Hr.
Qed.
Lemma OpenVolume_inv this outRoot w st w' : sfsInv w -> sfsOpenVolumeGo this outRoot w = (Ok st, w') -> sfsInv w'.
Proof.
  intros Hi Hr. unfold sfsOpenVolumeGo in Hr. run Hr. destruct (findFrom _ _ _ _) as [[e j]|]; [|by run Hr].
  destruct (_ =? 0); [by run Hr|]. by do 2 run Hr.
Qed.
Lemma known_inv this status w st w' : sfsInv w -> known this status w = (Ok st, w') -> w' = w.
Proof. intros Hi Hr. unfold known in Hr. run Hr. destruct (findFrom _ _ _ _); by run Hr. Qed.

(** ** Every sequence of calls *)

(** Installed volumes own distinct live slots. *)
Definition pubInv (w : World) : Prop :=
  (forall h p s, w_published w !! h = Some (p, s) -> p <> 0 /\ exists e, w_sfs w !! s = Some e /\ sp_proto e = p) /\
  (forall h1 h2 p1 p2 s, w_published w !! h1 = Some (p1, s) -> w_published w !! h2 = Some (p2, s) -> h1 = h2).

Lemma Publish_keeps bs rootProto protocol status hOut fs w :
  sfsInv w -> pubInv w -> rootProto <> 0 -> protocol <> 0 ->
  (forall i f, w_files w !! i = Some f -> fh_proto f <> rootProto) ->
  (forall j e, w_sfs w !! j = Some e -> sp_proto e <> protocol) -> w_published w !! hOut = None ->
  let w' := snd (PublishSFS bs rootProto protocol status hOut fs w) in sfsInv w' /\ pubInv w'.
Proof.
  intros Hi Hp Hr0 Hp0 Hff Hfs Hh. unfold PublishSFS, reserveSFS, installedSFS. destruct fs as [fs|]; [|done]. destruct (bs =? 0); [done|]. mrun.
  unfold newProto, newVolume, modify, setMem, id. cbn [fst snd w_sfs w_files w_published w_mem].
  destruct (freeFrom sp_proto (w_sfs w) 0) as [slot|] eqn:Es; [|done]. apply freeFrom_Some in Es as (_ & e0 & He0 & Hz0). rewrite Nat.sub_0_r in He0.
  assert (<[slot := emptySfs]> (w_sfs w) = <[slot := emptySfs]> (<[slot := mkSfs protocol rootProto (Some fs)]> (w_sfs w))) as Eclear by (by rewrite list_insert_insert_eq).
  destruct Hi as [H1 H2 H3 H4 H5 H6]. destruct Hp as [P1 P2].
  assert (forall h p s, w_published w !! h = Some (p, s) -> s <> slot) as Hother.
  { intros h p s Hhs ->. destruct (P1 h p slot Hhs) as (Hnz & e & He & Hpe). congruence. }
  assert (forall f, handleOk (w_sfs w) f -> forall x, handleOk (<[slot := x]> (w_sfs w)) f) as Hkeep.
  { intros f (Hc & g & (j & e & Hj & Hpe & Hz & Hg) & Hco) x. split; [done|]. exists g. split; [|done]. exists j, e.
    rewrite list_lookup_insert_ne; [done|]. intros ->. congruence. }
  assert (sfsInv (setSfs (<[slot := emptySfs]> (w_sfs w)) w) /\ pubInv (setSfs (<[slot := emptySfs]> (w_sfs w)) w)) as Hfail.
  { split; [split; cbn; [done|by rewrite length_insert|done|apply uniqueLive_insert; [done|by left]| |]|split; cbn; [|done]].
    - intros i f Hf Hl. by apply Hkeep, (H5 i).
    - intros j e Hj Hl. apply list_lookup_insert_Some in Hj as [(_ & <- & _)|[_ Hj]]; [done|by eapply H6].
    - intros h p s Hhs. destruct (P1 h p s Hhs) as (Hnz & e & He & Hpe). split; [done|]. exists e. rewrite list_lookup_insert_ne; [done|].
      intros E. by apply (Hother h p s Hhs). }
  unfold sfsAllocFileHandle. mrun. unfold setSfs, id. cbn [w_files w_sfs fst snd].
  destruct (freeFrom fh_proto (w_files w) 0) as [rs|] eqn:Er.
  2: { cbn. rewrite list_insert_insert_eq. exact Hfail. }
  apply freeFrom_Some in Er as (_ & f0 & Hf0 & Hzf). rewrite Nat.sub_0_r in Hf0. unfold updFile, setFiles. mrun. cbn [w_files w_sfs fst snd].
  rewrite (alter_cases _ rs (w_files w)), Hf0. set (h := mkHandle _ _ _ _ _ _ _ _ _). destruct (negb (status =? 0)); cbn [fst snd w_files w_sfs w_published].
  - rewrite alter_cases, list_lookup_insert_eq by (by eapply lookup_lt_Some). rewrite !list_insert_insert_eq.
    destruct Hfail as [[F1 F2 F3 F4 F5 F6] FP]. split; [|exact FP].
    split; cbn in *; [by rewrite length_insert|done|apply uniqueLive_insert; [done|by left]|done| |].
    + intros i f Hf Hl. apply list_lookup_insert_Some in Hf as [(_ & <- & _)|[_ Hf]]; [done|by eapply F5].
    + intros j e Hj Hl. destruct (F6 j e Hj Hl) as (Hr & i & f & Hif & G). split; [done|]. exists i, f.
      rewrite list_lookup_insert_ne; [done|]. intros <-. destruct G as (G & _). congruence.
  - split; [split; cbn|split; cbn].
    + by rewrite length_insert.
    + by rewrite length_insert.
    + apply uniqueLive_insert; [done|]. right. intros k g Hk Hg. by destruct (Hff k g Hk).
    + apply uniqueLive_insert; [done|]. right. intros k g Hk Hg. by destruct (Hfs k g Hk).
    + intros i f Hf Hl. apply list_lookup_insert_Some in Hf as [(_ & <- & _)|[_ Hf]]; [|by apply Hkeep, (H5 i)].
      split; [by exists []|]. exists fs. split; [|by split]. exists slot, (mkSfs protocol rootProto (Some fs)).
      rewrite list_lookup_insert_eq by (by eapply lookup_lt_Some). done.
    + intros j e Hj Hl. apply list_lookup_insert_Some in Hj as [(_ & <- & _)|[_ Hj]].
      * split; [done|]. exists rs, h. rewrite list_lookup_insert_eq by (by eapply lookup_lt_Some). done.
      * destruct (H6 j e Hj Hl) as (Hr & i & f & Hif & G). split; [done|]. exists i, f.
        rewrite list_lookup_insert_ne; [done|]. intros <-. destruct G as (G & _). congruence.
    + intros k p s. rewrite lookup_insert_Some. intros [[<- [= <- <-]]|[_ Hk]].
      * split; [done|]. exists (mkSfs protocol rootProto (Some fs)). by rewrite list_lookup_insert_eq by (by eapply lookup_lt_Some).
      * destruct (P1 k p s Hk) as (Hnz & e & He & Hpe). split; [done|]. exists e. rewrite list_lookup_insert_ne; [done|].
        intros E. by apply (Hother k p s Hk).
    + intros k1 k2 p1 p2 s. rewrite !lookup_insert_Some. intros [[<- [= <- <-]]|[_ Hk1]] [[<- E]|[_ Hk2]]; [done| | |by eapply P2].
      * by destruct (Hother k2 p2 slot Hk2).
      * injection E as <- <-. by destruct (Hother k1 p1 slot Hk1).
Qed.

Lemma Unpublish_keeps bs status handle w :
  sfsInv w -> pubInv w -> let w' := snd (UnpublishSFS bs status handle w) in sfsInv w' /\ pubInv w'.
Proof.
  intros Hi Hp. unfold UnpublishSFS. destruct (handle =? 0); [done|]. mrun. unfold id. destruct (w_published w !! handle) as [[p slot]|] eqn:Eh; [|done].
  destruct (bs =? 0); [done|]. destruct (negb _); [done|]. destruct Hi as [H1 H2 H3 H4 H5 H6]. destruct Hp as [P1 P2].
  destruct (P1 handle p slot Eh) as (Hnz & e0 & He0 & Hpe). rewrite (proj2 (Nat.ltb_lt _ _)) by (rewrite <- H2; by eapply lookup_lt_Some).
  cbn [fst snd]. split; [split; cbn|split; cbn].
  - by rewrite length_fmap.
  - by rewrite length_insert.
  - intros i j f g. rewrite !list_lookup_fmap. intros (f' & Hf & ->)%fmap_Some (g' & Hg & ->)%fmap_Some.
    destruct (fh_owner f' =? p), (fh_owner g' =? p); cbn; try done; [congruence..|]. by eapply H3.
  - apply uniqueLive_insert; [done|by left].
  - intros i f Hf. rewrite list_lookup_fmap in Hf. apply fmap_Some in Hf as (f' & Hf & ->). destruct (Z.eqb_spec (fh_owner f') p) as [|Hop]; [done|].
    intros Hl. destruct (H5 i f' Hf Hl) as (Hc & fs & (j & e & Hj & Hpj & Hz & Hfs) & Hco). split; [done|]. exists fs. split; [|done].
    exists j, e. rewrite list_lookup_insert_ne; [done|]. intros <-. congruence.
  - intros j e Hj Hl. apply list_lookup_insert_Some in Hj as [(_ & <- & _)|[Hne Hj]]; [done|].
    destruct (H6 j e Hj Hl) as (Hr & i & f & Hf & G1 & G2 & G3 & G4). split; [done|]. exists i, f. rewrite list_lookup_fmap, Hf. cbn.
    split; [|done]. destruct (Z.eqb_spec (fh_owner f) p) as [E|]; [|done]. exfalso. apply Hne. eapply (H4 slot j e0 e); congruence.
  - intros h q s. rewrite lookup_delete_Some. intros [Hn Hh]. destruct (P1 h q s Hh) as (Hqz & e & He & Hq). split; [done|]. exists e.
    rewrite list_lookup_insert_ne; [done|]. intros <-. apply Hn. by eapply P2.
  - intros h1 h2 p1 p2 s. rewrite !lookup_delete_Some. intros [_ ?] [_ ?]. by eapply P2.
Qed.


(** The callbacks leave the volumes alone. *)
Definition volumes (w : World) := (w_sfs w, w_published w).
Lemma frames_poke f : frames volumes (poke f).
Proof. unfold poke. go_frame. Qed.
Lemma frames_peek {A} (f : memory -> out A) : frames volumes (peek f).
Proof. unfold peek. go_frame. Qed.
Lemma frames_updFile i g : frames volumes (updFile i g).
Proof. unfold updFile. go_frame. Qed.
Lemma frames_files this : frames volumes (sfsFileHandleLookup this).
Proof. unfold sfsFileHandleLookup. go_frame. Qed.
Lemma frames_sfs this : frames volumes (sfsPublishLookup this).
Proof. unfold sfsPublishLookup. go_frame. Qed.
#[export] Hint Resolve frames_poke frames_peek frames_updFile frames_files frames_sfs : goframe.

Lemma frames_OpenVolume this outRoot : frames volumes (sfsOpenVolumeGo this outRoot).
Proof. unfold sfsOpenVolumeGo. go_frame. Qed.
Lemma frames_Open proto this outNew fileName openMode attributes : frames volumes (sfsFileOpenGo proto this outNew fileName openMode attributes).
Proof. unfold sfsFileOpenGo, sfsAllocFileHandle, newProto. cbv zeta. go_frame. Qed.
Lemma frames_Close this : frames volumes (sfsFileCloseGo this).
Proof. unfold sfsFileCloseGo. cbv zeta. go_frame. Qed.
#[export] Hint Resolve frames_Close : goframe.
Lemma frames_Delete this : frames volumes (sfsFileDeleteGo this).
Proof. unfold sfsFileDeleteGo. go_frame. Qed.
Lemma frames_loadBody idx slot fs : frames volumes (loadBody idx slot fs).
Proof. unfold loadBody. go_frame. Qed.
Lemma frames_putInfo bufferSize buffer name size attr done_ : frames volumes done_ -> frames volumes (putInfo bufferSize buffer name size attr done_).
Proof. intros Hd. unfold putInfo. cbv zeta. go_frame. Qed.
#[export] Hint Resolve frames_loadBody frames_putInfo frames_ret : goframe.
Lemma frames_Read this bufferSize buffer : frames volumes (sfsFileReadGo this bufferSize buffer).
Proof. unfold sfsFileReadGo, readDirent, readFile, sfsLoadDirents. cbv zeta. go_frame. Qed.
Lemma frames_known this st : frames volumes (known this st).
Proof. unfold known. go_frame. Qed.
Lemma frames_GetPosition this outPos : frames volumes (sfsFileGetPositionGo this outPos).
Proof. unfold sfsFileGetPositionGo. go_frame. Qed.
Lemma frames_SetPosition this pos : frames volumes (sfsFileSetPositionGo this pos).
Proof. unfold sfsFileSetPositionGo. go_frame. Qed.
Lemma frames_GetInfo this typeGUID bufferSize buffer : frames volumes (sfsFileGetInfoGo this typeGUID bufferSize buffer).
Proof. unfold sfsFileGetInfoGo. cbv zeta. go_frame. Qed.

(** The calls the firmware and the program make, in any order, and the firmware
    writing to memory in between.  Go's allocations are at addresses no live
    structure has; the firmware returns a handle not in use. *)
Inductive sfsStep (w : World) : World -> Prop :=
| step_OpenVolume this outRoot st w' : sfsOpenVolumeGo this outRoot w = (Ok st, w') -> sfsStep w w'
| step_Open proto this outNew fileName openMode attributes st w' :
    proto <> 0 -> (forall i f, w_files w !! i = Some f -> fh_proto f <> proto) ->
    sfsFileOpenGo proto this outNew fileName openMode attributes w = (Ok st, w') -> sfsStep w w'
| step_Close this st w' : sfsFileCloseGo this w = (Ok st, w') -> sfsStep w w'
| step_Delete this st w' : sfsFileDeleteGo this w = (Ok st, w') -> sfsStep w w'
| step_Read this bufferSize buffer st w' : sfsFileReadGo this bufferSize buffer w = (Ok st, w') -> sfsStep w w'
| step_Write this bufferSize buffer st w' : sfsFileWriteGo this bufferSize buffer w = (Ok st, w') -> sfsStep w w'
| step_GetPosition this outPos st w' : sfsFileGetPositionGo this outPos w = (Ok st, w') -> sfsStep w w'
| step_SetPosition this pos st w' : sfsFileSetPositionGo this pos w = (Ok st, w') -> sfsStep w w'
| step_GetInfo this typeGUID bufferSize buffer st w' : sfsFileGetInfoGo this typeGUID bufferSize buffer w = (Ok st, w') -> sfsStep w w'
| step_SetInfo this typeGUID bufferSize buffer st w' : sfsFileSetInfoGo this typeGUID bufferSize buffer w = (Ok st, w') -> sfsStep w w'
| step_Flush this st w' : sfsFileFlushGo this w = (Ok st, w') -> sfsStep w w'
| step_Publish bs rootProto protocol status hOut fs :
    rootProto <> 0 -> protocol <> 0 ->
    (forall i f, w_files w !! i = Some f -> fh_proto f <> rootProto) ->
    (forall j e, w_sfs w !! j = Some e -> sp_proto e <> protocol) -> w_published w !! hOut = None ->
    sfsStep w (snd (PublishSFS bs rootProto protocol status hOut fs w))
| step_Unpublish bs status handle : sfsStep w (snd (UnpublishSFS bs status handle w))
| step_Memory m : sfsStep w (setMem m w).

Lemma step_keeps w w' : sfsStep w w' -> sfsInv w -> pubInv w -> sfsInv w' /\ pubInv w'.
Proof.
  intros Hs Hi Hp.
  assert (forall (m : SfsM Z) st, m w = (Ok st, w') -> frames volumes m -> pubInv w') as Hfr.
  { intros m st Hm Hf. specialize (Hf w). rewrite Hm in Hf. injection Hf as E1 E2. unfold pubInv. by rewrite E1, E2. }
  destruct Hs as [? ? ? ? H|? ? ? ? ? ? ? ? H0 H1 H|? ? ? H|? ? ? H|? ? ? ? ? H|? ? ? ? ? H|? ? ? ? H|? ? ? ? H|? ? ? ? ? ? H|? ? ? ? ? ? H|? ? ? H| | |m].
  - split; [by eapply OpenVolume_inv|eapply Hfr; [exact H|apply frames_OpenVolume]].
  - split; [by eapply Open_inv|eapply Hfr; [exact H|apply frames_Open]].
  - split; [by eapply Close_inv|eapply Hfr; [exact H|apply frames_Close]].
  - split; [|eapply Hfr; [exact H|apply frames_Delete]]. unfold sfsFileDeleteGo in H. run H.
    destruct (findFrom _ _ _ _); [|by run H]. apply bind_ok in H as (? & ? & Hc & [_ ->]%ret_ok). by eapply Close_inv.
  - split; [by eapply Read_inv|eapply Hfr; [exact H|apply frames_Read]].
  - by apply known_inv in H as ->.
  - split; [by eapply GetPosition_inv|eapply Hfr; [exact H|apply frames_GetPosition]].
  - split; [by eapply SetPosition_inv|eapply Hfr; [exact H|apply frames_SetPosition]].
  - split; [by eapply GetInfo_inv|eapply Hfr; [exact H|apply frames_GetInfo]].
  - by apply known_inv in H as ->.
  - by apply known_inv in H as ->.
  - by apply Publish_keeps.
  - by apply Unpublish_keeps.
  - done.
Qed.

(** Before anything is published. *)
Definition initWorld (m : memory) (vtable : list Z) (pc : Z) : World :=
  mkWorld m (replicate sfsPublishRegistrySize emptySfs) (replicate sfsFileHandleRegistrySize emptyHandle) ∅ vtable pc.

Inductive sfsReach : World -> Prop :=
| reach_init m vtable pc : sfsReach (initWorld m vtable pc)
| reach_step w w' : sfsReach w -> sfsStep w w' -> sfsReach w'.

Lemma reach_keeps w : sfsReach w -> sfsInv w /\ pubInv w.
Proof.
  induction 1 as [m vtable pc|w w' _ [Hi Hp] Hs]; [|by eapply step_keeps].
  split; [split; cbn [initWorld w_files w_sfs]|split; cbn; intros; simplify_map_eq].
  - apply length_replicate.
  - apply length_replicate.
  - by intros i j e f [-> _]%lookup_replicate_1 _ _.
  - by intros i j e f [-> _]%lookup_replicate_1 _ _.
  - by intros i f [-> _]%lookup_replicate_1.
  - by intros j e [-> _]%lookup_replicate_1.
Qed.

(** C16. In every world the calls can reach, a live handle has a clean absolute
    path, belongs to a live volume, and what it caches is what that volume's
    file system answers; and OpenVolume of a live volume writes the address of
    a handle that is open, a directory, and the root of that volume: no
    sequence of Close, Delete, Open, Publish and Unpublish takes it away. *)
Theorem sfs_invariant w :
  sfsReach w ->
  (forall i f, w_files w !! i = Some f -> fh_proto f <> 0 -> handleOk (w_sfs w) f) /\
  (forall this outRoot w', sfsOpenVolumeGo this outRoot w = (Ok sfsEFISuccess, w') ->
     exists e j root f i,
       findFrom sp_proto this (w_sfs w') 0 = Some (e, j) /\ storeU64 (w_mem w) outRoot root = Ok (w_mem w') /\
       findFrom fh_proto root (w_files w') 0 = Some (f, i) /\
       fh_owner f = this /\ fh_path f = [pslash] /\ fh_isDir f = true).
Proof.
  intros [Hi _]%reach_keeps. split; [apply Hi|]. intros this outRoot w' Hr. unfold sfsOpenVolumeGo in Hr. run Hr.
  destruct (findFrom sp_proto this (w_sfs w) 0) as [[e j]|] eqn:Ee; [|by apply ret_ok in Hr as [? _]]. destruct (outRoot =? 0); [by apply ret_ok in Hr as [? _]|].
  run Hr. apply ret_ok in Hr as [_ ->]. pose proof Ee as (_ & Hj & Hp & Ht)%findFrom_Some. rewrite Nat.sub_0_r in Hj.
  destruct (ri_roots _ _ Hi j e Hj) as (Hr0 & i & f & Hf & G1 & G2 & G3 & G4); [congruence|].
  exists e, j, (sp_rootFileProto e), f, i. split_and!; try done; [|congruence].
  apply (findFrom_unique fh_proto); [apply Hi|done..].
Qed.

(** A volume with one file, published into an empty world. *)
Definition demoFs : Filesystem := mkFilesystem
  (fun p => if decide (p = str "/A") then Some (mkStat 0x8000 5) else if decide (p = str "/") then Some (mkStat 0x4000 0) else None)
  (fun p => if decide (p = str "/") then Some [mkDirEntry dot 1 4; mkDirEntry dotdot 1 4; mkDirEntry (str "A") 2 8] else None)
  (fun p => if decide (p = str "/A") then Some (str "hello") else None).
Definition demoWorld (m : memory) : World :=
  setMem m (snd (PublishSFS 1 1000 2000 0 7 (Some demoFs) (initWorld ∅ [] 0))).

Lemma demo_reach m : sfsReach (demoWorld m).
Proof.
  eapply reach_step; [|apply step_Memory]. eapply reach_step; [apply reach_init|]. apply step_Publish; try done.
  - by intros i f [-> _]%lookup_replicate_1.
  - by intros i f [-> _]%lookup_replicate_1.
Qed.

Lemma sfs_invariant_witness :
  sfsReach (demoWorld (allocAt ∅ 64 (make 8))) /\
  fst (sfsOpenVolumeGo 2000 64 (demoWorld (allocAt ∅ 64 (make 8)))) = Ok sfsEFISuccess /\
  exists f, findFrom fh_proto 1000 (w_files (demoWorld (allocAt ∅ 64 (make 8)))) 0 = Some (f, 0%nat) /\
    handleOk (w_sfs (demoWorld (allocAt ∅ 64 (make 8)))) f.
Proof.
  split; [apply demo_reach|]. split; [by vm_compute|]. eexists. split; [reflexivity|].
  eapply (proj1 (sfs_invariant (demoWorld (allocAt ∅ 64 (make 8))) (demo_reach _)) 0%nat); [reflexivity|done].
Defined.
