(* ===== verification/SfsRead.v ===== *)
(** * Reading the published file system

    The callbacks against an abstract reader: a file is its contents and a
    position, a directory its entries and an index.  The layout of EFI_FILE_INFO,
    reads of any sizes, directory iteration with the size query first, and
    GetInfo; with the memory each call may touch. *)

From S2P Require Import Prelude Effects GoStr LittleEndian Memory Utf8 SfsPath Sfs SfsProps.

(** ** EFI_FILE_INFO *)

(** The structure, field by field: Size, FileSize, PhysicalSize, three EFI_TIMEs,
    Attribute, and the zero-terminated UCS-2 name. *)
Definition fileInfo (name : list byte) (size attr : Z) : list byte :=
  le64 (sfsFileInfoSizeForName name) ++ le64 size ++ le64 size ++ make 48 ++ le64 attr ++
  concat (ucs2Rune <$> runes name) ++ [x00; x00].

Lemma len_ucs2 rs : len (concat (ucs2Rune <$> rs)) = 2 * len rs.
Proof. induction rs as [|r rs IH]; [done|]. cbn [fmap list_fmap concat]. rewrite len_app, IH, len_cons. unfold len at 1. cbn. lia. Qed.
Lemma len_fileInfo name size attr : len (fileInfo name size attr) = sfsFileInfoSizeForName name.
Proof. unfold fileInfo. rewrite !len_app, !len_le64, len_make, len_ucs2. unfold sfsFileInfoSizeForName, sfsFileInfoHeaderSize. unfold len at 2. cbn. lia. Qed.

Lemma ucs2Fill_fit rs n : n = 2 * (len rs + 1) -> ucs2Fill rs n = concat (ucs2Rune <$> rs) ++ [x00; x00].
Proof.
  revert n. induction rs as [|r rs IH]; intros n Hn; cbn [ucs2Fill fmap list_fmap concat].
  - rewrite len_nil in Hn. rewrite (proj2 (Z.leb_le _ _)) by lia. done.
  - rewrite len_cons in Hn. pose proof (len_nonneg rs). rewrite (proj2 (Z.ltb_ge _ _)) by lia. rewrite (IH (n - 2)) by lia. by rewrite app_assoc.
Qed.

Lemma sfsWriteFileInfo_spec dst name size attr :
  len dst = sfsFileInfoSizeForName name -> sfsWriteFileInfo dst name size attr = Ok (Some (fileInfo name size attr)).
Proof.
  intros Hd. unfold sfsWriteFileInfo. cbv zeta. rewrite Hd, Z.ltb_irrefl. rewrite drop_ge, app_nil_r by (unfold len in Hd; lia).
  set (u := concat (ucs2Rune <$> runes name) ++ [x00; x00]).
  assert (len u = sfsFileInfoSizeForName name - 80) as Hu.
  { unfold u. rewrite len_app, len_ucs2. unfold sfsFileInfoSizeForName, sfsFileInfoHeaderSize. unfold len at 2. cbn. lia. }
  assert (0 <= sfsFileInfoSizeForName name - 80) as Hn by (rewrite <- Hu; apply len_nonneg).
  replace (sfsFileInfoSizeForName name) with (8 + (8 + (8 + (48 + (8 + (sfsFileInfoSizeForName name - 80)))))) at 1 by lia.
  rewrite !make_split by lia. rewrite putLE64At_front by done. cbn [out_bind].
  rewrite (putLE64At_app (le64 _) (make 8)) by done. cbn [out_bind]. rewrite app_assoc.
  rewrite (putLE64At_app (le64 _ ++ le64 _) (make 8)) by done. cbn [out_bind]. rewrite <- (app_assoc (le64 _)).
  set (h := le64 (sfsFileInfoSizeForName name)). 
  replace (h ++ le64 size ++ le64 size ++ make 48 ++ make 8 ++ make (sfsFileInfoSizeForName name - 80))
    with ((h ++ le64 size ++ le64 size ++ make 48) ++ make 8 ++ make (sfsFileInfoSizeForName name - 80)) by (by rewrite <- !app_assoc).
  rewrite (putLE64At_app (h ++ le64 size ++ le64 size ++ make 48) (make 8)) by done. cbn [out_bind].
  rewrite (app_assoc _ (le64 attr)). set (hd := (h ++ le64 size ++ le64 size ++ make 48) ++ le64 attr).
  assert (len hd = 80) as Hh by done. unfold sfsFileInfoHeaderSize.
  assert (len (make (sfsFileInfoSizeForName name - 80)) = sfsFileInfoSizeForName name - 80) as Hm by (rewrite len_make; lia).
  rewrite <- (app_nil_r (make (_ - 80))). rewrite slice_app_at by lia. cbn [out_bind]. rewrite app_nil_r.
  unfold sfsWriteUCS2. rewrite Hm, ucs2Fill_fit by (unfold sfsFileInfoSizeForName, sfsFileInfoHeaderSize; lia). fold u.
  rewrite drop_ge, app_nil_r by (unfold len in *; lia).
  assert (sfsFileInfoSizeForName name = len (hd ++ make (len u))) as Et by (rewrite len_app, Hh, len_make; lia).
  rewrite <- Hu, <- Hh, Et at 1.
  rewrite copyAt_tail by done. cbn [out_bind]. reflexivity.
Qed.

(** ** Running forward *)

Lemma poke_run {A} f (k : unit -> SfsM A) w m : f (w_mem w) = Ok m -> bind (poke f) k w = k tt (setMem m w).
Proof. intros Hf. unfold poke, bind, gets, lift, modify. by rewrite Hf. Qed.
Lemma peek_run {A B} (f : memory -> out A) (k : A -> SfsM B) w a : f (w_mem w) = Ok a -> bind (peek f) k w = k a w.
Proof. intros Hf. unfold peek, bind, gets, lift. by rewrite Hf. Qed.
Lemma bind_run {A B} (m : SfsM A) (k : A -> SfsM B) w a w1 : m w = (Ok a, w1) -> bind m k w = k a w1.
Proof. intros Hm. unfold bind. by rewrite Hm. Qed.
Lemma lift_run {A B} (o : out A) (k : A -> SfsM B) w a : o = Ok a -> bind (lift o) k w = k a w.
Proof. by intros ->. Qed.

(** The memory two stores leave: what they wrote, everything else as it was. *)
Definition onlyTouched (p n q k : Z) (m m' : memory) : Prop :=
  (forall a, ~ (p <= a < p + n) -> ~ (q <= a < q + k) -> m' !! a = m !! a) /\ (forall a, is_Some (m !! a) -> is_Some (m' !! a)).

Lemma store_dom m m' p bs : holds m' p bs -> sameOutside p (len bs) m m' -> forall a, is_Some (m !! a) -> is_Some (m' !! a).
Proof.
  intros (_ & _ & Hb) Hs a Ha. destruct (decide (p <= a < p + len bs)) as [Hin|]; [|by rewrite Hs].
  destruct (lookup_lt_is_Some_2 bs (Z.to_nat (a - p))) as [b Eb]; [unfold len in Hin; lia|].
  specialize (Hb _ _ Eb). rewrite Z2Nat.id in Hb by lia. replace (p + (a - p)) with a in Hb by lia. by exists b.
Qed.
Lemma mapped_dom m m' p n : (forall a, is_Some (m !! a) -> is_Some (m' !! a)) -> mapped m p n -> mapped m' p n.
Proof. intros Hd (H1 & H2 & H3). split; [done|]. split; [done|]. intros i Hi. apply Hd, H3, Hi. Qed.

(** The caller's size word and buffer: mapped and apart. *)
Definition apart (m : memory) (sizeP buf n : Z) : Prop :=
  mapped m sizeP 8 /\ mapped m buf n /\ sizeP <> 0 /\ buf <> 0 /\ (sizeP + 8 <= buf \/ buf + n <= sizeP).
Lemma apart_dom m m' p q n : (forall a, is_Some (m !! a) -> is_Some (m' !! a)) -> apart m p q n -> apart m' p q n.
Proof. intros Hd (? & ? & ? & ? & ?). split_and!; eauto using mapped_dom. Qed.
Lemma apart_le m p q n k : 0 <= k <= n -> apart m p q n -> apart m p q k.
Proof. intros Hk (? & (? & ? & Hm) & ? & ? & ?). split_and!; try done; try lia. split_and!; [lia..|]. intros i Hi. apply Hm. lia. Qed.

(** A size word alone. *)
Lemma storeSize m sizeP buf n v :
  apart m sizeP buf n -> exists m', storeU64 m sizeP v = Ok m' /\ holds m' sizeP (le64 v) /\ sameOutside sizeP 8 m m' /\ onlyTouched sizeP 8 buf n m m'.
Proof.
  intros (Hs & _). destruct (storeU64_mapped m sizeP v Hs) as (m' & H1 & H2 & H3). exists m'. split_and!; try done.
  split; [intros a Ha _; by apply H3|]. by apply (store_dom m m' sizeP (le64 v)).
Qed.

(** Bytes into the buffer, then their number. *)
Lemma storeBoth m sizeP buf bs n v :
  apart m sizeP buf n -> len bs <= n ->
  exists m1 m2, storeBytes m buf bs = Ok m1 /\ storeU64 m1 sizeP v = Ok m2 /\ holds m2 buf bs /\ holds m2 sizeP (le64 v) /\ onlyTouched sizeP 8 buf n m m2.
Proof.
  intros Ha Hn. pose proof (len_nonneg bs). pose proof (apart_le _ _ _ _ (len bs) (conj H Hn) Ha) as (Hs & Hb & _ & _ & Hd).
  destruct (storeBytes_mapped m buf bs Hb) as (m1 & E1 & H1 & O1). pose proof (store_dom _ _ _ _ H1 O1) as D1.
  destruct (storeU64_mapped m1 sizeP v (mapped_dom _ _ _ _ D1 Hs)) as (m2 & E2 & H2 & O2). exists m1, m2. split_and!; try done.
  - eapply holds_outside; [exact O2| |done]. lia.
  - split.
    + intros a Ha1 Ha2. rewrite O2, O1 by lia. done.
    + intros a Hsome. apply (store_dom m1 m2 sizeP (le64 v) H2 O2). auto.
Qed.

(** ** Files *)

(** The handle [this], its slot and its file system. *)
Definition opened (w : World) (this : Z) (i : nat) (f : sfsFileHandleEntry) (fs : Filesystem) : Prop :=
  sfsInv w /\ w_files w !! i = Some f /\ fh_proto f = this /\ this <> 0 /\ ownedBy (w_sfs w) f fs.

Lemma opened_found w this i f fs :
  opened w this i f fs -> findFrom fh_proto this (w_files w) 0 = Some (f, i) /\ coherent fs f /\
    exists e j, findFrom sp_proto (fh_owner f) (w_sfs w) 0 = Some (e, j) /\ sp_fs e = Some fs.
Proof.
  intros (Hi & Hf & Hp & Ht & Ho). split; [|split].
  - apply (findFrom_unique fh_proto); [apply Hi|done..].
  - destruct (ri_handles _ _ Hi i f Hf) as (_ & fs' & Ho' & Hc); [congruence|]. by rewrite (inv_volume w f fs fs' Hi Ho Ho').
  - destruct Ho as (j & e & Hj & Hpe & Hz & Hfs). exists e, j. split; [|done]. apply (findFrom_unique sp_proto); [apply Hi|done..].
Qed.

(** An open regular file: its contents and position. *)
Definition fileAt (w : World) (this : Z) (body : list byte) (pos : Z) : Prop :=
  exists i f fs, opened w this i f fs /\ fh_isDir f = false /\ fh_bodyErr f = false /\ fh_pos f = pos /\ 0 <= pos /\
    fsReadFile fs (fh_path f) = Some body.

Lemma fileAt_setMem m w this body pos : fileAt w this body pos -> fileAt (setMem m w) this body pos.
Proof. by intros (i & f & fs & ? & ?); exists i, f, fs. Qed.

(** Moving a file's position. *)
Lemma fileAt_setPos w this body i f fs p :
  opened w this i f fs -> fh_isDir f = false -> fh_bodyErr f = false -> fsReadFile fs (fh_path f) = Some body -> 0 <= p ->
  fileAt (setFiles (alter (setPos p) i (w_files w)) w) this body p.
Proof.
  intros (Hi & Hf & Hp & Ht & Ho) Hd He Hb Hpos. exists i, (setPos p f), fs. split_and!; try done. split_and!; try done.
  - apply inv_updFile; [done|]. intros g _. split; [apply setPos_same|]. intros fs' _. apply setPos_same.
  - cbn. rewrite alter_cases, Hf. by apply list_lookup_insert_eq; eapply lookup_lt_Some.
Qed.

(** Loading the body of a readable file. *)
Lemma loadBody_run w this body pos i f fs :
  opened w this i f fs -> fh_isDir f = false -> fh_bodyErr f = false -> fh_pos f = pos -> fsReadFile fs (fh_path f) = Some body ->
  exists w1 f1, loadBody i f fs w = (Ok (Some body), w1) /\ opened w1 this i f1 fs /\ w_mem w1 = w_mem w /\
    fh_isDir f1 = false /\ fh_bodyErr f1 = false /\ fh_pos f1 = pos /\ fsReadFile fs (fh_path f1) = Some body.
Proof.
  intros Hop Hd He Hpos Hb. pose proof (opened_found _ _ _ _ _ Hop) as (_ & Hc & _). pose proof Hop as (Hi & Hf & Hp & Ht & Ho).
  unfold loadBody. rewrite He. destruct (fh_body f) as [b|] eqn:Eb.
  { destruct (proj1 Hc b Eb) as [_ Eb']. assert (b = body) as -> by congruence. by exists w, f. }
  rewrite Hb. eexists _, (setBody (Some body) false f). split; [reflexivity|]. cbn. split_and!; try done. split_and!; try done.
  - apply inv_updFile; [done|]. intros g Hg. assert (g = f) as -> by congruence. split; [done|]. intros fs' Ho' [_ Hdd]. split; [|done].
    cbn. intros c [= <-]. split; [done|]. by rewrite (inv_volume w f fs' fs Hi Ho' Ho).
  - cbn. rewrite alter_cases, Hf. by apply list_lookup_insert_eq; eapply lookup_lt_Some.
Qed.

(** The next bytes of a file, as many as fit. *)
Definition chunkAt (body : list byte) (pos n : Z) : list byte := take (Z.to_nat n) (drop (Z.to_nat pos) body).

Lemma take_length_take {A} k (l : list A) : take (length (take k l)) l = take k l.
Proof. rewrite length_take. destruct (Nat.le_gt_cases k (length l)); [by rewrite Nat.min_l|by rewrite Nat.min_r, !take_ge by lia]. Qed.

Lemma readFile_run i f body n sizeP buf w :
  let chunk := chunkAt body (fh_pos f) n in
  0 <= fh_pos f -> 0 <= n -> apart (w_mem w) sizeP buf n ->
  exists m', readFile i f body n sizeP buf w =
      (Ok sfsEFISuccess, setMem m' (if decide (chunk = []) then w else setFiles (alter (setPos (fh_pos f + len chunk)) i (w_files w)) w)) /\
    holds m' sizeP (le64 (len chunk)) /\ holds m' buf chunk /\ onlyTouched sizeP 8 buf n (w_mem w) m'.
Proof.
  intros chunk Hp Hn Ha. unfold readFile. cbv zeta.
  set (want := if _ <? n then _ else n).
  assert (want = len chunk) as Hw.
  { subst want chunk. unfold chunkAt. rewrite len_take, len_drop, !Z2Nat.id by lia.
    destruct (Z.ltb_spec (fh_pos f) (len body)); case Z.ltb_spec; lia. }
  rewrite Hw. clearbody want. clear want Hw. destruct (decide (chunk = [])) as [E|E].
  - rewrite E. change (len [] =? 0) with true. destruct (storeSize (w_mem w) sizeP buf n 0 Ha) as (m' & Es & Hh & _ & Ht).
    exists m'. rewrite (poke_run _ _ w m') by done. split_and!; try done. apply holds_nil. destruct Ha as (_ & (? & ? & _) & _). lia.
  - assert (0 < len chunk) as Hc by (destruct chunk; [done|rewrite len_cons; pose_lens; lia]).
    rewrite (proj2 (Z.eqb_neq _ 0)) by lia. rewrite (proj2 (Z.eqb_neq _ _)) by apply Ha.
    assert (len chunk <= n) as Hle by (unfold chunk, chunkAt; rewrite len_take; lia).
    assert (fh_pos f + len chunk <= len body) as Hend.
    { assert (len chunk = Z.min n (Z.max 0 (len body - fh_pos f))) as Hl by (unfold chunk, chunkAt; rewrite len_take, len_drop, !Z2Nat.id by lia; done). lia. }
    destruct (storeBoth (w_mem w) sizeP buf chunk n (len chunk) Ha Hle) as (m1 & m2 & E1 & E2 & Hb & Hs & Ht).
    rewrite (lift_run _ _ _ chunk).
    2: { rewrite slice_ok by lia. f_equal. rewrite Z.add_simpl_l. unfold len. rewrite Nat2Z.id. apply take_length_take. }
    rewrite (poke_run _ _ w m1) by done. rewrite (bind_run (updFile _ _) _ _ tt _ eq_refl). rewrite (poke_run _ _ _ m2) by done.
    by exists m2.
Qed.

(** One read. *)
Lemma Read_file_step w this body pos n sizeP buf :
  let chunk := chunkAt body pos n in
  fileAt w this body pos -> holds (w_mem w) sizeP (le64 n) -> 0 <= n < 2 ^ 64 -> apart (w_mem w) sizeP buf n ->
  exists w', sfsFileReadGo this sizeP buf w = (Ok sfsEFISuccess, w') /\ fileAt w' this body (pos + len chunk) /\
    holds (w_mem w') sizeP (le64 (len chunk)) /\ holds (w_mem w') buf chunk /\ onlyTouched sizeP 8 buf n (w_mem w) (w_mem w').
Proof.
  intros chunk (i & f & fs & Hop & Hd & He & Hpos & Hpos0 & Hb) Hsz Hn Ha.
  destruct (opened_found _ _ _ _ _ Hop) as (Ef & _ & e & j & Ee & Efs). unfold sfsFileReadGo.
  rewrite (bind_run _ _ w (Some (f, i)) w) by (by rewrite <- Ef). pose proof Ha as (_ & _ & Hs0 & _).
  rewrite (proj2 (Z.eqb_neq _ _)) by done. rewrite (bind_run _ _ w (Some (e, j)) w) by (by rewrite <- Ee).
  rewrite (peek_run _ _ w n) by (rewrite (loadU64_holds _ _ n Hsz); unfold u64; by rewrite Z.mod_small).
  rewrite Efs, Hd. destruct (loadBody_run w this body pos i f fs Hop Hd He Hpos Hb) as (w1 & f1 & E1 & Hop1 & Hm1 & Hd1 & He1 & Hp1 & Hb1).
  rewrite (bind_run _ _ _ _ _ E1). destruct (readFile_run i f body n sizeP buf w1) as (m' & -> & Hh & Hc & Ht); [lia|lia|by rewrite Hm1|].
  rewrite Hpos in *. fold chunk in Hh, Hc |- *. eexists. split; [reflexivity|]. rewrite Hm1 in Ht. split; [|done].
  apply fileAt_setMem. destruct (decide (chunk = [])) as [->|E].
  - rewrite Z.add_0_r. by exists i, f1, fs.
  - eapply fileAt_setPos; [exact Hop1|done..|]. pose_lens. lia.
Qed.

(** A reader: fills its buffer again and again, [ns] bytes at a time, and keeps
    what the size word says it got. *)
Fixpoint readLoop (this sizeP buf : Z) (ns : list Z) : SfsM (list byte) :=
  match ns with
  | [] => ret []
  | n :: ns =>
      poke (fun m => storeU64 m sizeP n) ;;;
      st <- sfsFileReadGo this sizeP buf ;;
      throw_if negb (st =? sfsEFISuccess) with ErrEFI st;;
      k <- peek (fun m => loadU64 m sizeP) ;;
      bs <- peek (fun m => loadBytes m buf (Z.to_nat k)) ;;
      rest <- readLoop this sizeP buf ns ;;
      ret (bs ++ rest)
  end.

Lemma chunkAt_app body pos n k : 0 <= pos -> 0 <= n -> 0 <= k ->
  chunkAt body pos n ++ chunkAt body (pos + len (chunkAt body pos n)) k = chunkAt body pos (n + k).
Proof.
  intros Hp Hn Hk. unfold chunkAt. rewrite len_take, len_drop, !Z2Nat.id by lia.
  replace (Z.to_nat (pos + Z.min n (Z.max 0 (len body - pos)))) with (Z.to_nat pos + Nat.min (Z.to_nat n) (length body - Z.to_nat pos))%nat by (unfold len; lia).
  rewrite Z2Nat.inj_add by lia. rewrite <- drop_drop. set (l := drop (Z.to_nat pos) body).
  replace (length body - Z.to_nat pos)%nat with (length l) by (unfold l; by rewrite length_drop).
  destruct (Nat.le_gt_cases (Z.to_nat n) (length l)).
  - rewrite Nat.min_l by done. apply take_take_drop.
  - rewrite Nat.min_r by lia. rewrite drop_ge, take_nil, app_nil_r by lia. by rewrite !take_ge by lia.
Qed.

Lemma readLoop_run this sizeP buf B body ns : forall w pos,
  fileAt w this body pos -> Forall (fun n => 0 <= n <= B) ns -> B < 2 ^ 64 -> apart (w_mem w) sizeP buf B ->
  exists w', readLoop this sizeP buf ns w = (Ok (chunkAt body pos (foldr Z.add 0 ns)), w') /\ onlyTouched sizeP 8 buf B (w_mem w) (w_mem w').
Proof.
  induction ns as [|n ns IH]; intros w pos Hf Hns HB Ha; cbn [readLoop foldr].
  - exists w. split; [done|]. by split.
  - apply Forall_cons in Hns as [Hn Hns].
    destruct (storeSize _ _ _ _ n Ha) as (m0 & E0 & Hh0 & _ & T0 & D0). rewrite (poke_run _ _ w m0) by done.
    destruct (Read_file_step (setMem m0 w) this body pos n sizeP buf) as (w1 & E1 & Hf1 & Hs1 & Hb1 & T1 & D1).
    + by apply fileAt_setMem.
    + done.
    + lia.
    + eapply apart_le; [|eapply apart_dom; [exact D0|done]]. lia.
    + rewrite (bind_run _ _ _ _ _ E1). change (sfsEFISuccess =? sfsEFISuccess) with true. cbn [negb].
      assert (0 <= len (chunkAt body pos n) <= n) as Hlen by (unfold chunkAt; rewrite len_take, len_drop; lia).
      rewrite (peek_run _ _ w1 (len (chunkAt body pos n))) by (rewrite (loadU64_holds _ _ _ Hs1); unfold u64; rewrite Z.mod_small; [done|lia]).
      rewrite (peek_run _ _ w1 (chunkAt body pos n)) by (unfold len; rewrite Nat2Z.id; by apply loadBytes_holds).
      destruct (IH w1 (pos + len (chunkAt body pos n))) as (w2 & E2 & T2 & D2); [done|done|done| |].
      { eapply apart_dom; [exact D1|]. eapply apart_dom; [exact D0|done]. }
      rewrite (bind_run _ _ _ _ _ E2). exists w2. split.
      * unfold ret. do 2 f_equal. apply chunkAt_app; [by destruct Hf as (? & ? & ? & ? & ? & ? & ? & ? & ?)|lia|].
        clear -Hns. induction Hns as [|k ks Hk _ IHk]; cbn; lia.
      * split; [|auto]. intros a H1 H2. rewrite (T2 a H1 H2), (T1 a H1) by lia. by apply T0.
Qed.

(** ** EFI_FILE_INFO into the caller's buffer *)

Lemma mapped_holds m p n : 0 <= n -> mapped m p n -> exists bs, len bs = n /\ holds m p bs.
Proof.
  intros Hn. revert p. pattern n. apply natlike_ind; [|clear n Hn; intros n Hn IH|done]; intros p Hm.
  - exists []. split; [done|]. apply holds_nil. destruct Hm as (? & ? & _). lia.
  - apply mapped_cons in Hm as (Hp & [b Hb] & Hm); [|lia]. rewrite Z.sub_1_r, Z.pred_succ in Hm.
    destruct (IH _ Hm) as (bs & Hl & Hh). exists (b :: bs). rewrite len_cons. split; [lia|]. by apply holds_cons.
Qed.

Lemma infoSizeForName_range name : 0 <= sfsFileInfoSizeForName name.
Proof. unfold sfsFileInfoSizeForName, sfsFileInfoHeaderSize. pose proof (len_nonneg (runes name)). lia. Qed.

Lemma putInfo_run sizeP buf name size attr d w n w3 :
  apart (w_mem w) sizeP buf n -> sfsFileInfoSizeForName name <= n ->
  (forall m, d (setMem m w) = (Ok tt, setMem m w3)) ->
  exists m', putInfo sizeP buf name size attr d w = (Ok sfsEFISuccess, setMem m' w3) /\
    holds m' buf (fileInfo name size attr) /\ holds m' sizeP (le64 (sfsFileInfoSizeForName name)) /\ onlyTouched sizeP 8 buf n (w_mem w) m'.
Proof.
  intros Ha Hn Hd. pose proof (infoSizeForName_range name) as Hr. unfold putInfo. cbv zeta.
  destruct (mapped_holds (w_mem w) buf (sfsFileInfoSizeForName name) Hr) as (bs & Hl & Hh).
  { by apply (apart_le _ _ _ _ (sfsFileInfoSizeForName name) (conj Hr Hn) Ha). }
  rewrite (peek_run _ _ w bs) by (rewrite <- Hl; unfold len; rewrite Nat2Z.id; by apply loadBytes_holds).
  rewrite (lift_run _ _ _ (Some (fileInfo name size attr))) by (by apply sfsWriteFileInfo_spec).
  destruct (storeBoth (w_mem w) sizeP buf (fileInfo name size attr) n (sfsFileInfoSizeForName name) Ha) as (m1 & m2 & E1 & E2 & Hb & Hs & Ht);
    [by rewrite len_fileInfo|].
  rewrite (poke_run _ _ w m1) by done. rewrite (poke_run _ _ _ m2) by done.
  rewrite (bind_run _ _ _ _ _ (Hd m2)). by exists m2.
Qed.

(** ** Directories *)

(** An open directory: its entries and the next one's index. *)
Definition dirAt (w : World) (this : Z) (d : list dirEntryCached) (n : nat) : Prop :=
  exists i f fs, opened w this i f fs /\ fh_isDir f = true /\ loadDirents fs (fh_path f) = Some d /\
    n = match fh_dirents f with Some _ => fh_direntI f | None => 0%nat end.

Lemma dirAt_setMem m w this d n : dirAt w this d n -> dirAt (setMem m w) this d n.
Proof. by intros (i & f & fs & ? & ?); exists i, f, fs. Qed.

Lemma dirAt_setDirents w this i f fs d n :
  opened w this i f fs -> fh_isDir f = true -> loadDirents fs (fh_path f) = Some d ->
  opened (setFiles (alter (setDirents (Some d) n) i (w_files w)) w) this i (setDirents (Some d) n f) fs /\
  dirAt (setFiles (alter (setDirents (Some d) n) i (w_files w)) w) this d n.
Proof.
  intros Hop Hd Hl. pose proof Hop as (Hi & Hf & Hp & Ht & Ho).
  assert (opened (setFiles (alter (setDirents (Some d) n) i (w_files w)) w) this i (setDirents (Some d) n f) fs) as Hop'.
  { split_and!; try done.
    - apply inv_updFile; [done|]. intros g Hg. assert (g = f) as -> by congruence. split; [done|]. intros fs' Ho' [Hb _]. split; [done|].
      cbn. intros ? [= <-]. by rewrite (inv_volume w f fs' fs Hi Ho' Ho).
    - cbn. rewrite alter_cases, Hf. by apply list_lookup_insert_eq; eapply lookup_lt_Some. }
  split; [done|]. by exists i, (setDirents (Some d) n f), fs.
Qed.

(** What one entry looks like to the reader. *)
Definition entryInfo (e : dirEntryCached) : list byte := fileInfo (dc_name e) (dc_size e) (attrOf (dc_isDir e)).

(** How one read of a directory ends. *)
Definition direntAnswer (d : list dirEntryCached) (n : nat) (size : Z) : Z * Z * nat :=
  match d !! n with
  | None => (sfsEFISuccess, 0, n)
  | Some e => let need := sfsFileInfoSizeForName (dc_name e) in
              if size <? need then (sfsEFIBufferTooSmall, need, n) else (sfsEFISuccess, need, S n)
  end.

Lemma readDirent_run i f fs d n size sizeP buf B w this :
  opened w this i f fs -> fh_isDir f = true -> loadDirents fs (fh_path f) = Some d -> fh_dirents f = Some d -> fh_direntI f = n ->
  0 <= size <= B -> apart (w_mem w) sizeP buf B ->
  let '(st, out, n') := direntAnswer d n size in
  exists w', readDirent i f d n size sizeP buf w = (Ok st, w') /\ dirAt w' this d n' /\ holds (w_mem w') sizeP (le64 out) /\
    (forall e, d !! n = Some e -> n' = S n -> holds (w_mem w') buf (entryInfo e)) /\ onlyTouched sizeP 8 buf B (w_mem w) (w_mem w').
Proof.
  intros Hop Hd Hl Hc Hn Hs Ha. unfold direntAnswer, readDirent.
  assert (dirAt w this d n) as Hat by (exists i, f, fs; by rewrite Hc).
  destruct (d !! n) as [e|] eqn:Ee; cbv zeta.
  2: { destruct (storeSize _ _ _ _ 0 Ha) as (m' & E & Hh & _ & Ht). rewrite (poke_run _ _ w m') by done. eexists. split; [reflexivity|].
       by split_and!. }
  destruct (Z.ltb_spec size (sfsFileInfoSizeForName (dc_name e))) as [Hlt|Hge].
  - destruct (storeSize _ _ _ _ (sfsFileInfoSizeForName (dc_name e)) Ha) as (m' & E & Hh & _ & Ht). rewrite (poke_run _ _ w m') by done.
    eexists. split; [reflexivity|]. split_and!; try done. intros; lia.
  - rewrite (proj2 (Z.eqb_neq _ _)) by apply Ha. destruct (dirAt_setDirents w this i f fs d (S n) Hop Hd Hl) as [_ Hat'].
    destruct (putInfo_run sizeP buf (dc_name e) (dc_size e) (attrOf (dc_isDir e)) (updFile i (setDirents (Some d) (S n))) w B
      (setFiles (alter (setDirents (Some d) (S n)) i (w_files w)) w) Ha) as (m' & -> & Hb & Hh & Ht); [lia|done|].
    eexists. split; [reflexivity|]. split_and!; try done. by intros ? [= <-] _.
Qed.

(** One read of a directory, cached or not. *)
Lemma Read_dir_step w this d n size sizeP buf B :
  dirAt w this d n -> holds (w_mem w) sizeP (le64 size) -> 0 <= size <= B -> B < 2 ^ 64 -> apart (w_mem w) sizeP buf B ->
  let '(st, out, n') := direntAnswer d n size in
  exists w', sfsFileReadGo this sizeP buf w = (Ok st, w') /\ dirAt w' this d n' /\ holds (w_mem w') sizeP (le64 out) /\
    (forall e, d !! n = Some e -> n' = S n -> holds (w_mem w') buf (entryInfo e)) /\ onlyTouched sizeP 8 buf B (w_mem w) (w_mem w').
Proof.
  intros (i & f & fs & Hop & Hd & Hl & Hn) Hsz Hs HB Ha.
  destruct (opened_found _ _ _ _ _ Hop) as (Ef & Hc & e & j & Ee & Efs). unfold sfsFileReadGo.
  rewrite (bind_run _ _ w (Some (f, i)) w) by (by rewrite <- Ef). pose proof Ha as (_ & _ & Hs0 & _).
  rewrite (proj2 (Z.eqb_neq _ _)) by done. rewrite (bind_run _ _ w (Some (e, j)) w) by (by rewrite <- Ee).
  rewrite (peek_run _ _ w size) by (rewrite (loadU64_holds _ _ size Hsz); unfold u64; rewrite Z.mod_small; [done|lia]).
  rewrite Efs, Hd. destruct (fh_dirents f) as [d'|] eqn:Ed.
  - assert (d' = d) as -> by (apply (proj2 Hc) in Ed; congruence). rewrite <- Hn. by eapply (readDirent_run i f fs d n).
  - subst n. destruct (dirAt_setDirents w this i f fs d 0 Hop Hd Hl) as [Hop1 _].
    assert (sfsLoadDirents i fs (fh_path f) w = (Ok true, setFiles (alter (setDirents (Some d) 0) i (w_files w)) w)) as E1
      by (unfold sfsLoadDirents; by rewrite Hl).
    rewrite (bind_run _ _ _ _ _ E1), Hl. exact (readDirent_run i _ fs d 0 size sizeP buf B _ this Hop1 Hd Hl eq_refl eq_refl Hs Ha).
Qed.
(** A reader of directories: asks for the size, then for the entry, until an
    empty answer. *)
Fixpoint listDir (fuel : nat) (this sizeP buf : Z) : SfsM (list (list byte)) :=
  match fuel with
  | O => throw (ErrOther 0)
  | S fuel =>
      poke (fun m => storeU64 m sizeP 0) ;;;
      st <- sfsFileReadGo this sizeP buf ;;
      if st =? sfsEFISuccess then ret []
      else
        throw_if negb (st =? sfsEFIBufferTooSmall) with ErrEFI st;;
        n <- peek (fun m => loadU64 m sizeP) ;;
        st <- sfsFileReadGo this sizeP buf ;;
        throw_if negb (st =? sfsEFISuccess) with ErrEFI st;;
        bs <- peek (fun m => loadBytes m buf (Z.to_nat n)) ;;
        rest <- listDir fuel this sizeP buf ;;
        ret (bs :: rest)
  end.

Lemma onlyTouched_trans p n q k m1 m2 m3 : onlyTouched p n q k m1 m2 -> onlyTouched p n q k m2 m3 -> onlyTouched p n q k m1 m3.
Proof. intros [A1 D1] [A2 D2]. split; [|auto]. intros a H1 H2. by rewrite (A2 a H1 H2), (A1 a H1 H2). Qed.

Lemma listDir_run this sizeP buf B d fuel : forall w n,
  dirAt w this d n -> (length d - n < fuel)%nat -> B < 2 ^ 64 -> 0 <= B ->
  Forall (fun e => sfsFileInfoSizeForName (dc_name e) <= B) d -> apart (w_mem w) sizeP buf B ->
  exists w', listDir fuel this sizeP buf w = (Ok (entryInfo <$> drop n d), w') /\ onlyTouched sizeP 8 buf B (w_mem w) (w_mem w').
Proof.
  induction fuel as [|fuel IH]; intros w n Hat Hfuel HB HB0 Hall Ha; [lia|]. cbn [listDir].
  destruct (storeSize _ _ _ _ 0 Ha) as (m0 & E0 & Hh0 & _ & T0). rewrite (poke_run _ _ w m0) by done.
  pose proof (apart_dom _ _ _ _ _ (proj2 T0) Ha) as Ha0.
  pose proof (Read_dir_step (setMem m0 w) this d n 0 sizeP buf B (dirAt_setMem m0 w this d n Hat) Hh0 (conj (Z.le_refl 0) HB0) HB Ha0) as S1.
  unfold direntAnswer in S1. destruct (d !! n) as [e|] eqn:Ee.
  2: { destruct S1 as (w1 & E1 & _ & _ & _ & T1). rewrite (bind_run _ _ _ _ _ E1). exists w1. rewrite drop_ge by (by apply lookup_ge_None).
       split; [done|]. by eapply onlyTouched_trans. }
  pose proof (infoSizeForName_range (dc_name e)) as Hr. assert (0 < sfsFileInfoSizeForName (dc_name e)) as Hr0.
  { unfold sfsFileInfoSizeForName, sfsFileInfoHeaderSize. pose proof (len_nonneg (runes (dc_name e))). lia. }
  cbv zeta in S1. rewrite (proj2 (Z.ltb_lt _ _) Hr0) in S1. destruct S1 as (w1 & E1 & Hat1 & Hh1 & _ & T1).
  rewrite (bind_run _ _ _ _ _ E1). change (sfsEFIBufferTooSmall =? sfsEFISuccess) with false. change (sfsEFIBufferTooSmall =? sfsEFIBufferTooSmall) with true. cbn [negb].
  assert (sfsFileInfoSizeForName (dc_name e) <= B) as Hfit by (by eapply (Forall_lookup_1 _ d n e) in Hall).
  rewrite (peek_run _ _ w1 (sfsFileInfoSizeForName (dc_name e))) by (rewrite (loadU64_holds _ _ _ Hh1); unfold u64; rewrite Z.mod_small; [done|lia]).
  pose proof (apart_dom _ _ _ _ _ (proj2 T1) Ha0) as Ha1.
  pose proof (Read_dir_step w1 this d n _ sizeP buf B Hat1 Hh1 (conj Hr Hfit) HB Ha1) as S2.
  unfold direntAnswer in S2. rewrite Ee in S2. cbv zeta in S2. rewrite Z.ltb_irrefl in S2. destruct S2 as (w2 & E2 & Hat2 & Hh2 & Hb2 & T2).
  rewrite (bind_run _ _ _ _ _ E2). change (sfsEFISuccess =? sfsEFISuccess) with true. cbn [negb].
  rewrite (peek_run _ _ w2 (entryInfo e)).
  2: { rewrite <- (len_fileInfo (dc_name e) (dc_size e) (attrOf (dc_isDir e))). unfold len. rewrite Nat2Z.id. apply loadBytes_holds. by apply Hb2. }
  destruct (IH w2 (S n) Hat2) as (w3 & E3 & T3); [apply lookup_lt_Some in Ee; lia|done..|by eapply apart_dom; [exact (proj2 T2)|]|].
  rewrite (bind_run _ _ _ _ _ E3). exists w3. rewrite (drop_S _ _ _ Ee). split; [done|]. eauto using onlyTouched_trans.
Qed.

(** Listing a directory that has just been opened: the reader gets one
    EFI_FILE_INFO for every entry of the backing directory but "." and "..",
    in order and once each, with the name, size and attributes the file system
    reports, then the empty answer; each entry after the size query has told
    the size it needs.  Memory is touched only in the caller's size word and
    buffer. *)
Theorem sfs_list_directory w this f i fs es sizeP buf B :
  sfsReach w -> findFrom fh_proto this (w_files w) 0 = Some (f, i) -> ownedBy (w_sfs w) f fs ->
  fh_isDir f = true -> fh_dirents f = None -> fsListDir fs (fh_path f) = Some es ->
  Forall (fun e => sfsFileInfoSizeForName (de_Name e) <= B) es -> 0 <= B < 2 ^ 64 -> apart (w_mem w) sizeP buf B ->
  exists w', listDir (S (length es)) this sizeP buf w =
      (Ok ((fun e => entryInfo (cacheEntry fs (fh_path f) e)) <$> List.filter (fun e => negb (isDots (de_Name e))) es), w') /\
    onlyTouched sizeP 8 buf B (w_mem w) (w_mem w').
Proof.
  intros [Hi _]%reach_keeps Hf Ho Hd Hn Hl Hall HB Ha. destruct (inv_found w this f i Hi Hf) as (Hfi & Hp & Ht & _).
  assert (Forall (fun e => sfsFileInfoSizeForName (dc_name e) <= B) (cacheEntry fs (fh_path f) <$> List.filter (fun e => negb (isDots (de_Name e))) es)) as Hall'.
  { apply Forall_fmap. apply Forall_forall. intros e He%list_elem_of_In%filter_In. rewrite Forall_forall in Hall.
    assert (dc_name (cacheEntry fs (fh_path f) e) = de_Name e) as En by (unfold cacheEntry; by destruct (fsStat _ _)).
    cbn. rewrite En. apply Hall, list_elem_of_In, He. }
  set (es' := List.filter _ es) in *. destruct (listDir_run this sizeP buf B (cacheEntry fs (fh_path f) <$> es') (S (length es)) w 0) as (w' & E & T).
  - exists i, f, fs. split_and!; try done; [|by rewrite Hn]. unfold loadDirents. by rewrite Hl.
  - rewrite length_fmap. pose proof (List.filter_length_le (fun e => negb (isDots (de_Name e))) es). subst es'. lia.
  - lia.
  - lia.
  - done.
  - done.
  - exists w'. split; [|done]. rewrite E, drop_0, <- list_fmap_compose. done.
Qed.

Lemma sfs_list_directory_witness :
  exists w', listDir 4 1000 300 400 (demoWorld (allocAt (allocAt ∅ 300 (make 8)) 400 (make 100))) =
      (Ok [fileInfo (str "A") 5 sfsFileAttrReadOnly], w').
Proof.
  destruct (sfs_list_directory (demoWorld (allocAt (allocAt ∅ 300 (make 8)) 400 (make 100))) 1000
    (mkHandle 1000 2000 [pslash] true 0 None false None 0) 0 demoFs
    [mkDirEntry dot 1 4; mkDirEntry dotdot 1 4; mkDirEntry (str "A") 2 8] 300 400 100 (demo_reach _)) as (w' & E & _).
  - reflexivity.
  - exists 0%nat, (mkSfs 2000 1000 (Some demoFs)). done.
  - done.
  - done.
  - by vm_compute.
  - repeat constructor; by vm_compute.
  - lia.
  - split_and!; [by apply mappedb_ok; vm_compute|by apply mappedb_ok; vm_compute|lia..].
  - exists w'. etransitivity; [exact E|]. by do 2 f_equal.
Defined.

(** ** GetInfo *)

(** The description of an open file: its base name, size and attributes; the
    size query (a short buffer) is answered with the size needed. *)
Lemma GetInfo_run w this i f fs sizeP buf B size guidP name :
  opened w this i f fs -> holds (w_mem w) guidP EFIFileInfoGUID -> guidP <> 0 -> holds (w_mem w) sizeP (le64 size) ->
  0 <= size <= B -> B < 2 ^ 64 -> apart (w_mem w) sizeP buf B -> sfsBaseName (fh_path f) = Ok name ->
  let need := sfsFileInfoSizeForName name in
  exists m', sfsFileGetInfoGo this guidP sizeP buf w = (Ok (if size <? need then sfsEFIBufferTooSmall else sfsEFISuccess), setMem m' w) /\
    holds m' sizeP (le64 need) /\ (need <= size -> holds m' buf (fileInfo name (infoSize fs f) (attrOf (fh_isDir f)))) /\
    onlyTouched sizeP 8 buf B (w_mem w) m'.
Proof.
  intros Hop Hg Hg0 Hsz Hs HB Ha Hname need. destruct (opened_found _ _ _ _ _ Hop) as (Ef & _ & e & j & Ee & Efs).
  unfold sfsFileGetInfoGo. rewrite (bind_run _ _ w (Some (f, i)) w) by (by rewrite <- Ef). pose proof Ha as (_ & _ & Hs0 & Hb0 & _).
  rewrite !(proj2 (Z.eqb_neq _ _)) by done. cbn [orb]. rewrite (peek_run _ _ w EFIFileInfoGUID) by (exact (loadBytes_holds _ _ _ Hg)).
  rewrite bool_decide_eq_true_2 by done. cbn [negb]. rewrite (bind_run _ _ w (Some (e, j)) w) by (by rewrite <- Ee). rewrite Efs.
  rewrite (lift_run _ _ _ _ Hname). cbv zeta. fold need.
  rewrite (peek_run _ _ w size) by (rewrite (loadU64_holds _ _ size Hsz); unfold u64; rewrite Z.mod_small; [done|lia]).
  destruct (Z.ltb_spec size need).
  - destruct (storeSize _ _ _ _ need Ha) as (m' & E & Hh & _ & Ht). rewrite (poke_run _ _ w m') by done. exists m'. split_and!; try done. lia.
  - destruct (putInfo_run sizeP buf name (infoSize fs f) (attrOf (fh_isDir f)) (ret tt) w B w Ha) as (m' & -> & Hb & Hh & Ht); [lia|done|].
    by exists m'.
Qed.

(** GetInfo of a live handle of a reachable world reports the last component
    of its path (empty for the root), the size the file system gives and the
    read-only and directory attributes; a buffer that is too short gets
    EFI_BUFFER_TOO_SMALL and the exact size needed, and nothing else is
    written. *)
Theorem sfs_get_info w this i f fs sizeP buf B size guidP :
  sfsReach w -> findFrom fh_proto this (w_files w) 0 = Some (f, i) -> ownedBy (w_sfs w) f fs ->
  holds (w_mem w) guidP EFIFileInfoGUID -> guidP <> 0 -> holds (w_mem w) sizeP (le64 size) ->
  0 <= size <= B -> B < 2 ^ 64 -> apart (w_mem w) sizeP buf B ->
  exists comps m', fh_path f = pathOf comps /\
    let name := default [] (last comps) in
    let need := sfsFileInfoSizeForName name in
    sfsFileGetInfoGo this guidP sizeP buf w = (Ok (if size <? need then sfsEFIBufferTooSmall else sfsEFISuccess), setMem m' w) /\
    holds m' sizeP (le64 need) /\ (need <= size -> holds m' buf (fileInfo name (infoSize fs f) (attrOf (fh_isDir f)))) /\
    onlyTouched sizeP 8 buf B (w_mem w) m'.
Proof.
  intros [Hi _]%reach_keeps Hf Ho Hg Hg0 Hsz Hs HB Ha. destruct (inv_found w this f i Hi Hf) as (Hfi & Hp & Ht & (comps & Hc & Epath) & _).
  exists comps. edestruct (GetInfo_run w this i f fs sizeP buf B size guidP) as (m' & H); [done..|by rewrite Epath; apply sfsBaseName_clean|].
  by exists m'.
Qed.

Lemma sfs_get_info_witness :
  let m := allocAt (allocAt (allocAt ∅ 100 EFIFileInfoGUID) 300 (le64 7)) 400 (make 100) in
  exists m', sfsFileGetInfoGo 1000 100 300 400 (demoWorld m) = (Ok sfsEFIBufferTooSmall, setMem m' (demoWorld m)) /\ holds m' 300 (le64 82).
Proof.
  cbv zeta. destruct (sfs_get_info (demoWorld (allocAt (allocAt (allocAt ∅ 100 EFIFileInfoGUID) 300 (le64 7)) 400 (make 100))) 1000 0
    (mkHandle 1000 2000 [pslash] true 0 None false None 0) demoFs 300 400 100 7 100 (demo_reach _)) as (comps & m' & E & H).
  - reflexivity.
  - exists 0%nat, (mkSfs 2000 1000 (Some demoFs)). done.
  - split; [lia|]. split; [by vm_compute|]. intros k b Hk. do 16 (destruct k as [|k]; [injection Hk as <-; by vm_compute|]). done.
  - lia.
  - split; [lia|]. split; [by vm_compute|]. intros k b Hk. do 8 (destruct k as [|k]; [injection Hk as <-; by vm_compute|]). done.
  - lia.
  - lia.
  - split_and!; [by apply mappedb_ok; vm_compute|by apply mappedb_ok; vm_compute|lia..].
  - assert (default [] (last comps) = []) as En.
    { destruct comps as [|c [|c' comps]]; [done|by destruct c|by destruct c]. }
    rewrite En in H. exists m'. exact (conj (proj1 H) (proj1 (proj2 H))).
Defined.

(** A successful Open of a regular, readable file. *)
Lemma Open_fileAt w proto this outNew fileName openMode attributes w1 parent i fs name st body :
  sfsInv w -> proto <> 0 -> (forall i f, w_files w !! i = Some f -> fh_proto f <> proto) ->
  opened w this i parent fs -> sfsReadUCS2 (w_mem w) fileName = Ok name ->
  let full := sfsJoinPath (fh_path parent) name in
  fsStat fs full = Some st -> isDirMode (st_Mode st) = false -> fsReadFile fs full = Some body ->
  sfsFileOpenGo proto this outNew fileName openMode attributes w = (Ok sfsEFISuccess, w1) ->
  fileAt w1 proto body 0.
Proof.
  intros Hi Hne Hfresh Hop Hname full Hst Hdir Hb Hr. pose proof (Open_inv _ _ _ _ _ _ _ _ _ Hi Hne Hfresh Hr) as Hi1.
  destruct (opened_found _ _ _ _ _ Hop) as (Ef & _ & e & j & Ee & Efs). unfold sfsFileOpenGo in Hr.
  run Hr. rewrite Ef in Hr. run Hr. rewrite Ee in Hr. destruct (outNew =? 0); [by apply ret_ok in Hr as [? _]|].
  destruct (negb _ || _); [by apply ret_ok in Hr as [? _]|]. destruct (Z.land _ _ =? 0); [by apply ret_ok in Hr as [? _]|].
  rewrite (peek_run _ _ w name Hname) in Hr. destruct (bool_decide _); [by apply ret_ok in Hr as [? _]|]. cbv zeta in Hr.
  rewrite Efs in Hr. fold full in Hr. rewrite Hst in Hr. run Hr. destruct (freeFrom fh_proto (w_files w) 0) as [slot|] eqn:Efree; [|by apply ret_ok in Hr as [? _]].
  apply freeFrom_Some in Efree as (_ & old & Hold & _). rewrite Nat.sub_0_r in Hold.
  apply bind_ok in Hr as ([] & w2 & [= <-] & Hr). do 2 run Hr. apply ret_ok in Hr as [_ ->]. apply fileAt_setMem. 
  eexists slot, _, fs. split; [split_and!|].
  - exact Hi1.
  - cbn [setFiles w_files setMem]. rewrite alter_cases, Hold. apply list_lookup_insert_eq. by eapply lookup_lt_Some.
  - done.
  - done.
  - exact (proj2 (proj2 (proj2 (proj2 Hop)))).
  - cbn. by rewrite Hdir.
Qed.

(** C15. Opening a regular file of a published volume and reading it with buffers of
    any sizes returns the file's contents in order, none lost or repeated: as
    many bytes as were asked for, or the whole file.  Every read succeeds, and
    outside the caller's size word and buffer memory is as it was.  The file is
    the one the joined path names in the volume's file system. *)
Theorem sfs_open_read w proto this outNew fileName openMode attributes w1 parent i fs name st body sizeP buf B ns :
  sfsReach w -> proto <> 0 -> (forall i f, w_files w !! i = Some f -> fh_proto f <> proto) ->
  findFrom fh_proto this (w_files w) 0 = Some (parent, i) -> ownedBy (w_sfs w) parent fs ->
  sfsReadUCS2 (w_mem w) fileName = Ok name ->
  fsStat fs (sfsJoinPath (fh_path parent) name) = Some st -> isDirMode (st_Mode st) = false ->
  fsReadFile fs (sfsJoinPath (fh_path parent) name) = Some body ->
  sfsFileOpenGo proto this outNew fileName openMode attributes w = (Ok sfsEFISuccess, w1) ->
  Forall (fun n => 0 <= n <= B) ns -> B < 2 ^ 64 -> apart (w_mem w1) sizeP buf B ->
  exists w2, readLoop proto sizeP buf ns w1 = (Ok (take (Z.to_nat (foldr Z.add 0 ns)) body), w2) /\
    onlyTouched sizeP 8 buf B (w_mem w1) (w_mem w2).
Proof.
  intros [Hi _]%reach_keeps Hne Hfresh Hf Ho Hname Hst Hdir Hb Hopen Hns HB Ha.
  destruct (inv_found w this parent i Hi Hf) as (Hl & Hp & Ht & _).
  eapply (readLoop_run proto sizeP buf B body ns w1 0); [|done..].
  by eapply (Open_fileAt w proto this outNew fileName openMode attributes w1 parent i fs name st body).
Qed.

(** The name "A" at 100, the result pointer at 200, the size word at 300 and a
    four-byte buffer at 400. *)
Definition demoMem : memory :=
  allocAt (allocAt (allocAt (allocAt ∅ 100 [x41; x00; x00; x00]) 200 (make 8)) 300 (make 8)) 400 (make 4).

Lemma sfs_open_read_witness :
  let w := demoWorld demoMem in
  let w1 := snd (sfsFileOpenGo 3000 1000 200 100 1 0 w) in
  fst (sfsFileOpenGo 3000 1000 200 100 1 0 w) = Ok sfsEFISuccess /\
  exists w2, readLoop 3000 300 400 [2; 2; 4] w1 = (Ok (str "hello"), w2) /\ onlyTouched 300 8 400 4 (w_mem w1) (w_mem w2).
Proof.
  cbv zeta. split; [by vm_compute|].
  eapply (sfs_open_read (demoWorld demoMem) 3000 1000 200 100 1 0 (snd (sfsFileOpenGo 3000 1000 200 100 1 0 (demoWorld demoMem))) _ 0 demoFs (str "A") _ (str "hello") 300 400 4 [2; 2; 4] (demo_reach _)).
  - done.
  - intros i f Hf%list_elem_of_lookup_2. revert f Hf. apply Forall_forall. vm_compute. repeat constructor; done.
  - reflexivity.
  - exists 0%nat, (mkSfs 2000 1000 (Some demoFs)). done.
  - by vm_compute.
  - by vm_compute.
  - by vm_compute.
  - by vm_compute.
  - apply injective_projections; [by vm_compute|reflexivity].
  - repeat constructor; lia.
  - lia.
  - split_and!; [by apply mappedb_ok; vm_compute|by apply mappedb_ok; vm_compute|lia..].
Defined.
