(* ===== verification/StubBoot.v ===== *)
(** * The stub as a program

    src/cmd/efipackstub/main.go: the stub finds its own file through the firmware,
    reads it back from the boot volume, unpacks the image in it (PackStub.v) into
    pages of its own and starts it.  The firmware's answers are those of
    BootServices.v; where Go puts the two buffers it allocates is an argument, as
    are the decompressors. *)

From S2P Require Import Prelude Effects GoStr LittleEndian MemMap Memory BootServices DevicePath LoadSfs Sfs PackStub.

(** The slots of EFI_SIMPLE_FILE_SYSTEM_PROTOCOL and EFI_FILE_PROTOCOL. *)
Definition sfsOpenVolume : Z := 8.
Definition fileOpen : Z := 8.
Definition fileClose : Z := 16.
Definition fileRead : Z := 32.
Definition fileGetInfo : Z := 64.
Definition efiFileModeRead : Z := 1.
Definition fileInfoFileSize : Z := 8.
Definition dpTypeMedia : Z := 0x04.
Definition dpSubTypeFilePath : Z := 0x04.
Definition dpTypeEnd : Z := 0x7F.
Definition efiLoaderCode : Z := 1.
Definition stubAborted : Z := 0x8000000000000015.
Definition maxNodes : nat := 32.
Definition maxNodeLen : Z := 4096.

(** ** The path (buildPath16) *)

(** A little-endian word of 16 bits, and a slice of them. *)
Definition loadU16 (m : memory) (p : Z) : out Z := let* bs := loadBytes m p 2 in le16At bs 0.
Fixpoint loadU16s (m : memory) (p : Z) (n : nat) : out (list Z) :=
  match n with
  | O => Ok []
  | S n => let* u := loadU16 m p in let* us := loadU16s m (p + 2) n in Ok (u :: us)
  end.

(** [if src[len(src)-1] == 0 { src = src[:len(src)-1] }] *)
Definition trimLast (src : list Z) : list Z :=
  if bool_decide (last src = Some 0) then take (length src - 1) src else src.

(** The words of a file-path node of [ln] bytes at [cur]. *)
Definition nodeUnits (m : memory) (cur ln : Z) : out (list Z) :=
  let n16 := (ln - 4) / 2 in
  if 0 <? n16 then
    let* _ := unsafeSlice (u64 (cur + 4)) (2 * n16) in
    let* src := loadU16s m (cur + 4) (Z.to_nat n16) in
    Ok (trimLast src)
  else Ok [].

Fixpoint pathNodes (k : nat) (m : memory) (cur : Z) (acc : list Z) : out (list Z) :=
  match k with
  | O => Ok acc
  | S k =>
      let* t := load m (u64 cur) in
      let* st := load m (u64 (cur + 1)) in
      let* ln := loadU16 m (cur + 2) in
      if (ln <? 4) || (maxNodeLen <? ln) then Ok acc
      else if b2z t =? dpTypeEnd then Ok acc
      else
        let* us := if (b2z t =? dpTypeMedia) && (b2z st =? dpSubTypeFilePath) then nodeUnits m cur ln else Ok [] in
        pathNodes k m (u64 (cur + ln)) (acc ++ us)
  end.

Definition buildPath16 (m : memory) (dp : Z) : out (list Z) :=
  if dp =? 0 then Ok []
  else
    let* us := pathNodes maxNodes m dp [] in
    if bool_decide (us = []) then Ok [] else Ok (us ++ [0]).

(** ** The program *)

Section run.
Context {F : Type} `{Firmware F}.
Notation StubM := (M (Machine F)).

(** The decompressors, as in PackStub.v. *)
Variable flate : list byte -> list byte * bool.
Variable lz4 : list byte -> Z -> option (list byte).
Variable lzfse : list byte -> option (list byte).
(** Where Go allocates the buffers of getFileSize and readOwnFile, and the largest
    slice it can make. *)
Variables pInfo pBuf heapMax : Z.

(** A call that answers [nil, false] ends its caller the same way. *)
Definition orNone {A B} (m : StubM (option A)) (k : A -> StubM (option B)) : StubM (option B) :=
  x <- m ;; match x with Some a => k a | None => ret None end.

(** [v, err := m; if err != nil || v == 0 { return nil, false }] *)
Definition nonZero (m : StubM Z) : StubM (option Z) :=
  v <- try m ;;
  ret (match v with inl v => if v =? 0 then None else Some v | inr _ => None end).

(** A handle the firmware writes to a variable that is zero. *)
Definition opens (c : bootCall) : StubM (option Z) :=
  a <- efiCall c ;;
  ret (if negb (ba_status a =? efiSuccess) || (ba_out a =? 0) then None else Some (ba_out a)).

Definition closeFile (file : Z) : StubM unit :=
  if file =? 0 then ret tt else efiCall (bsProtocol file fileClose [] []) ;;; ret tt.

Definition getFileSize (file : Z) : StubM (option Z) :=
  a <- efiCall (bsProtocol file fileGetInfo [] [0; 0]) ;;
  let bufSize := ba_out a in
  if bufSize =? 0 then ret None
  else
    goMake heapMax pInfo bufSize ;;;
    a <- efiCall (bsProtocol file fileGetInfo [] [bufSize; pInfo]) ;;
    if negb (ba_status a =? efiSuccess) then ret None
    else if bufSize <? fileInfoFileSize + 8 then ret None
    else size <- readMem (fun m => loadU64 m (pInfo + fileInfoFileSize)) ;; ret (Some size).

(** Steps 6 to 8: the file is read into a buffer of its size, whatever happens both
    handles are closed, and a short read is refused. *)
Definition slurp (root file size : Z) : StubM (option (list byte)) :=
  goMake heapMax pBuf size ;;;
  a <- efiCall (bsProtocol file fileRead [] [size; pBuf]) ;;
  closeFile file ;;;
  closeFile root ;;;
  if negb (ba_status a =? efiSuccess) then ret None
  else if negb (ba_out a =? size) then ret None
  else buf <- readMem (fun m => loadBytes m pBuf (Z.to_nat size)) ;; ret (Some buf).

(** Steps 3 to 8, with the volume open. *)
Definition readFrom (root filePathPtr : Z) : StubM (option (list byte)) :=
  path16 <- readMem (fun m => buildPath16 m filePathPtr) ;;
  if bool_decide (path16 = []) then closeFile root ;;; ret None
  else
    opened <- opens (bsProtocol root fileOpen path16 [efiFileModeRead; 0]) ;;
    match opened with
    | None => closeFile root ;;; ret None
    | Some file =>
        size <- getFileSize file ;;
        match size with
        | None => closeFile file ;;; closeFile root ;;; ret None
        | Some size =>
            if size =? 0 then closeFile file ;;; closeFile root ;;; ret None
            else slurp root file size
        end
    end.

Definition readOwnFile : StubM (option (list byte)) :=
  image <- gets mc_image ;;
  orNone (nonZero (HandleProtocol image EFILoadedImageProtocolGUID)) (fun li =>
  devHandle <- readMem (fun m => loadU64 m (li + efiLoadedImageDeviceHandle)) ;;
  filePathPtr <- readMem (fun m => loadU64 m (li + efiLoadedImageFilePath)) ;;
  if (devHandle =? 0) || (filePathPtr =? 0) then ret None
  else
    orNone (nonZero (HandleProtocol devHandle EFISimpleFileSystemProtocolGUID)) (fun sfs =>
    orNone (opens (bsProtocol sfs sfsOpenVolume [] [])) (fun root =>
    readFrom root filePathPtr))).

(** flateDecode: what the reader delivers goes straight into the pages. *)
Definition flateDecode (src : list byte) (dst n : Z) : StubM bool :=
  let '(bs, eof) := flate src in
  writeMem (fun m => storeBytes m dst (take (Z.to_nat n) bs)) ;;;
  ret ((len bs =? n) && eof).

(** decodePayload of the [size] bytes at [off] of the buffer that the file was read
    into, as they are now, into the slice of [n] bytes at [dst].  A flate reader that
    reads on after it has written meets the same bytes: the pages that the firmware
    hands out are not in the heap of the program. *)
Definition decodeBlock (b : option (list byte)) (dst n : Z) : StubM bool :=
  match b with
  | None => ret false
  | Some bs => if negb (len bs =? n) then ret false else writeMem (fun m => storeBytes m dst bs) ;;; ret true
  end.
Definition decodeInto (algo : list byte) (off size dst n : Z) : StubM bool :=
  compressed <- readMem (fun m => loadBytes m (pBuf + off) (Z.to_nat size)) ;;
  if decide (algo = algoFlat) then flateDecode compressed dst n
  else if decide (algo = algoLZ4) then decodeBlock (lz4 compressed n) dst n
  else if decide (algo = algoLZFSE) then decodeBlock (lzfse compressed) dst n
  else ret false.

Definition run : StubM Z :=
  peBytes <- readOwnFile ;;
  match peBytes with
  | None => ret stubAborted
  | Some pe =>
      h <- lift (stubHeader pe) ;;
      match h with
      | None => ret stubAborted
      | Some (algo, off, size, uncompressedSize) =>
          let pageCount := u64 (uncompressedSize + efiPageSize - 1) / efiPageSize in
          addr <- nonZero (AllocatePages efiLoaderCode pageCount) ;;
          match addr with
          | None => ret stubAborted
          | Some addr =>
              let n := s64 uncompressedSize in
              lift (unsafeSlice addr n) ;;;
              ok <- decodeInto algo off size addr n ;;
              if negb ok then ret stubAborted
              else
                dst <- readMem (fun m => loadBytes m addr (Z.to_nat n)) ;;
                child <- try (LoadImage dst) ;;
                match child with
                | inr _ => ret stubAborted
                | inl child => st <- StartImage child ;; ret (fst st)
                end
          end
      end
  end.

(** main; what follows in the source is a loop that does nothing. *)
Definition main : StubM unit :=
  status <- run ;;
  image <- gets mc_image ;;
  ignore (ExitImage image status).
End run.

(** ** The path that is opened *)

(** The 16-bit words of a node's data, and its part of the path. *)
Fixpoint words (bs : list byte) : list Z :=
  match bs with b0 :: b1 :: r => Z.lor (b2z b0) (Z.shiftl (b2z b1) 8) :: words r | _ => [] end.
Definition unterminated (us : list Z) : list Z := match reverse us with 0 :: r => reverse r | _ => us end.
Definition nodeText (n : node) : list Z :=
  if bool_decide (n_type n = x04 /\ n_sub n = x04) then unterminated (words (n_data n)) else [].

Lemma trimLast_eq us : trimLast us = unterminated us.
Proof.
  unfold trimLast, unterminated. destruct us as [|u us _] using rev_ind; [done|]. rewrite last_snoc, reverse_snoc. destruct (decide (u = 0)) as [->|Hu].
  - rewrite bool_decide_eq_true_2, length_app, Nat.add_sub, take_app_length, reverse_involutive by done. done.
  - rewrite bool_decide_eq_false_2 by congruence. by destruct u.
Qed.
Lemma isFilePath n : (b2z (n_type n) =? dpTypeMedia) && (b2z (n_sub n) =? dpSubTypeFilePath) = bool_decide (n_type n = x04 /\ n_sub n = x04).
Proof.
  apply eq_bool_prop_intro. rewrite andb_True, bool_decide_spec, !Is_true_true, !Z.eqb_eq. split; intros [E1 E2].
  - split; by apply b2z_inj.
  - by rewrite E1, E2.
Qed.

Lemma loadU16_holds m p b0 b1 r : holds m p (b0 :: b1 :: r) -> loadU16 m p = Ok (Z.lor (b2z b0) (Z.shiftl (b2z b1) 8)).
Proof.
  intros Hh. change (b0 :: b1 :: r) with ([b0; b1] ++ r) in Hh. apply holds_app in Hh as [Hh _]. unfold loadU16.
  rewrite (loadBytes_holds m p [b0; b1] Hh : loadBytes m p 2 = _). done.
Qed.

(** The two bytes a node starts with. *)
Lemma load_pair m p b0 b1 r : holds m p (b0 :: b1 :: r) -> load m (u64 p) = Ok b0 /\ load m (u64 (p + 1)) = Ok b1 /\ holds m (p + 2) r.
Proof.
  intros Hh. apply holds_cons in Hh as (Hp & H0 & Hh). apply holds_cons in Hh as (Hp1 & H1 & Hh). rewrite <- Z.add_assoc in Hh. unfold load.
  by rewrite !u64_small, H0, H1 by lia.
Qed.

Lemma loadU16s_words n : forall m p bs, (n = length bs / 2)%nat -> holds m p bs -> loadU16s m p n = Ok (words bs).
Proof.
  induction n as [|n IH]; intros m p bs Hn Hh.
  - destruct bs as [|b0 [|b1 bs]]; [done..|]. exfalso. cbn [length] in Hn. replace (S (S (length bs))) with (length bs + 1 * 2)%nat in Hn by lia.
    rewrite Nat.div_add in Hn by lia. lia.
  - destruct bs as [|b0 [|b1 bs]]; [done..|]. cbn [loadU16s words]. rewrite (loadU16_holds _ _ _ _ _ Hh). cbn [out_bind].
    change (b0 :: b1 :: bs) with ([b0; b1] ++ bs) in Hh. apply holds_app in Hh as [_ Hh]. change (len [b0; b1]) with 2 in Hh.
    rewrite (IH m (p + 2) bs); [done| |done]. cbn [length] in Hn. replace (S (S (length bs))) with (length bs + 1 * 2)%nat in Hn by lia.
    rewrite Nat.div_add in Hn by lia. lia.
Qed.

Lemma nodeUnits_text m p n :
  0 < p -> holds m p (encNode n) -> 4 + len (n_data n) < 2 ^ 16 ->
  (if (b2z (n_type n) =? dpTypeMedia) && (b2z (n_sub n) =? dpSubTypeFilePath) then nodeUnits m p (4 + len (n_data n)) else Ok []) = Ok (nodeText n).
Proof.
  intros Hp Hh Hl. unfold nodeText. rewrite isFilePath. case_bool_decide; [|done]. rewrite <- trimLast_eq. unfold nodeUnits. cbv zeta. replace (4 + len (n_data n) - 4) with (len (n_data n)) by lia.
  unfold encNode in Hh. apply holds_app in Hh as [_ Hh]. change (len [_; _; _; _]) with 4 in Hh. pose proof (len_nonneg (n_data n)).
  destruct (Z.ltb_spec 0 (len (n_data n) / 2)) as [Hn|Hn].
  - assert (unsafeSlice (u64 (p + 4)) (2 * (len (n_data n) / 2)) = Ok tt) as ->.
    { destruct Hh as (_ & Hw & _). unfold unsafeSlice, u64. rewrite (Z.mod_small (p + 4)) by (Z.to_euclidean_division_equations; lia).
      rewrite Z.mod_opp_l_nz by (rewrite ?Z.mod_small; Z.to_euclidean_division_equations; lia).
      rewrite Z.mod_small by (Z.to_euclidean_division_equations; lia). replace (_ || _) with false; [done|]. Z.to_euclidean_division_equations; lia. }
    cbn [out_bind]. rewrite (loadU16s_words _ _ _ (n_data n)); [done| |done]. unfold len. rewrite <- (Nat2Z.inj_div _ 2). apply Nat2Z.id.
  - destruct (n_data n) as [|b0 [|b1 r]]; [done..|]. exfalso. rewrite !len_cons in Hn. pose proof (len_nonneg r). Z.to_euclidean_division_equations; lia.
Qed.

(** A node the stub walks over. *)
Definition walkable (n : node) : Prop := wfNode n /\ 4 + len (n_data n) <= maxNodeLen /\ b2z (n_type n) <> dpTypeEnd.

Lemma pathNodes_spec m ns : forall k p acc,
  Forall walkable ns -> (length ns < k)%nat -> 0 < p -> holds m p (encPath ns) ->
  pathNodes k m p acc = Ok (acc ++ concat (nodeText <$> ns)).
Proof.
  induction ns as [|n ns IH]; intros [|k] p acc Hns Hk Hp Hh; [cbn in Hk; lia| |cbn in Hk; lia|]; cbn [pathNodes].
  - change (encPath []) with [x7f; xff; x04; x00] in Hh. apply load_pair in Hh as (-> & -> & Hh). cbn [out_bind].
    rewrite (loadU16_holds _ _ _ _ _ Hh). cbn. by rewrite app_nil_r.
  - apply Forall_cons in Hns as [((Hn & _) & Hmax & He) Hns]. pose proof (len_nonneg (n_data n)) as Hd.
    assert (encPath (n :: ns) = encNode n ++ encPath ns) as Ep by (unfold encPath, encNodes; cbn [fmap list_fmap concat]; by rewrite <- app_assoc).
    rewrite Ep in Hh. apply holds_app in Hh as [Hh1 Hh2]. rewrite len_encNode in Hh2. pose proof Hh1 as Hh1'.
    unfold encNode in Hh1'. cbn [app] in Hh1'. apply load_pair in Hh1' as (-> & -> & Hh1'). cbn [out_bind]. rewrite (loadU16_holds _ _ _ _ _ Hh1'), nodeLen by done.
    cbn [out_bind]. rewrite (proj2 (Z.ltb_ge _ 4)) by lia. rewrite (proj2 (Z.ltb_ge maxNodeLen _)) by lia. cbn [orb]. rewrite (proj2 (Z.eqb_neq _ dpTypeEnd)) by done.
    rewrite nodeUnits_text by done. cbn [out_bind].
    assert (p + (4 + len (n_data n)) < 2 ^ 64) as Hlt.
    { destruct Hh2 as (_ & Hw2 & _). unfold encPath in Hw2. rewrite len_app in Hw2. change (len endNode) with 4 in Hw2. pose proof (len_nonneg (encNodes ns)). lia. }
    rewrite u64_small by lia. rewrite IH; [|done|cbn in Hk; lia|lia|done]. cbn [fmap list_fmap concat]. by rewrite <- app_assoc.
Qed.

(** The path that the stub opens is the text of the file-path nodes of its own
    device path, in order and once terminated; there is none when no node has
    text. *)
Theorem build_path_spec m p ns :
  Forall walkable ns -> (length ns < maxNodes)%nat -> 0 < p -> holds m p (encPath ns) ->
  buildPath16 m p = Ok (match concat (nodeText <$> ns) with [] => [] | us => us ++ [0] end).
Proof.
  intros Hns Hk Hp Hh. unfold buildPath16. rewrite (proj2 (Z.eqb_neq p 0)) by lia. rewrite (pathNodes_spec m ns) by done. cbn [out_bind app].
  destruct (concat _) as [|u us]; [done|]. by rewrite bool_decide_eq_false_2.
Qed.

(** ** What is opened is closed *)

(** The handles that a call opens, and the one it closes. *)
Definition opensBy (c : bootCall) (a : bootAnswer) : list Z :=
  match c with
  | bsProtocol _ slot _ _ => if (slot =? fileOpen) && (ba_status a =? efiSuccess) && negb (ba_out a =? 0) then [ba_out a] else []
  | _ => []
  end.
Definition closesBy (c : bootCall) : list Z :=
  match c with bsProtocol this slot _ _ => if slot =? fileClose then [this] else [] | _ => [] end.

Abbreviation bootLog := (list (bootCall * memory * bootAnswer)).
Definition opened (l : bootLog) : list Z := l ≫= fun e => opensBy e.1.1 e.2.
Definition closed (l : bootLog) : list Z := l ≫= fun e => closesBy e.1.1.
Definition startless (l : bootLog) : Prop := Forall (fun e => isStart e.1.1 = false) l.

(** Between two machines [l] was called, no image started, and the handles [hs]
    were left open. *)
Definition holding {F} (hs : list Z) (s s' : Machine F) (l : bootLog) : Prop :=
  mc_calls s' = mc_calls s ++ l /\ startless l /\ opened l ≡ₚ hs ++ closed l /\ mc_image s' = mc_image s /\ mc_bs s' = mc_bs s.

Section handles.
Context {F : Type} `{Firmware F}.
Implicit Types s : Machine F.

Lemma holding_refl s : holding [] s s [].
Proof. unfold holding, startless. by rewrite app_nil_r. Qed.

Lemma holding_write hs s s1 l m : holding hs s s1 l -> holding hs s (withMem m s1) l.
Proof. done. Qed.

Lemma holding_call hs hs' s s1 l c a s2 :
  holding hs s s1 l -> efiCall c s1 = (Ok a, s2) -> isStart c = false -> hs ++ opensBy c a ≡ₚ hs' ++ closesBy c ->
  holding hs' s s2 (l ++ [(c, mc_mem s1, a)]).
Proof.
  intros (Hc & Hn & Hb & Hi & Hbs) Ha Hs Hp. unfold efiCall in Ha. destruct (fwStep _ _ _) as [[a' m] f]. injection Ha as -> <-. cbn [mc_calls mc_image mc_bs].
  split; [by rewrite Hc, app_assoc|]. split; [apply Forall_app; split; [done|by repeat constructor]|]. split; [|done].
  unfold opened, closed in *. rewrite !bind_app, Hb. cbn. rewrite !app_nil_r.
  rewrite <- app_assoc, (Permutation_app_comm (closed l)), app_assoc, Hp. unfold closed. by rewrite <- !app_assoc, (Permutation_app_comm (closesBy c)).
Qed.

(** A call of another kind. *)
Lemma holding_other hs s s1 l c a s2 :
  holding hs s s1 l -> efiCall c s1 = (Ok a, s2) -> isStart c = false -> opensBy c a = [] -> closesBy c = [] ->
  holding hs s s2 (l ++ [(c, mc_mem s1, a)]).
Proof. intros Hh Ha Hs Ho Hc. eapply holding_call; [done..|]. by rewrite Ho, Hc. Qed.
End handles.

(** ** The pages hold what was decoded *)

Lemma storeBytes_outside bs : forall m p m' a,
  storeBytes m p bs = Ok m' -> (forall i, 0 <= i < len bs -> a <> u64 (p + i)) -> m' !! a = m !! a.
Proof.
  induction bs as [|b bs IH]; intros m p m' a Hs Ha; [by injection Hs as <-|]. cbn [storeBytes] in Hs. unfold store in Hs.
  destruct (m !! u64 p); [|done]. cbn [out_bind] in Hs. pose proof (len_nonneg bs). apply IH with (a := a) in Hs.
  - rewrite Hs. apply lookup_insert_ne. specialize (Ha 0). rewrite Z.add_0_r, len_cons in Ha. intros E. apply Ha; [lia|done].
  - intros i Hi. rewrite <- Z.add_assoc. apply Ha. rewrite len_cons. lia.
Qed.

(** What was stored is read back, wherever the region wraps. *)
Lemma storeBytes_back bs : forall m p m',
  storeBytes m p bs = Ok m' -> len bs <= 2 ^ 64 -> loadBytes m' p (length bs) = Ok bs.
Proof.
  induction bs as [|b bs IH]; intros m p m' Hs Hl; [done|]. rewrite len_cons in Hl. pose proof (len_nonneg bs). cbn [storeBytes] in Hs. unfold store in Hs.
  destruct (m !! u64 p) eqn:E; [|done]. cbn [out_bind] in Hs. cbn [length loadBytes]. unfold load. rewrite (storeBytes_outside _ _ _ _ _ Hs).
  - rewrite lookup_insert_eq. cbn [out_bind]. rewrite (IH _ _ _ Hs) by lia. done.
  - intros i Hi. unfold u64. intros Eq. apply (f_equal (fun z => (z - p) mod 2 ^ 64)) in Eq. rewrite !Zminus_mod_idemp_l in Eq.
    replace (p - p) with 0 in Eq by lia. replace (p + 1 + i - p) with (1 + i) in Eq by lia. rewrite Z.mod_0_l, Z.mod_small in Eq by lia. lia.
Qed.

Lemma loadBytes_length m p n bs : loadBytes m p n = Ok bs -> length bs = n.
Proof.
  revert p bs. induction n as [|n IH]; intros p bs; cbn [loadBytes]; [by intros [= <-]|]. destruct (load _ _); [|done..]. cbn [out_bind].
  destruct (loadBytes m (p + 1) n) eqn:E; [|done..]. intros [= <-]. cbn [length]. f_equal. by eapply IH.
Qed.

Section steps.
Context {F : Type} `{Firmware F}.
Variable flate : list byte -> list byte * bool.
Variable lz4 : list byte -> Z -> option (list byte).
Variable lzfse : list byte -> option (list byte).
Variables pInfo pBuf heapMax : Z.
Implicit Types s : Machine F.

(** Decoding makes no call, and when it reports success what is decoded out of the
    buffer is all that was written. *)
Lemma decodeInto_ok algo off size dst n s ok s' :
  decodeInto flate lz4 lzfse pBuf algo off size dst n s = (Ok ok, s') ->
  exists m, s' = withMem m s /\
    (ok = true -> exists compressed img, loadBytes (mc_mem s) (pBuf + off) (Z.to_nat size) = Ok compressed /\
       decodesTo flate lz4 lzfse algo compressed n img /\ storeBytes (mc_mem s) dst img = Ok m).
Proof.
  intros (compressed & s1 & Hc & Hr)%bind_ok. injection Hc as Hc <-. assert (s = withMem (mc_mem s) s) as Hs0 by by destruct s.
  assert (forall o, decodeBlock o dst n s = (Ok ok, s') -> exists m, s' = withMem m s /\
    (ok = true -> exists img, o = Some img /\ len img = n /\ storeBytes (mc_mem s) dst img = Ok m)) as Hblock.
  { intros [bs|] Hb; cbn in Hb; [|apply ret_ok in Hb as [-> ->]; by exists (mc_mem s)].
    destruct (Z.eqb_spec (len bs) n) as [En|]; cbn [negb] in Hb; [|apply ret_ok in Hb as [-> ->]; by exists (mc_mem s)].
    apply bind_ok in Hb as ([] & s1 & Hw & [-> ->]%ret_ok). unfold writeMem in Hw. destruct (storeBytes _ _ _) as [m|er|] eqn:Es; [|done|done].
    injection Hw as <-. exists m. split; [done|]. intros _. by exists bs. }
  unfold decodesTo. destruct (decide (algo = algoFlat)) as [->|].
  - unfold flateDecode in Hr. destruct (flate compressed) as [bs eof] eqn:Ef. apply bind_ok in Hr as ([] & s1 & Hw & [-> ->]%ret_ok).
    unfold writeMem in Hw. destruct (storeBytes _ _ _) as [m|er|] eqn:Es; [|done|done]. injection Hw as <-. exists m. split; [done|].
    intros [En ->]%andb_true_iff. exists compressed, bs. rewrite take_ge in Es by (unfold len in En; lia). split_and!; try done; [lia|by left].
  - destruct (decide (algo = algoLZ4)) as [->|].
    + apply Hblock in Hr as (m & -> & Hm). exists m. split; [done|]. intros (img & Ei & Hn & Hs)%Hm. exists compressed, img. split_and!; try done. by right; left.
    + destruct (decide (algo = algoLZFSE)) as [->|]; [|apply ret_ok in Hr as [-> ->]; by exists (mc_mem s)].
      apply Hblock in Hr as (m & -> & Hm). exists m. split; [done|]. intros (img & Ei & Hn & Hs)%Hm. exists compressed, img. split_and!; try done. by right; right.
Qed.

(** A wrapper that makes at most one call, of another kind than opening, closing
    and starting. *)
Definition atMost {A} (c : Machine F -> bootCall) (m : M (Machine F) A) : Prop :=
  forall s, (isStart (c s) = false /\ (forall a, opensBy (c s) a = []) /\ closesBy (c s) = []) /\
    (snd (m s) = s \/ exists a, efiCall (c s) s = (Ok a, snd (m s))).

Lemma holding_atMost {A} c (m : M (Machine F) A) hs s0 s l r s' :
  atMost c m -> holding hs s0 s l -> m s = (r, s') -> exists l', holding hs s0 s' (l ++ l').
Proof.
  intros Hc Hh Hr. destruct (Hc s) as [(Hs & Ho & Hcl) Hm]. rewrite Hr in Hm. cbn [snd] in Hm. destruct Hm as [->|[a Ha]].
  - exists []. by rewrite app_nil_r.
  - eexists. by eapply holding_other.
Qed.

Ltac one_call := intros s; split; [done|]; unfold needBootServices, success; mrun; repeat first
  [ progress cbn [fst snd ba_out ba_status]
  | match goal with |- context [if ?b then _ else _] => destruct b end
  | match goal with |- context [efiCall ?c ?s] => unfold efiCall; destruct (fwStep c (mc_mem s) (mc_fw s)) as [[? ?] ?] end ];
  try (by left); right; eexists; reflexivity.

Lemma HandleProtocol_once h g : atMost (fun _ => bsHandleProtocol h g) (nonZero (HandleProtocol h g)).
Proof. unfold nonZero, HandleProtocol. one_call. Qed.
Lemma AllocatePages_once t n : atMost (fun _ => bsAllocatePages EFIAllocateAnyPages t n 0) (nonZero (AllocatePages t n)).
Proof. unfold nonZero, AllocatePages. one_call. Qed.
Lemma LoadImage_once src : atMost (fun s => bsLoadImage 0 (mc_image s) [] src) (try (LoadImage src)).
Proof. unfold LoadImage. one_call. Qed.

Lemma efiCall_run c s r s' : efiCall c s = (r, s') -> exists a, r = Ok a /\ efiCall c s = (Ok a, s').
Proof. intros E. unfold efiCall in *. destruct (fwStep _ _ _) as [[a m] f]. injection E as <- <-. by exists a. Qed.

(** A call that succeeded, and answered a handle. *)
Definition answered (a : bootAnswer) (h : Z) : Prop := ba_status a = efiSuccess /\ ba_out a = h /\ h <> 0.

(** The wrappers whose null result is a failure, when they are none. *)
Lemma HandleProtocol_some h g s v s' :
  nonZero (HandleProtocol h g) s = (Ok (Some v), s') -> exists a, efiCall (bsHandleProtocol h g) s = (Ok a, s') /\ answered a v.
Proof.
  unfold nonZero, HandleProtocol. intros ([w|er] & s1 & Hm & Hk)%bind_ok; [|by apply ret_ok in Hk as [? _]].
  apply ret_ok in Hk as [Hv ->]. destruct (Z.eqb_spec w 0) as [|Hz]; [done|]. injection Hv as ->.
  unfold try in Hm. destruct (bind _ _ s) as [[x|er|] s2] eqn:E; [|done..]. injection Hm as -> ->.
  apply bind_ok in E as ([] & s3 & [-> _]%needBootServices_ok & (a & s3' & Ha & Hk)%bind_ok).
  apply bind_ok in Hk as ([] & s4 & [Hst ->]%success_ok & [-> ->]%ret_ok). exists a. by split.
Qed.
Lemma AllocatePages_some t n s addr s' :
  nonZero (AllocatePages t n) s = (Ok (Some addr), s') ->
  exists a, efiCall (bsAllocatePages EFIAllocateAnyPages t n 0) s = (Ok a, s') /\ answered a addr /\ n <> 0.
Proof.
  unfold nonZero, AllocatePages. intros ([v|er] & s1 & Hm & Hk)%bind_ok; [|by apply ret_ok in Hk as [? _]].
  apply ret_ok in Hk as [Hv ->]. destruct (Z.eqb_spec v 0) as [|Hz]; [done|]. injection Hv as ->.
  unfold try in Hm. destruct (bind _ _ s) as [[w|er|] s2] eqn:E; [|done..]. injection Hm as -> ->.
  apply bind_ok in E as ([] & s3 & [-> _]%needBootServices_ok & Hk). destruct (Z.eqb_spec n 0); [by apply ret_ok in Hk as [-> _]|].
  apply bind_ok in Hk as (a & s3 & Ha & Hk). apply bind_ok in Hk as ([] & s4 & [Hst ->]%success_ok & [-> ->]%ret_ok). exists a. by split_and!.
Qed.

(** A call that opens: the handle is left open, or none is. *)
Lemma opens_ok this slot path args hs s0 s l o s' :
  holding hs s0 s l -> opens (bsProtocol this slot path args) s = (Ok o, s') -> slot = fileOpen ->
  exists a, holding (match o with Some h => h :: hs | None => hs end) s0 s' (l ++ [(bsProtocol this fileOpen path args, mc_mem s, a)]) /\
    forall h, o = Some h -> answered a h.
Proof.
  intros Hh (a & s1 & Ha & [-> ->]%ret_ok)%bind_ok ->. exists a.
  split; [|intros h; destruct (_ || _) eqn:E; [done|]; intros [= <-]; unfold answered; destruct (Z.eqb_spec (ba_status a) efiSuccess); [split_and!; try done; lia|done]].
  eapply holding_call; [exact Hh|exact Ha|done|]. cbn [opensBy closesBy]. change (fileOpen =? fileOpen) with true. change (fileOpen =? fileClose) with false.
  rewrite app_nil_r. cbn [andb]. destruct (ba_status a =? efiSuccess), (ba_out a =? 0); cbn [negb andb orb]; rewrite ?app_nil_r; [done| |done..].
  apply Permutation_app_comm.
Qed.

Lemma closeFile_ok h hs s0 s l s' :
  holding (h :: hs) s0 s l -> h <> 0 -> closeFile h s = (Ok tt, s') ->
  exists a, holding hs s0 s' (l ++ [(bsProtocol h fileClose [] [], mc_mem s, a)]).
Proof.
  intros Hh Hz. unfold closeFile. rewrite (proj2 (Z.eqb_neq h 0)) by done. intros (a & s1 & Ha & [_ ->]%ret_ok)%bind_ok. exists a.
  eapply holding_call; [exact Hh|exact Ha|done|]. cbn. by rewrite app_nil_r, Permutation_app_comm.
Qed.

(** A question about the size of [file]. *)
Definition asksInfo (file : Z) (e : bootCall * memory * bootAnswer) : Prop := exists args, e.1.1 = bsProtocol file fileGetInfo [] args.

Lemma getFileSize_ok file hs s0 s l o s' :
  holding hs s0 s l -> getFileSize pInfo heapMax file s = (Ok o, s') ->
  exists l', holding hs s0 s' (l ++ l') /\ Forall (asksInfo file) l' /\ forall v, o = Some v -> 0 <= v.
Proof.
  intros Hh (a & s1 & Ha & Hk)%bind_ok. eapply holding_other in Hh; [|exact Ha|done..]. cbv zeta in Hk.
  assert (forall args m a, asksInfo file (bsProtocol file fileGetInfo [] args, m, a)) as Hask by (intros args; by exists args). destruct (ba_out a =? 0).
  { apply ret_ok in Hk as [-> ->]. eexists. split; [exact Hh|]. split; [|done]. by repeat constructor. }
  apply bind_ok in Hk as ([] & s2 & ->%goMake_ok & Hk). apply bind_ok in Hk as (a2 & s3 & Ha2 & Hk).
  eapply (holding_other _ _ _ _ _ _ _ (holding_write _ _ _ _ _ Hh)) in Ha2; [|done..]. rewrite <- app_assoc in Ha2.
  assert (forall o : option Z, (forall v, o = Some v -> 0 <= v) -> exists l', holding hs s0 s3 (l ++ l') /\ Forall (asksInfo file) l' /\ forall v, o = Some v -> 0 <= v) as Hend
    by (intros x Hx; eexists; split; [exact Ha2|]; split; [by repeat constructor|done]).
  destruct (negb _); [apply ret_ok in Hk as [-> ->]; by apply Hend|]. destruct (_ <? _); [apply ret_ok in Hk as [-> ->]; by apply Hend|].
  apply bind_ok in Hk as (sz & s4 & Hr & [-> ->]%ret_ok). injection Hr as Hr <-. apply Hend.
  intros v [= <-]. unfold loadU64 in Hr. destruct (loadBytes _ _ _) as [bs|er|] eqn:Eb; [|done..]. cbn [out_bind] in Hr. apply loadBytes_length in Eb.
  destruct (leU64_ok bs) as (v & Ev & Hv); [unfold len; lia|]. rewrite Ev in Hr. injection Hr as <-. lia.
Qed.

(** The calls of a read: the buffer is given to the firmware, and both handles are
    closed. *)
Definition readLog (root file size : Z) (m1 m2 m3 : memory) (a1 a2 a3 : bootAnswer) : bootLog :=
  [(bsProtocol file fileRead [] [size; pBuf], m1, a1); (bsProtocol file fileClose [] [], m2, a2); (bsProtocol root fileClose [] [], m3, a3)].

(** A complete read of what [path] names below [root]: it was opened for reading,
    asked for its size and nothing else, read up to that size, which the firmware
    reports to have done, and both are closed.  [m] holds the bytes [pe]. *)
Definition completeRead (root : Z) (path : list Z) (m4 : memory) (l : bootLog) (m : memory) (pe : list byte) : Prop :=
  exists file aF info m1 m2 m3 a1 a2 a3,
    l = [(bsProtocol root 8 path [1; 0], m4, aF)] ++ info ++ readLog root file (len pe) m1 m2 m3 a1 a2 a3 /\
    answered aF file /\ Forall (asksInfo file) info /\
    ba_status a1 = efiSuccess /\ ba_out a1 = len pe /\ loadBytes m pBuf (length pe) = Ok pe.

Lemma slurp_ok root file size s0 s l o s' :
  holding [file; root] s0 s l -> root <> 0 -> file <> 0 -> 0 <= size -> slurp pBuf heapMax root file size s = (Ok o, s') ->
  exists l', holding [] s0 s' (l ++ l') /\ forall pe, o = Some pe -> exists m1 m2 m3 a1 a2 a3,
    l' = readLog root file (len pe) m1 m2 m3 a1 a2 a3 /\ ba_status a1 = efiSuccess /\ ba_out a1 = len pe /\
    loadBytes (mc_mem s') pBuf (length pe) = Ok pe.
Proof.
  intros Hh Hr Hf Hsz ([] & s1 & ->%goMake_ok & Hk)%bind_ok. apply bind_ok in Hk as (a1 & s2 & Ha & Hk).
  eapply (holding_other _ _ _ _ _ _ _ (holding_write _ _ _ _ _ Hh)) in Ha; [|done..].
  apply bind_ok in Hk as ([] & s3 & Hc & Hk). eapply closeFile_ok in Hc as [a2 Hc]; [|exact Ha|done].
  apply bind_ok in Hk as ([] & s4 & Hc2 & Hk). eapply closeFile_ok in Hc2 as [a3 Hc2]; [|exact Hc|done].
  rewrite <- !app_assoc in Hc2. cbn [app] in Hc2. set (l' := [_; _; _]) in Hc2.
  destruct (Z.eqb_spec (ba_status a1) efiSuccess) as [Hst|]; cbn [negb] in Hk; [|apply ret_ok in Hk as [-> ->]; exists l'; by split].
  destruct (Z.eqb_spec (ba_out a1) size) as [Hout|]; cbn [negb] in Hk; [|apply ret_ok in Hk as [-> ->]; exists l'; by split].
  apply bind_ok in Hk as (buf & s5 & Hb & [-> ->]%ret_ok). injection Hb as Hb <-. exists l'. split; [done|]. intros pe [= ->].
  pose proof (loadBytes_length _ _ _ _ Hb) as Hl. assert (len pe = size) as El by (unfold len; lia).
  exists (allocAt (mc_mem s) pBuf (make size)), (mc_mem s2), (mc_mem s3), a1, a2, a3. unfold readLog, l'. rewrite El. split_and!; [done..|]. by rewrite Hl.
Qed.

Lemma orNone_ok {A B} (m : M (Machine F) (option A)) (k : A -> M (Machine F) (option B)) s r s' :
  orNone m k s = (Ok r, s') ->
  (m s = (Ok None, s') /\ r = None) \/ exists a s1, m s = (Ok (Some a), s1) /\ k a s1 = (Ok r, s').
Proof. unfold orNone. intros ([a|] & s1 & Hm & Hk)%bind_ok; [right; by exists a, s1|left]. by apply ret_ok in Hk as [-> ->]. Qed.

(** Two handles closed on the way out. *)
Lemma closeBoth_ok file root s0 s l o s' :
  holding [file; root] s0 s l -> file <> 0 -> root <> 0 ->
  (closeFile file ;;; closeFile root ;;; ret (@None (list byte))) s = (Ok o, s') ->
  o = None /\ exists l', holding [] s0 s' (l ++ l').
Proof.
  intros Hh Hf Hr ([] & s1 & Hc & Hk)%bind_ok. eapply closeFile_ok in Hc as [a Hc]; [|exact Hh|done].
  apply bind_ok in Hk as ([] & s2 & Hk & [-> ->]%ret_ok). eapply closeFile_ok in Hk as [a2 Hk]; [|exact Hc|done].
  rewrite <- app_assoc in Hk. split; [done|by eexists].
Qed.

Lemma readFrom_ok root fp s0 s l o s' :
  holding [root] s0 s l -> root <> 0 -> readFrom pInfo pBuf heapMax root fp s = (Ok o, s') ->
  exists l', holding [] s0 s' (l ++ l') /\ forall pe, o = Some pe ->
    exists path, buildPath16 (mc_mem s) fp = Ok path /\ path <> [] /\ completeRead root path (mc_mem s) l' (mc_mem s') pe.
Proof.
  intros Hh Hr (path & s1 & Hp & Hk)%bind_ok. injection Hp as Hp <-.
  assert (forall s l, holding [root] s0 s l -> (closeFile root ;;; ret (@None (list byte))) s = (Ok o, s') ->
    o = None /\ exists l', holding [] s0 s' (l ++ l')) as Hclose.
  { intros s2 l2 H2 ([] & s3 & Hc & [-> ->]%ret_ok)%bind_ok. eapply closeFile_ok in Hc as [a Hc]; [|exact H2|done]. split; [done|by eexists]. }
  case_bool_decide as Hpath; [eapply Hclose in Hk as (-> & l' & H'); [by exists l'|exact Hh]|]. apply bind_ok in Hk as (f & s1 & Hf & Hk).
  eapply opens_ok in Hf as (aF & H1 & Hans); [|exact Hh|done]. destruct f as [file|].
  2: { eapply Hclose in Hk as (-> & l2 & H2); [|exact H1]. rewrite <- app_assoc in H2. by eexists. }
  specialize (Hans file eq_refl). assert (file <> 0) as Hfile by apply Hans.
  apply bind_ok in Hk as (size & s2 & Hsz & Hk). eapply getFileSize_ok in Hsz as (l2 & H2 & Hask & Hpos); [|exact H1].
  rewrite <- app_assoc in H2. destruct size as [size|]; [destruct (Z.eqb_spec size 0)|];
    try (eapply closeBoth_ok in Hk as (-> & l3 & H3); [|exact H2|done..]; rewrite <- app_assoc in H3; by eexists).
  eapply slurp_ok in Hk as (l3 & H3 & H4); [|exact H2|done|done|by apply Hpos]. rewrite <- !app_assoc in H3. eexists. split; [exact H3|].
  intros pe (m1 & m2 & m3 & a1 & a2 & a3 & -> & Hrest)%H4. exists path. split_and!; [done..|]. by exists file, aF, l2, m1, m2, m3, a1, a2, a3.
Qed.

(** The reading of the program's own file: the loaded-image structure of its handle
    names, at offsets 24 and 32, a device and a path; the volume of that device is
    opened, and the path that is read completely from its root directory is the text
    of the device path. *)
Definition ownFile (image : Z) (l : bootLog) (m : memory) (pe : list byte) : Prop :=
  exists li dev fp sfs root path rest m1 m2 m3 m4 a1 a2 a3,
    l = [(bsHandleProtocol image EFILoadedImageProtocolGUID, m1, a1); (bsHandleProtocol dev EFISimpleFileSystemProtocolGUID, m2, a2);
         (bsProtocol sfs 8 [] [], m3, a3)] ++ rest /\
    answered a1 li /\ loadU64 m2 (li + 24) = Ok dev /\ loadU64 m2 (li + 32) = Ok fp /\ dev <> 0 /\ fp <> 0 /\
    answered a2 sfs /\ answered a3 root /\
    buildPath16 m4 fp = Ok path /\ path <> [] /\
    (forall ns, Forall walkable ns -> (length ns < 32)%nat -> 0 < fp -> holds m4 fp (encPath ns) ->
       path = concat (nodeText <$> ns) ++ [0]) /\
    completeRead root path m4 rest m pe.

(** Whatever happens, readOwnFile leaves no handle open; the bytes it returns are
    those of its own file, completely read. *)
Lemma readOwnFile_ok s o s' :
  readOwnFile pInfo pBuf heapMax s = (Ok o, s') ->
  exists l, holding [] s s' l /\ forall pe, o = Some pe -> ownFile (mc_image s) l (mc_mem s') pe.
Proof.
  unfold readOwnFile. intros (image & s1 & [= <- <-] & Hk)%bind_ok. pose proof (holding_refl s) as Hh.
  apply orNone_ok in Hk as [[Hk ->]|(li & s1 & Hli & Hk)]; [destruct (holding_atMost _ _ _ _ _ _ _ _ (HandleProtocol_once _ _) Hh Hk) as [l' Hl]; by eexists|].
  apply HandleProtocol_some in Hli as (a1 & Hli & Hans1). eapply holding_other in Hli as H1; [|exact Hh|done..]. cbn [app] in H1. clear Hh.
  apply bind_ok in Hk as (dev & s2 & Hr & Hk). injection Hr as Hdev <-. apply bind_ok in Hk as (fp & s2 & Hr & Hk). injection Hr as Hfp <-.
  destruct (_ || _) eqn:Ez; [apply ret_ok in Hk as [-> ->]; by eexists|].
  apply orNone_ok in Hk as [[Hk ->]|(sfs & s2 & Hsfs & Hk)]; [destruct (holding_atMost _ _ _ _ _ _ _ _ (HandleProtocol_once _ _) H1 Hk) as [l' Hl]; by eexists|].
  apply HandleProtocol_some in Hsfs as (a2 & Hsfs & Hans2). eapply holding_other in Hsfs as H2; [|exact H1|done..]. cbn [app] in H2. clear H1.
  apply orNone_ok in Hk as [[Hk ->]|(root & s3 & Ho & Hk)]; [eapply opens_ok in Hk as (a3 & H3 & _); [by eexists|exact H2|done]|].
  eapply opens_ok in Ho as (a3 & H3 & Hans3); [|exact H2|done]. specialize (Hans3 root eq_refl). cbn [app] in H3.
  eapply readFrom_ok in Hk as (l4 & H4 & H5); [|exact H3|apply Hans3]. eexists. split; [exact H4|].
  intros pe (path & Hpath & Hne & Hread)%H5. exists li, dev, fp, sfs, root, path, l4, (mc_mem s), (mc_mem s1), (mc_mem s2), (mc_mem s3), a1, a2, a3.
  split; [reflexivity|]. split_and!; try done; [lia..|]. intros ns Hns Hlen Hpos Hholds. rewrite (build_path_spec _ _ ns) in Hpath by done.
  injection Hpath as <-. by destruct (concat _).
Qed.
End steps.

(** ** What is started *)

Section started.
Context {F : Type} `{Firmware F}.
Variable flate : list byte -> list byte * bool.
Variable lz4 : list byte -> Z -> option (list byte).
Variable lzfse : list byte -> option (list byte).
Variables pInfo pBuf heapMax : Z.
Implicit Types s : Machine F.

(** The last calls of a stub that starts its image: pages for it, the image loaded
    from the bytes in them, and the start. *)
Definition startLog (image pages : Z) (img : list byte) (mA mL mS : memory) (aA aL aS : bootAnswer) : bootLog :=
  [(bsAllocatePages EFIAllocateAnyPages efiLoaderCode pages 0, mA, aA); (bsLoadImage 0 image [] img, mL, aL);
   (bsStartImage (ba_out aL), mS, aS)].

(** All the calls of a stub that starts its image.  The file is read; it declares
    [size] bytes at [off] that decode to an image of [n]; pages for [n] bytes are
    granted, which leaves the memory [mD]; what the buffer of the file holds there at
    [off] is decoded, and that image is all that is written before it is loaded, out
    of the pages.  In a file below 4 GiB it is the payload of the first section of
    the name, as it was read if the firmware left the buffer alone. *)
Definition startsPayload (image st : Z) (l : bootLog) : Prop :=
  exists rd pe algo off size n compressed img mA mD mL mS aA aL aS f f',
    l = rd ++ startLog image ((n + 4095) / 4096) img mA mL mS aA aL aS /\
    ownFile pBuf image rd mA pe /\ stubHeader pe = Ok (Some (algo, off, size, n)) /\
    fwStep (bsAllocatePages EFIAllocateAnyPages efiLoaderCode ((n + 4095) / 4096) 0) mA f = (aA, mD, f') /\
    ba_status aA = efiSuccess /\ ba_out aA <> 0 /\
    loadBytes mD (pBuf + off) (Z.to_nat size) = Ok compressed /\
    decodesTo flate lz4 lzfse algo compressed n img /\ storeBytes mD (ba_out aA) img = Ok mL /\
    loadBytes mL (ba_out aA) (length img) = Ok img /\
    ba_status aL = efiSuccess /\ st = ba_status aS /\
    (len pe < 2 ^ 32 -> payloadAt pe algo off size n /\
       (loadBytes mD pBuf (length pe) = Ok pe -> compressed = bytesAt pe off size)).

Lemma LoadImage_call src s h s' :
  LoadImage src s = (Ok h, s') ->
  mc_bs s <> 0 /\ exists a, efiCall (bsLoadImage 0 (mc_image s) [] src) s = (Ok a, s') /\ ba_status a = efiSuccess /\ ba_out a = h.
Proof.
  unfold LoadImage. intros [_ ([] & s0 & [-> Hbs]%needBootServices_ok & Hk)%bind_ok]%guard_ok. split; [done|].
  apply bind_ok in Hk as (image & s1 & [= <- <-] & [_ (a & s2 & Ha & Hk)%bind_ok]%guard_ok).
  apply bind_ok in Hk as ([] & s3 & [Hst ->]%success_ok & [-> ->]%ret_ok). by exists a.
Qed.

(** The page count wraps to zero only, for which AllocatePages answers the null
    address: such a payload is refused. *)
Lemma wrapped_size_refused n s :
  2 ^ 64 - efiPageSize < n < 2 ^ 64 ->
  fst (nonZero (AllocatePages efiLoaderCode (u64 (n + efiPageSize - 1) / efiPageSize)) s) = Ok None.
Proof.
  intros Hn. unfold efiPageSize in *. replace (u64 (n + 4096 - 1) / 4096) with 0.
  - unfold nonZero, AllocatePages, needBootServices. mrun. by destruct (mc_bs s =? 0).
  - unfold u64. rewrite <- (Zmod_unique (n + 4096 - 1) (2 ^ 64) 1 (n + 4095 - 2 ^ 64)) by lia. rewrite Z.div_small by lia. done.
Qed.

Lemma stubHeader_size pe algo off size n : stubHeader pe = Ok (Some (algo, off, size, n)) -> 0 < n < 2 ^ 64.
Proof.
  unfold stubHeader. destruct (findPayloadOnDisk pe) as [[[start payload]|]|er|]; [|done..]. cbn [out_bind]. destruct (_ <? _); [done|].
  destruct (slice payload 0 4); [|done..]. cbn [out_bind]. destruct (negb _); [done|]. destruct (slice payload 4 8); [|done..]. cbn [out_bind].
  destruct (negb _); [done|]. destruct (slice payload 8 16) as [u|er|] eqn:Eu; [|done..]. cbn [out_bind]. apply len_slice in Eu.
  destruct (leU64_ok u) as (v & -> & Hv); [lia|]. cbn [out_bind]. destruct (slice payload 16 24); [|done..]. cbn [out_bind].
  destruct (leU64 _); [|done..]. cbn [out_bind]. destruct (_ <? _); [done|]. destruct (Z.eqb_spec v 0); [done|].
  destruct (slice _ _ _); [|done..]. intros [= _ _ _ <-]. lia.
Qed.

(** A slice of the buffer is a range of its bytes. *)
Lemma loadBytes_app m a : forall p b, loadBytes m p (a + b) =
  (let* x := loadBytes m p a in let* y := loadBytes m (p + Z.of_nat a) b in Ok (x ++ y)).
Proof.
  induction a as [|a IH]; intros p b.
  - cbn [Nat.add loadBytes out_bind]. rewrite Z.add_0_r. by destruct (loadBytes m p b).
  - cbn [Nat.add loadBytes]. destruct (load _ _) as [x|er|]; cbn [out_bind]; [|done..]. rewrite IH. replace (p + Z.of_nat (S a)) with (p + 1 + Z.of_nat a) by lia.
    destruct (loadBytes m (p + 1) a) as [xs|er|]; cbn [out_bind]; [|done..]. by destruct (loadBytes _ _ b).
Qed.
Lemma loadBytes_range m p bs off size c :
  loadBytes m p (length bs) = Ok bs -> 0 <= off -> 0 <= size -> off + size <= len bs ->
  loadBytes m (p + off) (Z.to_nat size) = Ok c -> c = bytesAt bs off size.
Proof.
  intros Hb Ho Hs Hl Hc. assert (length bs = Z.to_nat off + (Z.to_nat size + (length bs - Z.to_nat off - Z.to_nat size)))%nat as El by (unfold len in Hl; lia).
  rewrite El in Hb. rewrite loadBytes_app in Hb.
  destruct (loadBytes m p _) as [hd|er|] eqn:Eh; [|done..]. cbn [out_bind] in Hb. rewrite loadBytes_app, Z2Nat.id, Hc in Hb by done. cbn [out_bind] in Hb.
  destruct (loadBytes m (_ + _) _) as [r|er|]; [|done..]. cbn [out_bind] in Hb. injection Hb as <-. unfold bytesAt.
  rewrite drop_app_length' by by erewrite loadBytes_length. by rewrite take_app_length' by by erewrite loadBytes_length.
Qed.

(** The pages asked for are those of the image. *)
Lemma pages_of n : 0 < n -> n < 2 ^ 63 -> u64 (n + efiPageSize - 1) / efiPageSize = (n + 4095) / 4096.
Proof. intros H0 Hn. unfold u64, efiPageSize. rewrite Z.mod_small by lia. f_equal. lia. Qed.
Lemma s64_nonneg n : 0 < n < 2 ^ 64 -> 0 <= s64 n -> s64 n = n /\ n < 2 ^ 63.
Proof. unfold s64. intros. Z.to_euclidean_division_equations; lia. Qed.

(** What [run] does with the file: it starts its payload, or makes calls that start
    nothing. *)
Lemma run_ok s st s' :
  run flate lz4 lzfse pInfo pBuf heapMax s = (Ok st, s') ->
  mc_image s' = mc_image s /\ mc_bs s' = mc_bs s /\
  exists l, mc_calls s' = mc_calls s ++ l /\ opened l ≡ₚ closed l /\
    ((st = stubAborted /\ startless l) \/ startsPayload (mc_image s) st l).
Proof.
  unfold run. intros (o & s1 & Hr & Hk)%bind_ok. apply readOwnFile_ok in Hr as (l & Hl & Hpe).
  assert (forall s2 l2, holding [] s s2 l2 -> @ret (Machine F) Z stubAborted s2 = (Ok st, s') ->
    mc_image s' = mc_image s /\ mc_bs s' = mc_bs s /\ exists l, mc_calls s' = mc_calls s ++ l /\ opened l ≡ₚ closed l /\
    ((st = stubAborted /\ startless l) \/ startsPayload (mc_image s) st l)) as Habort.
  { intros s2 l2 (H1 & H2 & H3 & H4 & H5) [-> ->]%ret_ok. split; [done|]. split; [done|]. exists l2. split_and!; [done..|]. by left. }
  destruct o as [pe|]; [|by eapply Habort]. specialize (Hpe pe eq_refl).
  apply bind_ok in Hk as (h & s2 & [Hh ->]%lift_ok & Hk). destruct h as [[[[algo off] size] n]|]; [|by eapply Habort]. cbv zeta in Hk.
  apply bind_ok in Hk as (o & s2 & Ha & Hk). destruct o as [addr|].
  2: { destruct (holding_atMost _ _ _ _ _ _ _ _ (AllocatePages_once _ _) Hl Ha) as [l' Hl']. by eapply Habort. }
  apply AllocatePages_some in Ha as (aA & Ha & (HaA & <- & Haddr) & _). pose proof (holding_other _ _ _ _ _ _ _ Hl Ha eq_refl eq_refl eq_refl) as HA.
  apply bind_ok in Hk as ([] & s3 & [Hu ->]%lift_ok & Hk). apply bind_ok in Hk as (ok & s3 & Hd & Hk).
  unfold unsafeSlice in Hu. destruct ((s64 n <? 0) || _) eqn:Eu; [done|]. pose proof (stubHeader_size _ _ _ _ _ Hh) as Hn.
  destruct (s64_nonneg n Hn) as [En Hn63]; [lia|]. rewrite En in *. rewrite pages_of in * by lia.
  apply decodeInto_ok in Hd as (m & -> & Hd). destruct ok; cbn [negb] in Hk; [|by eapply Habort; [apply (holding_write _ _ _ _ m HA)|]].
  destruct (Hd eq_refl) as (compressed & img & Hcomp & Hdec & Hstore). clear Hd. pose proof (proj1 Hdec) as Hlen.
  assert (loadBytes m (ba_out aA) (length img) = Ok img) as Hload by (eapply storeBytes_back; [exact Hstore|lia]).
  apply bind_ok in Hk as (dst & s3 & Hdst & Hk). injection Hdst as Hdst <-. cbn [withMem mc_mem] in Hdst.
  assert (Z.to_nat n = length img) as Enat by (unfold len in Hlen; lia). rewrite Enat, Hload in Hdst. injection Hdst as <-.
  apply (holding_write _ _ _ _ m) in HA. apply bind_ok in Hk as (c & s3 & Hc & Hk). destruct c as [child|er].
  2: { destruct (holding_atMost _ _ _ _ _ _ _ _ (LoadImage_once img) HA Hc) as [l' Hl']. by eapply Habort. }
  unfold try in Hc. destruct (LoadImage img _) as [[c|er|] s4] eqn:El; [|done..]. injection Hc as -> ->.
  apply LoadImage_call in El as (Hbs & aL & HL & HaL & <-). pose proof (holding_other _ _ _ _ _ _ _ HA HL eq_refl eq_refl eq_refl) as Hl2.
  apply bind_ok in Hk as (r & s5 & Hst & [-> ->]%ret_ok). destruct Hl2 as (Hc2 & Hn2 & Hb2 & Hi2 & Hbs2). destruct HA as (_ & _ & _ & HiA & HbA).
  unfold StartImage in Hst. apply bind_ok in Hst as (bs & s6 & [= <- <-] & Hst). rewrite (proj2 (Z.eqb_neq (mc_bs s3) 0)) in Hst by (cbn [withMem mc_bs] in *; congruence).
  apply bind_ok in Hst as (aS & s6 & HS & [-> ->]%ret_ok). cbn [fst]. pose proof HS as HS'. unfold efiCall in HS'.
  destruct (fwStep _ _ _) as [[aS' mS] fS] eqn:E. injection HS' as -> <-. cbn [mc_calls mc_image mc_bs]. split; [done|]. split; [done|].
  eexists. split; [rewrite Hc2, <- app_assoc; reflexivity|]. split.
  { unfold opened, closed in *. rewrite !bind_app in *. cbn in *. rewrite !app_nil_r in *. exact Hb2. }
  right. unfold efiCall in Ha. destruct (fwStep _ (mc_mem s1) (mc_fw s1)) as [[aA' mD] f'] eqn:EA. injection Ha as -> <-. cbn [mc_mem] in *.
  exists l, pe, algo, off, size, n, compressed, img, (mc_mem s1), mD, m, (mc_mem s3), aA, aL, aS, (mc_fw s1), f'.
  rewrite HiA, <- !app_assoc. split_and!; try done. intros Hsmall. pose proof (packed_header_safe pe Hsmall) as Hsafe. rewrite Hh in Hsafe.
  destruct Hsafe as (Hat & _ & Ho & Hsz & Hfit). split; [done|]. intros Hsame. by eapply loadBytes_range.
Qed.

End started.


(** ** A firmware for demonstrations *)

(** The image handle 1 has its loaded-image structure at 0x1000; its device, 5,
    has the volume at 0x4000, whose root directory is 7 and the stub's file 9; there
    is one allocation of pages, at 1 MiB. *)
Definition demoFile : list byte := demoPE (demoPayload 6 (str "abc")).
Definition demoAnswer (out : Z) : bootAnswer := mkBootAnswer efiSuccess out 0.
Definition demoInfo : list byte := le64 82 ++ le64 (len demoFile) ++ make 66.
#[local] Instance stub_firmware : Firmware unit := {
  fwStep c m f :=
    match c with
    | bsHandleProtocol 1 _ => (demoAnswer 0x1000, m, f)
    | bsHandleProtocol 5 _ => (demoAnswer 0x4000, m, f)
    | bsProtocol 0x4000 8 _ _ => (demoAnswer 7, m, f)
    | bsProtocol 7 8 path _ => if bool_decide (path = [92; 65; 92; 66; 0]) then (demoAnswer 9, m, f) else (mkBootAnswer efiNotFound 0 0, m, f)
    | bsProtocol 9 64 _ [0; 0] => (mkBootAnswer 0x8000000000000005 82 0, m, f)
    | bsProtocol 9 64 _ [_; p] => (demoAnswer 82, allocAt m p demoInfo, f)
    | bsProtocol 9 32 _ [n; p] => (demoAnswer n, allocAt m p demoFile, f)
    | bsAllocatePages _ _ n _ => (demoAnswer toyBase, allocAt m toyBase (make (n * EfiPageSize)), f)
    | bsLoadImage _ _ _ _ => (demoAnswer 2, m, f)
    | _ => (demoAnswer 0, m, f)
    end
}.

(** The device path of the file: a node for [\A], one for [\B], zero-terminated, and
    the end. *)
Definition demoPath : list byte :=
  [x04; x04; x08; x00; x5c; x00; x41; x00] ++ [x04; x04; x0a; x00; x5c; x00; x42; x00; x00; x00] ++ [x7f; xff; x04; x00].
Definition stubMachine : Machine unit :=
  mkMachine tt (allocAt (allocAt ∅ 0x1000 (make 24 ++ le64 5 ++ le64 0x3000 ++ make 56)) 0x3000 demoPath) 1 1 [].
Definition twiceFlate (b : list byte) : list byte * bool := (concat ((fun c => [c; c]) <$> b), true).

Definition twiceLZ4 (b : list byte) (n : Z) : option (list byte) := twice b.

