(* ===== verification/BlkProbe.v ===== *)
(** * The log on a scratch disk

    src/phase2_blkprintk.go, with the wrappers of EFI_BLOCK_IO_PROTOCOL
    (uefiboard/block_io_protocol_tamago.go) and printk (uefiboard/board.go): the
    disk that carries the marker of a scratch disk is found among the firmware's
    block devices, and from then on what is printed is kept in the ring of BlkRing.v
    and flushed to it.  What the probes between setup and teardown print is an
    argument, as is the address of the block that Go allocates. *)

From S2P Require Import Prelude Effects GoStr LittleEndian MemMap Memory BootServices BlkRing BlockIO LoadSfs.

Definition blkIOMediaOffset : Z := 8.
Definition blkIOReadBlocksOffset : Z := 24.
Definition blkIOWriteBlocksOffset : Z := 32.
Definition blkIOFlushBlocksOffset : Z := 40.
Definition efiBlockIOMediaSize : nat := 48.
Definition efiOutputString : Z := 8.
Definition blkPrintkLBA : Z := 0.

(** ** The protocol *)

(** The fields of EFI_BLOCK_IO_MEDIA that are read. *)
Definition mediaFrom (b : list byte) : out EFIBlockIOMedia :=
  let* id := slice b 0 4 in let* id := leU32 id in
  let* present := idx b 5 in
  let* partition := idx b 6 in
  let* readOnly := idx b 7 in
  let* bs := slice b 12 16 in let* bs := leU32 bs in
  let* lb := slice b 24 32 in let* lb := leU64 lb in
  Ok (mkMedia id present partition readOnly bs lb).

Section protocol.
Context {F : Type} `{Firmware F}.
Notation FwM := (M (Machine F)).

Definition BlockIOMedia (blockIO : Z) : FwM (option EFIBlockIOMedia) :=
  if blockIO =? 0 then ret None
  else
    mediaPtr <- readMem (fun m => loadU64 m (blockIO + blkIOMediaOffset)) ;;
    if mediaPtr =? 0 then ret None
    else media <- readMem (fun m => let* b := loadBytes m mediaPtr efiBlockIOMediaSize in mediaFrom b) ;; ret (Some media).

(** Into the [n] bytes at [p]. *)
Definition BlockIOReadBlocks (blockIO mediaID lba p n : Z) : FwM unit :=
  throw_if blockIO =? 0 with ErrNoBootServices;;
  if n =? 0 then ret tt
  else a <- efiCall (bsProtocol blockIO blkIOReadBlocksOffset [] [mediaID; lba; n; p]) ;; success a.

Definition blockIOWrite (blockIO mediaID lba : Z) (buf : list byte) : FwM unit :=
  throw_if blockIO =? 0 with ErrNoBootServices;;
  if len buf =? 0 then ret tt
  else a <- efiCall (bsProtocol blockIO blkIOWriteBlocksOffset (b2z <$> buf) [mediaID; lba; len buf]) ;; success a.

Definition blockIOFlush (blockIO : Z) : FwM unit :=
  throw_if blockIO =? 0 with ErrNoBootServices;;
  a <- efiCall (bsProtocol blockIO blkIOFlushBlocksOffset [] []) ;; success a.
End protocol.

(** The ring's device is the firmware's. *)
#[global] Instance machine_dev {F} `{Firmware F} : BlockDev (Machine F) := {
  BlockIOWriteBlocks := blockIOWrite;
  BlockIOFlushBlocks := blockIOFlush
}.

(** ** Setup, print and teardown *)

Definition matchesScratchMagic (buf : list byte) : bool :=
  if len buf <? len BlkPrintkScratchMagic then false else bool_decide (take 16 buf = BlkPrintkScratchMagic).

Section program.
Context {F : Type} `{Firmware F}.
Notation FwM := (M (Machine F)).
Variables pBlock heapMax conOut : Z.

(** The ring bound to a handle, or [None] where the source goes on with the next. *)
Definition tryDisk (h : Z) : FwM (option BlkRingBuffer) :=
  iface <- try (HandleProtocol h EFIBlockIOProtocolGUID) ;;
  match iface with
  | inr _ => ret None
  | inl iface =>
      media <- BlockIOMedia iface ;;
      match media with
      | None => ret None
      | Some media =>
          if MediaPresent media =? 0 then ret None
          else if negb (ReadOnly media =? 0) then ret None
          else if negb (LogicalPartition media =? 0) then ret None
          else if BlockSize media =? 0 then ret None
          else
            goMake heapMax pBlock (BlockSize media) ;;;
            r <- try (BlockIOReadBlocks iface (MediaId media) blkPrintkLBA pBlock (BlockSize media)) ;;
            match r with
            | inr _ => ret None
            | inl _ =>
                blockBuf <- readMem (fun m => loadBytes m pBlock (Z.to_nat (BlockSize media))) ;;
                if negb (matchesScratchMagic blockBuf) then ret None
                else
                  ring <- try (lift (BindBlockIO iface (MediaId media) (BlockSize media) blkPrintkLBA NewBlkRingBuffer)) ;;
                  ret (match ring with inl ring => Some ring | inr _ => None end)
            end
      end
  end.

Fixpoint diskAmong (handles : list Z) : FwM (option BlkRingBuffer) :=
  match handles with
  | [] => ret None
  | h :: r => d <- tryDisk h ;; match d with Some ring => ret (Some ring) | None => diskAmong r end
  end.

(** uefiboard.BlkSink after setup. *)
Definition runBlkPrintkSetup : FwM (option BlkRingBuffer) :=
  handles <- try (LocateHandleBuffer EFIBlockIOProtocolGUID) ;;
  match handles with inr _ => ret None | inl handles => diskAmong handles end.

(** The sink and the machine. *)
Definition sinkState : Type := option BlkRingBuffer * Machine F.
Definition onMachine {A} (m : FwM A) : M sinkState A := zoom snd (fun mc s => (fst s, mc)) m.
(** An operation of the sink; nothing when there is none. *)
Definition onSink (m : M (BlkRingBuffer * Machine F) unit) : M sinkState unit := fun s =>
  match fst s with
  | None => (Ok tt, s)
  | Some r => let '(o, (r', mc)) := m (r, snd s) in (o, (Some r', mc))
  end.

Definition outChar (c : byte) : FwM unit := efiCall (bsProtocol conOut efiOutputString [b2z c; 0] []) ;;; ret tt.
Definition printk (c : byte) : M sinkState unit :=
  onSink (BlkPrintk c) ;;;
  if conOut =? 0 then ret tt
  else onMachine (outChar c) ;;; if decide (c = x0a) then onMachine (outChar x0d) else ret tt.
Fixpoint println (s : list byte) : M sinkState unit := match s with [] => ret tt | c :: s => printk c ;;; println s end.

(** The sentinel, and one flush more; without a sink there is nothing to do. *)
Definition runBlkPrintkTeardown : M sinkState unit :=
  sink <- gets fst ;;
  match sink with
  | None => ret tt
  | Some _ => onSink (BlkPrintk BlkSentinel) ;;; ignore (onSink Flush)
  end.

(** What a build with the log does: setup, the prints of everything that runs, and
    teardown with what it prints. *)
Definition blkProgram (text bye : list byte) : M sinkState unit :=
  sink <- onMachine runBlkPrintkSetup ;;
  modify (fun s => (sink, snd s)) ;;;
  println text ;;;
  runBlkPrintkTeardown ;;;
  println bye.
End program.

(** ** What is written where *)

Definition isDiskWrite (c : bootCall) : bool := match c with bsProtocol _ slot _ _ => slot =? blkIOWriteBlocksOffset | _ => false end.
Definition writeless (l : list (bootCall * memory * bootAnswer)) : Prop := Forall (fun e => isDiskWrite e.1.1 = false) l.

(** The disk a ring is bound to, and the writes of a frame to it. *)
Definition target (r : BlkRingBuffer) : Z * Z * Z := (r_blockIO r, r_mediaID r, r_lba r).
Definition frameWrite (t : Z * Z * Z) (c : bootCall) : Prop :=
  exists frame, len frame = BlkRingCapacity /\
    c = bsProtocol t.1.1 blkIOWriteBlocksOffset (b2z <$> frame) [t.1.2; t.2; BlkRingCapacity].
Definition framesOnly (t : option (Z * Z * Z)) (l : list (bootCall * memory * bootAnswer)) : Prop :=
  Forall (fun e => isDiskWrite e.1.1 = false \/ exists t', t = Some t' /\ frameWrite t' e.1.1) l.

#[local] Hint Extern 0 (framesOnly _ []) => apply Forall_nil_2 : core.
#[local] Hint Extern 0 (writeless []) => apply Forall_nil_2 : core.

Section written.
Context {F : Type} `{Firmware F}.
Implicit Types mc : Machine F.

(** A step of the ring's, and of the program's: the disk stays the same, and
    only frames are written, to it. *)
Definition ringStep (s s' : BlkRingBuffer * Machine F) : Prop :=
  target (fst s') = target (fst s) /\
  exists l, mc_calls (snd s') = mc_calls (snd s) ++ l /\ framesOnly (Some (target (fst s))) l.
Definition sinkStep (s s' : @sinkState F) : Prop :=
  target <$> fst s' = target <$> fst s /\
  exists l, mc_calls (snd s') = mc_calls (snd s) ++ l /\ framesOnly (target <$> fst s) l.

#[local] Instance ringStep_preorder : PreOrder ringStep.
Proof.
  split; [intros s; split; [done|]; exists []; rewrite app_nil_r; by split|]. intros a b c [T1 (l1 & E1 & F1)] [T2 (l2 & E2 & F2)].
  split; [congruence|]. exists (l1 ++ l2). rewrite E2, E1, app_assoc. split; [done|]. apply Forall_app. split; [done|]. by rewrite <- T1.
Qed.
#[export] Instance sinkStep_preorder : PreOrder sinkStep.
Proof.
  split; [intros s; split; [done|]; exists []; rewrite app_nil_r; by split|]. intros a b c [T1 (l1 & E1 & F1)] [T2 (l2 & E2 & F2)].
  split; [congruence|]. exists (l1 ++ l2). rewrite E2, E1, app_assoc. split; [done|]. apply Forall_app. split; [done|]. by rewrite <- T1.
Qed.

Lemma copyAt_len b lo hi src b' : copyAt b lo hi src = Ok b' -> len b' = len b.
Proof.
  unfold copyAt. destruct (slice b lo hi) as [d|e|] eqn:E; [|done..]. intros [= <-]. pose proof (len_slice _ _ _ _ E) as Hd. apply slice_inv in E as (? & ? & _).
  assert (len (copy d src) = len d) as Hc by (unfold copy, len; rewrite length_app, length_take, length_drop; lia).
  rewrite !len_app, Hc, len_take, len_drop. lia.
Qed.
Lemma putLE64At_len b lo v b' : putLE64At b lo v = Ok b' -> len b' = len b.
Proof. unfold putLE64At. destruct (slice _ _ _); [|done..]. cbn [out_bind]. destruct (putLE64 _ _); [|done..]. apply copyAt_len. Qed.

Lemma Serialize_len r frame : Serialize r = Ok frame -> len frame = BlkRingCapacity.
Proof.
  unfold Serialize. assert (len (make BlkRingCapacity) = BlkRingCapacity) as Hm by (rewrite len_make; done).
  revert Hm. generalize (make BlkRingCapacity). intros b0 Hm.
  destruct (putLE64At b0 0 _) as [b1|e|] eqn:E1; [|done..]. cbn [out_bind]. destruct (PayloadBytes r) as [p|e|]; [|done..]. cbn [out_bind].
  destruct (putLE64At b1 8 _) as [b2|e|] eqn:E2; [|done..]. cbn [out_bind]. intros E3.
  by rewrite (copyAt_len _ _ _ _ _ E3), (putLE64At_len _ _ _ _ E2), (putLE64At_len _ _ _ _ E1).
Qed.

(** One call of a wrapper, of the kind allowed. *)
Lemma efiCall_log c mc a mc' : efiCall c mc = (a, mc') -> exists a', a = Ok a' /\ mc_calls mc' = mc_calls mc ++ [(c, mc_mem mc, a')].
Proof. unfold efiCall. destruct (fwStep _ _ _) as [[a' m] f]. intros [= <- <-]. by exists a'. Qed.

Lemma blockIOWrite_log io id lba frame mc :
  exists l, mc_calls (snd (blockIOWrite io id lba frame mc)) = mc_calls mc ++ l /\
    (len frame = BlkRingCapacity -> framesOnly (Some (io, id, lba)) l).
Proof.
  unfold blockIOWrite. destruct (io =? 0); [exists []; rewrite app_nil_r; by split|]. destruct (len frame =? 0); [exists []; rewrite app_nil_r; by split|].
  unfold bind. destruct (efiCall _ mc) as [o mc1] eqn:E. apply efiCall_log in E as (a & -> & Hc). unfold success.
  exists [(bsProtocol io blkIOWriteBlocksOffset (b2z <$> frame) [id; lba; len frame], mc_mem mc, a)]. split; [by destruct (negb _)|].
  intros Hl. constructor; [|done]. right. exists (io, id, lba). split; [done|]. exists frame. split; [done|]. cbn [fst snd]. by rewrite Hl.
Qed.
Lemma blockIOFlush_log io mc : exists l, mc_calls (snd (blockIOFlush io mc)) = mc_calls mc ++ l /\ writeless l.
Proof.
  unfold blockIOFlush. destruct (io =? 0); [exists []; rewrite app_nil_r; by split|]. unfold bind. destruct (efiCall _ mc) as [o mc1] eqn:E.
  apply efiCall_log in E as (a & -> & Hc). unfold success. exists [(bsProtocol io blkIOFlushBlocksOffset [] [], mc_mem mc, a)]. split; [by destruct (negb _)|]. by repeat constructor.
Qed.

Lemma writeless_frames t l : writeless l -> framesOnly t l.
Proof. intros Hl. eapply Forall_impl; [exact Hl|]. intros e He. by left. Qed.

Lemma Flush_step : moves ringStep (Flush (D := Machine F)).
Proof.
  intros [r mc]. unfold Flush, onDev, updRing. mrun. destruct (negb (IsBound r)); cbn [fst snd]; [reflexivity|].
  destruct (Serialize (IncrementWriteCount r)) as [frame|e|] eqn:Es; cbn [fst snd]; [|split; [done|exists []; rewrite app_nil_r; by split]..].
  apply Serialize_len in Es. unfold zoom. cbn [fst snd BlockIOWriteBlocks BlockIOFlushBlocks machine_dev IncrementWriteCount r_blockIO r_mediaID r_lba].
  destruct (blockIOWrite_log (r_blockIO r) (r_mediaID r) (r_lba r) frame mc) as (l1 & H1 & F1). specialize (F1 Es).
  destruct (blockIOWrite _ _ _ _ mc) as [[u|e|] mc1]; cbn [fst snd] in *; [|split; [done|by exists l1]..].
  destruct (blockIOFlush_log (r_blockIO r) mc1) as (l2 & H2 & F2). destruct (blockIOFlush _ mc1) as [[u2|e|] mc2]; cbn [fst snd] in *;
    (split; [done|]; cbn [fst snd]; exists (l1 ++ l2); rewrite H2, H1, app_assoc; split; [done|]; apply Forall_app; split; [done|by apply writeless_frames]).
Qed.

Lemma ignore_Flush_step : moves ringStep (ignore (Flush (D := Machine F))).
Proof. apply moves_ignore; [apply _|exact Flush_step]. Qed.

Lemma BlkPrintk_step b : moves ringStep (BlkPrintk (D := Machine F) b).
Proof.
  intros [r mc]. unfold BlkPrintk, bind at 1 2 3, gets, lift, updRing, modify. cbn [fst snd]. destruct (Append b r) as [r1|e|] eqn:Ea; cbn [fst snd]; [|reflexivity..].
  assert (target r1 = target r) as Ht. { unfold Append in Ea. destruct (setAt _ _ _); [|done..]. by injection Ea as <-. }
  assert (ringStep (r, mc) (r1, mc)) as H1. { split; [done|]. exists []. rewrite app_nil_r. by split. }
  etransitivity; [exact H1|]. destruct (decide _); [apply ignore_Flush_step|]. destruct (AutoFlushReady r1); [apply ignore_Flush_step|reflexivity].
Qed.

Lemma onSink_step m : moves ringStep m -> moves sinkStep (onSink m).
Proof.
  intros Hm [[r|] mc]; unfold onSink; cbn [fst snd]; [|reflexivity]. specialize (Hm (r, mc)). destruct (m (r, mc)) as [o [r' mc']]. cbn [fst snd] in *.
  destruct Hm as [Ht (l & Hc & Hf)]. cbn [fst snd] in *. split; cbn [fst snd fmap option_fmap option_map]; [by rewrite Ht|by exists l].
Qed.

Variable conOut : Z.
Lemma outChar_step c : moves sinkStep (onMachine (outChar conOut c)).
Proof.
  intros [sink mc]. unfold onMachine, outChar, zoom, bind. cbn [fst snd]. destruct (efiCall _ mc) as [o mc1] eqn:E. apply efiCall_log in E as (a & -> & Hc).
  split; [done|]. cbn [fst snd ret]. eexists. split; [exact Hc|]. constructor; [|done]. by left.
Qed.
Lemma printk_step c : moves sinkStep (printk conOut c).
Proof.
  unfold printk. apply moves_bind; [apply _|apply onSink_step, BlkPrintk_step|]. intros _. destruct (conOut =? 0); [apply moves_ret; apply _|].
  apply moves_bind; [apply _|apply outChar_step|]. intros _. destruct (decide _); [apply outChar_step|apply moves_ret; apply _].
Qed.
Lemma println_step s : moves sinkStep (println conOut s).
Proof. induction s as [|c s IH]; [apply moves_ret; apply _|]. apply moves_bind; [apply _|apply printk_step|done]. Qed.
Lemma teardown_step : moves sinkStep runBlkPrintkTeardown.
Proof.
  unfold runBlkPrintkTeardown. apply moves_bind; [apply _|apply moves_gets; apply _|]. intros [r|]; [|apply moves_ret; apply _].
  apply moves_bind; [apply _|apply onSink_step, BlkPrintk_step|]. intros _. apply moves_ignore; [apply _|]. apply onSink_step, Flush_step.
Qed.
End written.

(** ** Setup *)

Section setup.
Context {F : Type} `{Firmware F}.
Variables pBlock heapMax conOut : Z.
Implicit Types mc : Machine F.

(** Calls were made, and none of them writes to a disk. *)
Definition quietStep mc mc' : Prop := exists l, mc_calls mc' = mc_calls mc ++ l /\ writeless l.
#[local] Instance quietStep_preorder : PreOrder quietStep.
Proof.
  split; [intros mc; exists []; rewrite app_nil_r; by split|]. intros a b c (l1 & E1 & F1) (l2 & E2 & F2). exists (l1 ++ l2).
  rewrite E2, E1, app_assoc. split; [done|]. by apply Forall_app.
Qed.

Lemma efiCall_quiet c : isDiskWrite c = false -> moves quietStep (@efiCall F _ c).
Proof. intros Hc mc. destruct (efiCall c mc) as [o mc1] eqn:E. apply efiCall_log in E as (a & _ & E). exists [(c, mc_mem mc, a)]. split; [done|]. by repeat constructor. Qed.
Lemma readMem_quiet {A} (r : memory -> out A) : moves quietStep (@readMem F A r).
Proof. intros mc. reflexivity. Qed.
Lemma goMake_quiet p n : moves quietStep (@goMake F heapMax p n).
Proof. intros mc. unfold goMake. destruct (heapMax <? n); [reflexivity|]. exists []. rewrite app_nil_r. by split. Qed.
#[local] Hint Resolve readMem_quiet goMake_quiet : gomove.
#[local] Hint Extern 1 (moves quietStep (efiCall _)) => (apply efiCall_quiet; reflexivity) : gomove.

Lemma tryDisk_quiet h : moves quietStep (tryDisk pBlock heapMax h).
Proof. unfold tryDisk, HandleProtocol, BlockIOMedia, BlockIOReadBlocks, needBootServices, success. cbv zeta. go_move. Qed.
Lemma locate_quiet g : moves quietStep (@LocateHandleBuffer F _ g).
Proof. unfold LocateHandleBuffer, needBootServices, success. go_move. Qed.
#[local] Hint Resolve tryDisk_quiet locate_quiet : gomove.
Lemma diskAmong_quiet hs : moves quietStep (diskAmong pBlock heapMax hs).
Proof. induction hs as [|h hs IH]; cbn [diskAmong]; go_move. Qed.
#[local] Hint Resolve diskAmong_quiet : gomove.
Lemma setup_quiet : moves quietStep (runBlkPrintkSetup pBlock heapMax).
Proof. unfold runBlkPrintkSetup. go_move. Qed.

(** The disk of a ring is the one whose first block was read into the buffer and
    begins with the marker, and by its media structure, in the memory [m] before
    that, it is present, writable, no partition and of whole blocks. *)
Definition scratchDisk (mc : Machine F) (l : list (bootCall * memory * bootAnswer)) (ring : BlkRingBuffer) : Prop :=
  exists l0 m ptr media a blockBuf,
    l = l0 ++ [(bsProtocol (r_blockIO ring) blkIOReadBlocksOffset [] [r_mediaID ring; 0; BlockSize media; pBlock],
                allocAt m pBlock (make (BlockSize media)), a)] /\
    ba_status a = efiSuccess /\
    loadU64 m (r_blockIO ring + blkIOMediaOffset) = Ok ptr /\ (let* b := loadBytes m ptr efiBlockIOMediaSize in mediaFrom b) = Ok media /\
    MediaPresent media <> 0 /\ ReadOnly media = 0 /\ LogicalPartition media = 0 /\
    BlockSize media <> 0 /\ BlkRingCapacity mod BlockSize media = 0 /\
    loadBytes (mc_mem mc) pBlock (Z.to_nat (BlockSize media)) = Ok blockBuf /\ take 16 blockBuf = BlkPrintkScratchMagic /\
    r_blockIO ring <> 0 /\ r_mediaID ring = MediaId media /\ r_lba ring = 0 /\ r_blockSize ring = BlockSize media.

Lemma tryDisk_ok h mc ring mc' :
  tryDisk pBlock heapMax h mc = (Ok (Some ring), mc') ->
  exists l, mc_calls mc' = mc_calls mc ++ l /\ writeless l /\ scratchDisk mc' l ring.
Proof.
  intros Hr. pose proof (moves_step _ _ _ _ _ Hr (tryDisk_quiet h)) as (l & Hl & Hw). exists l. split; [done|]. split; [done|].
  unfold tryDisk in Hr. apply bind_ok in Hr as (iface & mc1 & Hi & Hr). destruct iface as [iface|e]; [|by apply ret_ok in Hr as [? _]].
  assert (exists l1, mc_calls mc1 = mc_calls mc ++ l1) as [l1 Hl1].
  { assert (moves quietStep (try (@HandleProtocol F _ h EFIBlockIOProtocolGUID))) as Hq by (unfold HandleProtocol, needBootServices, success; go_move).
    destruct (moves_step _ _ _ _ _ Hi Hq) as (l1 & ? & _). by exists l1. }
  clear Hi. apply bind_ok in Hr as (media & mc2 & Hm & Hr). destruct media as [media|]; [|by apply ret_ok in Hr as [? _]].
  unfold BlockIOMedia in Hm. destruct (Z.eqb_spec iface 0) as [|Hif]; [by apply ret_ok in Hm as [? _]|].
  apply bind_ok in Hm as (ptr & mc3 & Hp & Hm). injection Hp as Hp <-. destruct (ptr =? 0); [by apply ret_ok in Hm as [? _]|].
  apply bind_ok in Hm as (media' & mc3 & Hmed & Hm). injection Hmed as Hmed <-. apply ret_ok in Hm as [[= <-] ->].
  destruct (Z.eqb_spec (MediaPresent media) 0) as [|Hpr]; [by apply ret_ok in Hr as [? _]|].
  destruct (Z.eqb_spec (ReadOnly media) 0) as [Hro|]; cbn [negb] in Hr; [|by apply ret_ok in Hr as [? _]].
  destruct (Z.eqb_spec (LogicalPartition media) 0) as [Hlp|]; cbn [negb] in Hr; [|by apply ret_ok in Hr as [? _]].
  destruct (Z.eqb_spec (BlockSize media) 0) as [|Hbs]; [by apply ret_ok in Hr as [? _]|].
  apply bind_ok in Hr as ([] & mc4 & ->%goMake_ok & Hr). apply bind_ok in Hr as (rd & mc5 & Hrd & Hr). destruct rd as [[]|e]; [|by apply ret_ok in Hr as [? _]].
  unfold try in Hrd. destruct (BlockIOReadBlocks _ _ _ _ _ _) as [[[]|e|] mc6] eqn:Er; [|done..]. injection Hrd as ->.
  unfold BlockIOReadBlocks in Er. rewrite (proj2 (Z.eqb_neq iface 0)), (proj2 (Z.eqb_neq (BlockSize media) 0)) in Er by done.
  apply bind_ok in Er as (a & mc7 & Ha & [Hst ->]%success_ok). apply efiCall_log in Ha as (a' & [= <-] & Hc). cbn [withMem mc_calls mc_mem] in Hc.
  apply bind_ok in Hr as (buf & mc8 & Hb & Hr). injection Hb as Hb <-. unfold matchesScratchMagic in Hr.
  destruct (len buf <? _); [by apply ret_ok in Hr as [? _]|]. case_bool_decide as Hmag; cbn [negb] in Hr; [|by apply ret_ok in Hr as [? _]].
  apply bind_ok in Hr as (ring' & mc8 & Hring & Hr). unfold try, lift, BindBlockIO in Hring. rewrite (proj2 (Z.eqb_neq (BlockSize media) 0)) in Hring by done. cbn [orb] in Hring.
  destruct (Z.eqb_spec (BlkRingCapacity mod BlockSize media) 0) as [Hdiv|]; cbn [negb] in Hring; injection Hring as <- <-; apply ret_ok in Hr as [Hr ->]; [|done].
  injection Hr as ->. cbn [r_blockIO r_mediaID r_lba r_blockSize].
  exists l1, (mc_mem mc1), ptr, media, a, buf. split; [|split_and!; done]. rewrite Hl in Hc. rewrite Hl1, <- app_assoc in Hc. by apply app_inv_head in Hc.
Qed.

Lemma diskAmong_ok hs : forall mc ring mc',
  diskAmong pBlock heapMax hs mc = (Ok (Some ring), mc') ->
  exists l, mc_calls mc' = mc_calls mc ++ l /\ writeless l /\ scratchDisk mc' l ring.
Proof.
  induction hs as [|h hs IH]; intros mc ring mc' Hr; cbn [diskAmong] in Hr; [by apply ret_ok in Hr as [? _]|].
  apply bind_ok in Hr as (d & mc1 & Hd & Hr). destruct d as [ring'|]; [apply ret_ok in Hr as [[= ->] ->]; by eapply tryDisk_ok|].
  destruct (moves_step _ _ _ _ _ Hd (tryDisk_quiet h)) as (l1 & E1 & F1). apply IH in Hr as (l2 & E2 & F2 & (l0 & m & ptr & media & a & buf & El & Hrest)).
  exists (l1 ++ l2). split; [by rewrite E2, E1, app_assoc|]. split; [by apply Forall_app|].
  exists (l1 ++ l0), m, ptr, media, a, buf. split; [by rewrite El, app_assoc|done].
Qed.

(** C18. Whatever the firmware answers and the probes print, a disk is written to only if
    its first block, as it was read at setup, begins with the marker of a scratch
    disk and its media is present, writable and not a partition; and all that is
    written are whole frames of 32 KiB at its block 0.  Nothing is written before
    that was read, and no other disk is written to at all. *)
Theorem scratch_disk_only text bye mc s' :
  blkProgram pBlock heapMax conOut text bye (None, mc) = (Ok tt, s') ->
  exists l1 l2, mc_calls (snd s') = mc_calls mc ++ l1 ++ l2 /\ writeless l1 /\
    (writeless l2 \/
     exists ring mc1, runBlkPrintkSetup pBlock heapMax mc = (Ok (Some ring), mc1) /\ mc_calls mc1 = mc_calls mc ++ l1 /\
       scratchDisk mc1 l1 ring /\ framesOnly (Some (target ring)) l2).
Proof.
  unfold blkProgram. intros (sink & s1 & Hset & Hr)%bind_ok. unfold onMachine, zoom in Hset. cbn [fst snd] in Hset.
  destruct (runBlkPrintkSetup pBlock heapMax mc) as [o mc1] eqn:Es. injection Hset as -> <-. pose proof (moves_step _ _ _ _ _ Es setup_quiet) as (l1 & E1 & F1).
  apply bind_ok in Hr as ([] & s2 & Hmod & Hr). unfold modify in Hmod. cbn [fst snd] in Hmod. injection Hmod as <-.
  assert (sinkStep (sink, mc1) s') as [_ (l2 & E2 & F2)].
  { eapply (moves_step _ _ _ _ _ Hr). apply (moves_bind _); [apply println_step|intros []]. apply (moves_bind _); [apply teardown_step|intros []]. apply println_step. }
  cbn [fst snd] in *. destruct sink as [ring|].
  - unfold runBlkPrintkSetup in Es. pose proof Es as Es'. apply bind_ok in Es' as (hs & mc2 & Hl & Hd). destruct hs as [hs|e]; [|by apply ret_ok in Hd as [? _]].
    assert (moves quietStep (try (@LocateHandleBuffer F _ EFIBlockIOProtocolGUID))) as Hq by go_move.
    destruct (moves_step _ _ _ _ _ Hl Hq) as (k1 & K1 & G1). apply diskAmong_ok in Hd as (k2 & K2 & G2 & (l0 & m & ptr & media & a & buf & Ek & Hrest)).
    exists (k1 ++ k2), l2. assert (mc_calls mc1 = mc_calls mc ++ k1 ++ k2) as Ec by (by rewrite K2, K1, app_assoc). split; [by rewrite E2, Ec, <- !app_assoc|].
    split; [by apply Forall_app|]. right. exists ring, mc1. split; [done|]. split; [done|]. split; [|done].
    exists (k1 ++ l0), m, ptr, media, a, buf. split; [by rewrite Ek, app_assoc|done].
  - exists l1, l2. split; [by rewrite E2, E1, app_assoc|]. split; [done|]. left. eapply Forall_impl; [exact F2|]. intros e [?|(t & ? & _)]; done.
Qed.
End setup.

(** ** A firmware for demonstrations *)

(** Handle 1 is a disk of 512-byte blocks with the marker, its media structure at
    0x1000. *)
Definition demoDisk : list byte := BlkPrintkScratchMagic ++ make 496.
Definition demoBlkMem : memory :=
  allocAt (allocAt (allocAt ∅ 0x800 (le64 1)) 0x900 (le64 0x20001 ++ le64 0x1000)) 0x1000
    (le32 7 ++ [x00; x01; x00; x00; x00] ++ make 3 ++ le32 512 ++ le32 0 ++ make 4 ++ le64 99 ++ make 16).
#[local] Instance blk_firmware : Firmware unit := {
  fwStep c m f :=
    match c with
    | bsLocateHandleBuffer _ _ => (mkBootAnswer efiSuccess 0x800 1, m, f)
    | bsHandleProtocol 1 _ => (mkBootAnswer efiSuccess 0x900 0, m, f)
    | bsProtocol 0x900 24 _ [7; 0; 512; p] => (mkBootAnswer efiSuccess 0 0, allocAt m p demoDisk, f)
    | _ => (mkBootAnswer efiSuccess 0 0, m, f)
    end
}.
Definition blkMachine : Machine unit := mkMachine tt demoBlkMem 1 1 [].
Definition demoBlkRun : out unit * sinkState (F := unit) := blkProgram 0x4000 (2 ^ 40) 0 (str "probe") [] (None, blkMachine).

Lemma scratch_disk_only_witness :
  exists s', demoBlkRun = (Ok tt, s') /\
    (fun e => match fst (fst e) with bsProtocol io slot _ _ => Some (io, slot) | _ => None end) <$> mc_calls (snd s') =
      [None; None; Some (0x900, 24); Some (0x900, 32); Some (0x900, 40); Some (0x900, 32); Some (0x900, 40)] /\
    exists l1 l2, mc_calls (snd s') = [] ++ l1 ++ l2 /\ writeless l1 /\
      (writeless l2 \/
       exists ring mc1, runBlkPrintkSetup 0x4000 (2 ^ 40) blkMachine = (Ok (Some ring), mc1) /\ mc_calls mc1 = [] ++ l1 /\
         scratchDisk 0x4000 mc1 l1 ring /\ framesOnly (Some (target ring)) l2).
Proof.
  destruct demoBlkRun as [[[]|er|] s'] eqn:E.
  - exists s'. split; [reflexivity|]. split; [apply (f_equal snd) in E; cbn [snd] in E; rewrite <- E; vm_compute; reflexivity|].
    exact (scratch_disk_only 0x4000 (2 ^ 40) 0 (str "probe") [] blkMachine s' E).
  - exfalso. apply (f_equal fst) in E. vm_compute in E. discriminate E.
  - exfalso. apply (f_equal fst) in E. vm_compute in E. discriminate E.
Defined.
