(* ===== verification/DiskBoot.v ===== *)
(** * Booting a disk image

    src/phase2_oci_freebsd_boot.go, phase3_oci_netbsd_boot.go and
    phase3_oci_openbsd_boot.go, which are the same program with other names: a
    disk image is streamed from a registry, published as a block device and,
    where it has a UFS partition, as a file system, and the loader on its EFI
    system partition is started.  The network bring-up is the registry the state
    starts with; the UFS reader, a library, is a parameter; addresses of Go
    allocations are arguments. *)

From S2P Require Import Prelude Effects NetIP GoStr LittleEndian Memory MemMap Http OciRef OciFetch HttpStream HttpTransport OciStream BootMenu BootServices FwCfg BootEntry KernelBoot BlockIO Gpt DevicePath LoadSfs SfsPath Sfs.

(** What the three programs are built with. *)
Record diskBootConfig := mkDiskBoot { diskTargetRef : list byte; diskMaxImageSize : Z; diskEFIPath : list byte }.
Definition freebsdBoot (targetRef : list byte) : diskBootConfig := mkDiskBoot targetRef (768 * 1024 * 1024) (str "\EFI\BOOT\BOOTX64.EFI").
Definition netbsdBoot (targetRef : list byte) : diskBootConfig := mkDiskBoot targetRef (768 * 1024 * 1024) (str "\EFI\BOOT\BOOTX64.EFI").
Definition openbsdBoot (targetRef : list byte) : diskBootConfig := mkDiskBoot targetRef (768 * 1024 * 1024) (str "\EFI\BOOT\BOOTX64.EFI").

(** Where the Go runtime puts what the program allocates, and the entry points
    of the block device's trampolines. *)
Record goHeap := mkHeap {
  gh_image : Z; gh_media : Z; gh_proto : Z; gh_devicePath : Z; gh_rootProto : Z; gh_volume : Z; gh_blockPCs : list Z
}.

(** The package-level registries of published devices and volumes. *)
Record pubState := mkPub { pb_bio : blockIOState; pb_sfs : World }.

(** The two structures of PublishBlockIO, as firmware reads them. *)
Definition mediaBytes (m : EFIBlockIOMedia) : list byte :=
  le32 (MediaId m) ++ [x00; z2b (MediaPresent m); z2b (LogicalPartition m); z2b (ReadOnly m); x00] ++ make 3 ++
  le32 (BlockSize m) ++ le32 0 ++ make 4 ++ le64 (LastBlock m) ++ le64 0 ++ le32 0 ++ le32 0.
Definition blockIOPublishedRevision : Z := 0x00010000.
Definition blockProtoBytes (media : Z) (pcs : list Z) : list byte := le64 blockIOPublishedRevision ++ le64 media ++ concat (le64 <$> pcs).

(** [imageBytes[510] == 0x55 && imageBytes[511] == 0xAA], and the eight bytes of
    the GPT header's signature; an image too short has neither. *)
Definition hasMBR (image : list byte) : bool := (512 <=? len image) && bool_decide (take 2 (drop 510 image) = [x55; xaa]).
Definition hasGPT (image : list byte) : bool := (520 <=? len image) && bool_decide (take 8 (drop 512 image) = str "EFI PART").

(** The zeros behind a layer of [size] bytes, up to a whole block. *)
Definition tailPad (size : Z) : Z :=
  let rem := Z.rem size BlockIOLogicalBlockSize in
  if rem =? 0 then 0 else BlockIOLogicalBlockSize - rem.

Section boot.
Context {T F : Type} `{Transport T} `{Firmware F}.
Variable Sum256 : list byte -> list byte.
Variable J : Decoders.
Variable X : StreamTransport T.
(** ufs.Open over a reader of these bytes. *)
Variable ufsOpen : list byte -> Filesystem + error.
(** What the loader's use of the published volumes leaves in their registries
    (the callbacks of Sfs.v). *)
Variable callbacks : World -> World.
Variable heap : goHeap.
Notation DiskM := (M (BootSt T F pubState)).

(** ** The image *)

(** The layer named, from the lease on; no index is followed. *)
Definition diskLayer (cfg : diskBootConfig) (dns : IP) : DiskM Descriptor :=
  throw_if bool_decide (diskTargetRef cfg = []) with ErrNoTargetRef;;
  ref <- lift (ParseRef (diskTargetRef cfg)) ;;
  newRegistry dns ref 180 ;;;
  onReg Authenticate ;;;
  raw <- onReg (FetchManifestRaw (ref_Reference ref)) ;;
  m <- lift (ParseManifest J (fst raw)) ;;
  match m_Layers m with
  | [] => throw ErrNoLayers
  | target :: _ => throw_if diskMaxImageSize cfg <? d_Size target with ErrLayerTooBig;; ret target
  end.

(** [reg.FetchBlobToBuffer(desc, buf)]: the buffer. *)
Definition fetchToBuffer (desc : Descriptor) (buf : list byte) : DiskM (list byte) := fun s =>
  let '(o, (r, buf)) := FetchBlobToBuffer Sum256 (Some X) desc (bt_reg s, buf) in
  (match o with
   | Ok (_, None) => Ok buf
   | Ok (_, Some e) | Err e => Err e
   | Panic => Panic
   end, mkBoot r (bt_mach s) (bt_cfg s)).

(** A buffer of whole blocks, its front filled in place. *)
Definition fetchImage (target : Descriptor) : DiskM (list byte) :=
  let size := d_Size target in
  lift (if size + tailPad size <? 0 then Panic else Ok tt) ;;;
  let imageBytes := make (size + tailPad size) in
  window <- lift (sliceTo imageBytes size) ;;
  window <- fetchToBuffer target window ;;
  let imageBytes := window ++ drop (length window) imageBytes in
  throw_if negb (hasMBR imageBytes) with ErrNotDiskImage;;
  throw_if negb (hasGPT imageBytes) with ErrNotDiskImage;;
  ret imageBytes.

(** ** The block device *)

(** A Go allocation that firmware will see. *)
Definition goAlloc (p : Z) (bs : list byte) : DiskM unit := onMach (modify (fun s => withMem (allocAt (mc_mem s) p bs) s)).
Definition onBio {A} (m : M blockIOState A) : DiskM A := onCfg (zoom pb_bio (fun b p => mkPub b (pb_sfs p)) m).
(** A step of the published volumes, in the memory that firmware sees. *)
Definition onSfs {A} (m : SfsM A) : DiskM A := fun s =>
  let '(o, w) := m (setMem (mc_mem (bt_mach s)) (pb_sfs (bt_cfg s))) in
  (o, mkBoot (bt_reg s) (withMem (w_mem w) (bt_mach s)) (mkPub (pb_bio (bt_cfg s)) w)).

Definition blockInterfaces : list (list byte * Z) :=
  [(EFIDevicePathProtocolGUID, gh_devicePath heap); (EFIBlockIOProtocolGUID, gh_proto heap)].

Definition publishDisk (image : list byte) : DiskM Z :=
  bs <- onMach (gets mc_bs) ;;
  slot <- onBio (reserveBlockIO bs (gh_proto heap) (gh_media heap) (gh_image heap) image) ;;
  goAlloc (gh_media heap) (mediaBytes (mediaFor (len image))) ;;;
  goAlloc (gh_proto heap) (blockProtoBytes (gh_media heap) (gh_blockPCs heap)) ;;;
  goAlloc (gh_devicePath heap) buildBlockIOPublishDevicePath ;;;
  a <- onMach (efiCall (bsInstallMultipleProtocolInterfaces 0 blockInterfaces)) ;;
  onBio (installedBlockIO (gh_proto heap) image slot (ba_status a) (ba_out a)).

Definition unpublishDisk (handle : Z) : DiskM unit :=
  throw_if handle =? 0 with ErrBlockIONotPublished;;
  b <- onBio (gets id) ;;
  match bio_published b !! handle with
  | None => throw ErrBlockIONotPublished
  | Some _ =>
      onMach needBootServices ;;;
      bs <- onMach (gets mc_bs) ;;
      a <- onMach (efiCall (bsUninstallMultipleProtocolInterfaces handle blockInterfaces)) ;;
      onBio (UnpublishBlockIO bs (ba_status a) handle)
  end.

(** ** The loader and the volume *)

(** The loader's file on the first volume below the device. *)
Definition loadLoader (cfg : diskBootConfig) (blkHandle : Z) : DiskM Z :=
  onMach (ConnectController blkHandle) ;;;
  sfsHandles <- onMach (LocateHandleBuffer EFISimpleFileSystemProtocolGUID) ;;
  throw_if len sfsHandles =? 0 with ErrNoSFSHandles;;
  child <- onMach (SFSChildOf blkHandle) ;;
  onMach (LoadImageFromSFS (snd child) (diskEFIPath cfg)).

Definition publishVolume (fs : Filesystem) : DiskM Z :=
  bs <- onMach (gets mc_bs) ;;
  slots <- onSfs (reserveSFS bs (gh_rootProto heap) (gh_volume heap) (Some fs)) ;;
  a <- onMach (efiCall (bsInstallProtocolInterface 0 EFISimpleFileSystemProtocolGUID 0 (gh_volume heap))) ;;
  onSfs (installedSFS (gh_volume heap) slots (ba_status a) (ba_out a)).

Definition unpublishVolume (handle : Z) : DiskM unit :=
  throw_if handle =? 0 with ErrSFSNotPublished;;
  w <- onSfs (gets id) ;;
  match w_published w !! handle with
  | None => throw ErrSFSNotPublished
  | Some (protocol, _) =>
      onMach needBootServices ;;;
      bs <- onMach (gets mc_bs) ;;
      a <- onMach (efiCall (bsUninstallProtocolInterface handle EFISimpleFileSystemProtocolGUID protocol)) ;;
      onSfs (UnpublishSFS bs (ba_status a) handle)
  end.

(** The UFS partition as a volume, when there is one that can be read: the handle
    to unpublish when the program ends. *)
Definition publishUFS (image : list byte) : DiskM (option Z) :=
  ufsBytes <- try (lift (findUFSPartitionBytes image)) ;;
  match ufsBytes with
  | inr _ => ret None
  | inl ufsBytes =>
      match ufsOpen ufsBytes with
      | inr _ => ret None
      | inl fs =>
          h <- try (publishVolume fs) ;;
          ret (match h with inl h => Some h | inr _ => None end)
      end
  end.

(** ** The program *)

(** Everything before StartImage: the loader, the device and the volume. *)
Definition diskPrepare (cfg : diskBootConfig) (dns : IP) : DiskM (Z * Z * option Z) :=
  target <- diskLayer cfg dns ;;
  image <- fetchImage target ;;
  goAlloc (gh_image heap) image ;;;
  blkHandle <- publishDisk image ;;
  childImage <- loadLoader cfg blkHandle ;;
  sfsHandle <- publishUFS image ;;
  ret (childImage, blkHandle, sfsHandle).

Definition diskLaunch (childImage blkHandle : Z) (sfsHandle : option Z) : DiskM unit :=
  onMach (StartImage childImage) ;;;
  onSfs (modify callbacks) ;;;
  ignore (unpublishDisk blkHandle) ;;;
  match sfsHandle with Some h => ignore (unpublishVolume h) | None => ret tt end.

(** runOCIFreeBSDBootProbe and the two others; an error is the printed reason of
    an early return. *)
Definition runOCIDiskBootProbe (cfg : diskBootConfig) (dns : IP) : DiskM unit :=
  r <- diskPrepare cfg dns ;; diskLaunch (fst (fst r)) (snd (fst r)) (snd r).
Definition runOCIFreeBSDBootProbe (targetRef : list byte) (dns : IP) : DiskM unit := runOCIDiskBootProbe (freebsdBoot targetRef) dns.
Definition runOCINetBSDBootProbe (targetRef : list byte) (dns : IP) : DiskM unit := runOCIDiskBootProbe (netbsdBoot targetRef) dns.
Definition runOCIOpenBSDBootProbe (targetRef : list byte) (dns : IP) : DiskM unit := runOCIDiskBootProbe (openbsdBoot targetRef) dns.
End boot.

(** ** The image fetched *)

Lemma tailPad_whole size : 0 <= size -> 0 <= tailPad size < 512 /\ (size + tailPad size) mod 512 = 0.
Proof.
  intros Hs. unfold tailPad, BlockIOLogicalBlockSize. cbv zeta. rewrite Z.rem_mod_nonneg by lia.
  pose proof (Z.mod_pos_bound size 512 ltac:(lia)). pose proof (Z.div_mod size 512 ltac:(lia)). destruct (Z.eqb_spec (size mod 512) 0) as [E|E].
  - rewrite Z.add_0_r. lia.
  - split; [lia|]. symmetry. apply (Z.mod_unique _ _ (size / 512 + 1)); lia.
Qed.

(** A whole layer, the zeros behind it, and both signatures. *)
Definition diskImageOf (size : Z) (body image : list byte) : Prop :=
  image = body ++ make (tailPad size) /\ 0 <= size /\ len body = size /\ hasMBR image = true /\ hasGPT image = true.

Lemma diskImage_blocks size body image : diskImageOf size body image -> len image = size + tailPad size /\ 520 <= len image /\ len image mod 512 = 0.
Proof.
  intros (-> & Hs & Hb & _ & Hg). destruct (tailPad_whole size Hs) as [Hp Hm]. 
  assert (len (body ++ make (tailPad size)) = size + tailPad size) as E by (rewrite len_app, len_make by lia; lia). rewrite E. split; [done|]. split; [|exact Hm].
  apply andb_true_iff in Hg as [Hg _]. rewrite E in Hg. lia.
Qed.

Section fetch.
Context {T F : Type} `{Transport T} `{Firmware F}.
Variable Sum256 : list byte -> list byte.
Variable J : Decoders.
Variable X : StreamTransport T.
Context `{!StreamSound X}.
Notation St := (BootSt T F pubState).

Lemma fetchToBuffer_ok desc buf (s : St) buf' s' :
  fetchToBuffer Sum256 X desc buf s = (Ok buf', s') ->
  bt_mach s' = bt_mach s /\ bt_cfg s' = bt_cfg s /\
  exists body, buf' = body ++ drop (length body) buf /\ len buf' = len buf /\ blobOf Sum256 desc body.
Proof.
  unfold fetchToBuffer. destruct (FetchBlobToBuffer _ _ _ _) as [o [r b]] eqn:E. destruct o as [[n [e|]]|e|]; [done| |done|done].
  intros [= <- <-]. apply (blob_buffer_verified X) in E as (body & Hb & Hl & _ & Ho). split; [done|]. split; [done|]. by exists body.
Qed.

Lemma fetchImage_ok target (s : St) image s' :
  fetchImage Sum256 X target s = (Ok image, s') ->
  bt_mach s' = bt_mach s /\ bt_cfg s' = bt_cfg s /\ exists body, blobOf Sum256 target body /\ diskImageOf (d_Size target) body image.
Proof.
  unfold fetchImage. set (size := d_Size target). intros ([] & s0 & [Hp ->]%lift_ok & (w & s1 & [Hw ->]%lift_ok & (w' & s2 & Hf & Hk)%bind_ok)%bind_ok)%bind_ok.
  destruct (Z.ltb_spec (size + tailPad size) 0); [done|]. apply fetchToBuffer_ok in Hf as (Em & Ec & body & -> & Hl & Hb).
  apply guard_ok in Hk as [Hmbr%negb_false_iff [Hgpt%negb_false_iff [-> ->]%ret_ok]%guard_ok]. split; [done|]. split; [done|].
  exists body. split; [done|]. assert (0 <= size) as Hs by (unfold sliceTo in Hw; apply slice_inv in Hw; lia).
  destruct (tailPad_whole size Hs) as [Hpad _]. rewrite make_split in Hw, Hmbr, Hgpt |- * by lia.
  rewrite sliceTo_app in Hw by (rewrite len_make; lia). injection Hw as <-.
  assert (len body = size) as Hbody.
  { destruct Hb as [_ Hb]. destruct (Z.lt_ge_cases 0 size); [by apply Hb|]. revert Hl. rewrite len_app, len_make by lia. pose_lens. lia. }
  assert (drop (length body) (make size) = []) as Ed by (apply drop_ge; unfold make, len in *; rewrite repeat_length; lia).
  rewrite Ed, app_nil_r in *. rewrite drop_app_length' in Hmbr, Hgpt |- * by (unfold make, len in *; rewrite repeat_length; lia). done.
Qed.
End fetch.

(** ** The layer *)

(** Steps of the registry client alone. *)
Definition regOnly {T F C} (s s' : BootSt T F C) : Prop := bt_mach s' = bt_mach s /\ bt_cfg s' = bt_cfg s.
#[global] Instance regOnly_preorder {T F C} : PreOrder (@regOnly T F C).
Proof. split; [by intros s|]. intros a b c [E1 E2] [E3 E4]. split; congruence. Qed.

Section layer.
Context {T F : Type} `{Transport T} `{Firmware F}.
Variable J : Decoders.
Notation St := (BootSt T F pubState).

Lemma onReg_only {A} (m : M (Registry T) A) : moves regOnly (@onReg T F pubState A m).
Proof. intros s. unfold onReg, zoom. by destruct (m (bt_reg s)). Qed.
Lemma newRegistry_only dns ref t : moves regOnly (@newRegistry T F pubState dns ref t).
Proof. by intros s. Qed.
Hint Resolve onReg_only newRegistry_only : gomove.
Lemma diskLayer_only cfg dns : moves regOnly (@diskLayer T F _ J cfg dns).
Proof. unfold diskLayer. go_move. Qed.

(** The first layer of the manifest of the reference, as its registry served it
    to a client that starts on transport [t]. *)
Definition taggedLayer (t : T) (dns : IP) (cfg : diskBootConfig) (layer : Descriptor) : Prop :=
  exists ref r1 (r2 : Registry T) raw ct m more,
    ParseRef (diskTargetRef cfg) = Ok ref /\
    Authenticate (mkRegistry t (Some dns) ref (15 * second) (180 * second) []) = (Ok tt, r1) /\ reg_Ref r1 = ref /\
    answersManifest r1 (ref_Reference ref) raw ct r2 /\
    ParseManifest J raw = Ok m /\ m_Layers m = layer :: more /\ d_Size layer <= diskMaxImageSize cfg.

Lemma diskLayer_ok cfg dns (s : St) layer s' : diskLayer J cfg dns s = (Ok layer, s') -> taggedLayer (reg_Transport (bt_reg s)) dns cfg layer.
Proof.
  unfold diskLayer. intros [_ (ref & s0 & [Hp ->]%lift_ok & ([] & s1 & [= <-] & ([] & s2 & Ha & (raw & s3 & Hf & Hk)%bind_ok)%bind_ok)%bind_ok)%bind_ok]%guard_ok.
  apply onReg_ok in Ha, Hf. cbn [bt_reg] in Ha. set (r0 := mkRegistry _ _ _ _ _ _) in Ha. pose proof (Authenticate_ref r0) as Hr. rewrite Ha in Hr. cbn [snd] in Hr.
  apply bind_ok in Hk as (m & s4 & [Hpm ->]%lift_ok & Hk). destruct (m_Layers m) as [|l more] eqn:El; [done|].
  apply guard_ok in Hk as [Hsz [-> _]%ret_ok]. destruct raw as [raw ct]. apply FetchManifestRaw_ok in Hf.
  exists ref, (bt_reg s2), (bt_reg s3), raw, ct, m, more. split_and!; [done..|lia].
Qed.
End layer.

(** ** Where things are *)

(** The regions of the allocations, for an image of at most [max] bytes. *)
Definition heapRegions (h : goHeap) (max : Z) : list (Z * Z) :=
  [(gh_image h, max + 512); (gh_media h, 48); (gh_proto h, 48); (gh_devicePath h, 24); (gh_rootProto h, 88); (gh_volume h, 16)].
(** The Go runtime hands out memory of the program's own, each piece once. *)
Record heapOk (h : goHeap) (max : Z) : Prop := mkHeapOk {
  heap_apart i j p q : i <> j -> heapRegions h max !! i = Some p -> heapRegions h max !! j = Some q -> fst p + snd p <= fst q \/ fst q + snd q <= fst p;
  heap_range p : p ∈ heapRegions h max -> 0 < fst p /\ fst p + snd p < 2 ^ 64;
  heap_pcs : length (gh_blockPCs h) = 4%nat
}.

Lemma len_mediaBytes m : len (mediaBytes m) = 48.
Proof. done. Qed.
Lemma len_concat_le64 l : len (concat (le64 <$> l)) = 8 * len l.
Proof. induction l as [|x l IH]; [done|]. cbn [fmap list_fmap concat]. rewrite len_app, len_cons. change (list_fmap Z (list byte) le64 l) with (le64 <$> l). rewrite IH, len_le64. lia. Qed.
Lemma len_blockProto media pcs : length pcs = 4%nat -> len (blockProtoBytes media pcs) = 48.
Proof. intros Hp. unfold blockProtoBytes. rewrite !len_app, !len_le64, len_concat_le64. unfold len. lia. Qed.
Lemma len_vtable w : length (w_vtable w) = 10%nat -> len (vtableBytes w) = 88.
Proof. intros Hv. unfold vtableBytes. rewrite len_app, len_le64, len_concat_le64. unfold len. lia. Qed.
Lemma heap_proto_pos h max : heapOk h max -> 0 < gh_proto h.
Proof. intros Hh. destruct (heap_range _ _ Hh (gh_proto h, 48)) as [Hp _]; [set_solver|exact Hp]. Qed.

(** ** What stays as it was *)

#[export] Hint Extern 1 (moves _ (gets _)) => (apply moves_gets; apply _) : gomove.

Section spared.
Context {F : Type} `{FirmwareOk F}.
Notation spares m := (moves (@spared F _ _) m).
Lemma ConnectController_spares h : spares (ConnectController h).
Proof. unfold ConnectController. pose proof needBootServices_spared. pose proof success_spared. go_move. Qed.
Lemma handlePath_spares h : spares (handlePath h).
Proof. unfold handlePath. pose proof HandleProtocol_spared. go_move. Qed.
Lemma childAmong_spares p hs : spares (childAmong p hs).
Proof. pose proof handlePath_spares. induction hs as [|h hs IH]; cbn [childAmong]; go_move. Qed.
Lemma SFSChildOf_spares h : spares (SFSChildOf h).
Proof. unfold SFSChildOf. pose proof handlePath_spares. pose proof childAmong_spares. pose proof LocateHandleBuffer_spared. go_move. Qed.
Lemma LoadImageFromSFS_spares dp p : spares (LoadImageFromSFS dp p).
Proof. unfold LoadImageFromSFS. pose proof needBootServices_spared. pose proof success_spared. go_move. Qed.
End spared.

Section stays.
Context {T F : Type} `{Transport T} `{FirmwareOk F}.
Notation St := (BootSt T F pubState).
Variable heap : goHeap.
Variable max : Z.
Hypothesis heap_ok : heapOk heap max.
Variable image : list byte.
Hypothesis image_fits : len image <= max + 512.

(** The image is in the program's own memory. *)
Definition intact (s : St) : Prop := keeps_own (bt_mach s) (gh_image heap) image /\ length (w_vtable (pb_sfs (bt_cfg s))) = 10%nat.
Definition stays (s s' : St) : Prop := intact s -> intact s'.
#[local] Instance stays_preorder : PreOrder stays.
Proof. split; [intros s Hs; exact Hs|intros a b c H1' H2' Ha; exact (H2' (H1' Ha))]. Qed.

Lemma clear_of p n : (p, n) ∈ drop 1 (heapRegions heap max) -> p + n <= gh_image heap \/ gh_image heap + len image <= p.
Proof.
  intros (i & Hi)%list_elem_of_lookup. rewrite lookup_drop in Hi. destruct (heap_apart _ _ heap_ok 0 (1 + i) _ _ ltac:(lia) eq_refl Hi) as [Ha|Ha]; cbn [fst snd] in Ha; lia.
Qed.

Lemma alloc_intact q x (s : St) :
  q + len x <= gh_image heap \/ gh_image heap + len image <= q -> intact s -> keeps_own (withMem (allocAt (mc_mem (bt_mach s)) q x) (bt_mach s)) (gh_image heap) image.
Proof. intros Hq [[Hh Ho] _]. split; [|done]. apply allocAt_keeps; [done|lia]. Qed.

Lemma goAlloc_stays q x : q + len x <= gh_image heap \/ gh_image heap + len image <= q -> moves stays (goAlloc q x).
Proof. intros Hq s Hs. split; [|apply Hs]. by apply (alloc_intact q x s). Qed.
Lemma onMach_stays {A} (m : M (Machine F) A) : moves spared m -> moves stays (onMach m).
Proof.
  intros Hm s [Ho Hv]. specialize (Hm (bt_mach s)). unfold onMach, zoom. destruct (m (bt_mach s)) as [o x]. split; [|done]. by eapply spared_own.
Qed.
Lemma onBio_stays {A} (m : M blockIOState A) : moves stays (onBio m).
Proof. intros s Hs. unfold onBio, onCfg, zoom. by destruct (m _). Qed.

(** The same of the published volumes. *)
Definition intactW (w : World) : Prop := holds (w_mem w) (gh_image heap) image /\ length (w_vtable w) = 10%nat.
Definition staysW (w w' : World) : Prop := intactW w -> intactW w'.
#[local] Instance staysW_preorder : PreOrder staysW.
Proof. split; [intros s Hs; exact Hs|intros a b c H1' H2' Ha; exact (H2' (H1' Ha))]. Qed.
Lemma alloc_staysW p x : (forall w, intactW w -> p + len (x w) <= gh_image heap \/ gh_image heap + len image <= p) ->
  moves staysW (modify (fun w => setMem (allocAt (w_mem w) p (x w)) w)).
Proof. intros Hp w Hw. split; [|apply Hw]. cbn. apply allocAt_keeps; [apply Hw|]. specialize (Hp w Hw). lia. Qed.
Lemma modify_staysW f : (forall w, w_mem (f w) = w_mem w /\ w_vtable (f w) = w_vtable w) -> moves staysW (modify f).
Proof. intros Hf w [Hh Hv]. unfold intactW. cbn. destruct (Hf w) as [-> ->]. by split. Qed.
Lemma updFile_staysW i f : moves staysW (updFile i f).
Proof. unfold updFile. apply modify_staysW. by intros w. Qed.
Hint Resolve updFile_staysW : gomove.
Hint Extern 2 (moves staysW (modify _)) => (apply modify_staysW; intros ?; split; reflexivity) : gomove.

Lemma reserve_staysW bs fs : moves staysW (reserveSFS bs (gh_rootProto heap) (gh_volume heap) fs).
Proof.
  assert (moves staysW (newProto (gh_rootProto heap))) as Hr.
  { apply alloc_staysW. intros w [_ Hv]. rewrite len_vtable by done. apply clear_of. set_solver. }
  assert (moves staysW (newVolume (gh_volume heap))) as Hv.
  { apply alloc_staysW. intros w _. change (len (le64 sfsPublishedRevision ++ le64 (w_openVolumePC w))) with 16. apply clear_of. set_solver. }
  unfold reserveSFS, sfsAllocFileHandle. go_move.
Qed.
Lemma installed_staysW v slots status h : moves staysW (installedSFS v slots status h).
Proof. unfold installedSFS. go_move. Qed.

Lemma onSfs_stays {A} (m : SfsM A) : moves staysW m -> moves stays (onSfs m).
Proof.
  intros Hm s [[Hh Ho] Hv]. unfold onSfs. specialize (Hm (setMem (mc_mem (bt_mach s)) (pb_sfs (bt_cfg s))) (conj Hh Hv)).
  destruct (m _) as [o w]. destruct Hm as [Hh' Hv']. split; [|exact Hv']. by split.
Qed.
#[local] Hint Resolve onBio_stays : gomove.
#[local] Hint Extern 2 (moves stays (onMach _)) => apply onMach_stays : gomove.
#[local] Hint Extern 2 (moves stays (onSfs _)) => apply onSfs_stays : gomove.
#[local] Hint Resolve reserve_staysW installed_staysW : gomove.

Lemma publishDisk_stays im : moves stays (publishDisk heap im).
Proof.
  assert (forall x, moves stays (goAlloc (gh_media heap) (mediaBytes x))) as Hm by (intros; apply goAlloc_stays, clear_of; set_solver).
  assert (moves stays (goAlloc (gh_proto heap) (blockProtoBytes (gh_media heap) (gh_blockPCs heap)))) as Hp.
  { apply goAlloc_stays. rewrite len_blockProto by apply heap_ok. apply clear_of. set_solver. }
  assert (moves stays (goAlloc (gh_devicePath heap) buildBlockIOPublishDevicePath)) as Hd by (apply goAlloc_stays, clear_of; set_solver).
  unfold publishDisk. go_move.
Qed.
Lemma loadLoader_stays cfg blk : moves stays (loadLoader cfg blk).
Proof.
  unfold loadLoader. pose proof ConnectController_spares. pose proof LocateHandleBuffer_spared. pose proof SFSChildOf_spares. pose proof LoadImageFromSFS_spares. go_move.
Qed.
Lemma publishUFS_stays ufsOpen im : moves stays (publishUFS ufsOpen heap im).
Proof. unfold publishUFS, publishVolume. go_move. Qed.
End stays.

(** Steps that publish no block device. *)
Definition bioSame {T F} (s s' : BootSt T F pubState) : Prop := pb_bio (bt_cfg s') = pb_bio (bt_cfg s).
#[global] Instance bioSame_preorder {T F} : PreOrder (@bioSame T F).
Proof. split; [by intros s|]. unfold bioSame. intros a b c E1 E2. congruence. Qed.

Section moves.
Context {T F : Type} `{Transport T} `{Firmware F}.
Variable heap : goHeap.
Notation St := (BootSt T F pubState).

Lemma onMach_bio {A} (m : M (Machine F) A) : moves bioSame (@onMach T F pubState A m).
Proof. intros s. unfold onMach, zoom. by destruct (m _). Qed.
Lemma onSfs_bio {A} (m : SfsM A) : moves bioSame (@onSfs T F A m).
Proof. intros s. unfold onSfs. by destruct (m _). Qed.
Hint Resolve onMach_bio onSfs_bio : gomove.
Lemma loadLoader_bio cfg blk : moves bioSame (@loadLoader T F _ cfg blk).
Proof. unfold loadLoader. go_move. Qed.
Lemma publishUFS_bio ufsOpen im : moves bioSame (@publishUFS T F _ ufsOpen heap im).
Proof. unfold publishUFS, publishVolume. go_move. Qed.

(** None of the steps before the start, and after it, starts an image. *)
Notation quietly m := (moves (@machRel T F pubState noStart) m).
Lemma goAlloc_quiet p x : quietly (goAlloc p x).
Proof. intros s. exists []. cbn. by rewrite app_nil_r. Qed.
Lemma onBio_quiet {A} (m : M blockIOState A) : quietly (onBio m).
Proof. apply onCfg_moves. apply _. Qed.
Lemma onSfs_quiet {A} (m : SfsM A) : quietly (onSfs m).
Proof. intros s. unfold onSfs. destruct (m _) as [o w]. exists []. cbn. by rewrite app_nil_r. Qed.
Hint Resolve goAlloc_quiet onBio_quiet onSfs_quiet : gomove.
Lemma publishDisk_quiet im : quietly (publishDisk heap im).
Proof. unfold publishDisk. go_move. Qed.
Lemma loadLoader_quiet cfg blk : quietly (loadLoader cfg blk).
Proof. unfold loadLoader. go_move. Qed.
Lemma publishUFS_quiet ufsOpen im : quietly (publishUFS ufsOpen heap im).
Proof. unfold publishUFS, publishVolume. go_move. Qed.
Lemma unpublishDisk_quiet h : quietly (unpublishDisk heap h).
Proof. unfold unpublishDisk. go_move. Qed.
Lemma unpublishVolume_quiet h : quietly (@unpublishVolume T F _ h).
Proof. unfold unpublishVolume. go_move. Qed.
Lemma regOnly_quiet {A} (m : M St A) : moves regOnly m -> quietly m.
Proof. intros Hm s. destruct (Hm s) as [E _]. exists []. rewrite E, app_nil_r. by split. Qed.
Variable Sum256 : list byte -> list byte.
Variable X : StreamTransport T.
Lemma fetchImage_only t : moves regOnly (@fetchImage T F Sum256 X t).
Proof.
  assert (forall d b, moves regOnly (@fetchToBuffer T F Sum256 X d b)) as Hf.
  { intros d b s. unfold fetchToBuffer. destruct (FetchBlobToBuffer _ _ _ _) as [o [r w]]. by split. }
  unfold fetchImage. cbv zeta. go_move.
Qed.
End moves.
#[export] Hint Resolve publishDisk_quiet loadLoader_quiet publishUFS_quiet unpublishDisk_quiet unpublishVolume_quiet goAlloc_quiet onSfs_quiet : gomove.

(** ** What is published *)

Section pubState.
Context {T F : Type} `{Transport T} `{FirmwareOk F}.
Notation St := (BootSt T F pubState).
Variable heap : goHeap.
Variable max : Z.
Hypothesis heap_ok : heapOk heap max.

(** What firmware finds behind the interfaces it is handed. *)
Definition shown (image : list byte) (m : memory) : Prop :=
  holds m (gh_image heap) image /\ holds m (gh_media heap) (mediaBytes (mediaFor (len image))) /\
  holds m (gh_proto heap) (blockProtoBytes (gh_media heap) (gh_blockPCs heap)) /\ holds m (gh_devicePath heap) buildBlockIOPublishDevicePath.

Lemma goAlloc_ok p x (s s' : St) u : goAlloc p x s = (Ok u, s') ->
  bt_cfg s' = bt_cfg s /\ mc_calls (bt_mach s') = mc_calls (bt_mach s) /\ mc_bs (bt_mach s') = mc_bs (bt_mach s) /\
  mc_fw (bt_mach s') = mc_fw (bt_mach s) /\ mc_mem (bt_mach s') = allocAt (mc_mem (bt_mach s)) p x.
Proof. unfold goAlloc, onMach, zoom, modify. intros [= _ <-]. by split_and!. Qed.
Lemma onBio_ok {A} (m : M blockIOState A) (s s' : St) a : onBio m s = (Ok a, s') ->
  m (pb_bio (bt_cfg s)) = (Ok a, pb_bio (bt_cfg s')) /\ bt_mach s' = bt_mach s.
Proof. unfold onBio, onCfg, zoom. destruct (m _) as [o b]. by intros [= -> <-]. Qed.

(** The three structures, once they are allocated behind the image. *)
Lemma shown_after image m :
  len image <= max + 512 -> holds m (gh_image heap) image ->
  shown image (allocAt (allocAt (allocAt m (gh_media heap) (mediaBytes (mediaFor (len image)))) (gh_proto heap) (blockProtoBytes (gh_media heap) (gh_blockPCs heap)))
    (gh_devicePath heap) buildBlockIOPublishDevicePath).
Proof.
  intros Hfit Hm. pose proof (len_blockProto (gh_media heap) _ (heap_pcs _ _ heap_ok)) as Hlp.
  pose proof (fun i j p q => heap_apart _ _ heap_ok i j p q) as Ha.
  pose proof (Ha 0 1 _ _ ltac:(lia) eq_refl eq_refl)%nat as A01. pose proof (Ha 0 2 _ _ ltac:(lia) eq_refl eq_refl)%nat as A02.
  pose proof (Ha 0 3 _ _ ltac:(lia) eq_refl eq_refl)%nat as A03. pose proof (Ha 1 2 _ _ ltac:(lia) eq_refl eq_refl)%nat as A12.
  pose proof (Ha 1 3 _ _ ltac:(lia) eq_refl eq_refl)%nat as A13. pose proof (Ha 2 3 _ _ ltac:(lia) eq_refl eq_refl)%nat as A23.
  pose proof (heap_range _ _ heap_ok (gh_media heap, 48) ltac:(set_solver)) as R1. pose proof (heap_range _ _ heap_ok (gh_proto heap, 48) ltac:(set_solver)) as R2.
  pose proof (heap_range _ _ heap_ok (gh_devicePath heap, 24) ltac:(set_solver)) as R3. cbn [fst snd] in *.
  change (len (mediaBytes (mediaFor (len image)))) with 48 in *. 
  assert (len buildBlockIOPublishDevicePath = 24) as Hld by done. assert (len (mediaBytes (mediaFor (len image))) = 48) as Hlm by done.
  split; [|split; [|split]]; repeat first [apply allocAt_holds; lia | apply allocAt_keeps; [|lia]]; done.
Qed.

Lemma publishDisk_ok image h (s s' : St) :
  publishDisk heap image s = (Ok h, s') ->
  bioInv (pb_bio (bt_cfg s)) -> (forall i e, bio_registry (pb_bio (bt_cfg s)) !! i = Some e -> be_proto e <> gh_proto heap) ->
  len image <= max + 512 -> holds (mc_mem (bt_mach s)) (gh_image heap) image ->
  exists m a, mc_calls (bt_mach s') = mc_calls (bt_mach s) ++ [(bsInstallMultipleProtocolInterfaces 0 (blockInterfaces heap), m, a)] /\
    ba_status a = efiSuccess /\ ba_out a = h /\ shown image m /\
    blockIOLookup (bio_registry (pb_bio (bt_cfg s'))) (gh_proto heap) = Some (mkEntry (gh_proto heap) (gh_media heap) (gh_image heap) (len image)) /\
    exists st, bio_published (pb_bio (bt_cfg s')) !! h = Some st /\ bp_proto st = gh_proto heap /\ bp_media st = mediaFor (len image).
Proof.
  unfold publishDisk. intros (bs & s0 & Hbs & (slot & s1 & [Hres Em1]%onBio_ok & (u1 & s2 & (Ec2 & El2 & _ & _ & Em2)%goAlloc_ok & Hk)%bind_ok)%bind_ok)%bind_ok Hinv Hfresh Hfit Hm.
  assert (s0 = s) as -> by (destruct s as [? [] ?]; injection Hbs as _ <-; done).
  apply bind_ok in Hk as (u2 & s3 & (Ec3 & El3 & _ & _ & Em3)%goAlloc_ok & (u3 & s4 & (Ec4 & El4 & _ & _ & Em4)%goAlloc_ok & (a & s5 & Ha & [Hins Em6]%onBio_ok)%bind_ok)%bind_ok).
  assert (pb_bio (bt_cfg s5) = pb_bio (bt_cfg s1)) as Ebio.
  { assert (bt_cfg s5 = bt_cfg s4) as -> by (unfold onMach, zoom in Ha; destruct (efiCall _ _) as [? ?]; by injection Ha as _ <-). congruence. }
  apply onMach_ok, efiCall_ok in Ha as (Ecalls & _ & _). rewrite Ebio in Hins.
  assert (PublishBlockIO bs (gh_proto heap) (gh_media heap) (gh_image heap) (ba_status a) (ba_out a) image (pb_bio (bt_cfg s)) = (Ok h, pb_bio (bt_cfg s'))) as Hpub.
  { unfold PublishBlockIO. by rewrite Hres. }
  assert (ba_status a = efiSuccess) as Hst by (unfold installedBlockIO in Hins; destruct (Z.eqb_spec (ba_status a) 0); [done|discriminate Hins]).
  assert (gh_proto heap <> 0) as R2 by (pose proof (heap_proto_pos _ _ heap_ok); lia).
  destruct (Publish_lookup _ _ _ _ _ _ _ _ _ _ Hinv R2 Hfresh Hpub) as (-> & _ & _ & Hl & Hs).
  exists (mc_mem (bt_mach s4)), a. split; [by rewrite Em6, Ecalls, El4, El3, El2, Em1|]. split; [done|]. split; [done|]. split; [|done].
  rewrite Em4, Em3, Em2, Em1. by apply shown_after.
Qed.
End pubState.

(** ** What is started *)

Section program.
Context {T F : Type} `{Transport T} `{FirmwareOk F}.
Variable Sum256 : list byte -> list byte.
Variable J : Decoders.
Variable X : StreamTransport T.
Context `{!StreamSound X}.
Variable ufsOpen : list byte -> Filesystem + error.
Variable callbacks : World -> World.
Variable heap : goHeap.
Notation St := (BootSt T F pubState).
Notation prepareDisk := (diskPrepare Sum256 J X ufsOpen heap).

(** The image [h] was loaded by the path of the loader on a volume strictly below
    the block device [blk], by the paths that firmware gives. *)
Definition loadedBelow (cfg : diskBootConfig) (blk : Z) (pre : list (bootCall * memory * bootAnswer)) (h : Z) : Prop :=
  exists front found back volume volumeDP dp image m a,
    pre = front ++ found ++ [(bsLoadImage 0 image dp [], m, a)] ++ back /\
    volumeBelow blk volume volumeDP found m /\ filePath volumeDP (diskEFIPath cfg) dp /\ ba_status a = efiSuccess /\ ba_out a = h.

Lemma loadLoader_ok cfg blk (s : St) h s' :
  loadLoader cfg blk s = (Ok h, s') ->
  exists new, mc_calls (bt_mach s') = mc_calls (bt_mach s) ++ new /\ loadedBelow cfg blk new h.
Proof.
  intros Hl. pose proof (moves_step (machRel noStart) _ _ _ _ Hl (loadLoader_quiet _ _)) as (new & En & _). exists new. split; [done|].
  unfold loadLoader in Hl. apply bind_ok in Hl as ([] & s1 & Hc & (hs & s2 & Hloc & [_ (child & s3 & Hch%onMach_ok & Hld%onMach_ok)%bind_ok]%guard_ok)%bind_ok).
  pose proof (moves_step (machRel noStart) _ _ _ _ Hc (onMach_moves _ _ (ConnectController_moves _))) as (n1 & E1 & _).
  pose proof (moves_step (machRel noStart) _ _ _ _ Hloc (onMach_moves _ _ (LocateHandleBuffer_moves _))) as (n2 & E2 & _).
  destruct child as [ch childDP]. apply SFSChildOf_ok in Hch as (found & E3 & Hbelow).
  apply LoadImageFromSFS_ok in Hld as (dp & a3 & Hdp & E4 & Hst3 & Hout). cbn [snd] in Hdp.
  rewrite E4, E3, E2, E1, <- !app_assoc in En. apply app_inv_head in En as <-.
  exists (n1 ++ n2), found, [], ch, childDP, dp, (mc_image (bt_mach s3)), (mc_mem (bt_mach s3)), a3. rewrite <- app_assoc. by split_and!.
Qed.

(** Every block of the image, through the device's own callback. *)
Definition served (bio : blockIOState) (m : memory) (image : list byte) : Prop :=
  forall mediaID lba buffer, 0 <= lba < len image / 512 -> mapped m buffer 512 -> buffer <> 0 ->
    buffer + 512 <= gh_image heap \/ gh_image heap + len image <= buffer ->
    exists m', blockIOReadBlocksGo (bio_registry bio) m (gh_proto heap) mediaID lba 512 buffer = Ok (blockIOEFISuccess, m') /\
      holds m' buffer (take 512 (drop (Z.to_nat (lba * 512)) image)) /\ sameOutside buffer 512 m m'.

Lemma served_ok bio m image :
  blockIOLookup (bio_registry bio) (gh_proto heap) = Some (mkEntry (gh_proto heap) (gh_media heap) (gh_image heap) (len image)) ->
  holds m (gh_image heap) image -> len image < 2 ^ 63 -> served bio m image.
Proof.
  intros Hl Hm Hlen mediaID lba buffer Hlba Hb Hb0 Hd. pose proof (Z.mul_div_le (len image) 512 ltac:(lia)).
  pose proof (blockIORead_spec (bio_registry bio) m (gh_proto heap) mediaID _ image lba 512 buffer Hl eq_refl Hm ltac:(lia) ltac:(lia) ltac:(lia) Hb0 Hb Hd) as Hr.
  rewrite decide_True in Hr by (split; [done|lia]). exact Hr.
Qed.

(** The state the program starts in: memory of its own for the image, and
    registries that publishing and unpublishing left. *)
Record startOk (cfg : diskBootConfig) (s : St) : Prop := mkStartOk {
  so_heap : heapOk heap (diskMaxImageSize cfg);
  so_cap : diskMaxImageSize cfg < 2 ^ 62;
  so_own x : within (gh_image heap) (diskMaxImageSize cfg + 512) x -> owned (mc_fw (bt_mach s)) x;
  so_vtable : length (w_vtable (pb_sfs (bt_cfg s))) = 10%nat;
  so_bio : bioInv (pb_bio (bt_cfg s));
  so_fresh i e : bio_registry (pb_bio (bt_cfg s)) !! i = Some e -> be_proto e <> gh_proto heap
}.

(** The image [h] of device [blk], prepared after the calls [pre], in state [s1]. *)
Definition diskReady (t : T) (dns : IP) (cfg : diskBootConfig) (pre : list (bootCall * memory * bootAnswer)) (blk h : Z) (s1 : St) : Prop :=
  exists layer body image m0 a0,
    taggedLayer J t dns cfg layer /\ blobOf Sum256 layer body /\ diskImageOf (d_Size layer) body image /\
    (bsInstallMultipleProtocolInterfaces 0 (blockInterfaces heap), m0, a0) ∈ pre /\ ba_status a0 = efiSuccess /\ ba_out a0 = blk /\
    shown heap image m0 /\ loadedBelow cfg blk pre h /\ served (pb_bio (bt_cfg s1)) (mc_mem (bt_mach s1)) image.

Lemma diskPrepare_quiet cfg dns : moves (@machRel T F pubState noStart) (prepareDisk cfg dns).
Proof.
  assert (moves (@machRel T F pubState noStart) (diskLayer J cfg dns)) as Hl by apply regOnly_quiet, diskLayer_only.
  assert (forall t, moves (@machRel T F pubState noStart) (fetchImage Sum256 X t)) as Hf by (intros t; apply regOnly_quiet, fetchImage_only).
  unfold diskPrepare. go_move.
Qed.

Lemma diskPrepare_ok cfg dns (s s1 : St) h blk vol :
  startOk cfg s -> prepareDisk cfg dns s = (Ok (h, blk, vol), s1) ->
  exists pre, mc_calls (bt_mach s1) = mc_calls (bt_mach s) ++ pre /\ diskReady (reg_Transport (bt_reg s)) dns cfg pre blk h s1.
Proof.
  intros [Hheap Hcap Hown Hvt Hbio Hfresh] Hp. pose proof (moves_step (machRel noStart) _ _ _ _ Hp (diskPrepare_quiet _ _)) as (pre & Epre & _).
  exists pre. split; [done|]. unfold diskPrepare in Hp.
  apply bind_ok in Hp as (layer & sa & Hl & (image & sb & Hf & (u & sc & Hg & (blk' & sd & Hpub & Hp)%bind_ok)%bind_ok)%bind_ok).
  apply bind_ok in Hp as (h' & se & Hload & (vol' & sf & Hufs & [[= -> -> ->] ->]%ret_ok)%bind_ok).
  destruct (moves_step _ _ _ _ _ Hl (diskLayer_only _ _ _)) as [Ema Eca]. apply diskLayer_ok in Hl as Hlayer.
  apply (fetchImage_ok Sum256 X) in Hf as (Emb & Ecb & body & Hblob & Himg). apply goAlloc_ok in Hg as (Ecc & Elc & _ & Efc & Emc).
  destruct (diskImage_blocks _ _ _ Himg) as (Hlen & Hmin & Hblk). assert (0 <= d_Size layer) as Hsz by apply Himg.
  assert (d_Size layer <= diskMaxImageSize cfg) as Hmax by (by destruct Hlayer as (? & ? & ? & ? & ? & ? & ? & _ & _ & _ & _ & _ & _ & ?)). destruct (tailPad_whole _ Hsz) as [Hpad _].
  assert (len image <= diskMaxImageSize cfg + 512) as Hfit by lia.
  pose proof (heap_range _ _ Hheap (gh_image heap, diskMaxImageSize cfg + 512) ltac:(left)) as [Hi0 Hi1]. cbn [fst snd] in Hi0, Hi1.
  assert (holds (mc_mem (bt_mach sc)) (gh_image heap) image) as Hm by (rewrite Emc; apply allocAt_holds; lia).
  assert (intact heap image sc) as Hint.
  { split; [split; [done|]|by rewrite Ecc, Ecb, Eca]. intros x Hx. rewrite Efc, Emb, Ema. apply Hown. unfold within in *. lia. }
  pose proof (moves_step _ _ _ _ _ Hpub (publishDisk_stays heap _ Hheap image Hfit image) Hint) as Hint2.
  pose proof (moves_step _ _ _ _ _ Hload (loadLoader_stays heap image _ _) Hint2) as Hint3.
  pose proof (moves_step _ _ _ _ _ Hufs (publishUFS_stays heap _ Hheap image Hfit ufsOpen image) Hint3) as Hint4.
  pose proof (moves_step _ _ _ _ _ Hload (loadLoader_bio _ _)) as Hb1. pose proof (moves_step _ _ _ _ _ Hufs (publishUFS_bio _ _ _)) as Hb2.
  apply (publishDisk_ok heap _ Hheap) in Hpub as (m0 & a0 & Ecalls & Hst & Hout & Hshown & Hlook & _); [|by rewrite Ecc, Ecb, Eca|by rewrite Ecc, Ecb, Eca|done|done].
  apply loadLoader_ok in Hload as (n2 & E2 & (front & found & back & ch & cdp & dp & im & m3 & a3 & -> & Hrest)).
  pose proof (moves_step (machRel noStart) _ _ _ _ Hufs (publishUFS_quiet _ _ _)) as (n3 & E3 & _).
  rewrite E3, E2, Ecalls, Elc, Emb, Ema, <- !app_assoc in Epre. apply app_inv_head in Epre as <-.
  exists layer, body, image, m0, a0. split; [done|]. split; [done|]. split; [done|]. split; [left|]. split; [done|]. split; [done|]. split; [done|]. split.
  - exists (((bsInstallMultipleProtocolInterfaces 0 (blockInterfaces heap), m0, a0) :: nil) ++ front), found, (back ++ n3), ch, cdp, dp, im, m3, a3.
    split; [|exact Hrest]. by rewrite <- !app_assoc.
  - apply served_ok; [by rewrite Hb2, Hb1|apply Hint4|lia].
Qed.

(** C6. Whatever the registry serves and the firmware answers, the program starts at
    most one image.  It was loaded by the path of the loader's file on a volume
    that the firmware lists, whose device path, read from memory after the
    firmware's answer, goes on strictly below the device path that the firmware
    gives for the program's own block device; and at the moment of the start
    every read of that device returns the blocks of an image that is, up to zeros
    behind it, the whole of a blob that matches the first layer of the manifest
    that the registry of the reference answered for it, with the signatures of a
    partitioned disk: no call made in between, nor the publication of the UFS
    volume, has changed a byte of it. *)
Theorem disk_boot_serves_verified_image cfg dns (s : St) r s' :
  startOk cfg s -> runOCIDiskBootProbe Sum256 J X ufsOpen callbacks heap cfg dns s = (r, s') ->
  exists new, mc_calls (bt_mach s') = mc_calls (bt_mach s) ++ new /\
    startsOnly (fun pre h m => exists blk vol s1,
      prepareDisk cfg dns s = (Ok (h, blk, vol), s1) /\ m = mc_mem (bt_mach s1) /\
      diskReady (reg_Transport (bt_reg s)) dns cfg pre blk h s1) new.
Proof.
  intros Hs Hr. unfold runOCIDiskBootProbe in Hr. eapply (startsOnly_bind bt_mach); [|clear r s' Hr|exact Hr]; [apply diskPrepare_quiet|].
  intros [[h blk] vol] s1 pre Hp Epre _ r s' Hl. cbn [fst snd] in Hl.
  destruct (diskPrepare_ok _ _ _ _ _ _ _ Hs Hp) as (pre' & E & Hready). rewrite E in Epre. apply app_inv_head in Epre as ->.
  unfold diskLaunch in Hl. apply start_calls in Hl as (new & En & Hn); [|intros x; go_move]. exists new. split; [done|].
  destruct Hn as [Hn|(a & post & -> & Hq)]; [by left|]. right. exists [], h, (mc_mem (bt_mach s1)), a, post. split_and!; [done|constructor|done|].
  exists blk, vol, s1. by rewrite app_nil_r.
Qed.
End program.

(** A failure after the device is published leaves it published: the early
    returns do not withdraw it, and its slot stays taken. *)
Lemma device_left_published {T F} `{Transport T} `{Firmware F} Sum256 J X ufsOpen callbacks heap cfg dns (s s1 s2 s3 s4 s5 : BootSt T F pubState) layer image u blk e :
  diskLayer J cfg dns s = (Ok layer, s1) -> fetchImage Sum256 X layer s1 = (Ok image, s2) -> goAlloc (gh_image heap) image s2 = (Ok u, s3) ->
  publishDisk heap image s3 = (Ok blk, s4) -> loadLoader cfg blk s4 = (Err e, s5) ->
  runOCIDiskBootProbe Sum256 J X ufsOpen callbacks heap cfg dns s = (Err e, s5) /\ is_Some (bio_published (pb_bio (bt_cfg s5)) !! blk).
Proof.
  intros E1 E2 E3 E4 E5. split.
  - unfold runOCIDiskBootProbe, diskPrepare, bind. by rewrite E1, E2, E3, E4, E5.
  - pose proof (moves_step _ _ _ _ _ E5 (loadLoader_bio _ _)) as ->. unfold publishDisk in E4.
    apply bind_ok in E4 as (bs & t1 & _ & (slot & t2 & _ & (v1 & t3 & _ & (v2 & t4 & _ & (v3 & t5 & _ & (a & t6 & _ & [Hi _]%onBio_ok)%bind_ok)%bind_ok)%bind_ok)%bind_ok)%bind_ok).
    unfold installedBlockIO in Hi. destruct (negb _); [discriminate Hi|]. injection Hi as <- <-. cbn [bio_published]. rewrite lookup_insert_eq. by eexists.
Qed.

(** ** A boot *)

(** A firmware that leaves memory alone: handle 7 is the device, handle 9 a
    volume whose path extends the device's, image 11 the loader. *)
Record stillFw := mkStill { sf_heap : Z * Z }.
#[global] Instance still_firmware : Firmware stillFw := {
  fwStep c m f :=
    match c with
    | bsAllocatePages _ _ _ _ | bsAllocatePool _ _ => (mkBootAnswer 0x8000000000000009 0 0, m, f)
    | bsHandleProtocol h g =>
        if bool_decide (g = EFIDevicePathProtocolGUID) then (mkBootAnswer efiSuccess (if h =? 7 then 0x3000 else 0x4000) 0, m, f)
        else (mkBootAnswer 0x800000000000000E 0 0, m, f)
    | bsLocateHandleBuffer _ _ => (mkBootAnswer efiSuccess 0x2000 1, m, f)
    | bsInstallMultipleProtocolInterfaces _ _ => (mkBootAnswer efiSuccess 7 0, m, f)
    | bsLoadImage _ _ _ _ => (mkBootAnswer efiSuccess 11 0, m, f)
    | _ => (mkBootAnswer efiSuccess 0 0, m, f)
    end
}.
#[global] Program Instance still_firmware_ok : FirmwareOk stillFw := {
  owned f x := fst (sf_heap f) <= x < snd (sf_heap f);
  isImage h := False;
  lipOf h := 0
}.
Next Obligation. intros c m f a m' f' E _ x Hx. cbn [fwStep still_firmware] in E. destruct c; try (by injection E as <- <- <-). case_bool_decide; by injection E as <- <- <-. Qed.
Next Obligation.
  intros c m f a m' f' p n E Hg. cbn [fwStep still_firmware] in E. unfold granted in Hg.
  destruct c; (try by destruct (negb _)); injection E as <- <- <-; discriminate Hg.
Qed.
Next Obligation. intros h m f a m' f' E Hs _. cbn [fwStep still_firmware] in E. vm_compute in E. injection E as <- <- <-. discriminate Hs. Qed.
Next Obligation. intros c m f a m' f' h E _ Hi. by destruct Hi. Qed.
Next Obligation. intros f h x Hi. by destruct Hi. Qed.
Next Obligation. intros h h' x Hi. by destruct Hi. Qed.

Definition demoHeap : goHeap := mkHeap 0x10000000 0x5000 0x5100 0x3000 0x5300 0x5400 [0x6000; 0x6010; 0x6020; 0x6030].
Definition demoDisk : list byte := make 510 ++ [x55; xaa] ++ str "EFI PART" ++ make 80.
Definition demoChild : list byte := take 20 buildBlockIOPublishDevicePath ++ [x04; x01; x05; x00; x2a] ++ [x7f; xff; x04; x00].
Definition diskDecoders : Decoders := mkDecoders (fun _ => None) (fun _ => Some (mkManifest 2 MediaTypeOCIManifest (toyDesc [] None) [toyDesc demoDisk None])) (fun _ => Some ([], [])).
Definition diskMirror : mirror :=
  [(str "http://h/v2/bsd/manifests/v1", okResponse ∅ (str "M")); (str "http://h/v2/bsd/blobs/" ++ DigestFromBytes toyHash demoDisk, okResponse ∅ demoDisk)].
Definition diskMachine : Machine stillFw :=
  mkMachine (mkStill (0x10000000, 0x10000000 + 768 * 1024 * 1024 + 512)) (allocAt (allocAt ∅ 0x2000 (le64 9)) 0x4000 demoChild) 1 1 [].
Definition diskStart : BootSt mirror stillFw pubState :=
  mkBoot (NewRegistryWithTransport diskMirror None toyRef) diskMachine (mkPub blockIOInit (mkWorld ∅ (replicate sfsPublishRegistrySize emptySfs) (replicate sfsFileHandleRegistrySize emptyHandle) ∅ (repeat 0 10) 0)).
Definition demoConfig : diskBootConfig := freebsdBoot (str "http://h/bsd:v1").
Abbreviation diskRun :=
  (runOCIDiskBootProbe toyHash diskDecoders mirrorStream (fun _ => inr ErrUFS) id demoHeap demoConfig [x0a; x00; x00; x01] diskStart).

Example diskRun_starts : started (mc_calls (bt_mach (snd diskRun))) = true.
Proof. vm_compute. reflexivity. Qed.

Lemma demo_startOk : startOk demoHeap demoConfig diskStart.
Proof.
  split.
  - split; [|intros p Hp|done].
    + intros i j p q Hij Hp Hq. do 6 (destruct i as [|i]; [injection Hp as <-; do 6 (destruct j as [|j]; [first [done | injection Hq as <-; vm_compute; first [left; discriminate | right; discriminate]]|]); discriminate Hq|]). discriminate Hp.
    + apply list_elem_of_lookup in Hp as (i & Hi). do 6 (destruct i as [|i]; [injection Hi as <-; vm_compute; by split|]). discriminate Hi.
  - vm_compute. reflexivity.
  - intros x Hx. unfold within in Hx. change (gh_image demoHeap) with 0x10000000 in Hx. change (diskMaxImageSize demoConfig) with (768 * 1024 * 1024) in Hx.
    change (0x10000000 <= x < 0x10000000 + 768 * 1024 * 1024 + 512). lia.
  - reflexivity.
  - apply bioReach_inv. constructor.
  - intros i e Hi. cbn [pb_bio bt_cfg diskStart bio_registry blockIOInit] in Hi. apply lookup_replicate in Hi as [-> _]. discriminate.
Qed.

Lemma disk_boot_serves_verified_image_witness :
  exists r s' pre h m a post blk (s1 : BootSt mirror stillFw pubState), diskRun = (r, s') /\ mc_calls (bt_mach s') = pre ++ (bsStartImage h, m, a) :: post /\
    m = mc_mem (bt_mach s1) /\
    diskReady toyHash diskDecoders demoHeap diskMirror [x0a; x00; x00; x01] demoConfig pre blk h s1.
Proof.
  pose proof diskRun_starts as Hb. destruct diskRun as [r s'] eqn:E. cbn [snd] in Hb.
  destruct (disk_boot_serves_verified_image toyHash diskDecoders mirrorStream (fun _ => inr ErrUFS) id demoHeap demoConfig [x0a; x00; x00; x01] diskStart r s' demo_startOk E) as (new & En & Hnew).
  cbn [diskStart bt_mach diskMachine mc_calls app] in En. destruct Hnew as [Hq|(pre & h & m & a & post & Hn & _ & _ & (blk & vol & s1 & _ & Hm & Hr))].
  - exfalso. apply quiet_not_started in Hq. rewrite En in Hb. congruence.
  - exists r, s', pre, h, m, a, post, blk, s1. split; [reflexivity|]. split; [by rewrite En, Hn|]. split; [exact Hm|exact Hr].
Defined.
