(* ===== verification/CosignProbe.v ===== *)
(** * The signature programs

    src/phase2_oci_cosign_verify.go: the check of a signed image in a registry,
    and the self-test that runs without one, over a transport of its own.  Key
    generation, the PEM and PKIX encodings and ECDSA are the standard library's;
    bringing the network up is NetUp.v. *)

From S2P Require Import Prelude Effects NetIP GoStr Base64 Http OciRef OciFetch Cosign BootMenu.

Section real.
Context {T K : Type} `{Transport T}.
Variable Sum256 : list byte -> list byte.
Variable VerifyASN1 : K -> list byte -> list byte -> bool.
Variable J : Decoders.
Variable JC : CosignDecoders.
Variable goarch : list byte.
Variable pemDecode : list byte -> option (list byte).
Variable ParsePKIXPublicKey : list byte -> publicKey K + error.
Notation RegM := (M (Registry T)).

(** The manifest behind the reference, through the index when there is one. *)
Definition rawManifestOf (ref : Ref) : RegM (list byte) :=
  i <- FetchManifestRaw (ref_Reference ref) ;;
  let '(rawIndex, contentType) := i in
  if IsIndex J rawIndex contentType then
    idx <- lift (ParseIndex J rawIndex) ;;
    picked <- lift (PickPlatform idx (str "linux") goarch) ;;
    m <- FetchManifestRaw (d_Digest picked) ;;
    ret (fst m)
  else ret rawIndex.

(** From the lease on: the digest that is reported as signed. *)
Definition runCosignRealImage (cosignTargetRef cosignEmbeddedPubKey : list byte) (dns : IP) : RegM (list byte) :=
  ref <- lift (ParseRef cosignTargetRef) ;;
  modify (fun r => mkRegistry (reg_Transport r) (Some dns) ref (15 * second) (60 * second) []) ;;;
  Authenticate ;;;
  rawManifest <- rawManifestOf ref ;;
  let manifestDigest := DigestFromBytes Sum256 rawManifest in
  v <- lift (NewCosignVerifier pemDecode ParsePKIXPublicKey cosignEmbeddedPubKey) ;;
  Verify Sum256 VerifyASN1 JC (Some v) ref manifestDigest ;;;
  ret manifestDigest.
End real.

(** ** The self-test *)

(** The registry of the self-test: one manifest. *)
Record cosignSelfTestTransport := mkCosignSelfTest { tagURL : list byte; body : list byte }.
Definition newCosignSelfTestTransport (ref : Ref) (tag manifest : list byte) : cosignSelfTestTransport :=
  mkCosignSelfTest (ref_Scheme ref ++ str "://" ++ ref_Host ref ++ str "/v2/" ++ ref_Repo ref ++ str "/manifests/" ++ tag) manifest.
#[global] Instance cosign_selftest : Transport cosignSelfTestTransport := {
  tGet url _ := fun t =>
    (Ok (if bool_decide (url = tagURL t)
         then mkResponse 200 (str "HTTP/1.1 200 OK (selftest)") {[str "content-type" := MediaTypeOCIManifest]} (body t)
         else mkResponse 404 (str "HTTP/1.1 404 Not Found (selftest)") ∅ (str "selftest: unknown url")), t)
}.

Definition CosignSimpleSigningMediaType : list byte := str "application/vnd.dev.cosign.simplesigning.v1+json".
Definition buildCosignSelfTestSigManifest (sigB64 : list byte) : list byte :=
  dq "{'schemaVersion':2,'mediaType':'" ++ MediaTypeOCIManifest ++
  dq "','layers':[{'mediaType':'" ++ CosignSimpleSigningMediaType ++
  dq "','digest':'sha256:1111111111111111111111111111111111111111111111111111111111111111','size':42,'annotations':{'" ++
  CosignSignatureAnnotation ++ dq "':'" ++ sigB64 ++ dq "'}}]}".

Section selftest.
Context {K P : Type}.
Variable Sum256 : list byte -> list byte.
Variable VerifyASN1 : K -> list byte -> list byte -> bool.
Variable JC : CosignDecoders.
Variable pemDecode : list byte -> option (list byte).
Variable ParsePKIXPublicKey : list byte -> publicKey K + error.
(** ecdsa.GenerateKey, x509.MarshalPKIXPublicKey, pem.EncodeToMemory and
    ecdsa.SignASN1 with the randomness they were given. *)
Variable generateKey : out P.
Variable marshalPublic : P -> out (list byte).
Variable pemEncode : list byte -> list byte.
Variable SignASN1 : P -> list byte -> out (list byte).

(** [rawSig[len(rawSig)-1] ^= 0x01] *)
Definition tamper (rawSig : list byte) : out (list byte) :=
  let* b := idx rawSig (len rawSig - 1) in
  Ok (take (length rawSig - 1) rawSig ++ [z2b (Z.lxor b 1)]).

Definition selfTestDigest : list byte := str "sha256:0123456789abcdef0123456789abcdef0123456789abcdef0123456789abcdef".
Definition selfTestRefString : list byte := str "ghcr.io/cloud-boot/m7-1b-selftest:latest".

(** One run of the verifier over a transport that serves this signature. *)
Definition verifyServed (v : CosignVerifier K) (ref : Ref) (tag sigB64 : list byte) : out unit :=
  fst (Verify Sum256 VerifyASN1 JC (Some v) ref selfTestDigest
         (NewRegistryWithTransport (newCosignSelfTestTransport ref tag (buildCosignSelfTestSigManifest sigB64)) None ref)).

Definition runCosignSelfTest : out unit :=
  let* priv := generateKey in
  let* der := marshalPublic priv in
  let* v := NewCosignVerifier pemDecode ParsePKIXPublicKey (pemEncode der) in
  let* ref := ParseRef selfTestRefString in
  let payload := CanonicalPayload (ref_Host ref ++ str "/" ++ ref_Repo ref) selfTestDigest in
  let* sig := SignASN1 priv (Sum256 payload) in
  let sigB64 := EncodeToString sig in
  let* tag := SigTag selfTestDigest in
  let* _ := verifyServed v ref tag sigB64 in
  let* rawSig := tamper (default [] (DecodeString sigB64)) in
  match verifyServed v ref tag (EncodeToString rawSig) with
  | Ok _ => Err ErrTamperedAccepted
  | Err _ => Ok tt
  | Panic => Panic
  end.
End selftest.

(** ** A signed image *)

Section real_ok.
Context {T K : Type} `{Transport T}.
Variable Sum256 : list byte -> list byte.
Variable VerifyASN1 : K -> list byte -> list byte -> bool.
Variable J : Decoders.
Variable JC : CosignDecoders.
Variable goarch : list byte.
Variable pemDecode : list byte -> option (list byte).
Variable ParsePKIXPublicKey : list byte -> publicKey K + error.

(** A manifest that the registry was seen to answer for this reference. *)
Definition answered (ref : Ref) (raw : list byte) : Prop :=
  exists (r : Registry T) tag ct r', reg_Ref r = ref /\ FetchManifestRaw tag r = (Ok (raw, ct), r').

Lemma rawManifestOf_ok ref (r : Registry T) raw r' :
  reg_Ref r = ref -> rawManifestOf J goarch ref r = (Ok raw, r') -> answered ref raw.
Proof.
  intros Hr. unfold rawManifestOf. intros ([rawIndex ct] & r1 & Hf & Hk)%bind_ok. destruct (IsIndex J rawIndex ct).
  - apply bind_ok in Hk as (ix & r2 & [_ ->]%lift_ok & (picked & r3 & [_ ->]%lift_ok & ([m ct'] & r4 & Hm & [-> ->]%ret_ok)%bind_ok)%bind_ok).
    eexists r1, (d_Digest picked), ct', _. split; [|exact Hm]. rewrite <- Hr.
    assert (frames reg_Ref (@FetchManifestRaw T _ (ref_Reference ref))) as Hfr by (unfold FetchManifestRaw; go_frame). specialize (Hfr r). by rewrite Hf in Hfr.
  - apply ret_ok in Hk as [-> ->]. by eexists r, (ref_Reference ref), ct, _.
Qed.

(** A digest is only reported as signed when it is that of a manifest the
    registry answered for the target, and the embedded key, an ECDSA key on
    P-256, verifies a signature for it in one of the forms of Cosign.v, of which only
    two bind the repository of the target. *)
Theorem cosign_program_sound cosignTargetRef cosignEmbeddedPubKey dns (r r' : Registry T) digest :
  runCosignRealImage Sum256 VerifyASN1 J JC goarch pemDecode ParsePKIXPublicKey cosignTargetRef cosignEmbeddedPubKey dns r = (Ok digest, r') ->
  exists ref raw block pub, ParseRef cosignTargetRef = Ok ref /\ answered ref raw /\ digest = DigestFromBytes Sum256 raw /\
    pemDecode cosignEmbeddedPubKey = Some block /\ ParsePKIXPublicKey block = inl (ECDSAKey (Some (str "P-256")) pub) /\
    endorsed Sum256 VerifyASN1 JC pub ref digest.
Proof.
  unfold runCosignRealImage. intros (ref & r1 & [Href ->]%lift_ok & (u & r2 & [= _ <-] & ([] & r3 & Ha & Hk)%bind_ok)%bind_ok)%bind_ok.
  pose proof (Authenticate_ref (mkRegistry (reg_Transport r) (Some dns) ref (15 * second) (60 * second) [])) as Hr3. rewrite Ha in Hr3. cbn [snd reg_Ref] in Hr3.
  apply bind_ok in Hk as (raw & r4 & Hraw & (v & r5 & [Hv ->]%lift_ok & ([] & r6 & Hver & [-> ->]%ret_ok)%bind_ok)%bind_ok).
  apply (rawManifestOf_ok ref) in Hraw; [|exact Hr3]. apply (Verify_accepted Sum256 VerifyASN1 JC) in Hver.
  pose proof Hver as (pub & ? & ? & ? & ? & ? & ? & ? & ? & ? & [= ->] & _). apply (accepted_endorsed Sum256 VerifyASN1 JC) in Hver as Hend.
  unfold NewCosignVerifier in Hv. destruct (pemDecode cosignEmbeddedPubKey) as [block|] eqn:Eb; [|discriminate Hv].
  destruct (ParsePKIXPublicKey block) as [[curve k|]|e] eqn:Ek; [|discriminate Hv..]. case_bool_decide as Hc; [|discriminate Hv].
  injection Hv as <-. subst curve. by exists ref, raw, block, k.
Qed.
End real_ok.

(** ** The self-test *)

Section selftest_ok.
Context {K P : Type}.
Variable Sum256 : list byte -> list byte.
Variable VerifyASN1 : K -> list byte -> list byte -> bool.
Variable JC : CosignDecoders.

(** The JSON that was built is what the decoder makes of it. *)
Definition selfTestLayer (sigB64 : list byte) : sigLayerDescr :=
  mkSigLayer CosignSimpleSigningMediaType (str "sha256:1111111111111111111111111111111111111111111111111111111111111111") 42 {[CosignSignatureAnnotation := sigB64]}.
Hypothesis decodes : forall s, jsonSigManifest JC (buildCosignSelfTestSigManifest (EncodeToString s)) =
  Some (mkSigManifest 2 MediaTypeOCIManifest [selfTestLayer (EncodeToString s)]).

Definition selfTestRef : Ref := mkRef (str "https") (str "ghcr.io") (str "cloud-boot/m7-1b-selftest") (str "latest").
Definition selfTestTag : list byte := str "sha256-0123456789abcdef0123456789abcdef0123456789abcdef0123456789abcdef.sig".
Definition signedDigest : list byte := Sum256 (CanonicalPayload (str "ghcr.io/cloud-boot/m7-1b-selftest") selfTestDigest).

Lemma selfTest_ref : ParseRef selfTestRefString = Ok selfTestRef.
Proof. vm_compute. reflexivity. Qed.
Lemma selfTest_tags : candidateSigTags selfTestDigest = Ok [selfTestTag; str "sha256-0123456789abcdef0123456789abcdef0123456789abcdef0123456789abcdef"].
Proof. vm_compute. reflexivity. Qed.

Lemma EncodeToString_nonempty s : s <> [] -> EncodeToString s <> [].
Proof. intros Hs E. pose proof (DecodeString_Encode s) as Hd. rewrite E in Hd. injection Hd as <-. done. Qed.

Lemma selfTest_manifest_nonempty b64 : len (buildCosignSelfTestSigManifest b64) <> 0.
Proof.
  unfold buildCosignSelfTestSigManifest. rewrite len_app. assert (0 < len (dq "{'schemaVersion':2,'mediaType':'")) by (vm_compute; reflexivity).
  match goal with |- _ + len ?x <> 0 => pose proof (len_nonneg x) end. lia.
Qed.

(** The verifier over the self-test's registry asks the key about this one
    signature. *)
Lemma verifyServed_run pub s :
  s <> [] ->
  verifyServed Sum256 VerifyASN1 JC (mkCosignVerifier (Some pub)) selfTestRef selfTestTag (EncodeToString s) =
  if VerifyASN1 pub signedDigest s then Ok tt else Err ErrCosignNoMatchingSignature.
Proof using decodes.
  intros Hs. unfold verifyServed, Verify. cbn [PubKey].
  assert (exists hexd, ParseDigest selfTestDigest = Ok (str "sha256", hexd)) as [hexd ->] by (eexists; vm_compute; reflexivity).
  rewrite selfTest_tags. set (r := NewRegistryWithTransport _ None selfTestRef).
  assert (FetchManifestRaw selfTestTag r = (Ok (buildCosignSelfTestSigManifest (EncodeToString s), MediaTypeOCIManifest), r)) as Hf.
  { unfold r, FetchManifestRaw. reflexivity. }
  unfold bind at 1, lift at 1. cbn [fetchTags]. unfold bind at 1 2, try at 1. rewrite Hf. cbn [fst]. unfold ret at 1. unfold bind at 1, lift at 1.
  unfold parseSigManifest. rewrite decodes. rewrite (proj2 (Z.eqb_neq _ 0)) by apply selfTest_manifest_nonempty.
  cbn [sm_Layers]. change (len [selfTestLayer (EncodeToString s)] =? 0) with false. cbv zeta.
  assert (EncodeToString s <> []) as Hb by by apply EncodeToString_nonempty.
  unfold bind, collectSignatures. cbn [sm_Layers collectFrom selfTestLayer sl_Annotations]. rewrite lookup_singleton_eq. cbn [default from_option id]. cbv zeta.
  rewrite bool_decide_eq_false_2 by done. cbn [negb]. rewrite DecodeString_Encode. cbn [app fst]. change (len [mkParsed sigFormatLegacy s [] [] [] []] =? 0) with false.
  unfold lift. cbn [fst verifyLoop verifyOne ps_format ps_bytes]. reflexivity.
Qed.

(** The signature with its last bit turned. *)
Definition flipped (s : list byte) : list byte :=
  take (length s - 1) s ++ [z2b (Z.lxor (b2z (nth (Z.to_nat (len s - 1)) s x00)) 1)].
Lemma tamper_ok s : s <> [] -> tamper s = Ok (flipped s) /\ flipped s <> [].
Proof.
  intros Hs. assert (0 < len s) by (destruct s; [done|len_lia]). unfold tamper, flipped. rewrite idx_ok by lia. split; [done|]. by destruct (take _ _).
Qed.

(** Over a key pair whose encodings round-trip and a JSON decoder that reads back
    what was built, the self-test reports success exactly when the key accepts
    the signature just made over the canonical payload and rejects it with its
    last bit turned; each of the two failures has its own error. *)
Theorem cosign_self_test_spec pemDecode ParsePKIXPublicKey (generateKey : out P) marshalPublic pemEncode SignASN1 priv der block pub sig :
  generateKey = Ok priv -> marshalPublic priv = Ok der -> pemDecode (pemEncode der) = Some block ->
  ParsePKIXPublicKey block = inl (ECDSAKey (Some (str "P-256")) pub) -> SignASN1 priv signedDigest = Ok sig -> sig <> [] ->
  runCosignSelfTest Sum256 VerifyASN1 JC pemDecode ParsePKIXPublicKey generateKey marshalPublic pemEncode SignASN1 =
    if negb (VerifyASN1 pub signedDigest sig) then Err ErrCosignNoMatchingSignature
    else if VerifyASN1 pub signedDigest (flipped sig) then Err ErrTamperedAccepted else Ok tt.
Proof using decodes.
  intros Hg Hm Hpem Hpkix Hsign Hne. destruct (tamper_ok sig Hne) as [Ht Hne']. unfold runCosignSelfTest.
  rewrite Hg. cbn [out_bind]. rewrite Hm. cbn [out_bind]. unfold NewCosignVerifier. rewrite Hpem, Hpkix, bool_decide_eq_true_2 by done. cbn [negb out_bind].
  rewrite selfTest_ref. cbn [out_bind ref_Host ref_Repo selfTestRef].
  change (str "ghcr.io" ++ str "/" ++ str "cloud-boot/m7-1b-selftest") with (str "ghcr.io/cloud-boot/m7-1b-selftest"). fold signedDigest.
  rewrite Hsign. cbn [out_bind].
  assert (SigTag selfTestDigest = Ok selfTestTag) as -> by (vm_compute; reflexivity). cbn [out_bind].
  change (mkRef _ _ _ _) with selfTestRef. rewrite verifyServed_run by done. destruct (VerifyASN1 pub signedDigest sig); cbn [negb out_bind]; [|done].
  rewrite DecodeString_Encode. cbn [from_option id]. rewrite Ht. cbn [out_bind]. rewrite verifyServed_run by done.
  by destruct (VerifyASN1 pub signedDigest (flipped sig)).
Qed.
End selftest_ok.

(** ** Runs *)

(** A decoder of the one JSON shape that the self-test builds. *)
Definition selfTestPrefix : list byte :=
  dq "{'schemaVersion':2,'mediaType':'" ++ MediaTypeOCIManifest ++ dq "','layers':[{'mediaType':'" ++ CosignSimpleSigningMediaType ++
  dq "','digest':'sha256:1111111111111111111111111111111111111111111111111111111111111111','size':42,'annotations':{'" ++
  CosignSignatureAnnotation ++ dq "':'".
Definition shapeDecoder : CosignDecoders :=
  mkCosignDecoders (fun raw => Some (mkSigManifest 2 MediaTypeOCIManifest [selfTestLayer (drop (length selfTestPrefix) (take (length raw - 5) raw))]))
    (fun _ => None) (fun _ => None).
Lemma shapeDecoder_ok s : jsonSigManifest shapeDecoder (buildCosignSelfTestSigManifest (EncodeToString s)) =
  Some (mkSigManifest 2 MediaTypeOCIManifest [selfTestLayer (EncodeToString s)]).
Proof.
  assert (buildCosignSelfTestSigManifest (EncodeToString s) = (selfTestPrefix ++ EncodeToString s) ++ dq "'}}]}") as ->.
  { unfold buildCosignSelfTestSigManifest, selfTestPrefix. by rewrite <- !app_assoc. }
  unfold shapeDecoder. cbn [jsonSigManifest]. rewrite length_app, take_app_length' by (change (length (dq "'}}]}")) with 5%nat; lia).
  by rewrite drop_app_length.
Qed.

Definition toyPKIX (der : list byte) : publicKey byte + error :=
  match der with [k] => inl (ECDSAKey (Some (str "P-256")) k) | _ => inr ErrCosignPEMBad end.
Lemma cosign_self_test_spec_witness :
  runCosignSelfTest toyHash toyVerify shapeDecoder Some toyPKIX (Ok x07) (fun k => Ok [k]) id (fun k d => Ok (toySign k d)) = Ok tt.
Proof.
  rewrite (cosign_self_test_spec toyHash toyVerify shapeDecoder shapeDecoder_ok Some toyPKIX (Ok x07) (fun k => Ok [k]) id (fun k d => Ok (toySign k d)) x07 [x07] [x07] x07
    (toySign x07 (signedDigest toyHash)) eq_refl eq_refl eq_refl eq_refl eq_refl ltac:(discriminate)).
  vm_compute. reflexivity.
Defined.

Definition signedMirror : mirror := (manifestURL toyRef (str "v1"), okResponse ∅ (str "kernel")) :: sigMirror.
Definition signedLayers : CosignDecoders := toyCosign [layerWith (EncodeToString (sigOf x07))].
Abbreviation signedRun :=
  (runCosignRealImage toyHash toyVerify (mkDecoders (fun _ => None) (fun _ => None) (fun _ => None)) signedLayers (str "amd64")
    Some toyPKIX (str "ghcr.io/cloud-boot/kernel:v1") [x07] [] (NewRegistryWithTransport signedMirror None toyRef)).
Example signedRun_digest : (match fst signedRun with Ok d => d | _ => [] end) = toyDigest.
Proof. vm_compute. reflexivity. Qed.

Lemma cosign_program_sound_witness :
  exists r', signedRun = (Ok toyDigest, r') /\ endorsed toyHash toyVerify signedLayers x07 toyRef toyDigest.
Proof.
  pose proof (fun digest r' => cosign_program_sound toyHash toyVerify (mkDecoders (fun _ => None) (fun _ => None) (fun _ => None)) signedLayers (str "amd64")
    Some toyPKIX (str "ghcr.io/cloud-boot/kernel:v1") [x07] [] (NewRegistryWithTransport signedMirror None toyRef) r' digest) as Hs.
  pose proof signedRun_digest as E. revert E Hs. generalize signedRun. intros [[d|e|] r'] E Hs; cbn [fst] in E; [|discriminate E|discriminate E].
  subst d. exists r'. split; [reflexivity|].
  destruct (Hs toyDigest r' eq_refl) as (ref & raw & block & pub & Href & _ & _ & [= <-] & [= <-] & He).
  assert (ref = toyRef) as -> by (vm_compute in Href; injection Href as <-; reflexivity). exact He.
Defined.
