(* ===== verification/ExtractKernel.v ===== *)
(** * The kernel extraction tool

    src/cmd/cloudboot-oci-extract/main.go: the kernel out of a Debian package,
    checked, wrapped as the layer the boot programs read, and pushed to a
    registry.  The archive walk and the checks are in ArMember.v; net/http, the
    xz, gzip and tar readers and writers and the JSON encoder are arguments. *)

From S2P Require Import Prelude Effects GoStr LittleEndian OciRef OciFetch BootEntry KernelBoot ArMember.

Definition efistubKernelMediaType : list byte := str "application/vnd.cloud-boot.efistub-kernel.v1".
Definition kernelLayerMediaType : list byte := str "application/vnd.docker.image.rootfs.diff.tar.gzip".
Definition coffMachineAMD64 : Z := 0x8664.
Definition coffMachineARM64 : Z := 0xaa64.
Definition coffMachineRISCV64 : Z := 0x5064.
Definition coffMachineLOONG64 : Z := 0x6264.

Definition coffMachineFor (arch : list byte) : out Z :=
  if bool_decide (arch ∈ [str "amd64"; str "x86_64"]) then Ok coffMachineAMD64
  else if bool_decide (arch ∈ [str "arm64"; str "aarch64"]) then Ok coffMachineARM64
  else if bool_decide (arch ∈ [str "riscv64"]) then Ok coffMachineRISCV64
  else if bool_decide (arch ∈ [str "loong64"; str "loongarch64"]) then Ok coffMachineLOONG64
  else Err ErrUnknownArch.

(** ** The kernel in a tar stream *)

Definition candidate := option (list byte * list byte).

(** The name after the last slash. *)
Definition baseName (name : list byte) : out (list byte) :=
  let i := LastIndexByte name x2f in if 0 <=? i then sliceFrom name (i + 1) else Ok name.

(** The loop of findKernelInTar; [vmlinuz] and [vmlinux] hold the name and the
    data of the first file of each kind.  The names of the architecture are
    looked for in the file name, but what that gives is not used. *)
Fixpoint walkTar (entries : list tarEntry) (fin : option error) (vmlinuz vmlinux : candidate) : out (list byte * list byte) :=
  match entries with
  | [] =>
      match fin, vmlinuz, vmlinux with
      | Some err, _, _ => Err err
      | None, Some (name, data), _ | None, None, Some (name, data) => Ok (data, name)
      | None, None, None => Err ErrVmlinuzNotFound
      end
  | h :: r =>
      if negb (bool_decide (te_Typeflag h = TypeReg)) then walkTar r fin vmlinuz vmlinux
      else
        let* base := baseName (te_Name h) in
        let isZ := HasPrefix base (str "vmlinuz") || negb (HasPrefix base (str "vmlinux")) && HasPrefix base (str "Image") in
        let isX := HasPrefix base (str "vmlinux") in
        if negb isZ && negb isX then walkTar r fin vmlinuz vmlinux
        else
          match te_Err h with
          | Some err => Err err
          | None =>
              let c := Some (base, te_Data h) in
              if isZ then walkTar r fin (match vmlinuz with None => c | Some _ => vmlinuz end) vmlinux
              else walkTar r fin vmlinuz (match vmlinux with None => c | Some _ => vmlinux end)
          end
  end.
Definition findKernelInTar (entries : list tarEntry) (fin : option error) : out (list byte * list byte) := walkTar entries fin None None.

Section fetch.
(** http.Get and io.ReadAll: the status and the body. *)
Variable httpGet : list byte -> (Z * list byte) + error.
Variables readTarXz readTarGz readTar : list byte -> tarGz.

(** [None] when the archive walk has not ended within the fuel. *)
Definition fetchKernelDeb (fuel : nat) (url : list byte) : option (out (list byte * list byte)) :=
  match httpGet url with
  | inr err => Some (Err err)
  | inl (status, debBytes) =>
      if negb (status =? 200) then Some (Err (ErrRegistryStatus url status))
      else
        match arFindMember fuel debBytes (str "data.tar.") with
        | None => None
        | Some r => Some (
            let* (dataBytes, dataName) := r in
            let stream := if HasSuffix dataName (str ".xz") then readTarXz dataBytes
                          else if HasSuffix dataName (str ".gz") then readTarGz dataBytes else readTar dataBytes in
            match stream with
            | inr err => Err err
            | inl (entries, fin) => findKernelInTar entries fin
            end)
        end
  end.

Definition fetchKernel (fuel : nat) (src : list byte) : option (out (list byte * list byte)) :=
  if HasPrefix src (str "deb:") then fetchKernelDeb fuel (TrimPrefix src (str "deb:"))
  else if HasPrefix src (str "oci:") then Some (Err ErrNotImplemented)
  else Some (Err ErrUnsupportedScheme).

(** ** The artifact (main, steps 1 to 3) *)

Variable Sum256 : list byte -> list byte.
(** The writers over one regular file of mode 0644. *)
Variable writeTarGz : list byte -> list byte -> out (list byte).

Definition packageAsTarGz (data name : list byte) : out (list byte) := writeTarGz name data.
Definition digestOf (b : list byte) : list byte * Z := (DigestFromBytes Sum256 b, len b).

Record descriptor := mkDescriptor { ds_MediaType : list byte; ds_Digest : list byte; ds_Size : Z; ds_Data : list byte; ds_Annotations : list (list byte * list byte) }.
Record kernelManifest := mkKernelManifest {
  km_ArtifactType : list byte; km_Config : descriptor; km_Layer : descriptor; km_Annotations : list (list byte * list byte)
}.
Variable marshalManifest : kernelManifest -> out (list byte).

(** [fmt.Sprintf("0x%04x", v)] *)
Definition hex4 (v : Z) : list byte := let d := FormatUint v 16 in str "0x" ++ repeat x30 (4 - length d) ++ d.

Definition configJSON : list byte := str "{}".
Definition manifestFor (kernel kernelName layer src arch cmdlineHint : list byte) (wantMachine : Z) : kernelManifest :=
  let '(layerDig, layerSize) := digestOf layer in
  let '(configDig, configSize) := digestOf configJSON in
  mkKernelManifest efistubKernelMediaType
    (mkDescriptor (str "application/vnd.oci.empty.v1+json") configDig configSize configJSON [])
    (mkDescriptor kernelLayerMediaType layerDig layerSize []
       [(str "org.opencontainers.image.title", kernelName); (str "cloud-boot.efistub.arch", arch);
        (str "cloud-boot.efistub.coff-machine", hex4 wantMachine); (str "cloud-boot.efistub.raw-size", FormatUint (len kernel) 10)])
    ([(str "org.opencontainers.image.description", str "cloud-boot EFI-stub kernel (extracted by cloudboot-oci-extract)");
      (str "cloud-boot.efistub.source", src)] ++
     (if bool_decide (cmdlineHint = []) then [] else [(str "cloud-boot.kernel.cmdline-hint", cmdlineHint)])).

Record artifact := mkArtifact { a_kernel : list byte; a_layer : list byte; a_layerDig : list byte; a_configDig : list byte; a_manifest : list byte }.

Definition buildArtifact (fuel : nat) (src arch cmdlineHint : list byte) : option (out artifact) :=
  match coffMachineFor arch with
  | Err e => Some (Err e)
  | Panic => Some Panic
  | Ok wantMachine =>
      match fetchKernel fuel src with
      | None => None
      | Some r => Some (
          let* (kernel, kernelName) := r in
          let* _ := validateEFIStub kernel wantMachine in
          let* layer := packageAsTarGz kernel (str "boot/vmlinuz") in
          let* manifestJSON := marshalManifest (manifestFor kernel kernelName layer src arch cmdlineHint wantMachine) in
          Ok (mkArtifact kernel layer (fst (digestOf layer)) (fst (digestOf configJSON)) manifestJSON))
      end
  end.
End fetch.

(** ** The push *)

Inductive httpMethod := POST | PUT.
Record pushRequest := mkPush { rq_Method : httpMethod; rq_URL : list byte; rq_ContentType : option (list byte); rq_Authorization : option (list byte); rq_Body : list byte }.
(** The status and the Location header, empty when there is none. *)
Record pushResponse := mkPushResp { rs_Status : Z; rs_Location : list byte }.
(** http.DefaultClient.Do *)
Class Doer (W : Type) := { Do : pushRequest -> W -> (pushResponse + error) * W }.

Section push.
Context {W : Type} `{Doer W}.
(** Whether http.NewRequest takes the URL; its error is dropped, and the nil
    request then dereferenced. *)
Variable validURL : list byte -> bool.

Definition send (r : pushRequest) : M W pushResponse :=
  if validURL (rq_URL r) then fun w => let '(a, w') := Do r w in (ofSum a, w') else lift Panic.
Definition authReq (bearerToken : list byte) : option (list byte) :=
  if bool_decide (bearerToken = []) then None else Some (str "Bearer " ++ bearerToken).

(** Where a blob goes that the registry answered [loc] for. *)
Definition putURL (host loc dig : list byte) : list byte :=
  let loc := if HasPrefix loc (str "/") then str "https://" ++ host ++ loc else loc in
  let sep := if 0 <=? Index loc (str "?") then str "&" else str "?" in
  loc ++ sep ++ str "digest=" ++ dig.

Definition uploadBlob (host repo bearerToken blob dig : list byte) : M W unit :=
  let postURL := str "https://" ++ host ++ str "/v2/" ++ repo ++ str "/blobs/uploads/" in
  resp <- send (mkPush POST postURL None (authReq bearerToken) []) ;;
  throw_if negb (rs_Status resp =? 202) && negb (rs_Status resp =? 201) with ErrRegistryStatus postURL (rs_Status resp);;
  throw_if bool_decide (rs_Location resp = []) with ErrNoLocation;;
  let url := putURL host (rs_Location resp) dig in
  resp2 <- send (mkPush PUT url (Some (str "application/octet-stream")) (authReq bearerToken) blob) ;;
  throw_if negb (rs_Status resp2 =? 201) && negb (rs_Status resp2 =? 202) && negb (rs_Status resp2 =? 204) with ErrRegistryStatus url (rs_Status resp2);;
  ret tt.

Definition pushOCI (ref bearerToken configDig layer layerDig manifestJSON : list byte) : M W unit :=
  host <- lift (hostOf ref) ;;
  repo <- lift (repoOf ref) ;;
  tag <- lift (tagOf ref) ;;
  uploadBlob host repo bearerToken configJSON configDig ;;;
  uploadBlob host repo bearerToken layer layerDig ;;;
  let manifestURL := str "https://" ++ host ++ str "/v2/" ++ repo ++ str "/manifests/" ++ tag in
  resp <- send (mkPush PUT manifestURL (Some MediaTypeOCIManifest) (authReq bearerToken) manifestJSON) ;;
  throw_if negb (rs_Status resp =? 201) && negb (rs_Status resp =? 202) with ErrRegistryStatus manifestURL (rs_Status resp);;
  ret tt.

(** Both legs, and the exit status. *)
Definition pushBoth (dst pushToGHCR ghcrToken : list byte) (a : artifact) : M W Z :=
  let push ref token := try (pushOCI ref token (a_configDig a) (a_layer a) (a_layerDig a) (a_manifest a)) in
  primaryErr <- push dst [] ;;
  secondaryErr <- (if bool_decide (pushToGHCR = []) || bool_decide (ghcrToken = []) then ret (inl tt) else push pushToGHCR ghcrToken) ;;
  ret (match primaryErr, secondaryErr with inl _, inl _ => 0 | _, _ => 1 end).

(** The tool: the flags, the artifact, the push. *)
Definition extractMain (built : option (out artifact)) (src arch dst pushToGHCR ghcrToken : list byte) : option (M W Z) :=
  if bool_decide (src = []) || bool_decide (arch = []) || bool_decide (dst = []) then Some (ret 2)
  else
    match built with
    | None => None
    | Some (Ok a) => Some (pushBoth dst pushToGHCR ghcrToken a)
    | Some (Err _) => Some (ret 1)
    | Some Panic => Some (lift Panic)
    end.
End push.

(** ** The file that is taken *)

Definition baseOf (h : tarEntry) : list byte := drop (Z.to_nat (LastIndexByte (te_Name h) x2f + 1)) (te_Name h).
Definition isReg (h : tarEntry) : bool := bool_decide (te_Typeflag h = TypeReg).
(** A compressed kernel or an Image, and an uncompressed kernel. *)
Definition isVmlinux (h : tarEntry) : bool := isReg h && HasPrefix (baseOf h) (str "vmlinux").
Definition isVmlinuz (h : tarEntry) : bool :=
  isReg h && (HasPrefix (baseOf h) (str "vmlinuz") || negb (HasPrefix (baseOf h) (str "vmlinux")) && HasPrefix (baseOf h) (str "Image")).

Definition firstFile (p : tarEntry -> bool) (es : list tarEntry) : candidate := (fun h => (baseOf h, te_Data h)) <$> head (filter (fun h => p h = true) es).
Definition orElse (a b : candidate) : candidate := match a with Some _ => a | None => b end.
(** The first kernel file that cannot be read. *)
Definition badFile (es : list tarEntry) : option error := head (omap (fun h => if isVmlinuz h || isVmlinux h then te_Err h else None) es).

Lemma baseName_ok h : baseName (te_Name h) = Ok (baseOf h).
Proof.
  unfold baseName, baseOf. pose proof (LastIndexByte_range (te_Name h) x2f) as Hr. destruct (te_Name h) as [|c r] eqn:En; [done|]. rewrite <- En in *.
  assert (0 < len (te_Name h)) by (rewrite En; len_lia). destruct (Z.leb_spec 0 (LastIndexByte (te_Name h) x2f)).
  - unfold sliceFrom. rewrite slice_ok by lia. f_equal. apply take_ge. rewrite length_drop. unfold len in *. lia.
  - replace (LastIndexByte (te_Name h) x2f) with (-1) by lia. done.
Qed.

Lemma firstFile_cons p h es : firstFile p (h :: es) = if p h then Some (baseOf h, te_Data h) else firstFile p es.
Proof. unfold firstFile. rewrite filter_cons. destruct (p h) eqn:E; [by rewrite decide_True by done|by rewrite decide_False by done]. Qed.

Lemma walkTar_spec es fin : forall vz vx,
  walkTar es fin vz vx =
    match badFile es, fin, orElse vz (firstFile isVmlinuz es), orElse vx (firstFile isVmlinux es) with
    | Some err, _, _, _ | None, Some err, _, _ => Err err
    | None, None, Some (name, data), _ | None, None, None, Some (name, data) => Ok (data, name)
    | None, None, None, None => Err ErrVmlinuzNotFound
    end.
Proof.
  induction es as [|h es IH]; intros vz vx.
  - unfold firstFile, badFile. cbn. by destruct fin, vz as [[? ?]|], vx as [[? ?]|].
  - cbn [walkTar]. rewrite baseName_ok, !firstFile_cons. unfold badFile. cbn [omap list_omap]. fold (badFile es).
    unfold isVmlinuz, isVmlinux, isReg. destruct (bool_decide (te_Typeflag h = TypeReg)); cbn [negb andb orb out_bind]; [|apply IH].
    assert (HasPrefix (baseOf h) (str "vmlinuz") = true -> HasPrefix (baseOf h) (str "vmlinux") = false) as Hex.
    { unfold HasPrefix. intros Hz%bool_decide_eq_true. apply bool_decide_eq_false. change (length (str "vmlinux")) with (length (str "vmlinuz")). rewrite Hz. discriminate. }
    destruct (HasPrefix (baseOf h) (str "vmlinuz")) eqn:Ez; [rewrite (Hex eq_refl)|destruct (HasPrefix (baseOf h) (str "vmlinux")) eqn:Ex; [|destruct (HasPrefix (baseOf h) (str "Image"))]];
      cbn [negb andb orb]; try apply IH; destruct (te_Err h); cbn [head]; try done; rewrite IH; unfold orElse; by destruct vz, vx.
Qed.

Lemma VerifyDigest_own Sum256 b : len (Sum256 b) = 32 -> VerifyDigest Sum256 (DigestFromBytes Sum256 b) b = Ok tt.
Proof.
  intros Hl. unfold VerifyDigest. rewrite ParseDigest_computed by done. cbn [out_bind snd]. unfold EqualFold. by rewrite bool_decide_eq_true_2.
Qed.

(** The checks on the kernel include those of the boot programs. *)
Lemma validateEFIStub_MZ b want : validateEFIStub b want = Ok tt -> isMZ b = true.
Proof.
  unfold validateEFIStub, isMZ. destruct (Z.ltb_spec (len b) 0x40); [done|]. rewrite !idx_ok by lia. cbn [out_bind].
  destruct b as [|x [|y r]]; [by exfalso; unfold len in *; cbn in *; lia..|]. change (Z.to_nat 0) with 0%nat. change (Z.to_nat 1) with 1%nat. cbn [nth].
  destruct (Z.eqb_spec (b2z x) 0x4D) as [Ex|]; [|done]. cbn [negb orb]. destruct (Z.eqb_spec (b2z y) 0x5A) as [Ey|]; [|done]. intros _.
  rewrite (proj2 (Z.leb_le 2 _)) by lia. cbn [andb]. apply bool_decide_eq_true_2.
  assert (x = x4d) as -> by (by apply b2z_inj). assert (y = x5a) as -> by (by apply b2z_inj). done.
Qed.

(** A PE image for [machine]: the DOS signature, the offset of the PE header at 0x3C,
    and there the PE signature and the machine's number. *)
Definition peImage (b : list byte) (machine : Z) : Prop :=
  bytesAt b 0 2 = str "MZ" /\ exists off, littleEndian (bytesAt b 0x3C 4) = off /\ off + 6 <= len b /\
    bytesAt b off 4 = str "PE" ++ [x00; x00] /\ littleEndian (bytesAt b (off + 4) 2) = machine.
(** The machines' numbers in the PE format, by the names the tool knows. *)
Definition peMachines : list (list byte * Z) :=
  [(str "amd64", 0x8664); (str "x86_64", 0x8664); (str "arm64", 0xAA64); (str "aarch64", 0xAA64); (str "riscv64", 0x5064);
   (str "loong64", 0x6264); (str "loongarch64", 0x6264)].

Lemma coffMachineFor_pe arch machine : coffMachineFor arch = Ok machine -> (arch, machine) ∈ peMachines.
Proof.
  unfold coffMachineFor. repeat (case_bool_decide as Hin; [intros [= <-]; revert Hin; rewrite ?elem_of_cons, ?elem_of_nil; intros Hin; repeat (destruct Hin as [->|Hin]; [unfold peMachines; set_solver|]); done|clear Hin]).
  done.
Qed.

Lemma validateEFIStub_pe b want : validateEFIStub b want = Ok tt -> peImage b want.
Proof.
  unfold validateEFIStub, peImage. destruct (Z.ltb_spec (len b) 0x40) as [|Hl]; [done|]. rewrite !idx_ok by lia. cbn [out_bind].
  destruct b as [|x [|y r]]; [by exfalso; unfold len in *; cbn in *; lia..|]. change (Z.to_nat 0) with 0%nat. change (Z.to_nat 1) with 1%nat. cbn [nth].
  destruct (Z.eqb_spec (b2z x) 0x4D) as [Ex|]; [|done]. cbn [negb orb]. destruct (Z.eqb_spec (b2z y) 0x5A) as [Ey|]; [|done]. cbn [negb].
  assert (x = x4d) as -> by (by apply b2z_inj). assert (y = x5a) as -> by (by apply b2z_inj). set (b := x4d :: x5a :: r) in *.
  rewrite slice_ok by lia. cbn [out_bind]. intros Hv. split; [done|]. fold (bytesAt b 0x3C (0x40 - 0x3C)) in Hv. change (0x40 - 0x3C) with 4 in Hv.
  assert (length (bytesAt b 0x3C 4) = 4%nat) as H4 by (unfold bytesAt; rewrite length_take, length_drop; unfold len in Hl; lia).
  destruct (bytesAt b 0x3C 4) as [|b0 [|b1 [|b2 [|b3 [|]]]]]; try discriminate H4. cbn [leU32 out_bind] in Hv.
  pose proof (b2z_range b0). pose proof (b2z_range b1). pose proof (b2z_range b2). pose proof (b2z_range b3).
  rewrite (lor_above _ _ 8) in Hv by lia. rewrite (lor_above _ _ 16) in Hv by lia. rewrite (lor_above _ _ 24) in Hv by lia.
  set (off := b2z b0 + _ + _ + _) in Hv. exists off. split; [unfold littleEndian, off; cbn [foldr]; lia|].
  assert (0 <= off) by (unfold off; lia). destruct (Z.ltb_spec off 0); [lia|]. destruct (Z.ltb_spec (len b) (off + 6)); [done|]. cbn [orb] in Hv. split; [done|].
  rewrite slice_ok in Hv by lia. cbn [out_bind] in Hv. case_bool_decide as Hsig; [|done]. cbn [negb] in Hv.
  split; [by replace (off + 4 - off) with 4 in Hsig by lia|]. rewrite !idx_ok in Hv by lia. cbn [out_bind] in Hv.
  assert (forall k, (k < length b)%nat -> b !! k = Some (nth k b x00)) as Hnth by (intros k Hk; destruct (nth_lookup_or_length b k x00); [done|lia]).
  assert (bytesAt b (off + 4) 2 = [nth (Z.to_nat (off + 4)) b x00; nth (Z.to_nat (off + 5)) b x00]) as ->.
  { unfold bytesAt. change (Z.to_nat 2) with 2%nat. replace (Z.to_nat (off + 5)) with (S (Z.to_nat (off + 4))) by lia.
    rewrite (drop_S b (nth (Z.to_nat (off + 4)) b x00)) by (apply Hnth; unfold len in *; lia).
    rewrite (drop_S b (nth (S (Z.to_nat (off + 4))) b x00)) by (apply Hnth; unfold len in *; lia). done. }
  pose proof (b2z_range (nth (Z.to_nat (off + 4)) b x00)). pose proof (b2z_range (nth (Z.to_nat (off + 5)) b x00)).
  rewrite (lor_above _ _ 8) in Hv by lia. unfold littleEndian. cbn [foldr].
  destruct (Z.eqb_spec (b2z (nth (Z.to_nat (off + 4)) b x00) + b2z (nth (Z.to_nat (off + 5)) b x00) * 2 ^ 8) want); [lia|done].
Qed.

(** ** The artifact *)

(** The kernel of a package at [url]: its archive has a data member, and the
    tar stream in it this file, the first of the better kind, with no
    unreadable kernel anywhere. *)
Definition packagedKernel (readXz readGz readTar : list byte -> tarGz) (deb kernel kernelName : list byte) (fuel : nat) : Prop :=
  exists dataBytes dataName entries,
    arFindMember fuel deb (str "data.tar.") = Some (Ok (dataBytes, dataName)) /\
    (if HasSuffix dataName (str ".xz") then readXz dataBytes else if HasSuffix dataName (str ".gz") then readGz dataBytes else readTar dataBytes) = inl (entries, None) /\
    badFile entries = None /\ orElse (firstFile isVmlinuz entries) (firstFile isVmlinux entries) = Some (kernelName, kernel).

Section artifact_ok.
Variable httpGet : list byte -> (Z * list byte) + error.
Variables readTarXz readTarGz readTar : list byte -> tarGz.
Variable Sum256 : list byte -> list byte.
Variable writeTarGz : list byte -> list byte -> out (list byte).
Variable marshalManifest : kernelManifest -> out (list byte).
(** What archive/tar and compress/gzip write they read back. *)
Variable tar_roundtrip : forall name data layer, writeTarGz name data = Ok layer -> readTarGz layer = inl ([mkTar TypeReg name (len data) data None], None).
Variable hash_len : forall m, len (Sum256 m) = 32.

Lemma fetchKernel_ok fuel src kernel kernelName :
  fetchKernel httpGet readTarXz readTarGz readTar fuel src = Some (Ok (kernel, kernelName)) ->
  exists url deb, src = str "deb:" ++ url /\ httpGet url = inl (200, deb) /\ packagedKernel readTarXz readTarGz readTar deb kernel kernelName fuel.
Proof using.
  unfold fetchKernel. destruct (HasPrefix src (str "deb:")) eqn:Ep; [|by destruct (HasPrefix src (str "oci:"))].
  unfold TrimPrefix. rewrite Ep. apply HasPrefix_inv in Ep. set (url := drop _ src) in *. unfold fetchKernelDeb.
  destruct (httpGet url) as [[status deb]|e] eqn:Eg; [|done]. destruct (Z.eqb_spec status 200) as [->|]; [|done]. cbn [negb].
  destruct (arFindMember fuel deb (str "data.tar.")) as [r|] eqn:Ear; [|done]. intros E. injection E as E.
  destruct r as [[dataBytes dataName]|e|]; [|discriminate E..]. cbn [out_bind] in E.
  exists url, deb. split; [exact Ep|]. split; [exact Eg|]. exists dataBytes, dataName.
  destruct (if HasSuffix dataName (str ".xz") then _ else _) as [[entries fin]|e] eqn:Es; [|discriminate E].
  unfold findKernelInTar in E. rewrite walkTar_spec in E. exists entries. split; [exact Ear|].
  unfold orElse in *. destruct (badFile entries); [discriminate E|]. destruct fin; [discriminate E|]. split; [done|]. split; [done|].
  destruct (firstFile isVmlinuz entries) as [[n d]|]; [by injection E as -> ->|]. destruct (firstFile isVmlinux entries) as [[n d]|]; [by injection E as -> ->|discriminate E].
Qed.

(** C32. An artifact that the tool makes holds a kernel out of the package, a PE image
    of the machine that was asked for, in a layer that matches its digest; and both
    boot paths, the one that reads the whole file and the one that streams it,
    find in the layer exactly this kernel, with the signature they look for. *)
Theorem extracted_kernel_boots fuel src arch hint a :
  buildArtifact httpGet readTarXz readTarGz readTar Sum256 writeTarGz marshalManifest fuel src arch hint = Some (Ok a) ->
  exists url deb kernelName machine,
    src = str "deb:" ++ url /\ httpGet url = inl (200, deb) /\ packagedKernel readTarXz readTarGz readTar deb (a_kernel a) kernelName fuel /\
    (arch, machine) ∈ peMachines /\ peImage (a_kernel a) machine /\
    VerifyDigest Sum256 (a_layerDig a) (a_layer a) = Ok tt /\
    marshalManifest (manifestFor Sum256 (a_kernel a) kernelName (a_layer a) src arch hint machine) = Ok (a_manifest a) /\
    isMZ (a_kernel a) = true /\ extractVmlinuzFromTarGz readTarGz (a_layer a) kernelBootVmlinuzName = Ok (a_kernel a) /\
    exists entries, readTarGz (a_layer a) = inl (entries, None) /\ fileIn entries kernelBootVmlinuzName (a_kernel a).
Proof using tar_roundtrip hash_len.
  unfold buildArtifact. destruct (coffMachineFor arch) as [machine|e|] eqn:Em; [|done..].
  destruct (fetchKernel _ _ _ _ fuel src) as [r|] eqn:Ef; [|done]. intros E. injection E as E.
  destruct r as [[kernel kernelName]|e|]; [|discriminate E..]. cbn [out_bind] in E. apply fetchKernel_ok in Ef as (url & deb & Hsrc & Hget & Hpk).
  destruct (validateEFIStub kernel machine) as [[]|e|] eqn:Ev; [|discriminate E..]. cbn [out_bind] in E. unfold packageAsTarGz in E.
  destruct (writeTarGz _ kernel) as [layer|e|] eqn:Ew; [|discriminate E..]. cbn [out_bind] in E.
  destruct (marshalManifest _) as [manifest|e|] eqn:Emm; [|discriminate E..]. cbn [out_bind] in E. injection E as <-.
  cbn [a_kernel a_layer a_layerDig a_manifest digestOf fst]. pose proof (tar_roundtrip _ _ _ Ew) as Htar. pose proof (validateEFIStub_MZ _ _ Ev) as Hmz.
  exists url, deb, kernelName, machine. do 3 (split; [assumption|]). split; [by apply coffMachineFor_pe|]. split; [by apply validateEFIStub_pe|]. split; [by apply VerifyDigest_own|]. split; [exact Emm|]. split; [exact Hmz|]. split.
  - unfold extractVmlinuzFromTarGz. rewrite Htar. cbn [readAllFrom te_Name te_Err te_Data]. change (isRegular _) with true. cbn [negb]. by rewrite bool_decide_eq_true_2.
  - eexists. split; [exact Htar|]. exists [], (mkTar TypeReg (str "boot/vmlinuz") (len kernel) kernel None), []. cbn [te_Name te_Size te_Data]. split_and!; try done.
    + apply andb_true_iff in Hmz as [Hl _]. lia.
    + symmetry. apply take_ge. unfold len. lia.
Qed.
End artifact_ok.

(** ** Pushes *)

(** A client that remembers what it asked and what was answered. *)
Abbreviation exchange := (pushRequest * (pushResponse + error))%type.
Record Recorded (W : Type) := mkRecorded { rec_world : W; rec_log : list exchange }.
Arguments mkRecorded {W}. Arguments rec_world {W}. Arguments rec_log {W}.
#[global] Instance recorded_doer `{Doer W} : Doer (Recorded W) := {
  Do r w := let '(a, w') := Do r (rec_world w) in (a, mkRecorded w' (rec_log w ++ [(r, a)]))
}.

Section push_ok.
Context {W : Type} `{Doer W}.
Variable validURL : list byte -> bool.

Definition manifestPut (e : exchange) : Prop := rq_ContentType (fst e) = Some MediaTypeOCIManifest.
(** Every request carries the token, or none does. *)
Definition bearer (token : list byte) : option (list byte) := match token with [] => None | _ => Some (str "Bearer " ++ token) end.
Lemma authReq_bearer token : authReq token = bearer token.
Proof. by destruct token. Qed.
Definition withToken (token : list byte) (e : exchange) : Prop := rq_Authorization (fst e) = bearer token.
Definition answeredIn (codes : list Z) (e : exchange) : Prop := exists r, snd e = inl r /\ rs_Status r ∈ codes.

(** The two exchanges that bring one blob to the registry. *)
Definition uploaded (host repo token blob dig : list byte) (es : list exchange) : Prop :=
  exists post put loc, es = [post; put] /\ answeredIn [202; 201] post /\ answeredIn [201; 202; 204] put /\
    fst post = mkPush POST (str "https://" ++ host ++ str "/v2/" ++ repo ++ str "/blobs/uploads/") None (authReq token) [] /\
    (exists r, snd post = inl r /\ rs_Location r = loc) /\ loc <> [] /\
    fst put = mkPush PUT (putURL host loc dig) (Some (str "application/octet-stream")) (authReq token) blob.

(** A step: what it asks is added to the log. *)
Definition asks {A} (Q : list exchange -> Prop) (E : list exchange -> Prop) (r : out A * Recorded W) (w : Recorded W) : Prop :=
  exists new, rec_log (snd r) = rec_log w ++ new /\ match fst r with Ok _ => Q new | _ => E new end.

Lemma send_asks r (w : Recorded W) :
  match send validURL r w with
  | (Ok resp, w') => rec_log w' = rec_log w ++ [(r, inl resp)]
  | (Err e, w') => rec_log w' = rec_log w ++ [(r, inr e)]
  | (Panic, w') => w' = w
  end.
Proof.
  unfold send. destruct (validURL (rq_URL r)); [|done]. cbn [Do recorded_doer]. destruct (Do r (rec_world w)) as [[a|e] w']; done.
Qed.

Definition noManifest (token : list byte) (es : list exchange) : Prop := Forall (fun e => ~ manifestPut e /\ withToken token e) es.

Lemma uploadBlob_asks host repo token blob dig (w : Recorded W) :
  asks (uploaded host repo token blob dig) (noManifest token) (uploadBlob validURL host repo token blob dig w) w.
Proof.
  unfold uploadBlob, asks, bind. set (post := mkPush POST _ _ _ _). pose proof (send_asks post w) as H1.
  assert (forall a, ~ manifestPut (post, a) /\ withToken token (post, a)) as Hpost by (intros a; split; [discriminate|apply authReq_bearer]).
  destruct (send validURL post w) as [[resp|e|] w1]; cbn [fst snd].
  2: { exists [(post, inr e)]. split; [done|]. by constructor. }
  2: { subst w1. exists []. split; [by rewrite app_nil_r|constructor]. }
  assert (noManifest token [(post, inl resp)]) as Hn1 by (by constructor).
  destruct (negb (rs_Status resp =? 202) && negb (rs_Status resp =? 201)) eqn:Es; [by exists [(post, inl resp)]|].
  case_bool_decide as Eloc; [by exists [(post, inl resp)]|]. cbv zeta. set (put := mkPush PUT _ _ _ _). pose proof (send_asks put w1) as H2.
  assert (forall a, ~ manifestPut (put, a) /\ withToken token (put, a)) as Hput by (intros a; split; [discriminate|apply authReq_bearer]).
  destruct (send validURL put w1) as [[resp2|e|] w2]; cbn [fst snd].
  2: { exists [(post, inl resp); (put, inr e)]. split; [by rewrite H2, H1, <- app_assoc|]. apply Forall_cons; split; [apply Hpost|]. by constructor. }
  2: { subst w2. by exists [(post, inl resp)]. }
  assert (rec_log w2 = rec_log w ++ [(post, inl resp); (put, inl resp2)]) as E2 by (by rewrite H2, H1, <- app_assoc).
  destruct (negb (rs_Status resp2 =? 201) && negb (rs_Status resp2 =? 202) && negb (rs_Status resp2 =? 204)) eqn:Es2.
  { exists [(post, inl resp); (put, inl resp2)]. split; [exact E2|]. apply Forall_cons; split; [apply Hpost|]. by constructor. }
  exists [(post, inl resp); (put, inl resp2)]. split; [exact E2|]. exists (post, inl resp), (put, inl resp2), (rs_Location resp).
  split; [done|]. split; [exists resp; split; [done|]; set_unfold; lia|]. split; [exists resp2; split; [done|]; set_unfold; lia|].
  split; [done|]. split; [by exists resp|]. by split.
Qed.

Lemma uploaded_noManifest host repo token blob dig es : uploaded host repo token blob dig es -> noManifest token es.
Proof.
  intros ([post a] & [put b] & loc & -> & _ & _ & E1 & _ & _ & E2). cbn [fst] in E1, E2. subst post put.
  repeat constructor; unfold manifestPut; cbn; discriminate || apply authReq_bearer.
Qed.

Lemma refs_ok ref : exists host repo tag, hostOf ref = Ok host /\ repoOf ref = Ok repo /\ tagOf ref = Ok tag.
Proof.
  assert (Index ref (str "/") = -1 \/ 0 <= Index ref (str "/") < len ref) as Hi.
  { unfold Index. destruct (cutStr (str "/") ref) as [[x y]|] eqn:E; [right|by left]. apply cutStr_Some in E as ->. unfold len. rewrite !length_app. change (length (str "/")) with 1%nat. lia. }
  assert (forall r, LastIndexByte r x3a = -1 \/ 0 <= LastIndexByte r x3a < len r) as Hl.
  { intros r. pose proof (LastIndexByte_range r x3a). destruct r; [by left|]. rewrite len_cons in *. pose proof (len_nonneg r). lia. }
  unfold hostOf, repoOf, tagOf. pose proof (len_nonneg ref).
  assert (forall (r : list byte) lo, 0 <= lo <= len r -> exists s, sliceFrom r lo = Ok s) as Hfrom by (intros r lo Hr; unfold sliceFrom; rewrite slice_ok by lia; by eexists).
  assert (forall (r : list byte) hi, 0 <= hi <= len r -> exists s, sliceTo r hi = Ok s) as Hto by (intros r hi Hr; unfold sliceTo; rewrite slice_ok by lia; by eexists).
  assert (exists h, (if 0 <=? Index ref (str "/") then sliceTo ref (Index ref (str "/")) else Ok ref) = Ok h) as [h ->].
  { destruct (Z.leb_spec 0 (Index ref (str "/"))); [apply Hto; lia|by eexists]. }
  assert (exists r, (if 0 <=? Index ref (str "/") then sliceFrom ref (Index ref (str "/") + 1) else Ok ref) = Ok r) as [r ->].
  { destruct (Z.leb_spec 0 (Index ref (str "/"))); [apply Hfrom; lia|by eexists]. }
  cbn [out_bind]. assert (exists r', (if 0 <=? LastIndexByte r x3a then sliceTo r (LastIndexByte r x3a) else Ok r) = Ok r') as [r' ->].
  { destruct (Z.leb_spec 0 (LastIndexByte r x3a)); [apply Hto; destruct (Hl r); lia|by eexists]. }
  assert (exists t, (if Index ref (str "/") <? LastIndexByte ref x3a then sliceFrom ref (LastIndexByte ref x3a + 1) else Ok (str "latest")) = Ok t) as [t ->].
  { destruct (Z.ltb_spec (Index ref (str "/")) (LastIndexByte ref x3a)); [apply Hfrom; destruct (Hl ref); lia|by eexists]. }
  by exists h, r', t.
Qed.

Lemma noManifest_token token es : noManifest token es -> Forall (withToken token) es.
Proof. intros Hn. eapply Forall_impl; [exact Hn|]. by intros e []. Qed.

(** C33. A push asks for the manifest last: only after both blobs were taken is the
    manifest sent, and nothing after it.  When the push succeeds this was
    accepted; when it fails the manifest was not sent or was refused.  Every
    request of a push with a token carries it, and none of one without. *)
Theorem push_manifest_last ref token configDig layer layerDig manifestJSON (w : Recorded W) :
  exists host repo tag, hostOf ref = Ok host /\ repoOf ref = Ok repo /\ tagOf ref = Ok tag /\
  let r := pushOCI validURL ref token configDig layer layerDig manifestJSON w in
  exists new, rec_log (snd r) = rec_log w ++ new /\ Forall (withToken token) new /\
    ((fst r <> Ok tt /\ noManifest token new) \/
     exists e1 e2 a, new = e1 ++ e2 ++ [(mkPush PUT (str "https://" ++ host ++ str "/v2/" ++ repo ++ str "/manifests/" ++ tag) (Some MediaTypeOCIManifest) (authReq token) manifestJSON, a)] /\
       uploaded host repo token configJSON configDig e1 /\ uploaded host repo token layer layerDig e2 /\
       (fst r = Ok tt <-> exists resp, a = inl resp /\ rs_Status resp ∈ [201; 202])).
Proof.
  destruct (refs_ok ref) as (host & repo & tag & Eh & Er & Et). exists host, repo, tag. do 3 (split; [assumption|]). cbv zeta.
  destruct (pushOCI validURL ref token configDig layer layerDig manifestJSON w) as [o w'] eqn:E. cbn [fst snd].
  unfold pushOCI, lift in E. rewrite Eh, Er, Et in E. set (mput := mkPush PUT _ (Some MediaTypeOCIManifest) _ _). unfold bind in E.
  destruct (uploadBlob_asks host repo token configJSON configDig w) as (e1 & L1 & Q1). destruct (uploadBlob validURL host repo token configJSON configDig w) as [[[]|e|] w1]; cbn [fst snd] in L1, Q1.
  2-3: injection E as <- <-; exists e1; split; [exact L1|]; split; [by apply noManifest_token|]; left; by split.
  pose proof (uploaded_noManifest _ _ _ _ _ _ Q1) as N1.
  destruct (uploadBlob_asks host repo token layer layerDig w1) as (e2 & L2 & Q2). destruct (uploadBlob validURL host repo token layer layerDig w1) as [[[]|e|] w2]; cbn [fst snd] in L2, Q2.
  2-3: injection E as <- <-; exists (e1 ++ e2); split; [by rewrite L2, L1, app_assoc|]; split; [by apply noManifest_token, Forall_app|]; left; split; [done|by apply Forall_app].
  pose proof (uploaded_noManifest _ _ _ _ _ _ Q2) as N2. fold mput in E. pose proof (send_asks mput w2) as H3.
  assert (Forall (withToken token) (e1 ++ e2)) as Htok by (by apply noManifest_token, Forall_app).
  assert (forall a, Forall (withToken token) (e1 ++ e2 ++ [(mput, a)])) as Htok3 by (intros a; rewrite app_assoc; apply Forall_app; split; [exact Htok|repeat constructor; apply authReq_bearer]).
  destruct (send validURL mput w2) as [[resp|e|] w3].
  - exists (e1 ++ e2 ++ [(mput, inl resp)]).
    assert (w' = w3) as -> by (destruct (negb (rs_Status resp =? 201) && negb (rs_Status resp =? 202)); by injection E as _ <-).
    split; [by rewrite H3, L2, L1, <- !app_assoc|]. split; [apply Htok3|]. right. exists e1, e2, (inl resp). do 3 (split; [done|]).
    destruct (negb (rs_Status resp =? 201) && negb (rs_Status resp =? 202)) eqn:Es; injection E as <-.
    + split; [discriminate|]. intros (resp' & [= <-] & Hin). set_unfold. lia.
    + split; [intros _; exists resp; split; [done|]; set_unfold; lia|done].
  - injection E as <- <-. exists (e1 ++ e2 ++ [(mput, inr e)]). split; [by rewrite H3, L2, L1, <- !app_assoc|]. split; [apply Htok3|].
    right. exists e1, e2, (inr e). do 3 (split; [done|]). split; [discriminate|]. by intros (resp' & ? & _).
  - injection E as <- <-. subst w3. exists (e1 ++ e2). split; [by rewrite L2, L1, app_assoc|]. split; [exact Htok|]. left. split; [discriminate|by apply Forall_app].
Qed.
End push_ok.

(** ** Runs *)

(** A stream of one file: its name, a zero byte, its data. *)
Definition toyWrite (name data : list byte) : out (list byte) := if bool_decide (x00 ∈ name) then Err ErrBadJSON else Ok (name ++ x00 :: data).
Definition toyRead (b : list byte) : tarGz :=
  match cutByte x00 b with Some (n, d) => inl ([mkTar TypeReg n (len d) d None], None) | None => inr ErrGzip end.
Lemma toy_roundtrip name data layer : toyWrite name data = Ok layer -> toyRead layer = inl ([mkTar TypeReg name (len data) data None], None).
Proof. unfold toyWrite. case_bool_decide as Hn; [done|]. intros [= <-]. unfold toyRead. by rewrite cutByte_app. Qed.

Definition riscvKernel : list byte := str "MZ" ++ make 58 ++ [x40; x00; x00; x00] ++ str "PE" ++ [x00; x00; x64; x50] ++ str "code".
Definition kernelDeb : list byte :=
  encAr [mkMember (str "debian-binary") [] (repeat x30 32) (str "2.0" ++ [x0a]);
         mkMember (str "data.tar.zst") (str "/") (repeat x30 32) (str "./boot/vmlinuz-6.12" ++ x00 :: riscvKernel)].
Definition toyGet (url : list byte) : (Z * list byte) + error := if bool_decide (url = str "http://d/k.deb") then inl (200, kernelDeb) else inr ErrNotFound.
Abbreviation toyBuild := (buildArtifact toyGet toyRead toyRead toyRead toyHash toyWrite (fun m => Ok (km_ArtifactType m)) 3 (str "deb:http://d/k.deb") (str "riscv64") []).

Lemma toyBuild_kernel : match toyBuild with Some (Ok a) => Some (a_kernel a) | _ => None end = Some riscvKernel.
Proof. vm_compute. reflexivity. Qed.
Lemma extracted_kernel_boots_witness :
  exists a, toyBuild = Some (Ok a) /\ peImage (a_kernel a) 0x5064 /\ extractVmlinuzFromTarGz toyRead (a_layer a) kernelBootVmlinuzName = Ok riscvKernel.
Proof.
  pose proof (extracted_kernel_boots toyGet toyRead toyRead toyRead toyHash toyWrite (fun m => Ok (km_ArtifactType m)) toy_roundtrip toyHash_len
    3 (str "deb:http://d/k.deb") (str "riscv64") []) as Hx.
  pose proof toyBuild_kernel as E. revert Hx E. generalize toyBuild. intros [[a|e|]|] Hx E; [|discriminate E..]. injection E as E.
  destruct (Hx a eq_refl) as (url & deb & n & m & _ & _ & _ & Hm & Hpe & _ & _ & _ & Hex & _). exists a. split; [reflexivity|].
  assert (m = 0x5064) as ->. { clear -Hm. unfold peMachines in Hm. repeat (apply elem_of_cons in Hm as [E|Hm]; [first [discriminate E|by injection E]|]). by apply not_elem_of_nil in Hm. }
  split; [exact Hpe|]. rewrite <- E. exact Hex.
Defined.

(** A registry that answers every upload with the same place. *)
Record toyRegistry := mkToyRegistry { tr_location : list byte }.
#[global] Instance toy_registry : Doer toyRegistry := {
  Do r w := (inl (match rq_Method r with POST => mkPushResp 202 (tr_location w) | PUT => mkPushResp 201 [] end), w)
}.
Definition pushTo (loc : list byte) : out unit * Recorded toyRegistry :=
  pushOCI (fun _ => true) (str "ghcr.io/o/r:v1") (str "secret") (str "sha256:c") (str "layer") (str "sha256:l") (str "{m}") (mkRecorded (mkToyRegistry loc) []).
Example push_goes_through :
  fst (pushTo (str "/up/1")) = Ok tt /\
  map (fun e => rq_URL (fst e)) (rec_log (snd (pushTo (str "/up/1")))) =
    [str "https://ghcr.io/v2/o/r/blobs/uploads/"; str "https://ghcr.io/up/1?digest=sha256:c"; str "https://ghcr.io/v2/o/r/blobs/uploads/";
     str "https://ghcr.io/up/1?digest=sha256:l"; str "https://ghcr.io/v2/o/r/manifests/v1"].
Proof. split; vm_compute; reflexivity. Qed.

(** The token goes to whatever host the registry names for the upload. *)
Example push_token_follows_location :
  map (fun e => (rq_URL (fst e), rq_Authorization (fst e))) (take 1 (drop 1 (rec_log (snd (pushTo (str "http://elsewhere/x")))))) =
    [(str "http://elsewhere/x?digest=sha256:c", Some (str "Bearer secret"))].
Proof. vm_compute. reflexivity. Qed.

(** A Location that is not a URL makes the tool dereference a nil request. *)
Example push_bad_location_panics :
  fst (pushOCI (fun u => negb (HasPrefix u (str ":"))) (str "ghcr.io/o/r:v1") [] (str "sha256:c") (str "layer") (str "sha256:l") (str "{m}") (mkToyRegistry (str "::"))) = Panic.
Proof. vm_compute. reflexivity. Qed.
