(* ===== verification/Probes.v ===== *)
(** * Smoke-test programs

    The build-tagged programs that exercise one part of the system each: an
    embedded image handed to the firmware (src/phase2_efi_handover.go,
    phase2_efi_tiny_handover.go and the Decompress of internal/embed_chained and
    internal/embed_chained_tiny), an image fetched from a registry
    (phase2_oci_fetch.go, phase2_oci_stream_fetch.go), and the hand-written ARP
    request of phase2_virtionet_tx.go.  gzip is a parameter; bringing the network
    up is NetUp.v; what they print is left out, but for the numbers they report. *)

From S2P Require Import Prelude Effects NetIP Ethernet Arp GoStr Http HttpStream HttpTransport OciRef OciFetch OciStream MemMap Memory BootServices BootMenu KernelBoot CosignProbe.

(** ** Embedded images *)

Section embed.
(** gzip.NewReader and io.ReadAll. *)
Variable gunzip : list byte -> list byte + error.

Definition inflate (gz : list byte) : out (list byte) :=
  if len gz =? 0 then Err ErrEmptyEmbed
  else match gunzip gz with inl out => Ok out | inr e => Err e end.

Definition DecompressChained (chainedEFIGz : list byte) : out (list byte) := inflate chainedEFIGz.

Definition VariantA : list byte := str "A".
Definition VariantB : list byte := str "B".
Definition VariantC : list byte := str "C".
Definition VariantZ : list byte := str "Z".
Definition VariantZ64K : list byte := str "Z64K".
Definition VariantZ1M : list byte := str "Z1M".
Definition VariantZ2M : list byte := str "Z2M".
Definition Variants : list (list byte) := [VariantA; VariantB; VariantC; VariantZ2M; VariantZ1M; VariantZ64K; VariantZ].

Record tinyEmbeds := mkTiny {
  tinyAGz : list byte; tinyBGz : list byte; tinyCGz : list byte; tinyZGz : list byte;
  tinyZ64KGz : list byte; tinyZ1MGz : list byte; tinyZ2MGz : list byte
}.

Definition tinySlot (E : tinyEmbeds) (variant : list byte) : out (list byte) :=
  if bool_decide (variant = VariantA) then Ok (tinyAGz E)
  else if bool_decide (variant = VariantB) then Ok (tinyBGz E)
  else if bool_decide (variant = VariantC) then Ok (tinyCGz E)
  else if bool_decide (variant = VariantZ) then Ok (tinyZGz E)
  else if bool_decide (variant = VariantZ64K) then Ok (tinyZ64KGz E)
  else if bool_decide (variant = VariantZ1M) then Ok (tinyZ1MGz E)
  else if bool_decide (variant = VariantZ2M) then Ok (tinyZ2MGz E)
  else Err ErrUnknownVariant.

Definition DecompressTiny (E : tinyEmbeds) (variant : list byte) : out (list byte) :=
  let* gz := tinySlot E variant in inflate gz.

Section handover.
Context {F : Type} `{Firmware F}.
Notation FwM := (M (Machine F)).

(** From StartImage to the end: the image is unloaded when its status is not
    success. *)
Definition startAndUnload (handle : Z) : FwM Z :=
  st <- StartImage handle ;;
  (if fst st =? 0 then ret tt else ignore (UnloadImage handle)) ;;;
  ret (fst st).

(** The exit status of the child, or the reason of the failure. *)
Definition runEFIHandoverProbe (chainedEFIGz : list byte) : FwM Z :=
  payload <- lift (DecompressChained chainedEFIGz) ;;
  throw_if len payload =? 0 with ErrEmptyEmbed;;
  throw_if negb (isMZ payload) with ErrNotPE;;
  handle <- LoadImage payload ;;
  startAndUnload handle.

Inductive variantResult :=
| variantSkipped
| variantFailed (e : error)
| variantLoaded
| variantPassed (status : Z).

(** Whatever fails, the sweep goes on. *)
Definition runOneVariant (E : tinyEmbeds) (v : list byte) : FwM variantResult :=
  match DecompressTiny E v with
  | Panic => lift Panic
  | Err e => ret (if bool_decide (e = ErrEmptyEmbed) then variantSkipped else variantFailed e)
  | Ok payload =>
      if negb (isMZ payload) then ret (variantFailed ErrNotPE)
      else
        h <- try (LoadImage payload) ;;
        match h with
        | inr e => ret (variantFailed e)
        | inl handle =>
            if bool_decide (v = VariantC) then ret variantLoaded
            else status <- startAndUnload handle ;; ret (variantPassed status)
        end
  end.

Fixpoint sweep (E : tinyEmbeds) (vs : list (list byte)) : FwM (list variantResult) :=
  match vs with
  | [] => ret []
  | v :: vs => r <- runOneVariant E v ;; rs <- sweep E vs ;; ret (r :: rs)
  end.
Definition runEFITinyHandoverProbe (E : tinyEmbeds) : FwM (list variantResult) := sweep E Variants.
End handover.
End embed.

(** ** Images from a registry *)

Definition ociM7MaxBlobBytes : Z := 800 * 1024.
Definition keepSmall (d : Descriptor) : bool := (0 <? d_Size d) && (d_Size d <=? ociM7MaxBlobBytes).
Definition probeArch (goarch : list byte) : list byte :=
  if bool_decide (goarch = str "loong64") || bool_decide (goarch = str "riscv64") then str "amd64" else goarch.

(** The totals that the program counts and prints: bytes by the filter's
    closure, layers by the loop over the artifact. *)
Definition countKept (totalLayerBytes : Z) (d : Descriptor) : Z :=
  if keepSmall d then s64 (totalLayerBytes + d_Size d) else totalLayerBytes.
Definition fetchedLayers (art : Artifact) : Z := len (filter is_Some (art_LayerBlobs art)).

(** io.Discard *)
#[global] Instance discard : Writer unit := { wrWrite b := fun w => (Ok (len b, None), w) }.

(** The loop that looks for the biggest layer. *)
Definition bigger (target l : Descriptor) : Descriptor := if d_Size target <? d_Size l then l else target.

Section fetch.
Context {T : Type} `{Transport T}.
Variable Sum256 : list byte -> list byte.
Variable J : Decoders.
Variable goarch : list byte.
Notation RegM := (M (Registry T)).

Definition openRegistry (target : list byte) (requestTimeout : Z) (dns : IP) : RegM Ref :=
  ref <- lift (ParseRef target) ;;
  modify (fun r => mkRegistry (reg_Transport r) (Some dns) ref (15 * second) requestTimeout []) ;;;
  ret ref.

(** From the lease on: the artifact, the layers fetched and the bytes counted. *)
Definition runOCIFetchProbe (ociM7TargetRef : list byte) (dns : IP) : RegM (Artifact * Z * Z) :=
  openRegistry ociM7TargetRef (30 * second) dns ;;;
  art <- FetchArtifact Sum256 J (mkFetchOptions [] (probeArch goarch) (Some keepSmall) false) ;;
  ret (art, fetchedLayers art, foldl countKept 0 (m_Layers (art_Manifest art))).

(** From the lease on: the bytes streamed. *)
Definition runOCIStreamFetchProbe (st : option (StreamTransport T)) (ociStreamTargetRef : list byte) (dns : IP) : RegM Z :=
  ref <- openRegistry ociStreamTargetRef (60 * second) dns ;;
  Authenticate ;;;
  rawManifest <- rawManifestOf J (probeArch goarch) ref ;;
  m <- lift (ParseManifest J rawManifest) ;;
  match m_Layers m with
  | [] => throw ErrNoLayers
  | layer :: layers =>
      r <- zoom (fun r => (r, tt)) (fun s _ => fst s) (FetchBlobStream Sum256 st (foldl bigger layer layers)) ;;
      match snd r with
      | Some e => throw e
      | None => ret (fst r)
      end
  end.
End fetch.

(** ** The ARP request (buildARPRequest) *)

Fixpoint setAll (frame : list byte) (kvs : list (Z * Z)) : out (list byte) :=
  match kvs with
  | [] => Ok frame
  | (i, v) :: kvs => let* frame := setAt frame i v in setAll frame kvs
  end.

Definition buildARPRequest (srcMAC srcIP dstIP : list byte) : out (list byte) :=
  let* frame := setAll (make 42) (map (fun i => (i, 0xFF)) [0; 1; 2; 3; 4; 5]) in
  let* frame := copyAt frame 6 12 srcMAC in
  let* frame := setAll frame [(12, 0x08); (13, 0x06); (14, 0x00); (15, 0x01); (16, 0x08); (17, 0x00); (18, 6); (19, 4); (20, 0x00); (21, 0x01)] in
  let* frame := copyAt frame 22 28 srcMAC in
  let* frame := copyAt frame 28 32 srcIP in
  copyAt frame 38 42 dstIP.

(** The probe's request is the one the stack sends. *)
Theorem probe_arp_request srcMAC srcIP dstIP :
  len srcMAC = 6 -> len srcIP = 4 -> len dstIP = 4 ->
  buildARPRequest srcMAC srcIP dstIP =
    (let* pkt := buildARPPacket ARPOpRequest srcMAC srcIP (make 6) dstIP in MarshalEthernet BroadcastMAC srcMAC EtherTypeARP pkt).
Proof. intros Hm Hs Hd. explode srcMAC Hm. explode srcIP Hs. explode dstIP Hd. vm_compute. reflexivity. Qed.

(** ** What the firmware is asked *)

Abbreviation entry := (bootCall * memory * bootAnswer)%type.
Definition callOf (c : entry) : bootCall := fst (fst c).

(** The calls when the payload was loaded, or was refused, or never came so far. *)
Definition loadedAs (image : Z) (payload : list byte) (h : Z) (c : entry) : Prop :=
  callOf c = bsLoadImage 0 image [] payload /\ ba_status (snd c) = efiSuccess /\ ba_out (snd c) = h.
Definition refused (image : Z) (payload : list byte) (cs : list entry) : Prop :=
  cs = [] \/ exists c, cs = [c] /\ callOf c = bsLoadImage 0 image [] payload /\ ba_status (snd c) <> efiSuccess.
(** The calls when the image of that handle was started and came back with that
    status: it is unloaded when the status is not success. *)
Definition ranTo (h status : Z) (cs : list entry) : Prop :=
  exists c rest, cs = c :: rest /\ callOf c = bsStartImage h /\ ba_status (snd c) = status /\
    map callOf rest = if status =? efiSuccess then [] else [bsUnloadImage h].
Definition handedOver (image : Z) (payload : list byte) (status : Z) (cs : list entry) : Prop :=
  exists h c rest, cs = c :: rest /\ loadedAs image payload h c /\ ranTo h status rest.

Section calls.
Context {F : Type} `{Firmware F}.

(** The calls a run adds, and what it leaves alone. *)
Definition adds (s s' : Machine F) (cs : list entry) : Prop :=
  mc_calls s' = mc_calls s ++ cs /\ mc_bs s' = mc_bs s /\ mc_image s' = mc_image s.
Lemma adds_none s : adds s s [].
Proof. split; [by rewrite app_nil_r|done]. Qed.
Lemma adds_app s1 s2 s3 cs1 cs2 : adds s1 s2 cs1 -> adds s2 s3 cs2 -> adds s1 s3 (cs1 ++ cs2).
Proof. intros (H1 & B1 & I1) (H2 & B2 & I2). split; [by rewrite H2, H1, app_assoc|]. split; congruence. Qed.

Lemma efiCall_adds c (s : Machine F) : exists a s', efiCall c s = (Ok a, s') /\ adds s s' [(c, mc_mem s, a)].
Proof. unfold efiCall. destruct (fwStep _ _ _) as [[a m] f]. eexists _, _. split; [reflexivity|done]. Qed.

Lemma needBootServices_run (s : Machine F) : needBootServices s = (if mc_bs s =? 0 then Err ErrNoBootServices else Ok tt, s).
Proof. unfold needBootServices. mrun. by destruct (mc_bs s =? 0). Qed.

Lemma LoadImage_adds payload (s : Machine F) :
  exists r s' cs, LoadImage payload s = (r, s') /\ adds s s' cs /\
    match r with
    | Ok h => mc_bs s <> 0 /\ exists c, cs = [c] /\ loadedAs (mc_image s) payload h c
    | Err _ => refused (mc_image s) payload cs
    | Panic => False
    end.
Proof.
  unfold LoadImage. destruct (len payload =? 0). { eexists _, _, []. split; [reflexivity|]. split; [apply adds_none|by left]. }
  unfold bind at 1. rewrite needBootServices_run. destruct (Z.eqb_spec (mc_bs s) 0). { eexists _, _, []. split; [reflexivity|]. split; [apply adds_none|by left]. }
  unfold bind, gets. destruct (mc_image s =? 0) eqn:Ei. { eexists _, _, []. split; [reflexivity|]. split; [apply adds_none|by left]. }
  destruct (efiCall_adds (bsLoadImage 0 (mc_image s) [] payload) s) as (a & s' & -> & Ha).
  unfold success. destruct (Z.eqb_spec (ba_status a) efiSuccess) as [Es|Es]; mrun; eexists _, _, _; (split; [reflexivity|]; split; [exact Ha|]).
  - split; [done|]. by eexists.
  - right. by eexists.
Qed.

Lemma startAndUnload_adds h (s : Machine F) : mc_bs s <> 0 ->
  exists st s' cs, startAndUnload h s = (Ok st, s') /\ adds s s' cs /\ ranTo h st cs.
Proof.
  intros Hbs. unfold startAndUnload, StartImage. mrun. rewrite (proj2 (Z.eqb_neq _ _) Hbs).
  destruct (efiCall_adds (bsStartImage h) s) as (a & s1 & -> & Ha). mrun. destruct (Z.eqb_spec (ba_status a) 0) as [Es|Es].
  - eexists _, _, _. split; [reflexivity|]. split; [exact Ha|]. eexists _, []. by rewrite Es.
  - unfold UnloadImage, bind. rewrite needBootServices_run. destruct Ha as (Hc & Hb & Hi).
    rewrite Hb, (proj2 (Z.eqb_neq _ _) Hbs). destruct (efiCall_adds (bsUnloadImage h) s1) as (a2 & s2 & -> & Ha2).
    unfold success. destruct (ba_status a2 =? efiSuccess); mrun;
      (eexists _, _, _; split; [reflexivity|]; split; [eapply adds_app; [split_and!; [exact Hc|exact Hb|exact Hi]|exact Ha2]|];
       eexists _, _; split; [reflexivity|]; split; [done|]; split; [done|]; by rewrite (proj2 (Z.eqb_neq (ba_status a) efiSuccess) Es)).
Qed.

Variable gunzip : list byte -> list byte + error.
Lemma inflate_safe gz : inflate gunzip gz <> Panic.
Proof. unfold inflate. destruct (len gz =? 0); [done|]. by destruct (gunzip gz). Qed.

(** The hand-over over any firmware never panics; it succeeds with a status when
    the embedded payload, an MZ image, was loaded, and then it was started, once, came
    back with that status and was unloaded when that is not success; when it fails, no
    image was started. *)
Theorem handover_calls gz (s : Machine F) :
  exists r s' cs, runEFIHandoverProbe gunzip gz s = (r, s') /\ mc_calls s' = mc_calls s ++ cs /\
    match r with
    | Ok st => exists payload, DecompressChained gunzip gz = Ok payload /\ isMZ payload = true /\ handedOver (mc_image s) payload st cs
    | Err _ => exists payload, refused (mc_image s) payload cs
    | Panic => False
    end.
Proof.
  unfold runEFIHandoverProbe. pose proof (inflate_safe gz) as Hp. unfold DecompressChained.
  destruct (inflate gunzip gz) as [payload|e|] eqn:Ed; [|mrun; eexists _, _, []; split; [reflexivity|]; split; [by rewrite app_nil_r|exists []; by left]|done].
  mrun. destruct (len payload =? 0); [eexists _, _, []; split; [reflexivity|]; split; [by rewrite app_nil_r|exists []; by left]|].
  destruct (isMZ payload) eqn:Emz; cbn [negb]; [|eexists _, _, []; split; [reflexivity|]; split; [by rewrite app_nil_r|exists []; by left]].
  unfold bind. destruct (LoadImage_adds payload s) as ([h|e|] & s1 & cs & -> & Ha & Hr); [|by eexists _, _, _; split; [reflexivity|]; split; [apply Ha|eexists]|done].
  destruct Hr as (Hbs & c & -> & Hl). assert (mc_bs s1 <> 0) as Hbs1 by (destruct Ha as (_ & -> & _); exact Hbs).
  destruct (startAndUnload_adds h s1 Hbs1) as (st & s2 & cs2 & -> & Ha2 & Hr). eexists _, _, _. split; [reflexivity|].
  split; [by apply (adds_app _ _ _ _ _ Ha Ha2)|]. exists payload. split; [done|]. split; [done|]. by eexists h, c, _.
Qed.

(** The calls that an outcome of a variant stands for. *)
Definition attempted (E : tinyEmbeds) (image : Z) (v : list byte) (res : variantResult) (cs : list entry) : Prop :=
  match res with
  | variantSkipped => DecompressTiny gunzip E v = Err ErrEmptyEmbed /\ cs = []
  | variantFailed _ => exists payload, refused image payload cs
  | variantLoaded => v = VariantC /\ exists payload h c,
      DecompressTiny gunzip E v = Ok payload /\ isMZ payload = true /\ cs = [c] /\ loadedAs image payload h c
  | variantPassed status => v <> VariantC /\ exists payload,
      DecompressTiny gunzip E v = Ok payload /\ isMZ payload = true /\ handedOver image payload status cs
  end.

Lemma DecompressTiny_safe E v : DecompressTiny gunzip E v <> Panic.
Proof. unfold DecompressTiny, tinySlot. repeat case_bool_decide; cbn [out_bind]; try apply inflate_safe. done. Qed.

Lemma runOneVariant_adds E v (s : Machine F) :
  exists res s' cs, runOneVariant gunzip E v s = (Ok res, s') /\ adds s s' cs /\ attempted E (mc_image s) v res cs.
Proof.
  unfold runOneVariant. pose proof (DecompressTiny_safe E v) as Hp. destruct (DecompressTiny gunzip E v) as [payload|e|] eqn:Ed; [| |done].
  2: { eexists _, s, []. split; [reflexivity|]. split; [apply adds_none|]. case_bool_decide as He; [by subst e; split|]. exists []. by left. }
  destruct (isMZ payload) eqn:Emz; cbn [negb]; [|eexists _, s, []; split; [reflexivity|]; split; [apply adds_none|]; exists []; by left].
  mrun. destruct (LoadImage_adds payload s) as ([h|e|] & s1 & cs & -> & Ha & Hr); [|by eexists _, _, _; split; [reflexivity|]; split; [exact Ha|eexists]|done].
  destruct Hr as (Hbs & c & -> & Hl). case_bool_decide as Hc.
  { eexists _, _, _. split; [reflexivity|]. split; [exact Ha|]. split; [done|]. by eexists _, _, _. }
  assert (mc_bs s1 <> 0) as Hbs1 by (destruct Ha as (_ & -> & _); exact Hbs).
  destruct (startAndUnload_adds h s1 Hbs1) as (st & s2 & cs2 & -> & Ha2 & Hr). eexists _, _, _. split; [reflexivity|].
  split; [exact (adds_app _ _ _ _ _ Ha Ha2)|]. split; [done|]. exists payload. split; [done|]. split; [done|]. by eexists h, c, _.
Qed.

(** The sweep over any firmware runs to its end, through every variant in its order,
    and its calls are those of the variants one after the other: an image is started
    at most once, only when it was loaded from the payload of the variant, and variant
    C, whose program never returns, is only loaded. *)
Theorem tiny_sweep_calls E (s : Machine F) :
  exists rs s' css, runEFITinyHandoverProbe gunzip E s = (Ok rs, s') /\ mc_calls s' = mc_calls s ++ concat css /\
    Forall3 (attempted E (mc_image s)) Variants rs css.
Proof.
  unfold runEFITinyHandoverProbe.
  enough (forall vs s, exists rs s' css, sweep gunzip E vs s = (Ok rs, s') /\ adds s s' (concat css) /\ Forall3 (attempted E (mc_image s)) vs rs css) as Hall.
  { destruct (Hall Variants s) as (rs & s' & css & Hr & Ha & Hf). exists rs, s', css. split; [done|]. split; [apply Ha|done]. }
  clear s. intros vs. induction vs as [|v vs IH]; intros s; cbn [sweep].
  - exists [], s, []. split; [reflexivity|]. split; [apply adds_none|constructor].
  - unfold bind at 1. destruct (runOneVariant_adds E v s) as (r & s1 & cs & -> & Ha & Hr). unfold bind.
    destruct (IH s1) as (rs & s2 & css & -> & Has & Hrs). exists (r :: rs), s2, (cs :: css). split; [reflexivity|].
    split; [exact (adds_app _ _ _ _ _ Ha Has)|]. constructor; [done|]. destruct Ha as (_ & _ & Hi). by rewrite Hi in Hrs.
Qed.
End calls.

(** The sweep on the demonstration firmware, where gzip is the identity. *)
Definition demoTiny : tinyEmbeds := mkTiny [] [] (str "MZ-C") (str "MZ-Z") (str "bad") [] (str "MZ-2M").
Example demo_sweep :
  let '(r, s) := runEFITinyHandoverProbe inl demoTiny toyMachine in
  (r, map callOf (mc_calls s)) =
  (Ok [variantSkipped; variantSkipped; variantLoaded; variantPassed 0; variantSkipped; variantFailed ErrNotPE; variantPassed 0],
   [bsLoadImage 0 1 [] (str "MZ-C"); bsLoadImage 0 1 [] (str "MZ-2M"); bsStartImage 2; bsLoadImage 0 1 [] (str "MZ-Z"); bsStartImage 2]).
Proof. vm_compute. reflexivity. Qed.

(** ** What was fetched *)

#[global] Instance discard_ok : WriterOk unit.
Proof. split. intros b w n w' [= <- _]. done. Qed.

Lemma s64_add_l a b : s64 (s64 a + b) = s64 (a + b).
Proof.
  unfold s64. replace ((a + 2 ^ 63) mod 2 ^ 64 - 2 ^ 63 + b + 2 ^ 63) with ((a + 2 ^ 63) mod 2 ^ 64 + b) by lia.
  rewrite Zplus_mod_idemp_l. by replace (a + 2 ^ 63 + b) with (a + b + 2 ^ 63) by lia.
Qed.

Lemma bigger_max layers target :
  let t := foldl bigger target layers in
  t ∈ target :: layers /\ Forall (fun l => d_Size l <= d_Size t) (target :: layers).
Proof.
  revert target. induction layers as [|l layers IH]; intros target; cbn [foldl].
  - split; [by left|]. by repeat constructor.
  - destruct (IH (bigger target l)) as [Hin Hle]. apply Forall_cons in Hle as [Hb Hle].
    assert (d_Size target <= d_Size (bigger target l) /\ d_Size l <= d_Size (bigger target l)) as [Ht Hl] by (unfold bigger; destruct (Z.ltb_spec (d_Size target) (d_Size l)); lia).
    split.
    + apply elem_of_cons in Hin as [Hin|Hin]; [|by do 2 right]. rewrite Hin. unfold bigger at 1. destruct (_ <? _); [right; left|left].
    + repeat (apply Forall_cons; split); [lia|lia|done].
Qed.

Section fetched.
Context {T : Type} `{Transport T}.
Variable Sum256 : list byte -> list byte.
Variable J : Decoders.
Variable goarch : list byte.

Lemma openRegistry_ok target timeout dns (r : Registry T) ref r' :
  openRegistry target timeout dns r = (Ok ref, r') -> ParseRef target = Ok ref /\ reg_Ref r' = ref.
Proof. unfold openRegistry. intros (x & r1 & [Hp ->]%lift_ok & (u & r2 & [= _ <-] & [-> ->]%ret_ok)%bind_ok)%bind_ok. done. Qed.

(** What the fetch reports adds up: the layers counted are the kept ones, each of
    which was fetched, matches its descriptor and fits the cap, and the total is
    that of the bytes that arrived, as an int64. *)
Theorem oci_fetch_totals target dns (r r' : Registry T) art n total :
  runOCIFetchProbe Sum256 J goarch target dns r = (Ok (art, n, total), r') ->
  let blobs := omap id (art_LayerBlobs art) in
  Forall2 (fun d b => blobOf Sum256 d b /\ 0 < len b <= ociM7MaxBlobBytes) (List.filter keepSmall (m_Layers (art_Manifest art))) blobs /\
  n = len blobs /\ total = s64 (len (concat blobs)).
Proof.
  unfold runOCIFetchProbe. intros (ref & r1 & _ & (a & r2 & Ha & [Hr _]%ret_ok)%bind_ok)%bind_ok. injection Hr as -> -> ->.
  unfold FetchArtifact in Ha. cbv zeta in Ha. apply guard_ok in Ha as [_ ([] & r3 & _ & Ha)%bind_ok]. apply bind_ok in Ha as ([[rf raw] ix] & r4 & _ & Ha).
  apply bind_ok in Ha as (m & r5 & _ & Ha). apply bind_ok in Ha as (cfg & r6 & _ & Ha). apply bind_ok in Ha as (bs & r7 & Hl & [-> _]%ret_ok).
  apply fetchLayers_ok in Hl. cbn [art_LayerBlobs art_Manifest]. unfold fetchedLayers. cbn [art_LayerBlobs].
  clear dns target ref cfg.
  assert (forall t, foldl countKept (s64 t) (m_Layers m) = s64 (t + len (concat (omap id bs))) /\
    Forall2 (fun d b => blobOf Sum256 d b /\ 0 < len b <= ociM7MaxBlobBytes) (List.filter keepSmall (m_Layers m)) (omap id bs) /\
    len (filter is_Some bs) = len (omap id bs)) as Ht.
  { induction Hl as [|d ob ds bs Hd Hl IH]; intros t.
    { cbn. rewrite Z.add_0_r. split; [done|]. by split. }
    unfold layerOk, wanted in Hd. cbn [opt_LayerFilter] in Hd. cbn [foldl List.filter]. unfold countKept at 2. destruct (keepSmall d) eqn:Ek.
    - destruct Hd as (b & -> & Hb). unfold keepSmall in Ek. assert (len b = d_Size d) as Hlb by (apply Hb; lia).
      destruct (IH (t + d_Size d)) as (H1 & H2 & H3). rewrite s64_add_l. cbn. rewrite H1, len_app. split; [f_equal; lia|].
      split; [constructor; [split; [done|lia]|done]|]. rewrite decide_True by done. rewrite !len_cons. f_equal. exact H3.
    - subst ob. destruct (IH t) as (H1 & H2 & H3). done. }
  destruct (Ht 0) as (H1 & H2 & H3). split; [done|]. split; [done|]. exact H1.
Qed.

(** A streamed layer is a biggest one of a manifest that the registry answered for
    the target, and what was streamed matches its digest and is as long as was
    reported. *)
Theorem oci_stream_biggest X `{!StreamSound X} target dns (r r' : Registry T) n :
  runOCIStreamFetchProbe Sum256 J goarch (Some X) target dns r = (Ok n, r') ->
  exists ref raw m layer body, ParseRef target = Ok ref /\ answered ref raw /\ ParseManifest J raw = Ok m /\
    layer ∈ m_Layers m /\ Forall (fun l => d_Size l <= d_Size layer) (m_Layers m) /\ blobOf Sum256 layer body /\ len body = n.
Proof.
  unfold runOCIStreamFetchProbe. intros (ref & r1 & [Href Hr1]%openRegistry_ok & ([] & r2 & Ha & Hk)%bind_ok)%bind_ok.
  pose proof (Authenticate_ref r1) as Hr2. rewrite Ha in Hr2. cbn [snd] in Hr2.
  apply bind_ok in Hk as (raw & r3 & Hraw & (m & r4 & [Hm ->]%lift_ok & Hk)%bind_ok).
  apply (rawManifestOf_ok J (probeArch goarch) ref) in Hraw; [|congruence].
  destruct (m_Layers m) as [|l0 ls] eqn:El; [done|]. apply bind_ok in Hk as ([k oe] & r5 & Hs & Hk). cbn [fst snd] in Hk.
  destruct oe as [e|]; [done|]. apply ret_ok in Hk as [-> ->]. unfold zoom in Hs.
  destruct (FetchBlobStream _ _ _ _) as [o [r6 w]] eqn:Ef. injection Hs as -> _.
  destruct (bigger_max ls l0) as [Hin Hle]. exists ref, raw, m, (foldl bigger l0 ls). rewrite El.
  unfold FetchBlobStream in Ef. destruct (ParseDigest _); [|done|done]. apply bind_ok in Ef as (r0 & s & [= <- <-] & Ef).
  apply (streamFrom_ok X Sum256 id (fun _ => True)) in Ef as (w1 & body & _ & _ & Hn & Hb); [|done|done].
  exists body. done.
Qed.
End fetched.
